(* ===== verification/_CoqProject ===== *)
-Q . S2P
Prelude.v
Strconv.v
StableSort.v
Encodings.v
PacketTypes.v
RowCodec.v
PacketOps.v
Compression.v
Compact.v
MercuryHash.v
XmlWriter.v
PacketParser.v
Integrity.v
Encryption.v
Wire.v
DictionaryV14.v
SpecialValuesV131.v
PipelineVerify.v
PacketGenerator.v
Streaming.v
Lexer.v
SqlParser.v
SchemaPkg.v
QueryFilter.v
TdtqlGenerator.v
QueryExecutor.v
QuerySemantics.v
SqlGenerator.v
CircuitBreaker.v
KeyStore.v
GoMaps.v
MergePkg.v
DiffPkg.v
Retry.v
SqlGuard.v
CertAuthority.v
CertRuns.v
CaSession.v
FieldProcessors.v
FieldValidator.v
ExportChain.v
License.v
Orchestrator.v
OrchestratorRuns.v
OrchestratorApi.v
Workflow.v
Sanitize.v
Mapping.v
IncrementalSync.v
AdapterImport.v
AdapterExport.v
