(* ===== verification/Prelude.v ===== *)
(** * TDTP framework: verification development (root file and prelude)

    The repository is a Go framework that moves tables between systems.  A table is cut into packets
    (src/pkg/core/packet) that travel as XML through files, brokers and pipelines, possibly compressed,
    compacted, signed and encrypted; queries over them are written in a small SQL (src/pkg/core/tdtql) and
    run on rows or turned into SQL for a database; adapters read tables from databases and write them back;
    rows are masked, validated, mapped, merged and compared on the way; a service, xZMercury (src/xzmercury),
    holds the packets' hashes and one-time keys and is itself admitted by a certificate authority; licences
    gate the commands, and an orchestrator (src/cmd/orchestrator) runs approved scenarios on request, on
    schedule and on events.  This library translates that code into Rocq functions and proves what it
    promises.

    ** Conventions

    A Go string is Rocq's [string] of bytes; an [int] is a [Z] (wrapped to 64 bits where an overflow can be
    reached, [wrap64]) and a length a [nat]; a struct is a Record with the fields of the source, a method on
    a pointer takes and returns the value; an error is the [Err] side of [result], a nil pointer is [None].
    Code outside the repository is an argument: a class of operations with, apart, a class of the laws its
    documentation states and an instance on which the witnesses compute ([GoCase], [GoValues], [Codec],
    [HashEnv], [HashHttp], [Marshal], [Gcm], [SectionXml], [Hmac]; [GoRange] for the order in which Go ranges
    over a map, [GoRegexp], [CaCrypto], [DlqJson], [LicenseEnv], [AuditEnv], [OrchEnv], [Directory], [CronLib],
    [Unidecoder], [GuardEnv], [StateJson], [TableStore]).  The laws of JSON keep texts of valid UTF-8 only
    ([ToValidUTF8], [utf8_text] of Strconv), as encoding/json does.  Clock readings, random bytes, the answers of a
    directory or a database and the failures of Redis commands, files and statements are arguments of the
    functions that meet them.

    ** Files

    Shared: Prelude (results, strings, case mapping, tactics and hints), Strconv (strconv, strings and
    unicode/utf8 of Go), StableSort (sort.SliceStable), Encodings (base64, hex, big-endian).

    Packets (src/pkg/core/packet): PacketTypes (types.go, query.go), RowCodec (escaping and splitting of
    rows, generator.go and parser.go), PacketOps (types.go, utils.go), PacketGenerator (generator.go,
    uuid.go), Streaming (streaming.go), PacketParser (parser.go), XmlWriter (xmlwriter.go), Compact
    (compact.go), DictionaryV14 (dictionary.go), SpecialValuesV131 (special_values_detect.go and its decoder
    in src/pkg/python/libtdtp/exports_d.go), Integrity (integrity.go), Encryption (encryption.go and
    src/pkg/crypto/encryption.go).  Compression holds src/pkg/processors/compression*.go and checksum.go
    with the two packet functions of tdtpcli; Wire the receiving path of tdtpcli (broker.go, encrypt.go).

    Queries (src/pkg/core/tdtql and src/pkg/core/schema): Lexer (lexer.go), SqlParser (ast.go, parser.go),
    TdtqlGenerator (generator.go, translator.go), SqlGenerator (sql_generator.go, ident.go), SchemaPkg (the
    schema package), QueryFilter (comparator.go, filter.go), QueryExecutor (sorter.go, executor.go);
    QuerySemantics gives the meaning of a query on typed values, apart from the code, and compares.

    Rows and files: MergePkg (src/pkg/merge), DiffPkg (src/pkg/diff), both over GoMaps (maps of Go and their
    order); FieldProcessors (field_masker.go, field_normalizer.go) and FieldValidator (field_validator.go,
    chain.go, factory.go) of src/pkg/processors; ExportChain (what is done to packets before they are written:
    tdtpcli's processors.go and export.go, packet_processor.go, the ETL exporter); Sanitize
    (src/pkg/sanitize); Mapping (src/pkg/core/mapping and tdtpcli's map.go).

    Databases and runs: AdapterImport and AdapterExport (import_helper.go and export_helper.go of
    src/pkg/adapters/base, which every adapter delegates to), IncrementalSync (src/pkg/sync and tdtpcli's
    sync.go), SqlGuard (pipeline variables and the safe mode of SQL: src/pkg/etl/variables.go,
    src/pkg/security/validator.go, pipeline.go), Workflow (src/pkg/workflow), Retry (src/pkg/retry, with the
    circuit breaker as in production.go).

    Admission: CertAuthority (src/xzmercury/internal/ca), CertRuns (its histories), CaSession (caClient,
    envkey, ca_bootstrap.go, middleware.go), License (src/pkg/license, tdtp-license and the gates of tdtpcli);
    Orchestrator (src/cmd/orchestrator), OrchestratorRuns (requests, job goroutines, cron and restarts
    interleaved) and OrchestratorApi (its HTTP interface).

    Services: MercuryHash (the hash registry: hashstore, api/hashes.go, hashclient.go), PipelineVerify
    (src/pkg/pipeline), KeyStore (keystore, quota, acl, request, ldap/cache.go, api/keys.go of xZMercury,
    and the producer's side in src/pkg/mercury and src/pkg/processors/encryption.go), CircuitBreaker
    (src/pkg/resilience).

    ** What the theorems show

    Round trips: rows, compressed, compact, encrypted and XML packets, special values and dictionaries come
    back as they were, with the exact conditions; a message sent compressed and encrypted is delivered
    ([Wire.broker_message_delivers]); parsing SQL undoes printing it.  Generation: the parts of a reference
    hold the rows in order within the size limit, and the streaming generator refines the batch one.
    Queries: translation of WHERE clauses keeps their meaning, and an SQL text returns the rows it asks for, in
    the order and page it asks for, by a meaning of conditions on typed values
    ([QuerySemantics.sql_query_execution]); SQL written for a database means the filters, whatever bytes the
    values contain, if the names are writable ([SqlGenerator.where_clause_means_filters]).  Integrity: what
    verification accepts was registered and unchanged, and a slot of the registry belongs to its first
    registration.  Keys: a key is delivered at
    most once, whatever the order of requests and the failures of Redis, quotas are never overspent.  The circuit breaker: its
    limits, tripping, shielding and recovery, over interleaved calls.  Retrying makes the calls its
    configuration asks for and a message it gives up is in the dead letter queue, also after a restart.
    Merging keeps one row per key and comparing classifies every key once.  A copy import replaces a table or
    leaves it, whichever statement fails; a projection gives the columns asked for.  A validator keeps or refuses
    rows by rules that are stated apart from its code, and a schema is accepted exactly if its types and attributes
    are there.  A mapping fills its targets as it says and, its commands not writing over what they have not read,
    is not started twice.  A workflow runs its steps after those they depend on and ends without an error exactly if
    there is no cycle.  The certificate authority gives a session token only for a fresh challenge, once, and a
    revoked certificate is locked out; a capability certificate is used once; only approved scenario texts are
    run, and a cancelled job is not.  A pipeline in safe mode runs guarded SQL whatever its variables hold.
    Some theorems state where the code does not do what it means to, with the exact circumstances (for instance
    [AdapterExport.sync_stuck_after_first_run] and [CaSession.keys_refused_between_renewals]).

    ** Bounds and fuel

    The loops of the lexer and the SQL parser run on fuel one above the bytes and tokens still to come;
    [SqlParser.parse_select_terminates] shows it is never used up.  Other fuel is the length of the text
    read ([runes], [TrimSpace], the readers of SqlGenerator), each step consuming a byte, and is shown
    enough by the theorems that compute results with it.  The waves of a workflow run on one more than its
    steps, and [Workflow.workflow_completes_iff_acyclic] shows they never run out; collapsing underscores runs on the
    length of the name ([Sanitize.collapse_correct]); the retry loop takes any fuel, and
    [Retry.retry_runs_until_decided] says how much gives a result.  Quota balances are exact integers, as Lua's
    numbers are below 10^14.

    ** Not modelled

    The adapters' SQL dialects, type tables and scanning of values, and the clients of brokers and storage: what
    they do is decided by databases, drivers and servers.  Loading ETL sources into a workspace and spooling to
    Kafka, the audit and result logs, operating-system privileges: input and output.  Commands and user
    interfaces (web, spreadsheets, drawings, the C exports for Python) beyond what the files above name: calls
    of the packages that are modelled.  Groups of circuit breakers, the administrators' listings of the
    certificate authority and of the orchestrator, the text reports of merge and diff.  Logging, metrics and the
    text of error messages are left out everywhere. *)

From Stdlib Require Import ZArith Lia Ascii String.
From stdpp Require Import base list strings pretty gmap.

#[global] Set Warnings "-notation-overridden,-clear-no-such-hyp".

(** ** Go errors: a value or an error *)

Inductive result (E A : Type) : Type :=
| Ok (a : A)
| Err (e : E).
Arguments Ok {E A} a.
Arguments Err {E A} e.

#[export] Instance result_ret {E} : MRet (result E) := fun A a => Ok a.
#[export] Instance result_bind {E} : MBind (result E) :=
  fun A B f m => match m with Ok a => f a | Err e => Err e end.
#[export] Instance result_fmap {E} : FMap (result E) :=
  fun A B f m => match m with Ok a => Ok (f a) | Err e => Err e end.

(** [is_ok r] is Go's [err == nil]. *)
Definition is_ok {E A} (r : result E A) : bool :=
  match r with Ok _ => true | Err _ => false end.

(** [check_ b e k]: the guard [if b { return e }] followed by [k]. *)
Definition check_ {E A} (b : bool) (e : E) (k : result E A) : result E A :=
  if b then Err e else k.

Declare Scope go_scope.
Delimit Scope go_scope with go.
Notation "'fail_if' b 'with' e ';;' k" := (check_ b e k)
  (at level 10, b at level 99, e at level 99, k at level 200) : go_scope.
Open Scope go_scope.

(** ** Go strings: byte sequences, as Rocq's [string] of 8-bit characters *)

#[global] Arguments String.append !s1 s2 : simpl nomatch.

Definition BSLASH : ascii := "\"%char.
Definition PIPE : ascii := "|"%char.
Definition LF : ascii := "010"%char.
Definition NUL : ascii := "000"%char.
Definition DQUOTE : ascii := "034"%char.
Definition SQUOTE : ascii := "'"%char.

(** The one-byte string, Go's [string(c)] for an ASCII byte. *)
Definition chr (c : ascii) : string := String c "".

(** [strings.IndexByte(s, c) != -1]. *)
Fixpoint has_byte (c : ascii) (s : string) : bool :=
  match s with
  | "" => false
  | String d s' => Ascii.eqb d c || has_byte c s'
  end.

(** [strings.Split(s, sep)] for a one-byte separator; [cur] is the piece being read. *)
Fixpoint split_from (sep : ascii) (cur s : string) : list string :=
  match s with
  | "" => [cur]
  | String c s' =>
      if Ascii.eqb c sep then cur :: split_from sep "" s'
      else split_from sep (cur +:+ chr c) s'
  end.
Definition Split (s : string) (sep : ascii) : list string := split_from sep "" s.

(** [strings.Join(l, sep)]. *)
Definition Join (l : list string) (sep : string) : string := String.concat sep l.
#[global] Arguments Join : simpl never.
#[global] Arguments Split : simpl never.

(** [strings.HasPrefix(s, p)] and [strings.TrimPrefix(s, p)]. *)
Fixpoint HasPrefix (s p : string) : bool :=
  match p, s with
  | "", _ => true
  | String a p', String b s' => Ascii.eqb a b && HasPrefix s' p'
  | _, _ => false
  end.
Fixpoint drop_bytes (n : nat) (s : string) : string :=
  match n, s with
  | S n', String _ s' => drop_bytes n' s'
  | _, _ => s
  end.
Definition TrimPrefix (s p : string) : string :=
  if HasPrefix s p then drop_bytes (String.length p) s else s.

(** Byte order and [strings.Compare] / the [<] of Go strings. *)
Definition byte_val (c : ascii) : N := N_of_ascii c.
Fixpoint str_compare (a b : string) : comparison :=
  match a, b with
  | "", "" => Eq
  | "", _ => Lt
  | _, "" => Gt
  | String x a', String y b' =>
      match N.compare (byte_val x) (byte_val y) with
      | Eq => str_compare a' b'
      | r => r
      end
  end.
Definition str_ltb (a b : string) : bool :=
  match str_compare a b with Lt => true | _ => false end.
Definition str_leb (a b : string) : bool :=
  match str_compare a b with Gt => false | _ => true end.

(** Byte classes. *)
Definition byte_in (lo hi c : ascii) : bool :=
  (byte_val lo <=? byte_val c)%N && (byte_val c <=? byte_val hi)%N.
Definition is_ascii_letter (c : ascii) : bool := byte_in "A" "Z" c || byte_in "a" "z" c.
Definition is_ascii_digit (c : ascii) : bool := byte_in "0" "9" c.
Definition is_word_byte (c : ascii) : bool := is_ascii_letter c || is_ascii_digit c || Ascii.eqb c "_".
Fixpoint all_bytes (P : ascii -> bool) (s : string) : bool :=
  match s with "" => true | String c s' => P c && all_bytes P s' end.


(** ** Case mapping

    [strings.ToUpper], [strings.ToLower] and [strings.EqualFold] follow the Unicode tables, which are
    not part of this development: the model takes them as an interface.  [GoCaseLaws] states what the
    Go documentation says of them on ASCII strings and that [EqualFold] is an equivalence; the instance
    [ascii_case] implements the interface byte-wise and is what the examples compute with. *)

Class GoCase := {
  ToUpper : string -> string;
  ToLower : string -> string;
  EqualFold : string -> string -> bool;
}.

Definition upper_byte (c : ascii) : ascii :=
  if byte_in "a" "z" c then ascii_of_N (byte_val c - 32) else c.
Definition lower_byte (c : ascii) : ascii :=
  if byte_in "A" "Z" c then ascii_of_N (byte_val c + 32) else c.
Fixpoint map_bytes (f : ascii -> ascii) (s : string) : string :=
  match s with "" => "" | String c s' => String (f c) (map_bytes f s') end.
Definition is_ascii (s : string) : bool := all_bytes (fun c => (byte_val c <? 128)%N) s.

Class GoCaseLaws (C : GoCase) : Prop := {
  ToUpper_ascii s : is_ascii s = true -> ToUpper s = map_bytes upper_byte s;
  ToLower_ascii s : is_ascii s = true -> ToLower s = map_bytes lower_byte s;
  EqualFold_ascii s t : is_ascii s = true -> is_ascii t = true ->
    EqualFold s t = String.eqb (map_bytes lower_byte s) (map_bytes lower_byte t);
  EqualFold_refl s : EqualFold s s = true;
  EqualFold_sym s t : EqualFold s t = EqualFold t s;
  EqualFold_trans s t u : EqualFold s t = true -> EqualFold t u = true -> EqualFold s u = true;
}.

(** The byte-wise instance. *)
Definition ascii_case : GoCase := {|
  ToUpper := map_bytes upper_byte;
  ToLower := map_bytes lower_byte;
  EqualFold s t := String.eqb (map_bytes lower_byte s) (map_bytes lower_byte t);
|}.

(** ** Shared automation *)

Create HintDb go discriminated.
#[export] Hint Constants Transparent : go.

(** Case analysis on the scrutinee of an [if] or a [match] in the goal or in a hypothesis. *)
Ltac go_case :=
  match goal with
  | |- context [if ?b then _ else _] => destruct b eqn:?
  | |- context [match ?x with _ => _ end] => destruct x eqn:?
  end.
Ltac go_case_in H :=
  match type of H with
  | context [if ?b then _ else _] => destruct b eqn:?
  | context [match ?x with _ => _ end] => destruct x eqn:?
  end.

(** Turns boolean equalities on bytes, strings and numbers into propositions. *)
Ltac go_bool :=
  repeat match goal with
  | H : Ascii.eqb _ _ = true |- _ => apply Ascii.eqb_eq in H
  | H : Ascii.eqb _ _ = false |- _ => apply Ascii.eqb_neq in H
  | H : String.eqb _ _ = true |- _ => apply String.eqb_eq in H
  | H : String.eqb _ _ = false |- _ => apply String.eqb_neq in H
  | H : (_ && _)%bool = true |- _ => apply andb_true_iff in H as [? ?]
  | H : (_ || _)%bool = false |- _ => apply orb_false_iff in H as [? ?]
  | H : negb _ = true |- _ => apply negb_true_iff in H
  | H : negb _ = false |- _ => apply negb_false_iff in H
  | H : Z.eqb _ _ = true |- _ => apply Z.eqb_eq in H
  | H : Z.eqb _ _ = false |- _ => apply Z.eqb_neq in H
  | H : Z.ltb _ _ = true |- _ => apply Z.ltb_lt in H
  | H : Z.ltb _ _ = false |- _ => apply Z.ltb_ge in H
  | H : Z.leb _ _ = true |- _ => apply Z.leb_le in H
  | H : Z.leb _ _ = false |- _ => apply Z.leb_gt in H
  | H : Nat.eqb _ _ = true |- _ => apply Nat.eqb_eq in H
  | H : Nat.eqb _ _ = false |- _ => apply Nat.eqb_neq in H
  | H : Nat.ltb _ _ = true |- _ => apply Nat.ltb_lt in H
  | H : Nat.ltb _ _ = false |- _ => apply Nat.ltb_ge in H
  end.

(** ** Generic lemmas: strings *)

Lemma str_app_nil_r (s : string) : s +:+ "" = s.
Proof. induction s as [|c s IH]; simpl; [done|]. by rewrite IH. Qed.

Lemma str_app_assoc (a b c : string) : (a +:+ b) +:+ c = a +:+ (b +:+ c).
Proof. induction a as [|x a IH]; simpl; [done|]. by rewrite IH. Qed.

Lemma str_length_app (a b : string) : String.length (a +:+ b) = String.length a + String.length b.
Proof. induction a as [|c a IH]; simpl; congruence. Qed.

Lemma HasPrefix_chr (c d : ascii) (s : string) : HasPrefix (String c s) (chr d) = Ascii.eqb d c.
Proof. destruct s; apply andb_true_r. Qed.

Lemma str_app_cons (a : string) (c : ascii) (b : string) :
  a +:+ String c b = (a +:+ chr c) +:+ b.
Proof. by rewrite str_app_assoc. Qed.

Lemma str_app_inj (a b c d : string) :
  String.length a = String.length c -> a +:+ b = c +:+ d -> a = c /\ b = d.
Proof.
  revert c; induction a as [|x a IH]; intros [|y c] Hl E; simpl in *; try done.
  injection E as -> E. apply IH in E as [-> ->]; [done|congruence].
Qed.

Lemma has_byte_app (c : ascii) (a b : string) :
  has_byte c (a +:+ b) = has_byte c a || has_byte c b.
Proof. induction a as [|x a IH]; simpl; [done|]. by rewrite IH, orb_assoc. Qed.

Create Rewrite HintDb go_rw.
#[export] Hint Rewrite str_app_nil_r str_app_assoc has_byte_app : go_rw.

(** Bytes of the separator never occur inside the pieces of a split. *)
Lemma split_from_nonempty (sep : ascii) (cur s : string) : split_from sep cur s <> [].
Proof.
  revert cur; induction s as [|c s IH]; intros cur; simpl; [done|].
  destruct (Ascii.eqb c sep); [done|]. apply IH.
Qed.

Lemma Join_cons (x : string) (l : list string) (sep : string) :
  l <> [] -> Join (x :: l) sep = x +:+ sep +:+ Join l sep.
Proof. by destruct l. Qed.

Lemma split_from_app (sep : ascii) (cur x rest : string) :
  has_byte sep x = false ->
  split_from sep cur (x +:+ rest) = split_from sep (cur +:+ x) rest.
Proof.
  revert cur; induction x as [|c x IH]; intros cur Hx; simpl in *.
  - by rewrite str_app_nil_r.
  - apply orb_false_iff in Hx as [-> Hx]. rewrite (IH _ Hx). by rewrite str_app_assoc.
Qed.

(** [strings.Split] undoes [strings.Join] on pieces free of the separator. *)
Lemma Split_Join (sep : ascii) (l : list string) :
  l <> [] -> Forall (fun x => has_byte sep x = false) l -> Split (Join l (chr sep)) sep = l.
Proof.
  intros Hne Hl. unfold Split. destruct l as [|x l]; [done|]. clear Hne.
  revert x Hl; induction l as [|y l IH]; intros x Hl; apply Forall_cons in Hl as [Hx Hl].
  - unfold Join; simpl. rewrite <- (str_app_nil_r x) at 1. by rewrite split_from_app.
  - rewrite Join_cons by done. rewrite split_from_app by done. simpl.
    rewrite Ascii.eqb_refl. f_equal. by apply IH.
Qed.

Lemma Join_split_from (sep : ascii) (cur s : string) :
  Join (split_from sep cur s) (chr sep) = cur +:+ s.
Proof.
  revert cur; induction s as [|c s IH]; intros cur; simpl.
  - unfold Join; simpl. by rewrite str_app_nil_r.
  - destruct (Ascii.eqb c sep) eqn:E; go_bool.
    + subst. rewrite Join_cons by apply split_from_nonempty. by rewrite IH.
    + rewrite IH. by rewrite str_app_assoc.
Qed.

(** [strings.Join] undoes [strings.Split]. *)
Lemma Join_Split (sep : ascii) (s : string) : Join (Split s sep) (chr sep) = s.
Proof. unfold Split. by rewrite Join_split_from. Qed.

Lemma split_from_free (sep : ascii) (cur s : string) :
  has_byte sep cur = false -> Forall (fun x => has_byte sep x = false) (split_from sep cur s).
Proof.
  revert cur; induction s as [|c s IH]; intros cur Hc; simpl; [by constructor|].
  destruct (Ascii.eqb c sep) eqn:E; [constructor; [done|by apply IH]|]. apply IH. rewrite has_byte_app. simpl. by rewrite Hc, E.
Qed.
Lemma Split_two (sep : ascii) (s a b : string) :
  Split s sep = [a; b] <-> s = a +:+ chr sep +:+ b /\ has_byte sep a = false /\ has_byte sep b = false.
Proof.
  split.
  - intros E. pose proof (Join_Split sep s) as Hj. pose proof (split_from_free sep "" s eq_refl) as Hf. fold (Split s sep) in Hf.
    rewrite E in Hj, Hf. rewrite !Forall_cons in Hf. by destruct Hf as (? & ? & _).
  - intros (-> & Ha & Hb). apply (Split_Join sep [a; b]); [done|by repeat constructor].
Qed.

Lemma str_compare_refl (a : string) : str_compare a a = Eq.
Proof. induction a as [|c a IH]; simpl; [done|]. by rewrite N.compare_refl. Qed.

Lemma byte_val_inj (a b : ascii) : byte_val a = byte_val b -> a = b.
Proof.
  unfold byte_val; intros H. by rewrite <- (ascii_N_embedding a), H, ascii_N_embedding.
Qed.

Lemma str_compare_eq (a b : string) : str_compare a b = Eq -> a = b.
Proof.
  revert b; induction a as [|c a IH]; intros [|d b]; simpl; try done.
  destruct (N.compare_spec (byte_val c) (byte_val d)) as [E| |]; try done.
  intros H. by rewrite (byte_val_inj _ _ E), (IH _ H).
Qed.

Lemma str_compare_antisym (a b : string) : str_compare b a = CompOpp (str_compare a b).
Proof.
  revert b; induction a as [|c a IH]; intros [|d b]; simpl; try done.
  rewrite N.compare_antisym. destruct (N.compare (byte_val c) (byte_val d)); simpl; auto.
Qed.

Lemma str_compare_lt_trans (a b c : string) :
  str_compare a b = Lt -> str_compare b c = Lt -> str_compare a c = Lt.
Proof.
  revert b c; induction a as [|x a IH]; intros [|y b] [|z c]; simpl; try done.
  destruct (N.compare_spec (byte_val x) (byte_val y)) as [E|E|E],
           (N.compare_spec (byte_val y) (byte_val z)) as [F|F|F]; try done;
  destruct (N.compare_spec (byte_val x) (byte_val z)) as [G|G|G]; try done; try lia.
  intros; eauto.
Qed.

#[export] Instance ascii_case_laws : GoCaseLaws ascii_case.
Proof.
  split; simpl; try done.
  - intros s. apply String.eqb_refl.
  - intros s t. apply String.eqb_sym.
  - intros s t u H1 H2. apply String.eqb_eq in H1, H2. apply String.eqb_eq. congruence.
Qed.

Lemma Forall2_map_same {A B C} (P : B -> C -> Prop) (f : A -> B) (g : A -> C) (l : list A) :
  (forall x, x ∈ l -> P (f x) (g x)) -> Forall2 P (map f l) (map g l).
Proof.
  induction l as [|x l IH]; intros H; simpl; constructor; [apply H; constructor|].
  apply IH. intros y Hy. apply H. by constructor.
Qed.
