(* ===== verification/Strconv.v ===== *)
(** * Strconv: the parts of Go's [strconv] and [strings] the query and schema packages use

    [ParseInt] follows the library's loop: the digits are accumulated in an unsigned 64-bit integer,
    an overflow is reported at the digit where it happens (before any later byte is looked at), and a
    range error still returns the clamped value, which is what callers that drop the error see.
    [Itoa] is the decimal rendering of stdpp's [pretty].  [runes] decodes UTF-8 as Go's conversion to
    [[]rune] does, and [TrimSpace] trims the encodings of the Unicode white space characters. *)

From Stdlib Require Import ZArith Lia Ascii String.
From stdpp Require Import base list strings pretty.
From S2P Require Import Prelude.

Definition max_uint64 : Z := 2 ^ 64 - 1.
Definition max_int64 : Z := 2 ^ 63 - 1.

(** 64-bit wrap-around. *)
Definition wrap64 (z : Z) : Z := ((z + 2 ^ 63) mod 2 ^ 64 - 2 ^ 63)%Z.
Definition min_int64 : Z := - 2 ^ 63.

(** [strconv.ErrSyntax] and [strconv.ErrRange]. *)
Inductive NumError := ErrSyntax | ErrRange.

Definition digit_val (c : ascii) : Z := Z.of_N (byte_val c) - 48.

(** The loop of [strconv.ParseUint(s, 10, 64)]: [n] is the value read so far. *)
Fixpoint parse_digits (n : Z) (s : string) : result NumError Z :=
  match s with
  | "" => Ok n
  | String c s' =>
      if negb (is_ascii_digit c) then Err ErrSyntax
      else if max_uint64 / 10 + 1 <=? n then Err ErrRange
      else let n1 := n * 10 + digit_val c in
           if max_uint64 <? n1 then Err ErrRange else parse_digits n1 s'
  end%Z.

Definition ParseUint (s : string) : result NumError Z :=
  match s with "" => Err ErrSyntax | _ => parse_digits 0 s end.

(** The value and the error of [strconv.ParseInt(s, 10, 64)] (also [strconv.Atoi] on a 64-bit
    platform). *)
Definition ParseInt_full (s : string) : Z * option NumError :=
  let '(neg, digits) :=
    match s with
    | String c s' => if Ascii.eqb c "-" then (true, s') else if Ascii.eqb c "+" then (false, s') else (false, s)
    | "" => (false, "")
    end in
  match ParseUint digits with
  | Err ErrSyntax => (0, Some ErrSyntax)
  | Err ErrRange => (if neg then min_int64 else max_int64, Some ErrRange)
  | Ok un =>
      if neg then if 2 ^ 63 <? un then (min_int64, Some ErrRange) else (- un, None)
      else if 2 ^ 63 <=? un then (max_int64, Some ErrRange) else (un, None)
  end%Z.

Definition ParseInt (s : string) : result NumError Z :=
  match ParseInt_full s with (z, None) => Ok z | (_, Some e) => Err e end.

(** [n, _ := strconv.Atoi(s)]. *)
Definition Atoi_value (s : string) : Z := fst (ParseInt_full s).

Definition Itoa (z : Z) : string := pretty z.

(** An [int64]. *)
Definition int64b (z : Z) : bool := ((min_int64 <=? z) && (z <=? max_int64))%Z.

(** ** UTF-8 and the text functions built on it *)

Definition cont (c : ascii) : bool := byte_in "128" "191" c.
Definition low6 (c : ascii) : N := byte_val c mod 64.

(** The first code point of a string and the rest; a byte that starts no valid encoding is one
    U+FFFD ([utf8.DecodeRuneInString]). *)
Definition decode_rune (c : ascii) (s : string) : N * string :=
  let bad := (65533%N, s) in
  if (byte_val c <? 128)%N then (byte_val c, s)
  else if byte_in "194" "223" c then
    match s with
    | String a r => if cont a then ((byte_val c mod 32) * 64 + low6 a, r)%N else bad
    | _ => bad
    end
  else if byte_in "224" "239" c then
    match s with
    | String a (String b r) =>
        let lo := if Ascii.eqb c "224" then "160"%char else "128"%char in
        let hi := if Ascii.eqb c "237" then "159"%char else "191"%char in
        if byte_in lo hi a && cont b then ((byte_val c mod 16) * 4096 + low6 a * 64 + low6 b, r)%N else bad
    | _ => bad
    end
  else if byte_in "240" "244" c then
    match s with
    | String a (String b (String d r)) =>
        let lo := if Ascii.eqb c "240" then "144"%char else "128"%char in
        let hi := if Ascii.eqb c "244" then "143"%char else "191"%char in
        if byte_in lo hi a && cont b && cont d
        then ((byte_val c mod 8) * 262144 + low6 a * 4096 + low6 b * 64 + low6 d, r)%N else bad
    | _ => bad
    end
  else bad.

(** [[]rune(s)]; every step takes at least one byte, so the length is enough fuel. *)
Fixpoint runes_fuel (n : nat) (s : string) : list N :=
  match n, s with
  | S n', String c s' => let '(r, rest) := decode_rune c s' in r :: runes_fuel n' rest
  | _, _ => []
  end.
Definition runes (s : string) : list N := runes_fuel (String.length s) s.

(** [string(rs)] for runes: a value that is no code point is encoded as U+FFFD. *)
Definition encode_rune (r : N) : string :=
  (let b n := ascii_of_N n in
   let bad := String (b 239) (String (b 191) (chr (b 189))) in
   if r <? 128 then chr (b r)
   else if r <? 2048 then String (b (192 + r / 64)) (chr (b (128 + r mod 64)))
   else if (55296 <=? r) && (r <=? 57343) then bad
   else if r <? 65536 then String (b (224 + r / 4096)) (String (b (128 + r / 64 mod 64)) (chr (b (128 + r mod 64))))
   else if r <=? 1114111 then
     String (b (240 + r / 262144))
       (String (b (128 + r / 4096 mod 64)) (String (b (128 + r / 64 mod 64)) (chr (b (128 + r mod 64)))))
   else bad)%N.
Fixpoint string_of_runes (rs : list N) : string :=
  match rs with [] => "" | r :: rs' => encode_rune r +:+ string_of_runes rs' end.

(** What a text becomes when Go code that writes valid UTF-8 only (the JSON encoder among it) passes it
    on: every byte that is part of no code point is replaced by U+FFFD.  [utf8_text]: nothing is. *)
Definition ToValidUTF8 (s : string) : string := string_of_runes (runes s).
Definition utf8_text (s : string) : bool := String.eqb (ToValidUTF8 s) s.

(** [utf8.RuneCountInString]. *)
Definition RuneCount (s : string) : nat := length (runes s).

(** [string(b)] for a byte: the UTF-8 encoding of the code point. *)
Definition string_of_byte (b : ascii) : string :=
  if (byte_val b <? 128)%N then chr b
  else String (ascii_of_N (192 + byte_val b / 64)) (chr (ascii_of_N (128 + byte_val b mod 64))).

(** [strings.TrimSpace]: the encodings of the code points [unicode.IsSpace] accepts. *)
Definition space_encodings : list string :=
  map chr [" "; "009"; "010"; "011"; "012"; "013"]%char
  ++ map (fun c => String "194" (chr c)) ["133"; "160"]%char
  ++ [String "225" (String "154" (chr "128"))]
  ++ map (fun c => String "226" (String "128" (chr c)))
       ["128"; "129"; "130"; "131"; "132"; "133"; "134"; "135"; "136"; "137"; "138"; "168"; "169"; "175"]%char
  ++ [String "226" (String "129" (chr "159")); String "227" (String "128" (chr "128"))].

Definition str_rev (s : string) : string := string_of_list_ascii (rev (list_ascii_of_string s)).

Fixpoint strip_first (encs : list string) (s : string) : option string :=
  match encs with
  | [] => None
  | e :: encs' => if HasPrefix s e then Some (drop_bytes (String.length e) s) else strip_first encs' s
  end.
Fixpoint trim_front (n : nat) (encs : list string) (s : string) : string :=
  match n with
  | 0 => s
  | S n' => match strip_first encs s with Some r => trim_front n' encs r | None => s end
  end.
Definition TrimSpace (s : string) : string :=
  let l := trim_front (String.length s) space_encodings s in
  str_rev (trim_front (String.length l) (map str_rev space_encodings) (str_rev l)).

(** [strings.TrimRight(s, string(c))] for one byte. *)
Fixpoint drop_while_byte (c : ascii) (s : string) : string :=
  match s with String d s' => if Ascii.eqb d c then drop_while_byte c s' else s | "" => "" end.
Definition TrimRight (s : string) (c : ascii) : string := str_rev (drop_while_byte c (str_rev s)).

(** [strings.Trim(s, string(c))] for one byte. *)
Definition Trim (s : string) (c : ascii) : string := TrimRight (drop_while_byte c s) c.

(** [strings.ReplaceAll(s, string(c), by)] for a one-byte pattern. *)
Fixpoint replace_byte (c : ascii) (by_ : string) (s : string) : string :=
  match s with
  | "" => ""
  | String d s' => (if Ascii.eqb d c then by_ else chr d) +:+ replace_byte c by_ s'
  end.

(** [strings.Contains(s, p)] and [strings.HasSuffix(s, p)]. *)
Fixpoint Contains (s p : string) : bool :=
  HasPrefix s p || match s with String _ s' => Contains s' p | "" => false end.
Definition EndsWith (s p : string) : bool := HasPrefix (str_rev s) (str_rev p).

(** What follows the prefix. *)
Fixpoint strip_prefix (p s : string) : option string :=
  match p, s with
  | "", _ => Some s
  | String a p', String b s' => if Ascii.eqb a b then strip_prefix p' s' else None
  | _, "" => None
  end.

(** [strings.ReplaceAll(s, p, r)] for a pattern that is not empty. *)
Fixpoint replace_fuel (n : nat) (p r s : string) : string :=
  match n, s with
  | S n', String c s' => match strip_prefix p s with Some rest => r +:+ replace_fuel n' p r rest | None => String c (replace_fuel n' p r s') end
  | _, _ => s
  end.
Definition ReplaceAll (s p r : string) : string := replace_fuel (String.length s) p r s.

(** [strings.Count(s, string(c))] for one byte. *)
Fixpoint Count (s : string) (c : ascii) : nat :=
  match s with "" => 0 | String d s' => (if Ascii.eqb d c then 1 else 0) + Count s' c end.

(** The longest start whose bytes satisfy [P], and the rest. *)
Fixpoint span_bytes (P : ascii -> bool) (s : string) : string * string :=
  match s with
  | "" => ("", "")
  | String c s' => if P c then let '(w, r) := span_bytes P s' in (String c w, r) else ("", s)
  end.

(** The text before and after the first [c]. *)
Fixpoint cut_at (c : ascii) (s : string) : option (string * string) :=
  match s with
  | "" => None
  | String d s' => if Ascii.eqb d c then Some ("", s') else prod_map (String d) id <$> cut_at c s'
  end.

(** [strings.Fields(s)]: the non-empty pieces between runs of white space; [cur] is the one being read. *)
Definition flush_field (cur : string) (rest : list string) : list string :=
  if String.eqb cur "" then rest else cur :: rest.
Fixpoint fields_fuel (n : nat) (cur s : string) : list string :=
  match n with
  | 0 => flush_field cur []
  | S n' =>
      match strip_first space_encodings s with
      | Some r => flush_field cur (fields_fuel n' "" r)
      | None =>
          match s with
          | "" => flush_field cur []
          | String c s' => fields_fuel n' (cur +:+ chr c) s'
          end
      end
  end.
Definition Fields (s : string) : list string := fields_fuel (S (String.length s)) "" s.

(** ** Lemmas *)

Lemma ParseInt_int64 (s : string) : int64b (Atoi_value s) = true.
Proof.
  assert (H : forall d n, (0 <= n)%Z -> match parse_digits n d with Ok u => (0 <= u)%Z | Err _ => True end).
  { induction d as [|c d IH]; intros n Hn; simpl; [lia|].
    destruct (is_ascii_digit c) eqn:Hc; simpl; [|done].
    destruct (_ <=? n)%Z; [done|]. destruct (max_uint64 <? _)%Z; [done|]. apply IH.
    unfold is_ascii_digit, byte_in in Hc. go_bool. unfold digit_val.
    apply N.leb_le in H. change (byte_val "0") with 48%N in H. lia. }
  assert (H' : forall d, match ParseUint d with Ok u => (0 <= u)%Z | Err _ => True end).
  { intros [|c d]; [done|]. apply (H (String c d) 0%Z). lia. }
  unfold Atoi_value, ParseInt_full, int64b, min_int64, max_int64.
  destruct (match s with "" => _ | _ => _ end) as [neg d]. specialize (H' d).
  destruct (ParseUint d) as [u|[]]; simpl; [|done|by destruct neg].
  destruct neg; [destruct (_ <? u)%Z eqn:E|destruct (_ <=? u)%Z eqn:E]; simpl; try done;
    go_bool; apply andb_true_iff; split; apply Z.leb_le; lia.
Qed.

Lemma digit_val_char (x : N) : (x < 10)%N ->
  is_ascii_digit (pretty_N_char x) = true /\ digit_val (pretty_N_char x) = Z.of_N x.
Proof.
  intros Hx. assert (x = 0 \/ x = 1 \/ x = 2 \/ x = 3 \/ x = 4 \/ x = 5 \/ x = 6 \/ x = 7 \/ x = 8 \/ x = 9)%N as
    Hc by lia. repeat destruct Hc as [->|Hc]; subst; done.
Qed.

(** Reading [x] in front of a digit string [s] is reading [s] from the value of [x]. *)
Lemma parse_digits_pretty_go (x : N) (s : string) :
  (Z.of_N x <= max_uint64)%Z ->
  parse_digits 0 (pretty_N_go x s) = parse_digits (Z.of_N x) s.
Proof.
  revert s; induction (N.lt_wf_0 x) as [x _ IH]; intros s Hx.
  assert (x = 0 \/ 0 < x)%N as [->|Hp] by lia; [by rewrite pretty_N_go_0|].
  rewrite pretty_N_go_step by done.
  pose proof (N.div_mod x 10 ltac:(done)) as Hd. pose proof (N.mod_lt x 10 ltac:(done)) as Hm.
  pose proof (N.div_lt x 10 Hp ltac:(done)) as Hl.
  rewrite IH by lia. simpl.
  destruct (digit_val_char (x `mod` 10)) as [-> ->]; [lia|]. simpl. clear IH.
  generalize dependent (x / 10)%N. intros q Hd Hl. generalize dependent (x `mod` 10)%N. intros r Hd Hm.
  replace (max_uint64 / 10 + 1 <=? Z.of_N q)%Z with false; cycle 1.
  { symmetry. apply Z.leb_gt. change max_uint64 with 18446744073709551615%Z in *.
    change (18446744073709551615 / 10 + 1)%Z with 1844674407370955162%Z. lia. }
  replace (Z.of_N q * 10 + Z.of_N r)%Z with (Z.of_N x) by lia.
  replace (max_uint64 <? Z.of_N x)%Z with false; [done|]. symmetry. apply Z.ltb_ge. lia.
Qed.

Lemma pretty_N_head (x : N) : exists c s, pretty x = String c s /\ is_ascii_digit c = true.
Proof.
  unfold pretty, pretty_N. case_decide; [by exists "0"%char, ""|].
  assert (Hgo : forall y t, (y <> 0)%N -> exists c s, pretty_N_go y t = String c s /\ is_ascii_digit c = true).
  { intros y; induction (N.lt_wf_0 y) as [y _ IH]; intros t Hy.
    rewrite pretty_N_go_step by lia.
    destruct (decide (y / 10 = 0)%N) as [E|E].
    - rewrite E, pretty_N_go_0. eexists _, _. split; [done|]. apply digit_val_char. pose proof (N.mod_lt y 10). lia.
    - apply IH; [apply N.div_lt; lia|done]. }
  by apply Hgo.
Qed.

Lemma ParseUint_pretty (x : N) : (Z.of_N x <= max_uint64)%Z -> ParseUint (pretty x) = Ok (Z.of_N x).
Proof.
  intros Hx. destruct (pretty_N_head x) as (c & s & E & _).
  assert (parse_digits 0 (pretty x) = Ok (Z.of_N x)) as H.
  { unfold pretty, pretty_N. case_decide; [by subst|]. by rewrite parse_digits_pretty_go. }
  unfold ParseUint. by rewrite E in *.
Qed.

(** [strconv.Atoi] reads back what [strconv.Itoa] writes, for every 64-bit integer. *)
Lemma ParseInt_Itoa (z : Z) : int64b z = true -> ParseInt_full (Itoa z) = (z, None).
Proof.
  unfold int64b, min_int64, max_int64, Itoa. intros Hz. go_bool.
  assert (pretty z = match z with Z.neg p => String "-" (pretty (N.pos p)) | _ => pretty (Z.to_N z) end) as ->
    by (by destruct z).
  unfold ParseInt_full. destruct z as [|p|p]; [done|..].
  - destruct (pretty_N_head (N.pos p)) as (c & s & E & Hc).
    pose proof (ParseUint_pretty (N.pos p)) as HU. change (Z.to_N (Z.pos p)) with (N.pos p). rewrite E in *.
    replace (Ascii.eqb c "-") with false by (symmetry; apply Ascii.eqb_neq; by intros ->).
    replace (Ascii.eqb c "+") with false by (symmetry; apply Ascii.eqb_neq; by intros ->).
    rewrite HU by (unfold max_uint64; lia).
    replace (2 ^ 63 <=? Z.of_N (N.pos p))%Z with false; [done|]. symmetry. apply Z.leb_gt. lia.
  - simpl Ascii.eqb. cbn [Ascii.eqb]. rewrite ParseUint_pretty by (unfold max_uint64; lia).
    replace (2 ^ 63 <? Z.of_N (N.pos p))%Z with false; [done|]. symmetry. apply Z.ltb_ge. lia.
Qed.

Lemma pretty_N_go_digits (x : N) (s : string) :
  all_bytes is_ascii_digit s = true -> all_bytes is_ascii_digit (pretty_N_go x s) = true.
Proof.
  revert s; induction (N.lt_wf_0 x) as [x _ IH]; intros s Hs.
  assert (x = 0 \/ 0 < x)%N as [->|Hp] by lia; [by rewrite pretty_N_go_0|].
  rewrite pretty_N_go_step by done. apply IH; [by apply N.div_lt|]. simpl. rewrite Hs, andb_true_r.
  apply digit_val_char. pose proof (N.mod_lt x 10 ltac:(done)). lia.
Qed.

Lemma pretty_N_all_digits (x : N) : all_bytes is_ascii_digit (pretty x) = true.
Proof. unfold pretty, pretty_N. case_decide; [done|]. by apply pretty_N_go_digits. Qed.

Lemma all_bytes_has_byte (P : ascii -> bool) (c : ascii) (s : string) :
  P c = false -> all_bytes P s = true -> has_byte c s = false.
Proof.
  intros Hc. induction s as [|x s IH]; [done|]. cbn [all_bytes has_byte]. intros [Hx Hs]%andb_true_iff.
  rewrite (IH Hs), orb_false_r. apply Ascii.eqb_neq. congruence.
Qed.

Lemma all_bytes_mono (P Q : ascii -> bool) (s : string) :
  (forall c, P c = true -> Q c = true) -> all_bytes P s = true -> all_bytes Q s = true.
Proof.
  intros HPQ. induction s as [|c s IH]; [done|]. cbn [all_bytes]. intros [Hc Hs]%andb_true_iff. by rewrite HPQ, IH.
Qed.
Lemma all_bytes_app (P : ascii -> bool) (a b : string) : all_bytes P (a +:+ b) = all_bytes P a && all_bytes P b.
Proof. induction a as [|c a IH]; [done|]. change (String c a +:+ b) with (String c (a +:+ b)). cbn [all_bytes]. by rewrite IH, andb_assoc. Qed.

(** Printed numbers have no bytes but digits and the sign. *)
Lemma pretty_N_bytes (c : ascii) (x : N) : is_ascii_digit c = false -> has_byte c (pretty x) = false.
Proof. intros Hc. apply (all_bytes_has_byte is_ascii_digit); [done|apply pretty_N_all_digits]. Qed.

Lemma Itoa_ascii (z : Z) : is_ascii (Itoa z) = true.
Proof.
  assert (forall x : N, is_ascii (pretty x) = true) as HN.
  { intros x. apply (all_bytes_mono is_ascii_digit); [by intros [[] [] [] [] [] [] [] []]|apply pretty_N_all_digits]. }
  destruct z as [|p|p]; [done|exact (HN (Npos p))|]. change (Itoa (Zneg p)) with ("-" +:+ pretty (Npos p)).
  unfold is_ascii. rewrite all_bytes_app. exact (HN (Npos p)).
Qed.

(** A string is cut uniquely at the last occurrence of a byte. *)
Lemma last_byte_inj (sep : ascii) (a b x y : string) :
  has_byte sep x = false -> has_byte sep y = false -> a +:+ String sep x = b +:+ String sep y -> a = b /\ x = y.
Proof.
  intros Hx Hy. revert b. induction a as [|c a IH]; intros [|d b] E; simpl in E.
  - by injection E as ->.
  - injection E as <- ->. rewrite has_byte_app in Hx. cbn [has_byte] in Hx.
    by rewrite Ascii.eqb_refl, orb_true_r in Hx.
  - injection E as -> <-. rewrite has_byte_app in Hy. cbn [has_byte] in Hy.
    by rewrite Ascii.eqb_refl, orb_true_r in Hy.
  - injection E as -> E. apply IH in E as [-> ->]. done.
Qed.

Lemma wrap64_id (z : Z) : int64b z = true -> wrap64 z = z.
Proof.
  unfold int64b, min_int64, max_int64, wrap64. intros H. go_bool. rewrite Z.mod_small; lia.
Qed.

Lemma int64b_intro (z : Z) : (min_int64 <= z <= max_int64)%Z -> int64b z = true.
Proof. intros [? ?]. unfold int64b. by rewrite andb_true_iff, !Z.leb_le. Qed.

(** ** Lemmas: prefixes, suffixes, substrings and fields *)

Lemma strip_prefix_app (p s : string) : strip_prefix p (p +:+ s) = Some s.
Proof. induction p as [|c p IH]; simpl; [done|]. by rewrite Ascii.eqb_refl. Qed.

Lemma strip_prefix_eq (p s r : string) : strip_prefix p s = Some r -> s = p +:+ r.
Proof.
  revert s; induction p as [|c p IH]; intros s; simpl; [by destruct s; intros [= ->]|].
  destruct s as [|d s]; [done|]. destruct (Ascii.eqb c d) eqn:E; [|done]. go_bool. subst. intros Hs. by rewrite (IH s Hs) at 1.
Qed.

Lemma span_bytes_eq (P : ascii -> bool) (s w r : string) : span_bytes P s = (w, r) -> s = w +:+ r.
Proof.
  revert w; induction s as [|c s IH]; intros w; simpl; [by intros [= <- <-]|].
  destruct (P c); [|by intros [= <- <-]].
  destruct (span_bytes P s) as [w' r'] eqn:E. intros [= <- <-]. simpl. by rewrite (IH w' eq_refl) at 1.
Qed.

Lemma span_bytes_app (P : ascii -> bool) (w r : string) :
  all_bytes P w = true -> match r with String c _ => P c = false | "" => True end -> span_bytes P (w +:+ r) = (w, r).
Proof.
  intros Hw Hr. induction w as [|c w IH]; simpl in *.
  - destruct r as [|c r]; simpl; [done|]. by rewrite Hr.
  - go_bool. rewrite H. by rewrite IH.
Qed.

Lemma HasPrefix_app (p s : string) : HasPrefix (p +:+ s) p = true.
Proof. induction p as [|c p IH]; [by destruct s|]. simpl. by rewrite Ascii.eqb_refl. Qed.

Lemma HasPrefix_inv (p s : string) : HasPrefix s p = true -> exists r, s = p +:+ r.
Proof.
  revert s; induction p as [|c p IH]; intros s Hp; [by exists s|].
  destruct s as [|d s]; [done|]. simpl in Hp. go_bool. subst. destruct (IH s) as [r ->]; [done|]. by exists r.
Qed.

Lemma Contains_HasPrefix (s p : string) : HasPrefix s p = true -> Contains s p = true.
Proof. intros Hp. destruct s; simpl in *; by rewrite Hp. Qed.

Lemma Contains_app (a p b : string) : Contains (a +:+ p +:+ b) p = true.
Proof.
  induction a as [|c a IH]; [apply Contains_HasPrefix, (HasPrefix_app p b)|]. simpl. rewrite IH. apply orb_true_r.
Qed.

Lemma cut_at_spec (c : ascii) (s : string) :
  match cut_at c s with
  | Some (p, q) => has_byte c p = false /\ s = p +:+ chr c +:+ q
  | None => has_byte c s = false
  end.
Proof.
  induction s as [|d s IH]; [done|]. cbn [cut_at]. destruct (Ascii.eqb_spec d c) as [->|Hc]; [done|].
  apply Ascii.eqb_neq in Hc. destruct (cut_at c s) as [[p q]|]; cbn in *; [destruct IH as [H1 ->]|]; by rewrite Hc.
Qed.

Lemma cut_at_app (c : ascii) (p q : string) : has_byte c p = false -> cut_at c (p +:+ String c q) = Some (p, q).
Proof.
  induction p as [|x p IH]; cbn; [by rewrite Ascii.eqb_refl|]. intros [Hx Hp]%orb_false_iff. rewrite Hx. change (p ++ String c q)%string with (p +:+ String c q). by rewrite IH.
Qed.

Lemma str_rev_involutive (s : string) : str_rev (str_rev s) = s.
Proof.
  unfold str_rev. by rewrite list_ascii_of_string_of_list_ascii, rev_involutive, string_of_list_ascii_of_string.
Qed.

Lemma str_rev_app (a b : string) : str_rev (a +:+ b) = str_rev b +:+ str_rev a.
Proof.
  unfold str_rev. assert (forall a b, list_ascii_of_string (a +:+ b) = list_ascii_of_string a ++ list_ascii_of_string b)
    as -> by (clear; intros a b; induction a; simpl; congruence).
  rewrite rev_app_distr. generalize (rev (list_ascii_of_string b)) as l, (rev (list_ascii_of_string a)) as m.
  intros l m. induction l; simpl; congruence.
Qed.

Lemma EndsWith_app (a p : string) : EndsWith (a +:+ p) p = true.
Proof. unfold EndsWith. rewrite str_rev_app. apply HasPrefix_app. Qed.

(** A prefix without the separator is a prefix of the first piece. *)
Lemma HasPrefix_before (sep : ascii) (w r p : string) :
  has_byte sep p = false -> HasPrefix (w +:+ String sep r) p = true -> HasPrefix w p = true.
Proof.
  revert w; induction p as [|c p IH]; intros w Hs Hp; [by destruct w|]. simpl in Hs. go_bool.
  destruct w as [|d w]; simpl in *; go_bool; [congruence|]. subst. rewrite Ascii.eqb_refl. by apply IH.
Qed.

Lemma Join_app (l1 l2 : list string) (sep : string) :
  l1 <> [] -> l2 <> [] -> Join (l1 ++ l2) sep = Join l1 sep +:+ sep +:+ Join l2 sep.
Proof.
  induction l1 as [|x l1 IH]; intros H1 H2; [done|]. destruct l1 as [|y l1].
  - simpl. by rewrite Join_cons.
  - cbn [app]. rewrite !Join_cons by done. change (y :: l1 ++ l2) with ((y :: l1) ++ l2).
    rewrite IH, (Join_cons x (y :: l1)) by done. by rewrite !str_app_assoc.
Qed.

(** No field is empty or has a space in it. *)
Definition plain_field_text (w : string) : Prop := w <> "" /\ has_byte " " w = false.

Lemma Fields_plain (s : string) : Forall plain_field_text (Fields s).
Proof.
  unfold Fields. generalize (S (String.length s)) as n. intros n.
  assert (forall cur, has_byte " " cur = false -> forall rest, Forall plain_field_text rest ->
    Forall plain_field_text (flush_field cur rest)) as Hflush.
  { intros cur Hc rest Hr. unfold flush_field. destruct (String.eqb_spec cur ""); [done|]. by constructor. }
  enough (forall cur, has_byte " " cur = false -> Forall plain_field_text (fields_fuel n cur s)) as Hall by (by apply Hall).
  revert s; induction n as [|n IH]; intros s cur Hc; cbn [fields_fuel]; [by apply Hflush|].
  destruct (strip_first space_encodings s) as [r|] eqn:E; [by apply Hflush; [|apply IH]|].
  destruct s as [|c s]; [by apply Hflush|]. apply IH. rewrite has_byte_app, Hc. simpl. rewrite orb_false_r.
  apply Ascii.eqb_neq. intros ->. unfold space_encodings in E. cbn [map app strip_first] in E. by rewrite HasPrefix_chr in E.
Qed.

(** ** A number in binary, for encoders that are given by a function *)

Fixpoint bits_of (p : positive) : string :=
  match p with xH => "" | xO p => String "0" (bits_of p) | xI p => String "1" (bits_of p) end.
Fixpoint of_bits (s : string) : positive :=
  match s with "" => xH | String c s => if Ascii.eqb c "0" then xO (of_bits s) else xI (of_bits s) end.
Lemma of_bits_of (p : positive) : of_bits (bits_of p) = p.
Proof. induction p as [p IH|p IH|]; simpl; by rewrite ?IH. Qed.

(** ** Lemmas: texts as runes *)

Abbreviation bytes_list s := (list_ascii_of_string s).

Lemma runes_ascii (s : string) : is_ascii s = true -> runes s = map byte_val (bytes_list s).
Proof.
  unfold runes. induction s as [|c s IH]; [done|]. cbn -[byte_val N.ltb decode_rune]. intros [Hc Hs]%andb_true_iff.
  unfold decode_rune. rewrite Hc. by rewrite IH.
Qed.

Lemma string_of_runes_small (rs : list N) :
  Forall (fun r => (r < 128)%N) rs -> string_of_runes rs = string_of_list_ascii (map ascii_of_N rs).
Proof.
  induction 1 as [|r rs Hr _ IH]; [done|]. cbn [string_of_runes map string_of_list_ascii]. unfold encode_rune.
  destruct (N.ltb_spec r 128); [|lia]. cbn. by rewrite IH.
Qed.

Lemma bytes_small (s : string) : is_ascii s = true -> Forall (fun r => (r < 128)%N) (map byte_val (bytes_list s)).
Proof.
  induction s as [|c s IH]; cbn -[byte_val N.ltb]; intros Hs; [constructor|]. apply andb_true_iff in Hs as [Hc Hs].
  constructor; [by apply N.ltb_lt|by apply IH].
Qed.

Lemma string_of_byte_list (s : string) : string_of_list_ascii (map ascii_of_N (map byte_val (bytes_list s))) = s.
Proof. induction s as [|c s IH]; [done|]. cbn -[byte_val]. unfold byte_val at 1. by rewrite ascii_N_embedding, IH. Qed.

Lemma runes_roundtrip (s : string) : is_ascii s = true -> string_of_runes (runes s) = s.
Proof.
  intros Hs. rewrite runes_ascii by done. rewrite string_of_runes_small by (by apply bytes_small). apply string_of_byte_list.
Qed.

Lemma utf8_text_eq (s : string) : utf8_text s = true <-> ToValidUTF8 s = s.
Proof. apply String.eqb_eq. Qed.

Lemma ascii_utf8 (s : string) : is_ascii s = true -> utf8_text s = true.
Proof. intros H. by apply utf8_text_eq, runes_roundtrip. Qed.
