(* ===== verification/StableSort.v ===== *)
(** * StableSort: Go's [sort.SliceStable]

    The library promises, for a [less] that is a strict weak order on the elements, a sorted permutation
    in which equivalent elements keep their order.  [SliceStable] is the insertion sort the library runs
    on short slices: each element moves left while it is less than its left neighbour.
    [stable_sort_unique] shows that sortedness and stability determine the result, so what is proved of
    [SliceStable] for such a [less] holds of any implementation of the promise. *)

From Stdlib Require Import Bool.
From stdpp Require Import base list sorting.

Section Sort.
Context {A : Type} (less : A -> A -> bool).

(** [r] is the part already sorted, last element first. *)
Fixpoint ins (x : A) (r : list A) : list A :=
  match r with
  | [] => [x]
  | y :: r' => if less x y then y :: ins x r' else x :: r
  end.

Definition SliceStable (l : list A) : list A := rev (fold_left (fun r x => ins x r) l []).

(** Neither is less than the other. *)
Definition equiv_to (k y : A) : bool := negb (less k y) && negb (less y k).

(** [less] is a strict weak order on the elements of [P]. *)
Record weak_order (P : A -> Prop) : Prop := {
  wo_asym a b : P a -> P b -> less a b = true -> less b a = false;
  wo_trans a b c : P a -> P b -> P c -> less b a = false -> less c b = false -> less c a = false;
}.

(** No element is less than an earlier one. *)
Definition sorted (l : list A) : Prop := StronglySorted (fun a b => less b a = false) l.

Lemma ins_perm (x : A) (r : list A) : ins x r ≡ₚ x :: r.
Proof.
  induction r as [|y r IH]; simpl; [done|]. destruct (less x y); [|done]. rewrite IH. apply Permutation_swap.
Qed.

Lemma fold_ins_perm (l r : list A) : fold_left (fun r x => ins x r) l r ≡ₚ r ++ l.
Proof.
  revert r; induction l as [|x l IH]; intros r; simpl; [by rewrite app_nil_r|]. rewrite IH, ins_perm.
  apply Permutation_middle.
Qed.

(** Sorting permutes, whatever [less] is. *)
Lemma SliceStable_perm (l : list A) : SliceStable l ≡ₚ l.
Proof. unfold SliceStable. rewrite <- (Permutation_rev _). apply (fold_ins_perm l []). Qed.

Context (P : A -> Prop) (Hw : weak_order P).

Lemma wo_irrefl (a : A) : P a -> less a a = false.
Proof. intros Ha. destruct (less a a) eqn:E; [|done]. by rewrite (wo_asym P Hw a a) in E. Qed.

Lemma ins_sorted (x : A) (r : list A) :
  P x -> Forall P r -> StronglySorted (fun a b => less a b = false) r ->
  StronglySorted (fun a b => less a b = false) (ins x r).
Proof.
  intros Hx Hr Hs; induction Hs as [|y r Hs IH Hy]; simpl; [by repeat constructor|].
  apply Forall_cons in Hr as [Py Hr]. destruct (less x y) eqn:E.
  - constructor; [by apply IH|]. rewrite ins_perm. constructor; [by apply (wo_asym P Hw)|done].
  - constructor; [by constructor|]. constructor; [done|]. rewrite Forall_forall in *. intros z Hz.
    apply (wo_trans P Hw z y x); auto.
Qed.

Lemma fold_ins_sorted (l r : list A) :
  Forall P l -> Forall P r -> StronglySorted (fun a b => less a b = false) r ->
  StronglySorted (fun a b => less a b = false) (fold_left (fun r x => ins x r) l r).
Proof.
  revert r; induction l as [|x l IH]; intros r Hl Hr Hs; simpl; [done|]. apply Forall_cons in Hl as [Hx Hl].
  apply IH; [done|rewrite ins_perm; by constructor|by apply ins_sorted].
Qed.

Lemma StronglySorted_snoc (R : A -> A -> Prop) (l : list A) (x : A) :
  StronglySorted R l -> Forall (fun y => R y x) l -> StronglySorted R (l ++ [x]).
Proof.
  induction 1 as [|y l Hs IH Hy]; intros Hx; simpl; [by repeat constructor|].
  apply Forall_cons in Hx as [Hyx Hx]. constructor; [by apply IH|]. apply Forall_app. split; [done|by constructor].
Qed.

Lemma StronglySorted_rev (R : A -> A -> Prop) (l : list A) :
  StronglySorted R l -> StronglySorted (fun a b => R b a) (rev l).
Proof.
  induction 1 as [|x l Hs IH Hx]; simpl; [constructor|]. apply StronglySorted_snoc; [done|].
  by rewrite <- (Permutation_rev l).
Qed.

Lemma SliceStable_sorted (l : list A) : Forall P l -> sorted (SliceStable l).
Proof.
  intros Hl. unfold sorted, SliceStable. apply (StronglySorted_rev (fun a b => less a b = false)).
  apply fold_ins_sorted; [done|constructor..].
Qed.

(** An element keeps its place among the equivalents of [k]. *)
Lemma ins_stable (k x : A) (r : list A) :
  P k -> P x -> Forall P r ->
  List.filter (equiv_to k) (ins x r) = List.filter (equiv_to k) (x :: r).
Proof.
  intros Hk Hx Hr; induction r as [|y r IH]; [done|]. apply Forall_cons in Hr as [Hy Hr]. simpl.
  destruct (less x y) eqn:E; [|done]. simpl. rewrite IH by done. simpl.
  destruct (equiv_to k y) eqn:Ey, (equiv_to k x) eqn:Ex; try done.
  unfold equiv_to in *. rewrite !andb_true_iff, !negb_true_iff in *. destruct Ey as [E1 E2], Ex as [E3 E4].
  assert (less x y = false) by (by apply (wo_trans P Hw y k x)). congruence.
Qed.

Lemma fold_ins_stable (k : A) (l r : list A) :
  P k -> Forall P l -> Forall P r ->
  List.filter (equiv_to k) (fold_left (fun r x => ins x r) l r)
  = List.filter (equiv_to k) (rev l ++ r).
Proof.
  intros Hk. revert r; induction l as [|x l IH]; intros r Hl Hr; simpl; [done|]. apply Forall_cons in Hl as [Hx Hl].
  rewrite IH; [|done|rewrite ins_perm; by constructor]. rewrite <- app_assoc, !List.filter_app. f_equal.
  rewrite <- List.filter_app. by apply ins_stable.
Qed.

Lemma filter_rev (f : A -> bool) (l : list A) : List.filter f (rev l) = rev (List.filter f l).
Proof.
  induction l as [|x l IH]; simpl; [done|]. rewrite List.filter_app, IH. simpl.
  destruct (f x); simpl; [done|by rewrite app_nil_r].
Qed.

Lemma SliceStable_stable (k : A) (l : list A) :
  P k -> Forall P l -> List.filter (equiv_to k) (SliceStable l) = List.filter (equiv_to k) l.
Proof.
  intros Hk Hl. unfold SliceStable. rewrite filter_rev, fold_ins_stable by done.
  by rewrite app_nil_r, filter_rev, rev_involutive.
Qed.

(** Sortedness and stability determine the result. *)
Lemma stable_sort_unique (l1 l2 : list A) :
  Forall P l1 -> Forall P l2 -> sorted l1 -> sorted l2 ->
  (forall k, P k -> List.filter (equiv_to k) l1 = List.filter (equiv_to k) l2) -> l1 = l2.
Proof.
  assert (Hself : forall x, P x -> equiv_to x x = true) by (intros x Hx; unfold equiv_to; by rewrite wo_irrefl).
  revert l2; induction l1 as [|x l1 IH]; intros [|y l2] H1 H2 S1 S2 Hf.
  - done.
  - apply Forall_cons in H2 as [Hy _]. specialize (Hf y Hy). simpl in Hf. by rewrite Hself in Hf.
  - apply Forall_cons in H1 as [Hx _]. specialize (Hf x Hx). simpl in Hf. by rewrite Hself in Hf.
  - apply Forall_cons in H1 as [Hx H1]. apply Forall_cons in H2 as [Hy H2].
    apply StronglySorted_inv in S1 as [S1 F1]. apply StronglySorted_inv in S2 as [S2 F2].
    assert (forall a m b n, P a -> P b -> Forall P m -> Forall (fun c => less c b = false) n ->
      List.filter (equiv_to a) (a :: m) = List.filter (equiv_to a) (b :: n) -> less a b = false) as Hle.
    { intros a m b n Pa Pb Pm Fn E. assert (In a (List.filter (equiv_to a) (b :: n))) as Hin.
      { rewrite <- E. apply filter_In. split; [by left|by apply Hself]. }
      apply filter_In in Hin as [[->|Hin] _]; [by apply wo_irrefl|]. rewrite Forall_forall in Fn.
      by apply Fn, list_elem_of_In. }
    assert (equiv_to x y = true) as Exy.
    { unfold equiv_to. rewrite andb_true_iff, !negb_true_iff. split.
      - by apply (Hle x l1 y l2 Hx Hy H1 F2 (Hf x Hx)).
      - by apply (Hle y l2 x l1 Hy Hx H2 F1 (eq_sym (Hf y Hy))). }
    pose proof (Hf x Hx) as E. simpl in E. rewrite Hself, Exy in E by done. injection E as -> E.
    f_equal. apply IH; auto. intros k Hk. specialize (Hf k Hk). simpl in Hf.
    destruct (equiv_to k y); congruence.
Qed.
End Sort.
