(* ===== verification/Encodings.v ===== *)
(** * Text encodings of the Go library

    The parts of [encoding/base64], [encoding/hex] and [encoding/binary] the framework calls: the
    standard base64 alphabet with padding, lower-case hexadecimal, and the big-endian form of a 64-bit
    integer.  Base64 decoding inverts encoding; hexadecimal encoding is injective. *)

From Stdlib Require Import ZArith Lia Ascii String.
From stdpp Require Import base list strings.
From S2P Require Import Prelude.

(** ** base64.StdEncoding *)

Definition b64_alphabet : string := "ABCDEFGHIJKLMNOPQRSTUVWXYZabcdefghijklmnopqrstuvwxyz0123456789+/".

(** [enc.encode[d]]. *)
Definition b64_char (d : N) : ascii := default "A"%char (String.get (N.to_nat d) b64_alphabet).

(** The position of a character in the alphabet, [enc.decodeMap]. *)
Fixpoint index_byte (c : ascii) (s : string) (i : N) : option N :=
  match s with
  | "" => None
  | String d s' => if Ascii.eqb d c then Some i else index_byte c s' (N.succ i)
  end.
Definition b64_digit (c : ascii) : option N := index_byte c b64_alphabet 0.

Definition b64_encode3 (a b c : N) : string :=
  let val := (a * 65536 + b * 256 + c)%N in
  String (b64_char (val / 262144)) (String (b64_char (val / 4096 mod 64))
    (String (b64_char (val / 64 mod 64)) (chr (b64_char (val mod 64))))).
Definition b64_encode2 (a b : N) : string :=
  let val := (a * 65536 + b * 256)%N in
  String (b64_char (val / 262144)) (String (b64_char (val / 4096 mod 64))
    (String (b64_char (val / 64 mod 64)) "=")).
Definition b64_encode1 (a : N) : string :=
  let val := (a * 65536)%N in
  String (b64_char (val / 262144)) (String (b64_char (val / 4096 mod 64)) "==").

Fixpoint b64_encode (s : string) : string :=
  match s with
  | "" => ""
  | String a "" => b64_encode1 (byte_val a)
  | String a (String b "") => b64_encode2 (byte_val a) (byte_val b)
  | String a (String b (String c s')) => b64_encode3 (byte_val a) (byte_val b) (byte_val c) +:+ b64_encode s'
  end.

(** Decoding skips carriage returns and line feeds, then reads quanta of four characters; padding
    ends the input. *)
Fixpoint strip_newlines (s : string) : string :=
  match s with
  | "" => ""
  | String c s' => if Ascii.eqb c LF || Ascii.eqb c "013" then strip_newlines s' else String c (strip_newlines s')
  end.

Definition b64_bytes3 (d1 d2 d3 d4 : N) : N := (d1 * 262144 + d2 * 4096 + d3 * 64 + d4)%N.

Fixpoint b64_quanta (s : string) : option string :=
  match s with
  | "" => Some ""
  | String c1 (String c2 (String c3 (String c4 s'))) =>
      d1 ← b64_digit c1;
      d2 ← b64_digit c2;
      if Ascii.eqb c4 "=" then
        if Ascii.eqb c3 "=" then
          let val := b64_bytes3 d1 d2 0 0 in
          if String.eqb s' "" then Some (chr (ascii_of_N (val / 65536))) else None
        else
          d3 ← b64_digit c3;
          let val := b64_bytes3 d1 d2 d3 0 in
          if String.eqb s' ""
          then Some (String (ascii_of_N (val / 65536)) (chr (ascii_of_N (val / 256 mod 256)))) else None
      else
        d3 ← b64_digit c3;
        d4 ← b64_digit c4;
        let val := b64_bytes3 d1 d2 d3 d4 in
        rest ← b64_quanta s';
        Some (String (ascii_of_N (val / 65536)) (String (ascii_of_N (val / 256 mod 256))
          (String (ascii_of_N (val mod 256)) rest)))
  | _ => None
  end.
Definition b64_decode (s : string) : option string := b64_quanta (strip_newlines s).

(** ** encoding/hex and binary.BigEndian *)

Definition hex_digits : string := "0123456789abcdef".
Definition hex_char (d : N) : ascii := default "0"%char (String.get (N.to_nat d) hex_digits).
Definition hex_byte (b : N) : string := String (hex_char (b / 16)) (chr (hex_char (b mod 16))).
Fixpoint hex_encode (bs : list N) : string :=
  match bs with [] => "" | b :: bs' => hex_byte b +:+ hex_encode bs' end.

(** [hex.EncodeToString]. *)
Definition EncodeToString (s : string) : string := hex_encode (map byte_val (list_ascii_of_string s)).

(** [n] bytes of [v], most significant first. *)
Fixpoint be_bytes (n : nat) (v : N) : list N :=
  match n with O => [] | S n' => be_bytes n' (v / 256)%N ++ [(v mod 256)%N] end.
Definition uint64ToBytes (v : N) : list N := be_bytes 8 v.

Fixpoint be_value (acc : N) (bs : list N) : N :=
  match bs with [] => acc | b :: bs' => be_value (acc * 256 + b)%N bs' end.
Definition bytesToUint64 (b : list N) : N :=
  if negb (length b =? 8)%nat then 0%N else be_value 0 b.

(** ** Lemmas *)

Lemma byte_val_lt (c : ascii) : (byte_val c < 256)%N.
Proof. apply N_ascii_bounded. Qed.

Lemma ascii_of_byte_val (c : ascii) : ascii_of_N (byte_val c) = c.
Proof. apply ascii_N_embedding. Qed.

(** A fact about the first [n] numbers, by evaluation. *)
Lemma forall_below (n : nat) (P : N -> bool) :
  forallb P (map N.of_nat (seq 0 n)) = true -> forall d, (d < N.of_nat n)%N -> P d = true.
Proof.
  intros H d Hd. rewrite forallb_forall in H. apply H. rewrite in_map_iff.
  exists (N.to_nat d). rewrite in_seq. split; [lia|]. lia.
Qed.

Definition b64_char_ok (d : N) : bool :=
  match b64_digit (b64_char d) with Some e => (e =? d)%N | None => false end
  && negb (Ascii.eqb (b64_char d) "=") && negb (Ascii.eqb (b64_char d) LF)
  && negb (Ascii.eqb (b64_char d) "013").

Lemma b64_char_spec (d : N) : (d < 64)%N ->
  b64_digit (b64_char d) = Some d /\ Ascii.eqb (b64_char d) "=" = false
  /\ Ascii.eqb (b64_char d) LF = false /\ Ascii.eqb (b64_char d) "013" = false.
Proof.
  intros Hd. assert (H : b64_char_ok d = true) by (revert d Hd; apply (forall_below 64); reflexivity).
  unfold b64_char_ok in H. destruct (b64_digit (b64_char d)) as [e|]; [|done].
  rewrite !andb_true_iff, !negb_true_iff in H. destruct H as [[[H1 H2] H3] H4].
  apply N.eqb_eq in H1. by subst.
Qed.

(** Strings three bytes at a time. *)
Lemma string_ind3 (P : string -> Prop) :
  P "" -> (forall a, P (String a "")) -> (forall a b, P (String a (String b ""))) ->
  (forall a b c s, P s -> P (String a (String b (String c s)))) -> forall s, P s.
Proof.
  intros H0 H1 H2 H3. fix IH 1. intros [|a [|b [|c s]]]; [apply H0|apply H1|apply H2|apply H3, IH].
Qed.

#[global] Opaque b64_char b64_digit.

Ltac n_arith := zify; Z.to_euclidean_division_equations; lia.

(** Reading back the digit [d] written with [b64_char]. *)
Ltac b64_read d :=
  let H := fresh "H" in
  destruct (b64_char_spec d) as (H & ? & ? & ?); [n_arith|].
Ltac b64_eval :=
  simpl; repeat (match goal with H : _ = false |- _ => rewrite H end; simpl);
  repeat (match goal with H : b64_digit _ = Some _ |- _ => rewrite H end; simpl).

Lemma b64_quanta_1 (a : N) : (a < 256)%N -> b64_decode (b64_encode1 a) = Some (chr (ascii_of_N a)).
Proof.
  intros Ha. unfold b64_decode, b64_encode1; simpl.
  b64_read (a * 65536 / 262144)%N. b64_read (a * 65536 / 4096 mod 64)%N.
  b64_eval. unfold b64_bytes3. do 3 f_equal. n_arith.
Qed.

Lemma b64_quanta_2 (a b : N) : (a < 256)%N -> (b < 256)%N ->
  b64_decode (b64_encode2 a b) = Some (String (ascii_of_N a) (chr (ascii_of_N b))).
Proof.
  intros Ha Hb. unfold b64_decode, b64_encode2; simpl.
  b64_read ((a * 65536 + b * 256) / 262144)%N. b64_read ((a * 65536 + b * 256) / 4096 mod 64)%N.
  b64_read ((a * 65536 + b * 256) / 64 mod 64)%N.
  b64_eval. unfold b64_bytes3. do 3 f_equal; [|do 2 f_equal]; n_arith.
Qed.

Lemma b64_quanta_3 (a b c : N) (s : string) : (a < 256)%N -> (b < 256)%N -> (c < 256)%N ->
  b64_decode (b64_encode3 a b c +:+ s) =
    rest ← b64_decode s; Some (String (ascii_of_N a) (String (ascii_of_N b) (String (ascii_of_N c) rest))).
Proof.
  intros Ha Hb Hc. unfold b64_decode, b64_encode3; simpl.
  b64_read ((a * 65536 + b * 256 + c) / 262144)%N. b64_read ((a * 65536 + b * 256 + c) / 4096 mod 64)%N.
  b64_read ((a * 65536 + b * 256 + c) / 64 mod 64)%N. b64_read ((a * 65536 + b * 256 + c) mod 64)%N.
  b64_eval. destruct (b64_quanta (strip_newlines s)) as [rest|]; simpl; [|done].
  unfold b64_bytes3. repeat f_equal; n_arith.
Qed.

(** Base64 decoding inverts encoding. *)
Lemma b64_decode_encode (s : string) : b64_decode (b64_encode s) = Some s.
Proof.
  induction s as [|a|a b|a b c s IH] using string_ind3; [done|..].
  - simpl. rewrite b64_quanta_1, ascii_of_byte_val by apply byte_val_lt. done.
  - simpl. rewrite b64_quanta_2, !ascii_of_byte_val by apply byte_val_lt. done.
  - change (b64_encode _) with (b64_encode3 (byte_val a) (byte_val b) (byte_val c) +:+ b64_encode s).
    rewrite b64_quanta_3, IH, !ascii_of_byte_val by apply byte_val_lt. done.
Qed.

Lemma b64_encode_empty (s : string) : b64_encode s = "" -> s = "".
Proof. by destruct s as [|a [|b [|c s]]]. Qed.

(** ** Hexadecimal *)

Definition hex_char_index (d : N) : option N := index_byte (hex_char d) hex_digits 0.

Lemma hex_char_inj (d e : N) : (d < 16)%N -> (e < 16)%N -> hex_char d = hex_char e -> d = e.
Proof.
  intros Hd He E.
  assert (Hx : forall x, (x < 16)%N -> hex_char_index x = Some x).
  { intros x Hx. pose (ok x := match hex_char_index x with Some y => (y =? x)%N | None => false end).
    assert (H : ok x = true) by (revert x Hx; apply (forall_below 16 ok); reflexivity).
    unfold ok in H. destruct (hex_char_index x); [|done]. apply N.eqb_eq in H. by subst. }
  pose proof (Hx d Hd) as H1. pose proof (Hx e He) as H2. unfold hex_char_index in *. rewrite E in H1. congruence.
Qed.

Lemma hex_byte_inj (a b : N) (s t : string) : (a < 256)%N -> (b < 256)%N ->
  hex_byte a +:+ s = hex_byte b +:+ t -> a = b /\ s = t.
Proof.
  intros Ha Hb. unfold hex_byte. simpl. intros [= E1 E2 E3].
  apply hex_char_inj in E1; [|n_arith..]. apply hex_char_inj in E2; [|n_arith..]. split; [n_arith|done].
Qed.

Lemma hex_encode_inj (a b : list N) : Forall (fun x => x < 256)%N a -> Forall (fun x => x < 256)%N b ->
  hex_encode a = hex_encode b -> a = b.
Proof.
  intros Ha. revert b. induction Ha as [|x a Hx Ha IH]; intros [|y b] Hb E; [done..|].
  inversion Hb; subst. simpl in E. apply hex_byte_inj in E as [-> E]; [|done..]. by rewrite (IH b).
Qed.

Lemma hex_encode_length (bs : list N) : String.length (hex_encode bs) = 2 * length bs.
Proof. induction bs as [|b bs IH]; simpl; [done|]. rewrite IH. lia. Qed.

Lemma hex_encode_bytes (bs : list N) (c : ascii) :
  has_byte c (hex_encode bs) = true -> Forall (fun x => x < 256)%N bs -> has_byte c hex_digits = true.
Proof.
  intros H Hb. induction Hb as [|b bs Hb Hbs IH]; [done|]. simpl in H.
  assert (Hx : forall x, (x < 16)%N -> has_byte (hex_char x) hex_digits = true)
    by (apply (forall_below 16 (fun x => has_byte (hex_char x) hex_digits)); reflexivity).
  apply orb_true_iff in H as [H|H]; [apply Ascii.eqb_eq in H; subst; apply Hx; n_arith|].
  apply orb_true_iff in H as [H|H]; [apply Ascii.eqb_eq in H; subst; apply Hx; n_arith|auto].
Qed.

Lemma be_bytes_length (n : nat) (v : N) : length (be_bytes n v) = n.
Proof. revert v; induction n as [|n IH]; intros v; simpl; [done|]. rewrite length_app, IH. simpl. lia. Qed.

Lemma be_bytes_bound (n : nat) (v : N) : Forall (fun x => x < 256)%N (be_bytes n v).
Proof.
  revert v; induction n as [|n IH]; intros v; simpl; [constructor|].
  apply Forall_app. split; [apply IH|]. repeat constructor. n_arith.
Qed.

Lemma be_bytes_inj (n : nat) (v w : N) : (v < 256 ^ N.of_nat n)%N -> (w < 256 ^ N.of_nat n)%N ->
  be_bytes n v = be_bytes n w -> v = w.
Proof.
  revert v w; induction n as [|n IH]; intros v w Hv Hw E; simpl in E; [simpl in *; lia|].
  rewrite Nat2N.inj_succ, N.pow_succ_r' in Hv, Hw.
  apply app_inj_2 in E as [E1 E2]; [|done]. injection E2 as E2.
  apply IH in E1; [|apply N.Div0.div_lt_upper_bound; lia..]. n_arith.
Qed.
