(* ===== verification/PacketTypes.v ===== *)
(** * The TDTP packet model

    The data of [src/pkg/core/packet/types.go] and [src/pkg/core/packet/query.go]: packet, header,
    schema, field, data section and TDTQL query as records with the source's fields, in the source's
    order.  A Go [int] is a [Z], a [time.Time] the [Z] count of its nanoseconds since the zero time
    (so [IsZero] is [= 0]), a pointer to a struct is an [option]; strings are byte strings. *)

From Stdlib Require Import ZArith Ascii String.
From stdpp Require Import base list strings gmap.
From S2P Require Import Prelude.

(** ** types.go: message types *)

Definition MessageType := string.
Definition TypeReference : MessageType := "reference".
Definition TypeRequest : MessageType := "request".
Definition TypeResponse : MessageType := "response".
Definition TypeAlarm : MessageType := "alarm".
Definition TypeError : MessageType := "error".

(** ** types.go: schema *)

Record MarkerValue := MkMarkerValue { mv_Marker : string }.

Record SpecialValues := MkSpecialValues {
  sv_Null : option MarkerValue;
  sv_Infinity : option MarkerValue;
  sv_NegInfinity : option MarkerValue;
  sv_NaN : option MarkerValue;
  sv_NoDate : option MarkerValue;
}.

Record Field := MkField {
  f_Name : string;
  f_Type : string;
  f_Length : Z;
  f_Precision : Z;
  f_Scale : Z;
  f_Key : bool;
  f_Timezone : string;
  f_Subtype : string;
  f_ReadOnly : bool;
  f_Fixed : bool;
  f_SpecialValues : option SpecialValues;
  f_OriginalName : string;
}.

Record DictEntry := MkDictEntry { de_Short : string; de_Full : string }.

(** [*Dictionary]: the pointer is the [option] of [s_Dictionary], the struct its entries. *)
Record Dictionary := MkDictionary { dict_Entries : list DictEntry }.

Record Schema := MkSchema {
  s_Fields : list Field;
  s_Dictionary : option Dictionary;
  s_XXH3 : string;
  s_Encryption : string;
  s_Encrypted : string;
}.

(** ** query.go: TDTQL queries *)

Record Filter := MkFilter {
  fl_Field : string;
  fl_Operator : string;
  fl_Value : string;
  fl_Value2 : string;
}.

Set Warnings "-register-all".

Inductive LogicalGroup := MkLogicalGroup {
  lg_Filters : list Filter;
  lg_And : list LogicalGroup;
  lg_Or : list LogicalGroup;
}.

Record Filters := MkFilters { fs_And : option LogicalGroup; fs_Or : option LogicalGroup }.

Record OrderField := MkOrderField { of_Name : string; of_Direction : string }.

Record OrderBy := MkOrderBy {
  ob_Field : string;
  ob_Direction : string;
  ob_Fields : list OrderField;
}.

Record Query := MkQuery {
  q_Language : string;
  q_Version : string;
  q_Fields : list string;
  q_Filters : option Filters;
  q_OrderBy : option OrderBy;
  q_Limit : Z;
  q_Offset : Z;
}.

Record ExecutionResults := MkExecutionResults {
  er_TotalRecordsInTable : Z;
  er_RecordsAfterFilters : Z;
  er_RecordsReturned : Z;
  er_MoreDataAvailable : bool;
  er_NextOffset : Z;
}.

Record FilterStat := MkFilterStat {
  fst_Field : string;
  fst_Operator : string;
  fst_Value : string;
  fst_RecordsMatched : Z;
}.

Record OrStat := MkOrStat { os_RecordsMatched : Z; os_Filters : list FilterStat }.

Record FilterStatistics := MkFilterStatistics {
  fss_Filters : list FilterStat;
  fss_Or : list OrStat;
}.

Record QueryContext := MkQueryContext {
  qc_OriginalQuery : Query;
  qc_ExecutionResults : ExecutionResults;
  qc_FilterStatistics : option FilterStatistics;
  qc_Encryption : string;
  qc_Encrypted : string;
}.

(** [NewQuery()]. *)
Definition NewQuery : Query := MkQuery "TDTQL" "1.0" [] None None 0 0.

(** ** types.go: packet *)

Record PipelineInfo := MkPipelineInfo { pi_Name : string; pi_Version : string }.
Record PipelineVar := MkPipelineVar { pv_Name : string; pv_Value : string }.
Record PipelineContext := MkPipelineContext {
  pc_Pipeline : PipelineInfo;
  pc_Variables : list PipelineVar;
}.

Record Header := MkHeader {
  h_Type : MessageType;
  h_TableName : string;
  h_MessageID : string;
  h_InReplyTo : string;
  h_PartNumber : Z;
  h_TotalParts : Z;
  h_RecordsInPart : Z;
  h_Timestamp : Z;
  h_Sender : string;
  h_Recipient : string;
}.

Record Row := MkRow { r_Value : string }.

Record Data := MkData {
  d_Compression : string;
  d_Checksum : string;
  d_XXH3 : string;
  d_Compact : bool;
  d_Tail : bool;
  d_Carry : string;
  d_Encryption : string;
  d_Rows : list Row;
}.

Record AlarmDetails := MkAlarmDetails {
  ad_Severity : string;
  ad_Code : string;
  ad_Message : string;
  ad_ServerMode : string;
  ad_AffectedRecords : Z;
}.

Record DataPacket := MkDataPacket {
  p_Protocol : string;
  p_Version : string;
  p_XXH3 : string;
  p_Header : Header;
  p_Query : option Query;
  p_QueryContext : option QueryContext;
  p_PipelineContext : option PipelineContext;
  p_Schema : Schema;
  p_Data : Data;
  p_AlarmDetails : option AlarmDetails;
  p_rawRows : list (list string);
}.

(** Go's zero values. *)
Definition zero_Data : Data := MkData "" "" "" false false "" "" [].
Definition zero_Schema : Schema := MkSchema [] None "" "" "".
Definition zero_Header : Header := MkHeader "" "" "" "" 0 0 0 0 "" "".

(** Assignments to one field of a struct. *)
Definition set_d_Rows (rows : list Row) (d : Data) : Data :=
  MkData (d_Compression d) (d_Checksum d) (d_XXH3 d) (d_Compact d) (d_Tail d) (d_Carry d)
    (d_Encryption d) rows.
Definition set_d_Compact (b : bool) (d : Data) : Data :=
  MkData (d_Compression d) (d_Checksum d) (d_XXH3 d) b (d_Tail d) (d_Carry d) (d_Encryption d)
    (d_Rows d).
Definition set_d_Compression (c : string) (d : Data) : Data :=
  MkData c (d_Checksum d) (d_XXH3 d) (d_Compact d) (d_Tail d) (d_Carry d) (d_Encryption d)
    (d_Rows d).
Definition set_d_XXH3 (x : string) (d : Data) : Data :=
  MkData (d_Compression d) (d_Checksum d) x (d_Compact d) (d_Tail d) (d_Carry d) (d_Encryption d)
    (d_Rows d).
Definition set_p_Data (d : Data) (p : DataPacket) : DataPacket :=
  MkDataPacket (p_Protocol p) (p_Version p) (p_XXH3 p) (p_Header p) (p_Query p) (p_QueryContext p)
    (p_PipelineContext p) (p_Schema p) d (p_AlarmDetails p) (p_rawRows p).
Definition set_p_rawRows (rows : list (list string)) (p : DataPacket) : DataPacket :=
  MkDataPacket (p_Protocol p) (p_Version p) (p_XXH3 p) (p_Header p) (p_Query p) (p_QueryContext p)
    (p_PipelineContext p) (p_Schema p) (p_Data p) (p_AlarmDetails p) rows.
Definition set_p_Schema (s : Schema) (p : DataPacket) : DataPacket :=
  MkDataPacket (p_Protocol p) (p_Version p) (p_XXH3 p) (p_Header p) (p_Query p) (p_QueryContext p)
    (p_PipelineContext p) s (p_Data p) (p_AlarmDetails p) (p_rawRows p).
Definition set_p_Version (v : string) (p : DataPacket) : DataPacket :=
  MkDataPacket (p_Protocol p) v (p_XXH3 p) (p_Header p) (p_Query p) (p_QueryContext p)
    (p_PipelineContext p) (p_Schema p) (p_Data p) (p_AlarmDetails p) (p_rawRows p).
Definition set_p_XXH3 (x : string) (p : DataPacket) : DataPacket :=
  MkDataPacket (p_Protocol p) (p_Version p) x (p_Header p) (p_Query p) (p_QueryContext p)
    (p_PipelineContext p) (p_Schema p) (p_Data p) (p_AlarmDetails p) (p_rawRows p).
Definition set_p_Header (h : Header) (p : DataPacket) : DataPacket :=
  MkDataPacket (p_Protocol p) (p_Version p) (p_XXH3 p) h (p_Query p) (p_QueryContext p)
    (p_PipelineContext p) (p_Schema p) (p_Data p) (p_AlarmDetails p) (p_rawRows p).
Definition set_s_Dictionary (d : option Dictionary) (s : Schema) : Schema :=
  MkSchema (s_Fields s) d (s_XXH3 s) (s_Encryption s) (s_Encrypted s).
Definition set_s_Fields (fs : list Field) (s : Schema) : Schema :=
  MkSchema fs (s_Dictionary s) (s_XXH3 s) (s_Encryption s) (s_Encrypted s).
Definition set_s_XXH3 (x : string) (s : Schema) : Schema :=
  MkSchema (s_Fields s) (s_Dictionary s) x (s_Encryption s) (s_Encrypted s).
Definition set_h_RecordsInPart (n : Z) (h : Header) : Header :=
  MkHeader (h_Type h) (h_TableName h) (h_MessageID h) (h_InReplyTo h) (h_PartNumber h)
    (h_TotalParts h) n (h_Timestamp h) (h_Sender h) (h_Recipient h).

(** ** Decidable equality *)

#[export] Instance MarkerValue_eq_dec : EqDecision MarkerValue.
Proof. solve_decision. Defined.
#[export] Instance SpecialValues_eq_dec : EqDecision SpecialValues.
Proof. solve_decision. Defined.
#[export] Instance Field_eq_dec : EqDecision Field.
Proof. solve_decision. Defined.
#[export] Instance DictEntry_eq_dec : EqDecision DictEntry.
Proof. solve_decision. Defined.
#[export] Instance Dictionary_eq_dec : EqDecision Dictionary.
Proof. solve_decision. Defined.
#[export] Instance Schema_eq_dec : EqDecision Schema.
Proof. solve_decision. Defined.
#[export] Instance Row_eq_dec : EqDecision Row.
Proof. solve_decision. Defined.
#[export] Instance Data_eq_dec : EqDecision Data.
Proof. solve_decision. Defined.
#[export] Instance Filter_eq_dec : EqDecision Filter.
Proof. solve_decision. Defined.
