(* ===== verification/RowCodec.v ===== *)
(** * The row codec

    One table row is one byte string: the cells joined with [|], with backslash, pipe and line feed
    escaped.  The writers are in [src/pkg/core/packet/generator.go] ([escapeValue], [writeEscaped],
    [JoinRowEscaped], [RowsToData], [rowsToDataMasked]); the reader is [Parser.GetRowValues] of
    [src/pkg/core/packet/parser.go], with its two paths.  The theorems: the reader inverts every
    writer, the optimised paths agree with the plain ones, and no escaped row contains a line feed. *)

From Stdlib Require Import ZArith Lia Ascii String.
From stdpp Require Import base list strings.
From S2P Require Import Prelude PacketTypes.

(** ** generator.go: writing *)

(** [escapeValue]: the scan for a byte that needs escaping, then the byte-wise rewrite. *)
Fixpoint hasSpecial (value : string) : bool :=
  match value with
  | "" => false
  | String c v =>
      if Ascii.eqb c BSLASH || Ascii.eqb c PIPE || Ascii.eqb c LF then true else hasSpecial v
  end.

Fixpoint escape_bytes (value : string) : string :=
  match value with
  | "" => ""
  | String c v =>
      (if Ascii.eqb c BSLASH then "\\"
       else if Ascii.eqb c PIPE then "\|"
       else if Ascii.eqb c LF then "\n"
       else chr c) +:+ escape_bytes v
  end.

Definition escapeValue (value : string) : string :=
  if hasSpecial value then escape_bytes value else value.

(** [writeEscaped]: [pend] is [value[start:i]], the bytes seen since the last flush into [sb]. *)
Fixpoint writeEscaped_loop (value pend sb : string) : string :=
  match value with
  | "" => sb +:+ pend
  | String c v =>
      if Ascii.eqb c BSLASH then writeEscaped_loop v "" ((sb +:+ pend) +:+ "\\")
      else if Ascii.eqb c PIPE then writeEscaped_loop v "" ((sb +:+ pend) +:+ "\|")
      else if Ascii.eqb c LF then writeEscaped_loop v "" ((sb +:+ pend) +:+ "\n")
      else writeEscaped_loop v (pend +:+ chr c) sb
  end.
Definition writeEscaped (sb value : string) : string := writeEscaped_loop value "" sb.

(** The loop over the fields of one row: [i > 0] writes the separator. *)
Fixpoint joinRow_loop (i : nat) (fields : list string) (sb : string) : string :=
  match fields with
  | [] => sb
  | v :: rest =>
      let sb := if (0 <? i)%nat then sb +:+ chr PIPE else sb in
      joinRow_loop (S i) rest (writeEscaped sb v)
  end.
Definition JoinRowEscaped (fields : list string) : string := joinRow_loop 0 fields "".

Definition RowsToData (rows : list (list string)) : Data :=
  set_d_Rows (map (fun row => MkRow (JoinRowEscaped row)) rows) zero_Data.

(** [isNeverEscaped], [buildEscapeMask], [rowsToDataMasked]. *)
Definition isNeverEscaped (t : string) : bool :=
  existsb (String.eqb t)
    ["INTEGER"; "INT"; "REAL"; "FLOAT"; "DOUBLE"; "DECIMAL";
     "BOOLEAN"; "BOOL"; "DATE"; "DATETIME"; "TIMESTAMP";
     "integer"; "int"; "real"; "float"; "double"; "decimal";
     "boolean"; "bool"; "date"; "datetime"; "timestamp"]%string.

Definition buildEscapeMask (schema : Schema) : list bool :=
  map (fun f => negb (isNeverEscaped (f_Type f))) (s_Fields schema).

Fixpoint joinRowMasked_loop (j : nat) (mask : list bool) (row : list string) (sb : string) : string :=
  match row with
  | [] => sb
  | value :: rest =>
      let sb := if (0 <? j)%nat then sb +:+ chr PIPE else sb in
      let sb := match mask !! j with
                | Some false => sb +:+ value
                | _ => writeEscaped sb value
                end in
      joinRowMasked_loop (S j) mask rest sb
  end.

Definition rowsToDataMasked (rows : list (list string)) (mask : list bool) : Data :=
  set_d_Rows (map (fun row => MkRow (joinRowMasked_loop 0 mask row "")) rows) zero_Data.

(** ** parser.go: reading *)

(** The slow path: [escaped] is set by a backslash, [buf] holds the cell being read. *)
Fixpoint rowValues_slow (s : string) (escaped : bool) (buf : string) : list string :=
  match s with
  | "" => [if escaped then buf +:+ chr BSLASH else buf]
  | String c s' =>
      if escaped then
        rowValues_slow s' false (buf +:+ chr (if Ascii.eqb c "n" then LF else c))
      else if Ascii.eqb c BSLASH then rowValues_slow s' true buf
      else if Ascii.eqb c PIPE then buf :: rowValues_slow s' false ""
      else rowValues_slow s' false (buf +:+ chr c)
  end.

(** [Parser.GetRowValues]: the fast path slices at pipes when the row has no backslash. *)
Definition GetRowValues (row : Row) : list string :=
  let s := r_Value row in
  if negb (has_byte BSLASH s) then Split s PIPE else rowValues_slow s false "".

(** [utils.go]: [ParseRows]. *)
Definition ParseRows (rows : list Row) : list (list string) := map GetRowValues rows.

(** ** Lemmas: the writers *)

Lemma escape_bytes_plain (v : string) : hasSpecial v = false -> escape_bytes v = v.
Proof.
  induction v as [|c v IH]; simpl; [done|].
  destruct (Ascii.eqb c BSLASH), (Ascii.eqb c PIPE), (Ascii.eqb c LF); simpl; try done.
  intros H. by rewrite (IH H).
Qed.

(** The fast path of [escapeValue] is only an optimisation. *)
Lemma escapeValue_bytes (v : string) : escapeValue v = escape_bytes v.
Proof.
  unfold escapeValue. destruct (hasSpecial v) eqn:E; [done|]. by rewrite escape_bytes_plain.
Qed.

Lemma writeEscaped_loop_spec (v pend sb : string) :
  writeEscaped_loop v pend sb = sb +:+ pend +:+ escape_bytes v.
Proof.
  revert pend sb; induction v as [|c v IH]; intros pend sb; simpl.
  - by rewrite str_app_nil_r.
  - repeat case_match; rewrite IH; autorewrite with go_rw; done.
Qed.

Lemma writeEscaped_spec (sb v : string) : writeEscaped sb v = sb +:+ escape_bytes v.
Proof. apply writeEscaped_loop_spec. Qed.

Lemma joinRow_loop_S (i : nat) (fields : list string) (sb : string) :
  joinRow_loop (S i) fields sb =
  sb +:+ String.concat "" (map (fun v => chr PIPE +:+ escape_bytes v) fields).
Proof.
  revert i sb; induction fields as [|v fields IH]; intros i sb; simpl.
  - by rewrite str_app_nil_r.
  - rewrite IH, writeEscaped_spec. autorewrite with go_rw.
    destruct fields; simpl; by autorewrite with go_rw.
Qed.

(** A row is its escaped cells joined with the separator. *)
Lemma JoinRowEscaped_Join (fields : list string) :
  JoinRowEscaped fields = Join (map escape_bytes fields) (chr PIPE).
Proof.
  destruct fields as [|v fields]; [done|]. unfold JoinRowEscaped; simpl.
  rewrite joinRow_loop_S, writeEscaped_spec. simpl. revert v.
  induction fields as [|w fields IH]; intros v; simpl; [by rewrite str_app_nil_r|].
  rewrite Join_cons by done. simpl in IH. rewrite <- IH. f_equal.
  destruct fields; simpl; by autorewrite with go_rw.
Qed.

(** ** Lemmas: the reader *)

Lemma rowValues_slow_plain (s buf : string) :
  has_byte BSLASH s = false -> rowValues_slow s false buf = split_from PIPE buf s.
Proof.
  revert buf; induction s as [|c s IH]; intros buf H; simpl in *; [done|].
  apply orb_false_iff in H as [-> H]. destruct (Ascii.eqb c PIPE); by rewrite IH.
Qed.

(** Reading one escaped cell appends it to the buffer. *)
Lemma rowValues_slow_cell (v rest buf : string) :
  rowValues_slow (escape_bytes v +:+ rest) false buf = rowValues_slow rest false (buf +:+ v).
Proof.
  revert buf; induction v as [|c v IH]; intros buf; simpl; [by rewrite str_app_nil_r|].
  rewrite str_app_assoc.
  destruct (Ascii.eqb c BSLASH) eqn:E1; [|destruct (Ascii.eqb c PIPE) eqn:E2;
    [|destruct (Ascii.eqb c LF) eqn:E3]]; go_bool; subst; simpl;
    rewrite ?IH, ?str_app_assoc; try done.
  apply Ascii.eqb_neq in E1, E2. by rewrite E1, E2.
Qed.

Lemma rowValues_slow_join (fields : list string) :
  fields <> [] -> rowValues_slow (Join (map escape_bytes fields) (chr PIPE)) false "" = fields.
Proof.
  destruct fields as [|v fields]; [done|]. intros _.
  revert v; induction fields as [|w fields IH]; intros v.
  - unfold Join; simpl. rewrite <- (str_app_nil_r (escape_bytes v)), rowValues_slow_cell. done.
  - rewrite map_cons, Join_cons by done. rewrite rowValues_slow_cell. simpl. f_equal. apply IH.
Qed.

(** The fast path of the reader is only an optimisation. *)
Lemma GetRowValues_slow (row : Row) : GetRowValues row = rowValues_slow (r_Value row) false "".
Proof.
  unfold GetRowValues. destruct (has_byte BSLASH (r_Value row)) eqn:E; simpl; [done|].
  by rewrite rowValues_slow_plain.
Qed.

Lemma GetRowValues_join (fields : list string) :
  fields <> [] -> GetRowValues (MkRow (JoinRowEscaped fields)) = fields.
Proof.
  intros H. rewrite GetRowValues_slow; simpl. rewrite JoinRowEscaped_Join. by apply rowValues_slow_join.
Qed.

Lemma rowValues_slow_nonempty (s : string) (b : bool) (buf : string) : rowValues_slow s b buf <> [].
Proof.
  revert b buf; induction s as [|c s IH]; intros b buf; simpl; [done|]. repeat case_match; done || apply IH.
Qed.

Lemma GetRowValues_nonempty (row : Row) : GetRowValues row <> [].
Proof. rewrite GetRowValues_slow. apply rowValues_slow_nonempty. Qed.

Lemma ParseRows_RowsToData (rows : list (list string)) :
  Forall (fun r => r <> []) rows -> ParseRows (d_Rows (RowsToData rows)) = rows.
Proof.
  intros H; simpl. unfold ParseRows. induction H as [|r rows Hr _ IH]; simpl; [done|].
  by rewrite GetRowValues_join, IH.
Qed.

(** ** Lemmas: bytes of an escaped row *)

Lemma escape_bytes_no_LF (v : string) : has_byte LF (escape_bytes v) = false.
Proof.
  induction v as [|c v IH]; simpl; [done|]. rewrite has_byte_app, IH, orb_false_r.
  repeat case_match; simpl; try done. by rewrite orb_false_r.
Qed.

Lemma Join_has_byte (c : ascii) (sep : string) (l : list string) :
  has_byte c sep = false -> Forall (fun x => has_byte c x = false) l -> has_byte c (Join l sep) = false.
Proof.
  intros Hsep Hl. induction Hl as [|x l Hx Hl IH]; [done|].
  destruct l as [|y l]; [done|]. rewrite Join_cons, !has_byte_app, Hx, Hsep by done. exact IH.
Qed.

Lemma JoinRowEscaped_no_LF (fields : list string) : has_byte LF (JoinRowEscaped fields) = false.
Proof.
  rewrite JoinRowEscaped_Join. apply Join_has_byte; [done|].
  apply Forall_map, Forall_true. intros v. apply escape_bytes_no_LF.
Qed.

(** ** Lemmas: the masked writer *)

(** A cell the mask exempts is clean when it holds no byte that needs escaping. *)
Fixpoint clean_row (j : nat) (mask : list bool) (row : list string) : bool :=
  match row with
  | [] => true
  | v :: rest =>
      (match mask !! j with Some false => negb (hasSpecial v) | _ => true end)
      && clean_row (S j) mask rest
  end.

Lemma joinRowMasked_clean (j : nat) (mask : list bool) (row : list string) (sb : string) :
  clean_row j mask row = true -> joinRowMasked_loop j mask row sb = joinRow_loop j row sb.
Proof.
  revert j sb; induction row as [|v row IH]; intros j sb H; simpl in *; [done|].
  apply andb_true_iff in H as [Hv H]. rewrite (IH _ _ H). f_equal.
  rewrite writeEscaped_spec. destruct (mask !! j) as [[|]|]; rewrite ?writeEscaped_spec; try done.
  apply negb_true_iff in Hv. by rewrite escape_bytes_plain.
Qed.

Lemma rowsToDataMasked_clean (schema : Schema) (rows : list (list string)) :
  Forall (fun row => clean_row 0 (buildEscapeMask schema) row = true) rows ->
  rowsToDataMasked rows (buildEscapeMask schema) = RowsToData rows.
Proof.
  intros H. unfold rowsToDataMasked, RowsToData. f_equal. apply map_ext_in. intros row Hin.
  rewrite joinRowMasked_clean; [done|]. rewrite List.Forall_forall in H. by apply H.
Qed.

(** ** Properties *)

(** C1. Reading a written row gives the cells back: for every non-empty list of cells, whatever
    bytes they hold (pipes, backslashes and line feeds included), [GetRowValues] of
    [JoinRowEscaped] is that list. *)
Theorem row_roundtrip (fields : list string) :
  fields <> [] -> GetRowValues (MkRow (JoinRowEscaped fields)) = fields.
Proof. apply GetRowValues_join. Qed.

Lemma row_roundtrip_witness :
  GetRowValues (MkRow (JoinRowEscaped ["a|b"; ""; "c\n" +:+ chr LF])) = ["a|b"; ""; "c\n" +:+ chr LF].
Proof. apply (row_roundtrip ["a|b"; ""; "c\n" +:+ chr LF]). done. Defined.

(** C38. The optimised row code is equivalent to the plain one: on every row [GetRowValues] returns
    what its byte-by-byte slow path returns, and on every value [writeEscaped] appends exactly
    [escapeValue]. *)
Theorem row_fast_paths_equivalent (row : Row) (sb value : string) :
  GetRowValues row = rowValues_slow (r_Value row) false ""
  /\ writeEscaped sb value = sb +:+ escapeValue value.
Proof.
  split; [apply GetRowValues_slow|]. by rewrite writeEscaped_spec, escapeValue_bytes.
Qed.

(** A written row never contains a line feed and is never read as an empty list, so line feed
    is a safe row separator for compressed blobs and every row has at least one cell. *)
Theorem row_no_line_feed (fields : list string) (row : Row) :
  has_byte LF (JoinRowEscaped fields) = false /\ GetRowValues row <> [].
Proof. split; [apply JoinRowEscaped_no_LF | apply GetRowValues_nonempty]. Qed.

(** The type-masked writer loses nothing on clean data: when the cells of numeric, boolean and
    date columns hold no backslash, pipe or line feed, [rowsToDataMasked] with the schema's mask
    produces the same [Data] as [RowsToData]. *)
Theorem masked_rows_equivalent (schema : Schema) (rows : list (list string)) :
  Forall (fun row => clean_row 0 (buildEscapeMask schema) row = true) rows ->
  rowsToDataMasked rows (buildEscapeMask schema) = RowsToData rows.
Proof. apply rowsToDataMasked_clean. Qed.

Definition masked_demo_schema : Schema :=
  set_s_Fields [MkField "id" "INTEGER" 0 0 0 true "" "" false false None "";
                MkField "note" "TEXT" 0 0 0 false "" "" false false None ""] zero_Schema.

Lemma masked_rows_equivalent_witness :
  rowsToDataMasked [["7"; "a|b"]] (buildEscapeMask masked_demo_schema) = RowsToData [["7"; "a|b"]].
Proof. apply (masked_rows_equivalent masked_demo_schema [["7"; "a|b"]]). by repeat constructor. Defined.
