(* ===== verification/PacketOps.v ===== *)
(** * Packet operations

    The methods and helpers of [src/pkg/core/packet/types.go] and [src/pkg/core/packet/utils.go] that
    build packets and move rows in and out of them.  [generateUUID] and [time.Now] are arguments. *)

From Stdlib Require Import ZArith Lia Ascii String.
From stdpp Require Import base list strings.
From S2P Require Import Prelude PacketTypes RowCodec.

(** ** types.go *)

Definition NewDataPacket (uuid : string) (now : Z) (msgType : MessageType) (tableName : string)
    : DataPacket :=
  MkDataPacket "TDTP" "1.0" ""
    (MkHeader msgType tableName uuid "" 0 0 0 now "" "")
    None None None zero_Schema zero_Data None [].

Definition GetRows (p : DataPacket) : list (list string) :=
  if (0 <? length (p_rawRows p))%nat then p_rawRows p else map GetRowValues (d_Rows (p_Data p)).

Definition SetRows (rows : list (list string)) (p : DataPacket) : DataPacket :=
  let p := set_p_Data (RowsToData rows) p in
  set_p_Header (set_h_RecordsInPart (Z.of_nat (length rows)) (p_Header p)) p.

Definition MaterializeRows (p : DataPacket) : DataPacket :=
  if (0 <? length (p_rawRows p))%nat && (length (d_Rows (p_Data p)) =? 0)%nat
  then set_p_rawRows [] (set_p_Data (RowsToData (p_rawRows p)) p)
  else p.

(** The loop of [SchemaEquals] over the fields, after the length test. *)
Fixpoint fields_agree (a b : list Field) : bool :=
  match a, b with
  | x :: a', y :: b' =>
      if negb (String.eqb (f_Name x) (f_Name y)) || negb (String.eqb (f_Type x) (f_Type y))
      then false else fields_agree a' b'
  | _, _ => true
  end.
Definition SchemaEquals (a b : Schema) : bool :=
  if negb (length (s_Fields a) =? length (s_Fields b))%nat then false
  else fields_agree (s_Fields a) (s_Fields b).

(** ** utils.go *)

Definition NewErrorPacket (uuid : string) (now now2 : Z)
    (code message table inReplyTo serverMode : string) : DataPacket :=
  let pkt := NewDataPacket uuid now TypeError table in
  let h := p_Header pkt in
  MkDataPacket (p_Protocol pkt) "1.4" (p_XXH3 pkt)
    (MkHeader (h_Type h) (h_TableName h) (h_MessageID h) inReplyTo (h_PartNumber h)
       (h_TotalParts h) (h_RecordsInPart h) now2 (h_Sender h) (h_Recipient h))
    (p_Query pkt) (p_QueryContext pkt) (p_PipelineContext pkt) zero_Schema zero_Data
    (Some (MkAlarmDetails "error" code message serverMode 0)) (p_rawRows pkt).

(** [version <= "1.3.1"], Go's byte-wise string comparison. *)
Definition NeedsRowCountCheck (version : string) : bool := str_leb version "1.3.1".

Definition ExtractKeyFields (schema : Schema) : list string :=
  map f_Name (List.filter f_Key (s_Fields schema)).

(** The inner loop of [GetFieldIndices]: the first field with that name. *)
Fixpoint field_index (i : nat) (fs : list Field) (name : string) : option nat :=
  match fs with
  | [] => None
  | f :: fs' => if String.eqb (f_Name f) name then Some i else field_index (S i) fs' name
  end.
Fixpoint GetFieldIndices (schema : Schema) (fieldNames : list string) : list nat :=
  match fieldNames with
  | [] => []
  | name :: rest =>
      match field_index 0 (s_Fields schema) name with
      | Some i => i :: GetFieldIndices schema rest
      | None => GetFieldIndices schema rest
      end
  end.

(** ** Lemmas *)

(** Rows the format can hold: a row with no cell is written as one empty cell. *)
Definition good_rows (rows : list (list string)) : Prop := Forall (fun r => r <> []) rows.

Lemma GetRows_raw (p : DataPacket) : p_rawRows p <> [] -> GetRows p = p_rawRows p.
Proof. unfold GetRows. by destruct (p_rawRows p). Qed.

Lemma GetRows_data (p : DataPacket) : p_rawRows p = [] -> GetRows p = ParseRows (d_Rows (p_Data p)).
Proof. unfold GetRows. by intros ->. Qed.

(** A packet keeps its rows in one place: raw or in the data section. *)
Definition rows_in_one_place (p : DataPacket) : Prop := p_rawRows p = [] \/ d_Rows (p_Data p) = [].

Lemma MaterializeRows_one_place (p : DataPacket) :
  rows_in_one_place p -> good_rows (GetRows p) ->
  p_rawRows (MaterializeRows p) = [] /\ ParseRows (d_Rows (p_Data (MaterializeRows p))) = GetRows p.
Proof.
  unfold MaterializeRows, GetRows. destruct (p_rawRows p) as [|r raw] eqn:E; simpl; [done|].
  intros [|Hd] Hg; [congruence|]. rewrite Hd. simpl. split; [done|].
  apply (ParseRows_RowsToData (r :: raw) Hg).
Qed.

Lemma MaterializeRows_Schema (p : DataPacket) : p_Schema (MaterializeRows p) = p_Schema p.
Proof. unfold MaterializeRows. by case_match. Qed.

Lemma field_index_Some (i : nat) (fs : list Field) (name : string) (k : nat) :
  field_index i fs name = Some k ->
  i <= k /\ exists f, fs !! (k - i) = Some f /\ f_Name f = name.
Proof.
  revert i; induction fs as [|f fs IH]; intros i; simpl; [done|].
  destruct (String.eqb (f_Name f) name) eqn:E; go_bool.
  - intros [= ->]. split; [done|]. exists f. by rewrite Nat.sub_diag.
  - intros H. apply IH in H as [Hle (g & Hg & Hn)]. split; [lia|]. exists g.
    replace (k - i) with (S (k - S i)) by lia. done.
Qed.

Lemma GetFieldIndices_bounded (schema : Schema) (names : list string) :
  Forall (fun i => i < length (s_Fields schema)) (GetFieldIndices schema names).
Proof.
  induction names as [|n names IH]; simpl; [constructor|].
  destruct (field_index 0 (s_Fields schema) n) eqn:E; [|done]. constructor; [|done].
  apply field_index_Some in E as [_ (f & Hf & _)]. rewrite Nat.sub_0_r in Hf.
  eauto using lookup_lt_Some.
Qed.

Lemma fields_agree_spec (a b : list Field) :
  length a = length b ->
  fields_agree a b = true <->
  map (fun f => (f_Name f, f_Type f)) a = map (fun f => (f_Name f, f_Type f)) b.
Proof.
  revert b; induction a as [|x a IH]; intros [|y b] Hl; simpl in *; try done.
  destruct (String.eqb_spec (f_Name x) (f_Name y)) as [En|En],
    (String.eqb_spec (f_Type x) (f_Type y)) as [Et|Et]; simpl.
  - rewrite IH by lia. rewrite En, Et. split; [by intros ->|by intros [= ->]].
  - split; [done|congruence].
  - split; [done|congruence].
  - split; [done|congruence].
Qed.

(** ** Properties *)

(** What a reader sees after a writer: on a packet whose raw rows are unset, [GetRows] returns
    exactly the rows given to [SetRows] and the header counts them; on a packet that still carries
    raw rows (one fresh from [GenerateReference]) [SetRows] has no effect on [GetRows], which keeps
    returning the old rows. *)
Theorem set_rows_get_rows (rows : list (list string)) (p : DataPacket) :
  good_rows rows ->
  h_RecordsInPart (p_Header (SetRows rows p)) = Z.of_nat (length rows)
  /\ GetRows (SetRows rows p) = match p_rawRows p with [] => rows | old => old end.
Proof.
  intros Hr. split; [done|]. unfold GetRows; simpl.
  destruct (p_rawRows p); simpl; [by apply ParseRows_RowsToData|done].
Qed.

Lemma set_rows_get_rows_witness :
  GetRows (SetRows [["masked"]] (set_p_rawRows [["secret"]] (NewDataPacket "u" 1 TypeReference "t")))
  = [["secret"]].
Proof.
  apply (set_rows_get_rows [["masked"]]
           (set_p_rawRows [["secret"]] (NewDataPacket "u" 1 TypeReference "t"))).
  by repeat constructor.
Defined.

(** Materialising is invisible to readers: [MaterializeRows] leaves what [GetRows] returns
    unchanged, is idempotent, and on a packet with pending raw rows and no data rows it leaves no raw
    rows behind (so no later writer can take the raw path). *)
Theorem materialize_preserves_rows (p : DataPacket) :
  good_rows (p_rawRows p) ->
  GetRows (MaterializeRows p) = GetRows p
  /\ MaterializeRows (MaterializeRows p) = MaterializeRows p
  /\ (d_Rows (p_Data p) = [] -> p_rawRows (MaterializeRows p) = []).
Proof.
  intros Hr. unfold MaterializeRows.
  destruct (p_rawRows p) as [|r rows] eqn:E; simpl; [by rewrite E|].
  destruct (d_Rows (p_Data p)) as [|d ds] eqn:Ed; simpl; rewrite ?E, ?Ed; [|done].
  split; [|done]. unfold GetRows; rewrite E; simpl.
  apply (ParseRows_RowsToData (r :: rows) Hr).
Qed.

Lemma materialize_preserves_rows_witness :
  p_rawRows (MaterializeRows (set_p_rawRows [["a|"; ""]] (NewDataPacket "u" 1 TypeReference "t"))) = [].
Proof.
  apply (materialize_preserves_rows
           (set_p_rawRows [["a|"; ""]] (NewDataPacket "u" 1 TypeReference "t"))).
  - by repeat constructor.
  - done.
Defined.
