(* ===== verification/Compression.v ===== *)
(** * Compression of the Data section

    [src/pkg/processors/compression.go] and [compression_kanzi.go] (rows joined with line feeds,
    compressed and encoded in base64), the checksum helpers of [src/pkg/processors/checksum.go], and the
    two packet operations of [src/cmd/tdtpcli/commands/export.go] built on them, [compressPacketData]
    and [decompressPacketData].

    The compressors and the hash (klauspost/compress/zstd, flanglet/kanzi-go, zeebo/xxh3) are third-party
    packages: they are the fields of [Codec], and [CodecLaws] states what the packages document. *)

From Stdlib Require Import ZArith Lia Ascii String.
From stdpp Require Import base list strings.
From S2P Require Import Prelude Encodings PacketTypes RowCodec PacketOps.

Class Codec := {
  zstd_new : Z -> bool;                                (** [zstd.NewWriter] at a level succeeds *)
  zstd_enc : Z -> string -> string;                    (** [encoder.EncodeAll] *)
  zstd_dec : string -> option string;                  (** [decoder.DecodeAll] *)
  kanzi_enc : string * string -> string -> option string; (** the kanzi writer, by transform and entropy *)
  kanzi_dec : string -> option string;                 (** the kanzi reader *)
  xxh3_hash : string -> N;                             (** [xxh3.Hash], a 64-bit value *)
}.

(** The decompressors invert the compressors, which never produce an empty stream. *)
Class CodecLaws (K : Codec) : Prop := {
  zstd_dec_enc level s : zstd_dec (zstd_enc level s) = Some s;
  zstd_enc_nonempty level s : zstd_enc level s <> "";
  kanzi_dec_enc preset s c : kanzi_enc preset s = Some c -> kanzi_dec c = Some s;
  kanzi_enc_nonempty preset s c : kanzi_enc preset s = Some c -> c <> "";
}.

Definition AlgoZstd : string := "zstd".
Definition AlgoKanzi : string := "kanzi".

Inductive codec_error :=
| EZstdNew            (* failed to create zstd encoder *)
| EBase64             (* failed to decode base64 *)
| EZstdDecode         (* failed to decompress zstd *)
| EKanziEncode | EKanziDecode
| EChecksum (expected actual : string)
| ERowCount (n : nat)                   (* compressed packet should have exactly 1 row *)
| ERecords (declared : Z) (actual : nat). (* RecordsInPart mismatch after decompression *)

Section Compression.
Context {K : Codec}.

(** ** compression.go *)

(** [CompressionProcessor.ProcessBlock]. *)
Definition zstd_compress_block (level : Z) (input : string) : result codec_error string :=
  if (String.length input =? 0)%nat then Ok "" else Ok (b64_encode (zstd_enc level input)).
(** [DecompressionProcessor.ProcessBlock]. *)
Definition zstd_decompress_block (input : string) : result codec_error string :=
  if (String.length input =? 0)%nat then Ok "" else
  match b64_decode input with
  | None => Err EBase64
  | Some decoded => match zstd_dec decoded with Some s => Ok s | None => Err EZstdDecode end
  end.

Definition Compress (input : string) (level : Z) : result codec_error string :=
  fail_if negb (zstd_new level) with EZstdNew ;; zstd_compress_block level input.
Definition Decompress (input : string) : result codec_error string := zstd_decompress_block input.

(** ** compression_kanzi.go *)

Definition kanziPresets (level : Z) : option (string * string) :=
  if (level =? 6)%Z then Some ("TEXT+UTF+BWT+SRT+ZRLT", "FPAQ")%string
  else if (level =? 7)%Z then Some ("LZP+TEXT+UTF+BWT+LZP", "CM")%string
  else None.
Definition kanzi_preset (level : Z) : string * string :=
  default ("TEXT+UTF+BWT+SRT+ZRLT", "FPAQ")%string (kanziPresets level).

Definition CompressKanzi (input : string) (level : Z) : result codec_error string :=
  if (String.length input =? 0)%nat then Ok "" else
  match kanzi_enc (kanzi_preset level) input with
  | None => Err EKanziEncode
  | Some buf => Ok (b64_encode buf)
  end.
Definition DecompressKanzi (input : string) : result codec_error string :=
  if (String.length input =? 0)%nat then Ok "" else
  match b64_decode input with
  | None => Err EBase64
  | Some decoded => match kanzi_dec decoded with Some s => Ok s | None => Err EKanziDecode end
  end.

(** ** compression.go: rows of a packet (the timing statistics are not modelled) *)

Definition CompressDataForTdtpAlgo (rows : list string) (algo : string) (level : Z)
    : result codec_error string :=
  if (length rows =? 0)%nat then Ok "" else
  let originalData := Join rows (chr LF) in
  if String.eqb algo AlgoKanzi then CompressKanzi originalData level else Compress originalData level.

Definition CompressDataForTdtp (rows : list string) (level : Z) : result codec_error string :=
  if (length rows =? 0)%nat then Ok "" else Compress (Join rows (chr LF)) level.

Definition DecompressDataForTdtpAlgo (compressed algo : string) : result codec_error (list string) :=
  if String.eqb compressed "" then Ok [] else
  data ← (if String.eqb algo AlgoKanzi then DecompressKanzi compressed else Decompress compressed);
  if (String.length data =? 0)%nat then Ok [] else Ok (Split data LF).

Definition DecompressDataForTdtpWithAlgo (compressed algo : string) : result codec_error (list string) :=
  if String.eqb compressed "" then Ok [] else
  data ← (if String.eqb algo AlgoKanzi then DecompressKanzi compressed else Decompress compressed);
  if (String.length data =? 0)%nat then Ok [] else Ok (Split data LF).

Definition DecompressDataForTdtp (compressed : string) : result codec_error (list string) :=
  DecompressDataForTdtpWithAlgo compressed AlgoZstd.

Definition DryDecompress (compressed algo : string) : result codec_error unit :=
  if String.eqb compressed "" then Ok () else
  data ← (if String.eqb algo AlgoKanzi then DecompressKanzi compressed else Decompress compressed);
  Ok ().

Definition ShouldCompress (dataSize minSize : Z) : bool :=
  let minSize := if (minSize <=? 0)%Z then 1024%Z else minSize in (minSize <=? dataSize)%Z.

(** ** checksum.go *)

Definition ComputeChecksum (data : string) : string := hex_encode (uint64ToBytes (xxh3_hash data)).
Definition ValidateChecksum (data expectedHash : string) : result codec_error unit :=
  let actual := ComputeChecksum data in
  fail_if negb (String.eqb actual expectedHash) with EChecksum expectedHash actual ;; Ok ().

(** ** export.go *)

Definition set_d_Checksum (c : string) (d : Data) : Data :=
  MkData (d_Compression d) c (d_XXH3 d) (d_Compact d) (d_Tail d) (d_Carry d) (d_Encryption d) (d_Rows d).

Definition compressPacketData (pkt : DataPacket) (level : Z) (algo : string) (enableChecksum : bool)
    : result codec_error DataPacket :=
  let pkt := MaterializeRows pkt in
  if (length (d_Rows (p_Data pkt)) =? 0)%nat then Ok pkt else
  let algo := if String.eqb algo "" then AlgoZstd else algo in
  let rows := map r_Value (d_Rows (p_Data pkt)) in
  compressed ← CompressDataForTdtpAlgo rows algo level;
  let d := if enableChecksum then set_d_Checksum (ComputeChecksum compressed) (p_Data pkt) else p_Data pkt in
  Ok (set_p_Data (set_d_Rows [MkRow compressed] (set_d_Compression algo d)) pkt).

(** The error after the last test leaves the packet already updated; Go callers drop it. *)
Definition decompressPacketData (pkt : DataPacket) : result codec_error DataPacket :=
  if String.eqb (d_Compression (p_Data pkt)) "" then Ok pkt else
  match d_Rows (p_Data pkt) with
  | [row] =>
      let compressedData := r_Value row in
      _ ← (if negb (String.eqb (d_Checksum (p_Data pkt)) "")
           then ValidateChecksum compressedData (d_Checksum (p_Data pkt)) else Ok ());
      rows ← DecompressDataForTdtpAlgo compressedData (d_Compression (p_Data pkt));
      let d := set_d_Rows (map MkRow rows) (set_d_Checksum "" (set_d_Compression "" (p_Data pkt))) in
      let declared := h_RecordsInPart (p_Header pkt) in
      fail_if (0 <? declared)%Z && NeedsRowCountCheck (p_Version pkt)
              && negb (declared =? Z.of_nat (length rows))%Z
        with ERecords declared (length rows) ;;
      Ok (set_p_Data d pkt)
  | rows => Err (ERowCount (length rows))
  end.
End Compression.

#[global] Arguments ComputeChecksum {K} data : simpl never.
#[global] Arguments b64_encode !s : simpl nomatch.

(** ** Lemmas *)

Section CompressionLemmas.
Context {K : Codec} {L : CodecLaws K}.

Lemma b64_nonempty (s : string) : s <> "" -> String.length (b64_encode s) <> 0.
Proof. intros H E. apply H, b64_encode_empty. by destruct (b64_encode s). Qed.

Lemma Decompress_Compress (s c : string) (level : Z) : Compress s level = Ok c -> Decompress c = Ok s.
Proof.
  unfold Compress, Decompress, zstd_compress_block, zstd_decompress_block, check_.
  destruct (zstd_new level); [simpl|done]. destruct s as [|a s]; simpl; [by intros [= <-]|].
  intros [= <-]. pose proof (b64_nonempty _ (zstd_enc_nonempty level (String a s))) as H.
  apply Nat.eqb_neq in H. by rewrite H, b64_decode_encode, zstd_dec_enc.
Qed.

Lemma DecompressKanzi_CompressKanzi (s c : string) (level : Z) :
  CompressKanzi s level = Ok c -> DecompressKanzi c = Ok s.
Proof.
  unfold CompressKanzi, DecompressKanzi. destruct s as [|a s]; simpl; [by intros [= <-]|].
  destruct (kanzi_enc _ _) as [buf|] eqn:E; [|done]. intros [= <-].
  pose proof (b64_nonempty _ (kanzi_enc_nonempty _ _ _ E)) as H.
  apply Nat.eqb_neq in H. by rewrite H, b64_decode_encode, (kanzi_dec_enc _ _ _ E).
Qed.

Lemma Compress_empty (s c : string) (level : Z) : Compress s level = Ok c -> c = "" -> s = "".
Proof. intros H ->. apply Decompress_Compress in H. by injection H. Qed.

Lemma CompressKanzi_empty (s c : string) (level : Z) : CompressKanzi s level = Ok c -> c = "" -> s = "".
Proof. intros H ->. apply DecompressKanzi_CompressKanzi in H. by injection H. Qed.

(** Decompressing what was compressed gives the joined rows, split again. *)
Lemma decompress_compress_join (rows : list string) (algo c : string) (level : Z) :
  CompressDataForTdtpAlgo rows algo level = Ok c -> rows <> [] ->
  DecompressDataForTdtpAlgo c algo =
    Ok (if String.eqb (Join rows (chr LF)) "" then [] else Split (Join rows (chr LF)) LF).
Proof.
  unfold CompressDataForTdtpAlgo, DecompressDataForTdtpAlgo.
  destruct rows as [|r rows]; [done|]. cbn [length Nat.eqb]. intros H _.
  destruct (String.eqb_spec c "") as [->|Hc].
  { destruct (String.eqb algo AlgoKanzi);
      [apply CompressKanzi_empty in H|apply Compress_empty in H]; rewrite ?H; done. }
  destruct (String.eqb algo AlgoKanzi);
    [apply DecompressKanzi_CompressKanzi in H|apply Decompress_Compress in H]; rewrite H; simpl;
    by destruct (Join (r :: rows) (chr LF)).
Qed.

Lemma decompress_compress_rows (rows : list string) (algo c : string) (level : Z) :
  CompressDataForTdtpAlgo rows algo level = Ok c -> rows <> [] -> rows <> [""] ->
  Forall (fun r => has_byte LF r = false) rows ->
  DecompressDataForTdtpAlgo c algo = Ok rows.
Proof.
  intros H Hr Hr1 Hlf. rewrite (decompress_compress_join rows algo c level) by done.
  destruct (String.eqb_spec (Join rows (chr LF)) "") as [E|E].
  - destruct rows as [|r [|r2 rows]]; [done| |].
    + unfold Join in E; simpl in E. by subst.
    + exfalso. rewrite Join_cons in E by done. by destruct r.
  - by rewrite Split_Join.
Qed.

Lemma ValidateChecksum_own (c : string) : ValidateChecksum c (ComputeChecksum c) = Ok ().
Proof. unfold ValidateChecksum, check_. by rewrite String.eqb_refl. Qed.

Lemma ComputeChecksum_nonempty (c : string) : String.eqb (ComputeChecksum c) "" = false.
Proof. reflexivity. Qed.

(** A packet the export commands hand to the compressor: not compressed yet, and a row count in the
    header, if any, that is right. *)
Definition ready_to_compress (p : DataPacket) : Prop :=
  d_Compression (p_Data p) = "" /\ d_Checksum (p_Data p) = ""
  /\ (h_RecordsInPart (p_Header p) = 0%Z \/ h_RecordsInPart (p_Header p) = Z.of_nat (length (d_Rows (p_Data p))))
  /\ Forall (fun r => has_byte LF (r_Value r) = false) (d_Rows (p_Data p)).

(** What [decompressPacketData] computes on the output of [compressPacketData]. *)
Lemma decompress_after_compress (p q : DataPacket) (level : Z) (algo : string) (chk : bool) :
  let m := MaterializeRows p in
  ready_to_compress m -> d_Rows (p_Data m) <> [] -> compressPacketData p level algo chk = Ok q ->
  exists algo' compressed, algo' <> "" /\
  CompressDataForTdtpAlgo (map r_Value (d_Rows (p_Data m))) algo' level = Ok compressed /\
  decompressPacketData q =
    (rows ← DecompressDataForTdtpAlgo compressed algo';
     fail_if (0 <? h_RecordsInPart (p_Header m))%Z && NeedsRowCountCheck (p_Version m)
             && negb (h_RecordsInPart (p_Header m) =? Z.of_nat (length rows))%Z
       with ERecords (h_RecordsInPart (p_Header m)) (length rows) ;;
     Ok (set_p_Data (set_d_Rows (map MkRow rows) (p_Data m)) m)).
Proof.
  intros m (Hc & Hk & _) Hne H. unfold compressPacketData in H. fold m in H.
  destruct (length (d_Rows (p_Data m)) =? 0)%nat eqn:E0;
    [by apply Nat.eqb_eq, length_zero_iff_nil in E0|].
  set (algo' := if String.eqb algo "" then AlgoZstd else algo) in H.
  destruct (CompressDataForTdtpAlgo _ _ _) as [c|e] eqn:E; simpl in H; [|done].
  exists algo', c. assert (Ha : algo' <> "") by (unfold algo'; by destruct (String.eqb_spec algo "")).
  split_and!; [done..|]. injection H as <-. apply String.eqb_neq in Ha.
  unfold decompressPacketData. destruct m as [? ? ? h ? ? ? ? [cm ck x co t ca en rs] ? ?]; simpl in *. subst.
  pose proof (ComputeChecksum_nonempty c) as Hn. pose proof (ValidateChecksum_own c) as Hv.
  generalize dependent (ComputeChecksum c). intros k Hn Hv.
  destruct chk; simpl; rewrite Ha; simpl; [rewrite Hn, Hv|]; reflexivity.
Qed.

Lemma decompress_undoes_compress (p q : DataPacket) (level : Z) (algo : string) (chk : bool) :
  ready_to_compress (MaterializeRows p) -> map r_Value (d_Rows (p_Data (MaterializeRows p))) <> [""] ->
  compressPacketData p level algo chk = Ok q -> decompressPacketData q = Ok (MaterializeRows p).
Proof.
  set (m := MaterializeRows p). intros Hr Hne H.
  destruct (decide (d_Rows (p_Data m) = [])) as [Hnil|Hnil].
  { unfold compressPacketData in H. fold m in H. rewrite Hnil in H. injection H as <-.
    destruct Hr as [Hr _]. unfold decompressPacketData. by rewrite Hr. }
  destruct (decompress_after_compress p q level algo chk Hr Hnil H) as (algo' & c & _ & Hc & ->).
  fold m in Hc |- *. destruct Hr as (_ & _ & Hrec & Hlf).
  rewrite (decompress_compress_rows _ _ _ _ Hc); [|by destruct (d_Rows (p_Data m))|done|by apply Forall_map].
  simpl. rewrite length_map, map_map, (map_ext (fun r => MkRow (r_Value r)) id), map_id by (by intros []).
  unfold check_. destruct m as [? ? ? [] ? ? ? ? [] ? ?]; simpl in *.
  destruct Hrec as [->|E]; [done|]. rewrite <- E, Z.eqb_refl, andb_false_r. done.
Qed.

(** ** Properties *)

(** Compression loses nothing: for a packet ready to be compressed whose rows are not a single
    empty line, [decompressPacketData] undoes [compressPacketData], whichever algorithm and level were
    chosen and with or without a checksum; the packet that comes back is exactly the materialised
    original, header and schema included. *)
Theorem compress_packet_roundtrip (p q : DataPacket) (level : Z) (algo : string) (chk : bool) :
  ready_to_compress (MaterializeRows p) -> map r_Value (d_Rows (p_Data (MaterializeRows p))) <> [""] ->
  compressPacketData p level algo chk = Ok q -> decompressPacketData q = Ok (MaterializeRows p).
Proof. apply decompress_undoes_compress. Qed.

(** The one table compression loses: a single row that serialises to the empty line (one column,
    empty value) compresses to an empty block, which decompresses to no row at all.  Packets of
    version 1.3.1 and below with a row count are then rejected; others silently come back empty. *)
Theorem compress_loses_single_empty_row (p q : DataPacket) (level : Z) (algo : string) (chk : bool) :
  ready_to_compress (MaterializeRows p) -> map r_Value (d_Rows (p_Data (MaterializeRows p))) = [""] ->
  compressPacketData p level algo chk = Ok q ->
  decompressPacketData q =
    if (h_RecordsInPart (p_Header (MaterializeRows p)) =? 1)%Z
       && NeedsRowCountCheck (p_Version (MaterializeRows p))
    then Err (ERecords 1 0)
    else Ok (set_p_Data (set_d_Rows [] (p_Data (MaterializeRows p))) (MaterializeRows p)).
Proof.
  set (m := MaterializeRows p). intros Hr Hone H.
  assert (Hnil : d_Rows (p_Data m) <> []) by (intros E; by rewrite E in Hone).
  destruct (decompress_after_compress p q level algo chk Hr Hnil H) as (algo' & c & _ & Hc & ->).
  fold m in Hc |- *. rewrite Hone in Hc. rewrite (decompress_compress_join _ _ _ _ Hc) by done.
  destruct Hr as (_ & _ & Hrec & _).
  assert (Hl : length (d_Rows (p_Data m)) = 1) by (by rewrite <- (length_map r_Value), Hone).
  rewrite Hl in Hrec. unfold check_; simpl.
  destruct Hrec as [->|E]; [done|]. rewrite E; simpl. by destruct (NeedsRowCountCheck _).
Qed.
End CompressionLemmas.

(** A codec that meets the laws: it frames its input with one byte. *)
Definition demo_codec : Codec := {|
  zstd_new _ := true;
  zstd_enc _ s := String "Z" s;
  zstd_dec s := match s with String "Z" t => Some t | _ => None end;
  kanzi_enc _ s := Some (String "K" s);
  kanzi_dec s := match s with String "K" t => Some t | _ => None end;
  xxh3_hash s := N.of_nat (String.length s);
|}.
#[export] Instance demo_codec_laws : CodecLaws demo_codec.
Proof. by split; simpl; intros; simplify_eq. Qed.

Definition demo_compress_packet (rows : list (list string)) : DataPacket :=
  set_p_rawRows rows
    (set_p_Header (MkHeader TypeReference "t" "id" "" 1 1 (Z.of_nat (length rows)) 1 "" "")
       (NewDataPacket "u" 1 TypeReference "t")).

Lemma ready_demo (rows : list (list string)) :
  ready_to_compress (MaterializeRows (demo_compress_packet rows)).
Proof.
  unfold demo_compress_packet, MaterializeRows; simpl.
  destruct (0 <? length rows)%nat eqn:E; simpl.
  - split_and!; simpl; [done..| |].
    + right. by rewrite length_map.
    + apply Forall_map, Forall_true. intros r. apply JoinRowEscaped_no_LF.
  - split_and!; simpl; [done..| |constructor]. left. destruct rows; done.
Qed.

Lemma compress_packet_roundtrip_witness :
  exists q, compressPacketData (K := demo_codec) (demo_compress_packet [["a"; "b|c"]; ["d"; ""]]) 3 "kanzi" true = Ok q
  /\ decompressPacketData (K := demo_codec) q = Ok (MaterializeRows (demo_compress_packet [["a"; "b|c"]; ["d"; ""]])).
Proof.
  eexists. split; [vm_compute; reflexivity|].
  apply (compress_packet_roundtrip (K := demo_codec) (demo_compress_packet [["a"; "b|c"]; ["d"; ""]]) _ 3 "kanzi" true);
    [apply ready_demo|discriminate|vm_compute; reflexivity].
Defined.

Lemma compress_loses_single_empty_row_witness :
  exists q, compressPacketData (K := demo_codec) (demo_compress_packet [[""]]) 3 "" false = Ok q
  /\ decompressPacketData (K := demo_codec) q = Err (ERecords 1 0).
Proof.
  eexists. split; [vm_compute; reflexivity|].
  rewrite (compress_loses_single_empty_row (K := demo_codec) (demo_compress_packet [[""]]) _ 3 "" false);
    [reflexivity|apply ready_demo|reflexivity|vm_compute; reflexivity].
Defined.
