(* ===== verification/Compact.v ===== *)
(** * The compact row format (v1.3.1)

    [src/pkg/core/packet/compact.go]: a [fixed] column is written only when its value changes; the
    decoder carries the last written value forward.  [RowsToCompactData] encodes, [ExpandCompactRows]
    decodes, [ApplyCompact] turns a packet into the compact form.  The theorems characterise exactly
    which tables survive the round trip, when the tail row is refused, and why a chunk with a carry
    attribute decodes independently of the chunks before it. *)

From Stdlib Require Import ZArith Lia Ascii String.
From stdpp Require Import base list strings gmap.
From S2P Require Import Prelude PacketTypes RowCodec PacketOps.

(** ** Decoding *)

Record CompactTailError := MkCompactTailError { cte_FieldIndex : nat; cte_FieldName : string }.

(** [carry] initialised from the chunk's carry attribute. *)
Fixpoint init_carry (fixedPos : list bool) (carry initValues : list string) : list string :=
  match fixedPos, carry, initValues with
  | b :: fixedPos', c :: carry', v :: init' =>
      (if b && negb (String.eqb v "") then v else c) :: init_carry fixedPos' carry' init'
  | _, _, _ => carry
  end.

(** The first fixed field the tail row leaves empty. *)
Fixpoint tail_check (i : nat) (fields : list Field) (tailValues : list string)
    : option CompactTailError :=
  match fields with
  | [] => None
  | f :: fields' =>
      if f_Fixed f && String.eqb (default "" (head tailValues)) ""
      then Some (MkCompactTailError i (f_Name f))
      else tail_check (S i) fields' (tail tailValues)
  end.

(** [for len(values) < nFields { values = append(values, "") }]. *)
Definition pad_values (nFields : nat) (values : list string) : list string :=
  values ++ replicate (nFields - length values) "".

(** The carry-forward loop over one row: the expanded values and the new carry. *)
Fixpoint expand_row (fixedPos : list bool) (carry values : list string)
    : list string * list string :=
  match fixedPos, carry, values with
  | b :: fixedPos', c :: carry', v :: values' =>
      let '(vs, cs) := expand_row fixedPos' carry' values' in
      if b then
        if negb (String.eqb v "") then (v :: vs, v :: cs) else (c :: vs, c :: cs)
      else (v :: vs, c :: cs)
  | _, _, _ => (values, carry)
  end.

Fixpoint expand_rows (nFields : nat) (fixedPos : list bool) (carry : list string) (rows : list Row)
    : list Row :=
  match rows with
  | [] => []
  | row :: rest =>
      let values := pad_values nFields (GetRowValues row) in
      let '(values, carry) := expand_row fixedPos carry values in
      MkRow (Join (map escapeValue values) (chr PIPE)) :: expand_rows nFields fixedPos carry rest
  end.

Definition ExpandCompactRows (packet : DataPacket) : result CompactTailError DataPacket :=
  let d := p_Data packet in
  let fields := s_Fields (p_Schema packet) in
  if negb (d_Compact d) || (length (d_Rows d) =? 0)%nat then Ok packet else
  let nFields := length fields in
  let fixedPos := map f_Fixed fields in
  let hasFixed := existsb f_Fixed fields in
  if negb hasFixed then Ok (set_p_Data (set_d_Compact false d) packet) else
  let carry := replicate nFields "" in
  let carry :=
    if negb (String.eqb (d_Carry d) "")
    then init_carry fixedPos carry (GetRowValues (MkRow (d_Carry d)))
    else carry in
  match (if d_Tail d
         then tail_check 0 fields (GetRowValues (default (MkRow "") (last (d_Rows d))))
         else None) with
  | Some e => Err e
  | None =>
      Ok (set_p_Data
            (MkData (d_Compression d) (d_Checksum d) (d_XXH3 d) false false "" (d_Encryption d)
               (expand_rows nFields fixedPos carry (d_Rows d))) packet)
  end.

(** ** Encoding *)

(** One row: the cell texts and the new [lastFixed]; [force] is [firstRow || isTailRow]. *)
Fixpoint compact_cells (fixedPos : list bool) (force : bool) (lastFixed row : list string)
    : list string * list string :=
  match fixedPos, lastFixed with
  | b :: fixedPos', l :: lastFixed' =>
      let val := default "" (head row) in
      let '(cells, ls) := compact_cells fixedPos' force lastFixed' (tail row) in
      if b then
        if force || negb (String.eqb val l) then (escapeValue val :: cells, val :: ls)
        else ("" :: cells, l :: ls)
      else (escapeValue val :: cells, l :: ls)
  | _, _ => ([], lastFixed)
  end.

Fixpoint compact_rows (fixedPos : list bool) (tail firstRow : bool) (lastFixed : list string)
    (rows : list (list string)) : list Row :=
  match rows with
  | [] => []
  | row :: rest =>
      let isTailRow := tail && (length rest =? 0)%nat in
      let '(cells, lastFixed) := compact_cells fixedPos (firstRow || isTailRow) lastFixed row in
      MkRow (Join cells (chr PIPE)) :: compact_rows fixedPos tail false lastFixed rest
  end.

Definition RowsToCompactData (rows : list (list string)) (schema : Schema) (tail : bool) : Data :=
  if (length rows =? 0)%nat then set_d_Compact true zero_Data else
  let nFields := length (s_Fields schema) in
  let fixedPos := map f_Fixed (s_Fields schema) in
  if negb (existsb f_Fixed (s_Fields schema)) then RowsToData rows else
  MkData "" "" "" true tail "" "" (compact_rows fixedPos tail true (replicate nFields "") rows).

Definition AutoFixedFields (schema : Schema) : list string :=
  map f_Name (List.filter (fun f => HasPrefix (f_Name f) "_") (s_Fields schema)).

Definition ResolveFixedFields (schema : Schema) (explicit : list string) : list string :=
  if (0 <? length explicit)%nat then explicit else AutoFixedFields schema.

(** One field of [ApplyCompact]'s schema loop. *)
Definition compact_field (fixedSet : list string) (f : Field) : Field :=
  let name := f_Name f in
  let stripped := TrimPrefix name "_" in
  if existsb (String.eqb name) fixedSet || existsb (String.eqb stripped) fixedSet then
    MkField (if HasPrefix name "_" then stripped else name) (f_Type f) (f_Length f) (f_Precision f)
      (f_Scale f) (f_Key f) (f_Timezone f) (f_Subtype f) (f_ReadOnly f) true (f_SpecialValues f)
      (f_OriginalName f)
  else f.

Definition ApplyCompact (pkt : DataPacket) (fixedFieldNames : list string) (tail : bool) : DataPacket :=
  let pkt := MaterializeRows pkt in
  let schema := set_s_Fields (map (compact_field fixedFieldNames) (s_Fields (p_Schema pkt))) (p_Schema pkt) in
  let rows := map GetRowValues (d_Rows (p_Data pkt)) in
  set_p_Version "1.3.1" (set_p_Data (RowsToCompactData rows schema tail) (set_p_Schema schema pkt)).

(** ** Specification of the format *)

(** The row as the format sees it: cut or padded to the width of the schema. *)
Fixpoint norm_row (fixedPos : list bool) (row : list string) : list string :=
  match fixedPos with
  | [] => []
  | _ :: fixedPos' => default "" (head row) :: norm_row fixedPos' (tail row)
  end.

(** The cells the encoder writes, before escaping. *)
Fixpoint raw_cells (fixedPos : list bool) (force : bool) (lastFixed row : list string) : list string :=
  match fixedPos, lastFixed with
  | b :: fixedPos', l :: lastFixed' =>
      let val := default "" (head row) in
      (if b && negb (force || negb (String.eqb val l)) then "" else val)
      :: raw_cells fixedPos' force lastFixed' (tail row)
  | _, _ => []
  end.

(** The values of the fixed columns after a row. *)
Fixpoint row_carry (fixedPos : list bool) (lastFixed row : list string) : list string :=
  match fixedPos, lastFixed with
  | b :: fixedPos', l :: lastFixed' =>
      (if b then default "" (head row) else l) :: row_carry fixedPos' lastFixed' (tail row)
  | _, _ => lastFixed
  end.

(** A row is stable after [carry] when no fixed column goes from a value back to empty. *)
Fixpoint stable_row (fixedPos : list bool) (carry row : list string) : bool :=
  match fixedPos, carry with
  | b :: fixedPos', c :: carry' =>
      implb (b && String.eqb (default "" (head row)) "") (String.eqb c "")
      && stable_row fixedPos' carry' (tail row)
  | _, _ => true
  end.

Fixpoint stable_rows (fixedPos : list bool) (carry : list string) (rows : list (list string)) : bool :=
  match rows with
  | [] => true
  | row :: rest => stable_row fixedPos carry row && stable_rows fixedPos (row_carry fixedPos carry row) rest
  end.

(** A table whose fixed columns never fall back from a value to the empty string. *)
Definition fixed_stable (schema : Schema) (rows : list (list string)) : bool :=
  stable_rows (map f_Fixed (s_Fields schema)) (replicate (length (s_Fields schema)) "") rows.

(** The decoder's carry after decoding [rows]. *)
Fixpoint carry_after (nFields : nat) (fixedPos : list bool) (carry : list string) (rows : list Row)
    : list string :=
  match rows with
  | [] => carry
  | row :: rest =>
      carry_after nFields fixedPos
        (snd (expand_row fixedPos carry (pad_values nFields (GetRowValues row)))) rest
  end.

(** ** Lemmas: one row *)

Lemma map_escape (l : list string) : map escapeValue l = map escape_bytes l.
Proof. apply map_ext. apply escapeValue_bytes. Qed.

Lemma GetRowValues_escapeValue (cells : list string) :
  cells <> [] -> GetRowValues (MkRow (Join (map escapeValue cells) (chr PIPE))) = cells.
Proof. intros H. rewrite map_escape, <- JoinRowEscaped_Join. by apply GetRowValues_join. Qed.

Lemma compact_cells_spec (fixedPos : list bool) (force : bool) (lastFixed row : list string) :
  compact_cells fixedPos force lastFixed row =
  (map escapeValue (raw_cells fixedPos force lastFixed row), row_carry fixedPos lastFixed row).
Proof.
  revert lastFixed row; induction fixedPos as [|b fp IH]; intros [|l ls] row; simpl; try done.
  rewrite IH. destruct b; simpl; [|done].
  destruct force; simpl; [done|].
  destruct (String.eqb_spec (default "" (head row)) l) as [->|]; done.
Qed.

Lemma raw_cells_length (fixedPos : list bool) (force : bool) (lastFixed row : list string) :
  length lastFixed = length fixedPos -> length (raw_cells fixedPos force lastFixed row) = length fixedPos.
Proof.
  revert lastFixed row; induction fixedPos as [|b fp IH]; intros [|l ls] row; simpl; try done.
  intros [= H]. by rewrite IH.
Qed.

Lemma row_carry_length (fixedPos : list bool) (lastFixed row : list string) :
  length (row_carry fixedPos lastFixed row) = length lastFixed.
Proof.
  revert lastFixed row; induction fixedPos as [|b fp IH]; intros [|l ls] row; simpl; try done.
  by rewrite IH.
Qed.

(** What decoding an encoded row gives, and exactly when it is the row itself. *)
Lemma expand_raw_cells (fixedPos : list bool) (force : bool) (carry row : list string) :
  length carry = length fixedPos ->
  (fst (expand_row fixedPos carry (raw_cells fixedPos force carry row)) = norm_row fixedPos row
   <-> stable_row fixedPos carry row = true)
  /\ (stable_row fixedPos carry row = true ->
      snd (expand_row fixedPos carry (raw_cells fixedPos force carry row)) = row_carry fixedPos carry row).
Proof.
  revert carry row; induction fixedPos as [|b fp IH]; intros [|c cs] row; simpl; try done.
  intros [= Hl]. destruct (IH cs (tail row) Hl) as [IH1 IH2]; clear IH.
  destruct (expand_row fp cs (raw_cells fp force cs (tail row))) as [vs cs'] eqn:E; simpl in *.
  set (v := default "" (head row)). rewrite andb_true_iff, <- IH1. clearbody v.
  destruct b; simpl; [|naive_solver].
  destruct (decide (v = c)) as [->|Hvc];
    [rewrite String.eqb_refl | rewrite (proj2 (String.eqb_neq v c) Hvc)]; destruct force; simpl;
    repeat match goal with
    | |- context [String.eqb ?x ""] => destruct (String.eqb_spec x ""); simpl
    end; try done; naive_solver.
Qed.

Lemma expand_row_length (fixedPos : list bool) (carry values : list string) :
  length (fst (expand_row fixedPos carry values)) = length values
  /\ length (snd (expand_row fixedPos carry values)) = length carry.
Proof.
  revert carry values; induction fixedPos as [|b fp IH]; intros [|c cs] [|v vs]; simpl; try done.
  specialize (IH cs vs). destruct (expand_row fp cs vs) as [xs ys]; simpl in *.
  repeat case_match; simpl; lia.
Qed.

Lemma pad_values_id (n : nat) (values : list string) : n <= length values -> pad_values n values = values.
Proof. intros H. unfold pad_values. replace (n - length values) with 0 by lia. apply app_nil_r. Qed.

(** ** Lemmas: tables *)

Lemma nonempty_length {A B} (l : list A) (m : list B) : length l = length m -> m <> [] -> l <> [].
Proof. destruct l, m; done. Qed.

(** Decoding the encoded table gives the table exactly when its fixed columns are stable. *)
Lemma expand_compact_rows (fixedPos : list bool) (tail first : bool) (carry : list string)
    (rows : list (list string)) :
  fixedPos <> [] -> length carry = length fixedPos ->
  ParseRows (expand_rows (length fixedPos) fixedPos carry (compact_rows fixedPos tail first carry rows))
  = map (norm_row fixedPos) rows
  <-> stable_rows fixedPos carry rows = true.
Proof.
  intros Hne. revert first carry; induction rows as [|row rows IH]; intros first carry Hl; simpl; [done|].
  rewrite compact_cells_spec; simpl.
  set (force := first || _). pose proof (raw_cells_length fixedPos force carry row Hl) as Hlen.
  rewrite GetRowValues_escapeValue by (eapply nonempty_length; eauto).
  rewrite pad_values_id by lia.
  destruct (expand_raw_cells fixedPos force carry row Hl) as [H1 H2].
  pose proof (expand_row_length fixedPos carry (raw_cells fixedPos force carry row)) as [L1 L2].
  destruct (expand_row fixedPos carry (raw_cells fixedPos force carry row)) as [vs cs]; simpl in *.
  rewrite GetRowValues_escapeValue by (eapply nonempty_length; [|exact Hne]; lia).
  rewrite andb_true_iff, <- H1.
  destruct (stable_row fixedPos carry row) eqn:Es.
  - rewrite (H2 eq_refl). specialize (IH false (row_carry fixedPos carry row)).
    rewrite row_carry_length in IH. specialize (IH Hl).
    split; [intros [= A B] | intros [-> B]]; [split; [done|by apply IH] | f_equal; by apply IH].
  - split; [intros [= A B] | intros [A B]]; [|]; apply H1 in A; done.
Qed.

(** The tail test only looks at the last row of the table. *)
Lemma tail_check_raw (i : nat) (fields : list Field) (lastFixed row : list string) :
  length lastFixed = length fields ->
  tail_check i fields (raw_cells (map f_Fixed fields) true lastFixed row) = tail_check i fields row.
Proof.
  revert i lastFixed row; induction fields as [|f fs IH]; intros i [|l ls] row; simpl; try done.
  intros [= H]. rewrite andb_false_r, IH by done. done.
Qed.

Lemma tail_check_compact (fields : list Field) (first : bool) (carry : list string)
    (rows : list (list string)) :
  fields <> [] -> length carry = length fields -> rows <> [] ->
  tail_check 0 fields
    (GetRowValues (default (MkRow "") (last (compact_rows (map f_Fixed fields) true first carry rows))))
  = tail_check 0 fields (default [] (last rows)).
Proof.
  intros Hne. revert first carry; induction rows as [|row rows IH]; intros first carry Hl Hr; [done|].
  simpl. rewrite compact_cells_spec; simpl. destruct rows as [|row2 rows].
  - simpl. rewrite orb_true_r, GetRowValues_escapeValue; [by apply tail_check_raw|].
    eapply nonempty_length; [|exact Hne]. rewrite raw_cells_length; by rewrite length_map.
  - specialize (IH false (row_carry (map f_Fixed fields) carry row)).
    rewrite row_carry_length in IH. specialize (IH Hl ltac:(done)).
    simpl in IH |- *. rewrite compact_cells_spec in IH |- *. simpl in IH |- *. exact IH.
Qed.

Lemma compact_rows_length (fixedPos : list bool) (tail first : bool) (carry : list string)
    (rows : list (list string)) :
  length (compact_rows fixedPos tail first carry rows) = length rows.
Proof.
  revert first carry; induction rows as [|row rows IH]; intros first carry; simpl; [done|].
  rewrite compact_cells_spec; simpl. by rewrite IH.
Qed.

(** ** Lemmas: chunks *)

Lemma expand_rows_app (n : nat) (fixedPos : list bool) (carry : list string) (rows1 rows2 : list Row) :
  expand_rows n fixedPos carry (rows1 ++ rows2) =
  expand_rows n fixedPos carry rows1 ++ expand_rows n fixedPos (carry_after n fixedPos carry rows1) rows2.
Proof.
  revert carry; induction rows1 as [|row rows1 IH]; intros carry; simpl; [done|].
  destruct (expand_row _ _ _) as [vs cs] eqn:E; simpl. by rewrite IH.
Qed.

Lemma expand_rows_length (n : nat) (fixedPos : list bool) (carry : list string) (rows : list Row) :
  length (expand_rows n fixedPos carry rows) = length rows.
Proof.
  revert carry; induction rows as [|row rows IH]; intros carry; simpl; [done|].
  destruct (expand_row _ _ _). simpl. by rewrite IH.
Qed.

(** A carry is clean when it holds nothing at the positions that are not fixed. *)
Definition clean_carry (fixedPos : list bool) (carry : list string) : Prop :=
  Forall2 (fun b c => b = false -> c = "") fixedPos carry.

Lemma clean_carry_replicate (fixedPos : list bool) :
  clean_carry fixedPos (replicate (length fixedPos) "").
Proof. induction fixedPos; simpl; by constructor. Qed.

Lemma expand_row_clean (fixedPos : list bool) (carry values : list string) :
  clean_carry fixedPos carry -> clean_carry fixedPos (snd (expand_row fixedPos carry values)).
Proof.
  intros H. revert values; induction H as [|b c fp cs Hb _ IH]; intros [|v vs]; simpl;
    try by repeat constructor.
  - constructor; [done|]. specialize (IH []). by destruct fp, cs.
  - specialize (IH vs). destruct (expand_row fp cs vs) as [xs ys]; simpl in *.
    repeat case_match; simpl; by constructor.
Qed.

Lemma carry_after_clean (n : nat) (fixedPos : list bool) (carry : list string) (rows : list Row) :
  clean_carry fixedPos carry -> clean_carry fixedPos (carry_after n fixedPos carry rows).
Proof.
  revert carry; induction rows as [|row rows IH]; intros carry H; simpl; [done|].
  apply IH. by apply expand_row_clean.
Qed.

Lemma init_carry_clean (fixedPos : list bool) (carry : list string) :
  clean_carry fixedPos carry ->
  init_carry fixedPos (replicate (length fixedPos) "") carry = carry.
Proof.
  induction 1 as [|b c fp cs Hb H IH]; simpl; [done|]. rewrite IH. f_equal.
  destruct b; simpl; [|by rewrite Hb]. by destruct (String.eqb_spec c "") as [->|].
Qed.

Lemma existsb_nonempty {A} (P : A -> bool) (l : list A) : existsb P l = true -> l <> [].
Proof. by destruct l. Qed.

(** A table that fits the schema is its own normal form. *)
Lemma norm_row_id (fixedPos : list bool) (row : list string) :
  length row = length fixedPos -> norm_row fixedPos row = row.
Proof.
  revert row; induction fixedPos as [|b fp IH]; intros [|v row]; simpl; try done.
  intros [= H]. by rewrite IH.
Qed.

Lemma map_norm_row_id (fixedPos : list bool) (rows : list (list string)) :
  Forall (fun r => length r = length fixedPos) rows -> map (norm_row fixedPos) rows = rows.
Proof. induction 1 as [|r rows Hr _ IH]; simpl; [done|]. by rewrite norm_row_id, IH. Qed.

(** The result of decoding an encoded table, on every branch. *)
Lemma expand_of_compact (p : DataPacket) (rows : list (list string)) (tail : bool) :
  rows <> [] -> existsb f_Fixed (s_Fields (p_Schema p)) = true ->
  p_Data p = RowsToCompactData rows (p_Schema p) tail ->
  ExpandCompactRows p =
  match (if tail then tail_check 0 (s_Fields (p_Schema p)) (default [] (last rows)) else None) with
  | Some e => Err e
  | None =>
      let fixedPos := map f_Fixed (s_Fields (p_Schema p)) in
      let carry := replicate (length (s_Fields (p_Schema p))) "" in
      Ok (set_p_Data (set_d_Rows (expand_rows (length (s_Fields (p_Schema p))) fixedPos carry
                                    (compact_rows fixedPos tail true carry rows)) zero_Data) p)
  end.
Proof.
  intros Hr Hf Hd. unfold ExpandCompactRows. rewrite Hd. unfold RowsToCompactData.
  destruct rows as [|row rows]; [done|]. rewrite Hf. cbn [length Nat.eqb negb d_Rows d_Compact d_Carry
    d_Tail d_Compression d_Checksum d_XXH3 d_Encryption orb].
  rewrite compact_rows_length. cbn [length Nat.eqb negb orb String.eqb].
  destruct tail; [|done].
  rewrite tail_check_compact; [done| |by rewrite length_replicate|done].
  by eapply existsb_nonempty.
Qed.

(** The round trip on the rows alone. *)
Lemma expand_compact_stable (schema : Schema) (tail : bool) (rows : list (list string)) :
  s_Fields schema <> [] ->
  let fixedPos := map f_Fixed (s_Fields schema) in
  let carry := replicate (length (s_Fields schema)) "" in
  ParseRows (expand_rows (length (s_Fields schema)) fixedPos carry (compact_rows fixedPos tail true carry rows))
  = map (norm_row fixedPos) rows <-> fixed_stable schema rows = true.
Proof.
  intros Hf fixedPos carry. unfold fixed_stable.
  pose proof (expand_compact_rows fixedPos tail true carry rows) as H. unfold fixedPos, carry in *.
  rewrite length_map, length_replicate in H. apply H; [|done]. by destruct (s_Fields schema).
Qed.

(** Decoding a packet that was compacted without a tail row: always a success, on either branch. *)
Lemma expand_apply_cases (p : DataPacket) (rows : list (list string)) :
  p_rawRows p = [] -> p_Data p = RowsToCompactData rows (p_Schema p) false ->
  let fixedPos := map f_Fixed (s_Fields (p_Schema p)) in
  let carry := replicate (length (s_Fields (p_Schema p))) "" in
  exists q, ExpandCompactRows p = Ok q /\ p_Version q = p_Version p
            /\ GetRows q = ParseRows (d_Rows (p_Data q))
            /\ ((rows = [] \/ existsb f_Fixed (s_Fields (p_Schema p)) = false)
                /\ d_Rows (p_Data q) = d_Rows (RowsToData rows)
               \/ existsb f_Fixed (s_Fields (p_Schema p)) = true
                 /\ d_Rows (p_Data q) =
                    expand_rows (length (s_Fields (p_Schema p))) fixedPos carry
                      (compact_rows fixedPos false true carry rows)).
Proof.
  intros Hraw Hd fixedPos carry. destruct rows as [|r rows].
  { exists p. unfold ExpandCompactRows. rewrite GetRows_data, Hd by done. simpl. naive_solver. }
  destruct (existsb f_Fixed (s_Fields (p_Schema p))) eqn:Ef.
  - rewrite (expand_of_compact p (r :: rows) false ltac:(done) Ef Hd).
    eexists; split; [done|]. rewrite GetRows_data by done. simpl. naive_solver.
  - exists p. rewrite GetRows_data by done. unfold ExpandCompactRows. rewrite Hd.
    unfold RowsToCompactData. rewrite Ef. simpl. naive_solver.
Qed.

(** A carry attribute written as a row restores the carry. *)
Lemma carry_attr_init (fixedPos : list bool) (carry : list string) :
  fixedPos <> [] -> clean_carry fixedPos carry ->
  (if negb (String.eqb (JoinRowEscaped carry) "")
   then init_carry fixedPos (replicate (length fixedPos) "") (GetRowValues (MkRow (JoinRowEscaped carry)))
   else replicate (length fixedPos) "") = carry.
Proof.
  intros Hne Hclean. pose proof (Forall2_length _ _ _ Hclean) as Hl.
  assert (Hc : carry <> []) by (eapply nonempty_length; [symmetry; exact Hl|done]).
  destruct (String.eqb_spec (JoinRowEscaped carry) "") as [E|E]; simpl.
  - pose proof (GetRowValues_join carry Hc) as Hg. rewrite E in Hg. by rewrite Hl, <- Hg.
  - rewrite GetRowValues_join by done. by apply init_carry_clean.
Qed.

(** ** Properties *)

(** Compact round trip, exactly: encoding a non-empty table under a schema with a fixed column
    and decoding it either is refused (only with a tail row that leaves a fixed field empty, with that
    field in the error), or succeeds; and then the decoded rows are the original ones, cut or padded to
    the schema's width, if and only if no fixed column ever falls back from a value to the empty
    string. *)
Theorem compact_roundtrip (p : DataPacket) (rows : list (list string)) (tail : bool) :
  rows <> [] -> existsb f_Fixed (s_Fields (p_Schema p)) = true ->
  p_Data p = RowsToCompactData rows (p_Schema p) tail ->
  match ExpandCompactRows p with
  | Err e => tail = true /\ tail_check 0 (s_Fields (p_Schema p)) (default [] (last rows)) = Some e
  | Ok q =>
      d_Compact (p_Data q) = false /\
      (ParseRows (d_Rows (p_Data q)) = map (norm_row (map f_Fixed (s_Fields (p_Schema p)))) rows
       <-> fixed_stable (p_Schema p) rows = true)
  end.
Proof.
  intros Hr Hf Hd. rewrite (expand_of_compact p rows tail Hr Hf Hd).
  destruct (if tail then _ else None) as [e|] eqn:E; simpl.
  - by destruct tail.
  - split; [done|]. apply expand_compact_stable. by eapply existsb_nonempty.
Qed.

Definition demo_field (name type : string) (fixed : bool) : Field :=
  MkField name type 0 0 0 false "" "" false fixed None "".
Definition demo_schema : Schema :=
  set_s_Fields [demo_field "region" "TEXT" true; demo_field "amount" "INTEGER" false] zero_Schema.
Definition demo_rows : list (list string) := [["EU"; "1"]; ["EU"; "2"]; [""; "3"]].
Definition demo_compact : DataPacket :=
  set_p_Data (RowsToCompactData demo_rows demo_schema false)
    (set_p_Schema demo_schema (NewDataPacket "u" 1 TypeReference "t")).

(** The third row's empty region is read back as the second row's. *)
Lemma compact_roundtrip_witness :
  match ExpandCompactRows demo_compact with
  | Err _ => False
  | Ok q => ParseRows (d_Rows (p_Data q)) <> demo_rows
  end.
Proof.
  pose proof (compact_roundtrip demo_compact demo_rows false ltac:(done) eq_refl eq_refl) as H.
  revert H. vm_compute. intros [_ [H _]] E. specialize (H E). discriminate.
Defined.

(** A chunk decodes on its own: splitting the rows of a compact data section in two and giving
    the second chunk the decoder's carry after the first (written as a row) as its carry attribute
    makes it decode to exactly the second part of what the whole section decodes to. *)
Theorem compact_chunk_independent (p p2 q : DataPacket) (rows1 rows2 : list Row) :
  d_Rows (p_Data p) = rows1 ++ rows2 -> rows2 <> [] ->
  d_Compact (p_Data p) = true -> d_Tail (p_Data p) = false -> d_Carry (p_Data p) = "" ->
  existsb f_Fixed (s_Fields (p_Schema p)) = true ->
  p_Schema p2 = p_Schema p -> d_Rows (p_Data p2) = rows2 ->
  d_Compact (p_Data p2) = true -> d_Tail (p_Data p2) = false ->
  d_Carry (p_Data p2) =
    JoinRowEscaped (carry_after (length (s_Fields (p_Schema p))) (map f_Fixed (s_Fields (p_Schema p)))
                      (replicate (length (s_Fields (p_Schema p))) "") rows1) ->
  ExpandCompactRows p = Ok q ->
  exists q2, ExpandCompactRows p2 = Ok q2
             /\ d_Rows (p_Data q2) = drop (length rows1) (d_Rows (p_Data q)).
Proof.
  intros HR Hne Hc Ht Hk Hf Hs2 HR2 Hc2 Ht2 Hk2 Hq.
  set (n := length (s_Fields (p_Schema p))) in *. set (fp := map f_Fixed (s_Fields (p_Schema p))) in *.
  assert (Hn : n = length fp) by (unfold n, fp; by rewrite length_map).
  assert (Hfp : fp <> []) by (apply existsb_nonempty in Hf; unfold fp; by destruct (s_Fields (p_Schema p))).
  pose proof (carry_attr_init fp (carry_after n fp (replicate n "") rows1) Hfp) as Hinit.
  rewrite <- Hk2, <- Hn in Hinit.
  specialize (Hinit ltac:(apply carry_after_clean; rewrite Hn; apply clean_carry_replicate)).
  unfold ExpandCompactRows in Hq |- *. rewrite HR, Hc, Hf, Ht, Hk in Hq. simpl in Hq.
  rewrite length_app in Hq. rewrite Hs2, HR2, Hc2, Hf, Ht2. fold n fp in Hq |- *.
  rewrite Hinit. simpl. destruct rows2 as [|r2 rows2]; [done|]. simpl in Hq |- *.
  rewrite Nat.add_succ_r in Hq. simpl in Hq. injection Hq as <-. simpl.
  eexists; split; [done|]. simpl. rewrite expand_rows_app, drop_app_length'; [done|].
  by rewrite expand_rows_length.
Qed.

Definition demo_chunk1 : list Row := [MkRow "EU|1"; MkRow "|2"].
Definition demo_chunk2 : list Row := [MkRow "|3"; MkRow "US|4"].
Definition demo_section (carry : string) (rows : list Row) : DataPacket :=
  set_p_Data (MkData "" "" "" true false carry "" rows)
    (set_p_Schema demo_schema (NewDataPacket "u" 1 TypeReference "t")).

Lemma compact_chunk_independent_witness :
  exists q2, ExpandCompactRows (demo_section "EU|" demo_chunk2) = Ok q2
             /\ d_Rows (p_Data q2) = [MkRow "EU|3"; MkRow "US|4"].
Proof.
  refine (compact_chunk_independent (demo_section "" (demo_chunk1 ++ demo_chunk2))
    (demo_section "EU|" demo_chunk2)
    (set_p_Data (set_d_Rows [MkRow "EU|1"; MkRow "EU|2"; MkRow "EU|3"; MkRow "US|4"] zero_Data)
       (demo_section "" [])) demo_chunk1 demo_chunk2
    eq_refl _ eq_refl eq_refl eq_refl eq_refl eq_refl eq_refl eq_refl eq_refl _ _).
  - discriminate.
  - vm_compute. reflexivity.
  - vm_compute. reflexivity.
Defined.

(** [ApplyCompact] is lossless for readers on stable tables: for a packet whose rows sit in one
    place (raw or data), whose rows have exactly one cell per field, and whose columns marked fixed
    never fall back to the empty string, expanding the compacted packet gives a packet with the same
    [GetRows], and its version is 1.3.1. *)
Theorem apply_compact_roundtrip (p : DataPacket) (names : list string) :
  rows_in_one_place p ->
  s_Fields (p_Schema p) <> [] ->
  Forall (fun r => length r = length (s_Fields (p_Schema p))) (GetRows p) ->
  fixed_stable (p_Schema (ApplyCompact p names false)) (GetRows p) = true ->
  exists q, ExpandCompactRows (ApplyCompact p names false) = Ok q
            /\ GetRows q = GetRows p /\ p_Version q = "1.3.1".
Proof.
  intros Hloc Hf Hw Hst.
  assert (Hgood : good_rows (GetRows p)).
  { eapply Forall_impl; [exact Hw|]. intros r Hr ->. by destruct (s_Fields (p_Schema p)). }
  destruct (MaterializeRows_one_place p Hloc Hgood) as [Hraw Hrows].
  set (ap := ApplyCompact p names false) in *.
  assert (Hapd : p_Data ap = RowsToCompactData (GetRows p) (p_Schema ap) false)
    by (rewrite <- Hrows; reflexivity).
  assert (Hlen : length (s_Fields (p_Schema ap)) = length (s_Fields (p_Schema p)))
    by (unfold ap, ApplyCompact; simpl; by rewrite length_map, MaterializeRows_Schema).
  destruct (expand_apply_cases ap (GetRows p) Hraw Hapd) as (q & Hq & Hv & Hg & Hcase).
  exists q. split; [exact Hq|]. split; [|by rewrite Hv]. rewrite Hg. destruct Hcase as [[_ ->]|[Hfix ->]].
  - by apply ParseRows_RowsToData.
  - rewrite (proj2 (expand_compact_stable _ _ _ (existsb_nonempty _ _ Hfix)) Hst).
    apply map_norm_row_id. eapply Forall_impl; [exact Hw|]. intros x ->. by rewrite length_map, Hlen.
Qed.

Definition demo_raw : DataPacket :=
  set_p_rawRows [["EU"; "1"]; ["EU"; "a|b"]; ["US"; ""]]
    (set_p_Schema (set_s_Fields [demo_field "_region" "TEXT" false; demo_field "note" "TEXT" false] zero_Schema)
       (NewDataPacket "u" 1 TypeReference "t")).

Lemma apply_compact_roundtrip_witness :
  exists q, ExpandCompactRows (ApplyCompact demo_raw ["region"] false) = Ok q
            /\ GetRows q = [["EU"; "1"]; ["EU"; "a|b"]; ["US"; ""]] /\ p_Version q = "1.3.1".
Proof.
  apply (apply_compact_roundtrip demo_raw ["region"]).
  - by right.
  - discriminate.
  - repeat constructor.
  - vm_compute. reflexivity.
Defined.
