(* ===== verification/MercuryHash.v ===== *)
(** * The hash registry of xZMercury

    The server side ([src/xzmercury/internal/hashstore/store.go] over Redis and the handlers of
    [src/xzmercury/internal/api/hashes.go]) and the client ([src/pkg/mercury/hashclient.go]).  Redis is a
    map from keys to records with an expiry instant; a record is stored as a value, the JSON text it
    travels in being an encoding of it.  An HTTP exchange is a call of the handler.  The client writes the
    message id, the part number and the hash into a URL without escaping them; what net/http and the chi
    router make of that URL is the interface [HashHttp], whose laws speak of unreserved characters only.
    The theorems: a slot belongs to its first registration until it expires or is revoked, whatever
    requests arrive, and for message ids that are safe in a URL the client's verdicts are the registry's
    contents. *)

From Stdlib Require Import ZArith Lia Ascii String.
From stdpp Require Import base list strings gmap pretty.
From S2P Require Import Prelude Strconv PacketTypes RowCodec PacketOps.

(** ** hashstore/store.go *)

Record HashRecord := MkHashRecord {
  hr_UUID : string;
  hr_Part : Z;
  hr_XXH3 : string;
  hr_TableName : string;
  hr_Sender : string;
  hr_PacketVersion : string;
  hr_RegisteredAt : Z;
}.

Inductive hash_error :=
| HUUIDRequired | HXXH3Length | HAlreadyRegistered | HNotFound | HRedis.

(** Redis: values with the instant they expire at; [rd_up] is false when the server does not answer. *)
Record redis := MkRedis { rd_up : bool; rd_data : gmap string (HashRecord * Z) }.

Definition rd_get (now : Z) (key : string) (r : redis) : option (HashRecord * Z) :=
  match rd_data r !! key with
  | Some (v, exp) => if (now <? exp)%Z then Some (v, exp) else None
  | None => None
  end.
Definition rd_put (key : string) (v : HashRecord) (exp : Z) (r : redis) : redis :=
  MkRedis (rd_up r) (<[key := (v, exp)]> (rd_data r)).
Definition rd_del (key : string) (r : redis) : redis := MkRedis (rd_up r) (delete key (rd_data r)).

Definition day : Z := 86400.
(** [New]: a ttl that is not positive becomes a day. *)
Definition store_ttl (ttl : Z) : Z := if (ttl <=? 0)%Z then day else ttl.

Definition redisKey (uuid : string) (part : Z) : string := "mercury:hash:" +:+ uuid +:+ ":" +:+ pretty part.

Definition Register (now ttl : Z) (rec : HashRecord) (r : redis) : redis * result hash_error unit :=
  if String.eqb (hr_UUID rec) "" then (r, Err HUUIDRequired)
  else if String.eqb (hr_XXH3 rec) "" || negb (String.length (hr_XXH3 rec) =? 32)%nat then (r, Err HXXH3Length)
  else
    let rec := if (hr_RegisteredAt rec =? 0)%Z
               then MkHashRecord (hr_UUID rec) (hr_Part rec) (hr_XXH3 rec) (hr_TableName rec) (hr_Sender rec)
                      (hr_PacketVersion rec) now
               else rec in
    let key := redisKey (hr_UUID rec) (hr_Part rec) in
    if negb (rd_up r) then (r, Err HRedis)
    else match rd_get now key r with
         | Some _ => (r, Err HAlreadyRegistered)
         | None => (rd_put key rec (now + ttl)%Z r, Ok ())
         end.

Definition Verify (now : Z) (uuid : string) (part : Z) (presentedXXH3 : string) (r : redis)
    : result hash_error (option HashRecord * bool) :=
  if negb (rd_up r) then Err HRedis else
  match rd_get now (redisKey uuid part) r with
  | None => Ok (None, false)
  | Some (rec, _) => Ok (Some rec, String.eqb (hr_XXH3 rec) presentedXXH3)
  end.

(** Zero when the key is gone or Redis is down: the handlers drop the error. *)
Definition TTLRemaining (now : Z) (uuid : string) (part : Z) (r : redis) : Z :=
  if negb (rd_up r) then 0%Z else
  match rd_get now (redisKey uuid part) r with Some (_, exp) => (exp - now)%Z | None => (-2)%Z end.

Definition Revoke (now : Z) (uuid : string) (part : Z) (r : redis) : redis * result hash_error unit :=
  if negb (rd_up r) then (r, Err HRedis) else
  match rd_get now (redisKey uuid part) r with
  | Some _ => (rd_del (redisKey uuid part) r, Ok ())
  | None => (r, Err HNotFound)
  end.

(** ** api/hashes.go *)

Record registerHashRequest := MkRegisterHashRequest {
  rq_UUID : string; rq_Part : Z; rq_XXH3 : string; rq_TableName : string; rq_Sender : string;
  rq_PacketVersion : string;
}.
Record verifyHashResponse := MkVerifyHashResponse {
  vr_Registered : bool; vr_Match : bool; vr_Record : option HashRecord; vr_ExpiresInSeconds : Z;
}.

(** An HTTP response: the status and, on 200, the body. *)
Record response := MkResponse { rs_Status : Z; rs_Body : option verifyHashResponse }.
Definition status (n : Z) : response := MkResponse n None.

(** [body] is [None] when the JSON does not decode. *)
Definition api_Register (now ttl : Z) (caller : string) (body : option registerHashRequest) (r : redis)
    : redis * response :=
  if String.eqb caller "" then (r, status 401) else
  match body with
  | None => (r, status 400)
  | Some req =>
      if String.eqb (rq_UUID req) "" || String.eqb (rq_XXH3 req) "" || String.eqb (rq_TableName req) ""
         || String.eqb (rq_Sender req) "" then (r, status 400)
      else if negb (String.length (rq_XXH3 req) =? 32)%nat then (r, status 400)
      else if str_leb (rq_PacketVersion req) "1.3.1" then (r, status 400)
      else
        let rec := MkHashRecord (rq_UUID req) (rq_Part req) (rq_XXH3 req) (rq_TableName req) (rq_Sender req)
                     (rq_PacketVersion req) now in
        match Register now ttl rec r with
        | (r', Err HAlreadyRegistered) => (r', status 409)
        | (r', Err _) => (r', status 500)
        | (r', Ok _) => (r', status 201)
        end
  end.

(** [part] is the outcome of [strconv.Atoi] on the path segment. *)
Definition api_Verify (now : Z) (uuid : string) (part : option Z) (presentedXXH3 : string) (r : redis)
    : response :=
  match part with
  | None => status 400
  | Some part =>
      if String.eqb uuid "" then status 400
      else if negb (String.length presentedXXH3 =? 32)%nat then status 400
      else match Verify now uuid part presentedXXH3 r with
           | Err _ => status 500
           | Ok (None, _) => MkResponse 200 (Some (MkVerifyHashResponse false false None 0))
           | Ok (Some rec, ok) =>
               MkResponse 200 (Some (MkVerifyHashResponse true ok (Some rec) (TTLRemaining now uuid part r)))
           end
  end.

Definition api_Revoke (now : Z) (caller uuid : string) (part : option Z) (r : redis) : redis * response :=
  if String.eqb caller "" then (r, status 401) else
  match part with
  | None => (r, status 400)
  | Some part =>
      match Revoke now uuid part r with
      | (r', Err HNotFound) => (r', status 404)
      | (r', Err _) => (r', status 500)
      | (r', Ok _) => (r', status 204)
      end
  end.

(** ** mercury/hashclient.go *)

Inductive mercury_error :=
| ErrHashNotRegistered | ErrHashTampered | ErrMercuryUnavailable | ErrMercuryError
| ErrHashRegisterFailed | ErrEmptyHash | ErrDecode | ErrCreateRequest.

(** [http] is the exchange, given the [X-Caller] header and the body: [None] when the request does not
    reach the server. *)
Definition client_RegisterHash (http : string -> registerHashRequest -> option response)
    (uuid : string) (part : Z) (xxh3 tableName sender packetVersion : string) : result mercury_error unit :=
  if NeedsRowCountCheck packetVersion then Ok () else
  fail_if String.eqb xxh3 "" with ErrEmptyHash ;;
  match http sender (MkRegisterHashRequest uuid part xxh3 tableName sender packetVersion) with
  | None => Err ErrMercuryUnavailable
  | Some resp =>
      if (rs_Status resp =? 201)%Z then Ok ()
      else if (rs_Status resp =? 409)%Z then Err ErrHashRegisterFailed
      else if (500 <=? rs_Status resp)%Z then Err ErrMercuryError
      else Err ErrHashRegisterFailed
  end.

(** What becomes of a GET request: the URL is no URL, the server is not reached, or it answers. *)
Inductive exchange := NotCreated | NotSent | Answered (resp : response).

(** [fmt.Sprintf("%s/api/hashes/%s/%s?xxh3=%s", c.baseURL, uuid, strconv.Itoa(part), xxh3)]. *)
Definition hash_url (baseURL uuid : string) (part : Z) (xxh3 : string) : string :=
  baseURL +:+ "/api/hashes/" +:+ uuid +:+ "/" +:+ Itoa part +:+ "?xxh3=" +:+ xxh3.

Definition client_VerifyHash (baseURL : string) (http : string -> exchange)
    (uuid : string) (part : Z) (xxh3 packetVersion : string) : result mercury_error (option HashRecord) :=
  if NeedsRowCountCheck packetVersion then Ok None else
  fail_if String.eqb xxh3 "" with ErrEmptyHash ;;
  match http (hash_url baseURL uuid part xxh3) with
  | NotCreated => Err ErrCreateRequest
  | NotSent => Err ErrMercuryUnavailable
  | Answered resp =>
      fail_if (500 <=? rs_Status resp)%Z with ErrMercuryError ;;
      fail_if negb (rs_Status resp =? 200)%Z with ErrMercuryError ;;
      match rs_Body resp with
      | None => Err ErrDecode
      | Some result =>
          fail_if negb (vr_Registered result) with ErrHashNotRegistered ;;
          fail_if negb (vr_Match result) with ErrHashTampered ;;
          Ok (vr_Record result)
      end
  end.

(** ** net/http and chi *)

(** The unreserved characters of RFC 3986, and the texts of them that are one path segment. *)
Definition is_unreserved (c : ascii) : bool :=
  is_ascii_letter c || is_ascii_digit c || Ascii.eqb c "-" || Ascii.eqb c "." || Ascii.eqb c "_" || Ascii.eqb c "~".
Definition url_segment (s : string) : bool :=
  all_bytes is_unreserved s && negb (String.eqb s "") && negb (String.eqb s ".") && negb (String.eqb s "..").
(** Visible ASCII characters. *)
Definition graphic (s : string) : bool := all_bytes (byte_in "!" "~") s.

Class HashHttp := {
  mercury_url : string;                                   (** the address of the server *)
  new_request : string -> bool;                           (** [http.NewRequest] accepts the URL *)
  route_hash : string -> option (string * string * string);
    (** the URL parameters [uuid] and [part] and the query value [xxh3] with which the handler of
        [GET /api/hashes/{uuid}/{part}] is called; [None] when the URL is not routed to it *)
  send_header : string -> option string;                  (** the header value that arrives *)
}.
Class HashHttpLaws (T : HashHttp) : Prop := {
  new_request_plain uuid part x : url_segment uuid = true -> all_bytes is_unreserved x = true ->
    new_request (hash_url mercury_url uuid part x) = true;
  route_hash_plain uuid part x : url_segment uuid = true -> all_bytes is_unreserved x = true ->
    route_hash (hash_url mercury_url uuid part x) = Some (uuid, Itoa part, x);
  send_header_plain s : graphic s = true -> send_header s = Some s;
}.

(** The body of the registration as the JSON encoder writes it and the server reads it. *)
Definition json_request (req : registerHashRequest) : registerHashRequest :=
  MkRegisterHashRequest (ToValidUTF8 (rq_UUID req)) (rq_Part req) (ToValidUTF8 (rq_XXH3 req))
    (ToValidUTF8 (rq_TableName req)) (ToValidUTF8 (rq_Sender req)) (ToValidUTF8 (rq_PacketVersion req)).

Section Exchanges.
Context {T : HashHttp}.

(** The exchanges with a server that answers. *)
Definition http_register (now ttl : Z) (r : redis) (caller : string) (req : registerHashRequest) : option response :=
  caller ← send_header caller; Some (api_Register now ttl caller (Some (json_request req)) r).2.
Definition http_verify (now : Z) (r : redis) (url : string) : exchange :=
  if negb (new_request url) then NotCreated
  else Answered match route_hash url with
                | Some (uuid, part, xxh3) =>
                    api_Verify now uuid (match ParseInt part with Ok z => Some z | Err _ => None end) xxh3 r
                | None => status 404
                end.
End Exchanges.

(** ** The server as a transition system *)

Inductive request :=
| RqRegister (caller : string) (body : option registerHashRequest)
| RqVerify (uuid : string) (part : option Z) (xxh3 : string)
| RqRevoke (caller uuid : string) (part : option Z).

Definition serve (now ttl : Z) (rq : request) (r : redis) : redis :=
  match rq with
  | RqRegister caller body => (api_Register now ttl caller body r).1
  | RqVerify _ _ _ => r
  | RqRevoke caller uuid part => (api_Revoke now caller uuid part r).1
  end.

(** A configuration is the clock and the store; time passes, requests are served, Redis goes up and down. *)
Inductive hash_step (ttl : Z) : option request -> Z * redis -> Z * redis -> Prop :=
| step_tick now now' r : (now <= now')%Z -> hash_step ttl None (now, r) (now', r)
| step_serve now rq r : hash_step ttl (Some rq) (now, r) (now, serve now ttl rq r)
| step_link now up r : hash_step ttl None (now, r) (now, MkRedis up (rd_data r)).

(** The request revokes the slot [key]. *)
Definition revokes (key : string) (rq : option request) : Prop :=
  match rq with Some (RqRevoke _ uuid (Some part)) => redisKey uuid part = key | _ => False end.

(** Runs whose requests all satisfy [P]. *)
Inductive run (ttl : Z) (P : option request -> Prop) : Z * redis -> Z * redis -> Prop :=
| run_refl c : run ttl P c c
| run_step c c' c'' rq : run ttl P c c' -> hash_step ttl rq c' c'' -> P rq -> run ttl P c c''.

(** ** Lemmas: keys *)

Lemma pretty_Z_no_colon (z : Z) : has_byte ":" (pretty z) = false.
Proof. destruct z; [done|by apply pretty_N_bytes|]. simpl. by apply (pretty_N_bytes ":" (N.pos p)). Qed.

(** Slots do not collide: a key determines the message id and the part. *)
Lemma redisKey_inj (u v : string) (p q : Z) : redisKey u p = redisKey v q -> u = v /\ p = q.
Proof.
  unfold redisKey. intros E. apply str_app_inj in E as [_ E]; [|done].
  apply (last_byte_inj ":") in E as [-> E]; [|apply pretty_Z_no_colon..]. apply (inj pretty) in E. done.
Qed.

(** ** Lemmas: the store *)

(** What a registration request does to the store. *)
Lemma api_Register_store (now ttl : Z) (caller : string) (body : option registerHashRequest) (r : redis) :
  let '(r', resp) := api_Register now ttl caller body r in
  r' = r /\ rs_Status resp <> 201%Z
  \/ exists req, body = Some req /\ rs_Status resp = 201%Z /\ rd_get now (redisKey (rq_UUID req) (rq_Part req)) r = None
     /\ exists rec, hr_UUID rec = rq_UUID req /\ hr_Part rec = rq_Part req /\ hr_XXH3 rec = rq_XXH3 req
        /\ hr_Sender rec = rq_Sender req /\ r' = rd_put (redisKey (rq_UUID req) (rq_Part req)) rec (now + ttl)%Z r.
Proof.
  unfold api_Register. destruct (String.eqb caller ""); [by left|]. destruct body as [req|]; [|by left].
  destruct (_ || _); [by left|]. destruct (negb _); [by left|]. destruct (str_leb _ _); [by left|].
  unfold Register. simpl. destruct (String.eqb (rq_UUID req) ""); [by left|]. destruct (_ || _); [by left|].
  set (rec := if (now =? 0)%Z then _ else _).
  assert (Hr : hr_UUID rec = rq_UUID req /\ hr_Part rec = rq_Part req /\ hr_XXH3 rec = rq_XXH3 req
               /\ hr_Sender rec = rq_Sender req) by (unfold rec; by destruct (now =? 0)%Z).
  destruct Hr as (H1 & H2 & H3 & H4). rewrite H1, H2.
  destruct (negb (rd_up r)); [by left|]. destruct (rd_get _ _ r) eqn:E; [by left|]. right.
  exists req. split_and!; try done. exists rec. split_and!; done.
Qed.

Lemma rd_get_Some (now : Z) (key : string) (r : redis) (rec : HashRecord) (exp : Z) :
  rd_get now key r = Some (rec, exp) <-> rd_data r !! key = Some (rec, exp) /\ (now < exp)%Z.
Proof.
  unfold rd_get. destruct (rd_data r !! key) as [[v e]|]; [|naive_solver].
  destruct (Z.ltb_spec now e); split; naive_solver lia.
Qed.

(** A live slot survives every step that does not revoke it. *)
Lemma step_keeps_slot (ttl : Z) (rq : option request) (c c' : Z * redis) (key : string) (rec : HashRecord) (exp : Z) :
  hash_step ttl rq c c' -> ~ revokes key rq -> (c.1 < exp)%Z ->
  rd_data c.2 !! key = Some (rec, exp) -> rd_data c'.2 !! key = Some (rec, exp).
Proof.
  intros Hs Hr Hlt Hk. destruct Hs as [now now' r Hle|now rq r|now up r]; [done| |done]. simpl in *.
  destruct rq as [caller body|uuid part x|caller uuid part]; simpl; [| done |].
  - pose proof (api_Register_store now ttl caller body r) as H.
    destruct (api_Register now ttl caller body r) as [r' resp]. simpl.
    destruct H as [[-> _]|(req & _ & _ & Hnone & rec' & _ & _ & _ & _ & ->)]; [done|]. simpl.
    rewrite lookup_insert_ne; [done|]. intros E. rewrite E in Hnone.
    assert (rd_get now key r = Some (rec, exp)) by (by apply rd_get_Some). congruence.
  - unfold api_Revoke. destruct (String.eqb caller ""); [done|]. destruct part as [part|]; [|done].
    unfold Revoke. destruct (negb (rd_up r)); [done|]. destruct (rd_get now _ r); [|done]. simpl.
    rewrite lookup_delete_ne; [done|]. exact Hr.
Qed.

Lemma step_time (ttl : Z) (rq : option request) (c c' : Z * redis) : hash_step ttl rq c c' -> (c.1 <= c'.1)%Z.
Proof. destruct 1; simpl; lia. Qed.

(** Records sit in the slot of their message id and part. *)
Definition well_placed (r : redis) : Prop :=
  map_Forall (fun key v => key = redisKey (hr_UUID v.1) (hr_Part v.1)) (rd_data r).

Lemma step_well_placed (ttl : Z) (rq : option request) (c c' : Z * redis) :
  hash_step ttl rq c c' -> well_placed c.2 -> well_placed c'.2.
Proof.
  unfold well_placed. intros Hs Hw. destruct Hs as [| now rq r |]; [done| |done]. simpl in *.
  destruct rq as [caller body|uuid part x|caller uuid part]; simpl; [| done |].
  - pose proof (api_Register_store now ttl caller body r) as H.
    destruct (api_Register now ttl caller body r) as [r' resp]. simpl.
    destruct H as [[-> _]|(req & _ & _ & _ & rec' & E1 & E2 & _ & _ & ->)]; [done|].
    apply map_Forall_insert_2; [simpl; by rewrite E1, E2|done].
  - unfold api_Revoke. destruct (String.eqb caller ""); [done|]. destruct part as [part|]; [|done].
    unfold Revoke. destruct (negb (rd_up r)); [done|]. destruct (rd_get now _ r); [|done].
    by apply map_Forall_delete.
Qed.

Lemma run_keeps_slot (ttl : Z) (c c' : Z * redis) (key : string) (rec : HashRecord) (exp : Z) :
  run ttl (fun rq => ~ revokes key rq) c c' -> rd_data c.2 !! key = Some (rec, exp) ->
  (c'.1 < exp)%Z -> rd_data c'.2 !! key = Some (rec, exp).
Proof.
  intros Hr Hk. induction Hr as [c|c c' c'' rq Hr IH Hs HP]; intros Hlt; [done|].
  pose proof (step_time _ _ _ _ Hs). eapply step_keeps_slot; [done..|lia|]. apply IH; [done|lia].
Qed.

Lemma run_well_placed (ttl : Z) (P : option request -> Prop) (c c' : Z * redis) :
  run ttl P c c' -> well_placed c.2 -> well_placed c'.2.
Proof. induction 1; eauto using step_well_placed. Qed.

Section Client.
Context {T : HashHttp} {TL : HashHttpLaws T}.

(** A plain request reaches the handler as the client meant it. *)
Lemma http_verify_plain (now : Z) (r : redis) (uuid : string) (part : Z) (x : string) :
  url_segment uuid = true -> int64b part = true -> all_bytes is_unreserved x = true ->
  http_verify now r (hash_url mercury_url uuid part x) = Answered (api_Verify now uuid (Some part) x r).
Proof.
  intros Hu Hp Hx. unfold http_verify. rewrite new_request_plain, route_hash_plain by done. cbn [negb].
  unfold ParseInt. by rewrite ParseInt_Itoa.
Qed.

(** What an accepting answer of the registry means. *)
Lemma client_VerifyHash_ok (now : Z) (r : redis) (uuid : string) (part : Z) (x version : string) (rec : HashRecord) :
  url_segment uuid = true -> int64b part = true -> all_bytes is_unreserved x = true ->
  client_VerifyHash mercury_url (http_verify now r) uuid part x version = Ok (Some rec) ->
  exists exp, rd_data r !! redisKey uuid part = Some (rec, exp) /\ (now < exp)%Z /\ hr_XXH3 rec = x.
Proof.
  intros Hseg Hp Hplain. unfold client_VerifyHash. rewrite http_verify_plain by done. unfold api_Verify, Verify, check_.
  destruct (NeedsRowCountCheck version); [done|]. destruct (String.eqb x ""); [done|].
  destruct (String.eqb uuid ""); [done|]. destruct (negb (String.length x =? 32)%nat); [done|].
  destruct (negb (rd_up r)); [done|]. destruct (rd_get now _ r) as [[rec' exp]|] eqn:E; [|done]. simpl.
  destruct (String.eqb_spec (hr_XXH3 rec') x) as [Hx|Hx]; [|done]. simpl. intros [= ->].
  apply rd_get_Some in E as [E1 E2]. eauto.
Qed.

(** A live registration decides every later answer. *)
Lemma slot_first_wins (ttl now now' : Z) (caller : string) (req : registerHashRequest) (r r0 r' : redis)
    (resp : response) (x version : string) :
  api_Register now ttl caller (Some req) r = (r0, resp) -> rs_Status resp = 201%Z ->
  let key := redisKey (rq_UUID req) (rq_Part req) in
  run ttl (fun rq => ~ revokes key rq) (now, r0) (now', r') -> (now' < now + ttl)%Z -> rd_up r' = true ->
  String.length x = 32 -> NeedsRowCountCheck version = false ->
  url_segment (rq_UUID req) = true -> int64b (rq_Part req) = true -> all_bytes is_unreserved x = true ->
  exists rec, hr_XXH3 rec = rq_XXH3 req /\ hr_Sender rec = rq_Sender req /\
  client_VerifyHash mercury_url (http_verify now' r') (rq_UUID req) (rq_Part req) x version =
    if String.eqb (rq_XXH3 req) x then Ok (Some rec) else Err ErrHashTampered.
Proof.
  intros Hreg H201 key Hrun Hlt Hup Hx Hv Hseg Hp Hplain.
  pose proof (api_Register_store now ttl caller (Some req) r) as Hs. rewrite Hreg in Hs.
  destruct Hs as [[_ H]|(req' & [= <-] & _ & _ & rec & _ & _ & E3 & E4 & ->)]; [done|].
  exists rec. split_and!; [done..|].
  assert (Hk : rd_data r' !! key = Some (rec, (now + ttl)%Z)).
  { eapply (run_keeps_slot ttl _ (now', r')); [exact Hrun| |done]. apply lookup_insert_eq. }
  assert (Hu : String.eqb (rq_UUID req) "" = false).
  { unfold api_Register in Hreg. destruct (String.eqb caller ""); [by injection Hreg as _ <-|].
    destruct (String.eqb (rq_UUID req) ""); [by injection Hreg as _ <-|done]. }
  assert (Hx0 : String.eqb x "" = false) by (apply String.eqb_neq; by intros ->).
  unfold client_VerifyHash. rewrite http_verify_plain by done. unfold api_Verify, Verify, check_.
  rewrite Hv, Hx0, Hu, Hx, Hup. simpl. fold key.
  rewrite (proj2 (rd_get_Some now' key r' rec (now + ttl)%Z)) by done. simpl. rewrite E3.
  by destruct (String.eqb (rq_XXH3 req) x).
Qed.

End Client.

Lemma client_RegisterHash_ok (http : string -> registerHashRequest -> option response)
    (uuid : string) (part : Z) (x t sender version : string) :
  NeedsRowCountCheck version = false -> client_RegisterHash http uuid part x t sender version = Ok () ->
  exists resp, http sender (MkRegisterHashRequest uuid part x t sender version) = Some resp /\ rs_Status resp = 201%Z.
Proof.
  unfold client_RegisterHash, check_. intros ->. destruct (String.eqb x ""); [done|].
  destruct (http _ _) as [resp|]; [|done]. destruct (Z.eqb_spec (rs_Status resp) 201); [eauto|].
  by repeat case_match.
Qed.

(** ** Properties *)


(** A concrete transport: the URL is taken apart at its slashes and its question mark. *)
Definition demo_http : HashHttp := {|
  mercury_url := "http://mercury";
  new_request _ := true;
  route_hash url :=
    rest ← strip_prefix "http://mercury/api/hashes/" url;
    match Split rest "/" with
    | [uuid; tail] =>
        match Split tail "?" with
        | [part; query] => xxh3 ← strip_prefix "xxh3=" query; Some (uuid, part, xxh3)
        | _ => None
        end
    | _ => None
    end;
  send_header s := Some s;
|}.

#[export] Instance demo_http_laws : HashHttpLaws demo_http.
Proof.
  assert (forall c s, is_unreserved c = false -> all_bytes is_unreserved s = true -> has_byte c s = false) as Hb
    by (intros; by apply (all_bytes_has_byte is_unreserved)).
  assert (forall (c : ascii) (z : Z), is_ascii_digit c = false -> Ascii.eqb c "-" = false -> has_byte c (Itoa z) = false) as Hi.
  { intros c [|p|p] Hc Hm; unfold Itoa; cbn [pretty pretty_Z].
    - apply (pretty_N_bytes c 0%N Hc).
    - apply (pretty_N_bytes c (N.pos p) Hc).
    - change (has_byte c (String "-" (pretty (N.pos p))) = false). cbn [has_byte].
      rewrite (pretty_N_bytes c (N.pos p) Hc), orb_false_r.
      destruct (Ascii.eqb_spec "-" c) as [<-|]; [by rewrite Ascii.eqb_refl in Hm|done]. }
  split; [done| |done]. intros uuid part x Hu Hx. cbn [route_hash demo_http mercury_url]. unfold hash_url.
  change ("http://mercury" +:+ "/api/hashes/" +:+ uuid +:+ "/" +:+ Itoa part +:+ "?xxh3=" +:+ x)
    with ("http://mercury/api/hashes/" +:+ Join [uuid; Join [Itoa part; "xxh3=" +:+ x] (chr "?")] (chr "/")).
  rewrite strip_prefix_app. cbn [mbind option_bind].
  unfold url_segment in Hu. rewrite !andb_true_iff in Hu. destruct Hu as [[[Hu _] _] _].
  assert (forall c, is_unreserved c = false -> Ascii.eqb c "=" = false -> has_byte c ("xxh3=" +:+ x) = false) as Hq.
  { intros c Hc He. rewrite has_byte_app, (Hb c x Hc Hx), orb_false_r. apply (all_bytes_has_byte (fun d => is_unreserved d || Ascii.eqb d "=")); [|done].
    by rewrite Hc, He. }
  rewrite Split_Join; [|done|].
  - rewrite Split_Join; [|done|].
    + rewrite strip_prefix_app. done.
    + repeat constructor; [by apply Hi|by apply Hq].
  - repeat constructor; [by apply Hb|]. unfold Join; cbn [String.concat].
    rewrite has_byte_app, (has_byte_app _ (chr "?")), Hi, Hq by done. done.
Qed.

Definition demo_register : registerHashRequest :=
  MkRegisterHashRequest "550e8400" 1 "a3f8b2c1d4e5f6a7b8c9d0e1f2a3b4c5" "payroll" "axapta" "1.4".
Definition demo_redis : redis := MkRedis true ∅.
Definition demo_forgery : registerHashRequest :=
  MkRegisterHashRequest "550e8400" 1 "ffffffffffffffffffffffffffffffff" "payroll" "mallory" "1.4".


(** Acceptance is sound: starting from an empty registry, after any requests at all, if the client
    accepts a hash for a message id and a part then the registry holds a live record for exactly that
    message id and part whose hash is the presented one (for ids and hashes of unreserved characters). *)
Theorem verify_hash_sound {T : HashHttp} {TL : HashHttpLaws T} (ttl now : Z) (up : bool) (c : Z * redis) (uuid : string) (part : Z) (x version : string)
    (rec : HashRecord) :
  run ttl (fun _ => True) (now, MkRedis up ∅) c ->
  url_segment uuid = true -> int64b part = true -> all_bytes is_unreserved x = true ->
  client_VerifyHash mercury_url (http_verify c.1 c.2) uuid part x version = Ok (Some rec) ->
  hr_UUID rec = uuid /\ hr_Part rec = part /\ hr_XXH3 rec = x
  /\ exists exp, rd_data c.2 !! redisKey uuid part = Some (rec, exp) /\ (c.1 < exp)%Z.
Proof.
  intros Hrun Hu Hp Hpl H. apply client_VerifyHash_ok in H as (exp & Hk & Hlt & Hx); [|done..].
  assert (Hw : well_placed c.2) by (eapply run_well_placed; [done|apply map_Forall_empty]).
  specialize (Hw _ _ Hk). simpl in Hw. apply redisKey_inj in Hw as [-> ->].
  split_and!; eauto.
Qed.

Lemma verify_hash_sound_witness :
  exists rec, hr_UUID rec = "550e8400" /\ hr_XXH3 rec = "a3f8b2c1d4e5f6a7b8c9d0e1f2a3b4c5".
Proof.
  destruct (verify_hash_sound (T := demo_http) 60 100 true (100%Z, serve 100 60 (RqRegister "axapta" (Some demo_register)) demo_redis)
    "550e8400" 1 "a3f8b2c1d4e5f6a7b8c9d0e1f2a3b4c5" "1.4"
    (MkHashRecord "550e8400" 1 "a3f8b2c1d4e5f6a7b8c9d0e1f2a3b4c5" "payroll" "axapta" "1.4" 100))
    as (H1 & _ & H3 & _); [|reflexivity..|eauto].
  eapply run_step; [apply run_refl|apply step_serve|done].
Defined.
