(* ===== verification/XmlWriter.v ===== *)
(** * Writing packets as XML

    [src/pkg/core/packet/xmlwriter.go]: the hand-written serialiser of packets and its two paths for the
    rows, and the reading of the text of one [<R>] element by [encoding/xml].  The small sections (header,
    query, context, schema, alarm) go through [xml.Marshal], whose output is an argument.  The writer
    appends to a string; the errors of the underlying file are not modelled. *)

From Stdlib Require Import ZArith Lia Ascii String.
From stdpp Require Import base list strings.
From S2P Require Import Prelude PacketTypes RowCodec PacketOps.

Definition LT : ascii := "<"%char.
Definition GT : ascii := ">"%char.
Definition AMP : ascii := "&"%char.
Definition CR : ascii := "013"%char.

(** ** Escaping *)

(** The replacement of a byte in character data, if it has one. *)
Definition chardata_esc (c : ascii) : option string :=
  if Ascii.eqb c LT then Some "&lt;" else if Ascii.eqb c GT then Some "&gt;"
  else if Ascii.eqb c AMP then Some "&amp;" else None.
Definition attr_esc (c : ascii) : option string :=
  if Ascii.eqb c DQUOTE then Some "&quot;" else chardata_esc c.
Definition raw_esc (c : ascii) : option string :=
  if Ascii.eqb c PIPE then Some "\|" else if Ascii.eqb c BSLASH then Some "\\" else chardata_esc c.

(** The loops of [writeXMLAttrValue], [writeXMLChardata] and [writeRawValue]: [pend] is the run of bytes
    since the last replacement, flushed before the next one and at the end. *)
Fixpoint esc_loop (esc : ascii -> option string) (s pend w : string) : string :=
  match s with
  | "" => w +:+ pend
  | String c s' =>
      match esc c with
      | Some r => esc_loop esc s' "" (w +:+ pend +:+ r)
      | None => esc_loop esc s' (pend +:+ chr c) w
      end
  end.
Definition writeXMLChardata (w s : string) : string := esc_loop chardata_esc s "" w.
Definition writeXMLAttrValue (w s : string) : string := esc_loop attr_esc s "" w.
Definition writeRawValue (w s : string) : string := esc_loop raw_esc s "" w.

Definition writeXMLAttr (w name value : string) : string :=
  writeXMLAttrValue (w +:+ " " +:+ name +:+ "=" +:+ chr DQUOTE) value +:+ chr DQUOTE.
Definition writeXMLAttr_if (w name value : string) : string :=
  if negb (String.eqb value "") then writeXMLAttr w name value else w.

(** ** Rows *)

Fixpoint write_raw_cells (j : nat) (row : list string) (w : string) : string :=
  match row with
  | [] => w
  | val :: row' => write_raw_cells (S j) row' (writeRawValue (if (0 <? j)%nat then w +:+ chr PIPE else w) val)
  end.
Fixpoint write_raw_rows (rows : list (list string)) (w : string) : string :=
  match rows with
  | [] => w
  | row :: rows' => write_raw_rows rows' (write_raw_cells 0 row (w +:+ "<R>") +:+ "</R>")
  end.
Fixpoint write_data_rows (rows : list Row) (w : string) : string :=
  match rows with
  | [] => w
  | row :: rows' => write_data_rows rows' (writeXMLChardata (w +:+ "<R>") (r_Value row) +:+ "</R>")
  end.

(** ** Packets *)

(** [xml.Marshal] on the small sections. *)
Class Marshal := {
  marshal_Header : Header -> string;
  marshal_Query : Query -> string;
  marshal_QueryContext : QueryContext -> string;
  marshal_Schema : Schema -> string;
  marshal_AlarmDetails : AlarmDetails -> string;
}.

Section Writer.
Context {M : Marshal}.

Definition xml_header : string :=
  "<?xml version=" +:+ chr DQUOTE +:+ "1.0" +:+ chr DQUOTE +:+ " encoding=" +:+ chr DQUOTE +:+ "UTF-8" +:+ chr DQUOTE
  +:+ "?>" +:+ chr LF.

(** [ name="true"]. *)
Definition flag_attr (name : string) (b : bool) (w : string) : string :=
  if b then w +:+ " " +:+ name +:+ "=" +:+ chr DQUOTE +:+ "true" +:+ chr DQUOTE else w.

(** The opening tag of the data section with its attributes. *)
Definition write_data_tag (d : Data) (w : string) : string :=
  let w := w +:+ "<Data" in
  let w := writeXMLAttr_if w "compression" (d_Compression d) in
  let w := writeXMLAttr_if w "checksum" (d_Checksum d) in
  let w := writeXMLAttr_if w "xxh3" (d_XXH3 d) in
  let w := flag_attr "compact" (d_Compact d) w in
  let w := flag_attr "tail" (d_Tail d) w in
  let w := writeXMLAttr_if w "carry" (d_Carry d) in
  let w := writeXMLAttr_if w "encryption" (d_Encryption d) in
  w +:+ ">".

Definition write_sections (packet : DataPacket) (w : string) : string :=
  let w := w +:+ xml_header +:+ "<DataPacket" in
  let w := writeXMLAttr w "protocol" (p_Protocol packet) in
  let w := writeXMLAttr w "version" (p_Version packet) in
  let w := writeXMLAttr_if w "xxh3" (p_XXH3 packet) in
  let w := w +:+ ">" +:+ marshal_Header (p_Header packet) in
  let w := w +:+ from_option marshal_Query "" (p_Query packet) in
  let w := w +:+ from_option marshal_QueryContext "" (p_QueryContext packet) in
  w +:+ marshal_Schema (p_Schema packet).

Definition writePacketTo (packet : DataPacket) (w : string) : string :=
  let w := write_data_tag (p_Data packet) (write_sections packet w) in
  let w := if (0 <? length (p_rawRows packet))%nat then write_raw_rows (p_rawRows packet) w
           else write_data_rows (d_Rows (p_Data packet)) w in
  w +:+ "</Data>" +:+ from_option marshal_AlarmDetails "" (p_AlarmDetails packet) +:+ "</DataPacket>".

Definition packetToBytes (packet : DataPacket) : string := writePacketTo packet "".
End Writer.

(** ** encoding/xml: the text of an element *)

(** Entity references become their character, a carriage return (and a line feed after it) becomes one
    line feed, control bytes outside the XML range are an error.  The decoder's check that bytes above
    127 form UTF-8 is not modelled. *)
Definition xml_byte (c : ascii) : bool := (32 <=? byte_val c)%N || Ascii.eqb c LF || Ascii.eqb c "009".

(** The character an entity reference stands for. *)
Definition entity (name : string) : option ascii :=
  if String.eqb name "lt" then Some LT else if String.eqb name "gt" then Some GT
  else if String.eqb name "amp" then Some AMP else if String.eqb name "quot" then Some DQUOTE
  else if String.eqb name "apos" then Some SQUOTE else None.

(** [ent] is the name read since an ampersand, [cr] says the last byte was a carriage return. *)
Fixpoint read_from (ent : option string) (cr : bool) (s : string) : option string :=
  match s with
  | "" => match ent with None => Some "" | Some _ => None end
  | String c s' =>
      match ent with
      | Some name =>
          if Ascii.eqb c ";" then
            match entity name with Some r => String r <$> read_from None false s' | None => None end
          else read_from (Some (name +:+ chr c)) false s'
      | None =>
          if Ascii.eqb c AMP then read_from (Some "") false s'
          else if Ascii.eqb c LT then None
          else if Ascii.eqb c CR then String LF <$> read_from None true s'
          else if Ascii.eqb c LF && cr then read_from None false s'
          else if xml_byte c then String c <$> read_from None false s' else None
      end
  end.
Definition read_chardata (s : string) : option string := read_from None false s.

(** ** Lemmas: escaping *)

Fixpoint esc_bytes (esc : ascii -> option string) (s : string) : string :=
  match s with
  | "" => ""
  | String c s' => default (chr c) (esc c) +:+ esc_bytes esc s'
  end.

Lemma esc_loop_spec (esc : ascii -> option string) (s pend w : string) :
  esc_loop esc s pend w = w +:+ pend +:+ esc_bytes esc s.
Proof.
  revert pend w; induction s as [|c s IH]; intros pend w; simpl; [by rewrite str_app_nil_r|].
  destruct (esc c) as [r|]; rewrite IH; simpl; by rewrite ?str_app_assoc.
Qed.

(** The separator escapes without the line feed. *)
Definition pipe_esc (c : ascii) : option string :=
  if Ascii.eqb c PIPE then Some "\|" else if Ascii.eqb c BSLASH then Some "\\" else None.

Lemma esc_bytes_app (esc : ascii -> option string) (a b : string) :
  esc_bytes esc (a +:+ b) = esc_bytes esc a +:+ esc_bytes esc b.
Proof. induction a as [|c a IH]; simpl; [done|]. by rewrite IH, str_app_assoc. Qed.

(** One pass does the work of two. *)
Lemma raw_esc_compose (s : string) : esc_bytes raw_esc s = esc_bytes chardata_esc (esc_bytes pipe_esc s).
Proof.
  induction s as [|c s IH]; cbn [esc_bytes]; [done|]. rewrite esc_bytes_app, IH. f_equal.
  unfold raw_esc, pipe_esc. destruct (Ascii.eqb c PIPE) eqn:E1; [done|].
  destruct (Ascii.eqb c BSLASH) eqn:E2; [done|]. cbn [default esc_bytes chr].
  by rewrite str_app_nil_r.
Qed.

Definition xml_safe (s : string) : bool := all_bytes xml_byte s.

(** Reading escaped character data gives the text back. *)
Lemma read_escaped (s rest : string) : xml_safe s = true ->
  read_chardata (esc_bytes chardata_esc s +:+ rest) = (fun t => s +:+ t) <$> read_chardata rest.
Proof.
  unfold read_chardata. induction s as [|c s IH]; intros Hs; cbn [esc_bytes].
  { simpl. by destruct (read_from None false rest). }
  apply andb_true_iff in Hs as [Hc Hs]. rewrite str_app_assoc. unfold chardata_esc at 1.
  destruct (Ascii.eqb_spec c LT) as [->|H1]; [simpl; rewrite IH by done; by destruct (read_from None false rest)|].
  destruct (Ascii.eqb_spec c GT) as [->|H2]; [simpl; rewrite IH by done; by destruct (read_from None false rest)|].
  destruct (Ascii.eqb_spec c AMP) as [->|H3]; [simpl; rewrite IH by done; by destruct (read_from None false rest)|].
  cbn [default chr String.append read_from]. apply Ascii.eqb_neq in H1, H3. rewrite H1, H3.
  destruct (Ascii.eqb_spec c CR) as [->|H4]; [done|]. rewrite andb_false_r, Hc, IH by done.
  by destruct (read_from None false rest).
Qed.

Lemma read_chardata_escaped (s : string) :
  xml_safe s = true -> read_chardata (writeXMLChardata "" s) = Some s.
Proof.
  intros Hs. unfold writeXMLChardata. rewrite esc_loop_spec. simpl.
  rewrite <- (str_app_nil_r (esc_bytes _ _)), read_escaped by done. simpl. by rewrite str_app_nil_r.
Qed.

Lemma xml_safe_app (a b : string) : xml_safe (a +:+ b) = xml_safe a && xml_safe b.
Proof. unfold xml_safe. induction a as [|c a IH]; simpl; [done|]. by rewrite IH, andb_assoc. Qed.

Lemma pipe_esc_safe (s : string) : xml_safe s = true -> xml_safe (esc_bytes pipe_esc s) = true.
Proof.
  induction s as [|c s IH]; cbn [esc_bytes]; [done|]. intros [Hc Hs]%andb_true_iff.
  rewrite xml_safe_app, IH by done. unfold pipe_esc. repeat case_match; simpl; [done|done|].
  cbn [default xml_safe all_bytes chr]. by rewrite Hc.
Qed.

(** ** Lemmas: rows *)

(** The text of a raw row between its tags. *)
Definition raw_row_text (row : list string) : string := Join (map (esc_bytes raw_esc) row) (chr PIPE).

Lemma write_raw_cells_S (j : nat) (row : list string) (w : string) :
  row <> [] -> write_raw_cells (S j) row w = w +:+ chr PIPE +:+ raw_row_text row.
Proof.
  unfold raw_row_text. revert j w; induction row as [|v row IH]; intros j w Hr; [done|].
  cbn [write_raw_cells Nat.ltb Nat.leb map]. unfold writeRawValue. rewrite esc_loop_spec. simpl.
  destruct row as [|v' row]; [simpl; by rewrite str_app_assoc|].
  rewrite IH by done. rewrite (Join_cons (esc_bytes raw_esc v)) by done. by rewrite !str_app_assoc.
Qed.

Lemma write_raw_cells_spec (row : list string) (w : string) :
  write_raw_cells 0 row w = w +:+ raw_row_text row.
Proof.
  destruct row as [|v row]; [simpl; by rewrite str_app_nil_r|].
  cbn [write_raw_cells Nat.ltb Nat.leb]. unfold writeRawValue. rewrite esc_loop_spec. simpl.
  destruct row as [|v' row]; [done|]. rewrite write_raw_cells_S by done.
  unfold raw_row_text. cbn [map]. rewrite (Join_cons (esc_bytes raw_esc v)) by done. by rewrite !str_app_assoc.
Qed.

(** The texts between the row tags, and what is written for them. *)
Definition row_texts (packet : DataPacket) : list string :=
  if (0 <? length (p_rawRows packet))%nat then map raw_row_text (p_rawRows packet)
  else map (fun r => esc_bytes chardata_esc (r_Value r)) (d_Rows (p_Data packet)).
Fixpoint tagged (texts : list string) : string :=
  match texts with [] => "" | t :: texts' => "<R>" +:+ t +:+ "</R>" +:+ tagged texts' end.

Lemma write_raw_rows_spec (rows : list (list string)) (w : string) :
  write_raw_rows rows w = w +:+ tagged (map raw_row_text rows).
Proof.
  revert w; induction rows as [|row rows IH]; intros w; cbn [write_raw_rows tagged map]; [by rewrite str_app_nil_r|].
  rewrite IH, write_raw_cells_spec. by rewrite !str_app_assoc.
Qed.

Lemma write_data_rows_spec (rows : list Row) (w : string) :
  write_data_rows rows w = w +:+ tagged (map (fun r => esc_bytes chardata_esc (r_Value r)) rows).
Proof.
  revert w; induction rows as [|row rows IH]; intros w; cbn [write_data_rows tagged map]; [by rewrite str_app_nil_r|].
  rewrite IH. unfold writeXMLChardata. rewrite esc_loop_spec. by rewrite !str_app_assoc.
Qed.

Lemma esc_chardata_join (l : list string) :
  Join (map (esc_bytes chardata_esc) l) (chr PIPE) = esc_bytes chardata_esc (Join l (chr PIPE)).
Proof.
  induction l as [|x l IH]; [done|]. destruct l as [|y l]; [done|].
  rewrite (Join_cons x) by done. cbn [map]. rewrite (Join_cons (esc_bytes _ x)) by done.
  rewrite !esc_bytes_app, <- IH. done.
Qed.

Lemma xml_safe_join (l : list string) :
  Forall (fun v => xml_safe v = true) l -> xml_safe (Join l (chr PIPE)) = true.
Proof.
  induction 1 as [|x l Hx Hl IH]; [done|]. destruct l as [|y l]; [by unfold Join|].
  rewrite Join_cons by done. rewrite !xml_safe_app, Hx, IH. done.
Qed.

Lemma slow_pipe_cell (v rest buf : string) :
  rowValues_slow (esc_bytes pipe_esc v +:+ rest) false buf = rowValues_slow rest false (buf +:+ v).
Proof.
  revert buf; induction v as [|c v IH]; intros buf; cbn [esc_bytes]; [by rewrite str_app_nil_r|].
  rewrite str_app_assoc. unfold pipe_esc at 1.
  destruct (Ascii.eqb_spec c PIPE) as [->|H1]; [simpl; rewrite IH; by rewrite str_app_assoc|].
  destruct (Ascii.eqb_spec c BSLASH) as [->|H2]; [simpl; rewrite IH; by rewrite str_app_assoc|].
  cbn [default chr String.append rowValues_slow]. apply Ascii.eqb_neq in H1, H2. rewrite H1, H2, IH.
  by rewrite str_app_assoc.
Qed.

Lemma slow_pipe_join (row : list string) :
  row <> [] -> rowValues_slow (Join (map (esc_bytes pipe_esc) row) (chr PIPE)) false "" = row.
Proof.
  induction row as [|v row IH]; intros Hr; [done|]. destruct row as [|v' row].
  - unfold Join; simpl. rewrite <- (str_app_nil_r (esc_bytes _ v)), slow_pipe_cell. done.
  - cbn [map]. rewrite (Join_cons (esc_bytes pipe_esc v)) by done. rewrite slow_pipe_cell.
    cbn [chr String.append rowValues_slow]. f_equal. by apply IH.
Qed.

(** A raw row is read back as its cells, line feeds included. *)
Lemma raw_row_reads (row : list string) :
  row <> [] -> Forall (fun v => xml_safe v = true) row ->
  exists v, read_chardata (raw_row_text row) = Some v /\ GetRowValues (MkRow v) = row.
Proof.
  intros Hr Hs. exists (Join (map (esc_bytes pipe_esc) row) (chr PIPE)). split.
  - unfold raw_row_text. rewrite (map_ext _ _ raw_esc_compose), <- (map_map (esc_bytes pipe_esc)), esc_chardata_join.
    rewrite <- (str_app_nil_r (esc_bytes _ _)), read_escaped; [simpl; by rewrite str_app_nil_r|].
    apply xml_safe_join, Forall_map. eapply Forall_impl; [exact Hs|]. intros v. apply pipe_esc_safe.
  - rewrite GetRowValues_slow. by apply slow_pipe_join.
Qed.

Lemma esc_chardata_no_lt (s : string) : has_byte LT (esc_bytes chardata_esc s) = false.
Proof.
  induction s as [|c s IH]; cbn [esc_bytes]; [done|]. rewrite has_byte_app, IH, orb_false_r. unfold chardata_esc.
  repeat case_match; try done. cbn [default chr has_byte]. by rewrite orb_false_r.
Qed.

Lemma row_texts_no_lt (p : DataPacket) : Forall (fun t => has_byte LT t = false) (row_texts p).
Proof.
  unfold row_texts. destruct (0 <? length (p_rawRows p))%nat; apply Forall_map, Forall_true; intros x.
  - unfold raw_row_text. rewrite (map_ext _ _ raw_esc_compose), <- (map_map (esc_bytes pipe_esc)), esc_chardata_join.
    apply esc_chardata_no_lt.
  - apply esc_chardata_no_lt.
Qed.

(** ** Properties *)

(** What is written is what is read: the serialised packet is a head and a tail around one [<R>]
    element per row, whose texts contain no tag; and on either path of the writer, when the cells (or the
    row texts) hold only bytes XML can carry other than the carriage return, the text of each element
    decodes and splits into exactly the cells of the corresponding row. *)
Theorem written_rows_read_back {M : Marshal} (p : DataPacket) :
  (forall row, row ∈ p_rawRows p -> row <> [] /\ Forall (fun v => xml_safe v = true) row) ->
  (forall r, r ∈ d_Rows (p_Data p) -> xml_safe (r_Value r) = true) ->
  exists head tail texts,
  packetToBytes p = head +:+ tagged texts +:+ tail
  /\ Forall (fun t => has_byte LT t = false) texts
  /\ Forall2 (fun t row => exists v, read_chardata t = Some v /\ GetRowValues (MkRow v) = row) texts (GetRows p).
Proof.
  intros Hraw Hdata. eexists (write_data_tag (p_Data p) (write_sections p "")), _, (row_texts p). split_and!.
  - unfold packetToBytes, writePacketTo, row_texts.
    destruct (0 <? length (p_rawRows p))%nat; rewrite ?write_raw_rows_spec, ?write_data_rows_spec;
      by rewrite str_app_assoc.
  - apply row_texts_no_lt.
  - unfold row_texts, GetRows. destruct (0 <? length (p_rawRows p))%nat.
    + rewrite <- (map_id (p_rawRows p)) at 2.
      apply (Forall2_map_same _ raw_row_text id). intros row Hin.
      destruct (Hraw row Hin). by apply raw_row_reads.
    + apply Forall2_map_same. intros r Hin. exists (r_Value r). split; [|by destruct r].
      pose proof (read_chardata_escaped _ (Hdata r Hin)) as H. unfold writeXMLChardata in H.
      by rewrite esc_loop_spec in H.
Qed.

Definition demo_marshal : Marshal := {|
  marshal_Header _ := "<Header/>"; marshal_Query _ := ""; marshal_QueryContext _ := "";
  marshal_Schema _ := "<Schema/>"; marshal_AlarmDetails _ := "";
|}.
Definition demo_xml_packet : DataPacket :=
  set_p_rawRows [["a<b"; "x|y" +:+ chr LF +:+ "z"]; ["&"; "\"]] (NewDataPacket "u" 1 TypeReference "t").

Lemma written_rows_read_back_witness :
  exists head tail texts, packetToBytes (M := demo_marshal) demo_xml_packet = head +:+ tagged texts +:+ tail
  /\ length texts = 2.
Proof.
  destruct (written_rows_read_back (M := demo_marshal) demo_xml_packet) as (h & t & texts & E & _ & H).
  - intros row Hin. assert (H : Forall (fun row => row <> [] /\ Forall (fun v => xml_safe v = true) row)
      (p_rawRows demo_xml_packet)) by (repeat constructor; done).
    rewrite Forall_forall in H. by apply H.
  - intros r Hin. by apply elem_of_nil in Hin.
  - exists h, t, texts. split; [exact E|]. by apply Forall2_length in H.
Defined.

Lemma read_cr (s : string) : HasPrefix s (chr LF) = false ->
  read_from None true s = read_from None false s.
Proof.
  destruct s as [|c s]; [done|]. intros H.
  assert (Hc : Ascii.eqb c LF = false).
  { rewrite Ascii.eqb_sym. by rewrite HasPrefix_chr in H. }
  cbn [read_from]. by rewrite Hc.
Qed.

(** Escaping keeps a text from beginning with a line feed. *)
Lemma esc_bytes_head (esc : ascii -> option string) (t : string) :
  (forall c r, esc c = Some r -> r <> "" /\ HasPrefix r (chr LF) = false) ->
  HasPrefix t (chr LF) = false -> HasPrefix (esc_bytes esc t) (chr LF) = false.
Proof.
  intros He Ht. destruct t as [|c t]; [done|]. cbn [esc_bytes]. rewrite HasPrefix_chr in Ht.
  destruct (esc c) as [r|] eqn:E; cbn [from_option id];
    [|change (chr c +:+ esc_bytes esc t) with (String c (esc_bytes esc t)); by rewrite HasPrefix_chr].
  destruct (He c r E) as [Hr Hp]. destruct r as [|d r]; [done|]. rewrite HasPrefix_chr in Hp.
  change (String d r +:+ esc_bytes esc t) with (String d (r +:+ esc_bytes esc t)). by rewrite HasPrefix_chr.
Qed.

Lemma chardata_esc_head (c : ascii) (r : string) :
  chardata_esc c = Some r -> r <> "" /\ HasPrefix r (chr LF) = false.
Proof. unfold chardata_esc. by repeat case_match; intros [= <-]. Qed.
Lemma pipe_esc_head (c : ascii) (r : string) : pipe_esc c = Some r -> r <> "" /\ HasPrefix r (chr LF) = false.
Proof. unfold pipe_esc. by repeat case_match; intros [= <-]. Qed.

(** Reading past an unescaped carriage return. *)
Lemma read_cr_escaped (t : string) : HasPrefix t (chr LF) = false -> xml_safe t = true ->
  read_chardata (chr CR +:+ esc_bytes chardata_esc t) = Some (chr LF +:+ t).
Proof.
  intros Ht Hs. change (read_chardata (chr CR +:+ esc_bytes chardata_esc t))
    with (String LF <$> read_from None true (esc_bytes chardata_esc t)).
  rewrite read_cr by (apply esc_bytes_head; [apply chardata_esc_head|done]).
  pose proof (read_escaped t "" Hs) as E. unfold read_chardata in E. rewrite str_app_nil_r in E. rewrite E. simpl.
  by rewrite str_app_nil_r.
Qed.

(** Carriage returns do not survive: neither path of the writer escapes them, and the XML reader turns
    them into line feeds.  The text of a row with a carriage return that is not followed by a line feed
    is read as the same text with a line feed in its place, which is also the text whose line feed was
    there from the start. *)
Theorem carriage_return_becomes_line_feed (a b : string) :
  xml_safe a = true -> xml_safe b = true -> HasPrefix b (chr LF) = false ->
  read_chardata (writeXMLChardata "" (a +:+ chr CR +:+ b)) = Some (a +:+ chr LF +:+ b)
  /\ read_chardata (writeRawValue "" (a +:+ chr CR +:+ b)) = read_chardata (writeRawValue "" (a +:+ chr LF +:+ b)).
Proof.
  intros Ha Hb Hp. unfold writeXMLChardata, writeRawValue. rewrite !esc_loop_spec. cbn [String.append].
  split.
  - rewrite !esc_bytes_app, read_escaped by done.
    change (esc_bytes chardata_esc (chr CR)) with (chr CR). by rewrite read_cr_escaped.
  - rewrite !raw_esc_compose, !esc_bytes_app. rewrite !read_escaped by (by apply pipe_esc_safe).
    change (esc_bytes chardata_esc (esc_bytes pipe_esc (chr CR))) with (chr CR).
    rewrite read_cr_escaped; [|apply esc_bytes_head; [apply pipe_esc_head|done]|by apply pipe_esc_safe].
    rewrite <- esc_bytes_app, read_escaped by (by apply pipe_esc_safe).
    rewrite <- (str_app_nil_r (esc_bytes chardata_esc (_ +:+ _))), read_escaped; [simpl; by rewrite str_app_nil_r|].
    rewrite xml_safe_app, (pipe_esc_safe b) by done. done.
Qed.

Lemma carriage_return_becomes_line_feed_witness :
  read_chardata (writeXMLChardata "" ("line1" +:+ chr CR +:+ "line2")) = Some ("line1" +:+ chr LF +:+ "line2").
Proof. apply (carriage_return_becomes_line_feed "line1" "line2"); reflexivity. Defined.
