(* ===== verification/PacketParser.v ===== *)
(** * Parsing packets

    [src/pkg/core/packet/parser.go]: the checks of [validatePacket] in their order, and the four entry
    points [Parse], [ParseBytes], [ParseWithDecompression] and [ParseBytesWithDecompression].  The XML
    decoder ([encoding/xml], driven by the struct tags) and the decompressor callback are arguments.  The
    theorems characterise the packets the parser accepts and relate the entry points to each other. *)

From Stdlib Require Import ZArith Lia Ascii String.
From stdpp Require Import base list strings.
From S2P Require Import Prelude PacketTypes RowCodec PacketOps Compact.

(** ** validatePacket *)

Inductive validation_error :=
| VProtocol (protocol : string)
| VVersion | VType | VTableName | VMessageID | VTimestamp
| VMessageType (t : MessageType)
| VInReplyTo
| VPartNumber | VTotalParts | VPartExceeds
| VSchemaRequired
| VRecordsInPart (declared : Z) (actual : nat).

Definition known_type (t : MessageType) : bool :=
  existsb (String.eqb t) [TypeReference; TypeRequest; TypeResponse; TypeAlarm; TypeError].

Definition validatePacket (packet : DataPacket) : result validation_error unit :=
  let h := p_Header packet in
  let d := p_Data packet in
  fail_if negb (String.eqb (p_Protocol packet) "TDTP") with VProtocol (p_Protocol packet) ;;
  fail_if String.eqb (p_Version packet) "" with VVersion ;;
  fail_if String.eqb (h_Type h) "" with VType ;;
  fail_if String.eqb (h_TableName h) "" with VTableName ;;
  fail_if String.eqb (h_MessageID h) "" with VMessageID ;;
  fail_if (h_Timestamp h =? 0)%Z with VTimestamp ;;
  fail_if negb (known_type (h_Type h)) with VMessageType (h_Type h) ;;
  fail_if String.eqb (h_Type h) TypeResponse && String.eqb (h_InReplyTo h) "" with VInReplyTo ;;
  let multi := (0 <? h_PartNumber h)%Z || (0 <? h_TotalParts h)%Z in
  fail_if multi && (h_PartNumber h <? 1)%Z with VPartNumber ;;
  fail_if multi && (h_TotalParts h <? 1)%Z with VTotalParts ;;
  fail_if multi && (h_TotalParts h <? h_PartNumber h)%Z with VPartExceeds ;;
  fail_if String.eqb (s_Encryption (p_Schema packet)) "" && String.eqb (d_Encryption d) ""
          && (0 <? length (d_Rows d))%nat && (length (s_Fields (p_Schema packet)) =? 0)%nat
    with VSchemaRequired ;;
  fail_if (0 <? h_RecordsInPart h)%Z && String.eqb (d_Compression d) "" && String.eqb (d_Encryption d) ""
          && NeedsRowCountCheck (p_Version packet)
          && negb (Z.of_nat (length (d_Rows d)) =? h_RecordsInPart h)%Z
    with VRecordsInPart (h_RecordsInPart h) (length (d_Rows d)) ;;
  Ok ().

(** ** Entry points *)

Section Parser.
Context {XmlError DecompError : Type}.

Inductive parse_error :=
| PDecode (e : XmlError)
| PValidation (e : validation_error)
| PCompact (e : CompactTailError)
| PRowCount (n : nat)
| PDecompress (e : DecompError).

(** [xml.Unmarshal(data, &packet)]. *)
Context (unmarshal : string -> result XmlError DataPacket).

Definition expand (p : DataPacket) : result parse_error DataPacket :=
  match ExpandCompactRows p with Ok q => Ok q | Err e => Err (PCompact e) end.

Definition ParseBytes (data : string) : result parse_error DataPacket :=
  match unmarshal data with
  | Err e => Err (PDecode e)
  | Ok packet => match validatePacket packet with Err e => Err (PValidation e) | Ok _ => Ok packet end
  end.

Definition Parse (r : string) : result parse_error DataPacket :=
  match unmarshal r with
  | Err e => Err (PDecode e)
  | Ok packet =>
      match validatePacket packet with
      | Err e => Err (PValidation e)
      | Ok _ =>
          if d_Compact (p_Data packet) && String.eqb (d_Compression (p_Data packet)) ""
          then expand packet else Ok packet
      end
  end.

Definition IsCompressed (packet : DataPacket) : bool := negb (String.eqb (d_Compression (p_Data packet)) "").
Definition GetCompressionAlgorithm (packet : DataPacket) : string := d_Compression (p_Data packet).

(** The callback: compressed text and algorithm to rows. *)
Definition Decompressor : Type := string -> string -> result DecompError (list string).

Definition DecompressData (decompressor : Decompressor) (packet : DataPacket)
    : result parse_error DataPacket :=
  let d := p_Data packet in
  if String.eqb (d_Compression d) "" then Ok packet else
  match d_Rows d with
  | [] => Ok packet
  | [row] =>
      match decompressor (r_Value row) (d_Compression d) with
      | Err e => Err (PDecompress e)
      | Ok rows => Ok (set_p_Data (set_d_Rows (map MkRow rows) (set_d_Compression "" d)) packet)
      end
  | rows => Err (PRowCount (length rows))
  end.

(** The tail both [...WithDecompression] entry points share; [None] is a nil callback. *)
Definition decompress_and_expand (decompressor : option Decompressor) (packet : DataPacket)
    : result parse_error DataPacket :=
  match decompressor with
  | Some f =>
      if IsCompressed packet then
        packet ← DecompressData f packet;
        if d_Compact (p_Data packet) then expand packet else Ok packet
      else Ok packet
  | None => Ok packet
  end.
Definition ParseWithDecompression (r : string) (decompressor : option Decompressor)
    : result parse_error DataPacket :=
  packet ← Parse r; decompress_and_expand decompressor packet.
Definition ParseBytesWithDecompression (data : string) (decompressor : option Decompressor)
    : result parse_error DataPacket :=
  packet ← ParseBytes data; decompress_and_expand decompressor packet.
End Parser.
Arguments parse_error : clear implicits.
Arguments Decompressor : clear implicits.

(** ** Lemmas *)

(** The multi-part header fields are both unset, or number one of the parts. *)
Definition part_ok (n t : Z) : Prop := (n <= 0 /\ t <= 0 \/ 1 <= n <= t)%Z.

Lemma check_ok {E A} (b : bool) (e : E) (k : result E A) (a : A) :
  check_ b e k = Ok a <-> b = false /\ k = Ok a.
Proof. unfold check_. destruct b; [|tauto]. split; [done|by intros [? _]]. Qed.

Lemma known_type_spec (t : MessageType) :
  known_type t = true <-> t ∈ [TypeReference; TypeRequest; TypeResponse; TypeAlarm; TypeError].
Proof.
  unfold known_type. rewrite existsb_exists. setoid_rewrite String.eqb_eq.
  rewrite list_elem_of_In. split; [by intros (x & Hx & ->)|eauto].
Qed.

(** What the parser demands of a packet, as one predicate. *)
Record valid_packet (p : DataPacket) : Prop := {
  vp_protocol : p_Protocol p = "TDTP";
  vp_version : p_Version p <> "";
  vp_table : h_TableName (p_Header p) <> "";
  vp_id : h_MessageID (p_Header p) <> "";
  vp_time : h_Timestamp (p_Header p) <> 0%Z;
  vp_type : h_Type (p_Header p) ∈ [TypeReference; TypeRequest; TypeResponse; TypeAlarm; TypeError];
  vp_reply : h_Type (p_Header p) = TypeResponse -> h_InReplyTo (p_Header p) <> "";
  vp_parts : part_ok (h_PartNumber (p_Header p)) (h_TotalParts (p_Header p));
  vp_schema : s_Encryption (p_Schema p) = "" -> d_Encryption (p_Data p) = "" ->
    d_Rows (p_Data p) <> [] -> s_Fields (p_Schema p) <> [];
  vp_count : (0 < h_RecordsInPart (p_Header p))%Z -> d_Compression (p_Data p) = "" ->
    d_Encryption (p_Data p) = "" -> NeedsRowCountCheck (p_Version p) = true ->
    h_RecordsInPart (p_Header p) = Z.of_nat (length (d_Rows (p_Data p)));
}.

Lemma part_checks (n t : Z) :
  let multi := ((0 <? n) || (0 <? t))%Z in
  multi && (n <? 1)%Z = false /\ multi && (t <? 1)%Z = false /\ multi && (t <? n)%Z = false
  <-> part_ok n t.
Proof. unfold part_ok. simpl. lia. Qed.

Lemma schema_check (p : DataPacket) :
  String.eqb (s_Encryption (p_Schema p)) "" && String.eqb (d_Encryption (p_Data p)) ""
    && (0 <? length (d_Rows (p_Data p)))%nat && (length (s_Fields (p_Schema p)) =? 0)%nat = false
  <-> (s_Encryption (p_Schema p) = "" -> d_Encryption (p_Data p) = "" ->
       d_Rows (p_Data p) <> [] -> s_Fields (p_Schema p) <> []).
Proof.
  destruct (String.eqb_spec (s_Encryption (p_Schema p)) ""), (String.eqb_spec (d_Encryption (p_Data p)) "");
    simpl; try tauto.
  destruct (d_Rows (p_Data p)), (s_Fields (p_Schema p)); simpl; naive_solver.
Qed.

Lemma count_check (p : DataPacket) :
  (0 <? h_RecordsInPart (p_Header p))%Z && String.eqb (d_Compression (p_Data p)) ""
    && String.eqb (d_Encryption (p_Data p)) "" && NeedsRowCountCheck (p_Version p)
    && negb (Z.of_nat (length (d_Rows (p_Data p))) =? h_RecordsInPart (p_Header p))%Z = false
  <-> ((0 < h_RecordsInPart (p_Header p))%Z -> d_Compression (p_Data p) = "" ->
       d_Encryption (p_Data p) = "" -> NeedsRowCountCheck (p_Version p) = true ->
       h_RecordsInPart (p_Header p) = Z.of_nat (length (d_Rows (p_Data p)))).
Proof.
  destruct (Z.ltb_spec 0 (h_RecordsInPart (p_Header p))); [simpl|naive_solver lia].
  destruct (String.eqb_spec (d_Compression (p_Data p)) ""), (String.eqb_spec (d_Encryption (p_Data p)) "");
    simpl; try tauto.
  destruct (NeedsRowCountCheck (p_Version p)); simpl; [|naive_solver].
  rewrite negb_false_iff, Z.eqb_eq. naive_solver.
Qed.

Lemma validatePacket_ok (p : DataPacket) : validatePacket p = Ok () <-> valid_packet p.
Proof.
  unfold validatePacket. rewrite !check_ok, !negb_false_iff, schema_check, count_check.
  rewrite known_type_spec, !String.eqb_neq, String.eqb_eq, andb_false_iff, !String.eqb_neq, Z.eqb_neq.
  pose proof (part_checks (h_PartNumber (p_Header p)) (h_TotalParts (p_Header p))) as Hp. simpl in Hp.
  split.
  - intros (? & ? & ? & ? & ? & ? & ? & ? & ? & ? & ? & ? & ? & _). split; try done; tauto.
  - intros [? ? ? ? ? Ht ? ? ? ?]. split_and!; try done; try tauto.
    + intros E. rewrite E in Ht. rewrite !elem_of_cons, elem_of_nil in Ht. naive_solver.
    + destruct (decide (h_Type (p_Header p) = TypeResponse)); naive_solver.
Qed.

Section ParserLemmas.
Context {X D : Type}.

Lemma IsCompressed_spec (p : DataPacket) : IsCompressed p = negb (String.eqb (d_Compression (p_Data p)) "").
Proof. done. Qed.

(** Expansion touches only the data section, and leaves nothing to expand. *)
Lemma expand_frame (p q : DataPacket) :
  expand (XmlError := X) (DecompError := D) p = Ok q ->
  d_Compression (p_Data q) = d_Compression (p_Data p) /\ p_Schema q = p_Schema p
  /\ p_Header q = p_Header p /\ (d_Compact (p_Data q) = false \/ d_Rows (p_Data q) = []).
Proof.
  unfold expand, ExpandCompactRows.
  destruct (negb (d_Compact (p_Data p)) || (length (d_Rows (p_Data p)) =? 0)%nat) eqn:E0.
  { intros [= <-]. split_and!; try done. apply orb_true_iff in E0 as [E|E].
    - left. by apply negb_true_iff.
    - right. by apply Nat.eqb_eq, length_zero_iff_nil in E. }
  destruct (negb (existsb f_Fixed _)); [intros [= <-]; simpl; auto|].
  destruct (if d_Tail (p_Data p) then _ else None); [done|]. intros [= <-]. simpl. auto.
Qed.

Lemma expand_settled (p : DataPacket) :
  d_Compact (p_Data p) = false \/ d_Rows (p_Data p) = [] -> expand (XmlError := X) (DecompError := D) p = Ok p.
Proof. unfold expand, ExpandCompactRows. intros [-> | ->]; simpl; [done|]. by rewrite orb_true_r. Qed.

(** After the decompression step there is nothing left to expand. *)
Lemma decompress_and_expand_settled (f : Decompressor D) (p q : DataPacket) :
  d_Compression (p_Data p) <> "" -> decompress_and_expand (XmlError := X) (Some f) p = Ok q ->
  (if d_Compact (p_Data q) && String.eqb (d_Compression (p_Data q)) "" then expand q else Ok q)
  = Ok (E := parse_error X D) q.
Proof.
  intros Hc. unfold decompress_and_expand. rewrite IsCompressed_spec.
  apply String.eqb_neq in Hc. rewrite Hc; simpl. destruct (DecompressData f p) as [r|]; [simpl|done].
  destruct (d_Compact (p_Data r)) eqn:Ec; [|by intros [= <-]; rewrite Ec].
  intros (_ & _ & _ & E)%expand_frame. destruct (_ && _); [|done]. by apply expand_settled.
Qed.
End ParserLemmas.

(** ** Properties *)

(** The parser accepts exactly the well-formed packets: [validatePacket] succeeds if and only if the
    protocol, version, table, message id, timestamp and a known message type are present, a response
    names the request it answers, the part number lies within the number of parts or neither is set,
    rows come with a schema, and a declared row count of an old plain packet is the number of rows. *)
Theorem validate_packet_correct (p : DataPacket) : validatePacket p = Ok () <-> valid_packet p.
Proof. apply validatePacket_ok. Qed.

(** How the two families of entry points differ: on any input, [ParseWithDecompression] is
    [ParseBytesWithDecompression] followed by the expansion of the compact form, for every packet and
    every decompressor.  In particular the two agree on packets that are not compact, and on a compact
    packet that is not compressed the [Bytes] variant returns the rows still packed. *)
Theorem parse_entry_points_agree {X D : Type} (unmarshal : string -> result X DataPacket) (data : string)
    (f : Decompressor D) :
  ParseWithDecompression unmarshal data (Some f) =
    (p ← ParseBytesWithDecompression unmarshal data (Some f);
     if d_Compact (p_Data p) && String.eqb (d_Compression (p_Data p)) "" then expand p else Ok p)
  /\ (forall p, unmarshal data = Ok p -> validatePacket p = Ok () -> IsCompressed p = false ->
       ParseBytesWithDecompression unmarshal data (Some f) = Ok p).
Proof.
  unfold ParseWithDecompression, ParseBytesWithDecompression, Parse, ParseBytes.
  split; [|intros p -> -> H; simpl; by rewrite H].
  destruct (unmarshal data) as [p|]; [|done]. destruct (validatePacket p); [cbn [mbind result_bind]|done].
  destruct (String.eqb_spec (d_Compression (p_Data p)) "") as [Hc|Hc].
  - rewrite andb_true_r. unfold decompress_and_expand. rewrite (IsCompressed_spec p), Hc; simpl.
    rewrite Hc, andb_true_r.
    destruct (d_Compact (p_Data p)); simpl; [|by rewrite (IsCompressed_spec p), Hc].
    destruct (expand p) as [q|] eqn:E; [simpl|done]. apply expand_frame in E as (E & _).
    by rewrite (IsCompressed_spec q), E, Hc.
  - rewrite andb_false_r. cbn [mbind result_bind].
    destruct (decompress_and_expand (Some f) p) as [q|] eqn:E; [simpl|done].
    by rewrite (decompress_and_expand_settled f p q Hc E).
Qed.
