(* ===== verification/Integrity.v ===== *)
(** * Packet integrity (v1.4)

    [src/pkg/core/packet/integrity.go]: the three XXH3 hashes of a packet, [ComputeIntegrity] that stamps
    them and [VerifyIntegrity] that recomputes them.  The 128-bit hash (zeebo/xxh3) and the XML text of a
    schema ([xml.Marshal], driven by the struct tags) are the fields of [HashEnv]; nothing is assumed of
    them beyond the width of the hash words.  That a hash separates two inputs is stated where a theorem
    needs it, for the inputs it needs. *)

From Stdlib Require Import ZArith Lia Ascii String.
From stdpp Require Import base list strings.
From S2P Require Import Prelude Encodings PacketTypes RowCodec PacketOps Compact PacketParser.

Class HashEnv := {
  hash128 : string -> N * N;               (** [xxh3.Hash128]: the high and the low word *)
  marshal_schema : Schema -> option string; (** [xml.Marshal]; [None] is an error *)
}.
Class HashEnvLaws (H : HashEnv) : Prop := {
  hash128_width s : (((hash128 s).1 < 2 ^ 64)%N /\ ((hash128 s).2 < 2 ^ 64)%N);
}.

Record IntegrityResult := MkIntegrityResult { ir_SchemaXXH3 : string; ir_DataXXH3 : string; ir_PacketXXH3 : string }.

Inductive integrity_error :=
| IMarshal
| ISchemaMismatch (stored computed : string)
| IDataMismatch (stored computed : string)
| IPacketMismatch (stored computed : string).

Section Integrity.
Context {H : HashEnv}.

Definition uint128Hex (u : N * N) : string := hex_encode (uint64ToBytes u.1 ++ uint64ToBytes u.2).

(** The rows as they are hashed: each followed by a line feed. *)
Fixpoint hash_rows (rows : list Row) : string :=
  match rows with [] => "" | r :: rows' => r_Value r +:+ chr LF +:+ hash_rows rows' end.

Definition computeHashes (pkt : DataPacket) : result integrity_error IntegrityResult :=
  let salt := h_MessageID (p_Header pkt) in
  match marshal_schema (set_s_XXH3 "" (p_Schema pkt)) with
  | None => Err IMarshal
  | Some schemaBytes =>
      let schemaHex := uint128Hex (hash128 (salt +:+ schemaBytes)) in
      let dataHex := uint128Hex (hash128 (salt +:+ hash_rows (d_Rows (p_Data pkt)))) in
      let combined := schemaHex +:+ "|" +:+ dataHex in
      Ok (MkIntegrityResult schemaHex dataHex (uint128Hex (hash128 combined)))
  end.

Definition ComputeIntegrity (pkt : DataPacket) : result integrity_error (DataPacket * IntegrityResult) :=
  let pkt := MaterializeRows pkt in
  result ← computeHashes pkt;
  Ok (set_p_XXH3 (ir_PacketXXH3 result)
        (set_p_Data (set_d_XXH3 (ir_DataXXH3 result) (p_Data pkt))
           (set_p_Schema (set_s_XXH3 (ir_SchemaXXH3 result) (p_Schema pkt)) pkt)), result).

(** The packet after the call, whose rows [VerifyIntegrity] materialises, and the verdict. *)
Definition VerifyIntegrity (pkt : DataPacket) : DataPacket * result integrity_error unit :=
  if String.eqb (p_XXH3 pkt) "" then (pkt, Ok ()) else
  let pkt := MaterializeRows pkt in
  let storedSchema := s_XXH3 (p_Schema pkt) in
  let storedData := d_XXH3 (p_Data pkt) in
  let storedPacket := p_XXH3 pkt in
  (pkt,
   result ← computeHashes pkt;
   fail_if negb (String.eqb (ir_SchemaXXH3 result) storedSchema)
     with ISchemaMismatch storedSchema (ir_SchemaXXH3 result) ;;
   fail_if negb (String.eqb (ir_DataXXH3 result) storedData)
     with IDataMismatch storedData (ir_DataXXH3 result) ;;
   fail_if negb (String.eqb (ir_PacketXXH3 result) storedPacket)
     with IPacketMismatch storedPacket (ir_PacketXXH3 result) ;;
   Ok ()).

Definition HasIntegrity (pkt : DataPacket) : bool := negb (String.eqb (p_XXH3 pkt) "").
End Integrity.

(** ** Lemmas *)

Lemma uint128Hex_inj (u v : N * N) :
  (u.1 < 2 ^ 64)%N /\ (u.2 < 2 ^ 64)%N -> (v.1 < 2 ^ 64)%N /\ (v.2 < 2 ^ 64)%N ->
  uint128Hex u = uint128Hex v -> u = v.
Proof.
  destruct u as [a b], v as [c d]; cbn [fst snd]. intros [Ha Hb] [Hc Hd] E.
  unfold uint128Hex, uint64ToBytes in E. cbn [fst snd] in E.
  apply hex_encode_inj in E; [|apply Forall_app; split; apply be_bytes_bound..].
  apply app_inj_1 in E as [E1 E2]; [|by rewrite !be_bytes_length].
  change (2 ^ 64)%N with (256 ^ N.of_nat 8)%N in *. apply be_bytes_inj in E1, E2; [|done..]. by subst.
Qed.

Lemma uint128Hex_length (u : N * N) : String.length (uint128Hex u) = 32.
Proof. unfold uint128Hex, uint64ToBytes. by rewrite hex_encode_length, length_app, !be_bytes_length. Qed.

Lemma uint128Hex_nonempty (u : N * N) : String.eqb (uint128Hex u) "" = false.
Proof. apply String.eqb_neq. intros E. pose proof (uint128Hex_length u) as L. by rewrite E in L. Qed.

#[global] Opaque uint128Hex.

Lemma hash_rows_app (a b : list Row) : hash_rows (a ++ b) = hash_rows a +:+ hash_rows b.
Proof. induction a as [|r a IH]; simpl; [done|]. by rewrite IH, !str_app_assoc. Qed.

Lemma hash_rows_split (rows : list Row) :
  Forall (fun r => has_byte LF (r_Value r) = false) rows -> Split (hash_rows rows) LF = map r_Value rows ++ [""].
Proof.
  intros Hr. induction Hr as [|r rows Hr Hrs IH]; simpl; [done|].
  unfold Split in *. rewrite split_from_app by done. simpl. by rewrite IH.
Qed.

Lemma hash_rows_inj (a b : list Row) :
  Forall (fun r => has_byte LF (r_Value r) = false) a -> Forall (fun r => has_byte LF (r_Value r) = false) b ->
  hash_rows a = hash_rows b -> a = b.
Proof.
  intros Ha Hb E. apply (f_equal (fun s => Split s LF)) in E. rewrite !hash_rows_split in E by done.
  apply app_inj_2 in E as [E _]; [|done]. revert b Hb E. clear Ha.
  induction a as [|[x] a IH]; intros [|[y] b] Hb E; simpl in *; try done.
  inversion Hb; subst. injection E as -> E. by rewrite (IH b).
Qed.

Section IntegrityLemmas.
Context {H : HashEnv}.

(** The three texts whose hashes a packet carries. *)
Definition hash_inputs (pkt : DataPacket) (schemaBytes : string) : list string :=
  let salt := h_MessageID (p_Header pkt) in
  [salt +:+ schemaBytes; salt +:+ hash_rows (d_Rows (p_Data pkt));
   uint128Hex (hash128 (salt +:+ schemaBytes)) +:+ "|" +:+
     uint128Hex (hash128 (salt +:+ hash_rows (d_Rows (p_Data pkt))))].

(** No two different texts of [l] have the same hash. *)
Definition separates (l : list string) : Prop :=
  forall a b, a ∈ l -> b ∈ l -> hash128 a = hash128 b -> a = b.

Lemma VerifyIntegrity_ok (p : DataPacket) :
  p_rawRows p = [] -> HasIntegrity p = true -> (VerifyIntegrity p).2 = Ok () ->
  exists sb, marshal_schema (set_s_XXH3 "" (p_Schema p)) = Some sb
  /\ p_XXH3 p = uint128Hex (hash128 (uint128Hex (hash128 (h_MessageID (p_Header p) +:+ sb)) +:+ "|" +:+
       uint128Hex (hash128 (h_MessageID (p_Header p) +:+ hash_rows (d_Rows (p_Data p)))))).
Proof.
  unfold VerifyIntegrity, HasIntegrity. intros Hraw Hx. apply negb_true_iff in Hx. rewrite Hx. simpl.
  assert (MaterializeRows p = p) as -> by (unfold MaterializeRows; by rewrite Hraw).
  unfold computeHashes. destruct (marshal_schema _) as [sb|]; simpl; [|done].
  rewrite !check_ok, !negb_false_iff. intros (_ & _ & E & _). apply String.eqb_eq in E. eauto.
Qed.

(** Verification looks at the message id, the stamps, the schema and the hashed text of the rows. *)
Lemma VerifyIntegrity_ext (p q : DataPacket) :
  p_rawRows p = [] -> p_rawRows q = [] -> p_XXH3 q = p_XXH3 p -> p_Schema q = p_Schema p ->
  p_Header q = p_Header p -> d_XXH3 (p_Data q) = d_XXH3 (p_Data p) ->
  hash_rows (d_Rows (p_Data q)) = hash_rows (d_Rows (p_Data p)) ->
  (VerifyIntegrity q).2 = (VerifyIntegrity p).2.
Proof.
  intros Rp Rq Ex Es Eh Ed Er. unfold VerifyIntegrity. rewrite Ex. destruct (String.eqb (p_XXH3 p) ""); [done|].
  assert (MaterializeRows p = p) as -> by (unfold MaterializeRows; by rewrite Rp).
  assert (MaterializeRows q = q) as -> by (unfold MaterializeRows; by rewrite Rq).
  unfold computeHashes. simpl. by rewrite Ex, Es, Eh, Ed, Er.
Qed.

(** What [ComputeIntegrity] leaves behind. *)
Lemma stamped_facts (p q : DataPacket) (r : IntegrityResult) :
  rows_in_one_place p -> good_rows (GetRows p) -> ComputeIntegrity p = Ok (q, r) ->
  HasIntegrity q = true /\ VerifyIntegrity q = (q, Ok ()) /\ String.length (p_XXH3 q) = 32 /\ p_rawRows q = []
  /\ p_Header q = p_Header p /\ p_Version q = p_Version p /\ GetRows q = GetRows p.
Proof.
  intros Ho Hg. destruct (MaterializeRows_one_place p Ho Hg) as [Hraw Hrows].
  assert (Hf : p_Header (MaterializeRows p) = p_Header p /\ p_Version (MaterializeRows p) = p_Version p)
    by (unfold MaterializeRows; by destruct (_ && _)).
  unfold ComputeIntegrity, computeHashes. set (m := MaterializeRows p) in *.
  destruct (marshal_schema _) as [sb|] eqn:Em; simpl; [|done]. intros [= <- <-]. simpl.
  unfold VerifyIntegrity, HasIntegrity, MaterializeRows, computeHashes, check_. simpl.
  rewrite uint128Hex_nonempty, Hraw. simpl.
  change (set_s_XXH3 "" (set_s_XXH3 _ (p_Schema m))) with (set_s_XXH3 "" (p_Schema m)). rewrite Em. simpl.
  rewrite !String.eqb_refl, uint128Hex_length. destruct Hf. split_and!; try done.
  rewrite GetRows_data by done. exact Hrows.
Qed.
End IntegrityLemmas.

(** ** Properties *)

(** A stamped packet verifies: the packet [ComputeIntegrity] returns carries the hashes it reports,
    passes [VerifyIntegrity] unchanged, and still holds the same rows. *)
Theorem integrity_stamp_verifies {H : HashEnv} (p q : DataPacket) (r : IntegrityResult) :
  rows_in_one_place p -> good_rows (GetRows p) -> ComputeIntegrity p = Ok (q, r) ->
  VerifyIntegrity q = (q, Ok ()) /\ HasIntegrity q = true
  /\ (s_XXH3 (p_Schema q), d_XXH3 (p_Data q), p_XXH3 q) = (ir_SchemaXXH3 r, ir_DataXXH3 r, ir_PacketXXH3 r)
  /\ GetRows q = GetRows p.
Proof.
  intros Ho Hg Hc. destruct (stamped_facts p q r Ho Hg Hc) as (? & ? & _ & _ & _ & _ & ?). split_and!; try done.
  unfold ComputeIntegrity in Hc. destruct (computeHashes _); [|done]. by injection Hc as <- <-.
Qed.

(** C20. Tampering is detected: two packets with the same message id that both verify under the same packet
    hash have the same schema text and the same rows, unless the hash confuses two of the six texts
    involved.  The rows must be free of line feeds, as every row the framework writes is. *)
Theorem integrity_detects_tampering {H : HashEnv} {L : HashEnvLaws H} (p q : DataPacket) (sp sq : string) :
  p_rawRows p = [] -> p_rawRows q = [] -> HasIntegrity p = true ->
  (VerifyIntegrity p).2 = Ok () -> (VerifyIntegrity q).2 = Ok () ->
  p_XXH3 q = p_XXH3 p -> h_MessageID (p_Header q) = h_MessageID (p_Header p) ->
  marshal_schema (set_s_XXH3 "" (p_Schema p)) = Some sp -> marshal_schema (set_s_XXH3 "" (p_Schema q)) = Some sq ->
  separates (hash_inputs p sp ++ hash_inputs q sq) ->
  Forall (fun r => has_byte LF (r_Value r) = false) (d_Rows (p_Data p) ++ d_Rows (p_Data q)) ->
  sp = sq /\ d_Rows (p_Data p) = d_Rows (p_Data q).
Proof.
  intros Rp Rq Hi Vp Vq Ex Em Sp Sq Hsep Hlf.
  destruct (VerifyIntegrity_ok p Rp Hi Vp) as (sb & E1 & Xp).
  assert (Hi' : HasIntegrity q = true) by (unfold HasIntegrity in *; by rewrite Ex).
  destruct (VerifyIntegrity_ok q Rq Hi' Vq) as (sb' & E1' & Xq). simplify_eq.
  rewrite Ex, Xp in Xq. apply uint128Hex_inj in Xq; [|apply hash128_width..].
  apply Hsep in Xq; [|unfold hash_inputs; rewrite !list_elem_of_In; simpl; tauto..].
  apply str_app_inj in Xq as [Xs Xd]; [|by rewrite !uint128Hex_length].
  apply (str_app_inj "|" _ "|") in Xd as [_ Xd]; [|done]. apply uint128Hex_inj in Xs, Xd; [|apply hash128_width..].
  apply Hsep in Xs; [|unfold hash_inputs; rewrite !list_elem_of_In; simpl; tauto..].
  apply Hsep in Xd; [|unfold hash_inputs; rewrite !list_elem_of_In; simpl; tauto..].
  rewrite Em in Xs, Xd. apply str_app_inj in Xs as [_ ->]; [|done]. apply str_app_inj in Xd as [_ Xd]; [|done].
  apply Forall_app in Hlf as [Ha Hb]. split; [done|]. by apply hash_rows_inj.
Qed.

(** What the hashes do not see: replacing two neighbouring rows by the one row that joins them with a
    line feed changes no verdict, neither of [VerifyIntegrity] nor, from version 1.4 on, of the parser,
    which no longer compares the number of rows. *)
Theorem integrity_misses_merged_rows {H : HashEnv} (p : DataPacket) (pre post : list Row) (r1 r2 : Row) :
  p_rawRows p = [] -> d_Rows (p_Data p) = pre ++ r1 :: r2 :: post -> NeedsRowCountCheck (p_Version p) = false ->
  let q := set_p_Data (set_d_Rows (pre ++ MkRow (r_Value r1 +:+ chr LF +:+ r_Value r2) :: post) (p_Data p)) p in
  (VerifyIntegrity q).2 = (VerifyIntegrity p).2 /\ (validatePacket p = Ok () -> validatePacket q = Ok ())
  /\ length (d_Rows (p_Data q)) < length (d_Rows (p_Data p)).
Proof.
  intros Hraw Hr Hv q. split_and!.
  - apply VerifyIntegrity_ext; try done. unfold q. simpl. rewrite Hr, !hash_rows_app. simpl.
    by rewrite !str_app_assoc.
  - rewrite !validatePacket_ok. intros [? ? ? ? ? ? ? ? Hs ?]. split; try done.
    + simpl. intros Hse Hde _. apply Hs; [done..|]. rewrite Hr. by destruct pre.
    + simpl. by rewrite Hv.
  - unfold q. simpl. rewrite Hr, !length_app. simpl. lia.
Qed.

(** A polynomial hash, for the examples. *)
Fixpoint poly_hash (m acc : N) (s : string) : N :=
  match s with "" => acc | String c s' => poly_hash m ((acc * m + byte_val c + 1) mod 2 ^ 64)%N s' end.
Definition demo_hash : HashEnv := {|
  hash128 s := (poly_hash 257 0 s, poly_hash 65599 7 s);
  marshal_schema sch := Some (Join (map f_Name (s_Fields sch)) ",");
|}.

Lemma poly_hash_width (m acc : N) (s : string) : (acc < 2 ^ 64)%N -> (poly_hash m acc s < 2 ^ 64)%N.
Proof.
  revert acc; induction s as [|c s IH]; intros acc Ha; cbn [poly_hash]; [done|].
  apply IH, N.mod_upper_bound. done.
Qed.
#[export] Instance demo_hash_laws : HashEnvLaws demo_hash.
Proof. split. intros s. split; apply poly_hash_width; done. Qed.

Definition separates_bool (h : HashEnv) (l : list string) : bool :=
  forallb (fun a => forallb (fun b =>
    negb ((hash128 a).1 =? (hash128 b).1)%N || String.eqb a b) l) l.
Lemma separates_bool_spec (h : HashEnv) (l : list string) : separates_bool h l = true -> separates l.
Proof.
  unfold separates_bool. rewrite forallb_forall. intros Hl a b Ha Hb E.
  apply list_elem_of_In in Ha, Hb. specialize (Hl a Ha). rewrite forallb_forall in Hl. specialize (Hl b Hb).
  rewrite E, N.eqb_refl in Hl. by apply String.eqb_eq.
Qed.

Definition demo_integrity_packet : DataPacket :=
  set_p_Version "1.4" (set_p_Data (RowsToData [["a"; "1"]; ["b"; "2"]])
    (set_p_Schema (set_s_Fields [MkField "k" "TEXT" 0 0 0 true "" "" false false None "";
                                 MkField "v" "INTEGER" 0 0 0 false "" "" false false None ""] zero_Schema)
       (NewDataPacket "550e8400" 1 TypeReference "t"))).
Definition demo_stamped : DataPacket :=
  match ComputeIntegrity (H := demo_hash) demo_integrity_packet with Ok (q, _) => q | Err _ => demo_integrity_packet end.

Lemma integrity_stamp_verifies_witness :
  VerifyIntegrity (H := demo_hash) demo_stamped = (demo_stamped, Ok ()) /\ HasIntegrity demo_stamped = true
  /\ GetRows demo_stamped = [["a"; "1"]; ["b"; "2"]].
Proof.
  destruct (integrity_stamp_verifies (H := demo_hash) demo_integrity_packet demo_stamped
    (MkIntegrityResult (s_XXH3 (p_Schema demo_stamped)) (d_XXH3 (p_Data demo_stamped)) (p_XXH3 demo_stamped)))
    as (H1 & H2 & _ & H4); [by left|by repeat constructor|vm_compute; reflexivity|].
  split_and!; [exact H1|exact H2|]. rewrite H4. reflexivity.
Defined.

Lemma integrity_detects_tampering_witness :
  "k,v" = "k,v" /\ d_Rows (p_Data demo_stamped) = d_Rows (p_Data demo_stamped).
Proof.
  apply (integrity_detects_tampering (H := demo_hash) demo_stamped demo_stamped "k,v" "k,v");
    try (vm_compute; reflexivity).
  - apply separates_bool_spec. vm_compute. reflexivity.
  - vm_compute. repeat constructor.
Defined.

Lemma integrity_misses_merged_rows_witness :
  (VerifyIntegrity (H := demo_hash)
     (set_p_Data (set_d_Rows [MkRow ("a|1" +:+ chr LF +:+ "b|2")] (p_Data demo_stamped)) demo_stamped)).2 = Ok ().
Proof.
  destruct (integrity_misses_merged_rows (H := demo_hash) demo_stamped [] [] (MkRow "a|1") (MkRow "b|2")) as [E _];
    [vm_compute; reflexivity..|].
  etransitivity; [exact E|]. vm_compute. reflexivity.
Defined.
