(* ===== verification/Encryption.v ===== *)
(** * Encryption

    [src/pkg/crypto/encryption.go] (AES-256-GCM blobs and sections) and
    [src/pkg/core/packet/encryption.go] (the sections of a v1.5 packet).  The cipher is the field pair of
    [Gcm] with its one law, that opening what was sealed gives the plaintext; nonces come from the
    environment, one per call.  The XML text of the sections is the business of [encoding/xml]: its
    functions are the fields of [SectionXml], and a theorem that needs a section's text to read back says so
    for that section. *)

From Stdlib Require Import ZArith Lia Ascii String.
From stdpp Require Import base list strings.
From S2P Require Import Prelude Encodings PacketTypes RowCodec PacketOps Compression.

Class Gcm := {
  gcm_seal : string -> string -> string -> string;         (** key, nonce, plaintext *)
  gcm_open : string -> string -> string -> option string;  (** key, nonce, ciphertext *)
}.
Class GcmLaws (G : Gcm) : Prop := {
  gcm_open_seal key nonce pt : gcm_open key nonce (gcm_seal key nonce pt) = Some pt;
}.

Inductive crypto_error :=
| CKeyLength (n : nat) | CNonce | CUuid | CTooShort (n : nat) | CVersion | CAlgorithm | CBase64 | CAuth
| CMarshal | CUnmarshal | CRowCount (n : nat).

Definition nonceSize : nat := 12.
Definition uuidSize : nat := 16.
Definition headerSize : nat := 2 + 1 + 16 + 12.

(** ** uuidToBytes, bytesToUUID *)

(** [strings.ReplaceAll(s, "-", "")]. *)
Fixpoint strip_dashes (s : string) : string :=
  match s with "" => "" | String c s' => if Ascii.eqb c "-" then strip_dashes s' else String c (strip_dashes s') end.

(** [hex.DecodeString], lower and upper case. *)
Definition hex_value (c : ascii) : option N :=
  if byte_in "0" "9" c then Some (byte_val c - 48)%N
  else if byte_in "a" "f" c then Some (byte_val c - 87)%N
  else if byte_in "A" "F" c then Some (byte_val c - 55)%N else None.
Fixpoint hex_decode (s : string) : option (list N) :=
  match s with
  | "" => Some []
  | String a (String b s') => x ← hex_value a; y ← hex_value b; l ← hex_decode s'; Some ((x * 16 + y)%N :: l)
  | _ => None
  end.

Definition uuidToBytes (uuid : string) : result crypto_error (list N) :=
  let clean := strip_dashes uuid in
  fail_if negb (String.length clean =? 32)%nat with CUuid ;;
  match hex_decode clean with Some b => Ok b | None => Err CUuid end.

Definition bytesToUUID (b : list N) : string :=
  let h := hex_encode b in
  Join [substring 0 8 h; substring 8 4 h; substring 12 4 h; substring 16 4 h; substring 20 12 h] "-".

Definition bytes_of (l : list N) : string := string_of_list_ascii (map ascii_of_N l).
Definition vals_of (s : string) : list N := map byte_val (list_ascii_of_string s).

Section Crypto.
Context {G : Gcm}.

(** ** crypto/encryption.go; [nonce] is what the random source returns, [None] on failure *)

Definition Encrypt (nonce : option string) (key plaintext packageUUID : string) : result crypto_error string :=
  fail_if negb (String.length key =? 32)%nat with CKeyLength (String.length key) ;;
  uuidBytes ← uuidToBytes packageUUID;
  match nonce with
  | None => Err CNonce
  | Some nonce => Ok (bytes_of [1; 0; 1]%N +:+ bytes_of uuidBytes +:+ nonce +:+ gcm_seal key nonce plaintext)
  end.

(** Byte [i] of the blob, and the slice of [n] bytes at [i]. *)
Definition byte_at (i : nat) (s : string) : N := default 0%N (byte_val <$> String.get i s).
Definition slice (i n : nat) (s : string) : string := substring i n s.

Definition Decrypt (key blob : string) : result crypto_error (string * string) :=
  fail_if negb (String.length key =? 32)%nat with CKeyLength (String.length key) ;;
  fail_if (String.length blob <? headerSize)%nat with CTooShort (String.length blob) ;;
  fail_if negb (byte_at 0 blob =? 1)%N with CVersion ;;
  fail_if negb (byte_at 2 blob =? 1)%N with CAlgorithm ;;
  let packageUUID := bytesToUUID (vals_of (slice 3 uuidSize blob)) in
  let nonce := slice (3 + uuidSize) nonceSize blob in
  let ciphertext := drop_bytes headerSize blob in
  match gcm_open key nonce ciphertext with
  | None => Err CAuth
  | Some plaintext => Ok (packageUUID, plaintext)
  end.

Definition ExtractUUID (blob : string) : result crypto_error string :=
  fail_if (String.length blob <? headerSize)%nat with CTooShort (String.length blob) ;;
  fail_if negb (byte_at 0 blob =? 1)%N with CVersion ;;
  fail_if negb (byte_at 2 blob =? 1)%N with CAlgorithm ;;
  Ok (bytesToUUID (vals_of (slice 3 uuidSize blob))).

Definition EncryptSection (nonce : option string) (key plaintext : string) : result crypto_error string :=
  fail_if negb (String.length key =? 32)%nat with CKeyLength (String.length key) ;;
  match nonce with
  | None => Err CNonce
  | Some nonce => Ok (b64_encode (nonce +:+ gcm_seal key nonce plaintext))
  end.

Definition DecryptSection (key encoded : string) : result crypto_error string :=
  fail_if negb (String.length key =? 32)%nat with CKeyLength (String.length key) ;;
  match b64_decode encoded with
  | None => Err CBase64
  | Some raw =>
      fail_if (String.length raw <? nonceSize)%nat with CTooShort (String.length raw) ;;
      match gcm_open key (slice 0 nonceSize raw) (drop_bytes nonceSize raw) with
      | None => Err CAuth
      | Some plaintext => Ok plaintext
      end
  end.
End Crypto.

(** ** packet/encryption.go *)

Class SectionXml := {
  xml_of_context : QueryContext -> option string;
  context_of_xml : string -> option QueryContext;
  xml_of_schema : Schema -> option string;
  schema_of_xml : string -> option Schema;
  xml_escape_text : string -> string;            (** [xml.EscapeText] *)
  rows_of_xml : string -> option (list Row);     (** [xml.Unmarshal] of [<Rows>...</Rows>] *)
}.

Definition EncryptionAlgoAESGCM : string := "aes-256-gcm".

Definition IsEncrypted (pkt : DataPacket) : bool :=
  negb (String.eqb (s_Encryption (p_Schema pkt)) "") || negb (String.eqb (d_Encryption (p_Data pkt)) "")
  || match p_QueryContext pkt with Some qc => negb (String.eqb (qc_Encryption qc) "") | None => false end.

Definition set_p_QueryContext (qc : option QueryContext) (p : DataPacket) : DataPacket :=
  MkDataPacket (p_Protocol p) (p_Version p) (p_XXH3 p) (p_Header p) (p_Query p) qc (p_PipelineContext p)
    (p_Schema p) (p_Data p) (p_AlarmDetails p) (p_rawRows p).
Definition set_d_Encryption (e : string) (d : Data) : Data :=
  MkData (d_Compression d) (d_Checksum d) (d_XXH3 d) (d_Compact d) (d_Tail d) (d_Carry d) e (d_Rows d).

(** Go's zero [QueryContext] with only the two encryption fields set. *)
Definition encrypted_context (encoded : string) : QueryContext :=
  MkQueryContext (MkQuery "" "" [] None None 0 0) (MkExecutionResults 0 0 0 false 0) None EncryptionAlgoAESGCM encoded.

Section Sections.
Context {G : Gcm} {X : SectionXml}.

Fixpoint renderDataRowsFragment (rows : list Row) : string :=
  match rows with
  | [] => ""
  | r :: rows' => "<R>" +:+ xml_escape_text (r_Value r) +:+ "</R>" +:+ renderDataRowsFragment rows'
  end.
Definition parseDataRowsFragment (fragment : string) : option (list Row) :=
  rows_of_xml ("<Rows>" +:+ fragment +:+ "</Rows>").

Definition marshal {A} (f : A -> option string) (a : A) : result crypto_error string :=
  match f a with Some s => Ok s | None => Err CMarshal end.
Definition unmarshal {A} (f : string -> option A) (s : string) : result crypto_error A :=
  match f s with Some a => Ok a | None => Err CUnmarshal end.

Definition encrypt_context (nonce : option string) (key : string) (pkt : DataPacket) : result crypto_error DataPacket :=
  match p_QueryContext pkt with
  | Some qc =>
      if String.eqb (qc_Encryption qc) "" then
        plaintext ← marshal xml_of_context qc;
        encoded ← EncryptSection nonce key plaintext;
        Ok (set_p_QueryContext (Some (encrypted_context encoded)) pkt)
      else Ok pkt
  | None => Ok pkt
  end.
Definition encrypt_schema (nonce : option string) (key : string) (pkt : DataPacket) : result crypto_error DataPacket :=
  let s := p_Schema pkt in
  plaintext ← marshal xml_of_schema (MkSchema (s_Fields s) (s_Dictionary s) (s_XXH3 s) "" "");
  encoded ← EncryptSection nonce key plaintext;
  Ok (set_p_Schema (MkSchema [] None (s_XXH3 s) EncryptionAlgoAESGCM encoded) pkt).
Definition encrypt_data (nonce : option string) (key : string) (pkt : DataPacket) : result crypto_error DataPacket :=
  encoded ← EncryptSection nonce key (renderDataRowsFragment (d_Rows (p_Data pkt)));
  Ok (set_p_Data (set_d_Rows [MkRow encoded] (set_d_Encryption EncryptionAlgoAESGCM (p_Data pkt))) pkt).

(** [nonces] are the three random readings. *)
Definition EncryptSections (nonces : nat -> option string) (key : string) (pkt : DataPacket)
    : result crypto_error DataPacket :=
  fail_if negb (String.length key =? 32)%nat with CKeyLength (String.length key) ;;
  let pkt := MaterializeRows pkt in
  pkt ← encrypt_context (nonces 0) key pkt;
  pkt ← encrypt_schema (nonces 1) key pkt;
  pkt ← encrypt_data (nonces 2) key pkt;
  Ok (set_p_Version "1.5" pkt).

Definition decrypt_context (key : string) (pkt : DataPacket) : result crypto_error DataPacket :=
  match p_QueryContext pkt with
  | Some qc =>
      if negb (String.eqb (qc_Encryption qc) "") then
        plaintext ← DecryptSection key (qc_Encrypted qc);
        qc' ← unmarshal context_of_xml plaintext;
        Ok (set_p_QueryContext (Some qc') pkt)
      else Ok pkt
  | None => Ok pkt
  end.
Definition decrypt_schema (key : string) (pkt : DataPacket) : result crypto_error DataPacket :=
  let s := p_Schema pkt in
  if negb (String.eqb (s_Encryption s) "") then
    plaintext ← DecryptSection key (s_Encrypted s);
    s' ← unmarshal schema_of_xml plaintext;
    Ok (set_p_Schema (set_s_XXH3 (s_XXH3 s) s') pkt)
  else Ok pkt.
Definition decrypt_data (key : string) (pkt : DataPacket) : result crypto_error DataPacket :=
  let d := p_Data pkt in
  if negb (String.eqb (d_Encryption d) "") then
    match d_Rows d with
    | [row] =>
        plaintext ← DecryptSection key (r_Value row);
        rows ← unmarshal parseDataRowsFragment plaintext;
        Ok (set_p_Data (set_d_Rows rows (set_d_Encryption "" d)) pkt)
    | rows => Err (CRowCount (length rows))
    end
  else Ok pkt.

Definition DecryptSections (key : string) (pkt : DataPacket) : result crypto_error DataPacket :=
  fail_if negb (String.length key =? 32)%nat with CKeyLength (String.length key) ;;
  pkt ← decrypt_context key pkt;
  pkt ← decrypt_schema key pkt;
  decrypt_data key pkt.
End Sections.

(** ** Lemmas: slices *)

Lemma drop_bytes_app (a b : string) : drop_bytes (String.length a) (a +:+ b) = b.
Proof. induction a as [|c a IH]; [by destruct b|]. exact IH. Qed.

Lemma slice_prefix (a b : string) : slice 0 (String.length a) (a +:+ b) = a.
Proof.
  unfold slice. induction a as [|c a IH]; simpl; [by destruct b|]. by rewrite IH.
Qed.

Lemma slice_skip (i n : nat) (a b : string) : String.length a = i -> slice i n (a +:+ b) = slice 0 n b.
Proof.
  unfold slice. intros <-. induction a as [|c a IH]; simpl; [done|]. exact IH.
Qed.

Section CryptoLemmas.
Context {G : Gcm} {L : GcmLaws G}.

(** A section opens to what was sealed. *)
Lemma DecryptSection_EncryptSection (nonce key pt encoded : string) :
  String.length nonce = nonceSize -> EncryptSection (Some nonce) key pt = Ok encoded ->
  DecryptSection key encoded = Ok pt.
Proof.
  intros Hn. unfold EncryptSection, DecryptSection, check_.
  destruct (negb (String.length key =? 32)%nat); [done|]. intros [= <-]. rewrite b64_decode_encode.
  rewrite str_length_app, Hn. unfold nonceSize at 1 2. simpl Nat.ltb.
  rewrite <- Hn, slice_prefix, drop_bytes_app, gcm_open_seal. done.
Qed.

Lemma EncryptSection_ok (nonce key pt : string) :
  String.length key = 32 -> exists encoded, EncryptSection (Some nonce) key pt = Ok encoded.
Proof. intros Hk. unfold EncryptSection, check_. rewrite Hk. simpl. eauto. Qed.
End CryptoLemmas.

(** ** Lemmas: UUIDs *)

Definition hex_ok (d : N) : bool :=
  match hex_value (hex_char d) with Some e => (e =? d)%N | None => false end && negb (Ascii.eqb (hex_char d) "-").
Lemma hex_value_char (d : N) : (d < 16)%N -> hex_value (hex_char d) = Some d /\ Ascii.eqb (hex_char d) "-" = false.
Proof.
  intros Hd. assert (H : hex_ok d = true) by (revert d Hd; apply (forall_below 16 hex_ok); reflexivity).
  unfold hex_ok in H. destruct (hex_value (hex_char d)); [|done].
  rewrite andb_true_iff, negb_true_iff, N.eqb_eq in H. naive_solver.
Qed.

Lemma hex_decode_encode (b : list N) : Forall (fun x => x < 256)%N b -> hex_decode (hex_encode b) = Some b.
Proof.
  induction 1 as [|x b Hx Hb IH]; [done|]. cbn [hex_encode hex_byte chr String.append hex_decode].
  rewrite (proj1 (hex_value_char (x / 16) ltac:(n_arith))), (proj1 (hex_value_char (x mod 16) ltac:(n_arith))), IH.
  simpl. do 2 f_equal. n_arith.
Qed.

Lemma strip_dashes_app (a b : string) : strip_dashes (a +:+ b) = strip_dashes a +:+ strip_dashes b.
Proof. induction a as [|c a IH]; simpl; [done|]. rewrite IH. by destruct (Ascii.eqb c "-"). Qed.

Lemma strip_dashes_hex (b : list N) : Forall (fun x => x < 256)%N b -> strip_dashes (hex_encode b) = hex_encode b.
Proof.
  induction 1 as [|x b Hx Hb IH]; [done|]. cbn [hex_encode hex_byte chr String.append strip_dashes].
  rewrite (proj2 (hex_value_char (x / 16) ltac:(n_arith))), (proj2 (hex_value_char (x mod 16) ltac:(n_arith))).
  by rewrite IH.
Qed.

Lemma substring_cat (i n m : nat) (s : string) : substring i n s +:+ substring (i + n) m s = substring i (n + m) s.
Proof.
  revert i n; induction s as [|c s IH]; intros [|i] [|n]; simpl; try done; try (by destruct m); try apply IH.
  f_equal. apply (IH 0).
Qed.

Lemma substring_all (s : string) : substring 0 (String.length s) s = s.
Proof. induction s as [|c s IH]; simpl; [done|]. by rewrite IH. Qed.

Lemma strip_bytesToUUID (b : list N) : length b = 16 -> strip_dashes (bytesToUUID b) = strip_dashes (hex_encode b).
Proof.
  intros Hl. unfold bytesToUUID. cbv zeta. assert (Hh : String.length (hex_encode b) = 32) by (rewrite hex_encode_length; lia).
  generalize dependent (hex_encode b). clear b Hl. intros h Hh. rewrite <- (substring_all h) at 6. rewrite Hh.
  change 32 with (8 + (4 + (4 + (4 + 12)))).
  rewrite <- (substring_cat 0 8), <- (substring_cat 8 4), <- (substring_cat 12 4), <- (substring_cat 16 4).
  unfold Join. cbn [String.concat]. rewrite !strip_dashes_app. reflexivity.
Qed.

Lemma uuidToBytes_bytesToUUID (b : list N) :
  length b = 16 -> Forall (fun x => x < 256)%N b -> uuidToBytes (bytesToUUID b) = Ok b.
Proof.
  intros Hl Hb. unfold uuidToBytes, check_. rewrite strip_bytesToUUID, strip_dashes_hex, hex_encode_length, Hl by done.
  simpl. by rewrite hex_decode_encode.
Qed.

Lemma vals_of_bytes (b : list N) : Forall (fun x => x < 256)%N b -> vals_of (bytes_of b) = b.
Proof.
  unfold vals_of, bytes_of. rewrite list_ascii_of_string_of_list_ascii, map_map.
  induction 1 as [|x b Hx Hb IH]; simpl; [done|]. rewrite IH. f_equal. unfold byte_val. by rewrite N_ascii_embedding.
Qed.

Lemma bytes_of_length (b : list N) : String.length (bytes_of b) = length b.
Proof. unfold bytes_of. induction b as [|x b IH]; simpl; [done|]. by rewrite IH. Qed.

(** The fields of a blob, in their places. *)
Lemma blob_fields (u nonce ct : string) :
  String.length u = uuidSize -> String.length nonce = nonceSize ->
  let blob := bytes_of [1; 0; 1]%N +:+ u +:+ nonce +:+ ct in
  (String.length blob <? headerSize)%nat = false /\ byte_at 0 blob = 1%N /\ byte_at 2 blob = 1%N
  /\ slice 3 uuidSize blob = u /\ slice (3 + uuidSize) nonceSize blob = nonce /\ drop_bytes headerSize blob = ct.
Proof.
  intros Hu Hn blob. split_and!; [|done|done|..].
  - apply Nat.ltb_ge. unfold blob, headerSize, uuidSize, nonceSize in *. rewrite !str_length_app, Hu, Hn. simpl. lia.
  - unfold blob. rewrite (slice_skip 3) by done. by rewrite <- Hu, slice_prefix.
  - replace blob with ((bytes_of [1; 0; 1]%N +:+ u) +:+ nonce +:+ ct) by (unfold blob; by rewrite !str_app_assoc).
    rewrite (slice_skip (3 + uuidSize)), <- Hn, slice_prefix; [done|]. by rewrite str_length_app, Hu.
  - replace blob with ((bytes_of [1; 0; 1]%N +:+ u +:+ nonce) +:+ ct) by (unfold blob; by rewrite !str_app_assoc).
    replace headerSize with (String.length (bytes_of [1; 0; 1]%N +:+ u +:+ nonce))
      by (by rewrite !str_length_app, Hu, Hn).
    apply drop_bytes_app.
Qed.

Lemma Encrypt_inv {G : Gcm} (nonce key pt uuid blob : string) (b : list N) :
  uuidToBytes uuid = Ok b -> Encrypt (Some nonce) key pt uuid = Ok blob ->
  negb (String.length key =? 32)%nat = false
  /\ blob = bytes_of [1; 0; 1]%N +:+ bytes_of b +:+ nonce +:+ gcm_seal key nonce pt.
Proof.
  intros Hu. unfold Encrypt, check_. destruct (negb _); [done|]. rewrite Hu.
  unfold mbind, result_bind. intros H. split; [done|]. by inversion H.
Qed.

(** ** Properties *)

(** Encrypted blobs open: for any 32-byte key, any plaintext and any package id, [Decrypt] with the same
    key returns the id and the plaintext [Encrypt] was given, and [ExtractUUID] reads the id without
    the key. *)
Theorem blob_roundtrip {G : Gcm} {L : GcmLaws G} (key pt nonce blob : string) (id : list N) :
  length id = 16 -> Forall (fun x => x < 256)%N id -> String.length nonce = nonceSize ->
  Encrypt (Some nonce) key pt (bytesToUUID id) = Ok blob ->
  Decrypt key blob = Ok (bytesToUUID id, pt) /\ ExtractUUID blob = Ok (bytesToUUID id).
Proof.
  intros Hl Hb Hn H. apply (Encrypt_inv _ _ _ _ _ id) in H as [Hk ->]; [|by apply uuidToBytes_bytesToUUID].
  destruct (blob_fields (bytes_of id) nonce (gcm_seal key nonce pt)) as (E1 & E2 & E3 & E4 & E5 & E6);
    [by rewrite bytes_of_length|done|].
  unfold Decrypt, ExtractUUID, check_. rewrite Hk.
  rewrite E1, E2, E3, E4, E5, E6, vals_of_bytes by done. simpl. by rewrite gcm_open_seal.
Qed.

Definition demo_gcm : Gcm := {|
  gcm_seal key nonce pt := "#" +:+ pt;
  gcm_open key nonce ct := match ct with String "#" pt => Some pt | _ => None end;
|}.
#[export] Instance demo_gcm_laws : GcmLaws demo_gcm.
Proof. by split. Qed.
Definition demo_key : string := "0123456789abcdef0123456789abcdef".
Definition demo_nonce : string := "nonce-nonce-".

Lemma blob_roundtrip_witness :
  exists blob, Encrypt (G := demo_gcm) (Some demo_nonce) demo_key "secret" (bytesToUUID (replicate 16 171%N)) = Ok blob
  /\ Decrypt (G := demo_gcm) demo_key blob = Ok (bytesToUUID (replicate 16 171%N), "secret").
Proof.
  eexists. split; [vm_compute; reflexivity|].
  apply (blob_roundtrip (G := demo_gcm) demo_key "secret" demo_nonce _ (replicate 16 171%N));
    [done|by apply Forall_replicate|done|vm_compute; reflexivity].
Defined.

Section SectionLemmas.
Context {G : Gcm} {L : GcmLaws G} {X : SectionXml}.

(** The XML texts of the packet's sections read back. *)
Record xml_reads_back (p : DataPacket) : Prop := {
  xr_context : forall qc, p_QueryContext p = Some qc ->
    exists s, xml_of_context qc = Some s /\ context_of_xml s = Some qc;
  xr_schema : exists s, xml_of_schema (p_Schema p) = Some s /\ schema_of_xml s = Some (p_Schema p);
  xr_rows : parseDataRowsFragment (renderDataRowsFragment (d_Rows (p_Data p))) = Some (d_Rows (p_Data p));
}.

(** No section is encrypted yet. *)
Definition plain_packet (p : DataPacket) : Prop :=
  s_Encryption (p_Schema p) = "" /\ s_Encrypted (p_Schema p) = "" /\ d_Encryption (p_Data p) = ""
  /\ forall qc, p_QueryContext p = Some qc -> qc_Encryption qc = "".

Definition good_nonces (nonces : nat -> option string) : Prop :=
  forall k n, nonces k = Some n -> String.length n = nonceSize.

Lemma EncryptSection_inv (nonces : nat -> option string) (k : nat) (key pt encoded : string) :
  good_nonces nonces -> EncryptSection (nonces k) key pt = Ok encoded -> DecryptSection key encoded = Ok pt.
Proof.
  intros Hg H. destruct (nonces k) as [n|] eqn:E; [|by unfold EncryptSection, check_ in H; destruct (negb _)].
  eapply DecryptSection_EncryptSection; [|exact H]. by apply (Hg k).
Qed.

(** What the three encryption steps produce, with the plaintexts behind the encoded sections. *)
Lemma EncryptSections_inv (nonces : nat -> option string) (key : string) (p q : DataPacket) :
  good_nonces nonces -> EncryptSections nonces key p = Ok q ->
  let m := MaterializeRows p in
  exists qc' s_enc d_enc s_pt,
    negb (String.length key =? 32)%nat = false
    /\ q = MkDataPacket (p_Protocol m) "1.5" (p_XXH3 m) (p_Header m) (p_Query m) qc' (p_PipelineContext m)
             (MkSchema [] None (s_XXH3 (p_Schema m)) EncryptionAlgoAESGCM s_enc)
             (set_d_Rows [MkRow d_enc] (set_d_Encryption EncryptionAlgoAESGCM (p_Data m)))
             (p_AlarmDetails m) (p_rawRows m)
    /\ xml_of_schema (MkSchema (s_Fields (p_Schema m)) (s_Dictionary (p_Schema m)) (s_XXH3 (p_Schema m)) "" "") = Some s_pt
    /\ DecryptSection key s_enc = Ok s_pt
    /\ DecryptSection key d_enc = Ok (renderDataRowsFragment (d_Rows (p_Data m)))
    /\ match p_QueryContext m with
       | Some qc => if String.eqb (qc_Encryption qc) ""
                    then exists c_enc c_pt, qc' = Some (encrypted_context c_enc) /\ xml_of_context qc = Some c_pt
                           /\ DecryptSection key c_enc = Ok c_pt
                    else qc' = Some qc
       | None => qc' = None
       end.
Proof.
  intros Hg. unfold EncryptSections, check_. destruct (negb (String.length key =? 32)%nat); [done|].
  set (m := MaterializeRows p).
  destruct (encrypt_context (nonces 0) key m) as [m1|] eqn:E1; [|done].
  cbn [mbind result_bind]. unfold encrypt_schema at 1, marshal at 1.
  destruct (xml_of_schema _) as [s_pt|] eqn:Es; [|done]. cbn [mbind result_bind].
  destruct (EncryptSection (nonces 1) key s_pt) as [s_enc|] eqn:E2; [|done]. cbn [mbind result_bind].
  unfold encrypt_data. destruct (EncryptSection (nonces 2) key _) as [d_enc|] eqn:E3; [|done]. cbn [mbind result_bind].
  intros [= <-]. exists (p_QueryContext m1), s_enc, d_enc, s_pt.
  assert (Hm1 : m1 = set_p_QueryContext (p_QueryContext m1) m /\ match p_QueryContext m with
       | Some qc => if String.eqb (qc_Encryption qc) ""
                    then exists c_enc c_pt, p_QueryContext m1 = Some (encrypted_context c_enc)
                           /\ xml_of_context qc = Some c_pt /\ DecryptSection key c_enc = Ok c_pt
                    else p_QueryContext m1 = Some qc
       | None => p_QueryContext m1 = None end).
  { unfold encrypt_context, marshal in E1. destruct (p_QueryContext m) as [qc|] eqn:Eq.
    2:{ injection E1 as <-. rewrite Eq. by destruct m; simpl in *; subst. }
    destruct (String.eqb (qc_Encryption qc) "").
    2:{ injection E1 as <-. rewrite Eq. by destruct m; simpl in *; subst. }
    destruct (xml_of_context qc) as [c_pt|] eqn:Ex; [|done]. cbn [mbind result_bind] in E1.
    destruct (EncryptSection (nonces 0) key c_pt) as [c_enc|] eqn:E0; [|done]. injection E1 as <-. split; [done|].
    exists c_enc, c_pt. split_and!; [done..|]. by eapply EncryptSection_inv. }
  destruct Hm1 as [Hm1 Hc]. rewrite Hm1 in Es, E3. simpl in Es, E3.
  split_and!; [done| |exact Es|by eapply EncryptSection_inv..|exact Hc]. rewrite Hm1. reflexivity.
Qed.

Lemma EncryptSections_decrypts (nonces : nat -> option string) (key : string) (p q : DataPacket) :
  good_nonces nonces -> plain_packet (MaterializeRows p) -> xml_reads_back (MaterializeRows p) ->
  EncryptSections nonces key p = Ok q -> DecryptSections key q = Ok (set_p_Version "1.5" (MaterializeRows p)).
Proof.
  intros Hg Hp Hx He. apply EncryptSections_inv in He; [|done].
  destruct He as (qc' & s_enc & d_enc & s_pt & Hk & -> & Hs & Ds & Dd & Hc). set (m := MaterializeRows p) in *.
  destruct Hp as (Hse & Hsd & Hde & Hq), Hx as [Xc (s & Xs & Xs') Xr].
  assert (Hsch : MkSchema (s_Fields (p_Schema m)) (s_Dictionary (p_Schema m)) (s_XXH3 (p_Schema m)) "" "" = p_Schema m)
    by (destruct m as [? ? ? ? ? ? ? [] ? ? ?]; simpl in *; by subst).
  rewrite Hsch, Xs in Hs. injection Hs as <-.
  unfold DecryptSections, check_. rewrite Hk.
  assert (Ec : forall v d sc, decrypt_context key (MkDataPacket (p_Protocol m) v (p_XXH3 m) (p_Header m) (p_Query m) qc'
      (p_PipelineContext m) sc d (p_AlarmDetails m) (p_rawRows m))
    = Ok (MkDataPacket (p_Protocol m) v (p_XXH3 m) (p_Header m) (p_Query m) (p_QueryContext m)
      (p_PipelineContext m) sc d (p_AlarmDetails m) (p_rawRows m))).
  { intros v d sc. unfold decrypt_context. simpl. destruct (p_QueryContext m) as [qc|]; [|by subst].
    rewrite (Hq qc) in Hc by done. destruct Hc as (c_enc & c_pt & -> & Ex & Dc). simpl. rewrite Dc. simpl.
    destruct (Xc qc) as (s' & E1 & E2); [done|]. rewrite E1 in Ex. injection Ex as ->.
    unfold unmarshal. rewrite E2. done. }
  rewrite Ec. cbn [mbind result_bind]. unfold decrypt_schema. simpl. rewrite Ds. simpl. unfold unmarshal at 1. rewrite Xs'. simpl.
  unfold decrypt_data. simpl. rewrite Dd. simpl. unfold unmarshal. rewrite Xr. simpl.
  unfold set_p_Data, set_p_Schema, set_s_XXH3; simpl.
  destruct m as [? ? ? ? ? ? ? [] [] ? ?]; simpl in *; by subst.
Qed.
End SectionLemmas.

(** C13. Encrypting a packet's sections loses nothing: for a packet with nothing encrypted yet whose sections'
    XML reads back, [DecryptSections] with the same key undoes [EncryptSections], whatever the nonces;
    the packet that comes back is the materialised original as version 1.5. *)
Theorem sections_roundtrip {G : Gcm} {L : GcmLaws G} {X : SectionXml} (nonces : nat -> option string) (key : string)
    (p q : DataPacket) :
  good_nonces nonces -> plain_packet (MaterializeRows p) -> xml_reads_back (MaterializeRows p) ->
  EncryptSections nonces key p = Ok q ->
  DecryptSections key q = Ok (set_p_Version "1.5" (MaterializeRows p)) /\ IsEncrypted q = true.
Proof.
  intros Hg Hp Hx He. split; [by eapply EncryptSections_decrypts|].
  apply EncryptSections_inv in He as (qc' & s_enc & d_enc & s_pt & _ & -> & _); done.
Qed.

(** When the plaintext stays behind: if a packet holds rows both raw and in its data section (as after
    [SetRows] on a generated packet), [EncryptSections] marks it encrypted but leaves the raw rows in
    place, and they are what readers of the packet, the XML writer included, still see. *)
Theorem encryption_leaves_raw_rows {G : Gcm} {L : GcmLaws G} {X : SectionXml} (nonces : nat -> option string) (key : string)
    (p q : DataPacket) :
  good_nonces nonces -> p_rawRows p <> [] -> d_Rows (p_Data p) <> [] -> EncryptSections nonces key p = Ok q ->
  IsEncrypted q = true /\ p_rawRows q = p_rawRows p /\ GetRows q = p_rawRows p.
Proof.
  intros Hg Hr Hd He. apply EncryptSections_inv in He as (qc' & s_enc & d_enc & s_pt & _ & -> & _); [|done].
  assert (MaterializeRows p = p) as ->.
  { unfold MaterializeRows. destruct (d_Rows (p_Data p)); [done|]. by rewrite andb_false_r. }
  split_and!; [done..|]. unfold GetRows. simpl. by destruct (p_rawRows p).
Qed.

(** A toy XML: rows joined by a byte no demonstration row contains; a fixed schema and context. *)
Definition demo_sections (sch : Schema) (qc : QueryContext) (rows : list Row) : SectionXml := {|
  xml_of_context _ := Some "<QueryContext/>"; context_of_xml _ := Some qc;
  xml_of_schema _ := Some "<Schema/>"; schema_of_xml _ := Some sch;
  xml_escape_text s := s;
  rows_of_xml _ := Some rows;
|}.
Definition demo_plain : DataPacket := set_p_Data (RowsToData [["a"; "1"]; ["b"; "2"]]) (NewDataPacket "u" 1 TypeReference "t").
Definition demo_X : SectionXml :=
  demo_sections zero_Schema (encrypted_context "") (d_Rows (p_Data demo_plain)).

Lemma sections_roundtrip_witness :
  exists q, EncryptSections (G := demo_gcm) (X := demo_X) (fun _ => Some demo_nonce) demo_key demo_plain = Ok q
  /\ DecryptSections (G := demo_gcm) (X := demo_X) demo_key q = Ok (set_p_Version "1.5" demo_plain).
Proof.
  eexists. split; [vm_compute; reflexivity|].
  apply (sections_roundtrip (G := demo_gcm) (X := demo_X) (fun _ => Some demo_nonce) demo_key demo_plain).
  - by intros k n [= <-].
  - by repeat split.
  - split; [done|by exists "<Schema/>"|reflexivity].
  - vm_compute. reflexivity.
Defined.

Definition demo_leak : DataPacket := SetRows [["***"]] (set_p_rawRows [["secret"]] (NewDataPacket "u" 1 TypeReference "t")).

Lemma encryption_leaves_raw_rows_witness :
  exists q, EncryptSections (G := demo_gcm) (X := demo_X) (fun _ => Some demo_nonce) demo_key demo_leak = Ok q
  /\ GetRows q = [["secret"]].
Proof.
  eexists. split; [vm_compute; reflexivity|].
  apply (encryption_leaves_raw_rows (G := demo_gcm) (X := demo_X) (fun _ => Some demo_nonce) demo_key demo_leak);
    [by intros k n [= <-]|done|done|vm_compute; reflexivity].
Defined.
