(* ===== verification/Wire.v ===== *)
(** * The whole path of a packet

    [parseAndDecryptBrokerMessage] of [src/cmd/tdtpcli/commands/broker.go], with [DecryptEncBlob],
    [DecryptPacketV15] and [IsEncryptedBlob] of [encrypt.go] and [DecodeKey] of
    [src/pkg/mercury/client.go]: the receiving side of a message that may be a legacy blob, encrypted by
    sections, compressed and compact.  Keys come from xZMercury ([retrieve]); the XML decoder is an
    argument. *)

From Stdlib Require Import ZArith Lia Ascii String.
From stdpp Require Import base list strings.
From S2P Require Import Prelude Encodings PacketTypes RowCodec PacketOps Compression Compact PacketParser Encryption.

Inductive wire_error {XmlError : Type} :=
| WNoMercury | WNoKey | WKeyBase64 | WKeyLength (n : nat) | WNoMessageID
| WCrypto (e : crypto_error)
| WParse (e : parse_error XmlError codec_error).
Arguments wire_error : clear implicits.

Section Wire.
Context {G : Gcm} {X : SectionXml} {K : Codec} {XmlError : Type}.
Context (unmarshal_packet : string -> result XmlError DataPacket).
(** [RetrieveKey] for a package id: the key in base64, [None] when Mercury refuses or is unreachable. *)
Context (retrieve : string -> option string).

#[local] Abbreviation W := (result (wire_error XmlError)).

Definition IsEncryptedBlob (blob : string) : bool := is_ok (ExtractUUID blob).

Definition DecodeKey (keyB64 : string) : W string :=
  match b64_decode keyB64 with
  | None => Err WKeyBase64
  | Some key => fail_if negb (String.length key =? 32)%nat with WKeyLength (String.length key) ;; Ok key
  end.

Definition crypto {A} (r : result crypto_error A) : W A := match r with Ok a => Ok a | Err e => Err (WCrypto e) end.
Definition parse {A} (r : result (parse_error XmlError codec_error) A) : W A :=
  match r with Ok a => Ok a | Err e => Err (WParse e) end.

Definition retrieve_key (uuid : string) : W string :=
  match retrieve uuid with None => Err WNoKey | Some keyB64 => DecodeKey keyB64 end.

Definition DecryptEncBlob (blob mercuryURL : string) : W string :=
  fail_if String.eqb mercuryURL "" with WNoMercury ;;
  uuid ← crypto (ExtractUUID blob);
  key ← retrieve_key uuid;
  '(_, plaintext) ← crypto (Decrypt key blob);
  Ok plaintext.

Definition DecryptPacketV15 (pkt : DataPacket) (mercuryURL : string) : W DataPacket :=
  fail_if String.eqb mercuryURL "" with WNoMercury ;;
  fail_if String.eqb (h_MessageID (p_Header pkt)) "" with WNoMessageID ;;
  key ← retrieve_key (h_MessageID (p_Header pkt));
  crypto (DecryptSections key pkt).

Definition decryptLegacyBlobIfNeeded (raw mercuryURL : string) : W string :=
  if negb (IsEncryptedBlob raw) then Ok raw else DecryptEncBlob raw mercuryURL.
Definition decryptV15PacketIfNeeded (pkt : DataPacket) (mercuryURL : string) : W DataPacket :=
  if negb (IsEncrypted pkt) then Ok pkt else DecryptPacketV15 pkt mercuryURL.

Definition decompressData : Decompressor codec_error := DecompressDataForTdtpWithAlgo.

Definition parseAndDecryptBrokerMessage (raw mercuryURL : string) : W DataPacket :=
  xmlData ← decryptLegacyBlobIfNeeded raw mercuryURL;
  pkt ← parse (ParseBytes unmarshal_packet xmlData);
  pkt ← decryptV15PacketIfNeeded pkt mercuryURL;
  pkt ← (if IsCompressed pkt then parse (DecompressData decompressData pkt) else Ok pkt);
  if d_Compact (p_Data pkt) then parse (expand pkt) else Ok pkt.
End Wire.

(** ** Lemmas *)

Section WireLemmas.
Context {G : Gcm} {LG : GcmLaws G} {X : SectionXml} {K : Codec} {LK : CodecLaws K} {XmlError : Type}.

(** The compressed packet: the original with its rows in one block, or untouched when there are none. *)
Lemma compressPacketData_inv (p c : DataPacket) (level : Z) (algo : string) (chk : bool) :
  compressPacketData p level algo chk = Ok c ->
  let m := MaterializeRows p in
  d_Rows (p_Data m) = [] /\ c = m
  \/ d_Rows (p_Data m) <> [] /\ exists algo' compressed k, algo' <> ""
     /\ CompressDataForTdtpAlgo (map r_Value (d_Rows (p_Data m))) algo' level = Ok compressed
     /\ c = set_p_Data (set_d_Rows [MkRow compressed] (set_d_Compression algo' (set_d_Checksum k (p_Data m)))) m.
Proof.
  intros H m. unfold compressPacketData in H. fold m in H.
  destruct (length (d_Rows (p_Data m)) =? 0)%nat eqn:E0.
  { left. apply Nat.eqb_eq, length_zero_iff_nil in E0. by injection H as <-. }
  right. split; [intros E; by rewrite E in E0|].
  set (algo' := if String.eqb algo "" then AlgoZstd else algo) in H.
  destruct (CompressDataForTdtpAlgo _ _ _) as [z|] eqn:Ec; [|done]. cbn [mbind result_bind] in H. injection H as <-.
  assert (Ha : algo' <> "") by (unfold algo'; by destruct (String.eqb_spec algo "")).
  exists algo', z, (if chk then ComputeChecksum z else d_Checksum (p_Data m)). split_and!; [done..|].
  destruct chk; [done|]. by destruct m as [? ? ? ? ? ? ? ? [] ? ?].
Qed.

(** Encryption and compression keep a packet acceptable to the parser. *)
Lemma encrypted_valid (nonces : nat -> option string) (key : string) (c e : DataPacket) :
  good_nonces nonces -> EncryptSections nonces key c = Ok e -> valid_packet (MaterializeRows c) -> valid_packet e.
Proof.
  intros Hg He [? ? ? ? ? ? ? ? ? ?].
  apply EncryptSections_inv in He as (qc' & s_enc & d_enc & s_pt & _ & -> & _); [|done].
  split; simpl; try done.
Qed.

Lemma compressed_valid (p c : DataPacket) (level : Z) (algo : string) (chk : bool) :
  compressPacketData p level algo chk = Ok c -> valid_packet (MaterializeRows p) -> valid_packet c.
Proof.
  intros H Hv. apply compressPacketData_inv in H. set (m := MaterializeRows p) in *.
  destruct H as [[_ ->]|(Hne & algo' & z & k & Ha & _ & ->)]; [done|].
  destruct Hv as [? ? ? ? ? ? ? ? Hs ?]. split; simpl; try done; auto.
Qed.

Lemma compressed_rawRows (p c : DataPacket) (level : Z) (algo : string) (chk : bool) :
  compressPacketData p level algo chk = Ok c -> p_rawRows c = p_rawRows (MaterializeRows p).
Proof. intros H. apply compressPacketData_inv in H as [[_ ->]|(_ & ? & ? & ? & _ & _ & ->)]; done. Qed.

(** The packet the receiver ends up with, before the expansion of the compact form. *)
Definition delivered (m : DataPacket) (checksum : string) : DataPacket :=
  set_p_Version "1.5" (set_p_Data (set_d_Checksum checksum (p_Data m)) m).

(** Decompressing what was compressed, on the receiver's path. *)
Lemma decompress_delivers (p c : DataPacket) (level : Z) (algo : string) (chk : bool) :
  compressPacketData p level algo chk = Ok c ->
  let m := MaterializeRows p in
  ready_to_compress m -> map r_Value (d_Rows (p_Data m)) <> [""] ->
  exists k, (if IsCompressed (set_p_Version "1.5" c)
             then parse (DecompressData (XmlError := XmlError) decompressData (set_p_Version "1.5" c))
             else Ok (set_p_Version "1.5" c)) = Ok (delivered m k).
Proof.
  intros H m (Hc & Hk & _ & Hlf) Hne. apply compressPacketData_inv in H. fold m in H.
  destruct H as [[_ ->]|(Hnil & algo' & z & k & Ha & Hz & ->)].
  - exists "". unfold IsCompressed. simpl. rewrite Hc. simpl. do 2 f_equal. unfold delivered. rewrite <- Hk.
    by destruct m as [? ? ? ? ? ? ? ? [] ? ?].
  - exists k. unfold IsCompressed, DecompressData. simpl. apply String.eqb_neq in Ha. rewrite Ha. simpl.
    unfold decompressData. change DecompressDataForTdtpWithAlgo with DecompressDataForTdtpAlgo.
    rewrite (decompress_compress_rows _ _ _ _ Hz); [|by destruct (d_Rows (p_Data m))|done|by apply Forall_map].
    simpl. rewrite map_map, (map_ext (fun r => MkRow (r_Value r)) id), map_id by (by intros []).
    unfold delivered. destruct m as [? ? ? ? ? ? ? ? [] ? ?]; simpl in *. by subst.
Qed.
End WireLemmas.

Definition text_column (name : string) : Field := MkField name "TEXT" 0 0 0 false "" "" false false None "".

(** ** Properties *)

(** C4. End to end: a packet that is compressed, then encrypted by sections under the key xZMercury
    holds for its message id, and then arrives as XML that decodes to it, is delivered by
    [parseAndDecryptBrokerMessage] as the packet the producer had, row for row and with its schema,
    header and query, as version 1.5 and with its compact form expanded when it had one; the checksum
    attribute alone may differ.  The conditions: the packet, its rows materialized, is one the parser
    accepts; it is not compressed yet, carries no checksum and no encrypted section, and its row count in
    the header is zero or right; no row contains a line feed, and the rows are not a single empty row; the
    XML of its sections reads back; nonces have the length of GCM nonces; the message does not look like an
    encrypted file, and an xZMercury address is given. *)
Theorem broker_message_delivers {G : Gcm} {LG : GcmLaws G} {X : SectionXml} {K : Codec} {LK : CodecLaws K}
    {XmlError : Type} (unmarshal_packet : string -> result XmlError DataPacket) (retrieve : string -> option string)
    (nonces : nat -> option string) (p c e : DataPacket) (level : Z) (algo key keyB64 raw url : string) (chk : bool) :
  let m := MaterializeRows p in
  p_rawRows m = [] -> valid_packet m -> ready_to_compress m -> map r_Value (d_Rows (p_Data m)) <> [""] ->
  compressPacketData p level algo chk = Ok c ->
  good_nonces nonces -> plain_packet c -> xml_reads_back c -> EncryptSections nonces key c = Ok e ->
  retrieve (h_MessageID (p_Header e)) = Some keyB64 -> b64_decode keyB64 = Some key -> url <> "" ->
  IsEncryptedBlob raw = false -> unmarshal_packet raw = Ok e ->
  exists k, parseAndDecryptBrokerMessage unmarshal_packet retrieve raw url =
    if d_Compact (p_Data m) then parse (expand (delivered m k)) else Ok (delivered m k).
Proof.
  intros m Hraw Hv Hr Hne Hc Hg Hp Hx He Hret Hkey Hurl Hblob Hun.
  assert (Hmc : MaterializeRows c = c).
  { pose proof (compressed_rawRows _ _ _ _ _ Hc) as Ec. fold m in Ec. unfold MaterializeRows. by rewrite Ec, Hraw. }
  pose proof (compressed_valid _ _ _ _ _ Hc Hv) as Hvc. rewrite <- Hmc in Hvc.
  pose proof (encrypted_valid _ _ _ _ Hg He Hvc) as Hve. rewrite <- Hmc in Hp, Hx.
  pose proof (EncryptSections_decrypts _ _ _ _ Hg Hp Hx He) as Hd. rewrite Hmc in Hd.
  destruct (EncryptSections_inv _ _ _ _ Hg He) as (qc' & s_enc & d_enc & s_pt & Hk & Ee & _).
  assert (Hi : IsEncrypted e = true) by (by rewrite Ee).
  unfold parseAndDecryptBrokerMessage, decryptLegacyBlobIfNeeded. rewrite Hblob. cbn [negb mbind result_bind].
  unfold ParseBytes. rewrite Hun. rewrite (proj2 (validatePacket_ok e) Hve). cbn [parse mbind result_bind].
  unfold decryptV15PacketIfNeeded. rewrite Hi. cbn [negb]. unfold DecryptPacketV15, check_.
  apply String.eqb_neq in Hurl. rewrite Hurl.
  pose proof (vp_id _ Hve) as Hid. apply String.eqb_neq in Hid. rewrite Hid.
  unfold retrieve_key. rewrite Hret. unfold DecodeKey, check_. rewrite Hkey, Hk. cbn [mbind result_bind].
  rewrite Hd. cbn [crypto mbind result_bind].
  destruct (decompress_delivers (XmlError := XmlError) p c level algo chk Hc Hr Hne) as [k E]. exists k.
  rewrite E. reflexivity.
Qed.

Definition demo_wire : DataPacket :=
  set_p_Schema (set_s_Fields [text_column "k"; text_column "v"] zero_Schema)
    (set_p_rawRows [["a"; "1"]; ["b"; "2"]] (NewDataPacket "550e8400" 1 TypeReference "t")).
Definition demo_compressed : DataPacket :=
  match compressPacketData (K := demo_codec) demo_wire 3 "zstd" true with Ok c => c | Err _ => demo_wire end.
Definition demo_wire_X : SectionXml :=
  demo_sections (p_Schema demo_wire) (encrypted_context "") (d_Rows (p_Data demo_compressed)).
Definition demo_encrypted : DataPacket :=
  match EncryptSections (G := demo_gcm) (X := demo_wire_X) (fun _ => Some demo_nonce) demo_key demo_compressed with
  | Ok e => e | Err _ => demo_compressed end.

Lemma broker_message_delivers_witness :
  exists k, parseAndDecryptBrokerMessage (G := demo_gcm) (X := demo_wire_X) (K := demo_codec)
    (fun _ : string => Ok (E := unit) demo_encrypted) (fun _ => Some (b64_encode demo_key)) "<xml/>" "http://mercury"
  = Ok (delivered (MaterializeRows demo_wire) k).
Proof.
  apply (broker_message_delivers (G := demo_gcm) (X := demo_wire_X) (K := demo_codec)
    (fun _ : string => Ok (E := unit) demo_encrypted) (fun _ => Some (b64_encode demo_key)) (fun _ => Some demo_nonce)
    demo_wire demo_compressed demo_encrypted 3 "zstd" demo_key (b64_encode demo_key) "<xml/>" "http://mercury" true).
  - reflexivity.
  - apply validatePacket_ok. vm_compute. reflexivity.
  - split_and!; try reflexivity; [by left|by repeat constructor].
  - discriminate.
  - vm_compute. reflexivity.
  - by intros n x [= <-].
  - by repeat split.
  - split; [done|by exists "<Schema/>"|vm_compute; reflexivity].
  - vm_compute. reflexivity.
  - reflexivity.
  - apply b64_decode_encode.
  - discriminate.
  - reflexivity.
  - reflexivity.
Defined.
