(* ===== verification/DictionaryV14.v ===== *)
(** * The v1.4 dictionary

    [src/pkg/core/packet/dictionary.go]: short tokens ([@W3]) stand for long cell values.
    [ValidateDictionary] checks the protocol's invariants, [ExpandDictionary] and [ContractDictionary]
    translate one cell, [DictExpander] a whole row text, [Downgrade] a packet.  The theorems: the
    validator decides the invariants, contraction and expansion are inverse exactly where they can be,
    the precompiled expander agrees with the per-cell one, and downgrading is what a reader expects on
    rows that need no escaping; on rows that do, it is not. *)

From Stdlib Require Import ZArith Lia Ascii String.
From stdpp Require Import base list strings gmap.
From S2P Require Import Prelude PacketTypes RowCodec PacketOps.

Definition MaxDictEntries : nat := 256.
Definition MaxDictShortLength : nat := 16.
Definition MaxDictFullLength : nat := 4096.

(** ** Tokens: [^@[A-Za-z][A-Za-z0-9_]*$] *)

Definition IsDictToken (s : string) : bool :=
  match s with
  | String at_ (String c rest) => Ascii.eqb at_ "@" && is_ascii_letter c && all_bytes is_word_byte rest
  | _ => false
  end.

(** ** Validation *)

Inductive dict_error :=
| DictTooManyEntries (n : nat)
| DictInvalidShort (i : nat) (short : string)
| DictShortTooLong (i : nat) (short : string)
| DictFullTooLong (i : nat) (short : string)
| DictDuplicateShort (short : string)
| DictDuplicateFull (full : string).

Fixpoint validate_entries (i : nat) (seenShort seenFull : gset string) (entries : list DictEntry)
    : result dict_error unit :=
  match entries with
  | [] => Ok ()
  | e :: rest =>
      fail_if negb (IsDictToken (de_Short e)) with DictInvalidShort i (de_Short e) ;;
      fail_if (MaxDictShortLength <? String.length (de_Short e))%nat with DictShortTooLong i (de_Short e) ;;
      fail_if (MaxDictFullLength <? String.length (de_Full e))%nat with DictFullTooLong i (de_Short e) ;;
      fail_if bool_decide (de_Short e ∈ seenShort) with DictDuplicateShort (de_Short e) ;;
      fail_if bool_decide (de_Full e ∈ seenFull) with DictDuplicateFull (de_Full e) ;;
      validate_entries (S i) ({[de_Short e]} ∪ seenShort) ({[de_Full e]} ∪ seenFull) rest
  end.

Definition ValidateDictionary (entries : list DictEntry) : result dict_error unit :=
  fail_if (MaxDictEntries <? length entries)%nat with DictTooManyEntries (length entries) ;;
  validate_entries 0 ∅ ∅ entries.

(** ** Cells *)

Fixpoint lookup_short (entries : list DictEntry) (cell : string) : string :=
  match entries with
  | [] => cell
  | e :: rest => if String.eqb (de_Short e) cell then de_Full e else lookup_short rest cell
  end.
Definition ExpandDictionary (entries : list DictEntry) (cell : string) : string :=
  if negb (IsDictToken cell) then cell else lookup_short entries cell.

Fixpoint ContractDictionary (entries : list DictEntry) (cell : string) : string :=
  match entries with
  | [] => cell
  | e :: rest => if String.eqb (de_Full e) cell then de_Short e else ContractDictionary rest cell
  end.

(** ** Rows and packets *)

Record DictExpander := MkDictExpander { dx_intern : gmap string string; dx_hasAt : bool }.

Definition NewDictExpander (d : option Dictionary) : DictExpander :=
  match d with
  | Some (MkDictionary ((_ :: _) as es)) =>
      MkDictExpander (foldl (fun m e => <[de_Short e := de_Full e]> m) ∅ es) true
  | _ => MkDictExpander ∅ false
  end.

#[global] Arguments NewDictExpander : simpl never.

(** One cell of [ExpandRow]'s loop: the new cell and whether it changed. *)
Definition expand_cell (m : gmap string string) (c : string) : string * bool :=
  match c with
  | String a (String b _) =>
      if negb (Ascii.eqb a "@") || Ascii.eqb b "@" then (c, false)
      else match m !! c with Some full => (full, true) | None => (c, false) end
  | _ => (c, false)
  end.

Definition ExpandRow (e : DictExpander) (s : string) : string :=
  if negb (dx_hasAt e) || (size (dx_intern e) =? 0)%nat then s
  else if negb (has_byte "@" s) then s
  else
    let cells := map (expand_cell (dx_intern e)) (Split s PIPE) in
    if negb (existsb snd cells) then s else Join (map fst cells) (chr PIPE).

Definition Downgrade (pkt : DataPacket) : DataPacket :=
  match s_Dictionary (p_Schema pkt) with
  | Some (MkDictionary (_ :: _)) =>
      let exp := NewDictExpander (s_Dictionary (p_Schema pkt)) in
      let pkt := MaterializeRows pkt in
      let rows := map (fun row => MkRow (ExpandRow exp (r_Value row))) (d_Rows (p_Data pkt)) in
      set_p_Version "1.3.1"
        (set_p_Schema (set_s_Dictionary None (p_Schema pkt))
           (set_p_Data (set_d_Rows rows (p_Data pkt)) pkt))
  | _ => pkt
  end.

(** ** Lemmas: validation *)

(** The protocol's invariants on one entry. *)
Definition entry_ok (e : DictEntry) : Prop :=
  IsDictToken (de_Short e) = true
  /\ String.length (de_Short e) <= MaxDictShortLength
  /\ String.length (de_Full e) <= MaxDictFullLength.

Definition dict_ok (entries : list DictEntry) : Prop :=
  length entries <= MaxDictEntries /\ Forall entry_ok entries
  /\ NoDup (map de_Short entries) /\ NoDup (map de_Full entries).

Lemma validate_entries_spec (i : nat) (ss sf : gset string) (entries : list DictEntry) :
  validate_entries i ss sf entries = Ok ()
  <-> Forall entry_ok entries
      /\ (NoDup (map de_Short entries) /\ Forall (fun x => x ∉ ss) (map de_Short entries))
      /\ (NoDup (map de_Full entries) /\ Forall (fun x => x ∉ sf) (map de_Full entries)).
Proof.
  revert i ss sf; induction entries as [|e es IH]; intros i ss sf; simpl.
  { split; [intros _; repeat constructor | done]. }
  unfold check_, entry_ok at 1.
  destruct (IsDictToken (de_Short e)) eqn:E1; simpl;
    [|split; [done|]; intros [H _]; apply Forall_cons in H as [[H _] _]; congruence].
  destruct (Nat.ltb_spec MaxDictShortLength (String.length (de_Short e)));
    [split; [done|]; intros [H' _]; apply Forall_cons in H' as [(_ & ? & _) _]; lia|].
  destruct (Nat.ltb_spec MaxDictFullLength (String.length (de_Full e)));
    [split; [done|]; intros [H' _]; apply Forall_cons in H' as [(_ & _ & ?) _]; lia|].
  case_bool_decide as Hs; [split; [done|]; intros (_ & [_ H'] & _); by apply Forall_cons in H' as [? _]|].
  case_bool_decide as Hf; [split; [done|]; intros (_ & _ & [_ H']); by apply Forall_cons in H' as [? _]|].
  rewrite IH, !Forall_cons, !NoDup_cons, !Forall_forall. clear IH. unfold entry_ok.
  setoid_rewrite not_elem_of_union. setoid_rewrite not_elem_of_singleton.
  split; [|naive_solver].
  intros (A & (B & C) & (D & F)). split; [naive_solver|].
  split; (split; [split; [|done]|split; [done|]]; naive_solver).
Qed.

Lemma ValidateDictionary_ok (entries : list DictEntry) :
  ValidateDictionary entries = Ok () <-> dict_ok entries.
Proof.
  unfold ValidateDictionary, check_, dict_ok.
  destruct (Nat.ltb_spec MaxDictEntries (length entries)).
  - split; [done|]. intros [? _]. lia.
  - rewrite validate_entries_spec, !Forall_forall. split; [naive_solver|].
    intros (_ & A & B & C). split; [done|]. split; (split; [done|]); intros; apply not_elem_of_empty.
Qed.

(** ** Lemmas: cells *)

Lemma lookup_short_not_in (entries : list DictEntry) (cell : string) :
  cell ∉ map de_Short entries -> lookup_short entries cell = cell.
Proof.
  induction entries as [|e es IH]; simpl; [done|]. rewrite not_elem_of_cons. intros [H1 H2].
  destruct (String.eqb_spec (de_Short e) cell); [congruence|auto].
Qed.

Lemma lookup_short_in (entries : list DictEntry) (e : DictEntry) :
  NoDup (map de_Short entries) -> e ∈ entries -> lookup_short entries (de_Short e) = de_Full e.
Proof.
  induction entries as [|d es IH]; simpl; [by intros _ ?%elem_of_nil|].
  rewrite NoDup_cons, elem_of_cons. intros [Hd Hn] [->|He]; [by rewrite String.eqb_refl|].
  destruct (String.eqb_spec (de_Short d) (de_Short e)) as [Eq|]; [|auto].
  destruct Hd. rewrite Eq. apply list_elem_of_fmap. eauto.
Qed.

Lemma contract_not_in (entries : list DictEntry) (cell : string) :
  cell ∉ map de_Full entries -> ContractDictionary entries cell = cell.
Proof.
  induction entries as [|e es IH]; simpl; [done|]. rewrite not_elem_of_cons. intros [H1 H2].
  destruct (String.eqb_spec (de_Full e) cell); [congruence|auto].
Qed.

Lemma contract_in (entries : list DictEntry) (e : DictEntry) :
  NoDup (map de_Full entries) -> e ∈ entries -> ContractDictionary entries (de_Full e) = de_Short e.
Proof.
  induction entries as [|d es IH]; simpl; [by intros _ ?%elem_of_nil|].
  rewrite NoDup_cons, elem_of_cons. intros [Hd Hn] [->|He]; [by rewrite String.eqb_refl|].
  destruct (String.eqb_spec (de_Full d) (de_Full e)) as [Eq|]; [|auto].
  destruct Hd. rewrite Eq. apply list_elem_of_fmap. eauto.
Qed.

Section ValidDictionary.
Context (entries : list DictEntry) (Hok : dict_ok entries).

Lemma dict_token (e : DictEntry) : e ∈ entries -> IsDictToken (de_Short e) = true.
Proof. destruct Hok as (_ & H & _). rewrite Forall_forall in H. intros ?. by apply H. Qed.

Lemma expand_in (e : DictEntry) : e ∈ entries -> ExpandDictionary entries (de_Short e) = de_Full e.
Proof.
  intros He. unfold ExpandDictionary. rewrite dict_token by done. simpl.
  apply lookup_short_in; [|done]. by destruct Hok as (_ & _ & ? & _).
Qed.

Lemma expand_not_in (cell : string) :
  cell ∉ map de_Short entries -> ExpandDictionary entries cell = cell.
Proof.
  intros H. unfold ExpandDictionary. case_match; [done|]. by apply lookup_short_not_in.
Qed.

Lemma contract_full_in (e : DictEntry) :
  e ∈ entries -> ContractDictionary entries (de_Full e) = de_Short e.
Proof. apply contract_in. by destruct Hok as (_ & _ & _ & ?). Qed.

Lemma expand_contract_iff (cell : string) :
  ExpandDictionary entries (ContractDictionary entries cell) = cell
  <-> cell ∈ map de_Full entries \/ cell ∉ map de_Short entries.
Proof.
  destruct (decide (cell ∈ map de_Full entries)) as [Hf|Hf].
  - split; [by left|]. intros _. apply list_elem_of_fmap in Hf as (e & -> & He).
    by rewrite contract_full_in, expand_in.
  - rewrite contract_not_in by done. split.
    + intros H. right. intros Hs. apply list_elem_of_fmap in Hs as (e & -> & He).
      rewrite expand_in in H by done. apply Hf. apply list_elem_of_fmap. exists e. by rewrite H.
    + intros [|H]; [done|]. by apply expand_not_in.
Qed.

Lemma intern_lookup (cell : string) :
  foldl (fun m e => <[de_Short e := de_Full e]> m) (∅ : gmap string string) entries !! cell
  = if decide (cell ∈ map de_Short entries) then Some (lookup_short entries cell) else None.
Proof.
  destruct Hok as (_ & _ & Hs & _). clear Hok.
  assert (forall m : gmap string string,
    foldl (fun m e => <[de_Short e := de_Full e]> m) m entries !! cell
    = if decide (cell ∈ map de_Short entries) then Some (lookup_short entries cell) else m !! cell) as H;
    [|by rewrite H, lookup_empty].
  induction entries as [|e es IH]; intros m; simpl; [done|].
  simpl in Hs. rewrite NoDup_cons in Hs. destruct Hs as [Hn Hs].
  rewrite (IH Hs). destruct (String.eqb_spec (de_Short e) cell) as [E|Hne].
  - subst cell. rewrite decide_False, decide_True, lookup_insert_eq by (first [done | apply elem_of_cons; by left]). done.
  - rewrite lookup_insert_ne by done. destruct (decide (cell ∈ map de_Short es)).
    + by rewrite decide_True by (apply elem_of_cons; auto).
    + rewrite decide_False; [done|]. apply not_elem_of_cons. split; [congruence|done].
Qed.

Lemma token_shape (s : string) :
  IsDictToken s = true -> exists c rest, s = String "@" (String c rest) /\ Ascii.eqb c "@" = false.
Proof.
  destruct s as [|a [|c rest]]; simpl; try done. intros H.
  destruct (Ascii.eqb_spec a "@") as [->|]; [|done]. exists c, rest. split; [done|].
  destruct (Ascii.eqb_spec c "@") as [->|]; done.
Qed.

(** The precompiled lookup agrees with the per-cell function. *)
Lemma expand_cell_spec (c : string) :
  fst (expand_cell (foldl (fun m e => <[de_Short e := de_Full e]> m) ∅ entries) c)
  = ExpandDictionary entries c.
Proof.
  destruct (decide (c ∈ map de_Short entries)) as [Hin|Hn].
  - apply list_elem_of_fmap in Hin as (e & -> & He).
    rewrite expand_in by done. pose proof (dict_token e He) as Ht.
    destruct (token_shape _ Ht) as (d & rest & E & Ed). unfold expand_cell. rewrite E, Ed. simpl.
    rewrite <- E, intern_lookup, decide_True by (apply list_elem_of_fmap; eauto). simpl.
    apply lookup_short_in; [|done]. by destruct Hok as (_ & _ & ? & _).
  - rewrite expand_not_in by done. unfold expand_cell.
    destruct c as [|a [|b c]]; try done. case_match; [done|].
    rewrite intern_lookup, decide_False by done. done.
Qed.
End ValidDictionary.

(** ** Lemmas: rows *)

Lemma split_from_has_byte (c sep : ascii) (cur s : string) :
  has_byte c cur = false -> has_byte c s = false ->
  Forall (fun x => has_byte c x = false) (split_from sep cur s).
Proof.
  revert cur; induction s as [|d s IH]; intros cur Hcur Hs; simpl in *; [by repeat constructor|].
  apply orb_false_iff in Hs as [Hd Hs]. destruct (Ascii.eqb d sep); [constructor; [done|]|]; apply IH; try done.
  rewrite has_byte_app. simpl. by rewrite Hcur, Hd.
Qed.

Lemma split_from_no_sep (sep : ascii) (cur s : string) :
  has_byte sep cur = false -> Forall (fun x => has_byte sep x = false) (split_from sep cur s).
Proof.
  revert cur; induction s as [|d s IH]; intros cur Hcur; simpl in *; [by repeat constructor|].
  destruct (Ascii.eqb d sep) eqn:E; [constructor; [done|]; by apply IH|]. apply IH.
  rewrite has_byte_app. simpl. by rewrite Hcur, E.
Qed.

Lemma expand_cell_unchanged (m : gmap string string) (c : string) :
  snd (expand_cell m c) = false \/ has_byte "@" c = false \/ m = ∅ -> fst (expand_cell m c) = c.
Proof.
  unfold expand_cell. destruct c as [|a [|b c]]; try done.
  destruct (Ascii.eqb a "@") eqn:Ea; simpl; [|done]. destruct (Ascii.eqb b "@"); [done|].
  destruct (m !! _) eqn:Em; [|done]. simpl. rewrite Ea. by intros [?|[?| ->]].
Qed.

Lemma map_expand_unchanged (m : gmap string string) (s : string) :
  Forall (fun c => fst (expand_cell m c) = c) (Split s PIPE) ->
  Join (map fst (map (expand_cell m) (Split s PIPE))) (chr PIPE) = s.
Proof.
  intros H. rewrite map_map. rewrite <- (Join_Split PIPE s) at 2. f_equal.
  induction H as [|c l Hc _ IH]; simpl; [done|]. by rewrite Hc, IH.
Qed.

(** The shortcuts of [ExpandRow] are only optimisations. *)
Lemma ExpandRow_map (m : gmap string string) (s : string) :
  ExpandRow (MkDictExpander m true) s = Join (map fst (map (expand_cell m) (Split s PIPE))) (chr PIPE).
Proof.
  unfold ExpandRow; simpl. destruct (Nat.eqb_spec (size m) 0) as [Hm|_].
  { apply map_size_empty_inv in Hm. symmetry. apply map_expand_unchanged, Forall_true.
    intros c. apply expand_cell_unchanged. auto. }
  destruct (has_byte "@" s) eqn:Hat; simpl.
  - destruct (existsb snd (map (expand_cell m) (Split s PIPE))) eqn:E; simpl; [done|].
    symmetry. apply map_expand_unchanged. apply Forall_forall. intros c Hc. apply expand_cell_unchanged.
    left. apply not_true_is_false. intros Hs. apply not_true_iff_false in E. apply E, existsb_exists.
    exists (expand_cell m c). split; [apply in_map; by apply list_elem_of_In|done].
  - symmetry. apply map_expand_unchanged. eapply Forall_impl; [apply (split_from_has_byte "@" PIPE "" s)|]; try done.
    intros c Hc. apply expand_cell_unchanged. auto.
Qed.

Lemma ExpandRow_spec (entries : list DictEntry) (s : string) :
  dict_ok entries ->
  ExpandRow (NewDictExpander (Some (MkDictionary entries))) s
  = Join (map (ExpandDictionary entries) (Split s PIPE)) (chr PIPE).
Proof.
  intros Hok. destruct entries as [|e es].
  - unfold NewDictExpander, ExpandRow. simpl. rewrite <- (Join_Split PIPE s) at 1. f_equal.
    symmetry. rewrite <- (map_id (Split s PIPE)) at 2. apply map_ext. intros c.
    unfold ExpandDictionary. by case_match.
  - unfold NewDictExpander. rewrite ExpandRow_map, map_map. f_equal. apply map_ext.
    by apply expand_cell_spec.
Qed.

(** Bytes that the row format never has to escape. *)
Definition plain_cell (c : string) : Prop := has_byte BSLASH c = false /\ has_byte PIPE c = false.

Lemma GetRowValues_plain (cells : list string) :
  cells <> [] -> Forall plain_cell cells -> GetRowValues (MkRow (Join cells (chr PIPE))) = cells.
Proof.
  intros Hne H. unfold GetRowValues; simpl.
  rewrite Join_has_byte; [|done|eapply Forall_impl; [exact H|]; by intros x [? _]]. simpl.
  apply Split_Join; [done|]. eapply Forall_impl; [exact H|]. by intros x [_ ?].
Qed.

Definition plain_fulls (entries : list DictEntry) : Prop := Forall plain_cell (map de_Full entries).

Lemma expand_plain (entries : list DictEntry) (c : string) :
  dict_ok entries -> plain_fulls entries -> plain_cell c -> plain_cell (ExpandDictionary entries c).
Proof.
  intros Hok Hf Hc. destruct (decide (c ∈ map de_Short entries)) as [Hin|Hn].
  - apply list_elem_of_fmap in Hin as (e & -> & He). rewrite expand_in by done.
    unfold plain_fulls in Hf. rewrite Forall_forall in Hf. apply Hf. apply list_elem_of_fmap. eauto.
  - by rewrite expand_not_in.
Qed.

Lemma map_not_nil {A B} (f : A -> B) (l : list A) : l <> [] -> map f l <> [].
Proof. by destruct l. Qed.

Lemma ExpandRow_reads (entries : list DictEntry) (s : string) :
  dict_ok entries -> plain_fulls entries -> has_byte BSLASH s = false ->
  GetRowValues (MkRow (ExpandRow (NewDictExpander (Some (MkDictionary entries))) s))
  = map (ExpandDictionary entries) (GetRowValues (MkRow s)).
Proof.
  intros Hok Hf Hs. rewrite ExpandRow_spec by done. unfold GetRowValues at 2; simpl. rewrite Hs; simpl.
  apply GetRowValues_plain; [apply map_not_nil, split_from_nonempty|].
  apply Forall_map. eapply Forall_impl.
  - apply Forall_and. split; [apply (split_from_has_byte BSLASH PIPE "" s) | apply (split_from_no_sep PIPE "" s)]; done.
  - intros c [? ?]. by apply expand_plain.
Qed.

(** ** Properties *)

(** [ValidateDictionary] accepts exactly the dictionaries the protocol allows: at most 256
    entries, every short a token of at most 16 bytes, every full value at most 4096 bytes, no short
    and no full value twice. *)
Theorem validate_dictionary_correct (entries : list DictEntry) :
  ValidateDictionary entries = Ok () <-> dict_ok entries.
Proof. apply ValidateDictionary_ok. Qed.

(** Contraction and expansion under a validated dictionary: expanding a token and contracting
    the result gives the token; contracting a cell and expanding the result gives the cell back if and
    only if the cell is a full value of the dictionary or is not one of its tokens. *)
Theorem dictionary_roundtrip (entries : list DictEntry) (e : DictEntry) (cell : string) :
  ValidateDictionary entries = Ok () -> e ∈ entries ->
  ContractDictionary entries (ExpandDictionary entries (de_Short e)) = de_Short e
  /\ (ExpandDictionary entries (ContractDictionary entries cell) = cell
      <-> cell ∈ map de_Full entries \/ cell ∉ map de_Short entries).
Proof.
  intros Hok He. apply ValidateDictionary_ok in Hok. split.
  - rewrite expand_in by done. by apply contract_full_in.
  - by apply expand_contract_iff.
Qed.

Definition demo_dict : list DictEntry :=
  [MkDictEntry "@W3" "http://www.w3.org/2001/XMLSchema"; MkDictEntry "@E" "EPSG:4326"].

Lemma dictionary_roundtrip_witness :
  ContractDictionary demo_dict (ExpandDictionary demo_dict "@E") = "@E".
Proof.
  apply (dictionary_roundtrip demo_dict (MkDictEntry "@E" "EPSG:4326") "");
    [vm_compute; reflexivity | set_solver].
Defined.

(** The precompiled row expander is equivalent to the reference: for a validated dictionary,
    [DictExpander.ExpandRow] is [ExpandDictionary] applied to every piece of the row between pipes,
    whichever of its shortcuts it takes. *)
Theorem dict_expander_equivalent (entries : list DictEntry) (s : string) :
  ValidateDictionary entries = Ok () ->
  ExpandRow (NewDictExpander (Some (MkDictionary entries))) s
  = Join (map (ExpandDictionary entries) (Split s PIPE)) (chr PIPE).
Proof. intros H. apply ExpandRow_spec. by apply ValidateDictionary_ok. Qed.

Lemma dict_expander_equivalent_witness :
  ExpandRow (NewDictExpander (Some (MkDictionary demo_dict))) "1|@E|x@E" = "1|EPSG:4326|x@E".
Proof. apply (dict_expander_equivalent demo_dict "1|@E|x@E"). vm_compute. reflexivity. Defined.

(** [Downgrade] does what a reader expects on rows without escapes: when the rows sit in one
    place, no stored row text contains a backslash and no full value contains a backslash or a pipe,
    the downgraded packet reads as the same table with every cell expanded, carries no dictionary and
    has version 1.3.1. *)
Theorem downgrade_expands_cells (p : DataPacket) (entries : list DictEntry) :
  s_Dictionary (p_Schema p) = Some (MkDictionary entries) -> entries <> [] ->
  ValidateDictionary entries = Ok () -> plain_fulls entries ->
  rows_in_one_place p -> good_rows (GetRows p) ->
  Forall (fun r => has_byte BSLASH (r_Value r) = false) (d_Rows (p_Data (MaterializeRows p))) ->
  GetRows (Downgrade p) = map (map (ExpandDictionary entries)) (GetRows p)
  /\ s_Dictionary (p_Schema (Downgrade p)) = None /\ p_Version (Downgrade p) = "1.3.1".
Proof.
  intros Hd Hne Hv Hf Hloc Hg Hb. apply ValidateDictionary_ok in Hv.
  destruct (MaterializeRows_one_place p Hloc Hg) as [Hraw Hrows].
  unfold Downgrade. rewrite Hd. destruct entries as [|e es]; [done|].
  split; [|done]. rewrite GetRows_data by exact Hraw. rewrite <- Hrows. unfold ParseRows; simpl.
  rewrite !map_map. apply map_ext_in. intros r Hr. rewrite List.Forall_forall in Hb.
  rewrite (ExpandRow_reads (e :: es) (r_Value r) Hv Hf (Hb _ Hr)). by destruct r.
Qed.

Definition demo_dict_packet : DataPacket :=
  set_p_rawRows [["7"; "@E"]; ["8"; "plain"]]
    (set_p_Schema (set_s_Dictionary (Some (MkDictionary demo_dict)) zero_Schema)
       (NewDataPacket "u" 1 TypeReference "t")).

Lemma downgrade_expands_cells_witness :
  GetRows (Downgrade demo_dict_packet) = [["7"; "EPSG:4326"]; ["8"; "plain"]].
Proof.
  apply (downgrade_expands_cells demo_dict_packet demo_dict); try (vm_compute; reflexivity).
  - discriminate.
  - repeat constructor.
  - by right.
  - by repeat constructor.
  - repeat constructor.
Defined.

Lemma split_escaped_pipe (x short : string) :
  has_byte PIPE x = false -> has_byte PIPE short = false ->
  Split (x +:+ String "\" (String "|" short)) PIPE = [x +:+ "\"; short].
Proof.
  intros Hx Hs. unfold Split. rewrite split_from_app by done. simpl.
  rewrite <- (str_app_nil_r short) at 1. by rewrite split_from_app.
Qed.

Lemma escape_bytes_app (a b : string) : escape_bytes (a +:+ b) = escape_bytes a +:+ escape_bytes b.
Proof. induction a as [|c a IH]; simpl; [done|]. by rewrite IH, str_app_assoc. Qed.

Lemma escape_bytes_no_pipe (v : string) : has_byte PIPE v = false -> has_byte PIPE (escape_bytes v) = false.
Proof.
  induction v as [|c v IH]; simpl; [done|]. intros [Hc H]%orb_false_iff. rewrite has_byte_app, IH by done.
  rewrite Hc. repeat case_match; simpl; try done. by rewrite Hc.
Qed.

Lemma word_bytes_plain (s : string) : all_bytes is_word_byte s = true -> plain_cell s.
Proof.
  unfold plain_cell. induction s as [|c s IH]; simpl; [done|]. intros [Hc H]%andb_true_iff.
  destruct (IH H) as [-> ->]. rewrite !orb_false_r.
  destruct (Ascii.eqb_spec c BSLASH) as [->|]; [done|].
  by destruct (Ascii.eqb_spec c PIPE) as [->|].
Qed.

Lemma token_plain (s : string) : IsDictToken s = true -> plain_cell s.
Proof.
  destruct s as [|a [|c s]]; simpl; try done. intros [[Ha Hc]%andb_true_iff H]%andb_true_iff.
  destruct (word_bytes_plain (String c s)) as [A B].
  { simpl. unfold is_word_byte at 1. by rewrite Hc. }
  apply Ascii.eqb_eq in Ha. subst a. split; simpl; [exact A | exact B].
Qed.

Lemma token_no_special (s : string) : IsDictToken s = true -> hasSpecial s = false.
Proof.
  assert (H : forall s, all_bytes is_word_byte s = true -> hasSpecial s = false).
  { clear. induction s as [|c s IH]; simpl; [done|]. intros [Hc H]%andb_true_iff.
    destruct (Ascii.eqb_spec c BSLASH) as [->|]; [done|].
    destruct (Ascii.eqb_spec c PIPE) as [->|]; [done|].
    destruct (Ascii.eqb_spec c LF) as [->|]; [done|]. by apply IH. }
  destruct s as [|a [|c s]]; simpl; try done. intros [[Ha Hc]%andb_true_iff Hs]%andb_true_iff.
  apply Ascii.eqb_eq in Ha. subst a. simpl. apply (H (String c s)). simpl. unfold is_word_byte at 1.
  by rewrite Hc.
Qed.

(** Expansion is not limited to whole cells: for any validated dictionary, a cell that ends with
    an escaped pipe followed by a registered token is rewritten by [ExpandRow], although the comments
    promise that a token inside a larger cell is left alone. *)
Theorem expand_row_rewrites_inside_cell (entries : list DictEntry) (e : DictEntry) (x : string) :
  ValidateDictionary entries = Ok () -> e ∈ entries ->
  has_byte PIPE x = false -> plain_cell (de_Full e) ->
  GetRowValues (MkRow (JoinRowEscaped [x +:+ "|" +:+ de_Short e])) = [x +:+ "|" +:+ de_Short e]
  /\ GetRowValues (MkRow (ExpandRow (NewDictExpander (Some (MkDictionary entries)))
                            (JoinRowEscaped [x +:+ "|" +:+ de_Short e])))
     = [x +:+ "|" +:+ de_Full e].
Proof.
  intros Hok He Hx [Hf1 Hf2]. apply ValidateDictionary_ok in Hok. split; [by apply GetRowValues_join|].
  pose proof (dict_token entries Hok e He) as Ht. destruct (token_plain _ Ht) as [Hs1 Hs2].
  rewrite JoinRowEscaped_Join. unfold Join; simpl. rewrite escape_bytes_app. simpl.
  rewrite (escape_bytes_plain (de_Short e)) by by apply token_no_special.
  rewrite ExpandRow_spec, split_escaped_pipe by (done || by apply escape_bytes_no_pipe).
  simpl. rewrite expand_in by done. rewrite expand_not_in.
  2:{ intros (d & Hd & Hin)%list_elem_of_fmap. destruct (token_plain _ (dict_token _ Hok _ Hin)) as [H _].
      rewrite <- Hd, has_byte_app, orb_true_r in H. done. }
  rewrite GetRowValues_slow. unfold Join; simpl.
  rewrite str_app_assoc, rowValues_slow_cell. simpl. rewrite rowValues_slow_plain by done.
  rewrite <- (str_app_nil_r (de_Full e)) at 1. rewrite split_from_app by done. simpl.
  by rewrite str_app_assoc.
Qed.

Lemma expand_row_rewrites_inside_cell_witness :
  GetRowValues (MkRow (ExpandRow (NewDictExpander (Some (MkDictionary demo_dict)))
                         (JoinRowEscaped ["see|@E"]))) = ["see|EPSG:4326"].
Proof.
  apply (expand_row_rewrites_inside_cell demo_dict (MkDictEntry "@E" "EPSG:4326") "see").
  - vm_compute. reflexivity.
  - set_solver.
  - done.
  - done.
Defined.
