(* ===== verification/SpecialValuesV131.v ===== *)
(** * Special values (v1.3.1)

    [DetectAndApply] of [src/pkg/core/packet/special_values_detect.go] scans the rows for NULLs, NaN,
    infinities and zero dates, declares a marker for each kind in the schema of the columns where it
    occurs, and rewrites the cells to the canonical markers.  [dDecodeSpecialValues] of
    [src/pkg/python/libtdtp/exports_d.go] turns markers back into raw forms.  The theorems: the decoder
    recovers the meaning of every cell that is not itself a marker, the rewriting touches nothing else,
    and what the rewriting loses. *)

From Stdlib Require Import ZArith Lia Ascii String.
From stdpp Require Import base list strings gmap.
From S2P Require Import Prelude PacketTypes.

Definition SpecNullMarker : string := "[NULL]".
Definition SpecNaNMarker : string := "NaN".
Definition SpecInfMarker : string := "INF".
Definition SpecNegInfMarker : string := "-INF".
Definition SpecNoDateMarker : string := "0000-00-00".
Definition nullSentinel : string := chr NUL.

Definition rawInfinityForms (v : string) : bool :=
  existsb (String.eqb v) ["Inf"; "+Inf"; "Infinity"; "+Infinity"]%string.
Definition rawNegInfinityForms (v : string) : bool :=
  existsb (String.eqb v) ["-Inf"; "-Infinity"]%string.

Section SpecialValues.
Context {C : GoCase}.

Definition isFloatField (fieldType : string) : bool :=
  existsb (String.eqb (ToUpper fieldType))
    ["REAL"; "FLOAT"; "DOUBLE"; "DECIMAL"; "NUMERIC"; "MONEY"; "SMALLMONEY"]%string.
Definition isDateField (fieldType : string) : bool :=
  existsb (String.eqb (ToUpper fieldType))
    ["DATE"; "DATETIME"; "TIMESTAMP"; "DATETIME2"; "DATETIMEOFFSET"; "SMALLDATETIME"]%string.

(** ** Phase 1: detection *)

Record detected := MkDetected {
  hasNull : bool; hasNaN : bool; hasInf : bool; hasNegInf : bool; hasNoDate : bool;
}.
Definition zero_detected : detected := MkDetected false false false false false.

Definition detect_cell (f : Field) (d : detected) (v : string) : detected :=
  if String.eqb v nullSentinel then MkDetected true (hasNaN d) (hasInf d) (hasNegInf d) (hasNoDate d)
  else if isFloatField (f_Type f) then
    if String.eqb v "NaN" then MkDetected (hasNull d) true (hasInf d) (hasNegInf d) (hasNoDate d)
    else if rawInfinityForms v then MkDetected (hasNull d) (hasNaN d) true (hasNegInf d) (hasNoDate d)
    else if rawNegInfinityForms v then MkDetected (hasNull d) (hasNaN d) (hasInf d) true (hasNoDate d)
    else d
  else if isDateField (f_Type f) then
    if String.eqb v SpecNoDateMarker then MkDetected (hasNull d) (hasNaN d) (hasInf d) (hasNegInf d) true
    else if rawInfinityForms v then MkDetected (hasNull d) (hasNaN d) true (hasNegInf d) (hasNoDate d)
    else if rawNegInfinityForms v then MkDetected (hasNull d) (hasNaN d) (hasInf d) true (hasNoDate d)
    else d
  else d.

Fixpoint detect_row (fields : list Field) (det : list detected) (row : list string) : list detected :=
  match fields, det, row with
  | f :: fields', d :: det', v :: row' => detect_cell f d v :: detect_row fields' det' row'
  | _, _, _ => det
  end.

Definition any_detected (d : detected) : bool :=
  hasNull d || hasNaN d || hasInf d || hasNegInf d || hasNoDate d.

(** ** Phase 2: the schema *)

Definition marker_if (b : bool) (m : string) : option MarkerValue :=
  if b then Some (MkMarkerValue m) else None.

Definition update_field (f : Field) (d : detected) : Field :=
  if negb (any_detected d) then f else
  MkField (f_Name f) (f_Type f) (f_Length f) (f_Precision f) (f_Scale f) (f_Key f) (f_Timezone f)
    (f_Subtype f) (f_ReadOnly f) (f_Fixed f)
    (Some (MkSpecialValues (marker_if (hasNull d) SpecNullMarker) (marker_if (hasInf d) SpecInfMarker)
             (marker_if (hasNegInf d) SpecNegInfMarker) (marker_if (hasNaN d) SpecNaNMarker)
             (marker_if (hasNoDate d) SpecNoDateMarker)))
    (f_OriginalName f).

(** ** Phase 3: the cells *)

Definition encode_cell (d : detected) (v : string) : string :=
  if String.eqb v nullSentinel then (if hasNull d then SpecNullMarker else "")
  else if hasInf d && rawInfinityForms v then SpecInfMarker
  else if hasNegInf d && rawNegInfinityForms v then SpecNegInfMarker
  else v.

Fixpoint encode_row (det : list detected) (row : list string) : list string :=
  match det, row with
  | d :: det', v :: row' => encode_cell d v :: encode_row det' row'
  | _, _ => row
  end.

Definition detect_all (rows : list (list string)) (sch : Schema) : list detected :=
  foldl (detect_row (s_Fields sch)) (replicate (length (s_Fields sch)) zero_detected) rows.

Definition DetectAndApply (rows : list (list string)) (sch : Schema) : list (list string) * Schema :=
  if (length rows =? 0)%nat || (length (s_Fields sch) =? 0)%nat then (rows, sch) else
  let det := detect_all rows sch in
  if negb (existsb any_detected det) then (rows, sch) else
  (map (encode_row det) rows,
   MkSchema (zip_with update_field (s_Fields sch) det) None "" "" "").

(** ** exports_d.go: decoding *)

Definition marker_matches (m : option MarkerValue) (v : string) : bool :=
  match m with Some mv => String.eqb v (mv_Marker mv) | None => false end.

Definition decode_cell (f : Field) (v : string) : string :=
  match f_SpecialValues f with
  | None => v
  | Some sv =>
      if marker_matches (sv_Null sv) v then ""
      else if marker_matches (sv_Infinity sv) v then "Infinity"
      else if marker_matches (sv_NegInfinity sv) v then "-Infinity"
      else if marker_matches (sv_NaN sv) v then "NaN"
      else if marker_matches (sv_NoDate sv) v then ""
      else v
  end.

Fixpoint decode_row (fields : list Field) (row : list string) : list string :=
  match fields, row with
  | f :: fields', v :: row' => decode_cell f v :: decode_row fields' row'
  | _, _ => row
  end.

Definition dDecodeSpecialValues (rows : list (list string)) (sch : Schema) : list (list string) :=
  if negb (existsb (fun f => bool_decide (is_Some (f_SpecialValues f))) (s_Fields sch)) then rows
  else map (decode_row (s_Fields sch)) rows.

(** ** Specification: the meaning of a raw cell for a consumer of the C interface *)

Definition meaning (f : Field) (v : string) : string :=
  if String.eqb v nullSentinel then ""
  else if isFloatField (f_Type f) || isDateField (f_Type f) then
    if rawInfinityForms v then "Infinity"
    else if rawNegInfinityForms v then "-Infinity"
    else if negb (isFloatField (f_Type f)) && String.eqb v SpecNoDateMarker then ""
    else v
  else v.

Fixpoint meaning_row (fields : list Field) (row : list string) : list string :=
  match fields, row with
  | f :: fields', v :: row' => meaning f v :: meaning_row fields' row'
  | _, _ => row
  end.

(** A raw cell that is not spelled like a marker the encoder introduces. *)
Definition not_a_marker (v : string) : bool :=
  negb (existsb (String.eqb v) [SpecNullMarker; SpecInfMarker; SpecNegInfMarker]).

(** ** Lemmas *)

(** [d] has seen [v] in column [f]; [d] only has what column [f] can have. *)
Definition covers (f : Field) (d : detected) (v : string) : Prop := detect_cell f d v = d.
Definition sound (f : Field) (d : detected) : Prop :=
  (hasNaN d = true -> isFloatField (f_Type f) = true)
  /\ (hasInf d || hasNegInf d = true -> isFloatField (f_Type f) || isDateField (f_Type f) = true)
  /\ (hasNoDate d = true -> isFloatField (f_Type f) = false /\ isDateField (f_Type f) = true).

Definition det_le (d e : detected) : Prop :=
  (hasNull d = true -> hasNull e = true) /\ (hasNaN d = true -> hasNaN e = true)
  /\ (hasInf d = true -> hasInf e = true) /\ (hasNegInf d = true -> hasNegInf e = true)
  /\ (hasNoDate d = true -> hasNoDate e = true).

Lemma detect_cell_le (f : Field) (d : detected) (v : string) : det_le d (detect_cell f d v).
Proof. unfold detect_cell, det_le. repeat case_match; simpl; auto. Qed.

Lemma det_eq (d e : detected) :
  hasNull d = hasNull e -> hasNaN d = hasNaN e -> hasInf d = hasInf e -> hasNegInf d = hasNegInf e ->
  hasNoDate d = hasNoDate e -> d = e.
Proof. destruct d, e; simpl; congruence. Qed.

Lemma covers_after (f : Field) (d e : detected) (v : string) : det_le (detect_cell f d v) e -> covers f e v.
Proof.
  unfold covers, detect_cell, det_le. intros (H1 & H2 & H3 & H4 & H5).
  repeat case_match; simpl in *; try done; apply det_eq; simpl; try done; symmetry; auto.
Qed.

Lemma detect_cell_sound (f : Field) (d : detected) (v : string) : sound f d -> sound f (detect_cell f d v).
Proof.
  unfold sound, detect_cell. intros (H1 & H2 & H3).
  repeat case_match; simpl in *; rewrite ?orb_true_r; repeat split; try done; intros; auto; try tauto.
Qed.

Lemma rawInfinityForms_inv (v : string) :
  rawInfinityForms v = true -> v = "Inf" \/ v = "+Inf" \/ v = "Infinity" \/ v = "+Infinity".
Proof.
  unfold rawInfinityForms; simpl. rewrite !orb_true_iff, !String.eqb_eq. naive_solver.
Qed.

Lemma rawNegInfinityForms_inv (v : string) :
  rawNegInfinityForms v = true -> v = "-Inf" \/ v = "-Infinity".
Proof.
  unfold rawNegInfinityForms; simpl. rewrite !orb_true_iff, !String.eqb_eq. naive_solver.
Qed.

(** The decoder at a column the encoder has declared. *)
Lemma decode_update (f : Field) (d : detected) (v : string) :
  f_SpecialValues f = None ->
  decode_cell (update_field f d) v =
    if hasNull d && String.eqb v SpecNullMarker then "" else
    if hasInf d && String.eqb v SpecInfMarker then "Infinity" else
    if hasNegInf d && String.eqb v SpecNegInfMarker then "-Infinity" else
    if hasNoDate d && String.eqb v SpecNoDateMarker then "" else v.
Proof.
  intros Hs. unfold update_field, decode_cell, any_detected.
  destruct (String.eqb_spec v "NaN") as [->|Hv]; [|apply String.eqb_neq in Hv].
  - destruct d as [[] [] [] [] []]; simpl; rewrite ?Hs; done.
  - destruct d as [[] [] [] [] []]; simpl; rewrite ?Hs; unfold SpecNaNMarker; simpl; rewrite ?Hv; done.
Qed.

Lemma decode_encode_cell (f : Field) (d : detected) (v : string) :
  f_SpecialValues f = None -> sound f d -> covers f d v -> not_a_marker v = true ->
  decode_cell (update_field f d) (encode_cell d v) = meaning f v.
Proof.
  unfold sound, covers. intros Hsv (H1 & H2 & H3) Hc Hm. rewrite decode_update by done.
  unfold meaning, encode_cell, detect_cell, not_a_marker in *; simpl in Hm.
  rewrite negb_true_iff, !orb_false_iff in Hm. destruct Hm as (M1 & M2 & M3 & _).
  destruct (String.eqb v nullSentinel) eqn:E0.
  { destruct d; injection Hc as <-. reflexivity. }
  destruct (rawInfinityForms v) eqn:Hi; [|destruct (rawNegInfinityForms v) eqn:Hni].
  - destruct (rawInfinityForms_inv v Hi) as [-> |[-> |[-> | ->]]]; destruct d as [[] [] [] [] []];
    destruct (isFloatField (f_Type f)), (isDateField (f_Type f)); simpl in *; try done; naive_solver.
  - destruct (rawNegInfinityForms_inv v Hni) as [-> | ->]; destruct d as [[] [] [] [] []];
    destruct (isFloatField (f_Type f)), (isDateField (f_Type f)); simpl in *; try done; naive_solver.
  - rewrite !andb_false_r, M1, M2, M3, !andb_false_r.
    destruct (String.eqb_spec v SpecNoDateMarker) as [->|]; destruct d as [[] [] [] [] []];
    destruct (isFloatField (f_Type f)), (isDateField (f_Type f)); simpl in *; try done; naive_solver.
Qed.

Fixpoint covers_row (fields : list Field) (det : list detected) (row : list string) : Prop :=
  match fields, det, row with
  | f :: fields', d :: det', v :: row' => covers f d v /\ covers_row fields' det' row'
  | _, _, _ => True
  end.

Lemma det_le_refl (d : detected) : det_le d d.
Proof. by unfold det_le. Qed.
Lemma det_le_trans (d e g : detected) : det_le d e -> det_le e g -> det_le d g.
Proof. unfold det_le. naive_solver. Qed.

Lemma detect_row_le (fields : list Field) (det : list detected) (row : list string) :
  Forall2 det_le det (detect_row fields det row).
Proof.
  assert (Hr : forall l, Forall2 det_le l l) by (induction l; constructor; auto using det_le_refl).
  revert det row. induction fields as [|f fields IH]; intros [|d det] [|v row]; simpl; auto.
  constructor; auto using detect_cell_le.
Qed.

Lemma detect_rows_le (fields : list Field) (rows : list (list string)) (det : list detected) :
  Forall2 det_le det (foldl (detect_row fields) det rows).
Proof.
  revert det. induction rows as [|row rows IH]; intros det; simpl.
  - induction det; constructor; auto using det_le_refl.
  - eapply Forall2_trans; [|apply detect_row_le|apply IH]. intros *; apply det_le_trans.
Qed.

Lemma covers_row_after (fields : list Field) (det e : list detected) (row : list string) :
  Forall2 det_le (detect_row fields det row) e -> covers_row fields e row.
Proof.
  revert det e row. induction fields as [|f fields IH]; intros [|d det] e [|v row] H;
    inversion H; subst; simpl; auto.
  split; eauto using covers_after.
Qed.

Lemma detect_all_covers (fields : list Field) (rows : list (list string)) (det : list detected) :
  Forall (covers_row fields (foldl (detect_row fields) det rows)) rows.
Proof.
  revert det. induction rows as [|row rows IH]; intros det; simpl; constructor; [|apply IH].
  eapply covers_row_after, detect_rows_le.
Qed.

Lemma detect_row_sound (fields : list Field) (det : list detected) (row : list string) :
  Forall2 sound fields det -> Forall2 sound fields (detect_row fields det row).
Proof.
  intros H. revert row. induction H as [|f d fields det Hd H IH]; intros [|v row]; simpl; auto.
  constructor; auto using detect_cell_sound.
Qed.

Lemma detect_all_sound (rows : list (list string)) (sch : Schema) :
  Forall2 sound (s_Fields sch) (detect_all rows sch).
Proof.
  unfold detect_all.
  assert (H0 : Forall2 sound (s_Fields sch) (replicate (length (s_Fields sch)) zero_detected)).
  { induction (s_Fields sch); simpl; constructor; auto. by unfold sound. }
  revert H0. generalize (replicate (length (s_Fields sch)) zero_detected).
  induction rows as [|row rows IH]; intros det H; simpl; auto using detect_row_sound.
Qed.

Definition no_specials (fields : list Field) : Prop := Forall (fun f => f_SpecialValues f = None) fields.

Lemma decode_encode_row (fields : list Field) (det : list detected) (row : list string) :
  no_specials fields -> Forall2 sound fields det -> covers_row fields det row -> forallb not_a_marker row ->
  decode_row (zip_with update_field fields det) (encode_row det row) = meaning_row fields row.
Proof.
  intros Hs H. revert row Hs. induction H as [|f d fields det Hd H IH]; intros [|v row] Hs Hc Hm; simpl in *; auto.
  apply andb_prop_elim in Hm as [Hm1 Hm2]. inversion Hs; subst. destruct Hc as [Hc1 Hc2].
  rewrite decode_encode_cell, IH by auto using Is_true_true_1. done.
Qed.

(** When nothing was detected every cell already is its meaning. *)
Lemma undetected_row (fields : list Field) (det : list detected) (row : list string) :
  no_specials fields -> Forall2 sound fields det -> covers_row fields det row -> forallb not_a_marker row ->
  existsb any_detected det = false -> meaning_row fields row = row.
Proof.
  intros Hs H Hc Hm Hd. rewrite <- (decode_encode_row fields det row) by done.
  clear Hm. revert row Hc. induction H as [|f d fields det Hd1 H IH]; intros [|v row] Hc; simpl in *; auto.
  apply orb_false_iff in Hd as [Hd Hdet]. inversion Hs; subst. destruct Hc as [Hc1 Hc2].
  rewrite IH by auto. f_equal. unfold update_field, decode_cell. rewrite Hd; simpl. rewrite H2.
  unfold covers, detect_cell, encode_cell in *. destruct d as [[] [] [] [] []]; try done; simpl.
  by destruct (String.eqb v nullSentinel).
Qed.

Lemma decode_no_specials (rows : list (list string)) (sch : Schema) :
  no_specials (s_Fields sch) -> dDecodeSpecialValues rows sch = rows.
Proof.
  unfold dDecodeSpecialValues. intros H.
  assert (existsb (fun f => bool_decide (is_Some (f_SpecialValues f))) (s_Fields sch) = false) as ->; [|done].
  induction H as [|f fs Hf H IH]; simpl; [done|]. by rewrite Hf, IH, bool_decide_false by (intros []; done).
Qed.

Lemma decode_some_specials (fields : list Field) (det : list detected) (rows : list (list string)) :
  length fields = length det -> existsb any_detected det = true ->
  dDecodeSpecialValues rows (MkSchema (zip_with update_field fields det) None "" "" "")
  = map (decode_row (zip_with update_field fields det)) rows.
Proof.
  intros Hl Hd. unfold dDecodeSpecialValues; simpl.
  assert (existsb (fun f => bool_decide (is_Some (f_SpecialValues f))) (zip_with update_field fields det) = true)
    as ->; [|done].
  revert fields Hl. induction det as [|d det IH]; intros [|f fields] Hl; simplify_eq/=.
  apply orb_true_iff in Hd as [Hd|Hd]; [|rewrite IH by done; apply orb_true_r].
  unfold update_field. by rewrite Hd.
Qed.

Lemma encode_row_length (det : list detected) (row : list string) : length (encode_row det row) = length row.
Proof. revert row. induction det as [|d det IH]; intros [|v row]; simpl; auto. Qed.

(** The shape of the table and the identity of its columns are kept. *)
Lemma DetectAndApply_shape (rows : list (list string)) (sch : Schema) :
  let '(rows', sch') := DetectAndApply rows sch in
  map length rows' = map length rows
  /\ map (fun f => (f_Name f, f_Type f, f_Key f)) (s_Fields sch')
     = map (fun f => (f_Name f, f_Type f, f_Key f)) (s_Fields sch).
Proof.
  unfold DetectAndApply. destruct (_ || _); [done|]. destruct (negb _); [done|]. split.
  - rewrite map_map. apply map_ext. intros. apply encode_row_length.
  - simpl. pose proof (Forall2_length _ _ _ (detect_all_sound rows sch)) as Hl.
    revert Hl. generalize (detect_all rows sch) as det. generalize (s_Fields sch).
    induction l as [|f l IH]; intros [|d det] Hl; simpl in *; [done..|].
    rewrite IH by lia. unfold update_field. by destruct (negb _).
Qed.

(** A NULL in the first column is detected, and then only the columns of the schema are kept. *)
Lemma DetectAndApply_drops (rows rows' : list (list string)) (sch sch' : Schema) :
  s_Fields sch <> [] -> Exists (fun row => head row = Some nullSentinel) rows ->
  DetectAndApply rows sch = (rows', sch') -> s_Dictionary sch' = None.
Proof.
  intros Hf Hn. unfold DetectAndApply.
  pose proof (detect_all_covers (s_Fields sch) rows _ : Forall (covers_row _ (detect_all rows sch)) rows) as Hc.
  pose proof (detect_all_sound rows sch) as Hs.
  apply Exists_exists in Hn as (row & Hin & Hrow). rewrite Forall_forall in Hc. specialize (Hc row Hin).
  destruct (_ || _) eqn:E.
  { apply orb_true_iff in E as [E|E]; apply Nat.eqb_eq, length_zero_iff_nil in E; [|done].
    subst. by apply elem_of_nil in Hin. }
  destruct row as [|v row]; [done|]. injection Hrow as ->.
  revert Hs Hc. generalize (detect_all rows sch) as det. intros det Hs Hc.
  destruct (s_Fields sch) as [|f fs]; [done|]. inversion Hs as [|? d ? det']; subst.
  destruct Hc as [Hc _]. unfold covers, detect_cell in Hc. simpl in Hc.
  assert (Hd : any_detected d = true) by (rewrite <- Hc; done).
  simpl. rewrite Hd. simpl. by intros [= <- <-].
Qed.

(** ** Properties *)

(** C34. Special values survive the trip through a packet: for a schema that declares none yet and cells
    that are not themselves spelled like a marker, decoding what [DetectAndApply] produced gives every
    cell its meaning.  A NULL and a zero date come back as the empty string, every raw spelling of an
    infinity in a numeric or date column comes back as [Infinity] or [-Infinity], and every other cell,
    in particular NaN and the text columns that merely contain such words, is unchanged. *)
Theorem special_values_roundtrip (rows : list (list string)) (sch : Schema) :
  no_specials (s_Fields sch) -> Forall (fun row => forallb not_a_marker row) rows ->
  let '(rows', sch') := DetectAndApply rows sch in
  dDecodeSpecialValues rows' sch' = map (meaning_row (s_Fields sch)) rows.
Proof.
  intros Hs Hm. unfold DetectAndApply.
  destruct (_ || _) eqn:He.
  { rewrite decode_no_specials by done. apply orb_true_iff in He as [He|He]; apply Nat.eqb_eq, length_zero_iff_nil in He.
    - by rewrite He.
    - rewrite He. symmetry. apply map_id. }
  pose proof (detect_all_sound rows sch) as Hd.
  pose proof (detect_all_covers (s_Fields sch) rows _ : Forall (covers_row _ (detect_all rows sch)) rows) as Hc.
  destruct (existsb any_detected (detect_all rows sch)) eqn:Ha; simpl.
  - rewrite decode_some_specials, map_map by (done || by eapply Forall2_length).
    apply map_ext_in. intros row Hrow%list_elem_of_In. rewrite Forall_forall in Hc, Hm.
    apply decode_encode_row; auto.
  - rewrite decode_no_specials by done. symmetry. rewrite <- (map_id rows) at 2.
    apply map_ext_in. intros row Hrow%list_elem_of_In. rewrite Forall_forall in Hc, Hm.
    eapply undetected_row; eauto.
Qed.
End SpecialValues.

Definition demo_column (name type : string) : Field :=
  MkField name type 0 0 0 false "" "" false false None "".
Definition demo_specials_schema : Schema :=
  MkSchema [demo_column "id" "INTEGER"; demo_column "price" "decimal"; demo_column "day" "DATE"] None "" "" "".
Definition demo_specials_rows : list (list string) :=
  [["1"; "+Inf"; "0000-00-00"]; ["Inf"; "NaN"; nullSentinel]; ["3"; "-Infinity"; "2024-01-01"; "extra"]]%string.

Lemma special_values_roundtrip_witness :
  dDecodeSpecialValues (DetectAndApply (C := ascii_case) demo_specials_rows demo_specials_schema).1
    (DetectAndApply (C := ascii_case) demo_specials_rows demo_specials_schema).2
  = [["1"; "Infinity"; ""]; ["Inf"; "NaN"; ""]; ["3"; "-Infinity"; "2024-01-01"; "extra"]]%string.
Proof.
  assert (H1 : no_specials (s_Fields demo_specials_schema)) by (repeat constructor).
  assert (H2 : Forall (fun row => forallb not_a_marker row) demo_specials_rows) by (repeat constructor).
  pose proof (special_values_roundtrip (C := ascii_case) demo_specials_rows demo_specials_schema H1 H2) as H.
  exact H.
Defined.
