(* ===== verification/PipelineVerify.v ===== *)
(** * Producer and consumer of verified packets

    [src/pkg/pipeline/produce.go] and [verify.go]: a producer stamps a packet and registers its hash, a
    consumer checks the registry, the hashes and expands the dictionary, with a fallback policy for an
    unreachable registry.  The verifier and the registrar are interfaces of the source; here they are the
    client operations of [MercuryHash], so the theorems speak of the whole path. *)

From Stdlib Require Import ZArith Lia Ascii String.
From stdpp Require Import base list strings gmap.
From S2P Require Import Prelude Strconv Encodings PacketTypes RowCodec PacketOps Compact PacketParser Integrity DictionaryV14 MercuryHash.

(** The policy is a Go [int]; a value that is none of the constants takes no case of the switch. *)
Definition FallbackPolicy := Z.
Definition FallbackBlock : FallbackPolicy := 0%Z.
Definition FallbackDegrade : FallbackPolicy := 1%Z.
Definition FallbackDowngrade : FallbackPolicy := 2%Z.

Record VerifyResult := MkVerifyResult {
  vf_Version : string;
  vf_Degraded : bool;
  vf_DegradedReason : option mercury_error;  (** the error the reason text quotes *)
  vf_MercuryRecord : option HashRecord;
}.

Inductive verify_error :=
| VEMercury (e : mercury_error)
| VEIntegrity (e : integrity_error).

(** The [HashVerifier] interface; a nil verifier is [None]. *)
Definition HashVerifier : Type := string -> Z -> string -> string -> result mercury_error (option HashRecord).

Definition runMercuryCheck (verifier : option HashVerifier) (pkt : DataPacket)
    : result mercury_error (option HashRecord) :=
  match verifier with
  | None => Ok None
  | Some v =>
      fail_if String.eqb (p_XXH3 pkt) "" with ErrHashNotRegistered ;;
      v (h_MessageID (p_Header pkt)) (h_PartNumber (p_Header pkt)) (p_XXH3 pkt) (p_Version pkt)
  end.

(** Errors for which [errors.Is] finds one of the two sentinels of an unreachable registry. *)
Definition unreachable (e : mercury_error) : bool :=
  match e with ErrMercuryUnavailable | ErrMercuryError => true | _ => false end.

(** The last step: rows with the dictionary expanded, and no dictionary. *)
Definition expand_dictionary (pkt : DataPacket) : DataPacket :=
  match s_Dictionary (p_Schema pkt) with
  | Some (MkDictionary (_ :: _)) =>
      let exp := NewDictExpander (s_Dictionary (p_Schema pkt)) in
      let rows := map (fun row => MkRow (ExpandRow exp (r_Value row))) (d_Rows (p_Data pkt)) in
      set_p_Schema (set_s_Dictionary None (p_Schema pkt)) (set_p_Data (set_d_Rows rows (p_Data pkt)) pkt)
  | _ => pkt
  end.

Section Pipeline.
Context {H : HashEnv}.

(** Steps 2 and 3. *)
Definition local_checks (res : VerifyResult) (pkt : DataPacket) : DataPacket * result verify_error VerifyResult :=
  let '(pkt, verdict) := if HasIntegrity pkt then VerifyIntegrity pkt else (pkt, Ok ()) in
  match verdict with
  | Err e => (pkt, Err (VEIntegrity e))
  | Ok _ => (expand_dictionary pkt, Ok res)
  end.

(** The packet after the call and the outcome. *)
Definition VerifyAndPrepare (pkt : DataPacket) (verifier : option HashVerifier) (policy : FallbackPolicy)
    : DataPacket * result verify_error VerifyResult :=
  let version := p_Version pkt in
  if NeedsRowCountCheck version then (pkt, Ok (MkVerifyResult version false None None)) else
  let pkt := MaterializeRows pkt in
  match runMercuryCheck verifier pkt with
  | Ok rec => local_checks (MkVerifyResult version false None rec) pkt
  | Err e =>
      if unreachable e then
        if (policy =? FallbackBlock)%Z then (pkt, Err (VEMercury e))
        else if (policy =? FallbackDegrade)%Z then local_checks (MkVerifyResult version true (Some e) None) pkt
        else if (policy =? FallbackDowngrade)%Z then (Downgrade pkt, Ok (MkVerifyResult "1.3.1" true (Some e) None))
        else local_checks (MkVerifyResult version false None None) pkt
      else (pkt, Err (VEMercury e))
  end.

(** ** produce.go; the registrar as the exchange with the registry, [None] when nil *)

Inductive produce_error := PEIntegrity (e : integrity_error) | PERegister (e : mercury_error).

Definition ComputeAndRegisterIntegrity (pkt : DataPacket)
    (client : option (string -> Z -> string -> string -> string -> string -> result mercury_error unit))
    (sender : string) : result produce_error DataPacket :=
  let pkt := set_p_Version "1.4" pkt in
  match ComputeIntegrity pkt with
  | Err e => Err (PEIntegrity e)
  | Ok (pkt, _) =>
      match client with
      | None => Ok pkt
      | Some register =>
          match register (h_MessageID (p_Header pkt)) (h_PartNumber (p_Header pkt)) (p_XXH3 pkt)
                  (h_TableName (p_Header pkt)) sender (p_Version pkt) with
          | Err e => Err (PERegister e)
          | Ok _ => Ok pkt
          end
      end
  end.

(** ** Lemmas *)

Lemma unreserved_ascii (s : string) : all_bytes is_unreserved s = true -> is_ascii s = true.
Proof. apply all_bytes_mono. by intros [[] [] [] [] [] [] [] []]. Qed.
Lemma graphic_ascii (s : string) : graphic s = true -> is_ascii s = true.
Proof. apply all_bytes_mono. by intros [[] [] [] [] [] [] [] []]. Qed.
Lemma segment_ascii (s : string) : url_segment s = true -> is_ascii s = true.
Proof. unfold url_segment. rewrite !andb_true_iff. intros [[[Hs _] _] _]. by apply unreserved_ascii. Qed.

(** Hashes are written in hexadecimal. *)
Lemma hex_encode_plain (bs : list N) : all_bytes is_unreserved (hex_encode bs) = true.
Proof.
  assert (forall n s c, all_bytes is_unreserved s = true -> String.get n s = Some c -> is_unreserved c = true) as Hget.
  { induction n as [|n IH]; intros [|d s] c; try done; cbn [all_bytes String.get]; intros [Hd Hs]%andb_true_iff.
    - by intros [= <-].
    - by apply IH. }
  assert (forall d, is_unreserved (hex_char d) = true) as Hc.
  { intros d. unfold hex_char. destruct (String.get _ _) as [c|] eqn:E; [|done]. by eapply Hget in E. }
  induction bs as [|b bs IH]; [done|]. cbn [hex_encode hex_byte chr String.append all_bytes]. by rewrite !Hc, IH.
Qed.

Lemma stamped_plain (p q : DataPacket) (r : IntegrityResult) :
  ComputeIntegrity p = Ok (q, r) -> all_bytes is_unreserved (p_XXH3 q) = true.
Proof.
  unfold ComputeIntegrity, computeHashes. destruct (marshal_schema _); [|done]. cbn. intros [= <- <-]. cbn.
  unfold uint128Hex at 1. apply hex_encode_plain.
Qed.

Lemma MaterializeRows_idle (p : DataPacket) : p_rawRows p = [] -> MaterializeRows p = p.
Proof. unfold MaterializeRows. by intros ->. Qed.

Lemma MaterializeRows_frame (p : DataPacket) :
  p_XXH3 (MaterializeRows p) = p_XXH3 p /\ p_Header (MaterializeRows p) = p_Header p
  /\ p_Version (MaterializeRows p) = p_Version p.
Proof. unfold MaterializeRows. by destruct (_ && _). Qed.

Lemma local_checks_ok (res res' : VerifyResult) (p q : DataPacket) :
  local_checks res p = (q, Ok res') -> res' = res /\ (HasIntegrity p = true -> (VerifyIntegrity p).2 = Ok ()).
Proof.
  unfold local_checks. destruct (HasIntegrity p); [|by intros [= <- <-]].
  destruct (VerifyIntegrity p) as [p' [[]|e]]; [|done]. by intros [= <- <-].
Qed.

(** ** Properties *)

(** C18. No packet slips past the registry: when a packet whose version text is above [1.3.1] in byte
    order (so not [1.10], which the code takes for an older one) is accepted with a verifier present, it
    carries a hash; and either the verifier confirmed that hash, the local hashes agree and the result is
    not degraded, or the verifier reported the registry unreachable and the policy was not to block.  In
    the second case the local hashes agree unless the policy was to downgrade, and the result is marked
    degraded under the degrade and the downgrade policy.  A hash reported as unregistered or tampered is
    never accepted, under any policy. *)
Theorem verify_accepts_only_checked (p q : DataPacket) (v : HashVerifier) (policy : FallbackPolicy) (res : VerifyResult) :
  NeedsRowCountCheck (p_Version p) = false -> VerifyAndPrepare p (Some v) policy = (q, Ok res) ->
  HasIntegrity p = true /\
  match v (h_MessageID (p_Header p)) (h_PartNumber (p_Header p)) (p_XXH3 p) (p_Version p) with
  | Ok rec => vf_MercuryRecord res = rec /\ vf_Degraded res = false /\ (VerifyIntegrity (MaterializeRows p)).2 = Ok ()
  | Err e => (e = ErrMercuryUnavailable \/ e = ErrMercuryError) /\ policy <> FallbackBlock
             /\ (policy <> FallbackDowngrade -> (VerifyIntegrity (MaterializeRows p)).2 = Ok ())
             /\ (policy = FallbackDegrade \/ policy = FallbackDowngrade -> vf_Degraded res = true)
  end.
Proof.
  intros Hv. unfold VerifyAndPrepare. rewrite Hv. destruct (MaterializeRows_frame p) as (E1 & E2 & E3).
  unfold runMercuryCheck, check_. rewrite E1, E2, E3. unfold HasIntegrity.
  destruct (String.eqb (p_XXH3 p) "") eqn:Ex; simpl; [done|].
  assert (Hi : HasIntegrity (MaterializeRows p) = true) by (unfold HasIntegrity; by rewrite E1, Ex).
  destruct (v _ _ _ _) as [rec|e].
  - intros [-> Hc]%local_checks_ok. split_and!; auto.
  - destruct (unreachable e) eqn:Eu; [|done].
    assert (e = ErrMercuryUnavailable \/ e = ErrMercuryError) by (destruct e; auto; done).
    destruct (Z.eqb_spec policy FallbackBlock) as [|Hb]; [done|].
    destruct (Z.eqb_spec policy FallbackDegrade) as [->|Hd]; [intros [-> Hc]%local_checks_ok; split_and!; auto|].
    destruct (Z.eqb_spec policy FallbackDowngrade) as [->|Hw]; [intros [= <- <-]; split_and!; done|].
    intros [-> Hc]%local_checks_ok. split_and!; auto. by intros [?|?].
Qed.

(** C7. A registered packet is accepted by the consumer: after a producer has stamped a packet and the
    registry has accepted its hash, then for as long as the registration lasts and whatever else the
    registry serves meanwhile (short of revoking that slot), a consumer using the registry accepts the
    packet under every policy, not degraded, with the producer's record; the packet it gets holds the
    producer's rows with the dictionary expanded.  The message id consists of unreserved URL characters
    (letters, digits, [-._~]) and is not empty or a dot segment, since the client writes it into a URL
    unescaped; the part number fits 64 bits, the sender's name consists of visible ASCII characters, and the
    rows are kept in one place and have at least one cell each. *)
Theorem registered_packet_accepted {T : HashHttp} {TL : HashHttpLaws T} (p q : DataPacket) (sender : string)
    (ttl now now' : Z) (r r' : redis) (policy : FallbackPolicy) :
  rows_in_one_place p -> good_rows (GetRows p) ->
  url_segment (h_MessageID (p_Header p)) = true -> int64b (h_PartNumber (p_Header p)) = true -> graphic sender = true ->
  ComputeAndRegisterIntegrity p (Some (client_RegisterHash (http_register now ttl r))) sender = Ok q ->
  let h := p_Header p in
  let req := json_request
    (MkRegisterHashRequest (h_MessageID h) (h_PartNumber h) (p_XXH3 q) (h_TableName h) sender "1.4") in
  run ttl (fun rq => ~ revokes (redisKey (h_MessageID h) (h_PartNumber h)) rq)
    (now, (api_Register now ttl sender (Some req) r).1) (now', r') ->
  (now' < now + ttl)%Z -> rd_up r' = true ->
  GetRows q = GetRows p /\
  exists rec, hr_XXH3 rec = p_XXH3 q /\ hr_Sender rec = sender /\
  VerifyAndPrepare q (Some (client_VerifyHash mercury_url (http_verify now' r'))) policy =
    (expand_dictionary q, Ok (MkVerifyResult "1.4" false None (Some rec))).
Proof.
  intros Ho Hg Hseg Hpart Hsend. unfold ComputeAndRegisterIntegrity.
  destruct (ComputeIntegrity (set_p_Version "1.4" p)) as [[q' ir]|e] eqn:Ec; [|done].
  destruct (stamped_facts (set_p_Version "1.4" p) q' ir Ho Hg Ec) as (Hi & Hver & Hlen & Hraw & Hh & Hvn & Hrows).
  rewrite Hh, Hvn. destruct (client_RegisterHash _ _ _ _ _ _ _) as [[]|e] eqn:Er; [|done]. intros [= <-].
  cbn [p_Header p_Version set_p_Version] in Er, Hh, Hvn |- *. set (h := p_Header p) in *.
  set (req := json_request (MkRegisterHashRequest _ _ _ _ _ _)). intros Hrun Hlt Hup. split; [exact Hrows|].
  apply client_RegisterHash_ok in Er as (resp & Er & H201); [|done]. unfold http_register in Er.
  rewrite send_header_plain in Er by done. cbn [mbind option_bind] in Er. injection Er as Er. fold req in Er.
  assert (Hplain : all_bytes is_unreserved (p_XXH3 q') = true) by (by eapply stamped_plain).
  assert (Hq : rq_UUID req = h_MessageID h /\ rq_XXH3 req = p_XXH3 q' /\ rq_Sender req = sender).
  { split_and!; apply utf8_text_eq, ascii_utf8; [by apply segment_ascii|by apply unreserved_ascii|by apply graphic_ascii]. }
  destruct Hq as (Hq1 & Hq2 & Hq3).
  destruct (slot_first_wins ttl now now' sender req r (api_Register now ttl sender (Some req) r).1 r'
    (api_Register now ttl sender (Some req) r).2 (p_XXH3 q') "1.4") as (rec & E1 & E2 & Ev);
    [by destruct (api_Register _ _ _ _ _)|by rewrite Er|by rewrite Hq1|done|done|done|done|by rewrite Hq1|done|done|].
  rewrite Hq1, Hq2, String.eqb_refl in Ev. rewrite Hq2 in E1. rewrite Hq3 in E2. exists rec. split_and!; [done..|].
  unfold VerifyAndPrepare. rewrite Hvn. simpl. rewrite MaterializeRows_idle by done.
  unfold runMercuryCheck, check_, HasIntegrity in *. apply negb_true_iff in Hi. rewrite Hi, Hh, Hvn.
  change (rq_Part req) with (h_PartNumber h) in Ev. rewrite Ev. unfold local_checks, HasIntegrity. by rewrite Hi, Hver.
Qed.

(** The downgrade policy can be forced by the sender: with the registry up and answering, a packet of
    version 1.4 or later whose hash attribute is a non-empty plain text of the wrong length is refused under
    the block policy, but accepted under the downgrade policy without a check of its contents, because
    the registry's "bad request" is treated as the registry being unreachable. *)
Theorem downgrade_policy_bypass {T : HashHttp} {TL : HashHttpLaws T} (p : DataPacket) (now : Z) (r : redis) :
  NeedsRowCountCheck (p_Version p) = false -> p_XXH3 p <> "" -> String.length (p_XXH3 p) <> 32 ->
  url_segment (h_MessageID (p_Header p)) = true -> int64b (h_PartNumber (p_Header p)) = true ->
  all_bytes is_unreserved (p_XXH3 p) = true ->
  let check := VerifyAndPrepare p (Some (client_VerifyHash mercury_url (http_verify now r))) in
  (check FallbackBlock).2 = Err (VEMercury ErrMercuryError)
  /\ check FallbackDowngrade = (Downgrade (MaterializeRows p), Ok (MkVerifyResult "1.3.1" true (Some ErrMercuryError) None)).
Proof.
  intros Hv Hx Hl Hu Hp Hpl check. unfold check, VerifyAndPrepare. rewrite Hv.
  destruct (MaterializeRows_frame p) as (E1 & E2 & E3).
  assert (Hid : String.eqb (h_MessageID (p_Header p)) "" = false).
  { apply String.eqb_neq. intros E. by rewrite E in Hu. }
  apply String.eqb_neq in Hx. apply Nat.eqb_neq in Hl.
  unfold runMercuryCheck, client_VerifyHash. rewrite E1, E2, E3, Hv, http_verify_plain by done.
  unfold api_Verify, check_. by rewrite Hx, Hid, Hl.
Qed.

(** Two-digit minor versions bypass the gate: versions are compared as strings, so a packet of version
    1.10, or any version whose text begins with 1.1, is taken for a pre-1.4 packet and returned without
    any check, whatever its hashes say. *)
Theorem two_digit_minor_bypasses (p : DataPacket) (s : string) (v : option HashVerifier) (policy : FallbackPolicy) :
  p_Version p = "1.1" +:+ s ->
  VerifyAndPrepare p v policy = (p, Ok (MkVerifyResult (p_Version p) false None None)).
Proof. intros Hv. unfold VerifyAndPrepare. rewrite Hv. reflexivity. Qed.
End Pipeline.

Definition demo_produce : DataPacket := set_p_Schema (p_Schema demo_integrity_packet)
  (set_p_rawRows [["a"; "1"]; ["b"; "2"]] (NewDataPacket "550e8400" 1 TypeReference "t")).
Definition demo_produced : DataPacket :=
  match ComputeAndRegisterIntegrity (H := demo_hash) demo_produce
          (Some (client_RegisterHash (http_register (T := demo_http) 100 60 demo_redis))) "svc" with
  | Ok q => q | Err _ => demo_produce end.
Definition demo_registered : redis :=
  (api_Register 100 60 "svc" (Some (json_request
     (MkRegisterHashRequest "550e8400" 0 (p_XXH3 demo_produced) "t" "svc" "1.4"))) demo_redis).1.

Lemma registered_packet_accepted_witness :
  (VerifyAndPrepare (H := demo_hash) demo_produced
     (Some (client_VerifyHash "http://mercury" (http_verify (T := demo_http) 150 demo_registered))) FallbackBlock).1
  = expand_dictionary demo_produced.
Proof.
  destruct (registered_packet_accepted (H := demo_hash) (T := demo_http) demo_produce demo_produced "svc" 60 100 150
    demo_redis demo_registered FallbackBlock) as (_ & rec & _ & _ & E).
  - by right.
  - by repeat constructor.
  - reflexivity.
  - reflexivity.
  - reflexivity.
  - vm_compute. reflexivity.
  - match goal with |- run _ _ ?c _ => replace c with (100%Z, demo_registered) by (vm_compute; reflexivity) end.
    eapply run_step; [apply run_refl|by apply step_tick|by intros []].
  - done.
  - vm_compute. reflexivity.
  - change "http://mercury" with (@mercury_url demo_http). rewrite E. done.
Defined.

Lemma verify_accepts_only_checked_witness : HasIntegrity demo_stamped = true.
Proof.
  destruct (verify_accepts_only_checked (H := demo_hash) demo_stamped demo_stamped
    (fun _ _ _ _ => Ok None) FallbackBlock (MkVerifyResult "1.4" false None None)) as [E _];
    [reflexivity|vm_compute; reflexivity|exact E].
Defined.

Lemma downgrade_policy_bypass_witness :
  (VerifyAndPrepare (H := demo_hash) (set_p_XXH3 "x" demo_stamped)
     (Some (client_VerifyHash "http://mercury" (http_verify (T := demo_http) 0 demo_redis))) FallbackDowngrade).2
  = Ok (MkVerifyResult "1.3.1" true (Some ErrMercuryError) None).
Proof.
  destruct (downgrade_policy_bypass (H := demo_hash) (T := demo_http) (set_p_XXH3 "x" demo_stamped) 0 demo_redis) as [_ E];
    [reflexivity|done|done|reflexivity..|]. change "http://mercury" with (@mercury_url demo_http). rewrite E. reflexivity.
Defined.

Lemma two_digit_minor_bypasses_witness :
  (VerifyAndPrepare (H := demo_hash) (set_p_Version "1.10" demo_stamped) None FallbackBlock).2
  = Ok (MkVerifyResult "1.10" false None None).
Proof.
  rewrite (two_digit_minor_bypasses (H := demo_hash) (set_p_Version "1.10" demo_stamped) "0" None FallbackBlock);
    reflexivity.
Defined.
