(* ===== verification/PacketGenerator.v ===== *)
(** * Generating packets

    [src/pkg/core/packet/generator.go] and [uuid.go]: the generator's settings, the split of a table into
    parts, and the five kinds of packets.  Random bytes and clock readings are the fields of [World],
    indexed by the order of the calls.  Sizes are [Z]: they are sums of lengths of strings in memory,
    far below the range of a 64-bit [int].  The theorems: the parts are a greedy, order-preserving
    split within the size budget, and what the generator produces passes the parser's checks and carries
    the rows and the schema. *)

From Stdlib Require Import ZArith Lia Ascii String.
From stdpp Require Import base list strings pretty.
From S2P Require Import Prelude Encodings PacketTypes RowCodec PacketOps Compact PacketParser DictionaryV14 SpecialValuesV131.

(** ** uuid.go *)

Record World := MkWorld {
  w_rand : nat -> option (list N);  (** 16 bytes of [crypto/rand], or a failure *)
  w_nano : nat -> N;                (** [time.Now().UnixNano()] *)
  w_now : nat -> Z;                 (** [time.Now().UTC()] *)
  w_year : nat -> N;                (** its year *)
}.

Definition uuid_version (b : N) : N := N.lor (N.land b 15) 64.
Definition uuid_variant (b : N) : N := N.lor (N.land b 63) 128.

Definition generateUUID (w : World) (k : nat) : string :=
  match w_rand w k with
  | None => pretty (w_nano w k)
  | Some b =>
      let b := alter uuid_variant 8 (alter uuid_version 6 b) in
      Join [hex_encode (take 4 b); hex_encode (take 2 (drop 4 b)); hex_encode (take 2 (drop 6 b));
            hex_encode (take 2 (drop 8 b)); hex_encode (drop 10 b)] "-"
  end.

(** ** Settings *)

Record CompressionOptions := MkCompressionOptions {
  co_Enabled : bool;
  co_Level : Z;
  co_MinSize : Z;
  co_Algorithm : string;
}.
Definition DefaultCompressionOptions : CompressionOptions := MkCompressionOptions false 3 1024 "zstd".

Definition DefaultMaxMessageSize : Z := 3800000.
Definition packetOverheadSize : Z := 5000.

Record Generator := MkGenerator {
  maxMessageSize : Z;
  compression : CompressionOptions;
  skipSpecialValues : bool;
}.
Definition NewGenerator : Generator := MkGenerator DefaultMaxMessageSize DefaultCompressionOptions false.

Definition SetMaxMessageSize (size : Z) (g : Generator) : Generator :=
  MkGenerator size (compression g) (skipSpecialValues g).
Definition SetCompression (opts : CompressionOptions) (g : Generator) : Generator :=
  MkGenerator (maxMessageSize g) opts (skipSpecialValues g).
Definition set_Enabled (b : bool) (o : CompressionOptions) : CompressionOptions :=
  MkCompressionOptions b (co_Level o) (co_MinSize o) (co_Algorithm o).
Definition EnableCompression (g : Generator) : Generator := SetCompression (set_Enabled true (compression g)) g.
Definition DisableCompression (g : Generator) : Generator := SetCompression (set_Enabled false (compression g)) g.
Definition SetSkipSpecialValues (skip : bool) (g : Generator) : Generator :=
  MkGenerator (maxMessageSize g) (compression g) skip.
Definition SetCompressionLevel (level : Z) (g : Generator) : Generator :=
  let level := if (level <? 1)%Z then 1%Z else level in
  let level := if (19 <? level)%Z then 19%Z else level in
  let o := compression g in
  SetCompression (MkCompressionOptions (co_Enabled o) level (co_MinSize o) (co_Algorithm o)) g.

(** ** Parts *)

Definition estimateRowSize (row : list string) : Z :=
  ((foldl (fun size value => size + (Z.of_nat (String.length value) + 1)) 0 row + 10) * 2)%Z.

(** The loop of [partitionRows]; [current] is the part being filled. *)
Fixpoint partition_loop (max : Z) (current : list (list string)) (currentSize : Z)
    (rows : list (list string)) : list (list (list string)) :=
  match rows with
  | [] => if (0 <? length current)%nat then [current] else []
  | row :: rows' =>
      let rowSize := estimateRowSize row in
      if (max <? currentSize + rowSize + packetOverheadSize)%Z && (0 <? length current)%nat
      then current :: partition_loop max [row] rowSize rows'
      else partition_loop max (current ++ [row]) (currentSize + rowSize) rows'
  end.
Definition partitionRows (g : Generator) (rows : list (list string)) : list (list (list string)) :=
  if (length rows =? 0)%nat then [[]] else partition_loop (maxMessageSize g) [] 0 rows.

(** ** Packets *)

Definition message_prefix (t : MessageType) : string :=
  if String.eqb t TypeReference then "REF" else if String.eqb t TypeRequest then "REQ"
  else if String.eqb t TypeResponse then "RESP" else if String.eqb t TypeAlarm then "ALARM"
  else if String.eqb t TypeError then "ERR" else "".

(** [generateUUID()[:8]] *)
Definition short_uuid (w : World) (k : nat) : string := substring 0 8 (generateUUID w k).

Definition generateMessageID (w : World) (k : nat) (t : MessageType) : string :=
  message_prefix t +:+ "-" +:+ pretty (w_year w k) +:+ "-" +:+ short_uuid w k.

Definition new_packet (w : World) (k : nat) (t : MessageType) (tableName : string) : DataPacket :=
  NewDataPacket (generateUUID w k) (w_now w k) t tableName.

(** [fmt.Sprintf("%s-P%d", base, n)]. *)
Definition part_id (base : string) (n : nat) : string := base +:+ "-P" +:+ pretty n.

Definition has_dictionary (schema : Schema) : bool :=
  match s_Dictionary schema with Some d => (0 <? length (dict_Entries d))%nat | None => false end.

(** The body of the loop over the parts in [GenerateReference]; [i] counts from zero. *)
Definition reference_part (w : World) (k : nat) (tableName base : string) (schema : Schema) (total i : nat)
    (partition : list (list string)) : DataPacket :=
  let p := new_packet w k TypeReference tableName in
  let p := if has_dictionary schema then set_p_Version "1.4" p else p in
  let h := p_Header p in
  set_p_rawRows partition
    (set_p_Schema schema
       (set_p_Header (MkHeader (h_Type h) (h_TableName h) (part_id base (S i)) (h_InReplyTo h)
                        (Z.of_nat (S i)) (Z.of_nat total) (Z.of_nat (length partition)) (h_Timestamp h)
                        (h_Sender h) (h_Recipient h)) p)).

Section Generate.
Context {C : GoCase}.

Definition detect_if (g : Generator) (rows : list (list string)) (schema : Schema)
    : list (list string) * Schema :=
  if negb (skipSpecialValues g) then DetectAndApply rows schema else (rows, schema).

Definition GenerateReference (w : World) (g : Generator) (tableName : string) (schema : Schema)
    (rows : list (list string)) : result dict_error (list DataPacket) :=
  _ ← (match s_Dictionary schema with
       | Some d => if (0 <? length (dict_Entries d))%nat then ValidateDictionary (dict_Entries d) else Ok ()
       | None => Ok ()
       end);
  let '(rows, schema) := detect_if g rows schema in
  let partitions := partitionRows g rows in
  let base := generateMessageID w 0 TypeReference in
  Ok (imap (fun i partition =>
        reference_part w (S i) tableName base schema (length partitions) i partition) partitions).

Definition GenerateRequest (w : World) (tableName : string) (query : option Query) (sender recipient : string)
    : DataPacket :=
  let p := new_packet w 0 TypeRequest tableName in
  let h := p_Header p in
  let p := set_p_Header (MkHeader (h_Type h) (h_TableName h) (generateMessageID w 1 TypeRequest)
             (h_InReplyTo h) (h_PartNumber h) (h_TotalParts h) (h_RecordsInPart h) (h_Timestamp h)
             sender recipient) p in
  match query with
  | Some q => MkDataPacket (p_Protocol p) (p_Version p) (p_XXH3 p) (p_Header p) (Some q) (p_QueryContext p)
                (p_PipelineContext p) (p_Schema p) (p_Data p) (p_AlarmDetails p) (p_rawRows p)
  | None => p
  end.

Definition response_part (w : World) (k : nat) (tableName base inReplyTo sender recipient : string)
    (queryContext : option QueryContext) (schema : Schema) (total i : nat)
    (partition : list (list string)) : DataPacket :=
  let p := new_packet w k TypeResponse tableName in
  let h := p_Header p in
  MkDataPacket (p_Protocol p) (p_Version p) (p_XXH3 p)
    (MkHeader (h_Type h) (h_TableName h) (part_id base (S i)) inReplyTo (Z.of_nat (S i))
       (Z.of_nat total) (Z.of_nat (length partition)) (h_Timestamp h) sender recipient)
    (p_Query p) (if (i =? 0)%nat then queryContext else p_QueryContext p) (p_PipelineContext p)
    schema (rowsToDataMasked partition (buildEscapeMask schema)) (p_AlarmDetails p) (p_rawRows p).

Definition GenerateResponse (w : World) (g : Generator) (tableName inReplyTo : string) (schema : Schema)
    (rows : list (list string)) (queryContext : option QueryContext) (sender recipient : string)
    : list DataPacket :=
  let '(rows, schema) := detect_if g rows schema in
  let partitions := partitionRows g rows in
  let base := generateMessageID w 0 TypeResponse in
  imap (fun i partition =>
    response_part w (S i) tableName base inReplyTo sender recipient queryContext schema
      (length partitions) i partition) partitions.

Definition text_field (name : string) (len : Z) (key : bool) : Field :=
  MkField name "TEXT" len 0 0 key "" "" false false None "".

(** [createdAt] is the formatted clock reading. *)
Definition GenerateError (w : World) (createdAt packageUUID pipeline errorCode errorMessage : string)
    : DataPacket :=
  let p := new_packet w 0 TypeError "tdtp_errors" in
  let h := p_Header p in
  let id := "ERR-" +:+ pretty (w_year w 1) +:+ "-" +:+ short_uuid w 1 +:+ "-P1" in
  set_p_Data (RowsToData [[packageUUID; pipeline; errorCode; errorMessage; createdAt]])
    (set_p_Schema
       (set_s_Fields [text_field "package_uuid" 36 true; text_field "pipeline" 255 false;
                      text_field "error_code" 64 false; text_field "error_message" 1000 false;
                      MkField "created_at" "TIMESTAMP" 0 0 0 false "UTC" "" false false None ""] zero_Schema)
       (set_p_Header (MkHeader (h_Type h) (h_TableName h) id (h_InReplyTo h) 1 1 1 (h_Timestamp h)
                        (h_Sender h) (h_Recipient h)) p)).

Definition GenerateAlarm (w : World) (tableName severity code message : string) (affectedRecords : Z)
    (schema : Schema) (rows : list (list string)) : DataPacket :=
  let p := new_packet w 0 TypeAlarm tableName in
  let h := p_Header p in
  MkDataPacket (p_Protocol p) (p_Version p) (p_XXH3 p)
    (MkHeader (h_Type h) (h_TableName h) (generateMessageID w 1 TypeAlarm) (h_InReplyTo h)
       (h_PartNumber h) (h_TotalParts h) (h_RecordsInPart h) (h_Timestamp h) (h_Sender h) (h_Recipient h))
    (p_Query p) (p_QueryContext p) (p_PipelineContext p) schema
    (rowsToDataMasked rows (buildEscapeMask schema))
    (Some (MkAlarmDetails severity code message "" affectedRecords)) (p_rawRows p).
End Generate.

(** [rowsToDataWithCompression]; the compressor is the callback, [None] when nil. *)
Definition plain_data (rowStrings : list string) : Data := set_d_Rows (map MkRow rowStrings) zero_Data.
Definition rowsToDataWithCompression {E} (g : Generator) (rows : list (list string))
    (compressor : option (list string -> Z -> result E string)) : result E Data :=
  let rowStrings := map JoinRowEscaped rows in
  match compressor with
  | None => Ok (plain_data rowStrings)
  | Some f =>
      if negb (co_Enabled (compression g)) then Ok (plain_data rowStrings) else
      let totalSize := foldl (fun n s => n + Z.of_nat (String.length s))%Z 0%Z rowStrings in
      if (totalSize <? co_MinSize (compression g))%Z then Ok (plain_data rowStrings) else
      compressed ← f rowStrings (co_Level (compression g));
      Ok (set_d_Rows [MkRow compressed] (set_d_Compression (co_Algorithm (compression g)) zero_Data))
  end.

(** ** Lemmas: parts *)

Definition part_size (part : list (list string)) : Z := foldr (fun row n => estimateRowSize row + n)%Z 0%Z part.

Lemma part_size_app (a b : list (list string)) : part_size (a ++ b) = (part_size a + part_size b)%Z.
Proof. unfold part_size. induction a as [|r a IH]; simpl; lia. Qed.

Lemma part_size_one (row : list string) : part_size [row] = estimateRowSize row.
Proof. unfold part_size. cbn [foldr]. lia. Qed.
#[global] Arguments part_size : simpl never.
#[global] Arguments estimateRowSize : simpl never.

(** A part within the budget: one row, however large, or rows that fit together. *)
Definition within_budget (max : Z) (part : list (list string)) : Prop :=
  length part <= 1 \/ (part_size part + packetOverheadSize <= max)%Z.

(** Every part is as full as it can be: its successor's first row would not have fitted. *)
Fixpoint greedy (max : Z) (parts : list (list (list string))) : Prop :=
  match parts with
  | part :: rest =>
      match rest with
      | (row :: _) :: _ => (max < part_size part + estimateRowSize row + packetOverheadSize)%Z
      | _ => True
      end /\ greedy max rest
  | [] => True
  end.

(** The first row of the parts still to come is the first row of [current], or of [rows]. *)
Lemma partition_loop_head (max : Z) (row : list string) (cur : list (list string)) (n : Z)
    (rows : list (list string)) :
  exists part rest, partition_loop max (row :: cur) n rows = (row :: part) :: rest.
Proof.
  revert cur n. induction rows as [|r rows IH]; intros cur n; simpl; [by eexists _, _|].
  destruct (_ && _); [by eexists _, _|]. apply IH.
Qed.

Lemma partition_loop_correct (max : Z) (rows current : list (list string)) :
  within_budget max current ->
  let parts := partition_loop max current (part_size current) rows in
  concat parts = current ++ rows /\ Forall (fun part => part <> []) parts
  /\ Forall (within_budget max) parts /\ greedy max parts.
Proof.
  revert current. induction rows as [|row rows IH]; intros current Hw; simpl.
  { destruct current as [|r current]; simpl; [done|]. rewrite app_nil_r. split_and!; auto. }
  destruct ((max <? _)%Z && _) eqn:E.
  - apply andb_true_iff in E as [E1 E2]. destruct current as [|r current]; [done|].
    destruct (IH [row]) as (H1 & H2 & H3 & H4); [by left|].
    rewrite part_size_one in *.
    simpl. rewrite H1. split_and!; [done|by constructor|by constructor| |done].
    destruct (partition_loop_head max row [] (estimateRowSize row) rows) as (part & rest & ->). lia.
  - replace (part_size current + estimateRowSize row)%Z with (part_size (current ++ [row]))
      by (by rewrite part_size_app, part_size_one).
    destruct (IH (current ++ [row])) as (H1 & H2 & H3 & H4).
    { destruct current as [|r current]; [by left|]. right. rewrite part_size_app, part_size_one.
      cbn [length] in E. rewrite andb_true_r in E. lia. }
    rewrite H1, <- app_assoc. done.
Qed.

Lemma partitionRows_correct (g : Generator) (rows : list (list string)) :
  let parts := partitionRows g rows in
  concat parts = rows /\ parts <> [] /\ (rows <> [] -> Forall (fun part => part <> []) parts)
  /\ Forall (within_budget (maxMessageSize g)) parts /\ greedy (maxMessageSize g) parts.
Proof.
  unfold partitionRows. destruct rows as [|r rows]; cbn [length Nat.eqb].
  { split_and!; try done. constructor; [left; simpl; lia|constructor]. }
  destruct (partition_loop_correct (maxMessageSize g) (r :: rows) []) as (H1 & H2 & H3 & H4); [left; simpl; lia|].
  change 0%Z with (part_size []). split_and!; try done. intros E. by rewrite E in H1.
Qed.

(** ** Lemmas: packets *)

Lemma concat_map_imap {A B C} (f : nat -> A -> B) (g : B -> list C) (h : A -> list C) (l : list A) :
  (forall i x, x ∈ l -> g (f i x) = h x) -> concat (map g (imap f l)) = concat (map h l).
Proof.
  revert f. induction l as [|x l IH]; intros f H; [done|].
  rewrite imap_cons. simpl. rewrite H by constructor. rewrite IH; [done|].
  intros i y Hy. apply H. by constructor.
Qed.

Lemma part_id_nonempty (base : string) (n : nat) : part_id base n <> "".
Proof. unfold part_id. by destruct base. Qed.

Lemma reference_part_GetRows (w : World) (k : nat) (t base : string) (schema : Schema) (total i : nat)
    (part : list (list string)) : GetRows (reference_part w k t base schema total i part) = part.
Proof.
  unfold GetRows, reference_part. simpl. destruct part; simpl; [|done].
  by destruct (has_dictionary schema).
Qed.

(** A part number within the number of parts. *)
Lemma part_ok_lookup {A} (parts : list A) (i : nat) (x : A) :
  parts !! i = Some x -> part_ok (Z.of_nat (S i)) (Z.of_nat (length parts)).
Proof. intros H%lookup_lt_Some. right. lia. Qed.

Lemma reference_part_valid (w : World) (k : nat) (t base : string) (schema : Schema) (total i : nat)
    (part : list (list string)) :
  t <> "" -> w_now w k <> 0%Z -> (part <> [] -> s_Fields schema <> []) ->
  part_ok (Z.of_nat (S i)) (Z.of_nat total) ->
  valid_packet (MaterializeRows (reference_part w k t base schema total i part)).
Proof.
  intros Ht Hw Hs Hp. unfold MaterializeRows, reference_part.
  destruct part as [|r part]; destruct (has_dictionary schema); split; simpl; try done;
    try apply part_id_nonempty; auto; try (by rewrite length_map);
    rewrite list_elem_of_In; simpl; auto.
Qed.

Lemma detect_if_fields {C : GoCase} (g : Generator) (rows rows' : list (list string)) (schema schema' : Schema) :
  (rows <> [] -> s_Fields schema <> []) -> detect_if g rows schema = (rows', schema') ->
  rows' <> [] -> s_Fields schema' <> [].
Proof.
  unfold detect_if. intros Hs. destruct (negb (skipSpecialValues g)); [|by intros [= <- <-]].
  intros E. pose proof (DetectAndApply_shape rows schema) as H. rewrite E in H. destruct H as [H1 H2].
  intros Hr Hf. rewrite Hf in H2. destruct rows; [by destruct rows'|].
  by destruct (s_Fields schema); [destruct Hs|].
Qed.

(** ** Properties *)

(** Splitting a table into parts is sound, tight and complete: the parts, in order, are exactly the
    rows; no part is empty unless the table is; every part of more than one row fits the message size;
    and the split is greedy, so no part could have taken the next one's first row. *)
Theorem partition_rows_correct (g : Generator) (rows : list (list string)) :
  let parts := partitionRows g rows in
  concat parts = rows /\ parts <> [] /\ (rows <> [] -> Forall (fun part => part <> []) parts)
  /\ Forall (within_budget (maxMessageSize g)) parts /\ greedy (maxMessageSize g) parts.
Proof. apply partitionRows_correct. Qed.

(** What [GenerateReference] hands to the transport: for a named table, a running clock and a schema
    with columns whenever there are rows, the packets hold, in order, exactly the rows after the encoding
    of special values, each with the whole schema; they are numbered from one to their count; and each
    of them passes the parser's validation once its rows are written out. *)
Theorem generate_reference_correct {C : GoCase} (w : World) (g : Generator) (t : string) (schema : Schema)
    (rows : list (list string)) (packets : list DataPacket) :
  t <> "" -> (forall k, w_now w k <> 0%Z) -> (rows <> [] -> s_Fields schema <> []) ->
  GenerateReference w g t schema rows = Ok packets ->
  let '(rows', schema') := detect_if g rows schema in
  concat (map GetRows packets) = rows'
  /\ forall i p, packets !! i = Some p ->
       p_Schema p = schema' /\ h_PartNumber (p_Header p) = Z.of_nat (S i)
       /\ h_TotalParts (p_Header p) = Z.of_nat (length packets)
       /\ valid_packet (MaterializeRows p).
Proof.
  intros Ht Hw Hs. unfold GenerateReference. destruct (match s_Dictionary schema with Some _ => _ | None => _ end); [simpl|done].
  destruct (detect_if g rows schema) as [rows' schema'] eqn:Ed. intros [= <-].
  destruct (partitionRows_correct g rows') as (Hc & Hne & Hnn & _).
  split.
  - rewrite (concat_map_imap _ _ id) by (intros; apply reference_part_GetRows). by rewrite map_id.
  - intros i p. rewrite list_lookup_imap, length_imap. destruct (partitionRows g rows' !! i) as [part|] eqn:E; [|done].
    intros [= <-]. split_and!; try by (unfold reference_part; simpl; destruct (has_dictionary schema')).
    apply reference_part_valid; eauto using part_ok_lookup.
    intros Hp. eapply detect_if_fields; [exact Hs|exact Ed|]. intros ->.
    unfold partitionRows in E; simpl in E. destruct i as [|[]]; simpl in E; congruence.
Qed.

Definition demo_world : World :=
  MkWorld (fun k => Some (replicate 16 (N.of_nat k))) (fun k => 0%N) (fun k => 1%Z) (fun k => 2024%N).

Lemma generate_reference_correct_witness :
  exists packets,
  GenerateReference (C := ascii_case) demo_world (SetMaxMessageSize 5100 NewGenerator) "prices" demo_specials_schema
    demo_specials_rows = Ok packets
  /\ length packets = 3
  /\ concat (map GetRows packets) = (DetectAndApply (C := ascii_case) demo_specials_rows demo_specials_schema).1.
Proof.
  eexists. split; [reflexivity|]. split; [reflexivity|].
  pose proof (generate_reference_correct (C := ascii_case) demo_world (SetMaxMessageSize 5100 NewGenerator) "prices"
    demo_specials_schema demo_specials_rows _ ltac:(done) ltac:(done) ltac:(done) eq_refl) as H.
  destruct H as [H _]. exact H.
Defined.

Lemma Forall_part {A} (P : A -> Prop) (parts : list (list A)) (part : list A) :
  Forall P (concat parts) -> part ∈ parts -> Forall P part.
Proof. rewrite List.Forall_concat, Forall_forall. auto. Qed.

Lemma response_part_rows (w : World) (k : nat) (t base inReplyTo sender recipient : string)
    (qc : option QueryContext) (schema : Schema) (total i : nat) (part : list (list string)) :
  good_rows part -> Forall (fun row => clean_row 0 (buildEscapeMask schema) row = true) part ->
  GetRows (response_part w k t base inReplyTo sender recipient qc schema total i part) = part.
Proof.
  intros Hg Hc. rewrite GetRows_data by done. unfold response_part. cbn [p_Data].
  rewrite rowsToDataMasked_clean by done.
  by apply ParseRows_RowsToData.
Qed.

Lemma response_part_valid (w : World) (k : nat) (t base inReplyTo sender recipient : string)
    (qc : option QueryContext) (schema : Schema) (total i : nat) (part : list (list string)) :
  t <> "" -> w_now w k <> 0%Z -> inReplyTo <> "" -> (part <> [] -> s_Fields schema <> []) ->
  part_ok (Z.of_nat (S i)) (Z.of_nat total) ->
  valid_packet (response_part w k t base inReplyTo sender recipient qc schema total i part).
Proof.
  intros Ht Hw Hi Hs Hp. split; simpl; try done; try apply part_id_nonempty.
  - rewrite list_elem_of_In; simpl; auto.
  - intros _ _ Hr. apply Hs. by destruct part.
  - by rewrite length_map.
Qed.

(** What [GenerateResponse] hands to the transport: for a named table, a running clock, a request to
    answer and a schema with columns whenever there are rows, every packet passes the parser's
    validation and is numbered within the parts; and when the encoded rows are non-empty and their
    numeric, boolean and date cells need no escaping, the packets hold exactly those rows in order. *)
Theorem generate_response_correct {C : GoCase} (w : World) (g : Generator)
    (t inReplyTo sender recipient : string) (schema : Schema) (rows : list (list string))
    (qc : option QueryContext) :
  t <> "" -> inReplyTo <> "" -> (forall k, w_now w k <> 0%Z) -> (rows <> [] -> s_Fields schema <> []) ->
  let '(rows', schema') := detect_if g rows schema in
  let packets := GenerateResponse w g t inReplyTo schema rows qc sender recipient in
  (forall i p, packets !! i = Some p -> valid_packet p /\ p_Schema p = schema'
     /\ h_PartNumber (p_Header p) = Z.of_nat (S i) /\ h_TotalParts (p_Header p) = Z.of_nat (length packets))
  /\ (good_rows rows' -> Forall (fun row => clean_row 0 (buildEscapeMask schema') row = true) rows' ->
      concat (map GetRows packets) = rows').
Proof.
  intros Ht Hi Hw Hs. unfold GenerateResponse. destruct (detect_if g rows schema) as [rows' schema'] eqn:Ed.
  destruct (partitionRows_correct g rows') as (Hc & Hne & Hnn & _). split.
  - intros i p. rewrite list_lookup_imap, length_imap. destruct (partitionRows g rows' !! i) as [part|] eqn:E; [|done].
    intros [= <-]. split_and!; [|done..].
    apply response_part_valid; eauto using part_ok_lookup.
    intros Hp. eapply detect_if_fields; [exact Hs|exact Ed|]. intros ->.
    unfold partitionRows in E; simpl in E. destruct i as [|[]]; simpl in E; congruence.
  - intros Hg Hm. rewrite (concat_map_imap _ _ id); [by rewrite map_id|].
    intros i part Hin. apply response_part_rows.
    + by eapply Forall_part; [rewrite Hc|].
    + by eapply Forall_part; [rewrite Hc|].
Qed.

Lemma generate_response_correct_witness :
  concat (map GetRows (GenerateResponse (C := ascii_case) demo_world (SetMaxMessageSize 5100 NewGenerator) "prices"
    "REQ-1" demo_specials_schema demo_specials_rows None "a" "b"))
  = (DetectAndApply (C := ascii_case) demo_specials_rows demo_specials_schema).1.
Proof.
  pose proof (generate_response_correct (C := ascii_case) demo_world (SetMaxMessageSize 5100 NewGenerator) "prices"
    "REQ-1" "a" "b" demo_specials_schema demo_specials_rows None ltac:(done) ltac:(done) ltac:(done) ltac:(done)) as H.
  destruct H as [_ H]. apply H; repeat constructor; done.
Defined.

(** A NULL costs the dictionary: when the first cell of some row is NULL, [GenerateReference] drops
    the schema's value dictionary, although it validated it, and marks no packet as version 1.4. *)
Theorem generate_reference_drops_dictionary {C : GoCase} (w : World) (g : Generator) (t : string)
    (schema : Schema) (rows : list (list string)) (packets : list DataPacket) :
  skipSpecialValues g = false -> s_Fields schema <> [] ->
  Exists (fun row => head row = Some nullSentinel) rows ->
  GenerateReference w g t schema rows = Ok packets ->
  Forall (fun p => s_Dictionary (p_Schema p) = None /\ p_Version p = "1.0") packets.
Proof.
  intros Hg Hf Hn. unfold GenerateReference, detect_if. rewrite Hg. simpl.
  destruct (match s_Dictionary schema with Some _ => _ | None => _ end); [simpl|done].
  destruct (DetectAndApply rows schema) as [rows' schema'] eqn:E.
  assert (Hd : s_Dictionary schema' = None) by (eapply DetectAndApply_drops; eauto).
  intros [= <-]. apply Forall_lookup. intros i p. rewrite list_lookup_imap.
  destruct (partitionRows g rows' !! i); [|done]. intros [= <-].
  unfold reference_part, has_dictionary. rewrite Hd. simpl. done.
Qed.

Definition demo_dict_schema : Schema :=
  set_s_Dictionary (Some (MkDictionary [MkDictEntry "@A" "Alpha"])) demo_specials_schema.

Lemma generate_reference_drops_dictionary_witness :
  exists packets,
  GenerateReference (C := ascii_case) demo_world NewGenerator "prices" demo_dict_schema [[nullSentinel]] = Ok packets
  /\ packets <> [] /\ Forall (fun p => s_Dictionary (p_Schema p) = None /\ p_Version p = "1.0") packets.
Proof.
  eexists. split; [reflexivity|]. split; [done|].
  apply (generate_reference_drops_dictionary (C := ascii_case) demo_world NewGenerator "prices" demo_dict_schema
    [[nullSentinel]]); [done..|by left|reflexivity].
Defined.

Lemma uuid_digits (b : N) : (b < 256)%N ->
  hex_char (uuid_version b / 16) = "4"%char
  /\ hex_char (uuid_variant b / 16) ∈ ["8"; "9"; "a"; "b"]%char.
Proof.
  intros Hb.
  pose (ok b := Ascii.eqb (hex_char (uuid_version b / 16)) "4"
     && existsb (Ascii.eqb (hex_char (uuid_variant b / 16))) ["8"; "9"; "a"; "b"]%char).
  assert (H : ok b = true) by (revert b Hb; apply (forall_below 256 ok); vm_compute; reflexivity).
  unfold ok in H. apply andb_true_iff in H as [H1 H2]. apply Ascii.eqb_eq in H1. split; [done|].
  apply existsb_exists in H2 as (c & Hc & E). apply Ascii.eqb_eq in E. subst. by apply list_elem_of_In.
Qed.

Lemma Forall_lookup_ex {A} (P : A -> Prop) (l : list A) (i : nat) :
  i < length l -> Forall P l -> exists x, l !! i = Some x /\ P x.
Proof. intros H HP. destruct (lookup_lt_is_Some_2 l i H) as [x Hx]. exists x. rewrite Forall_lookup in HP. eauto. Qed.

(** Identifiers are version 4 UUIDs: from any 16 random bytes [generateUUID] builds 36 characters with
    the version digit 4 and one of the variant digits 8, 9, a and b in their places. *)
Theorem uuid_v4_shape (w : World) (k : nat) (b : list N) :
  w_rand w k = Some b -> length b = 16 -> Forall (fun x => x < 256)%N b ->
  String.length (generateUUID w k) = 36
  /\ String.get 14 (generateUUID w k) = Some "4"%char
  /\ exists c, String.get 19 (generateUUID w k) = Some c /\ c ∈ ["8"; "9"; "a"; "b"]%char.
Proof.
  intros Hr Hl Hb. unfold generateUUID. rewrite Hr.
  assert (H6 : exists x, b !! 6 = Some x /\ (x < 256)%N) by (apply Forall_lookup_ex; [lia|done]).
  assert (H8 : exists x, b !! 8 = Some x /\ (x < 256)%N) by (apply Forall_lookup_ex; [lia|done]).
  destruct H6 as (x & Hx & Hx6), H8 as (y & Hy & Hy8). clear Hb.
  do 16 (destruct b as [|? b]; [done|]). destruct b; [clear Hl|done]. simplify_eq/=.
  destruct (uuid_digits x Hx6) as [E _], (uuid_digits y Hy8) as [_ E'].
  split; [reflexivity|]. split; [by rewrite <- E|]. eexists. split; [reflexivity|exact E'].
Qed.

Lemma uuid_v4_shape_witness : String.get 14 (generateUUID demo_world 255) = Some "4"%char.
Proof.
  destruct (uuid_v4_shape demo_world 255 (replicate 16 255%N) eq_refl eq_refl) as (_ & H & _); [|exact H].
  by apply Forall_replicate.
Defined.
