(* ===== verification/Streaming.v ===== *)
(** * Streaming generation

    [src/pkg/core/packet/streaming.go]: the goroutine that reads rows from a channel and sends parts as
    they fill up.  What the [select] of the loop receives is an event (a row, the closing of the channel,
    the cancellation of the context); the loop is a step function on its local variables, run over a
    sequence of events.  [GeneratePartsStream] and [GeneratePartsStreamWithSender] are the same loop with
    two constructors of parts. *)

From Stdlib Require Import ZArith Lia Ascii String.
From stdpp Require Import base list strings pretty.
From S2P Require Import Prelude PacketTypes RowCodec PacketOps Compact PacketParser PacketGenerator.

Record StreamingGenerator := MkStreamingGenerator { sg_Generator : Generator; partSizeBytes : Z }.
Definition NewStreamingGenerator : StreamingGenerator :=
  MkStreamingGenerator NewGenerator DefaultMaxMessageSize.
Definition SetPartSize (size : Z) (sg : StreamingGenerator) : StreamingGenerator :=
  MkStreamingGenerator (sg_Generator sg) size.

Record PartResult := MkPartResult {
  pr_Packet : option DataPacket;
  pr_PartNum : nat;
  pr_RowsCount : nat;
  pr_Error : bool;  (** [ctx.Err()] *)
}.
Record StreamingSummary := MkStreamingSummary {
  ss_MessageIDBase : string;
  ss_TotalParts : nat;
  ss_TotalRows : nat;
}.

(** ** createPart, createPartWithSender, UpdatePartTotalParts *)

(** The clock and uuid readings of the packet for part [partNum] are those of call [partNum]. *)
Definition createPart (w : World) (messageIDBase : string) (partNum totalParts : nat) (tableName : string)
    (msgType : MessageType) (schema : Schema) (rows : list (list string)) : DataPacket :=
  let p := new_packet w partNum msgType tableName in
  let h := p_Header p in
  set_p_Data (RowsToData rows)
    (set_p_Schema schema
       (set_p_Header (MkHeader (h_Type h) (h_TableName h) (part_id messageIDBase partNum) (h_InReplyTo h)
                        (Z.of_nat partNum) (Z.of_nat totalParts) (Z.of_nat (length rows)) (h_Timestamp h)
                        (h_Sender h) (h_Recipient h)) p)).

Definition createPartWithSender (w : World) (messageIDBase : string) (partNum totalParts : nat)
    (tableName : string) (msgType : MessageType) (inReplyTo sender recipient : string) (schema : Schema)
    (rows : list (list string)) : DataPacket :=
  let p := createPart w messageIDBase partNum totalParts tableName msgType schema rows in
  let h := p_Header p in
  set_p_Header (MkHeader (h_Type h) (h_TableName h) (h_MessageID h) inReplyTo (h_PartNumber h)
                  (h_TotalParts h) (h_RecordsInPart h) (h_Timestamp h) sender recipient) p.

Definition set_TotalParts (n : Z) (p : DataPacket) : DataPacket :=
  let h := p_Header p in
  set_p_Header (MkHeader (h_Type h) (h_TableName h) (h_MessageID h) (h_InReplyTo h) (h_PartNumber h) n
                  (h_RecordsInPart h) (h_Timestamp h) (h_Sender h) (h_Recipient h)) p.
Definition UpdatePartTotalParts (packets : list DataPacket) (totalParts : Z) : list DataPacket :=
  map (set_TotalParts totalParts) packets.

(** ** The loop *)

Inductive event := EvRow (row : list string) | EvClosed | EvCancelled.

Record stream_state := MkStreamState {
  partNum : nat;
  totalRows : nat;
  currentPartRows : list (list string);
  currentSize : Z;
}.
Definition init_state : stream_state := MkStreamState 1 0 [] 0.

Section Loop.
Context (size : Z) (base : string) (mk : nat -> list (list string) -> DataPacket).

Definition part_result (n : nat) (rows : list (list string)) : PartResult :=
  MkPartResult (Some (mk n rows)) n (length rows) false.

(** One iteration: what is sent, and the next state or the summary. *)
Definition stream_step (st : stream_state) (e : event)
    : list PartResult * (stream_state + StreamingSummary) :=
  match e with
  | EvCancelled =>
      ([MkPartResult None 0 0 true], inr (MkStreamingSummary base (partNum st - 1) (totalRows st)))
  | EvClosed =>
      if (0 <? length (currentPartRows st))%nat
      then ([part_result (partNum st) (currentPartRows st)],
            inr (MkStreamingSummary base (partNum st) (totalRows st + length (currentPartRows st))))
      else ([], inr (MkStreamingSummary base (partNum st) (totalRows st)))
  | EvRow row =>
      let rowSize := estimateRowSize row in
      if (size <? currentSize st + rowSize + packetOverheadSize)%Z && (0 <? length (currentPartRows st))%nat
      then ([part_result (partNum st) (currentPartRows st)],
            inl (MkStreamState (S (partNum st)) (totalRows st + length (currentPartRows st)) [row] rowSize))
      else ([], inl (MkStreamState (partNum st) (totalRows st) (currentPartRows st ++ [row])
                       (currentSize st + rowSize)))
  end.

Fixpoint stream_run (st : stream_state) (events : list event) : list PartResult * option StreamingSummary :=
  match events with
  | [] => ([], None)
  | e :: events' =>
      match stream_step st e with
      | (out, inr summary) => (out, Some summary)
      | (out, inl st') => let '(rest, summary) := stream_run st' events' in (out ++ rest, summary)
      end
  end.
End Loop.

Definition GeneratePartsStream (w : World) (sg : StreamingGenerator) (events : list event) (schema : Schema)
    (tableName : string) (msgType : MessageType) : list PartResult * option StreamingSummary :=
  let base := generateMessageID w 0 msgType in
  stream_run (partSizeBytes sg) base
    (fun n rows => createPart w base n 0 tableName msgType schema rows) init_state events.

Definition GeneratePartsStreamWithSender (w : World) (sg : StreamingGenerator) (events : list event)
    (schema : Schema) (tableName : string) (msgType : MessageType) (inReplyTo sender recipient : string)
    : list PartResult * option StreamingSummary :=
  let base := generateMessageID w 0 msgType in
  stream_run (partSizeBytes sg) base
    (fun n rows => createPartWithSender w base n 0 tableName msgType inReplyTo sender recipient schema rows)
    init_state events.

(** ** Lemmas *)

Section LoopLemmas.
Context (size : Z) (base : string) (mk : nat -> list (list string) -> DataPacket).

(** The parts sent for a closed stream of rows, from any state. *)
Lemma stream_closed (st : stream_state) (rows : list (list string)) :
  let parts := partition_loop size (currentPartRows st) (currentSize st) rows in
  stream_run size base mk st (map EvRow rows ++ [EvClosed]) =
    (imap (fun i part => part_result mk (partNum st + i) part) parts,
     Some (MkStreamingSummary base (partNum st + pred (length parts))
             (totalRows st + length (currentPartRows st) + length rows))).
Proof.
  revert st. induction rows as [|row rows IH]; intros [n total cur cs]; simpl.
  - destruct cur as [|r cur]; simpl; rewrite ?Nat.add_0_r; done.
  - destruct (_ && _) eqn:E; rewrite IH; simpl.
    + destruct cur as [|r cur]; [by rewrite andb_false_r in E|].
      destruct (partition_loop_head size row [] (estimateRowSize row) rows) as (part & rest & Hp).
      rewrite Hp. simpl. rewrite Nat.add_0_r. f_equal; [|do 2 f_equal; lia].
      f_equal. rewrite Nat.add_1_r. f_equal.
      apply imap_ext. intros i x _. simpl. by rewrite !Nat.add_succ_r.
    + rewrite length_app. simpl. do 3 f_equal. lia.
Qed.

(** A cancelled stream: the parts sent are numbered and complete, and the rows not yet sent are the
    suffix that stayed in the current part. *)
Lemma stream_cancelled (st : stream_state) (rows : list (list string)) :
  1 <= partNum st ->
  exists parts kept,
    currentPartRows st ++ rows = concat parts ++ kept
    /\ stream_run size base mk st (map EvRow rows ++ [EvCancelled]) =
       (imap (fun i part => part_result mk (partNum st + i) part) parts ++ [MkPartResult None 0 0 true],
        Some (MkStreamingSummary base (partNum st - 1 + length parts) (totalRows st + length (concat parts)))).
Proof.
  revert st. induction rows as [|row rows IH]; intros [n total cur cs] Hn; simpl in *.
  - exists [], cur. rewrite app_nil_r. simpl. rewrite !Nat.add_0_r. done.
  - destruct (_ && _) eqn:E.
    + destruct (IH (MkStreamState (S n) (total + length cur) [row] (estimateRowSize row))) as (parts & kept & H1 & H2);
        [simpl; lia|].
      rewrite H2. exists (cur :: parts), kept. simpl in *. rewrite H1, <- app_assoc. split; [done|].
      rewrite length_app, Nat.add_0_r. f_equal; [|do 2 f_equal; lia].
      do 2 f_equal. apply imap_ext. intros i x _. simpl. by rewrite Nat.add_succ_r.
    + destruct (IH (MkStreamState n total (cur ++ [row]) (cs + estimateRowSize row))) as (parts & kept & H1 & H2);
        [done|].
      rewrite H2. exists parts, kept. simpl in *. rewrite <- app_assoc in H1. done.
Qed.
End LoopLemmas.

Lemma createPart_valid (w : World) (base : string) (n total : nat) (t : string) (ty : MessageType)
    (schema : Schema) (rows : list (list string)) :
  t <> "" -> (forall k, w_now w k <> 0%Z) -> ty ∈ [TypeReference; TypeRequest; TypeAlarm; TypeError] ->
  s_Fields schema <> [] -> part_ok (Z.of_nat n) (Z.of_nat total) ->
  valid_packet (createPart w base n total t ty schema rows).
Proof.
  intros Ht Hw Hty Hs Hp. split; simpl; try done; try apply part_id_nonempty; auto.
  - rewrite !elem_of_cons in *. naive_solver.
  - intros ->. by rewrite !elem_of_cons, elem_of_nil in Hty; naive_solver.
  - by rewrite length_map.
Qed.

(** ** Properties *)

(** C12. Streaming refines batch generation: when the channel is closed after some rows, the parts sent are
    exactly the parts [partitionRows] would have cut for the same size, numbered from one, each holding
    its rows; and the summary counts the parts and the rows. *)
Theorem streaming_refines_batch (w : World) (sg : StreamingGenerator) (schema : Schema) (t : string)
    (ty : MessageType) (rows : list (list string)) :
  rows <> [] ->
  let base := generateMessageID w 0 ty in
  let parts := partitionRows (SetMaxMessageSize (partSizeBytes sg) NewGenerator) rows in
  GeneratePartsStream w sg (map EvRow rows ++ [EvClosed]) schema t ty =
    (imap (fun i part => MkPartResult (Some (createPart w base (S i) 0 t ty schema part)) (S i) (length part) false)
       parts,
     Some (MkStreamingSummary base (length parts) (length rows)))
  /\ (good_rows rows -> concat (map (fun r => from_option GetRows [] (pr_Packet r))
         (GeneratePartsStream w sg (map EvRow rows ++ [EvClosed]) schema t ty).1) = rows).
Proof.
  intros Hr base parts. unfold GeneratePartsStream. rewrite stream_closed. cbn [partNum currentPartRows currentSize totalRows init_state].
  destruct (partitionRows_correct (SetMaxMessageSize (partSizeBytes sg) NewGenerator) rows) as (Hc & Hne & _).
  assert (Hp : partition_loop (partSizeBytes sg) [] 0 rows = parts) by (unfold parts, partitionRows; by destruct rows).
  rewrite Hp. split.
  - f_equal. do 2 f_equal. unfold parts in *. destruct (partitionRows _ rows); [done|simpl; lia].
  - intros Hg. simpl. rewrite (concat_map_imap _ _ id); [rewrite map_id; exact Hc|].
    intros i part Hin. simpl. rewrite GetRows_data by done. simpl. apply ParseRows_RowsToData.
    eapply Forall_part; [|exact Hin]. unfold parts. by rewrite Hc.
Qed.

Definition demo_sg : StreamingGenerator := SetPartSize 5060 NewStreamingGenerator.
Definition demo_stream_schema : Schema := set_s_Fields [text_field "v" 0 false] zero_Schema.

Lemma streaming_refines_batch_witness :
  GeneratePartsStream demo_world demo_sg (map EvRow [["a"]; ["bb"]; ["ccc"]] ++ [EvClosed]) demo_stream_schema "t"
    TypeReference <> ([], None).
Proof.
  destruct (streaming_refines_batch demo_world demo_sg demo_stream_schema "t" TypeReference [["a"]; ["bb"]; ["ccc"]])
    as [H _]; [done|]. rewrite H. done.
Defined.

(** Cancellation loses only the part being filled: whatever rows had arrived, they split into parts
    that were all sent, complete and numbered from one, and a remainder that was not; an error result
    follows them, and the summary counts exactly the parts and rows that were sent. *)
Theorem streaming_cancel_prefix (w : World) (sg : StreamingGenerator) (schema : Schema) (t : string)
    (ty : MessageType) (rows : list (list string)) :
  let base := generateMessageID w 0 ty in
  exists parts kept, rows = concat parts ++ kept
  /\ GeneratePartsStream w sg (map EvRow rows ++ [EvCancelled]) schema t ty =
     (imap (fun i part => MkPartResult (Some (createPart w base (S i) 0 t ty schema part)) (S i) (length part) false)
        parts ++ [MkPartResult None 0 0 true],
      Some (MkStreamingSummary base (length parts) (length (concat parts)))).
Proof.
  intros base. unfold GeneratePartsStream.
  destruct (stream_cancelled (partSizeBytes sg) base
    (fun n rows => createPart w base n 0 t ty schema rows) init_state rows) as (parts & kept & H1 & H2); [done|].
  exists parts, kept. split; [exact H1|exact H2].
Qed.

(** A streamed part is not a valid packet until its number of parts is filled in: as sent (with zero
    for unknown) the parser refuses it, and after [UpdatePartTotalParts] with a count that reaches the
    part's number the parser accepts it. *)
Theorem streamed_part_needs_total (w : World) (base : string) (n total : nat) (t : string)
    (ty : MessageType) (schema : Schema) (rows : list (list string)) :
  t <> "" -> (forall k, w_now w k <> 0%Z) -> ty ∈ [TypeReference; TypeRequest; TypeAlarm; TypeError] ->
  s_Fields schema <> [] -> 1 <= n <= total ->
  let p := createPart w base n 0 t ty schema rows in
  validatePacket p = Err VTotalParts
  /\ map validatePacket (UpdatePartTotalParts [p] (Z.of_nat total)) = [Ok ()].
Proof.
  intros Ht Hw Hty Hs Hn p. split.
  - assert (E1 : String.eqb (part_id base n) "" = false) by apply String.eqb_neq, part_id_nonempty.
    assert (E2 : (w_now w n =? 0)%Z = false) by (by apply Z.eqb_neq).
    assert (E3 : String.eqb ty "" = false /\ known_type ty = true /\ String.eqb ty TypeResponse = false).
    { rewrite !elem_of_cons, elem_of_nil in Hty. naive_solver. }
    destruct E3 as (E3 & E4 & E5). apply String.eqb_neq in Ht.
    unfold p, validatePacket. simpl. rewrite Ht, E1, E2, E3, E4, E5. simpl.
    replace (0 <? Z.of_nat n)%Z with true by lia. by replace (Z.of_nat n <? 1)%Z with false by lia.
  - simpl. f_equal. apply validatePacket_ok.
    change (set_TotalParts _ _) with (createPart w base n total t ty schema rows).
    apply createPart_valid; try done. right; lia.
Qed.

Lemma streamed_part_needs_total_witness :
  validatePacket (createPart demo_world "REF-2024" 1 0 "t" TypeReference demo_stream_schema [["a"]]) = Err VTotalParts.
Proof.
  apply (streamed_part_needs_total demo_world "REF-2024" 1 1 "t" TypeReference demo_stream_schema [["a"]]);
    [done..|constructor|done|lia].
Defined.
