(* ===== verification/Lexer.v ===== *)
(** * Lexer: the TDTQL lexer (pkg/core/tdtql/lexer.go)

    The Go lexer walks over the input with [pos], [readPos] and the current byte [ch].  The model keeps
    the bytes from [pos] on ([lx_rest], whose head is [ch]; [ch] is the NUL byte past the end) and
    [pos] itself.  A slice [input[position:l.pos]] is the bytes read since [position].  A NUL byte inside
    the input reads as the end of input, as in the code.  [isLetter] is [unicode.IsLetter] of a single
    byte taken as a code point, hence the Latin-1 letters. *)

From Stdlib Require Import ZArith Lia Ascii String.
From stdpp Require Import base list strings.
From S2P Require Import Prelude Strconv.

Inductive TokenType :=
| TokenEOF | TokenIllegal | TokenIdent | TokenString | TokenNumber
| TokenSelect | TokenFrom | TokenWhere | TokenAnd | TokenOr | TokenNot | TokenIn | TokenBetween
| TokenLike | TokenIs | TokenNull | TokenOrderBy | TokenAsc | TokenDesc | TokenLimit | TokenOffset
| TokenEq | TokenNotEq | TokenLt | TokenLte | TokenGt | TokenGte
| TokenLParen | TokenRParen | TokenComma | TokenStar.

#[export] Instance TokenType_eq_dec : EqDecision TokenType.
Proof. solve_decision. Defined.

Record Token := MkToken { tok_Type : TokenType; tok_Literal : string; tok_Pos : nat }.

Record Lexer := MkLexer { lx_rest : string; lx_pos : nat }.

Definition NewLexer (input : string) : Lexer := MkLexer input 0.

(** [l.ch]. *)
Definition lx_ch (l : Lexer) : ascii := match lx_rest l with "" => NUL | String c _ => c end.

Definition peekChar (l : Lexer) : ascii :=
  match lx_rest l with String _ (String c _) => c | _ => NUL end.

Definition readChar (l : Lexer) : Lexer :=
  MkLexer (match lx_rest l with "" => "" | String _ s => s end) (S (lx_pos l)).

(** ** Byte classes *)

(** [unicode.IsLetter(rune(ch))] for a byte: the letters of Latin-1. *)
Definition isLetter (ch : ascii) : bool :=
  is_ascii_letter ch || Ascii.eqb ch "170" || Ascii.eqb ch "181" || Ascii.eqb ch "186"
  || byte_in "192" "214" ch || byte_in "216" "246" ch || byte_in "248" "255" ch.

Definition isDigit (ch : ascii) : bool := is_ascii_digit ch.

Definition is_space_byte (c : ascii) : bool :=
  Ascii.eqb c " " || Ascii.eqb c "009" || Ascii.eqb c "010" || Ascii.eqb c "013".

Definition is_ident_byte (c : ascii) : bool := isLetter c || isDigit c || Ascii.eqb c "_".

(** ** Scanning loops *)

(** The loop [for P(l.ch) { l.readChar() }]: the bytes read and what is left.  None of the predicates
    holds of NUL, so the loops stop at the end of the input. *)
Fixpoint scan (P : ascii -> bool) (s : string) : string * string :=
  match s with
  | "" => ("", "")
  | String c s' => if P c then let '(w, r) := scan P s' in (String c w, r) else ("", s)
  end.

(** A lexer moved over [w] to [r]. *)
Definition advance (l : Lexer) (w r : string) : Lexer := MkLexer r (lx_pos l + String.length w).

Definition skipWhitespace (l : Lexer) : Lexer :=
  let '(w, r) := scan is_space_byte (lx_rest l) in advance l w r.

Definition readIdentifier (l : Lexer) : string * Lexer :=
  let '(w, r) := scan is_ident_byte (lx_rest l) in (w, advance l w r).

Fixpoint scan_number (hasDecimal : bool) (s : string) : string * string :=
  match s with
  | "" => ("", "")
  | String c s' =>
      if isDigit c || (Ascii.eqb c "." && negb hasDecimal) then
        let '(w, r) := scan_number (hasDecimal || Ascii.eqb c ".") s' in (String c w, r)
      else ("", s)
  end.

Definition readNumber (l : Lexer) : string * Lexer :=
  let '(sign, s) :=
    match lx_rest l with
    | String c s' => if Ascii.eqb c "-" then (chr c, s') else ("", lx_rest l)
    | "" => ("", "")
    end in
  let '(w, r) := scan_number false s in (sign +:+ w, advance l (sign +:+ w) r).

Definition readBracketedIdent (l : Lexer) : string * Lexer :=
  let l := readChar l in
  let '(w, r) := scan (fun c => negb (Ascii.eqb c "]") && negb (Ascii.eqb c NUL)) (lx_rest l) in
  let l := advance l w r in
  (w, if Ascii.eqb (lx_ch l) "]" then readChar l else l).

(** The loop of [readString]: a backslash in front of the quote is kept together with the quote. *)
Fixpoint scan_string (quote : ascii) (s : string) : string * string :=
  match s with
  | "" => ("", "")
  | String c s' =>
      if Ascii.eqb c quote || Ascii.eqb c NUL then ("", s)
      else match s' with
           | String q s'' =>
               if Ascii.eqb c BSLASH && Ascii.eqb q quote
               then let '(w, r) := scan_string quote s'' in (String c (String q w), r)
               else let '(w, r) := scan_string quote s' in (String c w, r)
           | "" => (chr c, "")
           end
  end.

Definition readString (quote : ascii) (l : Lexer) : string * Lexer :=
  let l := readChar l in
  let '(w, r) := scan_string quote (lx_rest l) in
  let l := advance l w r in
  (w, if Ascii.eqb (lx_ch l) quote then readChar l else l).

Definition keywords : list (string * TokenType) :=
  [("SELECT", TokenSelect); ("select", TokenSelect); ("FROM", TokenFrom); ("from", TokenFrom);
   ("WHERE", TokenWhere); ("where", TokenWhere); ("AND", TokenAnd); ("and", TokenAnd);
   ("OR", TokenOr); ("or", TokenOr); ("NOT", TokenNot); ("not", TokenNot);
   ("IN", TokenIn); ("in", TokenIn); ("BETWEEN", TokenBetween); ("between", TokenBetween);
   ("LIKE", TokenLike); ("like", TokenLike); ("IS", TokenIs); ("is", TokenIs);
   ("NULL", TokenNull); ("null", TokenNull); ("ORDER", TokenOrderBy); ("order", TokenOrderBy);
   ("BY", TokenOrderBy); ("by", TokenOrderBy); ("ASC", TokenAsc); ("asc", TokenAsc);
   ("DESC", TokenDesc); ("desc", TokenDesc); ("LIMIT", TokenLimit); ("limit", TokenLimit);
   ("OFFSET", TokenOffset); ("offset", TokenOffset)].

Fixpoint assoc_token (ident : string) (l : list (string * TokenType)) : option TokenType :=
  match l with
  | [] => None
  | (k, t) :: l' => if String.eqb k ident then Some t else assoc_token ident l'
  end.

Definition lookupKeyword (ident : string) : TokenType :=
  match assoc_token ident keywords with Some t => t | None => TokenIdent end.

(** ** [NextToken] *)

(** The token types of the one-byte tokens. *)
Definition single_byte_token (c : ascii) : option TokenType :=
  if Ascii.eqb c "=" then Some TokenEq else if Ascii.eqb c "(" then Some TokenLParen
  else if Ascii.eqb c ")" then Some TokenRParen else if Ascii.eqb c "," then Some TokenComma
  else if Ascii.eqb c "*" then Some TokenStar else None.

(** The operators [!], [<] and [>], which look at the next byte: the token type and whether the
    operator takes both bytes. *)
Definition operator_token (c next : ascii) : option (TokenType * bool) :=
  if Ascii.eqb c "!" then Some (if Ascii.eqb next "=" then (TokenNotEq, true) else (TokenIllegal, false))
  else if Ascii.eqb c "<" then
    Some (if Ascii.eqb next "=" then (TokenLte, true)
          else if Ascii.eqb next ">" then (TokenNotEq, true) else (TokenLt, false))
  else if Ascii.eqb c ">" then Some (if Ascii.eqb next "=" then (TokenGte, true) else (TokenGt, false))
  else None.

Definition NextToken (l : Lexer) : Token * Lexer :=
  let l := skipWhitespace l in
  let pos := lx_pos l in
  let ch := lx_ch l in
  if Ascii.eqb ch NUL then (MkToken TokenEOF "" pos, readChar l)
  else match single_byte_token ch with
  | Some t => (MkToken t (chr ch) pos, readChar l)
  | None =>
  match operator_token ch (peekChar l) with
  | Some (t, true) => (MkToken t (String ch (chr (peekChar l))) pos, readChar (readChar l))
  | Some (t, false) => (MkToken t (chr ch) pos, readChar l)
  | None =>
  if Ascii.eqb ch "-" then
    if isDigit (peekChar l) then let '(w, l) := readNumber l in (MkToken TokenNumber w pos, l)
    else (MkToken TokenIllegal (chr ch) pos, readChar l)
  else if Ascii.eqb ch SQUOTE then let '(w, l) := readString ch l in (MkToken TokenString w pos, l)
  else if Ascii.eqb ch DQUOTE then let '(w, l) := readString ch l in (MkToken TokenIdent w pos, l)
  else if Ascii.eqb ch "[" then let '(w, l) := readBracketedIdent l in (MkToken TokenIdent w pos, l)
  else if isLetter ch then let '(w, l) := readIdentifier l in (MkToken (lookupKeyword w) w pos, l)
  else if isDigit ch then let '(w, l) := readNumber l in (MkToken TokenNumber w pos, l)
  else (MkToken TokenIllegal (string_of_byte ch) pos, readChar l)
  end end.

(** [GetAllTokens]; the fuel is the length of the rest of the input plus one ([all_tokens_enough]). *)
Fixpoint all_tokens (fuel : nat) (l : Lexer) : option (list Token) :=
  match fuel with
  | 0 => None
  | S f =>
      let '(tok, l) := NextToken l in
      if decide (tok_Type tok = TokenEOF) then Some [tok] else cons tok <$> all_tokens f l
  end.
Definition GetAllTokens (l : Lexer) : option (list Token) := all_tokens (S (String.length (lx_rest l))) l.

(** ** Progress: a token other than the end of input takes at least one byte *)

Lemma scan_split (P : ascii -> bool) (s : string) : fst (scan P s) +:+ snd (scan P s) = s.
Proof.
  induction s as [|c s IH]; simpl; [done|]. destruct (P c); [|done].
  destruct (scan P s) as [w r]; simpl in *. by rewrite IH.
Qed.

Lemma scan_number_split (b : bool) (s : string) : fst (scan_number b s) +:+ snd (scan_number b s) = s.
Proof.
  revert b; induction s as [|c s IH]; intros b; simpl; [done|].
  destruct (isDigit c || _) eqn:?; [|done]. specialize (IH (b || Ascii.eqb c ".")).
  destruct (scan_number _ s) as [w r]; simpl in *. by rewrite IH.
Qed.

Lemma scan_string_split (q : ascii) (s : string) : fst (scan_string q s) +:+ snd (scan_string q s) = s.
Proof.
  assert (H : forall n s, String.length s <= n -> fst (scan_string q s) +:+ snd (scan_string q s) = s).
  { clear s. induction n as [|n IH]; intros [|c s] Hl; simpl in *; try done; [lia|].
    destruct (Ascii.eqb c q || _); [done|]. destruct s as [|d s]; [done|].
    destruct (Ascii.eqb c BSLASH && _) eqn:E.
    - specialize (IH s). destruct (scan_string q s) as [w r]; simpl in *. rewrite IH by lia. done.
    - specialize (IH (String d s)). destruct (scan_string q (String d s)) as [w r]; cbn [fst snd] in *.
      cbn [String.append]. rewrite IH by (simpl in *; lia). done. }
  by apply (H (String.length s)).
Qed.

Definition lx_len (l : Lexer) : nat := String.length (lx_rest l).

Lemma readChar_len (l : Lexer) : lx_len (readChar l) = lx_len l - 1.
Proof. destruct l as [[|c s] p]; unfold lx_len; simpl; lia. Qed.

Lemma lx_ch_len (l : Lexer) : lx_ch l <> NUL -> 0 < lx_len l.
Proof. destruct l as [[|c s] p]; unfold lx_len; simpl; [done|lia]. Qed.

Lemma skipWhitespace_len (l : Lexer) : lx_len (skipWhitespace l) <= lx_len l.
Proof.
  unfold skipWhitespace, lx_len. pose proof (scan_split is_space_byte (lx_rest l)) as H.
  destruct (scan _ _) as [w r]; simpl in *. rewrite <- H, str_length_app. lia.
Qed.

Lemma readString_len (q : ascii) (l : Lexer) : lx_ch l <> NUL -> lx_len (snd (readString q l)) < lx_len l.
Proof.
  intros Hc. apply lx_ch_len in Hc. unfold readString.
  pose proof (scan_string_split q (lx_rest (readChar l))) as H. pose proof (readChar_len l) as Hr.
  destruct (scan_string _ _) as [w r]; cbn [fst snd] in *. apply (f_equal String.length) in H.
  rewrite str_length_app in H. fold (lx_len (readChar l)) in H.
  destruct (Ascii.eqb _ q); [rewrite readChar_len|]; unfold lx_len at 1; cbn [advance lx_rest]; lia.
Qed.

Lemma readBracketedIdent_len (l : Lexer) :
  lx_ch l <> NUL -> lx_len (snd (readBracketedIdent l)) < lx_len l.
Proof.
  intros Hc. apply lx_ch_len in Hc. unfold readBracketedIdent.
  pose proof (readChar_len l) as Hr. set (P := fun c => _ : bool).
  pose proof (scan_split P (lx_rest (readChar l))) as H.
  destruct (scan _ _) as [w r]; cbn [fst snd] in *. apply (f_equal String.length) in H.
  rewrite str_length_app in H. fold (lx_len (readChar l)) in H.
  destruct (Ascii.eqb _ "]"); [rewrite readChar_len|]; unfold lx_len at 1; cbn [advance lx_rest]; lia.
Qed.

Lemma readIdentifier_len (l : Lexer) :
  is_ident_byte (lx_ch l) = true -> lx_ch l <> NUL -> lx_len (snd (readIdentifier l)) < lx_len l.
Proof.
  unfold readIdentifier, lx_len, lx_ch. destruct l as [[|c s] p]; simpl; [done|]. intros -> _.
  pose proof (scan_split is_ident_byte s) as H. destruct (scan _ _) as [w r]; simpl in *.
  rewrite <- H, str_length_app. lia.
Qed.

Lemma readNumber_len (l : Lexer) :
  lx_ch l = "-"%char \/ isDigit (lx_ch l) = true -> lx_ch l <> NUL -> lx_len (snd (readNumber l)) < lx_len l.
Proof.
  unfold readNumber, lx_len, lx_ch. destruct l as [[|c s] p]; simpl; [done|].
  destruct (Ascii.eqb c "-") eqn:E.
  - intros _ _. pose proof (scan_number_split false s) as H. destruct (scan_number _ _) as [w r]; simpl in *.
    rewrite <- H, str_length_app. lia.
  - intros [->|Hd] _; [done|]. cbn [scan_number]. rewrite Hd. cbn [orb].
    pose proof (scan_number_split (Ascii.eqb c ".") s) as H. destruct (scan_number _ s) as [w r]; simpl in *.
    rewrite <- H, str_length_app. lia.
Qed.

(** [NextToken] reports the end of input exactly where it stands before a NUL or at the end, and
    otherwise moves forward. *)
Lemma NextToken_progress (l : Lexer) :
  lx_len (snd (NextToken l)) <= lx_len l /\
  (tok_Type (fst (NextToken l)) <> TokenEOF -> lx_len (snd (NextToken l)) < lx_len l).
Proof.
  pose proof (skipWhitespace_len l) as Hw. unfold NextToken. set (k := skipWhitespace l) in *.
  destruct (Ascii.eqb (lx_ch k) NUL) eqn:E0; go_bool.
  { simpl. rewrite readChar_len. split; [lia|done]. }
  pose proof (lx_ch_len k E0) as Hp.
  enough (lx_len (snd (NextToken l)) < lx_len k) as H.
  { revert H. unfold NextToken. fold k. apply Ascii.eqb_neq in E0. rewrite E0. lia. }
  unfold NextToken. fold k. pose proof E0 as E0'. apply Ascii.eqb_neq in E0. rewrite E0.
  destruct (single_byte_token _); [simpl; rewrite readChar_len; lia|].
  destruct (operator_token _ _) as [[t []]|]; [simpl; rewrite !readChar_len; lia..|].
  destruct (Ascii.eqb _ "-") eqn:E1; go_bool.
  { destruct (isDigit (peekChar k)); [|simpl; rewrite readChar_len; lia].
    pose proof (readNumber_len k (or_introl E1) E0'). by destruct (readNumber k). }
  destruct (Ascii.eqb _ SQUOTE); [pose proof (readString_len (lx_ch k) k E0'); by destruct (readString _ k)|].
  destruct (Ascii.eqb _ DQUOTE); [pose proof (readString_len (lx_ch k) k E0'); by destruct (readString _ k)|].
  destruct (Ascii.eqb _ "["); [pose proof (readBracketedIdent_len k E0'); by destruct (readBracketedIdent k)|].
  destruct (isLetter _) eqn:E2.
  { pose proof (readIdentifier_len k) as H. unfold is_ident_byte in H. rewrite E2 in H.
    specialize (H eq_refl E0'). by destruct (readIdentifier k). }
  destruct (isDigit _) eqn:E3.
  { pose proof (readNumber_len k (or_intror E3) E0'). by destruct (readNumber k). }
  simpl. rewrite readChar_len. lia.
Qed.

Lemma all_tokens_enough (fuel : nat) (l : Lexer) : lx_len l < fuel -> is_Some (all_tokens fuel l).
Proof.
  revert l; induction fuel as [|f IH]; intros l Hl; simpl; [lia|].
  pose proof (NextToken_progress l) as [_ Hp]. destruct (NextToken l) as [tok l']; simpl in *.
  case_decide as E; [by eexists|]. destruct (IH l') as [ts ->]; [specialize (Hp E); lia|]. by eexists.
Qed.

(** [GetAllTokens] terminates on every input. *)
Lemma GetAllTokens_total (input : string) : is_Some (GetAllTokens (NewLexer input)).
Proof. apply all_tokens_enough. unfold lx_len. simpl. lia. Qed.
