(* ===== verification/SqlParser.v ===== *)
(** * SqlParser: the SQL parser of the query language (pkg/core/tdtql/ast.go, parser.go)

    A recursive-descent parser with two tokens of lookahead.  The parser is passed as state; a failing
    method returns an error.  The recursion is bounded by fuel; [ParseSelect] gives it one more than
    the bytes and tokens still to come, and [parse_select_terminates] shows that it is never used up.

    Against the parser stands a printer, [print_select], which writes a statement in the grammar of the
    language.  [parse_print_roundtrip] shows that parsing what it writes gives the statement back, which
    pins down the precedence and associativity of AND, OR and NOT. *)

From Stdlib Require Import ZArith Lia Ascii String.
From stdpp Require Import base list strings pretty.
From S2P Require Import Prelude Strconv Lexer.

(** ** ast.go *)

Inductive Expression :=
| BinaryExpression (Left : Expression) (Operator : string) (Right : Expression)
| ComparisonExpression (Field Operator Value : string)
| InExpression (Field : string) (Values : list string) (Not : bool)
| BetweenExpression (Field Low High : string) (Not : bool)
| IsNullExpression (Field : string) (Not : bool)
| NotExpression (e : Expression)
| ParenExpression (e : Expression).

Record OrderByClause := MkOrderByClause { oc_Field : string; oc_Direction : string }.

Record SelectStatement := MkSelectStatement {
  ss_TableName : string;
  ss_Where : option Expression;
  ss_OrderBy : list OrderByClause;
  ss_Limit : option Z;
  ss_Offset : option Z;
}.

(** ** parser.go *)

Inductive ParseError :=
| ExpectedSelect | ExpectedFrom | ExpectedTable | ExpectedRParen | ExpectedField | ExpectedNull
| ExpectedInAfterNot | ExpectedLikeAfterNot | ExpectedOperator | ExpectedValue
| ExpectedLParen | ExpectedInValue | ExpectedComma
| ExpectedLow | ExpectedAndInBetween | ExpectedHigh
| ExpectedOrderField | ExpectedLimitNumber | ExpectedOffsetNumber | CollectedErrors | OutOfFuel.

(** [errors] collects the position, the expected and the found token type of each message. *)
Record Parser := MkParser {
  ps_lexer : Lexer;
  ps_cur : Token;
  ps_peek : Token;
  ps_errors : list (nat * TokenType * TokenType);
}.

Definition cur_type (p : Parser) : TokenType := tok_Type (ps_cur p).
Definition cur_is (p : Parser) (t : TokenType) : bool := bool_decide (cur_type p = t).

Definition nextToken (p : Parser) : Parser :=
  let '(tok, l) := NextToken (ps_lexer p) in MkParser l (ps_peek p) tok (ps_errors p).

(** [NewParser]: the two tokens of lookahead start as Go zero values and are read at once. *)
Definition NewParser (input : string) : Parser :=
  let zero := MkToken TokenEOF "" 0 in
  nextToken (nextToken (MkParser (NewLexer input) zero zero [])).

Definition addError (p : Parser) (want : TokenType) : Parser :=
  MkParser (ps_lexer p) (ps_cur p) (ps_peek p)
    (ps_errors p ++ [(tok_Pos (ps_cur p), want, cur_type p)]).

Definition expectToken (p : Parser) (t : TokenType) : bool * Parser :=
  if cur_is p t then (true, nextToken p) else (false, addError p t).

(** The value tokens of comparisons and IN lists, and those of BETWEEN. *)
Definition is_value (t : TokenType) : bool :=
  match t with TokenString | TokenNumber | TokenIdent => true | _ => false end.
Definition is_bound (t : TokenType) : bool :=
  match t with TokenString | TokenNumber => true | _ => false end.

Abbreviation presult A := (result ParseError (A * Parser)).

Fixpoint in_loop (fuel : nat) (values : list string) (p : Parser) : presult (list string) :=
  match fuel with
  | 0 => Err OutOfFuel
  | S f =>
      fail_if negb (is_value (cur_type p)) with ExpectedInValue ;;
      let values := values ++ [tok_Literal (ps_cur p)] in
      let p := nextToken p in
      if cur_is p TokenRParen then Ok (values, nextToken p)
      else fail_if negb (cur_is p TokenComma) with ExpectedComma ;;
           in_loop f values (nextToken p)
  end.

Definition parseInExpression (fuel : nat) (field : string) (not : bool) (p : Parser) : presult Expression :=
  fail_if negb (cur_is p TokenLParen) with ExpectedLParen ;;
  '(values, p) ← in_loop fuel [] (nextToken p);
  Ok (InExpression field values not, p).

Definition parseBetweenExpression (field : string) (not : bool) (p : Parser) : presult Expression :=
  fail_if negb (is_bound (cur_type p)) with ExpectedLow ;;
  let low := tok_Literal (ps_cur p) in
  let '(ok, p) := expectToken (nextToken p) TokenAnd in
  fail_if negb ok with ExpectedAndInBetween ;;
  fail_if negb (is_bound (cur_type p)) with ExpectedHigh ;;
  Ok (BetweenExpression field low (tok_Literal (ps_cur p)) not, nextToken p).

(** The operator of a comparison: its name and the parser at the operator's last token. *)
Definition comparison_operator (p : Parser) : presult string :=
  match cur_type p with
  | TokenEq => Ok ("eq", p) | TokenNotEq => Ok ("ne", p)
  | TokenLt => Ok ("lt", p) | TokenLte => Ok ("lte", p)
  | TokenGt => Ok ("gt", p) | TokenGte => Ok ("gte", p)
  | TokenLike => Ok ("like", p)
  | TokenNot =>
      let p := nextToken p in
      if cur_is p TokenLike then Ok ("not_like", p) else Err ExpectedLikeAfterNot
  | _ => Err ExpectedOperator
  end.

Definition parseCondition (fuel : nat) (p : Parser) : presult Expression :=
  fail_if negb (cur_is p TokenIdent) with ExpectedField ;;
  let field := tok_Literal (ps_cur p) in
  let p := nextToken p in
  if cur_is p TokenIs then
    let p := nextToken p in
    let '(not, p) := if cur_is p TokenNot then (true, nextToken p) else (false, p) in
    fail_if negb (cur_is p TokenNull) with ExpectedNull ;;
    Ok (IsNullExpression field not, nextToken p)
  else if cur_is p TokenIn then parseInExpression fuel field false (nextToken p)
  else if cur_is p TokenNot then
    let p := nextToken p in
    fail_if negb (cur_is p TokenIn) with ExpectedInAfterNot ;;
    parseInExpression fuel field true (nextToken p)
  else if cur_is p TokenBetween then parseBetweenExpression field false (nextToken p)
  else
    '(operator, p) ← comparison_operator p;
    let p := nextToken p in
    fail_if negb (is_value (cur_type p)) with ExpectedValue ;;
    Ok (ComparisonExpression field operator (tok_Literal (ps_cur p)), nextToken p).

(** The precedence and the name of the infix operator at the current token. *)
Definition infix_operator (t : TokenType) : option (nat * string) :=
  match t with
  | TokenAnd => Some (2, "AND")
  | TokenOr => Some (1, "OR")
  | _ => None
  end.

(** [parseExpression] and its loop over the infix operators. *)
Fixpoint parseExpression (fuel : nat) (precedence : nat) (p : Parser) : presult Expression :=
  match fuel with
  | 0 => Err OutOfFuel
  | S f =>
      '(lhs, p) ←
        match cur_type p with
        | TokenNot =>
            '(expr, p) ← parseExpression f 3 (nextToken p);
            Ok (NotExpression expr, p)
        | TokenLParen =>
            '(expr, p) ← parseExpression f 0 (nextToken p);
            let '(ok, p) := expectToken p TokenRParen in
            fail_if negb ok with ExpectedRParen ;;
            Ok (ParenExpression expr, p)
        | _ => parseCondition f p
        end;
      infix_loop f precedence lhs p
  end
with infix_loop (fuel : nat) (precedence : nat) (lhs : Expression) (p : Parser) : presult Expression :=
  match fuel with
  | 0 => Err OutOfFuel
  | S f =>
      match infix_operator (cur_type p) with
      | None => Ok (lhs, p)
      | Some (opPrecedence, operator) =>
          if opPrecedence <=? precedence then Ok (lhs, p)
          else
            '(rhs, p) ← parseExpression f opPrecedence (nextToken p);
            infix_loop f precedence (BinaryExpression lhs operator rhs) p
      end
  end.

Fixpoint parseOrderBy (fuel : nat) (clauses : list OrderByClause) (p : Parser) : presult (list OrderByClause) :=
  match fuel with
  | 0 => Err OutOfFuel
  | S f =>
      fail_if negb (cur_is p TokenIdent) with ExpectedOrderField ;;
      let field := tok_Literal (ps_cur p) in
      let p := nextToken p in
      let '(dir, p) :=
        match cur_type p with
        | TokenAsc => ("ASC", nextToken p)
        | TokenDesc => ("DESC", nextToken p)
        | _ => ("ASC", p)
        end in
      let clauses := clauses ++ [MkOrderByClause field dir] in
      if cur_is p TokenComma then parseOrderBy f clauses (nextToken p) else Ok (clauses, p)
  end.

(** The loop that skips a field list up to FROM or the end of input. *)
Fixpoint skip_fields (fuel : nat) (p : Parser) : result ParseError Parser :=
  match fuel with
  | 0 => Err OutOfFuel
  | S f => if cur_is p TokenFrom || cur_is p TokenEOF then Ok p else skip_fields f (nextToken p)
  end.

(** LIMIT and OFFSET: the error of [strconv.Atoi] is dropped, its value is kept. *)
Definition parse_number_clause (kw : TokenType) (e : ParseError) (p : Parser) : presult (option Z) :=
  if cur_is p kw then
    let p := nextToken p in
    fail_if negb (cur_is p TokenNumber) with e ;;
    Ok (Some (Atoi_value (tok_Literal (ps_cur p))), nextToken p)
  else Ok (None, p).

Definition parse_where (fuel : nat) (p : Parser) : presult (option Expression) :=
  if cur_is p TokenWhere then
    '(expr, p) ← parseExpression fuel 0 (nextToken p); Ok (Some expr, p)
  else Ok (None, p).

Definition parse_order (fuel : nat) (p : Parser) : presult (list OrderByClause) :=
  if cur_is p TokenOrderBy then
    let p := nextToken p in
    let p := if cur_is p TokenOrderBy then nextToken p else p in
    parseOrderBy fuel [] p
  else Ok ([], p).

(** The optional clauses after the table name. *)
Definition parse_clauses (fuel : nat) (table : string) (p : Parser) : result ParseError SelectStatement :=
  '(w, p) ← parse_where fuel p;
  '(o, p) ← parse_order fuel p;
  '(limit, p) ← parse_number_clause TokenLimit ExpectedLimitNumber p;
  '(offset, p) ← parse_number_clause TokenOffset ExpectedOffsetNumber p;
  fail_if negb (Nat.eqb (length (ps_errors p)) 0) with CollectedErrors ;;
  Ok (MkSelectStatement table w o limit offset).

(** FROM, the table name and the clauses. *)
Definition parse_from (fuel : nat) (p : Parser) : result ParseError SelectStatement :=
  let '(ok, p) := expectToken p TokenFrom in
  fail_if negb ok with ExpectedFrom ;;
  fail_if negb (cur_is p TokenIdent) with ExpectedTable ;;
  parse_clauses fuel (tok_Literal (ps_cur p)) (nextToken p).

Definition parse_select (fuel : nat) (p : Parser) : result ParseError SelectStatement :=
  fail_if negb (cur_is p TokenSelect) with ExpectedSelect ;;
  let p := nextToken p in
  p ← (if cur_is p TokenStar then Ok (nextToken p) else skip_fields fuel p);
  parse_from fuel p.

(** Bytes and tokens still to come. *)
Definition tok_weight (t : Token) : nat := if decide (tok_Type t = TokenEOF) then 0 else 1.
Definition weight (p : Parser) : nat := tok_weight (ps_cur p) + tok_weight (ps_peek p) + lx_len (ps_lexer p).

Definition ParseSelect (p : Parser) : result ParseError SelectStatement := parse_select (S (weight p)) p.

(** ** A printer for the grammar *)

(** A token as the parser sees it: its type and its literal. *)
Abbreviation word := (TokenType * string)%type.

(** The comparison operators the parser can produce, with their tokens. *)
Definition operator_word (op : string) : option word :=
  if String.eqb op "eq" then Some (TokenEq, "=") else if String.eqb op "ne" then Some (TokenNotEq, "!=")
  else if String.eqb op "lt" then Some (TokenLt, "<") else if String.eqb op "lte" then Some (TokenLte, "<=")
  else if String.eqb op "gt" then Some (TokenGt, ">") else if String.eqb op "gte" then Some (TokenGte, ">=")
  else if String.eqb op "like" then Some (TokenLike, "LIKE") else None.

Definition infix_word (op : string) : word := if String.eqb op "AND" then (TokenAnd, op) else (TokenOr, op).

(** The words of an IN list after the opening parenthesis. *)
Fixpoint in_words (vs : list string) : list word :=
  match vs with
  | [] => []
  | [v] => [(TokenString, v); (TokenRParen, ")")]
  | v :: vs' => (TokenString, v) :: (TokenComma, ",") :: in_words vs'
  end.

Fixpoint expr_words (e : Expression) : list word :=
  match e with
  | BinaryExpression l op r => expr_words l ++ infix_word op :: expr_words r
  | ComparisonExpression f op v =>
      [(TokenIdent, f); default (TokenIllegal, op) (operator_word op); (TokenString, v)]
  | InExpression f vs not =>
      (TokenIdent, f) :: (if not then [(TokenNot, "NOT")] else [])
      ++ (TokenIn, "IN") :: (TokenLParen, "(") :: in_words vs
  | BetweenExpression f lo hi _ =>
      [(TokenIdent, f); (TokenBetween, "BETWEEN"); (TokenString, lo); (TokenAnd, "AND"); (TokenString, hi)]
  | IsNullExpression f not =>
      (TokenIdent, f) :: (TokenIs, "IS") :: (if not then [(TokenNot, "NOT")] else []) ++ [(TokenNull, "NULL")]
  | NotExpression e => (TokenNot, "NOT") :: expr_words e
  | ParenExpression e => (TokenLParen, "(") :: expr_words e ++ [(TokenRParen, ")")]
  end.

Definition clause_words (c : OrderByClause) : list word :=
  [(TokenIdent, oc_Field c);
   if String.eqb (oc_Direction c) "DESC" then (TokenDesc, "DESC") else (TokenAsc, "ASC")].

Fixpoint order_words (cs : list OrderByClause) : list word :=
  match cs with
  | [] => []
  | [c] => clause_words c
  | c :: cs' => clause_words c ++ (TokenComma, ",") :: order_words cs'
  end.

Definition number_words (kw : word) (n : option Z) : list word :=
  match n with Some z => [kw; (TokenNumber, Itoa z)] | None => [] end.

Definition order_by_words (cs : list OrderByClause) : list word :=
  match cs with
  | [] => []
  | _ => (TokenOrderBy, "ORDER") :: (TokenOrderBy, "BY") :: order_words cs
  end.

Definition clauses_words (s : SelectStatement) : list word :=
  (match ss_Where s with Some e => (TokenWhere, "WHERE") :: expr_words e | None => [] end)
  ++ order_by_words (ss_OrderBy s)
  ++ number_words (TokenLimit, "LIMIT") (ss_Limit s)
  ++ number_words (TokenOffset, "OFFSET") (ss_Offset s).

Definition select_words (s : SelectStatement) : list word :=
  [(TokenSelect, "SELECT"); (TokenStar, "*"); (TokenFrom, "FROM"); (TokenIdent, ss_TableName s)]
  ++ clauses_words s.

(** The spelling of a word: names are bracketed, values quoted. *)
Definition spell (w : word) : string :=
  match w.1 with
  | TokenIdent => "[" +:+ w.2 +:+ "]"
  | TokenString => "'" +:+ w.2 +:+ "'"
  | _ => w.2
  end.

Fixpoint spell_all (ws : list word) : string :=
  match ws with [] => "" | w :: ws' => spell w +:+ " " +:+ spell_all ws' end.

Definition print_select (s : SelectStatement) : string := spell_all (select_words s).

(** *** Which statements can be written *)

(** A name that fits between brackets and a value that fits between single quotes. *)
Definition name_ok (s : string) : bool := negb (has_byte "]" s) && negb (has_byte NUL s).
Definition last_byte (s : string) : ascii := List.last (list_ascii_of_string s) NUL.
Definition value_ok (s : string) : bool :=
  negb (has_byte SQUOTE s) && negb (has_byte NUL s) && negb (Ascii.eqb (last_byte s) BSLASH).

(** How tightly an expression binds: OR 1, AND 2, everything else 3. *)
Definition op_level (op : string) : nat := if String.eqb op "AND" then 2 else 1.
Definition level (e : Expression) : nat :=
  match e with BinaryExpression _ op _ => op_level op | _ => 3 end.

(** Expressions of the grammar: AND and OR associate to the left, the operand of NOT is not an AND or
    an OR, and an operand that binds less tightly stands in parentheses. *)
Fixpoint grammatical (e : Expression) : bool :=
  match e with
  | BinaryExpression l op r =>
      (String.eqb op "AND" || String.eqb op "OR") && (op_level op <=? level l) && (op_level op <? level r)
      && grammatical l && grammatical r
  | ComparisonExpression f op v =>
      match operator_word op with Some _ => name_ok f && value_ok v | None => false end
  | InExpression f vs _ => name_ok f && forallb value_ok vs && negb (Nat.eqb (length vs) 0)
  | BetweenExpression f lo hi not => name_ok f && value_ok lo && value_ok hi && negb not
  | IsNullExpression f _ => name_ok f
  | NotExpression e => Nat.eqb (level e) 3 && grammatical e
  | ParenExpression e => grammatical e
  end.

Definition clause_ok (c : OrderByClause) : bool :=
  name_ok (oc_Field c) && (String.eqb (oc_Direction c) "ASC" || String.eqb (oc_Direction c) "DESC").

Definition opt_int64 (n : option Z) : bool := match n with Some z => int64b z | None => true end.

Definition printable (s : SelectStatement) : bool :=
  name_ok (ss_TableName s)
  && (match ss_Where s with Some e => grammatical e | None => true end)
  && forallb clause_ok (ss_OrderBy s) && opt_int64 (ss_Limit s) && opt_int64 (ss_Offset s).

(** ** Termination *)

Lemma nextToken_weight (p : Parser) : weight (nextToken p) + tok_weight (ps_cur p) <= weight p.
Proof.
  unfold nextToken. pose proof (NextToken_progress (ps_lexer p)) as [Hle Hlt].
  destruct (NextToken (ps_lexer p)) as [tok l]; simpl in *. unfold weight, tok_weight at 2; simpl.
  case_decide as E; [lia|]. specialize (Hlt E). lia.
Qed.

Lemma nextToken_le (p : Parser) : weight (nextToken p) <= weight p.
Proof. pose proof (nextToken_weight p). lia. Qed.

Lemma nextToken_lt (p : Parser) : cur_type p <> TokenEOF -> weight (nextToken p) < weight p.
Proof.
  intros H. pose proof (nextToken_weight p) as Hw. unfold tok_weight in Hw. unfold cur_type in H.
  rewrite decide_False in Hw by done. lia.
Qed.

Lemma cur_is_true (p : Parser) (t : TokenType) : cur_is p t = true -> cur_type p = t.
Proof. unfold cur_is. by intros ?%bool_decide_eq_true. Qed.

Lemma cur_is_lt (p : Parser) (t : TokenType) :
  cur_is p t = true -> t <> TokenEOF -> weight (nextToken p) < weight p.
Proof. intros H%cur_is_true Ht. apply nextToken_lt. congruence. Qed.

Lemma is_value_lt (p : Parser) : is_value (cur_type p) = true -> weight (nextToken p) < weight p.
Proof. intros H. apply nextToken_lt. intros E. by rewrite E in H. Qed.

Lemma is_bound_lt (p : Parser) : is_bound (cur_type p) = true -> weight (nextToken p) < weight p.
Proof. intros H. apply nextToken_lt. intros E. by rewrite E in H. Qed.

(** [within n r]: [r] has not run out of fuel, and if it succeeds less than [n] remains. *)
Definition within {A} (n : nat) (r : presult A) : Prop :=
  match r with Ok (_, p) => weight p < n | Err e => e <> OutOfFuel end.

Lemma within_weaken {A} (n m : nat) (r : presult A) : within n r -> n <= m -> within m r.
Proof. destruct r as [[a p]|e]; simpl; [lia|done]. Qed.

Lemma within_bind {A B} (n m : nat) (r : presult A) (k : A * Parser -> presult B) :
  within n r -> (forall a p, weight p < n -> within m (k (a, p))) -> within m (r ≫= k).
Proof. destruct r as [[a p]|e]; simpl; [intros H1 H2; by apply H2|done]. Qed.

Lemma within_check {A} (b : bool) (e : ParseError) (n : nat) (r : presult A) :
  e <> OutOfFuel -> (b = false -> within n r) -> within n (check_ b e r).
Proof. destruct b; simpl; auto. Qed.

(** Facts on the tokens passed so far, for [lia]. *)
Ltac weights :=
  repeat match goal with
  | H : cur_is ?p _ = true |- _ => apply cur_is_lt in H; [|done]
  | H : negb _ = false |- _ => apply negb_false_iff in H
  | H : is_value (cur_type ?p) = true |- _ => apply is_value_lt in H
  | H : is_bound (cur_type ?p) = true |- _ => apply is_bound_lt in H
  end;
  repeat match goal with
  | |- context [nextToken ?p] =>
      lazymatch goal with H : weight (nextToken p) <= weight p |- _ => fail | _ => pose proof (nextToken_le p) end
  end.

Lemma in_loop_within (fuel : nat) (vs : list string) (p : Parser) :
  weight p < fuel -> within (weight p) (in_loop fuel vs p).
Proof.
  revert vs p; induction fuel as [|f IH]; intros vs p Hf; [lia|]. simpl.
  apply within_check; [done|]. intros Hv.
  destruct (cur_is _ TokenRParen) eqn:E; [simpl; weights; lia|].
  apply within_check; [done|]. intros Hc.
  assert (weight (nextToken (nextToken p)) < weight p) by (weights; lia).
  eapply within_weaken; [apply IH; lia|lia].
Qed.

Lemma parseInExpression_within (fuel : nat) (field : string) (not : bool) (p : Parser) :
  weight p < fuel -> within (S (weight p)) (parseInExpression fuel field not p).
Proof.
  intros Hf. unfold parseInExpression. apply within_check; [done|]. intros _.
  pose proof (nextToken_le p). eapply within_bind; [apply in_loop_within; lia|]. intros vs q Hq. simpl. lia.
Qed.

Lemma expectToken_weight (p : Parser) (t : TokenType) : weight (snd (expectToken p t)) <= weight p.
Proof. unfold expectToken. destruct (cur_is p t); simpl; [apply nextToken_le|done]. Qed.

Lemma parseBetweenExpression_within (field : string) (not : bool) (p : Parser) :
  within (S (weight p)) (parseBetweenExpression field not p).
Proof.
  unfold parseBetweenExpression. apply within_check; [done|]. intros _.
  pose proof (expectToken_weight (nextToken p) TokenAnd) as H. destruct (expectToken _ _) as [ok q]; simpl in H.
  apply within_check; [done|]. intros _. apply within_check; [done|]. intros _. simpl.
  pose proof (nextToken_le p). pose proof (nextToken_le q). lia.
Qed.

Lemma comparison_operator_within (p : Parser) : within (S (weight p)) (comparison_operator p).
Proof.
  pose proof (nextToken_le p). unfold comparison_operator. destruct (cur_type p); simpl; try done; try lia.
  destruct (cur_is _ TokenLike); simpl; [lia|done].
Qed.

Lemma parseCondition_within (fuel : nat) (p : Parser) :
  weight p <= fuel -> within (weight p) (parseCondition fuel p).
Proof.
  intros Hf. unfold parseCondition. apply within_check; [done|]. intros H0. weights.
  set (q := nextToken p) in *. destruct (cur_is q TokenIs) eqn:?.
  { pose proof (nextToken_le q). set (r := nextToken q) in *. pose proof (nextToken_le r).
    destruct (cur_is r TokenNot); (apply within_check; [done|]); intros _; simpl; [|lia].
    pose proof (nextToken_le (nextToken r)). lia. }
  destruct (cur_is q TokenIn) eqn:?.
  { pose proof (nextToken_le q). eapply within_weaken; [apply parseInExpression_within; lia|lia]. }
  destruct (cur_is q TokenNot) eqn:?.
  { apply within_check; [done|]. intros _. pose proof (nextToken_le q). pose proof (nextToken_le (nextToken q)).
    eapply within_weaken; [apply parseInExpression_within; lia|lia]. }
  destruct (cur_is q TokenBetween) eqn:?.
  { pose proof (nextToken_le q). eapply within_weaken; [apply parseBetweenExpression_within|lia]. }
  eapply within_bind; [apply comparison_operator_within|]. intros op r Hr.
  apply within_check; [done|]. intros _. simpl.
  pose proof (nextToken_le r). pose proof (nextToken_le (nextToken r)). lia.
Qed.

Lemma parse_within (fuel : nat) :
  (forall prec p, weight p < fuel -> within (weight p) (parseExpression fuel prec p)) /\
  (forall prec e p, weight p < fuel -> within (S (weight p)) (infix_loop fuel prec e p)).
Proof.
  induction fuel as [|f [IHe IHi]]; [split; intros; lia|]. split.
  - intros prec p Hf. cbn [parseExpression].
    apply (within_bind (weight p)); [|intros e q Hq].
    + destruct (cur_type p) eqn:E; try (apply parseCondition_within; lia);
        pose proof (nextToken_lt p ltac:(congruence)).
      * eapply within_bind; [apply IHe; lia|]. intros e q Hq. simpl. lia.
      * eapply within_bind; [apply IHe; lia|]. intros e q Hq.
        pose proof (expectToken_weight q TokenRParen) as Hx. destruct (expectToken _ _) as [ok r]; simpl in Hx.
        apply within_check; [done|]. intros _. simpl. lia.
    + eapply within_weaken; [apply IHi; lia|lia].
  - intros prec e p Hf. cbn [infix_loop].
    destruct (infix_operator (cur_type p)) as [[k op]|] eqn:E; [|simpl; lia].
    assert (cur_type p <> TokenEOF) as Ht by (intros Ht; by rewrite Ht in E).
    apply nextToken_lt in Ht. destruct (k <=? prec); [simpl; lia|].
    eapply within_bind; [apply IHe; lia|]. intros r q Hq. eapply within_weaken; [apply IHi; lia|lia].
Qed.

Lemma parseOrderBy_within (fuel : nat) (cs : list OrderByClause) (p : Parser) :
  weight p < fuel -> within (weight p) (parseOrderBy fuel cs p).
Proof.
  revert cs p; induction fuel as [|f IH]; intros cs p Hf; [lia|]. simpl.
  apply within_check; [done|]. intros H0. weights. set (q := nextToken p) in *.
  assert (exists dir r, match cur_type q with TokenAsc => ("ASC", nextToken q) | TokenDesc => ("DESC", nextToken q)
    | _ => ("ASC", q) end = (dir, r) /\ weight r <= weight q) as (dir & r & -> & Hr).
  { pose proof (nextToken_le q). destruct (cur_type q); eauto. }
  pose proof (nextToken_le r).
  destruct (cur_is r TokenComma); [|simpl; lia]. eapply within_weaken; [apply IH; lia|lia].
Qed.

Lemma skip_fields_enough (fuel : nat) (p : Parser) :
  weight p < fuel -> exists q, skip_fields fuel p = Ok q /\ weight q <= weight p.
Proof.
  revert p; induction fuel as [|f IH]; intros p Hf; [lia|]. simpl.
  destruct (cur_is p TokenFrom || cur_is p TokenEOF) eqn:E; [eauto|]. go_bool.
  assert (weight (nextToken p) < weight p) as Hl.
  { apply nextToken_lt. unfold cur_is in *. by apply bool_decide_eq_false in H0. }
  destruct (IH (nextToken p)) as (q & -> & Hq); [lia|]. exists q. split; [done|lia].
Qed.

Lemma parse_number_clause_within (kw : TokenType) (e : ParseError) (p : Parser) :
  e <> OutOfFuel -> within (S (weight p)) (parse_number_clause kw e p).
Proof.
  intros He. unfold parse_number_clause. destruct (cur_is p kw); [|simpl; lia].
  apply within_check; [done|]. intros _. simpl. pose proof (nextToken_le p). pose proof (nextToken_le (nextToken p)).
  lia.
Qed.

Lemma parse_where_within (fuel : nat) (p : Parser) :
  weight p < fuel -> within (S (weight p)) (parse_where fuel p).
Proof.
  intros Hf. unfold parse_where. destruct (cur_is p TokenWhere); [|simpl; lia]. pose proof (nextToken_le p).
  eapply within_bind; [apply (proj1 (parse_within fuel)); lia|]. intros e q Hq. simpl. lia.
Qed.

Lemma parse_order_within (fuel : nat) (p : Parser) :
  weight p < fuel -> within (S (weight p)) (parse_order fuel p).
Proof.
  intros Hf. unfold parse_order. destruct (cur_is p TokenOrderBy); [|simpl; lia].
  pose proof (nextToken_le p). pose proof (nextToken_le (nextToken p)).
  destruct (cur_is (nextToken p) TokenOrderBy); (eapply within_weaken; [apply parseOrderBy_within; lia|lia]).
Qed.

Lemma parse_clauses_total (fuel : nat) (table : string) (p : Parser) :
  weight p < fuel -> parse_clauses fuel table p <> Err OutOfFuel.
Proof.
  intros Hf. unfold parse_clauses. pose proof (parse_where_within fuel p) as Hw.
  destruct (parse_where _ _) as [[w p4]|e]; simpl in Hw; cbn [mbind result_bind]; [|intros [= ->]; by apply Hw; [lia|]].
  pose proof (parse_order_within fuel p4) as Ho.
  destruct (parse_order _ _) as [[o p5]|e]; simpl in Ho; cbn [mbind result_bind]; [|intros [= ->]; by apply Ho; [lia|]].
  pose proof (parse_number_clause_within TokenLimit ExpectedLimitNumber p5 ltac:(done)) as Hl.
  destruct (parse_number_clause _ _ p5) as [[li p6]|e]; simpl in Hl; cbn [mbind result_bind]; [|congruence].
  pose proof (parse_number_clause_within TokenOffset ExpectedOffsetNumber p6 ltac:(done)) as Hs.
  destruct (parse_number_clause _ _ p6) as [[off p7]|e]; simpl in Hs; cbn [mbind result_bind]; [|congruence].
  by destruct (negb _).
Qed.

(** The fuel of [ParseSelect] is never used up. *)
Lemma parse_select_total (fuel : nat) (p : Parser) : weight p < fuel -> parse_select fuel p <> Err OutOfFuel.
Proof.
  intros Hf. unfold parse_select. destruct (negb (cur_is p TokenSelect)); [done|]. cbn [check_].
  pose proof (nextToken_le p) as Hp. set (p1 := nextToken p) in *.
  assert (exists p2, (if cur_is p1 TokenStar then Ok (nextToken p1) else skip_fields fuel p1) = Ok p2
    /\ weight p2 <= weight p1) as (p2 & -> & H2).
  { destruct (cur_is p1 TokenStar); [eexists; split; [done|apply nextToken_le]|]. apply skip_fields_enough. lia. }
  cbn [mbind result_bind]. unfold parse_from. pose proof (expectToken_weight p2 TokenFrom) as H3.
  destruct (expectToken p2 TokenFrom) as [ok p3]; simpl in H3.
  destruct (negb ok); [done|]. destruct (negb (cur_is p3 TokenIdent)); [done|]. cbn [check_].
  pose proof (nextToken_le p3). apply parse_clauses_total. lia.
Qed.

(** ** The lexer reads the printed words *)

Definition tok_is (t : Token) (w : word) : Prop := tok_Type t = w.1 /\ tok_Literal t = w.2.

(** Words whose spelling the lexer reads as one token when a space follows. *)
Definition word_ok (w : word) : Prop :=
  match w.1 with
  | TokenIdent => name_ok w.2 = true
  | TokenString => value_ok w.2 = true
  | TokenNumber => exists z, w.2 = Itoa z
  | _ => forall rest pos, exists tok l, NextToken (MkLexer (w.2 +:+ " " +:+ rest) pos) = (tok, l)
           /\ tok_is tok w /\ lx_rest l = String " " rest
  end.

Lemma scan_until (P : ascii -> bool) (w : string) (c : ascii) (r : string) :
  all_bytes P w = true -> P c = false -> scan P (w +:+ String c r) = (w, String c r).
Proof.
  intros Hw Hc; induction w as [|d w IH]; simpl in *; [by rewrite Hc|]. go_bool. rewrite H. by rewrite IH.
Qed.

Lemma all_bytes_not (c : ascii) (w : string) :
  all_bytes (fun d => negb (Ascii.eqb d c)) w = negb (has_byte c w).
Proof. induction w as [|d w IH]; simpl; [done|]. by rewrite IH, negb_orb. Qed.

Lemma all_bytes_and (P Q : ascii -> bool) (w : string) :
  all_bytes (fun d => P d && Q d) w = all_bytes P w && all_bytes Q w.
Proof. induction w as [|d w IH]; simpl; [done|]. rewrite IH. destruct (P d), (Q d), (all_bytes P w); done. Qed.

Lemma skipWhitespace_one (s : string) (p : nat) :
  match s with String c _ => is_space_byte c = false | "" => True end ->
  lx_rest (skipWhitespace (MkLexer (String " " s) p)) = s.
Proof. intros H. unfold skipWhitespace; simpl. destruct s as [|c s]; simpl; [done|]. by rewrite H. Qed.

Lemma skipWhitespace_none (s : string) (p : nat) :
  match s with String c _ => is_space_byte c = false | "" => True end ->
  skipWhitespace (MkLexer s p) = MkLexer s p.
Proof.
  intros H. unfold skipWhitespace, advance; simpl. destruct s as [|c s]; simpl; [by rewrite Nat.add_0_r|].
  rewrite H. simpl. by rewrite Nat.add_0_r.
Qed.

Lemma lex_ident (n rest : string) (pos : nat) :
  name_ok n = true -> exists tok l, NextToken (MkLexer (("[" +:+ n +:+ "]") +:+ " " +:+ rest) pos) = (tok, l)
    /\ tok_is tok (TokenIdent, n) /\ lx_rest l = String " " rest.
Proof.
  intros Hn. unfold name_ok in Hn. go_bool. rewrite !str_app_assoc. simpl.
  unfold NextToken. rewrite skipWhitespace_none by done.
  set (l0 := MkLexer _ pos). change (lx_ch l0) with "["%char.
  change (Ascii.eqb "[" NUL) with false. change (single_byte_token "[") with (@None TokenType). cbn iota.
  change (operator_token "[" (peekChar l0)) with (@None (TokenType * bool)). cbn iota.
  change (Ascii.eqb "[" "-") with false. change (Ascii.eqb "[" SQUOTE) with false.
  change (Ascii.eqb "[" DQUOTE) with false. change (Ascii.eqb "[" "[") with true. cbn iota.
  unfold readBracketedIdent. cbn [l0 readChar lx_rest].
  rewrite scan_until; [|by rewrite all_bytes_and, !all_bytes_not, H, H0|done].
  by repeat esplit.
Qed.

Lemma value_ok_cons (c : ascii) (w : string) :
  value_ok (String c w) = true ->
  Ascii.eqb c SQUOTE = false /\ Ascii.eqb c NUL = false /\
  (w = "" -> Ascii.eqb c BSLASH = false) /\ (w <> "" -> value_ok w = true).
Proof.
  unfold value_ok. cbn [has_byte]. rewrite !negb_orb, !andb_true_iff, !negb_true_iff.
  intros (((-> & H1) & -> & H2) & H3). rewrite H1, H2. split; [done|]. split; [done|]. split; [by intros ->|].
  intros Hw. simpl. destruct w as [|d w]; [done|]. done.
Qed.

Lemma scan_string_until (w r : string) :
  value_ok w = true -> scan_string SQUOTE (w +:+ String SQUOTE r) = (w, String SQUOTE r).
Proof.
  induction w as [|c w IH]; intros Hw; [done|].
  destruct (value_ok_cons c w Hw) as (Hq & Hn & Hb & Hv). cbn [String.append scan_string]. rewrite Hq, Hn.
  destruct w as [|d w]; cbn [orb].
  - rewrite (Hb eq_refl). done.
  - specialize (Hv ltac:(done)). destruct (value_ok_cons d w Hv) as (Hd & _). rewrite (IH Hv).
    cbn [String.append]. by rewrite Hd, andb_false_r.
Qed.

Lemma lex_string (v rest : string) (pos : nat) :
  value_ok v = true -> exists tok l, NextToken (MkLexer ("'" +:+ v +:+ "'" +:+ rest) pos) = (tok, l)
    /\ tok_is tok (TokenString, v) /\ lx_rest l = rest.
Proof.
  intros Hv. simpl.
  unfold NextToken. rewrite skipWhitespace_none by done.
  set (l0 := MkLexer _ pos). change (lx_ch l0) with SQUOTE.
  change (Ascii.eqb SQUOTE NUL) with false. change (single_byte_token SQUOTE) with (@None TokenType). cbn iota.
  change (operator_token SQUOTE (peekChar l0)) with (@None (TokenType * bool)). cbn iota.
  change (Ascii.eqb SQUOTE "-") with false. change (Ascii.eqb SQUOTE SQUOTE) with true. cbn iota.
  unfold readString. cbn [l0 readChar lx_rest]. change "'"%char with SQUOTE.
  rewrite scan_string_until by done. by repeat esplit.
Qed.

Lemma scan_number_until (b : bool) (w r : string) :
  all_bytes isDigit w = true -> scan_number b (w +:+ String " " r) = (w, String " " r).
Proof.
  revert b; induction w as [|d w IH]; intros b Hw; simpl in *; [done|]. go_bool. rewrite H. simpl. by rewrite IH.
Qed.

(** A run of digits, with or without a sign in front, is read as one number. *)
Lemma lex_digits (sign : bool) (c : ascii) (w rest : string) (pos : nat) :
  all_bytes isDigit (String c w) = true ->
  let lit := if sign then String "-" (String c w) else String c w in
  exists tok l, NextToken (MkLexer (lit +:+ " " +:+ rest) pos) = (tok, l)
    /\ tok_is tok (TokenNumber, lit) /\ lx_rest l = String " " rest.
Proof.
  intros Hd lit. pose proof Hd as Hd'. simpl in Hd'. go_bool. unfold NextToken.
  assert (forall d, isDigit d = true -> is_space_byte d = false /\ Ascii.eqb d NUL = false /\
    single_byte_token d = None /\ (forall n, operator_token d n = None) /\ Ascii.eqb d "-" = false /\
    Ascii.eqb d SQUOTE = false /\ Ascii.eqb d DQUOTE = false /\ Ascii.eqb d "[" = false /\ isLetter d = false)
    as Hdig.
  { intros d. clear. destruct d as [[] [] [] [] [] [] [] []]; vm_compute; try done;
      intros _; by repeat split. }
  destruct (Hdig c H) as (E1 & E2 & E3 & E4 & E5 & E6 & E7 & E8 & E9).
  pose proof (scan_number_until false (String c w) rest Hd) as HS. cbn [String.append] in HS.
  destruct sign; subst lit.
  - rewrite skipWhitespace_none by done. set (l0 := MkLexer _ pos). change (lx_ch l0) with "-"%char.
    change (single_byte_token "-") with (@None TokenType). cbn iota.
    change (operator_token "-" (peekChar l0)) with (@None (TokenType * bool)).
    change (peekChar l0) with c. change (Ascii.eqb "-" NUL) with false.
    change (Ascii.eqb "-" "-") with true. cbn iota. rewrite H.
    unfold readNumber. cbn [l0 lx_rest String.append]. change (Ascii.eqb "-" "-") with true. cbn iota.
    rewrite HS. by repeat esplit.
  - rewrite skipWhitespace_none by done. set (l0 := MkLexer _ pos). change (lx_ch l0) with c.
    rewrite E2, E3, E4, E5, E6, E7, E8, E9, H. unfold readNumber. cbn [l0 lx_rest String.append]. rewrite E5.
    rewrite HS. by repeat esplit.
Qed.

Lemma lex_number (z : Z) (rest : string) (pos : nat) :
  exists tok l, NextToken (MkLexer (Itoa z +:+ " " +:+ rest) pos) = (tok, l)
    /\ tok_is tok (TokenNumber, Itoa z) /\ lx_rest l = String " " rest.
Proof.
  pose proof (pretty_N_head (Z.to_N (Z.abs z))) as (c & w & E & _).
  pose proof (pretty_N_all_digits (Z.to_N (Z.abs z))) as Hd. rewrite E in Hd.
  destruct (lex_digits (Z.ltb z 0) c w rest pos Hd) as (tok & l & H).
  assert (Itoa z = if (z <? 0)%Z then String "-" (String c w) else String c w) as ->.
  { rewrite <- E. unfold Itoa. by destruct z. }
  by exists tok, l.
Qed.

Lemma lex_word (w : word) (rest : string) (pos : nat) :
  word_ok w -> exists tok l, NextToken (MkLexer (spell w +:+ " " +:+ rest) pos) = (tok, l)
    /\ tok_is tok w /\ lx_rest l = String " " rest.
Proof.
  destruct w as [t lit]. unfold word_ok, spell; cbn [fst snd].
  destruct t; intros H; try apply H; [by apply lex_ident| |].
  { rewrite !str_app_assoc. by apply lex_string. }
  destruct H as [z ->]. apply lex_number.
Qed.

(** ** The tokens a lexer and a parser are about to deliver *)

Fixpoint yields (l : Lexer) (ws : list word) : Prop :=
  match ws with
  | [] => True
  | w :: ws' => tok_is (fst (NextToken l)) w /\ yields (snd (NextToken l)) ws'
  end.

Definition sees (p : Parser) (ws : list word) : Prop :=
  match ws with
  | [] => True
  | [a] => tok_is (ps_cur p) a
  | a :: b :: ws' => tok_is (ps_cur p) a /\ tok_is (ps_peek p) b /\ yields (ps_lexer p) ws'
  end.

Definition EOF : word := (TokenEOF, "").

Lemma NextToken_space (s : string) (p : nat) :
  NextToken (MkLexer (String " " s) p) = NextToken (MkLexer s (S p)).
Proof.
  assert (skipWhitespace (MkLexer (String " " s) p) = skipWhitespace (MkLexer s (S p))) as E.
  { unfold skipWhitespace; simpl. destruct (scan _ s) as [w r]. unfold advance; simpl. f_equal. lia. }
  unfold NextToken. by rewrite E.
Qed.

Lemma yields_spelled (ws : list word) (r : string) (l : Lexer) :
  Forall word_ok ws -> lx_rest l = spell_all ws +:+ r \/ lx_rest l = String " " (spell_all ws +:+ r) ->
  exists l', (lx_rest l' = r \/ lx_rest l' = String " " r) /\ forall ws', yields l' ws' -> yields l (ws ++ ws').
Proof.
  revert l; induction ws as [|w ws IH]; intros [s p] Hok Hl; cbn [lx_rest] in Hl.
  { by exists (MkLexer s p). }
  apply Forall_cons in Hok as [Hw Hok]. cbn [app spell_all] in *. rewrite !str_app_assoc in Hl.
  assert (exists q, NextToken (MkLexer s p) = NextToken (MkLexer (spell w +:+ " " +:+ spell_all ws +:+ r) q))
    as [q E].
  { destruct Hl as [->| ->]; [by exists p|]. rewrite NextToken_space. by eexists. }
  destruct (lex_word w (spell_all ws +:+ r) q Hw) as (tok & l1 & E1 & Ht & Hr).
  destruct (IH l1 Hok (or_intror Hr)) as (l' & Hl' & Hy). exists l'. split; [done|].
  intros ws' H'. cbn [yields]. rewrite E, E1. auto.
Qed.

Lemma yields_end (l : Lexer) : lx_rest l = "" \/ lx_rest l = " " -> yields l [EOF].
Proof. destruct l as [s p]; cbn [lx_rest]. intros [->| ->]; by repeat split. Qed.

Lemma sees_next (p : Parser) (a : word) (ws : list word) : sees p (a :: ws) -> sees (nextToken p) ws.
Proof.
  unfold nextToken. destruct ws as [|b [|c ws]]; simpl; [done|..].
  - intros (_ & Hb & _). by destruct (NextToken _).
  - intros (_ & Hb & Hc & Hy). by destruct (NextToken _).
Qed.

Lemma sees_type (p : Parser) (a : word) (ws : list word) : sees p (a :: ws) -> cur_type p = a.1.
Proof. unfold cur_type. destruct ws; simpl; unfold tok_is; naive_solver. Qed.

Lemma sees_literal (p : Parser) (a : word) (ws : list word) : sees p (a :: ws) -> tok_Literal (ps_cur p) = a.2.
Proof. destruct ws; simpl; unfold tok_is; naive_solver. Qed.

Lemma sees_is (p : Parser) (a : word) (ws : list word) (t : TokenType) :
  sees p (a :: ws) -> cur_is p t = bool_decide (a.1 = t).
Proof. intros H. unfold cur_is. by rewrite (sees_type _ _ _ H). Qed.

Lemma sees_start (input : string) (a b : word) (ws : list word) :
  yields (NewLexer input) (a :: b :: ws) -> sees (NewParser input) (a :: b :: ws).
Proof.
  unfold NewParser, nextToken; simpl. destruct (NextToken (NewLexer input)) as [t1 l1]; simpl.
  destruct (NextToken l1) as [t2 l2]; simpl. naive_solver.
Qed.

Lemma nextToken_errors (p : Parser) : ps_errors (nextToken p) = ps_errors p.
Proof. unfold nextToken. by destruct (NextToken _). Qed.

#[local] Arguments sees : simpl never.
#[local] Opaque nextToken.

(** Advances over the words [H] says are ahead, rewriting the tests on the current token. *)
Ltac look H :=
  rewrite ?(sees_is _ _ _ _ H), ?(sees_type _ _ _ H), ?(sees_literal _ _ _ H); cbn [fst snd negb check_].
Ltac step H := apply sees_next in H; look H.

(** ** Parsing the printed words *)

Lemma in_loop_words (vs : list string) (fuel : nat) (acc : list string) (p : Parser) (ts : list word) :
  vs <> [] -> weight p < fuel -> sees p (in_words vs ++ ts) ->
  exists q, in_loop fuel acc p = Ok (acc ++ vs, q) /\ sees q ts.
Proof.
  revert fuel acc p; induction vs as [|v vs IH]; intros fuel acc p Hne Hf Hs; [done|].
  destruct fuel as [|f]; [lia|]. cbn [in_loop].
  destruct vs as [|v' vs].
  - cbn in Hs. look Hs. cbn [is_value negb check_]. step Hs. rewrite bool_decide_true by done.
    exists (nextToken (nextToken p)). split; [done|]. by apply sees_next in Hs.
  - change (in_words (v :: v' :: vs)) with ((TokenString, v) :: (TokenComma, ",") :: in_words (v' :: vs)) in Hs.
    cbn [app] in Hs. look Hs. cbn [is_value negb check_].
    assert (weight (nextToken p) < weight p) as H1 by (apply is_value_lt; by rewrite (sees_type _ _ _ Hs)).
    pose proof (nextToken_le (nextToken p)). step Hs.
    rewrite bool_decide_false by done. rewrite bool_decide_true by done. cbn [negb check_].
    apply sees_next in Hs. destruct (IH f (acc ++ [v]) (nextToken (nextToken p)) ltac:(done) ltac:(lia) Hs) as (q & -> & Hq).
    exists q. split; [|done]. by rewrite <- app_assoc.
Qed.

(** Each kind of condition. *)
Lemma comparison_words (fuel : nat) (f op v : string) (p : Parser) (ts : list word) :
  grammatical (ComparisonExpression f op v) = true ->
  sees p (expr_words (ComparisonExpression f op v) ++ ts) ->
  exists q, parseCondition fuel p = Ok (ComparisonExpression f op v, q) /\ sees q ts.
Proof.
  intros Hg Hs. cbn [grammatical expr_words] in *. destruct (operator_word op) as [w|] eqn:Eo; [|done].
  cbn [default from_option id app] in Hs. unfold parseCondition. look Hs.
  rewrite bool_decide_true by done. cbn [negb check_].
  apply sees_next in Hs. pose proof (sees_type _ _ _ Hs) as Ht.
  assert (comparison_operator (nextToken p) = Ok (op, nextToken p) /\ cur_is (nextToken p) TokenIs = false /\
    cur_is (nextToken p) TokenIn = false /\ cur_is (nextToken p) TokenNot = false /\
    cur_is (nextToken p) TokenBetween = false) as (Ec & -> & -> & -> & ->).
  { unfold cur_is, comparison_operator. rewrite Ht. revert Eo. unfold operator_word. clear.
    repeat (destruct (String.eqb op _) eqn:E; [apply String.eqb_eq in E as ->; intros [= <-]; done|clear E]). done. }
  rewrite Ec. cbn [mbind result_bind]. step Hs. cbn [is_value negb check_]. apply sees_next in Hs. by eexists.
Qed.

Lemma in_words_parsed (fuel : nat) (f : string) (vs : list string) (nt : bool) (p : Parser) (ts : list word) :
  vs <> [] -> weight p < fuel -> sees p ((TokenLParen, "(") :: in_words vs ++ ts) ->
  exists q, parseInExpression fuel f nt p = Ok (InExpression f vs nt, q) /\ sees q ts.
Proof.
  intros Hv Hf Hs. unfold parseInExpression. look Hs. rewrite bool_decide_true by done. cbn [negb check_].
  pose proof (nextToken_le p). apply sees_next in Hs.
  destruct (in_loop_words vs fuel [] (nextToken p) ts Hv ltac:(lia) Hs) as (q & -> & Hq). by exists q.
Qed.

Lemma in_words_condition (fuel : nat) (f : string) (vs : list string) (nt : bool) (p : Parser) (ts : list word) :
  vs <> [] -> weight p <= fuel -> sees p (expr_words (InExpression f vs nt) ++ ts) ->
  exists q, parseCondition fuel p = Ok (InExpression f vs nt, q) /\ sees q ts.
Proof.
  intros Hv Hf Hs. cbn [expr_words app] in Hs. unfold parseCondition. look Hs.
  rewrite bool_decide_true by done. cbn [negb check_]. 
  assert (weight (nextToken p) < weight p) by (apply nextToken_lt; by rewrite (sees_type _ _ _ Hs)).
  pose proof (nextToken_le (nextToken p)). pose proof (nextToken_le (nextToken (nextToken p))).
  destruct nt; cbn [app] in Hs; step Hs; rewrite ?(bool_decide_false (TokenNot = TokenIs)) by done;
    rewrite ?(bool_decide_false (TokenIn = TokenIs)), ?(bool_decide_false (TokenNot = TokenIn)) by done;
    rewrite bool_decide_true by done.
  - step Hs. rewrite bool_decide_true by done. cbn [negb check_]. apply sees_next in Hs.
    apply in_words_parsed; [done|lia|done].
  - apply sees_next in Hs. apply in_words_parsed; [done|lia|done].
Qed.

Lemma between_words_parsed (f lo hi : string) (p : Parser) (ts : list word) :
  sees p ([(TokenString, lo); (TokenAnd, "AND"); (TokenString, hi)] ++ ts) ->
  exists q, parseBetweenExpression f false p = Ok (BetweenExpression f lo hi false, q) /\ sees q ts.
Proof.
  intros Hs. cbn [app] in Hs. unfold parseBetweenExpression. look Hs. cbn [is_bound negb check_].
  unfold expectToken. step Hs. rewrite bool_decide_true by done. cbn [negb check_]. step Hs.
  cbn [is_bound negb check_]. apply sees_next in Hs. by eexists.
Qed.

Lemma between_words (fuel : nat) (f lo hi : string) (p : Parser) (ts : list word) :
  sees p (expr_words (BetweenExpression f lo hi false) ++ ts) ->
  exists q, parseCondition fuel p = Ok (BetweenExpression f lo hi false, q) /\ sees q ts.
Proof.
  intros Hs. cbn [expr_words app] in Hs. unfold parseCondition. look Hs.
  rewrite bool_decide_true by done. cbn [negb check_]. step Hs.
  rewrite (bool_decide_false (TokenBetween = TokenIs)), (bool_decide_false (TokenBetween = TokenIn)),
    (bool_decide_false (TokenBetween = TokenNot)), bool_decide_true by done.
  apply sees_next in Hs. by apply between_words_parsed.
Qed.

Lemma null_words (fuel : nat) (f : string) (nt : bool) (p : Parser) (ts : list word) :
  sees p (expr_words (IsNullExpression f nt) ++ ts) ->
  exists q, parseCondition fuel p = Ok (IsNullExpression f nt, q) /\ sees q ts.
Proof.
  intros Hs. cbn [expr_words app] in Hs. unfold parseCondition. look Hs.
  rewrite bool_decide_true by done. cbn [negb check_]. step Hs. rewrite bool_decide_true by done.
  apply sees_next in Hs. destruct nt; cbn [app] in Hs; look Hs.
  - rewrite bool_decide_true by done. step Hs. rewrite bool_decide_true by done. cbn [negb check_].
    apply sees_next in Hs. by eexists.
  - rewrite (bool_decide_false (TokenNull = TokenNot)) by done. look Hs. rewrite bool_decide_true by done.
    cbn [negb check_]. apply sees_next in Hs. by eexists.
Qed.

Lemma condition_words (fuel : nat) (e : Expression) (p : Parser) (ts : list word) :
  match e with BinaryExpression _ _ _ | NotExpression _ | ParenExpression _ => False | _ => True end ->
  grammatical e = true -> weight p <= fuel -> sees p (expr_words e ++ ts) ->
  exists q, parseCondition fuel p = Ok (e, q) /\ sees q ts.
Proof.
  intros He Hg Hf Hs. destruct e as [| f op v | f vs nt | f lo hi nt | f nt | |]; try done.
  - by apply comparison_words.
  - apply in_words_condition; [|done|done]. cbn in Hg. go_bool. by intros ->.
  - cbn in Hg. apply andb_true_iff in Hg as [_ Hn]. apply negb_true_iff in Hn as ->. by apply between_words.
  - by apply null_words.
Qed.

(** The words that follow do not continue an expression parsed at precedence [n]. *)
Definition follow (n : nat) (ts : list word) : Prop :=
  exists w ts', ts = w :: ts' /\ forall k op, infix_operator w.1 = Some (k, op) -> k <= n.

Lemma infix_exit (fuel prec : nat) (e : Expression) (q : Parser) (ts : list word) :
  weight q < fuel -> follow prec ts -> sees q ts -> infix_loop fuel prec e q = Ok (e, q).
Proof.
  intros Hf (w & ts' & -> & Hk) Hs. destruct fuel as [|f]; [lia|]. cbn [infix_loop].
  rewrite (sees_type _ _ _ Hs). destruct (infix_operator w.1) as [[k op]|] eqn:E; [|done].
  specialize (Hk _ _ eq_refl). by apply Nat.leb_le in Hk as ->.
Qed.

Lemma follow_weaken (n m : nat) (ts : list word) : follow n ts -> n <= m -> follow m ts.
Proof. intros (w & ts' & -> & H) Hnm. exists w, ts'. split; [done|]. intros k op E. specialize (H k op E). lia. Qed.

Lemma follow_top (ts : list word) (n : nat) : follow n ts -> follow 3 ts.
Proof.
  intros (w & ts' & -> & H). exists w, ts'. split; [done|]. intros k op E.
  destruct w as [[] l]; simpl in E; try done; injection E as <- <-; lia.
Qed.

(** [parses e]: at any precedence that admits [e], the parser reads the words of [e] and goes on with
    its infix loop holding [e]. *)
Definition parses (e : Expression) : Prop := forall fuel prec p ts,
  prec < level e \/ level e = 3 -> weight p < fuel -> follow (level e) ts -> sees p (expr_words e ++ ts) ->
  exists q fuel', weight q < fuel' /\ sees q ts /\ parseExpression fuel prec p = infix_loop fuel' prec e q.

(** Reading a whole operand. *)
Lemma parses_operand (e : Expression) (fuel prec : nat) (p : Parser) (ts : list word) :
  parses e -> prec < level e \/ level e = 3 -> weight p < fuel -> follow prec ts -> prec <= level e ->
  sees p (expr_words e ++ ts) ->
  exists q, parseExpression fuel prec p = Ok (e, q) /\ sees q ts /\ weight q < weight p.
Proof.
  intros He Hl Hf Hfo Hle Hs.
  destruct (He fuel prec p ts Hl Hf (follow_weaken _ _ _ Hfo Hle) Hs) as (q & f & Hq & Hsq & E).
  pose proof (proj1 (parse_within fuel) prec p Hf) as Hw. rewrite E in *.
  rewrite (infix_exit f prec e q ts) in * by done. by exists q.
Qed.

Lemma parses_condition (e : Expression) :
  match e with BinaryExpression _ _ _ | NotExpression _ | ParenExpression _ => False | _ => True end ->
  grammatical e = true -> parses e.
Proof.
  intros Hc Hg fuel prec p ts _ Hf Hfo Hs. destruct fuel as [|f]; [lia|].
  assert (cur_type p = TokenIdent) as Ht by (destruct e; try done; exact (sees_type _ _ _ Hs)).
  destruct (condition_words f e p ts Hc Hg ltac:(lia) Hs) as (q & E & Hq).
  exists q, f. pose proof (parseCondition_within f p ltac:(lia)) as Hw. rewrite E in Hw. simpl in Hw.
  split; [lia|]. split; [done|]. cbn [parseExpression]. rewrite Ht, E. done.
Qed.

Lemma parses_not (e : Expression) : parses e -> level e = 3 -> parses (NotExpression e).
Proof.
  intros He Hl fuel prec p ts _ Hf Hfo Hs. cbn [expr_words app] in Hs. destruct fuel as [|f]; [lia|].
  pose proof (sees_type _ _ _ Hs) as Ht. cbn [fst] in Ht.
  assert (weight (nextToken p) < weight p) by (apply nextToken_lt; by rewrite Ht). apply sees_next in Hs.
  destruct (parses_operand e f 3 (nextToken p) ts He (or_intror Hl) ltac:(lia) (follow_top _ _ Hfo) ltac:(lia) Hs)
    as (q & E & Hq & Hw).
  exists q, f. split; [lia|]. split; [done|]. cbn [parseExpression]. rewrite Ht, E. done.
Qed.

Lemma parses_paren (e : Expression) : parses e -> parses (ParenExpression e).
Proof.
  intros He fuel prec p ts _ Hf Hfo Hs. cbn [expr_words app] in Hs. destruct fuel as [|f]; [lia|].
  pose proof (sees_type _ _ _ Hs) as Ht. cbn [fst] in Ht.
  assert (weight (nextToken p) < weight p) by (apply nextToken_lt; by rewrite Ht). apply sees_next in Hs.
  rewrite <- app_assoc in Hs. cbn [app] in Hs.
  assert (0 < level e) by (destruct e; simpl; try lia; unfold op_level; destruct (String.eqb _ _); lia).
  destruct (parses_operand e f 0 (nextToken p) ((TokenRParen, ")") :: ts) He) as (q & E & Hq & Hw);
    [by left|lia|by eexists _, _|lia|done|].
  pose proof (nextToken_le q). exists (nextToken q), f. split; [lia|]. split; [by apply sees_next in Hq|].
  cbn [parseExpression]. rewrite Ht, E. cbn [mbind result_bind]. unfold expectToken. look Hq.
  rewrite bool_decide_true by done. done.
Qed.

Lemma parses_binary (l r : Expression) (op : string) :
  op = "AND" \/ op = "OR" -> op_level op <= level l -> op_level op < level r -> parses l -> parses r ->
  parses (BinaryExpression l op r).
Proof.
  intros Hop Hll Hlr Hl Hr fuel prec p ts Hprec Hf Hfo Hs. cbn [expr_words level] in *.
  assert (infix_operator (infix_word op).1 = Some (op_level op, op)) as Hi by (by destruct Hop as [->| ->]).
  assert (op_level op <> 3) by (by destruct Hop as [->| ->]).
  rewrite <- app_assoc in Hs. cbn [app] in Hs.
  destruct (Hl fuel prec p (infix_word op :: expr_words r ++ ts)) as (q & f & Hq & Hsq & E); [lia|done| |done|].
  { eexists _, _. split; [done|]. intros k o Ek. rewrite Hi in Ek. injection Ek as <- <-. done. }
  destruct f as [|f]; [lia|]. pose proof (sees_type _ _ _ Hsq) as Ht.
  assert (weight (nextToken q) < weight q).
  { apply nextToken_lt. rewrite Ht. intros Hx. by rewrite Hx in Hi. }
  apply sees_next in Hsq.
  destruct (parses_operand r f (op_level op) (nextToken q) ts Hr) as (q' & E' & Hq' & Hw);
    [by left|lia|done|lia|done|].
  exists q', f. split; [lia|]. split; [done|]. rewrite E. cbn [infix_loop]. rewrite Ht, Hi.
  assert ((op_level op <=? prec) = false) as -> by (apply Nat.leb_gt; lia). by rewrite E'.
Qed.

(** The parser reads every grammatical expression back. *)
Lemma grammatical_parses (e : Expression) : grammatical e = true -> parses e.
Proof.
  induction e as [l IHl op r IHr| | | | |e IH|e IH]; intros Hg; try by apply parses_condition.
  - cbn [grammatical] in Hg. rewrite !andb_true_iff in Hg. destruct Hg as [[[[Ho Hl] Hr] Gl] Gr].
    apply orb_true_iff in Ho. apply Nat.leb_le in Hl. apply Nat.ltb_lt in Hr.
    apply parses_binary; auto. by destruct Ho as [->%String.eqb_eq| ->%String.eqb_eq]; [left|right].
  - cbn [grammatical] in Hg. go_bool. by apply parses_not; auto.
  - cbn [grammatical] in Hg. by apply parses_paren; auto.
Qed.

(** ** The error list stays empty on the paths that succeed *)

Definition keeps {A} (p : Parser) (r : presult A) : Prop :=
  match r with Ok (_, q) => ps_errors q = ps_errors p | Err _ => True end.

Lemma keeps_bind {A B} (p : Parser) (r : presult A) (k : A * Parser -> presult B) :
  keeps p r -> (forall a q, ps_errors q = ps_errors p -> keeps q (k (a, q))) -> keeps p (r ≫= k).
Proof.
  destruct r as [[a q]|e]; simpl; [|done]. intros Hq Hk. specialize (Hk a q Hq).
  destruct (k (a, q)) as [[b q']|]; simpl in *; congruence.
Qed.

Lemma keeps_check {A} (p : Parser) (b : bool) (e : ParseError) (r : presult A) : keeps p r -> keeps p (check_ b e r).
Proof. by destruct b. Qed.

Lemma keeps_next {A} (p : Parser) (r : presult A) : keeps (nextToken p) r -> keeps p r.
Proof. destruct r as [[a q]|]; simpl; [|done]. by rewrite nextToken_errors. Qed.

Lemma keeps_ok {A} (p q : Parser) (a : A) : ps_errors q = ps_errors p -> keeps p (Ok (a, q)).
Proof. done. Qed.

#[local] Hint Resolve keeps_check keeps_next keeps_ok nextToken_errors : go.

Lemma in_loop_keeps (fuel : nat) (vs : list string) (p : Parser) : keeps p (in_loop fuel vs p).
Proof.
  revert vs p; induction fuel as [|f IH]; intros vs p; [done|]. cbn [in_loop]. apply keeps_check.
  apply keeps_next. destruct (cur_is _ _); eauto with go.
Qed.

Lemma parseInExpression_keeps (fuel : nat) (f : string) (nt : bool) (p : Parser) :
  keeps p (parseInExpression fuel f nt p).
Proof.
  unfold parseInExpression. apply keeps_check, keeps_next. eapply keeps_bind; [apply in_loop_keeps|].
  by intros vs q Hq.
Qed.

(** After a failed [expectToken] the caller returns an error. *)
Lemma expectToken_keeps {A} (p : Parser) (t : TokenType) (e : ParseError) (k : Parser -> presult A) :
  (forall q, keeps q (k q)) -> keeps p (let '(ok, q) := expectToken p t in check_ (negb ok) e (k q)).
Proof. intros Hk. unfold expectToken. destruct (cur_is p t); simpl; [|done]. apply keeps_next, Hk. Qed.

Lemma parseCondition_keeps (fuel : nat) (p : Parser) : keeps p (parseCondition fuel p).
Proof.
  unfold parseCondition. apply keeps_check, keeps_next. set (q := nextToken p).
  destruct (cur_is q TokenIs).
  { apply keeps_next. destruct (cur_is _ TokenNot); apply keeps_check; [apply keeps_next|]; eauto with go. }
  destruct (cur_is q TokenIn); [apply keeps_next, parseInExpression_keeps|].
  destruct (cur_is q TokenNot); [apply keeps_next, keeps_check, keeps_next, parseInExpression_keeps|].
  destruct (cur_is q TokenBetween).
  { apply keeps_next. unfold parseBetweenExpression. apply keeps_check, keeps_next, expectToken_keeps.
    eauto with go. }
  eapply keeps_bind; [|intros op r Hr; apply keeps_next, keeps_check; eauto with go].
  unfold comparison_operator. destruct (cur_type q); try done. destruct (cur_is _ TokenLike); [|done].
  eauto with go.
Qed.

Lemma parse_keeps (fuel : nat) :
  (forall prec p, keeps p (parseExpression fuel prec p)) /\
  (forall prec e p, keeps p (infix_loop fuel prec e p)).
Proof.
  induction fuel as [|f [IHe IHi]]; [done|]. split.
  - intros prec p. cbn [parseExpression]. eapply keeps_bind; [|intros e q _; apply IHi].
    destruct (cur_type p); try apply parseCondition_keeps; apply keeps_next;
      (eapply keeps_bind; [apply IHe|]); intros e q _; [done|]. apply expectToken_keeps. done.
  - intros prec e p. cbn [infix_loop]. destruct (infix_operator _) as [[k op]|]; [|done].
    destruct (k <=? prec); [done|]. apply keeps_next.
    eapply keeps_bind; [apply IHe|]. intros r q _. apply IHi.
Qed.

Lemma parseOrderBy_keeps (fuel : nat) (cs : list OrderByClause) (p : Parser) : keeps p (parseOrderBy fuel cs p).
Proof.
  revert cs p; induction fuel as [|f IH]; intros cs p; [done|]. cbn [parseOrderBy]. apply keeps_check, keeps_next.
  destruct (cur_type _); try apply keeps_next; destruct (cur_is _ TokenComma); eauto with go.
Qed.

Lemma parse_where_keeps (fuel : nat) (p : Parser) : keeps p (parse_where fuel p).
Proof.
  unfold parse_where. destruct (cur_is _ _); [|done]. apply keeps_next.
  eapply keeps_bind; [apply parse_keeps|]. done.
Qed.

Lemma parse_order_keeps (fuel : nat) (p : Parser) : keeps p (parse_order fuel p).
Proof.
  unfold parse_order. destruct (cur_is _ _); [|done]. apply keeps_next.
  destruct (cur_is _ _); [apply keeps_next|]; apply parseOrderBy_keeps.
Qed.

Lemma parse_number_clause_keeps (kw : TokenType) (e : ParseError) (p : Parser) :
  keeps p (parse_number_clause kw e p).
Proof. unfold parse_number_clause. destruct (cur_is _ _); eauto with go. Qed.

(** ** Whole statements *)

Lemma order_words_parsed (cs : list OrderByClause) (fuel : nat) (acc : list OrderByClause) (p : Parser)
  (w : word) (ts : list word) :
  cs <> [] -> forallb clause_ok cs = true -> w.1 <> TokenComma -> weight p < fuel ->
  sees p (order_words cs ++ w :: ts) ->
  exists q, parseOrderBy fuel acc p = Ok (acc ++ cs, q) /\ sees q (w :: ts).
Proof.
  revert fuel acc p; induction cs as [|[f d] cs IH]; intros fuel acc p Hne Hok Hw Hf Hs; [done|].
  cbn [forallb] in Hok. apply andb_true_iff in Hok as [Hc Hok].
  destruct fuel as [|n]; [lia|]. cbn [parseOrderBy].
  unfold clause_ok in Hc. apply andb_true_iff in Hc as [_ Hd]. cbn [oc_Direction] in Hd.
  assert (exists ws, order_words (MkOrderByClause f d :: cs) = clause_words (MkOrderByClause f d) ++ ws /\
    (cs = [] /\ ws = [] \/ cs <> [] /\ ws = (TokenComma, ",") :: order_words cs)) as (ws & Ew & Hws).
  { destruct cs as [|c' cs]; [exists []|eexists]; split; try done; [by left|by right]. }
  rewrite Ew in Hs. unfold clause_words in Hs. cbn [app oc_Field oc_Direction] in Hs.
  assert (weight (nextToken p) < weight p) by (apply nextToken_lt; by rewrite (sees_type _ _ _ Hs)).
  pose proof (nextToken_le (nextToken p)). pose proof (nextToken_le (nextToken (nextToken p))).
  look Hs. rewrite bool_decide_true by done. cbn [negb check_]. apply sees_next in Hs.
  assert (match cur_type (nextToken p) with TokenAsc => ("ASC", nextToken (nextToken p))
    | TokenDesc => ("DESC", nextToken (nextToken p)) | _ => ("ASC", nextToken p) end
    = (d, nextToken (nextToken p))) as ->.
  { look Hs. apply orb_true_iff in Hd as [->%String.eqb_eq| ->%String.eqb_eq]; done. }
  apply sees_next in Hs. destruct Hws as [[-> ->]|[Hcs ->]]; cbn [app] in Hs; look Hs.
  - rewrite bool_decide_false by done. by eexists.
  - rewrite bool_decide_true by done. apply sees_next in Hs.
    destruct (IH n (acc ++ [MkOrderByClause f d]) (nextToken (nextToken (nextToken p))) Hcs Hok Hw ltac:(lia) Hs)
      as (q & -> & Hq).
    exists q. split; [|done]. by rewrite <- app_assoc.
Qed.

Lemma order_by_parsed (cs : list OrderByClause) (fuel : nat) (p : Parser) (w : word) (ts : list word) :
  forallb clause_ok cs = true -> w.1 <> TokenComma -> w.1 <> TokenOrderBy -> weight p < fuel ->
  sees p (order_by_words cs ++ w :: ts) ->
  exists q, parse_order fuel p = Ok (cs, q) /\ sees q (w :: ts).
Proof.
  intros Hok Hc Ho Hf Hs. unfold parse_order. pose proof (nextToken_le p). pose proof (nextToken_le (nextToken p)).
  destruct cs as [|c cs]; cbn [order_by_words app] in Hs; look Hs.
  - rewrite bool_decide_false by done. by exists p.
  - rewrite bool_decide_true by done. step Hs. rewrite bool_decide_true by done. apply sees_next in Hs.
    apply (order_words_parsed (c :: cs) fuel [] _ w ts); [done|done|done|lia|done].
Qed.

Lemma number_parsed (kw : word) (e : ParseError) (n : option Z) (p : Parser) (w : word) (ts : list word) :
  opt_int64 n = true -> w.1 <> kw.1 -> sees p (number_words kw n ++ w :: ts) ->
  exists q, parse_number_clause kw.1 e p = Ok (n, q) /\ sees q (w :: ts).
Proof.
  intros Hn Hw Hs. unfold parse_number_clause. destruct n as [z|]; cbn [number_words app] in Hs; look Hs.
  - rewrite bool_decide_true by done. step Hs. rewrite bool_decide_true by done. cbn [negb check_].
    unfold Atoi_value. rewrite ParseInt_Itoa by done. apply sees_next in Hs. by eexists.
  - rewrite bool_decide_false by done. by exists p.
Qed.

Lemma where_parsed (o : option Expression) (fuel : nat) (p : Parser) (w : word) (ts : list word) :
  match o with Some e => grammatical e = true | None => True end ->
  w.1 <> TokenWhere -> infix_operator w.1 = None -> weight p < fuel ->
  sees p ((match o with Some e => (TokenWhere, "WHERE") :: expr_words e | None => [] end) ++ w :: ts) ->
  exists q, parse_where fuel p = Ok (o, q) /\ sees q (w :: ts) /\ weight q <= weight p.
Proof.
  intros Hg Hw Hi Hf Hs. unfold parse_where. pose proof (nextToken_le p). destruct o as [e|]; cbn [app] in Hs; look Hs.
  - rewrite bool_decide_true by done. apply sees_next in Hs.
    assert (0 < level e) by (destruct e; simpl; try lia; unfold op_level; destruct (String.eqb _ _); lia).
    destruct (parses_operand e fuel 0 (nextToken p) (w :: ts)) as (q & -> & Hq & Hl);
      [by apply grammatical_parses|by left|lia| |lia|done|].
    { eexists _, _. split; [done|]. intros k op E. by rewrite Hi in E. }
    exists q. split; [done|]. split; [done|lia].
  - rewrite bool_decide_false by done. by exists p.
Qed.

(** A token that no clause of a statement can start or continue with. *)
Definition inert (t : TokenType) : bool :=
  match t with
  | TokenAnd | TokenOr | TokenWhere | TokenOrderBy | TokenComma | TokenLimit | TokenOffset => false
  | _ => true
  end.

Lemma parse_clauses_words (s : SelectStatement) (fuel : nat) (p : Parser) (w : word) (ts : list word) :
  printable s = true -> inert w.1 = true -> weight p < fuel -> ps_errors p = [] ->
  sees p (clauses_words s ++ w :: ts) -> parse_clauses fuel (ss_TableName s) p = Ok s.
Proof.
  intros Hp Hw Hf He Hs. unfold printable in Hp. rewrite !andb_true_iff in Hp.
  destruct Hp as [[[[_ Hwh] Ho] Hl] Hoff]. destruct s as [table wh o l off]. unfold clauses_words in Hs.
  cbn [ss_TableName ss_Where ss_OrderBy ss_Limit ss_Offset] in *. rewrite <- !app_assoc in Hs.
  assert (exists h1 t1, number_words (TokenOffset, "OFFSET") off ++ w :: ts = h1 :: t1 /\
    (h1.1 = TokenOffset \/ inert h1.1 = true)) as (h1 & t1 & E1 & H1) by (destruct off; simpl; eauto 6).
  assert (exists h2 t2, number_words (TokenLimit, "LIMIT") l ++ h1 :: t1 = h2 :: t2 /\
    (h2.1 = TokenLimit \/ h2.1 = TokenOffset \/ inert h2.1 = true)) as (h2 & t2 & E2 & H2)
    by (destruct l; simpl; eauto 7).
  assert (exists h3 t3, order_by_words o ++ h2 :: t2 = h3 :: t3 /\
    (h3.1 = TokenOrderBy \/ h3.1 = TokenLimit \/ h3.1 = TokenOffset \/ inert h3.1 = true)) as (h3 & t3 & E3 & H3)
    by (destruct o; simpl; eauto 7).
  rewrite E1, E2, E3 in Hs.
  destruct (where_parsed wh fuel p h3 t3) as (p5 & Ew & Hs5 & W5);
    [by destruct wh|by intros Hx; rewrite Hx in H3; naive_solver| |lia|done|].
  { destruct H3 as [->|[->|[->|H3]]]; try done. by destruct (h3.1). }
  pose proof (parse_where_keeps fuel p) as K5. rewrite Ew in K5. cbn [keeps] in K5. rewrite <- E3 in Hs5.
  destruct (order_by_parsed o fuel p5 h2 t2) as (p6 & Eo & Hs6);
    [done|intros Hx; rewrite Hx in H2; naive_solver..|lia|done|].
  pose proof (parse_order_keeps fuel p5) as K6. rewrite Eo in K6. cbn [keeps] in K6. rewrite <- E2 in Hs6.
  destruct (number_parsed (TokenLimit, "LIMIT") ExpectedLimitNumber l p6 h1 t1) as (p7 & El & Hs7);
    [done|intros Hx; cbn [fst] in Hx; rewrite Hx in H1; naive_solver|done|].
  pose proof (parse_number_clause_keeps TokenLimit ExpectedLimitNumber p6) as K7. cbn [fst] in El.
  rewrite El in K7. cbn [keeps] in K7. rewrite <- E1 in Hs7.
  destruct (number_parsed (TokenOffset, "OFFSET") ExpectedOffsetNumber off p7 w ts) as (p8 & Ef & Hs8);
    [done|intros Hx; cbn [fst] in Hx; rewrite Hx in Hw; done|done|].
  pose proof (parse_number_clause_keeps TokenOffset ExpectedOffsetNumber p7) as K8. cbn [fst] in Ef.
  rewrite Ef in K8. cbn [keeps] in K8.
  unfold parse_clauses. rewrite Ew. cbn [mbind result_bind]. rewrite Eo. cbn [mbind result_bind].
  rewrite El. cbn [mbind result_bind]. rewrite Ef. cbn [mbind result_bind]. by rewrite K8, K7, K6, K5, He.
Qed.

Lemma parse_select_star (fuel : nat) (p : Parser) :
  cur_is p TokenSelect = true -> cur_is (nextToken p) TokenStar = true ->
  parse_select fuel p = parse_from fuel (nextToken (nextToken p)).
Proof. intros H H1. unfold parse_select. rewrite H. cbn [negb check_]. by rewrite H1. Qed.

Lemma expectToken_true (p : Parser) (t : TokenType) : cur_is p t = true -> expectToken p t = (true, nextToken p).
Proof. intros H. unfold expectToken. by rewrite H. Qed.

Lemma parse_from_table (fuel : nat) (p : Parser) :
  cur_is p TokenFrom = true -> cur_is (nextToken p) TokenIdent = true ->
  parse_from fuel p = parse_clauses fuel (tok_Literal (ps_cur (nextToken p))) (nextToken (nextToken p)).
Proof. intros H H1. unfold parse_from. rewrite (expectToken_true _ _ H). cbn [negb check_]. by rewrite H1. Qed.

Lemma parse_select_words (s : SelectStatement) (fuel : nat) (p : Parser) (w : word) (ts : list word) :
  printable s = true -> inert w.1 = true -> weight p < fuel -> ps_errors p = [] ->
  sees p (select_words s ++ w :: ts) -> parse_select fuel p = Ok s.
Proof.
  intros Hp Hw Hf He Hs. unfold select_words in Hs. cbn [app] in Hs.
  pose proof (nextToken_le p) as W1. pose proof (nextToken_le (nextToken p)) as W2.
  pose proof (nextToken_le (nextToken (nextToken p))) as W3.
  pose proof (nextToken_le (nextToken (nextToken (nextToken p)))) as W4.
  pose proof (sees_is _ _ _ TokenSelect Hs) as H0. apply sees_next in Hs.
  pose proof (sees_is _ _ _ TokenStar Hs) as H1. apply sees_next in Hs.
  pose proof (sees_is _ _ _ TokenFrom Hs) as H2. apply sees_next in Hs.
  pose proof (sees_is _ _ _ TokenIdent Hs) as H3. pose proof (sees_literal _ _ _ Hs) as E. apply sees_next in Hs.
  rewrite bool_decide_true in H0, H1, H2, H3 by done.
  rewrite parse_select_star, parse_from_table by done. rewrite E.
  apply (parse_clauses_words s fuel _ w ts); [done|done|lia|by rewrite !nextToken_errors|done].
Qed.

(** The fixed words of the language. *)
Definition fixed_words : list word :=
  [(TokenSelect, "SELECT"); (TokenStar, "*"); (TokenFrom, "FROM"); (TokenWhere, "WHERE"); (TokenAnd, "AND");
   (TokenOr, "OR"); (TokenNot, "NOT"); (TokenIn, "IN"); (TokenBetween, "BETWEEN"); (TokenLike, "LIKE");
   (TokenIs, "IS"); (TokenNull, "NULL"); (TokenOrderBy, "ORDER"); (TokenOrderBy, "BY"); (TokenAsc, "ASC");
   (TokenDesc, "DESC"); (TokenLimit, "LIMIT"); (TokenOffset, "OFFSET"); (TokenEq, "="); (TokenNotEq, "!=");
   (TokenLt, "<"); (TokenLte, "<="); (TokenGt, ">"); (TokenGte, ">="); (TokenLParen, "("); (TokenRParen, ")");
   (TokenComma, ",")].

Lemma fixed_words_ok : Forall word_ok fixed_words.
Proof. repeat constructor; intros rest pos; eexists _, _; (split; [reflexivity|]); by repeat split. Qed.

Lemma fixed_ok (w : word) : w ∈ fixed_words -> word_ok w.
Proof. intros H. by apply (proj1 (Forall_forall _ _) fixed_words_ok). Qed.

Ltac fixed := apply fixed_ok; vm_compute; repeat constructor.

Lemma in_words_ok (vs : list string) : forallb value_ok vs = true -> Forall word_ok (in_words vs).
Proof.
  induction vs as [|v vs IH]; intros H; [done|]. cbn [forallb] in H. apply andb_true_iff in H as [Hv H].
  destruct vs as [|v' vs]; [repeat constructor; [done|fixed]|].
  change (in_words (v :: v' :: vs)) with ((TokenString, v) :: (TokenComma, ",") :: in_words (v' :: vs)).
  repeat (apply Forall_cons; split); [done|fixed|by apply IH].
Qed.

Lemma expr_words_ok (e : Expression) : grammatical e = true -> Forall word_ok (expr_words e).
Proof.
  induction e as [l IHl op r IHr|f op v|f vs nt|f lo hi nt|f nt|e IH|e IH]; cbn [grammatical expr_words]; intros Hg;
    rewrite ?andb_true_iff in Hg.
  - destruct Hg as [[[[Ho _] _] Gl] Gr]. apply Forall_app. split; [auto|]. apply Forall_cons. split; [|auto].
    apply orb_true_iff in Ho as [->%String.eqb_eq| ->%String.eqb_eq]; fixed.
  - destruct (operator_word op) as [w|] eqn:E; [|done]. apply andb_true_iff in Hg as [Hf Hv].
    repeat (apply Forall_cons; split); try done. cbn [default from_option id]. revert E. unfold operator_word.
    repeat (destruct (String.eqb op _); [intros [= <-]; fixed|]). done.
  - destruct Hg as [[Hf Hv] _]. apply Forall_cons. split; [done|]. apply Forall_app.
    split; [destruct nt; repeat constructor; fixed|]. repeat (apply Forall_cons; split; [fixed|]). by apply in_words_ok.
  - destruct Hg as [[[Hf Hl] Hh] _]. repeat (apply Forall_cons; split); try done; fixed.
  - apply Forall_cons. split; [done|]. apply Forall_cons. split; [fixed|]. destruct nt; repeat constructor; fixed.
  - apply Forall_cons. split; [fixed|]. destruct Hg as [_ Hg]. by apply IH.
  - apply Forall_cons. split; [fixed|]. apply Forall_app. split; [auto|]. repeat constructor; fixed.
Qed.

Lemma order_words_ok (cs : list OrderByClause) : forallb clause_ok cs = true -> Forall word_ok (order_words cs).
Proof.
  induction cs as [|c cs IH]; intros H; [done|]. cbn [forallb] in H. apply andb_true_iff in H as [Hc H].
  unfold clause_ok in Hc. apply andb_true_iff in Hc as [Hn _].
  assert (Forall word_ok (clause_words c)) as Hw.
  { apply Forall_cons. split; [done|]. destruct (String.eqb _ _); repeat constructor; fixed. }
  destruct cs as [|c' cs]; [done|].
  change (order_words (c :: c' :: cs)) with (clause_words c ++ (TokenComma, ",") :: order_words (c' :: cs)).
  apply Forall_app. split; [done|]. apply Forall_cons. split; [fixed|by apply IH].
Qed.

Lemma number_words_ok (kw : word) (n : option Z) : word_ok kw -> Forall word_ok (number_words kw n).
Proof. intros H. destruct n as [z|]; [|done]. repeat constructor; [done|]. by exists z. Qed.

Lemma select_words_ok (s : SelectStatement) : printable s = true -> Forall word_ok (select_words s).
Proof.
  unfold printable. rewrite !andb_true_iff. intros [[[[Hn Hw] Ho] _] _]. unfold select_words, clauses_words.
  apply Forall_app. split; [repeat (apply Forall_cons; split); try done; fixed|].
  apply Forall_app. split.
  { destruct (ss_Where s); [|done]. apply Forall_cons. split; [fixed|]. by apply expr_words_ok. }
  apply Forall_app. split; [|apply Forall_app; split; apply number_words_ok; fixed].
  destruct (ss_OrderBy s) as [|c cs]; [done|]. repeat (apply Forall_cons; split; [fixed|]). by apply order_words_ok.
Qed.

Lemma NewParser_errors (input : string) : ps_errors (NewParser input) = [].
Proof. unfold NewParser. by rewrite !nextToken_errors. Qed.

(** A text that starts with a printed statement and goes on with a token no clause can take parses as
    the statement. *)
Lemma ParseSelect_words (s : SelectStatement) (input : string) (w : word) (ts : list word) :
  printable s = true -> inert w.1 = true -> yields (NewLexer input) (select_words s ++ w :: ts) ->
  ParseSelect (NewParser input) = Ok s.
Proof.
  intros Hp Hw Hy. unfold ParseSelect. apply (parse_select_words s _ _ w ts); [done|done|lia|apply NewParser_errors|].
  by apply sees_start.
Qed.

Lemma ParseSelect_print (s : SelectStatement) :
  printable s = true -> ParseSelect (NewParser (print_select s)) = Ok s.
Proof.
  intros Hp. destruct (yields_spelled (select_words s) "" (NewLexer (print_select s))) as (l & Hl & Hy);
    [by apply select_words_ok|left; by rewrite str_app_nil_r|].
  apply (ParseSelect_words s _ EOF []); [done|done|]. by apply Hy, yields_end.
Qed.

(** ** Theorems *)

(** C8. Parsing undoes printing: for every statement of the grammar, with any names that contain no
    closing bracket and no NUL byte, any values that contain no single quote and no NUL byte and do not end
    in a backslash, and limits and offsets of 64 bits, [ParseSelect] applied to the printed text is the
    statement.  In particular AND binds tighter than OR, NOT tighter than both, AND and OR
    associate to the left, and parentheses are kept. *)
Theorem parse_print_roundtrip (s : SelectStatement) :
  printable s = true -> ParseSelect (NewParser (print_select s)) = Ok s.
Proof. apply ParseSelect_print. Qed.

Lemma parse_print_roundtrip_witness :
  let cmp f v := ComparisonExpression f "eq" v in
  let s := MkSelectStatement "dbo.Users"
    (Some (BinaryExpression (BinaryExpression (cmp "a" "1") "AND" (NotExpression (IsNullExpression "b" true))) "OR"
      (BinaryExpression (InExpression "c d" ["x"; "y"] true) "AND" (ParenExpression (cmp "e" "")))))
    [MkOrderByClause "a" "DESC"; MkOrderByClause "b" "ASC"] (Some (-5)%Z) (Some 10%Z) in
  print_select s = "SELECT * FROM [dbo.Users] WHERE [a] = '1' AND NOT [b] IS NOT NULL OR [c d] NOT IN ( 'x' , 'y' ) AND ( [e] = '' ) ORDER BY [a] DESC , [b] ASC LIMIT -5 OFFSET 10 "
  /\ ParseSelect (NewParser (print_select s)) = Ok s.
Proof. intros cmp s. split; [reflexivity|]. apply (parse_print_roundtrip s). reflexivity. Defined.

(** C36. The parser terminates on every input text: the bound given to its loops, one more than the bytes
    and tokens still to come, is never reached. *)
Theorem parse_select_terminates (input : string) : ParseSelect (NewParser input) <> Err OutOfFuel.
Proof. apply parse_select_total. lia. Qed.

(** A doubled quote ends the statement: in the SQL spelling of a value with a quote, ['v1''v2'], the
    lexer sees two string tokens, the comparison takes the first, and everything after it, further AND
    conditions, ORDER BY and LIMIT included, is dropped without an error. *)
Theorem doubled_quote_drops_rest (table field v1 v2 rest : string) :
  name_ok table = true -> name_ok field = true -> value_ok v1 = true -> value_ok v2 = true ->
  ParseSelect (NewParser ("SELECT * FROM [" +:+ table +:+ "] WHERE [" +:+ field +:+ "] = '"
    +:+ v1 +:+ "''" +:+ v2 +:+ "'" +:+ rest))
  = Ok (MkSelectStatement table (Some (ComparisonExpression field "eq" v1)) [] None None).
Proof.
  intros Ht Hf H1 H2. set (s := MkSelectStatement _ _ _ _ _). match goal with |- context [NewParser ?i] => set (input := i) end.
  set (ws := [(TokenSelect, "SELECT"); (TokenStar, "*"); (TokenFrom, "FROM"); (TokenIdent, table);
    (TokenWhere, "WHERE"); (TokenIdent, field); (TokenEq, "=")]).
  set (r := "'" +:+ v1 +:+ "'" +:+ "'" +:+ v2 +:+ "'" +:+ rest).
  destruct (yields_spelled ws r (NewLexer input)) as (l & Hl & Hy).
  { repeat (apply Forall_cons; split); try done; fixed. }
  { left. unfold input, ws, r, spell_all, spell; cbn [NewLexer lx_rest fst snd].
    do 8 (cbn [String.append]; rewrite ?str_app_assoc). done. }
  assert (printable s = true) as Hp by (unfold printable; cbn; by rewrite Ht, Hf, H1).
  apply (ParseSelect_words s input (TokenString, v2) []); [done|done|].
  change (select_words s ++ [(TokenString, v2)]) with (ws ++ [(TokenString, v1); (TokenString, v2)]). apply Hy.
  destruct l as [lr lp]. assert (exists q, NextToken (MkLexer lr lp) = NextToken (MkLexer r q)) as [q E].
  { cbn [lx_rest] in Hl. destruct Hl as [->| ->]; [by exists lp|]. rewrite NextToken_space. by eexists. }
  cbn [yields]. rewrite E. unfold r.
  destruct (lex_string v1 ("'" +:+ v2 +:+ "'" +:+ rest) q H1) as (t1 & [r1 q1] & -> & ? & Hr1). cbn [fst snd lx_rest] in *.
  subst r1. destruct (lex_string v2 rest q1 H2) as (t2 & l2 & -> & ? & _).
  split; [done|]. by split.
Qed.

Lemma doubled_quote_drops_rest_witness :
  ParseSelect (NewParser "SELECT * FROM [users] WHERE [name] = 'O''Brien' AND [tenant] = '7' LIMIT 10")
  = Ok (MkSelectStatement "users" (Some (ComparisonExpression "name" "eq" "O")) [] None None).
Proof.
  apply (doubled_quote_drops_rest "users" "name" "O" "Brien" " AND [tenant] = '7' LIMIT 10"); reflexivity.
Defined.
