(* ===== verification/SchemaPkg.v ===== *)
(** * SchemaPkg: field types, values and schema validation (pkg/core/schema)

    types.go, converter.go, validator.go and builder.go.  A [DataType] is its string.  A [TypedValue]
    has one optional slot per kind of value, as the struct has one pointer per kind.

    Floating point numbers and calendar times are those of Go's [strconv] and [time]; the class
    [GoValues] names the functions the package calls.  [ParseFloat] and [time_Parse] give [None] where Go
    returns an error; [float_lt] is the [<] of [float64], [time_Before] is [Time.Before].  The theorems
    that need an order take the laws of [GoValuesLaws]. *)

From Stdlib Require Import ZArith Lia Ascii String.
From stdpp Require Import base list strings gmap.
From S2P Require Import Prelude Strconv Encodings PacketTypes RowCodec.

Class GoValues := {
  float64 : Type;
  ParseFloat : string -> option float64;
  FormatFloat : float64 -> Z -> string;
  float_lt : float64 -> float64 -> bool;
  is_NaN : float64 -> bool;
  Time : Type;
  time_Parse : string -> string -> option Time;
  time_Format : Time -> string -> string;
  time_Before : Time -> Time -> bool;
  time_UTC : Time -> Time;
  time_Midnight : Time -> Time;
}.

(** [u.After(t)] is [t.Before(u)].  Both relations are strict orders in which incomparability is
    transitive: times always, floats apart from NaN, which [ParseFloat] also reads. *)
Class GoValuesLaws (V : GoValues) : Prop := {
  time_Before_irrefl t : time_Before t t = false;
  time_Before_trans a b c : time_Before a b = true -> time_Before b c = true -> time_Before a c = true;
  time_Before_cotrans a b c : time_Before a c = true -> time_Before a b = true \/ time_Before b c = true;
  float_lt_irrefl x : float_lt x x = false;
  float_lt_trans a b c : float_lt a b = true -> float_lt b c = true -> float_lt a c = true;
  float_lt_cotrans a b c : is_NaN b = false ->
    float_lt a c = true -> float_lt a b = true \/ float_lt b c = true;
}.

(** ** types.go *)

Definition DataType := string.
Definition TypeInteger : DataType := "INTEGER".
Definition TypeInt : DataType := "INT".
Definition TypeReal : DataType := "REAL".
Definition TypeFloat : DataType := "FLOAT".
Definition TypeDouble : DataType := "DOUBLE".
Definition TypeDecimal : DataType := "DECIMAL".
Definition TypeText : DataType := "TEXT".
Definition TypeVarchar : DataType := "VARCHAR".
Definition TypeChar : DataType := "CHAR".
Definition TypeString : DataType := "STRING".
Definition TypeBoolean : DataType := "BOOLEAN".
Definition TypeBool : DataType := "BOOL".
Definition TypeDate : DataType := "DATE".
Definition TypeDatetime : DataType := "DATETIME".
Definition TypeTimestamp : DataType := "TIMESTAMP".
Definition TypeBlob : DataType := "BLOB".

Definition one_of (t : DataType) (ts : list DataType) : bool := existsb (String.eqb t) ts.

Definition IsNumericType (t : DataType) : bool :=
  one_of t [TypeInteger; TypeInt; TypeReal; TypeFloat; TypeDouble; TypeDecimal].
Definition IsTextType (t : DataType) : bool := one_of t [TypeText; TypeVarchar; TypeChar; TypeString].
Definition IsDateTimeType (t : DataType) : bool := one_of t [TypeDate; TypeDatetime; TypeTimestamp].
Definition IsBooleanType (t : DataType) : bool := String.eqb t TypeBoolean || String.eqb t TypeBool.
Definition IsBlobType (t : DataType) : bool := String.eqb t TypeBlob.

Definition NormalizeType (t : DataType) : DataType :=
  if String.eqb t TypeInt then TypeInteger
  else if one_of t [TypeFloat; TypeDouble] then TypeReal
  else if one_of t [TypeVarchar; TypeChar; TypeString] then TypeText
  else if String.eqb t TypeBool then TypeBoolean
  else t.

Definition IsValidType (t : DataType) : bool :=
  one_of (NormalizeType t)
    [TypeInteger; TypeReal; TypeDecimal; TypeText; TypeBoolean; TypeDate; TypeDatetime; TypeTimestamp; TypeBlob].

Definition GetDefaultPrecision : Z := 18.
Definition GetDefaultScale : Z := 2.
Definition GetDefaultTimezone : string := "UTC".

Record FieldDef := MkFieldDef {
  fd_Name : string;
  fd_Type : DataType;
  fd_Subtype : string;
  fd_Length : Z;
  fd_Precision : Z;
  fd_Scale : Z;
  fd_Timezone : string;
  fd_Key : bool;
  fd_Nullable : bool;
}.

Record ValidationError := MkValidationError { ve_Field : string; ve_Message : string; ve_Value : string }.

Section Converter.
Context {V : GoValues}.

Record TypedValue := MkTypedValue {
  tv_Type : DataType;
  tv_RawValue : string;
  tv_IsNull : bool;
  tv_IntValue : option Z;
  tv_FloatValue : option float64;
  tv_StringValue : option string;
  tv_BoolValue : option bool;
  tv_TimeValue : option Time;
  tv_BlobValue : option string;
}.

(** [&TypedValue{Type: t, RawValue: raw}] and the assignments of the parse functions. *)
Definition tv_new (t : DataType) (raw : string) : TypedValue :=
  MkTypedValue t raw false None None None None None None.
Definition tv_null (t : DataType) (raw : string) : TypedValue :=
  MkTypedValue t raw true None None None None None None.
Definition with_int (tv : TypedValue) (z : Z) : TypedValue :=
  MkTypedValue (tv_Type tv) (tv_RawValue tv) (tv_IsNull tv) (Some z) None None None None None.
Definition with_float (tv : TypedValue) (x : float64) : TypedValue :=
  MkTypedValue (tv_Type tv) (tv_RawValue tv) (tv_IsNull tv) None (Some x) None None None None.
Definition with_string (tv : TypedValue) (s : string) : TypedValue :=
  MkTypedValue (tv_Type tv) (tv_RawValue tv) (tv_IsNull tv) None None (Some s) None None None.
Definition with_bool (tv : TypedValue) (b : bool) : TypedValue :=
  MkTypedValue (tv_Type tv) (tv_RawValue tv) (tv_IsNull tv) None None None (Some b) None None.
Definition with_time (tv : TypedValue) (t : Time) : TypedValue :=
  MkTypedValue (tv_Type tv) (tv_RawValue tv) (tv_IsNull tv) None None None None (Some t) None.
Definition with_blob (tv : TypedValue) (b : string) : TypedValue :=
  MkTypedValue (tv_Type tv) (tv_RawValue tv) (tv_IsNull tv) None None None None None (Some b).

Abbreviation parsed := (result ValidationError TypedValue).

(** [&ValidationError{Field: field.Name, Message: msg, Value: tv.RawValue}]. *)
Definition invalid (tv : TypedValue) (field : FieldDef) (msg : string) : parsed :=
  Err (MkValidationError (fd_Name field) msg (tv_RawValue tv)).

(** ** converter.go *)

Definition parseInteger (tv : TypedValue) (field : FieldDef) : parsed :=
  match ParseInt (tv_RawValue tv) with
  | Ok z => Ok (with_int tv z)
  | Err _ => invalid tv field "invalid integer value"
  end.

Definition parseReal (tv : TypedValue) (field : FieldDef) : parsed :=
  match ParseFloat (tv_RawValue tv) with
  | Some x => Ok (with_float tv x)
  | None => invalid tv field "invalid float value"
  end.

Definition slen (s : string) : Z := Z.of_nat (String.length s).

Definition parseDecimal (tv : TypedValue) (field : FieldDef) : parsed :=
  match ParseFloat (tv_RawValue tv) with
  | None => invalid tv field "invalid decimal value"
  | Some val =>
      let precision := if (fd_Precision field =? 0)%Z then GetDefaultPrecision else fd_Precision field in
      let scale := if (fd_Scale field =? 0)%Z then GetDefaultScale else fd_Scale field in
      let rawParts := Split (TrimRight (TrimRight (tv_RawValue tv) "0") ".") "." in
      let scale_exceeded := match rawParts with _ :: frac :: _ => (scale <? slen frac)%Z | _ => false end in
      if scale_exceeded then invalid tv field ("decimal scale exceeds " +:+ Itoa scale)
      else
        let parts := Split (FormatFloat val scale) "." in
        let totalDigits :=
          (slen (replace_byte "-" "" (List.hd "" parts))
           + match parts with _ :: frac :: _ => slen frac | _ => 0 end)%Z in
        if (precision <? totalDigits)%Z then invalid tv field ("decimal precision exceeds " +:+ Itoa precision)
        else Ok (with_float tv val)
  end.

Definition parseText (tv : TypedValue) (field : FieldDef) : parsed :=
  let val := tv_RawValue tv in
  if ((0 <? fd_Length field) && (fd_Length field <? Z.of_nat (RuneCount val)))%Z
  then invalid tv field ("text length exceeds " +:+ Itoa (fd_Length field))
  else Ok (with_string tv val).

Definition parseBoolean (tv : TypedValue) (field : FieldDef) : parsed :=
  if String.eqb (tv_RawValue tv) "0" then Ok (with_bool tv false)
  else if String.eqb (tv_RawValue tv) "1" then Ok (with_bool tv true)
  else invalid tv field "boolean must be 0 or 1".

Definition RFC3339 : string := "2006-01-02T15:04:05Z07:00".
Definition date_layout : string := "2006-01-02".

Definition parseDate (tv : TypedValue) (field : FieldDef) : parsed :=
  match time_Parse date_layout (tv_RawValue tv) with
  | Some t => Ok (with_time tv t)
  | None =>
      match time_Parse RFC3339 (tv_RawValue tv) with
      | Some t => Ok (with_time tv (time_Midnight t))
      | None => invalid tv field "invalid date format, expected YYYY-MM-DD"
      end
  end.

Definition datetimeFormats : list string :=
  [RFC3339; "2006-01-02T15:04:05"; "2006-01-02 15:04:05"; "2006-01-02"].

(** The first layout that parses. *)
Fixpoint first_layout (layouts : list string) (raw : string) : option Time :=
  match layouts with
  | [] => None
  | l :: ls => match time_Parse l raw with Some t => Some t | None => first_layout ls raw end
  end.

Definition parseDatetime (tv : TypedValue) (field : FieldDef) : parsed :=
  match first_layout datetimeFormats (tv_RawValue tv) with
  | Some t => Ok (with_time tv t)
  | None => invalid tv field "invalid datetime format, expected RFC3339"
  end.

Definition time_formats : list string :=
  ["15:04:05"; "15:04:05.000000"; "15:04"; "03:04:05 PM"; "03:04 PM"].

Definition parseTime (tv : TypedValue) (field : FieldDef) : parsed :=
  match first_layout time_formats (tv_RawValue tv) with
  | Some t => Ok (with_time tv t)
  | None => invalid tv field "invalid time format, expected HH:MM:SS"
  end.

Definition parseTimestamp (tv : TypedValue) (field : FieldDef) : parsed :=
  if String.eqb (fd_Subtype field) "time" then parseTime tv field
  else match first_layout datetimeFormats (tv_RawValue tv) with
       | Some t => Ok (with_time tv (time_UTC t))
       | None => invalid tv field "invalid timestamp format, expected RFC3339"
       end.

Definition parseBlob (tv : TypedValue) (field : FieldDef) : parsed :=
  match b64_decode (tv_RawValue tv) with
  | Some b => Ok (with_blob tv b)
  | None => invalid tv field "invalid base64 encoding"
  end.

Definition ParseValue (rawValue : string) (field : FieldDef) : parsed :=
  let tv := tv_new (fd_Type field) rawValue in
  let normalized := NormalizeType (fd_Type field) in
  if String.eqb rawValue "" then
    if one_of normalized [TypeText; TypeVarchar; TypeChar; TypeString] then parseText tv field
    else if negb (fd_Nullable field) then invalid tv field "field is not nullable"
    else Ok (tv_null (fd_Type field) rawValue)
  else if String.eqb normalized TypeInteger then parseInteger tv field
  else if String.eqb normalized TypeReal then parseReal tv field
  else if String.eqb normalized TypeDecimal then parseDecimal tv field
  else if String.eqb normalized TypeText then parseText tv field
  else if String.eqb normalized TypeBoolean then parseBoolean tv field
  else if String.eqb normalized TypeDate then parseDate tv field
  else if String.eqb normalized TypeDatetime then parseDatetime tv field
  else if String.eqb normalized TypeTimestamp then parseTimestamp tv field
  else if String.eqb normalized TypeBlob then parseBlob tv field
  else invalid tv field ("unsupported type: " +:+ fd_Type field).

(** [FormatValue]; [FormatFloat x (-1)] is the shortest rendering. *)
Definition FormatValue (tv : TypedValue) : string :=
  let normalized := NormalizeType (tv_Type tv) in
  let slot {A} (o : option A) (f : A -> string) : string := match o with Some a => f a | None => tv_RawValue tv end in
  if tv_IsNull tv then ""
  else if String.eqb normalized TypeInteger then slot (tv_IntValue tv) Itoa
  else if one_of normalized [TypeReal; TypeDecimal] then slot (tv_FloatValue tv) (fun x => FormatFloat x (-1))
  else if String.eqb normalized TypeText then slot (tv_StringValue tv) id
  else if String.eqb normalized TypeBoolean then slot (tv_BoolValue tv) (fun b : bool => if b then "1" else "0")
  else if String.eqb normalized TypeDate then slot (tv_TimeValue tv) (fun t => time_Format t date_layout)
  else if one_of normalized [TypeDatetime; TypeTimestamp] then slot (tv_TimeValue tv) (fun t => time_Format t RFC3339)
  else if String.eqb normalized TypeBlob then slot (tv_BlobValue tv) b64_encode
  else tv_RawValue tv.
End Converter.

(** ** validator.go *)

Inductive SchemaError :=
| NoFields
| EmptyFieldName (i : nat)
| DuplicateFieldName (name : string)
| InvalidType (type name : string)
| BadPrecision (name : string)
| BadScale (name : string)
| RowLength (values fields : nat)
| BadValue (e : ValidationError)
| SchemaInvalid (e : SchemaError)
| RowInvalid (row : nat) (e : SchemaError)
| KeyIndexOutOfBounds (row : nat)
| DuplicateKey (row : nat) (key : string)
| FieldNotFound (name : string).

Definition schemaFieldToFieldDef (field : Field) : FieldDef :=
  MkFieldDef (f_Name field) (f_Type field) (f_Subtype field) (f_Length field) (f_Precision field)
    (f_Scale field) (f_Timezone field) (f_Key field) true.

(** The body of the loop of [ValidateSchema] after the name checks. *)
Definition check_attributes (field : Field) : result SchemaError unit :=
  fail_if negb (IsValidType (f_Type field)) with InvalidType (f_Type field) (f_Name field) ;;
  if String.eqb (NormalizeType (f_Type field)) TypeDecimal then
    let precision := if (f_Precision field =? 0)%Z then GetDefaultPrecision else f_Precision field in
    let scale := if (f_Scale field =? 0)%Z then GetDefaultScale else f_Scale field in
    fail_if ((precision <=? 0) || (38 <? precision))%Z with BadPrecision (f_Name field) ;;
    fail_if ((scale <? 0) || (precision <? scale))%Z with BadScale (f_Name field) ;;
    Ok ()
  else Ok ().

Fixpoint validate_fields (i : nat) (seen : gset string) (fields : list Field) : result SchemaError unit :=
  match fields with
  | [] => Ok ()
  | field :: rest =>
      fail_if String.eqb (f_Name field) "" with EmptyFieldName i ;;
      fail_if bool_decide (f_Name field ∈ seen) with DuplicateFieldName (f_Name field) ;;
      _ ← check_attributes field;
      validate_fields (S i) ({[f_Name field]} ∪ seen) rest
  end.

Definition ValidateSchema (schema : Schema) : result SchemaError unit :=
  fail_if Nat.eqb (length (s_Fields schema)) 0 with NoFields ;;
  validate_fields 0 ∅ (s_Fields schema).

Section Validator.
Context {V : GoValues} {C : GoCase}.

Fixpoint validate_values (values : list string) (fields : list Field) : result SchemaError unit :=
  match values, fields with
  | value :: values', field :: fields' =>
      match ParseValue value (schemaFieldToFieldDef field) with
      | Ok _ => validate_values values' fields'
      | Err e => Err (BadValue e)
      end
  | _, _ => Ok ()
  end.

Definition ValidateRow (row : list string) (schema : Schema) : result SchemaError unit :=
  fail_if negb (Nat.eqb (length row) (length (s_Fields schema)))
    with RowLength (length row) (length (s_Fields schema)) ;;
  validate_values row (s_Fields schema).

Fixpoint validate_rows_from (n : nat) (rows : list (list string)) (schema : Schema) : list SchemaError :=
  match rows with
  | [] => []
  | row :: rest =>
      match ValidateRow row schema with
      | Ok _ => validate_rows_from (S n) rest schema
      | Err e => RowInvalid (S n) e :: validate_rows_from (S n) rest schema
      end
  end.
Definition ValidateRows (rows : list (list string)) (schema : Schema) : list SchemaError :=
  validate_rows_from 0 rows schema.

(** [splitRowValues]: [escaped] is never set in the code, so its branch is not taken; a byte is
    appended as [string(b)], the UTF-8 encoding of the byte as a code point. *)
Fixpoint split_row (n : nat) (current s : string) : list string :=
  match n with
  | 0 => [current]
  | S n' =>
      match s with
      | "" => [current]
      | String c s' =>
          if HasPrefix s "&#124;" then split_row n' (current +:+ "|") (drop_bytes 6 s)
          else if Ascii.eqb c PIPE then current :: split_row n' "" s'
          else split_row n' (current +:+ string_of_byte c) s'
      end
  end.
Definition splitRowValues (rowValue : string) : list string := split_row (String.length rowValue) "" rowValue.

Fixpoint validate_data_rows (i : nat) (rows : list Row) (schema : Schema) : result SchemaError unit :=
  match rows with
  | [] => Ok ()
  | row :: rest =>
      match ValidateRow (splitRowValues (r_Value row)) schema with
      | Ok _ => validate_data_rows (S i) rest schema
      | Err e => Err (RowInvalid (S i) e)
      end
  end.

Definition ValidateDataPacket (pkt : DataPacket) : result SchemaError unit :=
  match ValidateSchema (p_Schema pkt) with
  | Err e => Err (SchemaInvalid e)
  | Ok _ => validate_data_rows 0 (d_Rows (p_Data pkt)) (p_Schema pkt)
  end.

(** The indices of the key fields. *)
Fixpoint key_indices (i : nat) (fields : list Field) : list nat :=
  match fields with
  | [] => []
  | f :: rest => if f_Key f then i :: key_indices (S i) rest else key_indices (S i) rest
  end.

(** [keyValue += row[idx] + "|"] over the key columns; [None] where an index is out of bounds. *)
Fixpoint key_value (idxs : list nat) (row : list string) : option string :=
  match idxs with
  | [] => Some ""
  | i :: rest => v ← row !! i; k ← key_value rest row; Some (v +:+ "|" +:+ k)
  end.

Fixpoint check_keys (n : nat) (idxs : list nat) (seen : gset string) (rows : list (list string)) :
  result SchemaError unit :=
  match rows with
  | [] => Ok ()
  | row :: rest =>
      match key_value idxs row with
      | None => Err (KeyIndexOutOfBounds (S n))
      | Some key =>
          fail_if bool_decide (key ∈ seen) with DuplicateKey (S n) key ;;
          check_keys (S n) idxs ({[key]} ∪ seen) rest
      end
  end.

Definition ValidatePrimaryKey (rows : list (list string)) (schema : Schema) : result SchemaError unit :=
  match key_indices 0 (s_Fields schema) with
  | [] => Ok ()
  | idxs => check_keys 0 idxs ∅ rows
  end.

Definition GetKeyFields (schema : Schema) : list Field := List.filter f_Key (s_Fields schema).

Fixpoint find_field (fields : list Field) (name : string) : option Field :=
  match fields with
  | [] => None
  | f :: rest => if EqualFold (f_Name f) name then Some f else find_field rest name
  end.
Definition GetFieldByName (schema : Schema) (name : string) : result SchemaError Field :=
  match find_field (s_Fields schema) name with Some f => Ok f | None => Err (FieldNotFound name) end.
End Validator.

(** ** builder.go *)

(** A builder is its field list. *)
Definition Builder := list Field.
Definition NewBuilder : Builder := [].

(** [packet.Field{Name: name, Type: t, ...}]. *)
Definition mk_field (name type : string) (length precision scale : Z) (key : bool) (timezone : string) : Field :=
  MkField name type length precision scale key timezone "" false false None "".

Definition AddInteger (b : Builder) (name : string) (key : bool) : Builder :=
  b ++ [mk_field name TypeInteger 0 0 0 key ""].
Definition AddReal (b : Builder) (name : string) : Builder := b ++ [mk_field name TypeReal 0 0 0 false ""].
Definition AddDecimal (b : Builder) (name : string) (precision scale : Z) : Builder :=
  b ++ [mk_field name TypeDecimal 0 (if (precision =? 0)%Z then GetDefaultPrecision else precision)
          (if (scale =? 0)%Z then GetDefaultScale else scale) false ""].
Definition AddText (b : Builder) (name : string) (length : Z) : Builder :=
  b ++ [mk_field name TypeText length 0 0 false ""].
Definition AddBoolean (b : Builder) (name : string) : Builder := b ++ [mk_field name TypeBoolean 0 0 0 false ""].
Definition AddDate (b : Builder) (name : string) : Builder := b ++ [mk_field name TypeDate 0 0 0 false ""].
Definition AddDatetime (b : Builder) (name timezone : string) : Builder :=
  b ++ [mk_field name TypeDatetime 0 0 0 false (if String.eqb timezone "" then GetDefaultTimezone else timezone)].
Definition AddTimestamp (b : Builder) (name : string) : Builder :=
  b ++ [mk_field name TypeTimestamp 0 0 0 false ""].
Definition AddBlob (b : Builder) (name : string) : Builder := b ++ [mk_field name TypeBlob 0 0 0 false ""].
Definition AddField (b : Builder) (field : Field) : Builder := b ++ [field].
Definition Build (b : Builder) : Schema := MkSchema b None "" "" "".
Definition Builder_Reset (b : Builder) : Builder := [].
Definition FieldCount (b : Builder) : nat := length b.
Definition HasKeyField (b : Builder) : bool := existsb f_Key b.

(** ** Lemmas *)

Lemma validate_fields_ok (i : nat) (seen : gset string) (fields : list Field) :
  validate_fields i seen fields = Ok () <->
  NoDup (map f_Name fields) /\
  Forall (fun f => f_Name f <> "" /\ (f_Name f ∉ seen) /\ check_attributes f = Ok ()) fields.
Proof.
  revert i seen; induction fields as [|f fields IH]; intros i seen; cbn [validate_fields map].
  { split; [intros _; split; constructor|done]. }
  rewrite NoDup_cons, Forall_cons. unfold check_.
  destruct (String.eqb (f_Name f) "") eqn:E0; go_bool; [split; [done|naive_solver]|].
  case_bool_decide as Hs; [split; [done|naive_solver]|].
  destruct (check_attributes f) as [[]|e] eqn:Ea; cbn [mbind result_bind]; [|split; [done|naive_solver]].
  rewrite IH. setoid_rewrite not_elem_of_union. setoid_rewrite not_elem_of_singleton.
  rewrite !Forall_forall, list_elem_of_fmap. split.
  - intros (Hnd & Hf). split; [split; [|done]|split; [done|]].
    + intros (g & E & Hg). destruct (Hf g Hg) as (_ & (Hne & _) & _). by apply Hne.
    + intros g Hg. naive_solver.
  - intros ((Hni & Hnd) & _ & Hf). split; [done|]. intros g Hg. destruct (Hf g Hg) as (? & ? & ?).
    repeat split; try done. intros E. apply Hni. by exists g.
Qed.

Lemma validate_values_ok `{GoValues} (values : list string) (fields : list Field) :
  length values = length fields ->
  validate_values values fields = Ok () <->
  Forall2 (fun v f => is_ok (ParseValue v (schemaFieldToFieldDef f)) = true) values fields.
Proof.
  revert fields; induction values as [|v values IH]; intros [|f fields] Hl; try done; cbn [validate_values].
  rewrite Forall2_cons. injection Hl as Hl. destruct (ParseValue v _) as [tv|e]; cbn [is_ok]; [|naive_solver].
  rewrite IH by done. naive_solver.
Qed.

(** The values of the key columns. *)
Fixpoint key_tuple (idxs : list nat) (row : list string) : option (list string) :=
  match idxs with
  | [] => Some []
  | i :: rest => v ← row !! i; k ← key_tuple rest row; Some (v :: k)
  end.

(** The key string of a tuple. *)
Fixpoint key_string (vs : list string) : string :=
  match vs with [] => "" | v :: rest => v +:+ "|" +:+ key_string rest end.

Lemma key_value_tuple (idxs : list nat) (row : list string) : key_value idxs row = (key_string <$> key_tuple idxs row).
Proof.
  induction idxs as [|i idxs IH]; [done|]. simpl. destruct (row !! i); [|done]. simpl. rewrite IH.
  by destruct (key_tuple idxs row).
Qed.

Lemma key_tuple_length (idxs : list nat) (row : list string) (vs : list string) :
  key_tuple idxs row = Some vs -> length vs = length idxs.
Proof.
  revert vs; induction idxs as [|i idxs IH]; intros vs; simpl; [by intros [= <-]|].
  destruct (row !! i); [|done]. simpl. destruct (key_tuple idxs row) as [k|] eqn:E; [|done]. simpl.
  intros [= <-]. simpl. by rewrite (IH k).
Qed.

(** Strings free of [c] in front of a [c] are determined. *)
Lemma sep_inj (c : ascii) (a b x y : string) :
  has_byte c a = false -> has_byte c b = false -> a +:+ String c x = b +:+ String c y -> a = b /\ x = y.
Proof.
  revert b; induction a as [|p a IH]; intros [|q b] Ha Hb E; simpl in *; go_bool.
  - by injection E.
  - injection E as -> _. by destruct H.
  - injection E as -> _. by destruct H.
  - injection E as -> E. destruct (IH b H2 H0 E) as [-> ->]. done.
Qed.

Lemma key_string_inj (vs ws : list string) :
  length vs = length ws -> Forall (fun v => has_byte PIPE v = false) vs ->
  Forall (fun v => has_byte PIPE v = false) ws -> key_string vs = key_string ws -> vs = ws.
Proof.
  revert ws; induction vs as [|v vs IH]; intros [|w ws] Hl Hv Hw E; try done.
  apply Forall_cons in Hv as [Hv Hvs]. apply Forall_cons in Hw as [Hw Hws]. simpl in *.
  apply (sep_inj PIPE) in E as [-> E]; [|done..]. f_equal. apply IH; auto.
Qed.

Lemma check_keys_ok (n : nat) (idxs : list nat) (seen : gset string) (rows : list (list string)) :
  check_keys n idxs seen rows = Ok () <->
  exists keys, Forall2 (fun row k => key_value idxs row = Some k) rows keys /\ NoDup keys /\
    Forall (fun k => k ∉ seen) keys.
Proof.
  revert n seen; induction rows as [|row rows IH]; intros n seen; cbn [check_keys].
  { split; [|done]. intros _. exists []. repeat split; constructor. }
  destruct (key_value idxs row) as [k|] eqn:Ek.
  2: { split; [done|]. intros (keys & H & _). inversion H; subst. congruence. }
  unfold check_. case_bool_decide as Hk.
  { split; [done|]. intros (keys & H & _ & Hs). inversion H as [|? k' ? ? E]; subst. apply Forall_cons in Hs as [Hs _].
    congruence. }
  rewrite IH. setoid_rewrite not_elem_of_union. setoid_rewrite not_elem_of_singleton. split.
  - intros (keys & H & Hnd & Hs). exists (k :: keys). rewrite NoDup_cons, Forall_cons. rewrite Forall_forall in Hs.
    repeat split; try done; [by constructor| |].
    + intros Hin. by destruct (Hs k Hin) as [[] _].
    + apply Forall_forall. intros x Hx. by destruct (Hs x Hx).
  - intros (keys & H & Hnd & Hs). inversion H as [|? k' ? keys' E H']; subst. simplify_eq.
    apply NoDup_cons in Hnd as [Hni Hnd]. apply Forall_cons in Hs as [_ Hs]. exists keys'.
    repeat split; try done. rewrite Forall_forall in *. intros x Hx. split; [|by apply Hs].
    intros ->. done.
Qed.

Fixpoint count_byte (c : ascii) (s : string) : nat :=
  match s with "" => 0 | String d s' => (if Ascii.eqb d c then 1 else 0) + count_byte c s' end.

Lemma split_row_length (n : nat) (cur s : string) :
  String.length s <= n -> has_byte "&" s = false -> length (split_row n cur s) = S (count_byte PIPE s).
Proof.
  revert cur s; induction n as [|n IH]; intros cur [|c s] Hl Hb; cbn [split_row]; try done; [simpl in Hl; lia|].
  simpl in Hl, Hb. go_bool.
  assert (HasPrefix (String c s) "&#124;" = false) as ->.
  { cbn [HasPrefix]. apply Ascii.eqb_neq in H. rewrite Ascii.eqb_sym. by rewrite H. }
  cbn [count_byte]. destruct (Ascii.eqb c PIPE); cbn [length]; rewrite IH by (done || lia); lia.
Qed.

Lemma escape_bytes_pipes (v : string) :
  has_byte PIPE v = true -> has_byte "&" v = false ->
  1 <= count_byte PIPE (escape_bytes v) /\ has_byte "&" (escape_bytes v) = false.
Proof.
  assert (H : forall v, has_byte "&" v = false -> has_byte "&" (escape_bytes v) = false /\
    (has_byte PIPE v = true -> 1 <= count_byte PIPE (escape_bytes v))).
  { clear v. induction v as [|c v IH]; [done|]. intros Ha. cbn [has_byte] in *. apply orb_false_iff in Ha as [Hc Ha].
    destruct (IH Ha) as [H1 H2]. cbn [escape_bytes].
    destruct (Ascii.eqb c PIPE) eqn:Ep; [apply Ascii.eqb_eq in Ep as ->; simpl; split; [done|lia]|].
    repeat go_case; simpl; rewrite ?Hc, ?Ep, ?H1; split; try done; intros Hp; specialize (H2 Hp); lia. }
  intros Hp Ha. destruct (H v Ha) as [H1 H2]. auto.
Qed.

(** ** What a successful parse gives *)

Section ParseFacts.
Context {V : GoValues}.

(** The slot that belongs to a type. *)
Definition slot_filled (t : DataType) (tv : TypedValue) : Prop :=
  (t = TypeInteger -> is_Some (tv_IntValue tv)) /\
  (t = TypeReal \/ t = TypeDecimal -> is_Some (tv_FloatValue tv)) /\
  (t = TypeText -> is_Some (tv_StringValue tv)) /\
  (t = TypeBoolean -> is_Some (tv_BoolValue tv)) /\
  (t = TypeDate \/ t = TypeDatetime \/ t = TypeTimestamp -> is_Some (tv_TimeValue tv)) /\
  (t = TypeBlob -> is_Some (tv_BlobValue tv)).

Lemma parseText_ok (tv tv' : TypedValue) (f : FieldDef) :
  parseText tv f = Ok tv' -> tv' = with_string tv (tv_RawValue tv).
Proof. unfold parseText, invalid. destruct (_ && _); [done|]. by intros [= <-]. Qed.

Lemma parseDecimal_ok (tv tv' : TypedValue) (f : FieldDef) :
  parseDecimal tv f = Ok tv' -> exists x, tv' = with_float tv x /\ ParseFloat (tv_RawValue tv) = Some x.
Proof.
  unfold parseDecimal, invalid. destruct (ParseFloat _) as [x|]; [|done].
  set (se := match Split _ _ with _ :: _ :: _ => _ | _ => _ end). destruct se; [done|].
  destruct (Z.ltb _ _); [done|]. intros [= <-]. by exists x.
Qed.

(** A value that is not empty fills the slot of its type. *)
Lemma ParseValue_slot (raw : string) (f : FieldDef) (tv : TypedValue) :
  raw <> "" -> ParseValue raw f = Ok tv -> slot_filled (NormalizeType (fd_Type f)) tv.
Proof.
  intros Hr. unfold ParseValue. apply String.eqb_neq in Hr as ->. unfold invalid.
  generalize (NormalizeType (fd_Type f)). intros t. unfold slot_filled.
  repeat match goal with |- context [if String.eqb t ?k then _ else _] =>
    destruct (String.eqb t k) eqn:?; [|] end; try done; intros H;
  try match type of H with
  | parseInteger _ _ = _ => unfold parseInteger, invalid in H; destruct (ParseInt _); [|done]
  | parseReal _ _ = _ => unfold parseReal, invalid in H; destruct (ParseFloat _); [|done]
  | parseDecimal _ _ = _ => apply parseDecimal_ok in H as (x & -> & _)
  | parseText _ _ = _ => apply parseText_ok in H as ->
  | parseBoolean _ _ = _ => unfold parseBoolean, invalid in H; repeat go_case_in H; try done
  | parseDate _ _ = _ => unfold parseDate, invalid in H; repeat go_case_in H; try done
  | parseDatetime _ _ = _ => unfold parseDatetime, invalid in H; repeat go_case_in H; try done
  | parseTimestamp _ _ = _ => unfold parseTimestamp, parseTime, invalid in H; repeat go_case_in H; try done
  | parseBlob _ _ = _ => unfold parseBlob, invalid in H; destruct (b64_decode _); [|done]
  end; try (injection H as <-);
  repeat match goal with E : String.eqb t _ = true |- _ => apply String.eqb_eq in E as -> end;
  repeat split; intros Ht; try discriminate; try (repeat destruct Ht as [Ht|Ht]; discriminate); by eexists.
Qed.
End ParseFacts.

(** ** A concrete instance, for evaluation

    Floats are decimal integers; a time is the number its digits spell, read only when the text is
    exactly as long as the layout. *)
Fixpoint only_digits (s : string) : string :=
  match s with "" => "" | String c s' => if is_ascii_digit c then String c (only_digits s') else only_digits s' end.

Definition demo_values : GoValues := {|
  float64 := Z;
  ParseFloat s := match ParseInt s with Ok z => Some z | Err _ => None end;
  FormatFloat x _ := Itoa x;
  float_lt := Z.ltb;
  is_NaN _ := false;
  Time := Z;
  time_Parse layout s :=
    if Nat.eqb (String.length layout) (String.length s)
    then match ParseInt (only_digits s) with Ok z => Some z | Err _ => None end else None;
  time_Format t _ := Itoa t;
  time_Before := Z.ltb;
  time_UTC := id;
  time_Midnight t := t;
|}.

#[export] Instance demo_values_laws : GoValuesLaws demo_values.
Proof.
  split; simpl.
  - intros t. apply Z.ltb_irrefl.
  - intros a b c H1 H2. go_bool. apply Z.ltb_lt. lia.
  - intros a b c H. go_bool. destruct (Z.ltb_spec a b); [by left|]. right. apply Z.ltb_lt. lia.
  - intros t. apply Z.ltb_irrefl.
  - intros a b c H1 H2. go_bool. apply Z.ltb_lt. lia.
  - intros a b c _ H. go_bool. destruct (Z.ltb_spec a b); [by left|]. right. apply Z.ltb_lt. lia.
Qed.

(** ** Theorems *)

(** The names of the types there are. *)
Definition type_names : list string :=
  ["INTEGER"; "INT"; "REAL"; "FLOAT"; "DOUBLE"; "DECIMAL"; "TEXT"; "VARCHAR"; "CHAR"; "STRING"; "BOOLEAN"; "BOOL"; "DATE"; "DATETIME";
   "TIMESTAMP"; "BLOB"].
(** A DECIMAL of a field: a precision of 0 stands for 18, a scale of 0 for 2. *)
Definition decimal_fits (precision scale : Z) : Prop :=
  let p := (if decide (precision = 0) then 18 else precision)%Z in let s := (if decide (scale = 0) then 2 else scale)%Z in
  (1 <= p <= 38 /\ 0 <= s <= p)%Z.

Lemma IsValidType_names (t : string) : IsValidType t = true <-> t ∈ type_names.
Proof.
  assert (IsValidType t = existsb (String.eqb t) type_names) as ->.
  { destruct (existsb (String.eqb t) type_names) eqn:E.
    - apply existsb_exists in E as (c & Hc & ->%String.eqb_eq). by repeat destruct Hc as [<-|Hc].
    - cbn [existsb type_names] in E. repeat (apply orb_false_iff in E as [? E]).
      unfold IsValidType, NormalizeType, one_of, TypeInteger, TypeInt, TypeReal, TypeFloat, TypeDouble, TypeDecimal, TypeText, TypeVarchar, TypeChar,
        TypeString, TypeBoolean, TypeBool, TypeDate, TypeDatetime, TypeTimestamp, TypeBlob. cbn [existsb].
      repeat (match goal with H : String.eqb t ?c = false |- context [String.eqb t ?c] => rewrite H end; cbn [orb]). done. }
  rewrite existsb_exists, list_elem_of_In. split; [by intros (c & Hc & ->%String.eqb_eq)|]. intros Ht. exists t. by rewrite String.eqb_refl.
Qed.
Lemma check_attributes_ok (f : Field) :
  check_attributes f = Ok () <-> f_Type f ∈ type_names /\ (f_Type f = "DECIMAL" -> decimal_fits (f_Precision f) (f_Scale f)).
Proof.
  rewrite <- IsValidType_names. unfold check_attributes, check_. destruct (IsValidType (f_Type f)) eqn:E; cbn [negb]; [|naive_solver].
  assert (String.eqb (NormalizeType (f_Type f)) TypeDecimal = bool_decide (f_Type f = "DECIMAL")) as ->.
  { apply IsValidType_names, list_elem_of_In in E. by repeat destruct E as [<-|E]. }
  case_bool_decide; [|naive_solver]. unfold decimal_fits, GetDefaultPrecision, GetDefaultScale.
  assert (forall a b c : Z, (if (a =? b)%Z then c else a) = if decide (a = b) then c else a) as Hd
    by (intros a b c; destruct (Z.eqb_spec a b); by case_decide). rewrite !Hd. clear Hd.
  generalize (if decide (f_Precision f = 0%Z) then 18%Z else f_Precision f), (if decide (f_Scale f = 0%Z) then 2%Z else f_Scale f). intros p s.
  destruct (Z.leb_spec p 0), (Z.ltb_spec 38 p), (Z.ltb_spec s 0), (Z.ltb_spec p s); cbn [orb]; (split; [intros Hx|intros [_ Hx]; specialize (Hx ltac:(done))]);
    try discriminate Hx; try (split; [done|intros _]); done || lia.
Qed.

(** C37. [ValidateSchema] accepts a schema exactly when it has a field, every field has a name, no two
    fields have the same name, every type is one of the sixteen names there are, and every DECIMAL has a
    precision from 1 to 38 and a scale from 0 to the precision, where a precision of 0 stands for 18 and a
    scale of 0 for 2 (so that a precision of 1 with a scale of 0 is refused). *)
Theorem validate_schema_correct (schema : Schema) :
  ValidateSchema schema = Ok () <->
  s_Fields schema <> [] /\ NoDup (map f_Name (s_Fields schema)) /\
  Forall (fun f => f_Name f <> "" /\ f_Type f ∈ type_names /\ (f_Type f = "DECIMAL" -> decimal_fits (f_Precision f) (f_Scale f))) (s_Fields schema).
Proof.
  setoid_rewrite <- check_attributes_ok. unfold ValidateSchema. destruct (s_Fields schema) as [|f fs] eqn:E; [cbn; naive_solver|]. rewrite <- E.
  assert (Nat.eqb (length (s_Fields schema)) 0 = false) as -> by (by rewrite E). cbn [check_].
  rewrite validate_fields_ok. rewrite !Forall_forall. split.
  - intros [Hn Hf]. repeat split; [congruence|done|naive_solver..].
  - intros (_ & Hn & Hf). split; [done|]. intros g Hg. destruct (Hf g Hg). repeat split; [done|set_solver|done].
Qed.

(** [ValidatePrimaryKey] is sound: rows it accepts all have their key columns, and no two rows have
    the same key.  It is complete on keys without a pipe: such rows with pairwise different keys are
    accepted.  (A pipe inside a key value can make two different keys look the same.) *)
Theorem primary_key_correct (rows : list (list string)) (schema : Schema) :
  let idxs := key_indices 0 (s_Fields schema) in
  idxs <> [] ->
  (ValidatePrimaryKey rows schema = Ok () ->
     exists keys, Forall2 (fun row k => key_tuple idxs row = Some k) rows keys /\ NoDup keys) /\
  (forall keys, Forall2 (fun row k => key_tuple idxs row = Some k) rows keys -> NoDup keys ->
     Forall (Forall (fun v => has_byte PIPE v = false)) keys -> ValidatePrimaryKey rows schema = Ok ()).
Proof.
  intros idxs Hne.
  assert (ValidatePrimaryKey rows schema = check_keys 0 idxs ∅ rows) as ->.
  { unfold ValidatePrimaryKey. fold idxs. by destruct idxs. }
  split.
  - intros (ks & Hk & Hnd & _)%check_keys_ok.
    assert (exists keys, Forall2 (fun row k => key_tuple idxs row = Some k) rows keys /\ ks = map key_string keys)
      as (keys & Hkeys & ->).
    { clear Hnd. induction Hk as [|row k rows ks E Hk (keys & IH & ->)]; [by exists []|].
      rewrite key_value_tuple in E. destruct (key_tuple idxs row) as [vs|] eqn:Ev; [|done]. simpl in E.
      exists (vs :: keys). split; [by constructor|]. simpl. congruence. }
    exists keys. split; [done|]. exact (NoDup_fmap_1 key_string keys Hnd).
  - intros keys Hk Hnd Hp. apply check_keys_ok. exists (map key_string keys). split; [|split].
    + clear Hnd Hp. induction Hk as [|row k rows ks E Hk IH]; [constructor|]. constructor; [|done].
      by rewrite key_value_tuple, E.
    + apply NoDup_fmap_2_strong; [|done]. intros x y Hx Hy E. rewrite Forall_forall in Hp.
      assert (forall z, z ∈ keys -> length z = length idxs) as Hlen.
      { intros z Hz. apply list_elem_of_lookup in Hz as [i Hi].
        destruct (Forall2_lookup_r _ _ _ _ _ Hk Hi) as (row & _ & Er). by apply key_tuple_length in Er. }
      apply key_string_inj; [by rewrite !Hlen|by apply Hp|by apply Hp|done].
    + apply Forall_forall. set_solver.
Qed.

Definition key_demo_schema : Schema :=
  Build (AddText (AddInteger (AddInteger NewBuilder "order" true) "line" true) "note" 0).

Lemma primary_key_correct_witness :
  key_indices 0 (s_Fields key_demo_schema) = [0; 1] /\
  ValidatePrimaryKey [["1"; "1"; "x"]; ["1"; "2"; "x"]; ["2"; "1"; "y"]] key_demo_schema = Ok ().
Proof.
  split; [reflexivity|].
  apply (proj2 (primary_key_correct [["1"; "1"; "x"]; ["1"; "2"; "x"]; ["2"; "1"; "y"]] key_demo_schema ltac:(done))
    [["1"; "1"]; ["1"; "2"]; ["2"; "1"]]); [repeat constructor|compute_done|repeat constructor].
Defined.

(** The validator reads rows differently from the parser: a one-column packet whose cell contains a
    pipe, written by the generator and read back correctly by [GetRowValues], is rejected by
    [ValidateDataPacket] with the complaint that the row has more than one value. *)
Theorem validator_rejects_escaped_pipe `{GoValues} (cell : string) (pkt : DataPacket) (field : Field) :
  has_byte PIPE cell = true -> has_byte "&" cell = false ->
  s_Fields (p_Schema pkt) = [field] -> ValidateSchema (p_Schema pkt) = Ok () ->
  d_Rows (p_Data pkt) = d_Rows (RowsToData [[cell]]) ->
  map GetRowValues (d_Rows (p_Data pkt)) = [[cell]] /\
  exists n, 2 <= n /\ ValidateDataPacket pkt = Err (RowInvalid 1 (RowLength n 1)).
Proof.
  intros Hp Ha Hf Hs Hd. assert (d_Rows (RowsToData [[cell]]) = [MkRow (JoinRowEscaped [cell])]) as E by done.
  rewrite Hd, E. split; [cbn [map]; by rewrite (GetRowValues_join [cell])|].
  exists (length (splitRowValues (JoinRowEscaped [cell]))).
  assert (JoinRowEscaped [cell] = escape_bytes cell) as -> by (by rewrite JoinRowEscaped_Join).
  destruct (escape_bytes_pipes cell Hp Ha) as [H1 H2].
  assert (length (splitRowValues (escape_bytes cell)) = S (count_byte PIPE (escape_bytes cell))) as Hl
    by (by apply split_row_length).
  split; [lia|]. unfold ValidateDataPacket. rewrite Hs, Hd, E. cbn [validate_data_rows r_Value].
  assert (JoinRowEscaped [cell] = escape_bytes cell) as -> by (by rewrite JoinRowEscaped_Join).
  unfold ValidateRow. rewrite Hf, Hl. cbn [length]. destruct (count_byte PIPE _); [lia|done].
Qed.

Definition pipe_demo : DataPacket :=
  set_p_Data (RowsToData [["a|b"]]) (MkDataPacket "TDTP" "1.0" "" zero_Header None None None
    (Build (AddText NewBuilder "note" 0)) zero_Data None []).

Lemma validator_rejects_escaped_pipe_witness :
  map GetRowValues (d_Rows (p_Data pipe_demo)) = [["a|b"]] /\
  exists n, 2 <= n /\ @ValidateDataPacket demo_values pipe_demo = Err (RowInvalid 1 (RowLength n 1)).
Proof.
  apply (@validator_rejects_escaped_pipe demo_values "a|b" pipe_demo (mk_field "note" TypeText 0 0 0 false ""));
    reflexivity.
Defined.
