(* ===== verification/QueryFilter.v ===== *)
(** * QueryFilter: comparisons and filtering of rows (pkg/core/tdtql/comparator.go, filter.go)

    A three-way comparison is -1, 0 or 1.  [Like] matches the runes of the value against the runes of
    the pattern; this is what the regular expression the code builds means: the pattern is quoted, [%]
    becomes [.*], [_] becomes [.], the whole value has to match, and [.] does not match a line feed.
    [In] parses its list with [parse_in_list]; [parseInList] is the version with the process-wide cache,
    and [in_list_cache_transparent] relates the two.

    The engine evaluates a group of conditions with short circuits, counting in [stats] the conditions
    that held; an error of one condition is the error of the evaluation. *)

From Stdlib Require Import ZArith Lia Ascii String.
From stdpp Require Import base list strings gmap pretty.
From S2P Require Import Prelude Strconv Encodings PacketTypes SchemaPkg.

(** ** comparator.go *)

(** [strings.Compare]. *)
Definition Compare (a b : string) : Z :=
  match str_compare a b with Lt => -1 | Eq => 0 | Gt => 1 end.

(** [if lt { return -1 }; if gt { return 1 }; return 0]. *)
Definition three_way (lt gt : bool) : Z := if lt then -1 else if gt then 1 else 0.

(** Both slots set, or the comparison of the raw texts. *)
Definition compare_slots {A} (cmp : A -> A -> Z) (a b : option A) (rawRow rawFilter : string) : Z :=
  match a, b with Some x, Some y => cmp x y | _, _ => Compare rawRow rawFilter end.

(** The errors of the engine. *)
Inductive FilterError :=
| ValueError (e : ValidationError)
| UnknownField (name : string)
| RowTooShort
| BadPattern
| UnknownOperator (op : string).

Abbreviation fresult := (result FilterError).

Section Comparator.
Context {V : GoValues}.

Definition compareTyped (normalized : DataType) (rowTV filterTV : TypedValue) (rawRow rawFilter : string) : Z :=
  if String.eqb normalized TypeInteger then
    compare_slots (fun r f => three_way (r <? f)%Z (f <? r)%Z) (tv_IntValue rowTV) (tv_IntValue filterTV) rawRow rawFilter
  else if one_of normalized [TypeReal; TypeDecimal] then
    compare_slots (fun r f => three_way (float_lt r f) (float_lt f r)) (tv_FloatValue rowTV) (tv_FloatValue filterTV)
      rawRow rawFilter
  else if String.eqb normalized TypeText then
    compare_slots Compare (tv_StringValue rowTV) (tv_StringValue filterTV) rawRow rawFilter
  else if String.eqb normalized TypeBoolean then
    compare_slots (fun r f => if eqb r f then 0 else if negb r then -1 else 1)%Z
      (tv_BoolValue rowTV) (tv_BoolValue filterTV) rawRow rawFilter
  else if one_of normalized [TypeDate; TypeDatetime; TypeTimestamp] then
    compare_slots (fun r f => three_way (time_Before r f) (time_Before f r)) (tv_TimeValue rowTV)
      (tv_TimeValue filterTV) rawRow rawFilter
  else Compare rawRow rawFilter.

Definition equalTyped (normalized : DataType) (rowTV filterTV : TypedValue) (rawRow rawFilter : string) : bool :=
  (compareTyped normalized rowTV filterTV rawRow rawFilter =? 0)%Z.

Definition parse_value (raw : string) (field : FieldDef) : fresult TypedValue :=
  match ParseValue raw field with Ok tv => Ok tv | Err e => Err (ValueError e) end.

Definition parseCompare (rowValue filterValue : string) (field : FieldDef) : fresult Z :=
  rowTV ← parse_value rowValue field;
  filterTV ← parse_value filterValue field;
  Ok (compareTyped (NormalizeType (fd_Type field)) rowTV filterTV rowValue filterValue).

Definition Equals (rowValue filterValue : string) (field : FieldDef) : fresult bool :=
  cmp ← parseCompare rowValue filterValue field; Ok (cmp =? 0)%Z.
Definition GreaterThan (rowValue filterValue : string) (field : FieldDef) : fresult bool :=
  cmp ← parseCompare rowValue filterValue field; Ok (0 <? cmp)%Z.
Definition GreaterThanOrEqual (rowValue filterValue : string) (field : FieldDef) : fresult bool :=
  cmp ← parseCompare rowValue filterValue field; Ok (0 <=? cmp)%Z.
Definition LessThan (rowValue filterValue : string) (field : FieldDef) : fresult bool :=
  cmp ← parseCompare rowValue filterValue field; Ok (cmp <? 0)%Z.
Definition LessThanOrEqual (rowValue filterValue : string) (field : FieldDef) : fresult bool :=
  cmp ← parseCompare rowValue filterValue field; Ok (cmp <=? 0)%Z.

(** *** IN lists *)

Definition inCacheKey (field : FieldDef) (filterValue : string) : string :=
  fd_Type field +:+ chr NUL +:+ Itoa (fd_Length field) +:+ chr NUL +:+ Itoa (fd_Precision field)
  +:+ chr NUL +:+ Itoa (fd_Scale field) +:+ chr NUL +:+ fd_Timezone field +:+ chr NUL +:+ filterValue.

(** [inListEntry]: the element and the outcome of parsing it. *)
Record inListEntry := MkInListEntry { ie_raw : string; ie_tv : fresult TypedValue }.

(** What [parseInList] computes when the list is not in the cache. *)
Definition parse_in_list (filterValue : string) (field : FieldDef) : list inListEntry :=
  map (fun p => let raw := TrimSpace p in MkInListEntry raw (parse_value raw field)) (Split filterValue ",").

Definition inListCache := gmap string (list inListEntry).

Definition parseInList (cache : inListCache) (filterValue : string) (field : FieldDef) :
  list inListEntry * inListCache :=
  let key := inCacheKey field filterValue in
  match cache !! key with
  | Some l => (l, cache)
  | None => let l := parse_in_list filterValue field in (l, <[key := l]> cache)
  end.

(** The loop of [In] over the list. *)
Fixpoint in_entries (normalized : DataType) (rowTV : TypedValue) (rowValue : string) (l : list inListEntry) :
  fresult bool :=
  match l with
  | [] => Ok false
  | e :: rest =>
      tv ← ie_tv e;
      if equalTyped normalized rowTV tv rowValue (ie_raw e) then Ok true
      else in_entries normalized rowTV rowValue rest
  end.

Definition cmp_In (rowValue filterValue : string) (field : FieldDef) : fresult bool :=
  rowTV ← parse_value rowValue field;
  in_entries (NormalizeType (fd_Type field)) rowTV rowValue (parse_in_list filterValue field).

(** [In] with the cache passed along. *)
Definition cmp_In_cached (cache : inListCache) (rowValue filterValue : string) (field : FieldDef) :
  fresult bool * inListCache :=
  match parse_value rowValue field with
  | Err e => (Err e, cache)
  | Ok rowTV =>
      let '(l, cache) := parseInList cache filterValue field in
      (in_entries (NormalizeType (fd_Type field)) rowTV rowValue l, cache)
  end.

Definition Between (rowValue lowValue highValue : string) (field : FieldDef) : fresult bool :=
  gte ← GreaterThanOrEqual rowValue lowValue field;
  if negb gte then Ok false else LessThanOrEqual rowValue highValue field.

(** *** LIKE *)

(** [regexp.Compile] refuses a pattern that is not valid UTF-8. *)
Fixpoint valid_utf8_fuel (n : nat) (s : string) : bool :=
  match n, s with
  | S n', String c s' =>
      let '(_, rest) := decode_rune c s' in
      negb ((128 <=? byte_val c)%N && String.eqb rest s') && valid_utf8_fuel n' rest
  | _, _ => true
  end.
Definition valid_utf8 (s : string) : bool := valid_utf8_fuel (String.length s) s.

Fixpoint like_match (p s : list N) : bool :=
  match p with
  | [] => match s with [] => true | _ => false end
  | c :: p' =>
      if (c =? 37)%N then
        (fix star (s : list N) : bool :=
           like_match p' s || match s with [] => false | d :: s' => negb (d =? 10)%N && star s' end) s
      else match s with
           | [] => false
           | d :: s' => (if (c =? 95)%N then negb (d =? 10)%N else (c =? d)%N) && like_match p' s'
           end
  end.

Definition Like (rowValue pattern : string) : fresult bool :=
  if valid_utf8 pattern then Ok (like_match (runes pattern) (runes rowValue)) else Err BadPattern.
End Comparator.

(** ** filter.go *)

Definition nullSentinel : string := chr NUL.

(** A decision on a row that may fail, with the statistics. *)
Definition stats := gmap string Z.
Definition stats_incr (field : string) (st : stats) : stats :=
  <[field := (default 0 (st !! field) + 1)%Z]> st.

Section Engine.
Context {V : GoValues} {C : GoCase}.

(** The field maps of [ApplyFilters]: a later field of the same lower-case name replaces an earlier. *)
Definition filter_FieldDef (sf : Field) : FieldDef :=
  MkFieldDef (f_Name sf) (f_Type sf) "" (f_Length sf) (f_Precision sf) (f_Scale sf) (f_Timezone sf) (f_Key sf) true.

Fixpoint build_fields (i : nat) (fields : list Field) (m : gmap string (nat * FieldDef)) :
  gmap string (nat * FieldDef) :=
  match fields with
  | [] => m
  | sf :: rest => build_fields (S i) rest (<[ToLower (f_Name sf) := (i, filter_FieldDef sf)]> m)
  end.
Definition field_map (schema : Schema) : gmap string (nat * FieldDef) := build_fields 0 (s_Fields schema) ∅.

(** The operators, applied to the row's value. *)
Definition apply_operator (filter : Filter) (rowValue : string) (fieldDef : FieldDef) : fresult bool :=
  let op := fl_Operator filter in
  let v := fl_Value filter in
  if String.eqb op "eq" then Equals rowValue v fieldDef
  else if String.eqb op "ne" then negb <$> Equals rowValue v fieldDef
  else if String.eqb op "gt" then GreaterThan rowValue v fieldDef
  else if String.eqb op "gte" then GreaterThanOrEqual rowValue v fieldDef
  else if String.eqb op "lt" then LessThan rowValue v fieldDef
  else if String.eqb op "lte" then LessThanOrEqual rowValue v fieldDef
  else if String.eqb op "in" then cmp_In rowValue v fieldDef
  else if String.eqb op "not_in" then negb <$> cmp_In rowValue v fieldDef
  else if String.eqb op "between" then Between rowValue v (fl_Value2 filter) fieldDef
  else if String.eqb op "like" then Like rowValue v
  else if String.eqb op "not_like" then negb <$> Like rowValue v
  else if String.eqb op "is_null" then Ok (String.eqb rowValue "" || String.eqb rowValue nullSentinel)
  else if String.eqb op "is_not_null" then Ok (negb (String.eqb rowValue "") && negb (String.eqb rowValue nullSentinel))
  else Err (UnknownOperator op).

Definition evaluateFilter (fields : gmap string (nat * FieldDef)) (row : list string) (filter : Filter) : fresult bool :=
  match fields !! ToLower (fl_Field filter) with
  | None => Err (UnknownField (fl_Field filter))
  | Some (fieldIndex, fieldDef) =>
      match row !! fieldIndex with
      | None => Err RowTooShort
      | Some rowValue => apply_operator filter rowValue fieldDef
      end
  end.
End Engine.

(** The loops of [evaluateLogicalGroup]: over the filters and over the nested groups, for AND and OR. *)
Section Loops.
Context (evf : Filter -> result FilterError bool).

Fixpoint and_filters (fs : list Filter) (st : stats) : result FilterError (bool * stats) :=
  match fs with
  | [] => Ok (true, st)
  | f :: rest =>
      m ← evf f;
      if (m : bool) then and_filters rest (stats_incr (fl_Field f) st) else Ok (false, st)
  end.

Fixpoint or_filters (fs : list Filter) (st : stats) : result FilterError (bool * stats) :=
  match fs with
  | [] => Ok (false, st)
  | f :: rest =>
      m ← evf f;
      if (m : bool) then Ok (true, stats_incr (fl_Field f) st) else or_filters rest st
  end.
End Loops.

Section GroupLoops.
Context (evg : LogicalGroup -> stats -> result FilterError (bool * stats)).

(** Stops at the first group whose outcome is [stop]. *)
Fixpoint group_loop (stop : bool) (gs : list LogicalGroup) (st : stats) : result FilterError (bool * stats) :=
  match gs with
  | [] => Ok (negb stop, st)
  | g :: rest =>
      '(m, st) ← evg g st;
      if eqb m stop then Ok (stop, st) else group_loop stop rest st
  end.
End GroupLoops.

Fixpoint evaluateLogicalGroup (evf : Filter -> result FilterError bool) (group : LogicalGroup) (operator : string)
  (st : stats) : result FilterError (bool * stats) :=
  match group with
  | MkLogicalGroup filters ands ors =>
      let conj := String.eqb operator "AND" in
      '(m, st) ← (if conj then and_filters evf filters st else or_filters evf filters st);
      if eqb m (negb conj) then Ok (m, st)
      else
        '(m, st) ← group_loop (fun g st => evaluateLogicalGroup evf g "AND" st) (negb conj) ands st;
        if eqb m (negb conj) then Ok (m, st)
        else group_loop (fun g st => evaluateLogicalGroup evf g "OR" st) (negb conj) ors st
  end.

Definition evaluateFilters (evf : Filter -> result FilterError bool) (filters : option Filters) (st : stats) :
  result FilterError (bool * stats) :=
  match filters with
  | None => Ok (true, st)
  | Some fs =>
      match fs_And fs, fs_Or fs with
      | Some g, _ => evaluateLogicalGroup evf g "AND" st
      | None, Some g => evaluateLogicalGroup evf g "OR" st
      | None, None => Ok (true, st)
      end
  end.

Section Apply.
Context {V : GoValues} {C : GoCase}.

Fixpoint apply_rows (fields : gmap string (nat * FieldDef)) (filters : option Filters) (rows : list (list string))
  (st : stats) : result FilterError (list (list string) * stats) :=
  match rows with
  | [] => Ok ([], st)
  | row :: rest =>
      '(m, st) ← evaluateFilters (evaluateFilter fields row) filters st;
      '(kept, st) ← apply_rows fields filters rest st;
      Ok (if (m : bool) then row :: kept else kept, st)
  end.

Definition ApplyFilters (filters : option Filters) (rows : list (list string)) (schema : Schema) :
  result FilterError (list (list string) * stats) :=
  apply_rows (field_map schema) filters rows ∅.
End Apply.

(** ** What a group of conditions means *)

Fixpoint group_sem (ev : Filter -> bool) (conj : bool) (g : LogicalGroup) : bool :=
  match g with
  | MkLogicalGroup fs ands ors =>
      if conj then forallb ev fs && (forallb (group_sem ev true) ands && forallb (group_sem ev false) ors)
      else existsb ev fs || (existsb (group_sem ev true) ands || existsb (group_sem ev false) ors)
  end.

Definition filters_sem (ev : Filter -> bool) (filters : option Filters) : bool :=
  match filters with
  | None => true
  | Some fs =>
      match fs_And fs, fs_Or fs with
      | Some g, _ => group_sem ev true g
      | None, Some g => group_sem ev false g
      | None, None => true
      end
  end.

(** The conditions that occur in a group. *)
Fixpoint group_filters (g : LogicalGroup) : list Filter :=
  match g with
  | MkLogicalGroup fs ands ors => fs ++ flat_map group_filters ands ++ flat_map group_filters ors
  end.
Definition all_filters (filters : option Filters) : list Filter :=
  match filters with
  | None => []
  | Some fs => match fs_And fs with Some g => group_filters g | None => [] end
               ++ match fs_Or fs with Some g => group_filters g | None => [] end
  end.

Fixpoint LogicalGroup_rect' (P : LogicalGroup -> Prop)
  (H : forall fs ands ors, Forall P ands -> Forall P ors -> P (MkLogicalGroup fs ands ors)) (g : LogicalGroup) : P g :=
  match g with
  | MkLogicalGroup fs ands ors =>
      let all := fix all (gs : list LogicalGroup) : Forall P gs :=
        match gs with
        | [] => Forall_nil_2 P
        | g :: rest => Forall_cons_2 P g rest (LogicalGroup_rect' P H g) (all rest)
        end in
      H fs ands ors (all ands) (all ors)
  end.

Section Semantics.
Context (evf : Filter -> result FilterError bool) (ev : Filter -> bool).

Lemma and_filters_sem (fs : list Filter) (st : stats) :
  (forall f, f ∈ fs -> evf f = Ok (ev f)) -> exists st', and_filters evf fs st = Ok (forallb ev fs, st').
Proof.
  revert st; induction fs as [|f fs IH]; intros st H; [by eexists|]. cbn [and_filters forallb].
  rewrite (H f) by constructor. cbn [mbind result_bind]. destruct (ev f); simpl; [|by eexists].
  apply IH. intros g Hg. apply H. by constructor.
Qed.

Lemma or_filters_sem (fs : list Filter) (st : stats) :
  (forall f, f ∈ fs -> evf f = Ok (ev f)) -> exists st', or_filters evf fs st = Ok (existsb ev fs, st').
Proof.
  revert st; induction fs as [|f fs IH]; intros st H; [by eexists|]. cbn [or_filters existsb].
  rewrite (H f) by constructor. cbn [mbind result_bind]. destruct (ev f); simpl; [by eexists|].
  apply IH. intros g Hg. apply H. by constructor.
Qed.

Lemma group_loop_sem (evg : LogicalGroup -> stats -> result FilterError (bool * stats)) (sem : LogicalGroup -> bool)
  (stop : bool) (gs : list LogicalGroup) (st : stats) :
  Forall (fun g => forall st, exists st', evg g st = Ok (sem g, st')) gs ->
  exists st', group_loop evg stop gs st = Ok (if stop then existsb sem gs else forallb sem gs, st').
Proof.
  intros H. revert st; induction H as [|g gs Hg _ IH]; intros st; cbn [group_loop existsb forallb].
  { exists st. by destruct stop. }
  destruct (Hg st) as [st1 ->]. cbn [mbind result_bind].
  destruct (sem g), stop; cbn [eqb]; try (by eexists); apply IH.
Qed.

Lemma evaluateLogicalGroup_sem (g : LogicalGroup) :
  (forall f, f ∈ group_filters g -> evf f = Ok (ev f)) ->
  forall op st, exists st', evaluateLogicalGroup evf g op st = Ok (group_sem ev (String.eqb op "AND") g, st').
Proof.
  induction g as [fs ands ors IHa IHo] using LogicalGroup_rect'. intros H op st. cbn [group_filters] in H.
  cbn [evaluateLogicalGroup group_sem]. set (conj := String.eqb op "AND").
  assert (exists st', (if conj then and_filters evf fs st else or_filters evf fs st)
    = Ok (if conj then forallb ev fs else existsb ev fs, st')) as [st1 ->].
  { destruct conj; [apply and_filters_sem|apply or_filters_sem]; intros f Hf; apply H, elem_of_app; by left. }
  cbn [mbind result_bind].
  assert (Forall (fun g => forall st, exists st', evaluateLogicalGroup evf g "AND" st = Ok (group_sem ev true g, st')) ands)
    as Ha.
  { rewrite Forall_forall in IHa |- *. intros g Hg st'. destruct (IHa g Hg) with (op := "AND") (st := st') as [s E];
      [|by exists s]. intros f Hf. apply H, elem_of_app. right. apply elem_of_app. left.
    apply list_elem_of_In, in_flat_map. exists g. by rewrite <- !list_elem_of_In. }
  assert (Forall (fun g => forall st, exists st', evaluateLogicalGroup evf g "OR" st = Ok (group_sem ev false g, st')) ors)
    as Ho.
  { rewrite Forall_forall in IHo |- *. intros g Hg st'. destruct (IHo g Hg) with (op := "OR") (st := st') as [s E];
      [|by exists s]. intros f Hf. apply H, elem_of_app. right. apply elem_of_app. right.
    apply list_elem_of_In, in_flat_map. exists g. by rewrite <- !list_elem_of_In. }
  pose proof (fun st => group_loop_sem _ _ (negb conj) _ st Ha) as La.
  pose proof (fun st => group_loop_sem _ _ (negb conj) _ st Ho) as Lo.
  destruct conj; cbn [negb] in *.
  - destruct (forallb ev fs); cbn [eqb andb]; [|by eexists]. destruct (La st1) as [st2 ->]. cbn [mbind result_bind].
    destruct (forallb _ ands); cbn [eqb andb]; [apply Lo|by eexists].
  - destruct (existsb ev fs); cbn [eqb orb]; [by eexists|]. destruct (La st1) as [st2 ->]. cbn [mbind result_bind].
    destruct (existsb _ ands); cbn [eqb orb]; [by eexists|apply Lo].
Qed.

Lemma evaluateFilters_sem (filters : option Filters) (st : stats) :
  (forall f, f ∈ all_filters filters -> evf f = Ok (ev f)) ->
  exists st', evaluateFilters evf filters st = Ok (filters_sem ev filters, st').
Proof.
  unfold evaluateFilters, filters_sem, all_filters. destruct filters as [[[g|] [g'|]]|]; simpl; intros H;
    try (by eexists).
  - apply (evaluateLogicalGroup_sem g) with (op := "AND"). intros f Hf. apply H, elem_of_app. by left.
  - apply (evaluateLogicalGroup_sem g) with (op := "AND"). intros f Hf. apply H, elem_of_app. by left.
  - apply (evaluateLogicalGroup_sem g') with (op := "OR"). done.
Qed.
End Semantics.

(** ** Filtering never fails on well-typed queries and rows *)

Section WellTyped.
Context {V : GoValues} {C : GoCase}.

Definition parses_as (fd : FieldDef) (v : string) : bool := is_ok (ParseValue v fd).

(** The condition's operator is known and its values are values of the field's type. *)
Definition condition_ok (f : Filter) (fd : FieldDef) : bool :=
  let op := fl_Operator f in
  if one_of op ["eq"; "ne"; "gt"; "gte"; "lt"; "lte"] then parses_as fd (fl_Value f)
  else if one_of op ["in"; "not_in"] then forallb (fun p => parses_as fd (TrimSpace p)) (Split (fl_Value f) ",")
  else if String.eqb op "between" then parses_as fd (fl_Value f) && parses_as fd (fl_Value2 f)
  else if one_of op ["like"; "not_like"] then valid_utf8 (fl_Value f)
  else one_of op ["is_null"; "is_not_null"].

Definition filter_ok (fields : gmap string (nat * FieldDef)) (f : Filter) : Prop :=
  exists i fd, fields !! ToLower (fl_Field f) = Some (i, fd) /\ condition_ok f fd = true.

(** The row has a value of the right type in every column. *)
Definition row_ok (fields : gmap string (nat * FieldDef)) (row : list string) : Prop :=
  forall key i fd, fields !! key = Some (i, fd) -> exists v, row !! i = Some v /\ parses_as fd v = true.

Definition row_okb (fields : gmap string (nat * FieldDef)) (row : list string) : bool :=
  forallb (fun kv : string * (nat * FieldDef) =>
    match row !! kv.2.1 with Some v => parses_as kv.2.2 v | None => false end) (map_to_list fields).

Lemma row_okb_ok (fields : gmap string (nat * FieldDef)) (row : list string) :
  row_okb fields row = true -> row_ok fields row.
Proof.
  unfold row_okb. rewrite forallb_forall. intros H key i fd E. apply elem_of_map_to_list, list_elem_of_In in E.
  specialize (H _ E). cbn in H. destruct (row !! i) as [v|]; [by exists v|done].
Qed.

Lemma rows_okb_ok (fields : gmap string (nat * FieldDef)) (rows : list (list string)) :
  forallb (row_okb fields) rows = true -> forall row, row ∈ rows -> row_ok fields row.
Proof. rewrite forallb_forall. intros H row Hr%list_elem_of_In. by apply row_okb_ok, H. Qed.

Definition filter_okb (fields : gmap string (nat * FieldDef)) (f : Filter) : bool :=
  match fields !! ToLower (fl_Field f) with Some (_, fd) => condition_ok f fd | None => false end.

Lemma filters_okb_ok (fields : gmap string (nat * FieldDef)) (fs : list Filter) :
  forallb (filter_okb fields) fs = true -> forall f, f ∈ fs -> filter_ok fields f.
Proof.
  rewrite forallb_forall. intros H f Hf%list_elem_of_In. specialize (H f Hf). unfold filter_okb, filter_ok in *.
  destruct (fields !! _) as [[i fd]|]; [|done]. by exists i, fd.
Qed.

(** Whether a condition holds of a row. *)
Definition holds (schema : Schema) (row : list string) (f : Filter) : bool :=
  match evaluateFilter (field_map schema) row f with Ok b => b | Err _ => false end.

Lemma parse_value_ok (v : string) (fd : FieldDef) : parses_as fd v = true -> exists tv, parse_value v fd = Ok tv.
Proof. unfold parses_as, parse_value. destruct (ParseValue v fd) as [tv|]; [by exists tv|done]. Qed.

Lemma parseCompare_ok (v w : string) (fd : FieldDef) :
  parses_as fd v = true -> parses_as fd w = true -> exists z, parseCompare v w fd = Ok z.
Proof.
  intros Hv Hw. unfold parseCompare. destruct (parse_value_ok v fd Hv) as [tv ->].
  destruct (parse_value_ok w fd Hw) as [tw ->]. by eexists.
Qed.

Lemma in_entries_ok (t : DataType) (tv : TypedValue) (v : string) (l : list string) (fd : FieldDef) :
  forallb (fun p => parses_as fd (TrimSpace p)) l = true ->
  exists b, in_entries t tv v (map (fun p => MkInListEntry (TrimSpace p) (parse_value (TrimSpace p) fd)) l) = Ok b.
Proof.
  induction l as [|p l IH]; intros H; [by eexists|]. cbn [forallb] in H. apply andb_true_iff in H as [Hp H].
  cbn [map in_entries ie_tv ie_raw]. destruct (parse_value_ok _ fd Hp) as [tp ->]. cbn [mbind result_bind].
  destruct (equalTyped _ _ _ _ _); [by eexists|by apply IH].
Qed.

Lemma cmp_In_ok (v l : string) (fd : FieldDef) :
  parses_as fd v = true -> forallb (fun p => parses_as fd (TrimSpace p)) (Split l ",") = true ->
  exists b, cmp_In v l fd = Ok b.
Proof.
  intros Hv Hl. unfold cmp_In. destruct (parse_value_ok v fd Hv) as [tv ->]. cbn [mbind result_bind].
  by apply in_entries_ok.
Qed.

Lemma Between_ok (v lo hi : string) (fd : FieldDef) :
  parses_as fd v = true -> parses_as fd lo = true -> parses_as fd hi = true -> exists b, Between v lo hi fd = Ok b.
Proof.
  intros Hv Hl Hh. unfold Between, GreaterThanOrEqual, LessThanOrEqual.
  destruct (parseCompare_ok v lo fd Hv Hl) as [z ->]. cbn [mbind result_bind]. destruct (negb _); [by eexists|].
  destruct (parseCompare_ok v hi fd Hv Hh) as [z' ->]. by eexists.
Qed.

Lemma apply_operator_ok (f : Filter) (v : string) (fd : FieldDef) :
  parses_as fd v = true -> condition_ok f fd = true -> exists b, apply_operator f v fd = Ok b.
Proof.
  intros Hv. unfold condition_ok, apply_operator, one_of. cbn [existsb].
  unfold Equals, GreaterThan, GreaterThanOrEqual, LessThan, LessThanOrEqual.
  assert (forall w (k : Z -> bool), parses_as fd w = true ->
    exists b, (parseCompare v w fd ≫= fun z => Ok (k z)) = (Ok b : result FilterError bool)) as Hc.
  { intros w k Hw. destruct (parseCompare_ok v w fd Hv Hw) as [z ->]. by eexists. }
  repeat match goal with |- context [if String.eqb ?o ?k then _ else _] =>
    destruct (String.eqb o k) eqn:?; cbn [orb] end; intros H;
    rewrite ?orb_false_r in H; try done; try (by eexists); try (by apply Hc).
  all: try (destruct (Hc (fl_Value f) (fun z => (z =? 0)%Z) H) as [b ->]; by eexists).
  all: try (by apply cmp_In_ok).
  all: try (destruct (cmp_In_ok v (fl_Value f) fd Hv H) as [b ->]; by eexists).
  all: try (apply andb_true_iff in H as [? ?]; by apply Between_ok).
  all: unfold Like; rewrite H; by eexists.
Qed.
End WellTyped.

Lemma apply_rows_sem {V : GoValues} {C : GoCase} (schema : Schema) (filters : option Filters)
  (rows : list (list string)) (st : stats) :
  (forall row f, row ∈ rows -> f ∈ all_filters filters ->
     evaluateFilter (field_map schema) row f = Ok (holds schema row f)) ->
  exists st', apply_rows (field_map schema) filters rows st
    = Ok (List.filter (fun row => filters_sem (holds schema row) filters) rows, st').
Proof.
  revert st; induction rows as [|row rows IH]; intros st H; [by eexists|]. cbn [apply_rows List.filter].
  destruct (evaluateFilters_sem (evaluateFilter (field_map schema) row) (holds schema row) filters st) as [st1 ->].
  { intros f Hf. apply H; [constructor|done]. }
  cbn [mbind result_bind]. destruct (IH st1) as [st2 ->].
  { intros row' f Hr Hf. apply H; [by constructor|done]. }
  cbn [mbind result_bind]. by eexists.
Qed.

(** ** The cache of IN lists *)

Section Cache.
Context {V : GoValues}.

(** The value, without saying which error. *)
Definition outcome {E A} (r : result E A) : option A := match r with Ok a => Some a | Err _ => None end.

(** Fields the engine asks about: built by [filter_FieldDef], with names free of NUL bytes. *)
Definition plain_field (fd : FieldDef) : Prop :=
  fd_Subtype fd = "" /\ fd_Nullable fd = true /\ has_byte NUL (fd_Type fd) = false /\
  has_byte NUL (fd_Timezone fd) = false.

(** Same type and attributes. *)
Definition same_type (a b : FieldDef) : Prop :=
  fd_Type a = fd_Type b /\ fd_Length a = fd_Length b /\ fd_Precision a = fd_Precision b /\ fd_Scale a = fd_Scale b /\
  fd_Subtype a = fd_Subtype b /\ fd_Nullable a = fd_Nullable b.

Lemma ParseValue_same_type (raw : string) (a b : FieldDef) :
  same_type a b -> outcome (ParseValue raw a) = outcome (ParseValue raw b).
Proof.
  intros (Ht & Hl & Hp & Hs & Hst & Hn).
  assert (forall tv, outcome (parseInteger tv a) = outcome (parseInteger tv b)) as H1
    by (intros; unfold parseInteger; by destruct (ParseInt _)).
  assert (forall tv, outcome (parseReal tv a) = outcome (parseReal tv b)) as H2
    by (intros; unfold parseReal; by destruct (ParseFloat _)).
  assert (forall tv, outcome (parseDecimal tv a) = outcome (parseDecimal tv b)) as H3.
  { intros tv. unfold parseDecimal. rewrite Hp, Hs. destruct (ParseFloat _); [|done].
    set (se := match Split _ _ with _ :: _ :: _ => _ | _ => _ end). destruct se; [done|]. by destruct (Z.ltb _ _). }
  assert (forall tv, outcome (parseText tv a) = outcome (parseText tv b)) as H4
    by (intros; unfold parseText; rewrite Hl; by destruct (_ && _)).
  assert (forall tv, outcome (parseBoolean tv a) = outcome (parseBoolean tv b)) as H5
    by (intros; unfold parseBoolean; repeat go_case; done).
  assert (forall tv, outcome (parseDate tv a) = outcome (parseDate tv b)) as H6
    by (intros; unfold parseDate; repeat go_case; done).
  assert (forall tv, outcome (parseDatetime tv a) = outcome (parseDatetime tv b)) as H7
    by (intros; unfold parseDatetime; repeat go_case; done).
  assert (forall tv, outcome (parseTimestamp tv a) = outcome (parseTimestamp tv b)) as H8
    by (intros; unfold parseTimestamp, parseTime; rewrite Hst; repeat go_case; done).
  assert (forall tv, outcome (parseBlob tv a) = outcome (parseBlob tv b)) as H9
    by (intros; unfold parseBlob; repeat go_case; done).
  unfold ParseValue. rewrite Ht, Hn.
  repeat match goal with |- context [if ?c then _ else _] => destruct c; [auto; try done|auto] end.
Qed.

Lemma inCacheKey_inj (a b : FieldDef) (v w : string) :
  plain_field a -> plain_field b -> inCacheKey a v = inCacheKey b w -> same_type a b /\ v = w.
Proof.
  intros (Sa & Na & Ta & Za) (Sb & Nb & Tb & Zb) E. unfold inCacheKey in E.
  assert (forall z : Z, has_byte NUL (Itoa z) = false) as Hz.
  { intros z. unfold Itoa. destruct z; [done|by apply pretty_N_bytes|]. exact (pretty_N_bytes NUL (N.pos p) eq_refl). }
  change (chr NUL) with (String NUL "") in E. cbn [String.append] in E.
  apply sep_inj in E as [Et E]; [|done..]. apply sep_inj in E as [El E]; [|done..].
  apply sep_inj in E as [Ep E]; [|done..]. apply sep_inj in E as [Es E]; [|done..].
  apply sep_inj in E as [_ E]; [|done..]. split; [|done].
  apply (inj pretty) in El, Ep, Es. repeat split; congruence.
Qed.

(** What the program has put into the cache. *)
Definition cache_ok (cache : inListCache) : Prop :=
  forall key l, cache !! key = Some l ->
    exists fd v, plain_field fd /\ key = inCacheKey fd v /\ l = parse_in_list v fd.
End Cache.

Lemma in_entries_outcome {V : GoValues} (t : DataType) (tv : TypedValue) (v : string) (l1 l2 : list inListEntry) :
  Forall2 (fun a b => ie_raw a = ie_raw b /\ outcome (ie_tv a) = outcome (ie_tv b)) l1 l2 ->
  outcome (in_entries t tv v l1) = outcome (in_entries t tv v l2).
Proof.
  induction 1 as [|a b l1 l2 [Hr Ho] _ IH]; [done|]. cbn [in_entries].
  destruct (ie_tv a) as [x|e], (ie_tv b) as [y|e']; simplify_eq/=; try done. rewrite Hr.
  by destruct (equalTyped _ _ _ _ _).
Qed.

Lemma parse_in_list_same_type {V : GoValues} (v : string) (a b : FieldDef) :
  same_type a b ->
  Forall2 (fun x y => ie_raw x = ie_raw y /\ outcome (ie_tv x) = outcome (ie_tv y)) (parse_in_list v a) (parse_in_list v b).
Proof.
  intros H. unfold parse_in_list. apply Forall2_map_same. intros p _. split; [done|]. cbn [ie_tv].
  pose proof (ParseValue_same_type (TrimSpace p) a b H) as E. unfold parse_value.
  by destruct (ParseValue _ a), (ParseValue _ b); simplify_eq/=.
Qed.

(** *** LIKE as a relation *)

Inductive like_rel : list N -> list N -> Prop :=
| like_nil : like_rel [] []
| like_percent p s1 s2 : Forall (fun d => d <> 10%N) s1 -> like_rel p s2 -> like_rel (37%N :: p) (s1 ++ s2)
| like_underscore p d s : d <> 10%N -> like_rel p s -> like_rel (95%N :: p) (d :: s)
| like_literal p c s : c <> 37%N -> c <> 95%N -> like_rel p s -> like_rel (c :: p) (c :: s).

Lemma like_star (P : list N -> bool) (s : list N) :
  (fix star (s : list N) : bool :=
     P s || match s with [] => false | d :: s' => negb (d =? 10)%N && star s' end) s = true <->
  exists s1 s2, s = s1 ++ s2 /\ Forall (fun d => d <> 10%N) s1 /\ P s2 = true.
Proof.
  induction s as [|d s IH].
  - rewrite orb_false_r. split.
    + intros H. by exists [], [].
    + intros (s1 & s2 & E & _ & H). symmetry in E. by apply app_eq_nil in E as [-> ->].
  - rewrite orb_true_iff, andb_true_iff, IH, negb_true_iff, N.eqb_neq. split.
    + intros [H|(Hd & s1 & s2 & -> & H1 & H2)]; [by exists [], (d :: s)|].
      exists (d :: s1), s2. repeat split; [|done]. by constructor.
    + intros ([|x s1] & s2 & E & H1 & H2); simpl in E; subst; [by left|]. injection E as <- ->.
      apply Forall_cons in H1 as [Hd H1]. right. split; [done|]. by exists s1, s2.
Qed.

Lemma like_match_rel (p s : list N) : like_match p s = true <-> like_rel p s.
Proof.
  revert s; induction p as [|c p IH]; intros s; cbn [like_match].
  - destruct s; split; try done; [intros _; constructor|by inversion 1].
  - destruct (N.eqb_spec c 37) as [->|Hc].
    + rewrite like_star. split.
      * intros (s1 & s2 & -> & H1 & H2). constructor; [done|]. by apply IH.
      * inversion 1; subst; [|done]. eexists _, _. repeat split; [done|]. by apply IH.
    + destruct s as [|d s]; [split; [done|by inversion 1]|]. rewrite andb_true_iff, IH.
      destruct (N.eqb_spec c 95) as [->|Hc'].
      * rewrite negb_true_iff, N.eqb_neq. split; [intros [? ?]; by constructor|]. inversion 1; subst; done.
      * rewrite N.eqb_eq. split; [intros [-> ?]; by constructor|]. inversion 1; subst; done.
Qed.

Lemma ParseValue_timestamp {V : GoValues} (raw : string) (f : FieldDef) :
  raw <> "" -> fd_Type f = TypeTimestamp -> ParseValue raw f = parseTimestamp (tv_new TypeTimestamp raw) f.
Proof. intros Hr Ht. unfold ParseValue. apply String.eqb_neq in Hr as ->. by rewrite Ht. Qed.

(** ** Theorems *)

(** Filtering is exact: on rows whose values have the types of the schema, and conditions on known
    fields with known operators and values of the right type, [ApplyFilters] succeeds and returns exactly
    the rows, in order, that satisfy the AND/OR tree of conditions; the short circuits do not change the
    outcome. *)
Theorem apply_filters_correct {V : GoValues} {C : GoCase} (schema : Schema) (filters : option Filters)
  (rows : list (list string)) :
  (forall f, f ∈ all_filters filters -> filter_ok (field_map schema) f) ->
  (forall row, row ∈ rows -> row_ok (field_map schema) row) ->
  exists st, ApplyFilters filters rows schema
    = Ok (List.filter (fun row => filters_sem (holds schema row) filters) rows, st).
Proof.
  intros Hf Hr. apply apply_rows_sem. intros row f Hrow Hfil. unfold holds, evaluateFilter.
  destruct (Hf f Hfil) as (i & fd & Ef & Hc). destruct (Hr row Hrow _ _ _ Ef) as (v & Ev & Hv). rewrite Ef, Ev.
  by destruct (apply_operator_ok f v fd Hv Hc) as [b ->].
Qed.

Definition filter_demo_schema : Schema := Build (AddText (AddInteger NewBuilder "Id" true) "City" 0).
Definition filter_demo : option Filters :=
  Some (MkFilters (Some (MkLogicalGroup [MkFilter "id" "gt" "9" ""] []
    [MkLogicalGroup [MkFilter "CITY" "like" "K%" ""; MkFilter "city" "in" "Oslo, Rome" ""] [] []])) None).
Definition filter_demo_rows : list (list string) := [["10"; "Kyiv"]; ["9"; "Kyiv"]; ["100"; "Rome"]; ["11"; "Bern"]].

Lemma apply_filters_correct_witness :
  exists st, @ApplyFilters demo_values ascii_case filter_demo filter_demo_rows filter_demo_schema
    = Ok ([["10"; "Kyiv"]; ["100"; "Rome"]], st).
Proof.
  apply (@apply_filters_correct demo_values ascii_case filter_demo_schema filter_demo filter_demo_rows).
  - apply filters_okb_ok. vm_compute. reflexivity.
  - apply rows_okb_ok. vm_compute. reflexivity.
Defined.

(** The cache of parsed IN lists changes nothing: from a cache the program itself has filled, the
    cached lookup gives the same outcome as parsing the list anew, for every field and list, and leaves a
    cache of the same kind.  (Two fields of the same type and attributes share an entry; an error then
    names the field that was asked first.) *)
Theorem in_list_cache_transparent {V : GoValues} (cache : inListCache) (rowValue list : string) (fd : FieldDef) :
  cache_ok cache -> plain_field fd ->
  outcome (fst (cmp_In_cached cache rowValue list fd)) = outcome (cmp_In rowValue list fd) /\
  cache_ok (snd (cmp_In_cached cache rowValue list fd)).
Proof.
  intros Hc Hp. unfold cmp_In_cached, cmp_In. destruct (parse_value rowValue fd) as [tv|e]; [|done].
  cbn [mbind result_bind]. unfold parseInList. destruct (cache !! inCacheKey fd list) as [l|] eqn:E; cbn [fst snd].
  - split; [|done]. destruct (Hc _ _ E) as (fd' & v & Hp' & Ek & ->).
    apply inCacheKey_inj in Ek as [Ht ->]; [|done..]. apply in_entries_outcome, parse_in_list_same_type.
    destruct Ht as (? & ? & ? & ? & ? & ?). repeat split; congruence.
  - split; [done|]. intros key l Hl. unfold inListCache in *. apply lookup_insert_Some in Hl as [[<- <-]|[_ Hl]]; [|by apply Hc].
    by exists fd, list.
Qed.

Lemma in_list_cache_transparent_witness :
  let fd := filter_FieldDef (mk_field "Id" TypeInteger 0 0 0 true "") in
  outcome (fst (@cmp_In_cached demo_values ∅ "7" "5, 6,7" fd)) = Some true /\
  cache_ok (snd (@cmp_In_cached demo_values ∅ "7" "5, 6,7" fd)).
Proof.
  intros fd. apply (@in_list_cache_transparent demo_values ∅ "7" "5, 6,7" fd); [|by repeat split].
  intros key l H. unfold inListCache in H. by rewrite lookup_empty in H.
Defined.

(** LIKE means what its pattern says: for a valid pattern, [Like] is true exactly when the value's
    characters match with [%] standing for any run of characters and [_] for one character, line feeds
    excepted, and every other character for itself. *)
Theorem like_correct (value pattern : string) :
  valid_utf8 pattern = true ->
  exists b, Like value pattern = Ok b /\ (b = true <-> like_rel (runes pattern) (runes value)).
Proof. intros H. unfold Like. rewrite H. eexists. split; [done|]. apply like_match_rel. Qed.

Lemma like_correct_witness :
  exists b, Like "Kyiv" "K_i%" = Ok b /\ (b = true <-> like_rel (runes "K_i%") (runes "Kyiv")).
Proof. apply like_correct. vm_compute. reflexivity. Defined.

(** Time-of-day columns cannot be filtered: a TIMESTAMP column with subtype [time] holds values such
    as [08:00:00] that validate against the schema, but the engine drops the subtype from the field it
    compares with, so every comparison on such a column fails. *)
Theorem time_column_filter_fails {V : GoValues} (field : Field) (value : string) (f : Filter) :
  f_Type field = TypeTimestamp -> f_Subtype field = "time" -> value <> "" ->
  is_Some (first_layout time_formats value) -> first_layout datetimeFormats value = None ->
  one_of (fl_Operator f) ["eq"; "ne"; "gt"; "gte"; "lt"; "lte"; "in"; "not_in"; "between"] = true ->
  is_ok (ParseValue value (schemaFieldToFieldDef field)) = true /\
  exists e, apply_operator f value (filter_FieldDef field) = Err (ValueError e).
Proof.
  intros Ht Hs Hv [t Hl] Hn Hop.
  assert (exists e, parse_value value (filter_FieldDef field) = Err (ValueError e)) as [e He].
  { eexists. unfold parse_value. rewrite ParseValue_timestamp by done. unfold parseTimestamp.
    change (fd_Subtype (filter_FieldDef field)) with "". change (String.eqb "" "time") with false. cbn iota.
    cbn [tv_new tv_RawValue]. by rewrite Hn. }
  split.
  - rewrite ParseValue_timestamp by done. unfold parseTimestamp.
    change (fd_Subtype (schemaFieldToFieldDef field)) with (f_Subtype field). rewrite Hs.
    change (String.eqb "time" "time") with true. cbn iota. unfold parseTime. cbn [tv_new tv_RawValue]. by rewrite Hl.
  - exists e. unfold apply_operator, one_of in *. cbn [existsb] in Hop.
    unfold Equals, GreaterThan, LessThan, Between, GreaterThanOrEqual, LessThanOrEqual, parseCompare, cmp_In.
    rewrite He. cbn [mbind result_bind fmap result_fmap].
    repeat (destruct (String.eqb (fl_Operator f) _); cbn [orb] in Hop; [done|]). done.
Qed.

Lemma time_column_filter_fails_witness :
  let field := MkField "opens" TypeTimestamp 0 0 0 false "" "time" false false None "" in
  is_ok (@ParseValue demo_values "08:00:00" (schemaFieldToFieldDef field)) = true /\
  exists e, @apply_operator demo_values (MkFilter "opens" "gt" "07:00:00" "") "08:00:00" (filter_FieldDef field)
    = Err (ValueError e).
Proof.
  intros field. apply (@time_column_filter_fails demo_values field "08:00:00"); try reflexivity; [done|].
  vm_compute. by eexists.
Defined.
