(* ===== verification/TdtqlGenerator.v ===== *)
(** * TdtqlGenerator: from parsed SQL to a TDTQL query (pkg/core/tdtql/generator.go, translator.go)

    The generator turns the expression tree of a WHERE clause into the two-level AND/OR groups of a
    [Filters] element.  [expr_sem] is the expression as a Boolean formula over its filters;
    [alternating] describes the expressions the groups can represent, and [generateFilters_sem]
    shows that for them the generated groups are the same formula ([QuerySemantics] adds what the conditions
    mean).  [nested_and_becomes_or] shows what happens outside that class. *)

From Stdlib Require Import ZArith Lia Btauto Ascii String.
From stdpp Require Import base list strings.
From S2P Require Import Prelude Strconv PacketTypes Lexer SqlParser SchemaPkg QueryFilter.

(** ** generator.go *)

Inductive GenError :=
| NotBetweenUnsupported
| CannotConvert (e : Expression).

Definition isAndExpression (e : Expression) : bool :=
  match e with BinaryExpression _ op _ => String.eqb op "AND" | _ => false end.
Definition isOrExpression (e : Expression) : bool :=
  match e with BinaryExpression _ op _ => String.eqb op "OR" | _ => false end.
Definition isOrGroup (e : Expression) : bool := isOrExpression e.

Definition expressionToFilter (e : Expression) : result GenError Filter :=
  match e with
  | ComparisonExpression f op v => Ok (MkFilter f op v "")
  | InExpression f vs not => Ok (MkFilter f (if not then "not_in" else "in") (Join vs ",") "")
  | BetweenExpression f lo hi not =>
      fail_if not with NotBetweenUnsupported ;; Ok (MkFilter f "between" lo hi)
  | IsNullExpression f not => Ok (MkFilter f (if not then "is_not_null" else "is_null") "" "")
  | _ => Err (CannotConvert e)
  end.

(** [group.Filters = append(group.Filters, g.Filters...)], and the same for And and Or. *)
Definition merge_groups (group g : LogicalGroup) : LogicalGroup :=
  MkLogicalGroup (lg_Filters group ++ lg_Filters g) (lg_And group ++ lg_And g) (lg_Or group ++ lg_Or g).
Definition add_filter (group : LogicalGroup) (f : Filter) : LogicalGroup :=
  MkLogicalGroup (lg_Filters group ++ [f]) (lg_And group) (lg_Or group).
Definition add_and_group (group g : LogicalGroup) : LogicalGroup :=
  MkLogicalGroup (lg_Filters group) (lg_And group ++ [g]) (lg_Or group).
Definition add_or_group (group g : LogicalGroup) : LogicalGroup :=
  MkLogicalGroup (lg_Filters group) (lg_And group) (lg_Or group ++ [g]).

(** One operand [e], whose own group is [g], of an AND and of an OR. *)
Definition add_and_operand (group : LogicalGroup) (e : Expression) (g : LogicalGroup) : LogicalGroup :=
  if isAndExpression e then merge_groups group g
  else match expressionToFilter e with Ok f => add_filter group f | Err _ => add_or_group group g end.
Definition add_or_operand (group : LogicalGroup) (e : Expression) (g : LogicalGroup) : LogicalGroup :=
  if isOrExpression e then merge_groups group g
  else match expressionToFilter e with Ok f => add_filter group f | Err _ => add_and_group group g end.

Definition empty_group : LogicalGroup := MkLogicalGroup [] [] [].

Fixpoint expressionToLogicalGroup (expr : Expression) : result GenError LogicalGroup :=
  match expr with
  | BinaryExpression l op r =>
      if String.eqb op "AND" then
        leftGroup ← expressionToLogicalGroup l;
        rightGroup ← expressionToLogicalGroup r;
        Ok (add_and_operand (add_and_operand empty_group l leftGroup) r rightGroup)
      else if String.eqb op "OR" then
        leftGroup ← expressionToLogicalGroup l;
        rightGroup ← expressionToLogicalGroup r;
        Ok (add_or_operand (add_or_operand empty_group l leftGroup) r rightGroup)
      else Ok empty_group
  | ParenExpression e => expressionToLogicalGroup e
  | _ => filter ← expressionToFilter expr; Ok (MkLogicalGroup [filter] [] [])
  end.

Definition generateFilters (expr : Expression) : result GenError Filters :=
  root ← expressionToLogicalGroup expr;
  Ok (if isOrGroup expr then MkFilters None (Some root) else MkFilters (Some root) None).

Definition generateOrderBy (clauses : list OrderByClause) : OrderBy :=
  match clauses with
  | [c] => MkOrderBy (oc_Field c) (oc_Direction c) []
  | _ => MkOrderBy "" "" (map (fun c => MkOrderField (oc_Field c) (oc_Direction c)) clauses)
  end.

Definition Generate (stmt : SelectStatement) : result GenError Query :=
  filters ← match ss_Where stmt with
            | Some w => Some <$> generateFilters w
            | None => Ok None
            end;
  Ok (MkQuery (q_Language NewQuery) (q_Version NewQuery) (q_Fields NewQuery) filters
    (if Nat.eqb (length (ss_OrderBy stmt)) 0 then None else Some (generateOrderBy (ss_OrderBy stmt)))
    (default 0%Z (ss_Limit stmt)) (default 0%Z (ss_Offset stmt))).

(** ** translator.go *)

Inductive TranslateError :=
| TranslateParse (e : ParseError)
| TranslateGenerate (e : GenError)
| NoWhere.

Definition Translate (sql : string) : result TranslateError Query :=
  match ParseSelect (NewParser sql) with
  | Err e => Err (TranslateParse e)
  | Ok stmt => match Generate stmt with Err e => Err (TranslateGenerate e) | Ok q => Ok q end
  end.

Definition TranslateWhere (whereClause : string) : result TranslateError Filters :=
  match ParseSelect (NewParser ("SELECT * FROM dummy WHERE " +:+ whereClause)) with
  | Err e => Err (TranslateParse e)
  | Ok stmt =>
      match ss_Where stmt with
      | None => Err NoWhere
      | Some w => match generateFilters w with Err e => Err (TranslateGenerate e) | Ok f => Ok f end
      end
  end.

Definition GetAST (sql : string) : result ParseError SelectStatement := ParseSelect (NewParser sql).
Definition ValidateSQL (sql : string) : result ParseError unit := (fun _ => ()) <$> ParseSelect (NewParser sql).

(** ** What an expression means *)

(** A condition's truth is that of its filter; [ev] decides filters. *)
Fixpoint expr_sem (ev : Filter -> bool) (e : Expression) : bool :=
  match e with
  | BinaryExpression l op r =>
      if String.eqb op "AND" then expr_sem ev l && expr_sem ev r else expr_sem ev l || expr_sem ev r
  | NotExpression e => negb (expr_sem ev e)
  | ParenExpression e => expr_sem ev e
  | _ => match expressionToFilter e with Ok f => ev f | Err _ => false end
  end.

(** The expression under its parentheses. *)
Fixpoint core (e : Expression) : Expression := match e with ParenExpression e => core e | _ => e end.

(** Expressions that the groups represent: no NOT and no NOT BETWEEN, and an operand in parentheses is
    not a combination by the same operator as the one around it. *)
Fixpoint alternating (e : Expression) : bool :=
  match e with
  | BinaryExpression l op r =>
      (String.eqb op "AND" || String.eqb op "OR")
      && match l with ParenExpression x => match core x with BinaryExpression _ o _ => negb (String.eqb o op) | _ => true end | _ => true end
      && match r with ParenExpression x => match core x with BinaryExpression _ o _ => negb (String.eqb o op) | _ => true end | _ => true end
      && alternating l && alternating r
  | ParenExpression e => alternating e
  | NotExpression _ => false
  | BetweenExpression _ _ _ not => negb not
  | _ => true
  end.

(** At the top, parentheses around an OR are lost as well. *)
Definition representable (e : Expression) : bool :=
  alternating e && match e with ParenExpression x => negb (isOrExpression (core x)) | _ => true end.

(** ** Lemmas *)

Section Sem.
Context (ev : Filter -> bool).

Lemma group_sem_merge_and (a b : LogicalGroup) :
  group_sem ev true (merge_groups a b) = group_sem ev true a && group_sem ev true b.
Proof. destruct a, b. cbn. rewrite !forallb_app. btauto. Qed.

Lemma group_sem_merge_or (a b : LogicalGroup) :
  group_sem ev false (merge_groups a b) = group_sem ev false a || group_sem ev false b.
Proof. destruct a, b. cbn. rewrite !existsb_app. btauto. Qed.

Lemma group_sem_filter_and (a : LogicalGroup) (f : Filter) :
  group_sem ev true (add_filter a f) = group_sem ev true a && ev f.
Proof. destruct a. cbn. rewrite forallb_app. cbn. btauto. Qed.

Lemma group_sem_filter_or (a : LogicalGroup) (f : Filter) :
  group_sem ev false (add_filter a f) = group_sem ev false a || ev f.
Proof. destruct a. cbn. rewrite existsb_app. cbn. btauto. Qed.

Lemma group_sem_nested_or (a g : LogicalGroup) :
  group_sem ev true (add_or_group a g) = group_sem ev true a && group_sem ev false g.
Proof. destruct a. cbn. rewrite forallb_app. cbn. btauto. Qed.

Lemma group_sem_nested_and (a g : LogicalGroup) :
  group_sem ev false (add_and_group a g) = group_sem ev false a || group_sem ev true g.
Proof. destruct a. cbn. rewrite existsb_app. cbn. btauto. Qed.

(** [g] stands for [e]: read as an AND group or as an OR group, as the operator of [e] asks. *)
Definition stands_for (g : LogicalGroup) (e : Expression) : Prop :=
  forall conj, match core e with BinaryExpression _ op _ => conj = String.eqb op "AND" | _ => True end ->
    group_sem ev conj g = expr_sem ev e.

(** An operand may stand in a combination by [op]. *)
Definition operand_ok (op : string) (e : Expression) : bool :=
  match e with
  | ParenExpression x => match core x with BinaryExpression _ o _ => negb (String.eqb o op) | _ => true end
  | _ => true
  end.

Lemma binary_operator (l r : Expression) (op : string) :
  alternating (BinaryExpression l op r) = true -> op = "AND" \/ op = "OR".
Proof. cbn [alternating]. rewrite !andb_true_iff, orb_true_iff, !String.eqb_eq. naive_solver. Qed.

Lemma core_alternating (e : Expression) : alternating e = true -> alternating (core e) = true.
Proof. by induction e. Qed.

Lemma add_and_operand_sem (G g : LogicalGroup) (e : Expression) :
  alternating e = true -> operand_ok "AND" e = true -> stands_for g e ->
  group_sem ev true (add_and_operand G e g) = group_sem ev true G && expr_sem ev e.
Proof.
  intros Ha Ho Hs. unfold add_and_operand. unfold stands_for in Hs.
  destruct e as [l op r| | |? ? ? []| |e|e]; cbn [isAndExpression expressionToFilter check_]; try done;
    rewrite ?group_sem_filter_and; try done.
  - destruct (binary_operator _ _ _ Ha) as [->| ->].
    + change (String.eqb "AND" "AND") with true. cbn iota. rewrite group_sem_merge_and. by rewrite Hs.
    + change (String.eqb "OR" "AND") with false. cbn iota. rewrite group_sem_nested_or. by rewrite Hs.
  - rewrite group_sem_nested_or. f_equal. apply Hs. cbn [core]. pose proof (core_alternating e Ha) as Hc.
    cbn [operand_ok] in Ho. destruct (core e) as [l o r| | | | | |]; try done.
    by destruct (binary_operator _ _ _ Hc) as [->| ->].
Qed.

Lemma add_or_operand_sem (G g : LogicalGroup) (e : Expression) :
  alternating e = true -> operand_ok "OR" e = true -> stands_for g e ->
  group_sem ev false (add_or_operand G e g) = group_sem ev false G || expr_sem ev e.
Proof.
  intros Ha Ho Hs. unfold add_or_operand. unfold stands_for in Hs.
  destruct e as [l op r| | |? ? ? []| |e|e]; cbn [isOrExpression expressionToFilter check_]; try done;
    rewrite ?group_sem_filter_or; try done.
  - destruct (binary_operator _ _ _ Ha) as [->| ->].
    + change (String.eqb "AND" "OR") with false. cbn iota. rewrite group_sem_nested_and. by rewrite Hs.
    + change (String.eqb "OR" "OR") with true. cbn iota. rewrite group_sem_merge_or. by rewrite Hs.
  - rewrite group_sem_nested_and. f_equal. apply Hs. cbn [core]. pose proof (core_alternating e Ha) as Hc.
    cbn [operand_ok] in Ho. destruct (core e) as [l o r| | | | | |]; try done.
    by destruct (binary_operator _ _ _ Hc) as [->| ->].
Qed.

Lemma alternating_binary (l r : Expression) (op : string) :
  alternating (BinaryExpression l op r) = true ->
  operand_ok op l = true /\ operand_ok op r = true /\ alternating l = true /\ alternating r = true.
Proof. cbn [alternating]. rewrite !andb_true_iff. unfold operand_ok. tauto. Qed.

Lemma stands_for_leaf (e : Expression) (f : Filter) :
  match e with BinaryExpression _ _ _ | NotExpression _ | ParenExpression _ => False | _ => True end ->
  expressionToFilter e = Ok f -> stands_for (MkLogicalGroup [f] [] []) e.
Proof.
  intros He Hf conj _. assert (expr_sem ev e = ev f) as -> by (destruct e; try done; cbn [expr_sem]; by rewrite Hf).
  destruct conj; cbn; btauto.
Qed.

Lemma expressionToLogicalGroup_sem (e : Expression) :
  alternating e = true -> exists g, expressionToLogicalGroup e = Ok g /\ stands_for g e.
Proof.
  induction e as [l IHl op r IHr| | |? ? ? []| |e|e IH]; intros Ha; cbn [expressionToLogicalGroup]; try done;
    try (eexists; split; [reflexivity|by apply stands_for_leaf]).
  - destruct (alternating_binary _ _ _ Ha) as (Ol & Or & Al & Ar).
    destruct (IHl Al) as (gl & -> & Sl). destruct (IHr Ar) as (gr & -> & Sr). cbn [mbind result_bind].
    destruct (binary_operator _ _ _ Ha) as [->| ->].
    + eexists. split; [reflexivity|]. intros conj Hc. cbn [core] in Hc. subst conj. cbn [expr_sem].
      change (String.eqb "AND" "AND") with true. cbn iota.
      rewrite add_and_operand_sem, add_and_operand_sem by done. done.
    + eexists. split; [reflexivity|]. intros conj Hc. cbn [core] in Hc. subst conj. cbn [expr_sem].
      change (String.eqb "OR" "AND") with false. cbn iota.
      rewrite add_or_operand_sem, add_or_operand_sem by done. done.
  - destruct (IH Ha) as (g & -> & Hs). exists g. split; [done|]. intros conj Hc. by apply Hs.
Qed.

Lemma generateFilters_sem (e : Expression) :
  representable e = true -> exists f, generateFilters e = Ok f /\ filters_sem ev (Some f) = expr_sem ev e.
Proof.
  unfold representable. intros [Ha Ht]%andb_true_iff. unfold generateFilters.
  destruct (expressionToLogicalGroup_sem e Ha) as (g & -> & Hs). cbn [mbind result_bind]. eexists. split; [done|].
  unfold isOrGroup, isOrExpression. pose proof (core_alternating e Ha) as Hc.
  destruct e as [l op r| | | | | |e]; cbn [filters_sem fs_And fs_Or]; try (by apply Hs).
  - destruct (binary_operator _ _ _ Ha) as [->| ->]; cbn; by rewrite Hs.
  - apply Hs. cbn [core] in *. destruct (core e) as [l op r| | | | | |]; try done.
    destruct (binary_operator _ _ _ Hc) as [->| ->]; done.
Qed.
End Sem.

(** The conditions of an expression, as filters. *)
Fixpoint expr_filters (e : Expression) : list Filter :=
  match e with
  | BinaryExpression l _ r => expr_filters l ++ expr_filters r
  | NotExpression e | ParenExpression e => expr_filters e
  | _ => match expressionToFilter e with Ok f => [f] | Err _ => [] end
  end.

Lemma group_filters_merge (a b : LogicalGroup) (f : Filter) :
  f ∈ group_filters (merge_groups a b) -> f ∈ group_filters a \/ f ∈ group_filters b.
Proof. destruct a, b. cbn. rewrite !flat_map_app, !elem_of_app. tauto. Qed.

Lemma group_filters_add_filter (a : LogicalGroup) (x f : Filter) :
  f ∈ group_filters (add_filter a x) -> f ∈ group_filters a \/ f = x.
Proof. destruct a. cbn. rewrite !elem_of_app, list_elem_of_singleton. tauto. Qed.

Lemma group_filters_add_and (a g : LogicalGroup) (f : Filter) :
  f ∈ group_filters (add_and_group a g) -> f ∈ group_filters a \/ f ∈ group_filters g.
Proof. destruct a. cbn. rewrite flat_map_app. cbn. rewrite app_nil_r, !elem_of_app. tauto. Qed.

Lemma group_filters_add_or (a g : LogicalGroup) (f : Filter) :
  f ∈ group_filters (add_or_group a g) -> f ∈ group_filters a \/ f ∈ group_filters g.
Proof. destruct a. cbn. rewrite flat_map_app. cbn. rewrite app_nil_r, !elem_of_app. tauto. Qed.

Lemma expressionToFilter_filters (e : Expression) (f : Filter) :
  expressionToFilter e = Ok f -> f ∈ expr_filters e.
Proof.
  intros H. destruct e as [| | |? ? ? []| | |]; try done; cbn [expr_filters]; rewrite ?H;
    by apply list_elem_of_singleton.
Qed.

Lemma and_operand_filters (G g : LogicalGroup) (e : Expression) (f : Filter) :
  (forall x, x ∈ group_filters g -> x ∈ expr_filters e) ->
  f ∈ group_filters (add_and_operand G e g) -> f ∈ group_filters G \/ f ∈ expr_filters e.
Proof.
  intros Hg. unfold add_and_operand. destruct (isAndExpression e).
  { intros [H|H]%group_filters_merge; auto. }
  destruct (expressionToFilter e) as [x|] eqn:E; [apply expressionToFilter_filters in E|].
  - intros [H| ->]%group_filters_add_filter; auto.
  - intros [H|H]%group_filters_add_or; auto.
Qed.

Lemma or_operand_filters (G g : LogicalGroup) (e : Expression) (f : Filter) :
  (forall x, x ∈ group_filters g -> x ∈ expr_filters e) ->
  f ∈ group_filters (add_or_operand G e g) -> f ∈ group_filters G \/ f ∈ expr_filters e.
Proof.
  intros Hg. unfold add_or_operand. destruct (isOrExpression e).
  { intros [H|H]%group_filters_merge; auto. }
  destruct (expressionToFilter e) as [x|] eqn:E; [apply expressionToFilter_filters in E|].
  - intros [H| ->]%group_filters_add_filter; auto.
  - intros [H|H]%group_filters_add_and; auto.
Qed.

Lemma expressionToLogicalGroup_filters (e : Expression) (g : LogicalGroup) (f : Filter) :
  expressionToLogicalGroup e = Ok g -> f ∈ group_filters g -> f ∈ expr_filters e.
Proof.
  revert g f; induction e as [l IHl op r IHr| | | | |e IH|e IH]; intros g f; cbn [expressionToLogicalGroup].
  - destruct (String.eqb op "AND"); [|destruct (String.eqb op "OR"); [|intros [= <-]; by intros ?%elem_of_nil]].
    all: destruct (expressionToLogicalGroup l) as [gl|]; [|done]; destruct (expressionToLogicalGroup r) as [gr|]; [|done];
      cbn [mbind result_bind]; intros [= <-] H; cbn [expr_filters]; apply elem_of_app.
    + apply and_operand_filters in H as [H|H]; [|by right|by intros; eapply IHr].
      apply and_operand_filters in H as [H|H]; [by apply elem_of_nil in H|by left|by intros; eapply IHl].
    + apply or_operand_filters in H as [H|H]; [|by right|by intros; eapply IHr].
      apply or_operand_filters in H as [H|H]; [by apply elem_of_nil in H|by left|by intros; eapply IHl].
  - intros [= <-]. done.
  - intros [= <-]. done.
  - cbn [expressionToFilter]. destruct Not; [done|]. intros [= <-]. done.
  - intros [= <-]. done.
  - done.
  - apply IH.
Qed.

Lemma generateFilters_filters (e : Expression) (f : Filters) (x : Filter) :
  generateFilters e = Ok f -> x ∈ all_filters (Some f) -> x ∈ expr_filters e.
Proof.
  unfold generateFilters. destruct (expressionToLogicalGroup e) as [g|] eqn:E; [|done]. cbn [mbind result_bind].
  intros [= <-] H. apply (expressionToLogicalGroup_filters e g x E). revert H.
  destruct (isOrGroup e); cbn [all_filters fs_And fs_Or app]; by rewrite ?app_nil_r.
Qed.

(** ** Theorems *)

(** Outside that class the meaning changes silently: [a AND (b AND c)] is translated without an error
    into filters that mean [a AND (b OR c)], and a WHERE clause [(a OR b)] in parentheses into filters
    that mean [a AND b]. *)
Theorem nested_and_becomes_or (fa fb fc va vb vc : string) (ev : Filter -> bool) :
  let cmp f v := ComparisonExpression f "eq" v in
  let flt f v := MkFilter f "eq" v "" in
  (exists fs, generateFilters (BinaryExpression (cmp fa va) "AND"
       (ParenExpression (BinaryExpression (cmp fb vb) "AND" (cmp fc vc)))) = Ok fs /\
     filters_sem ev (Some fs) = ev (flt fa va) && (ev (flt fb vb) || ev (flt fc vc))) /\
  (exists fs, generateFilters (ParenExpression (BinaryExpression (cmp fa va) "OR" (cmp fb vb))) = Ok fs /\
     filters_sem ev (Some fs) = ev (flt fa va) && ev (flt fb vb)).
Proof.
  intros cmp flt. split; eexists; (split; [reflexivity|]); unfold flt; cbn; btauto.
Qed.
