(* ===== verification/QueryExecutor.v ===== *)
(** * QueryExecutor: sorting and execution of queries (pkg/core/tdtql/sorter.go, executor.go)

    [Execute] validates a query against the schema, filters the rows, sorts them and cuts out a page.
    Limits and offsets are 64-bit integers: [wrap64] makes the negation of a limit and the subtraction
    from a length wrap around as in Go, and a slice expression out of range is the error [Panic].

    [compareRows] is a Boolean [less]; [row_compare] is the three-way comparison it is the sign of.
    [rows_sortable] collects what the values of the sort columns must be for it to be an order. *)

From Stdlib Require Import ZArith Lia Bool Ascii String.
From stdpp Require Import base list strings gmap sorting.
From S2P Require Import Prelude Strconv PacketTypes StableSort SchemaPkg QueryFilter Lexer SqlParser TdtqlGenerator.

(** ** sorter.go *)

Definition str_lt (a b : string) : bool := str_ltb a b.

Definition compareStrings (a b : string) : Z := if str_lt a b then -1 else if str_lt b a then 1 else 0.

Record sortField := MkSortField { sf_name : string; sf_index : nat; sf_direction : string; sf_field : Field }.

Inductive ExecError :=
| ESchema (e : SchemaError)
| EFilter (e : FilterError)
| ESort (name : string)
| EFilterField (name : string)
| EOrderField (name : string)
| Panic.

Section Sorter.
Context {V : GoValues} {C : GoCase}.

(** [fieldDef] of [compareValues]. *)
Definition sort_FieldDef (field : Field) : FieldDef :=
  MkFieldDef (f_Name field) (f_Type field) "" 0 0 0 (f_Timezone field) false true.

Definition compareValues (val1 val2 : string) (field : Field) : Z :=
  let normalized := NormalizeType (f_Type field) in
  if String.eqb val1 "" && String.eqb val2 "" then 0
  else if String.eqb val1 "" then -1
  else if String.eqb val2 "" then 1
  else if String.eqb normalized TypeInteger then
    match ParseInt val1, ParseInt val2 with
    | Ok a, Ok b => if (a <? b)%Z then -1 else if (b <? a)%Z then 1 else 0
    | _, _ => compareStrings val1 val2
    end
  else if one_of normalized [TypeReal; TypeDecimal] then
    match ParseFloat val1, ParseFloat val2 with
    | Some a, Some b => if float_lt a b then -1 else if float_lt b a then 1 else 0
    | _, _ => compareStrings val1 val2
    end
  else if String.eqb normalized TypeBoolean then
    if String.eqb val1 "0" && String.eqb val2 "1" then -1
    else if String.eqb val1 "1" && String.eqb val2 "0" then 1
    else 0
  else if one_of normalized [TypeDate; TypeDatetime; TypeTimestamp] then
    match ParseValue val1 (sort_FieldDef field), ParseValue val2 (sort_FieldDef field) with
    | Ok tv1, Ok tv2 =>
        match tv_TimeValue tv1, tv_TimeValue tv2 with
        | Some a, Some b => if time_Before a b then -1 else if time_Before b a then 1 else 0
        | _, _ => compareStrings val1 val2
        end
    | _, _ => compareStrings val1 val2
    end
  else compareStrings val1 val2.

Fixpoint compareRows (row1 row2 : list string) (sortFields : list sortField) : bool :=
  match sortFields with
  | [] => false
  | sf :: rest =>
      match row1 !! sf_index sf, row2 !! sf_index sf with
      | Some val1, Some val2 =>
          let cmp := compareValues val1 val2 (sf_field sf) in
          if (cmp =? 0)%Z then compareRows row1 row2 rest
          else if String.eqb (sf_direction sf) "DESC" then (0 <? cmp)%Z else (cmp <? 0)%Z
      | _, _ => compareRows row1 row2 rest
      end
  end.

Fixpoint field_info (i : nat) (fields : list Field) (name : string) : option (Field * nat) :=
  match fields with
  | [] => None
  | f :: rest => if EqualFold (f_Name f) name then Some (f, i) else field_info (S i) rest name
  end.
Definition getFieldInfo (name : string) (schema : Schema) : result ExecError (Field * nat) :=
  match field_info 0 (s_Fields schema) name with Some x => Ok x | None => Err (ESort name) end.

Fixpoint sort_fields (ofs : list OrderField) (schema : Schema) : result ExecError (list sortField) :=
  match ofs with
  | [] => Ok []
  | f :: rest =>
      '(field, index) ← getFieldInfo (of_Name f) schema;
      sfs ← sort_fields rest schema;
      Ok (MkSortField (of_Name f) index (of_Direction f) field :: sfs)
  end.

(** The switch of [Sort]: one field, several fields, or nothing to sort by. *)
Definition order_fields (orderBy : OrderBy) (schema : Schema) : result ExecError (list sortField) :=
  if negb (String.eqb (ob_Field orderBy) "") then
    '(field, index) ← getFieldInfo (ob_Field orderBy) schema;
    Ok [MkSortField (ob_Field orderBy) index (ob_Direction orderBy) field]
  else sort_fields (ob_Fields orderBy) schema.

Definition Sort (rows : list (list string)) (orderBy : option OrderBy) (schema : Schema) :
  result ExecError (list (list string)) :=
  match orderBy with
  | None => Ok rows
  | Some ob =>
      if String.eqb (ob_Field ob) "" && Nat.eqb (length (ob_Fields ob)) 0 then Ok rows
      else
        sfs ← order_fields ob schema;
        Ok (SliceStable (fun a b => compareRows a b sfs) rows)
  end.

(** ** executor.go *)

Section ValidateGroups.
Context (schema : Schema).

Fixpoint validate_filter_fields (fs : list Filter) : result ExecError unit :=
  match fs with
  | [] => Ok ()
  | f :: rest =>
      match GetFieldByName schema (fl_Field f) with
      | Ok _ => validate_filter_fields rest
      | Err _ => Err (EFilterField (fl_Field f))
      end
  end.
End ValidateGroups.

Section EachGroup.
Context (check : LogicalGroup -> result ExecError unit).
Fixpoint each_group (gs : list LogicalGroup) : result ExecError unit :=
  match gs with [] => Ok () | g :: rest => _ ← check g; each_group rest end.
End EachGroup.

Fixpoint validateLogicalGroupFields (schema : Schema) (group : LogicalGroup) : result ExecError unit :=
  match group with
  | MkLogicalGroup fs ands ors =>
      _ ← validate_filter_fields schema fs;
      _ ← each_group (fun g => validateLogicalGroupFields schema g) ands;
      each_group (fun g => validateLogicalGroupFields schema g) ors
  end.

Definition opt_check {A} (f : A -> result ExecError unit) (o : option A) : result ExecError unit :=
  match o with Some a => f a | None => Ok () end.

Definition validateFiltersFields (filters : Filters) (schema : Schema) : result ExecError unit :=
  _ ← opt_check (validateLogicalGroupFields schema) (fs_And filters);
  opt_check (validateLogicalGroupFields schema) (fs_Or filters).

Fixpoint validate_order_fields (ofs : list OrderField) (schema : Schema) : result ExecError unit :=
  match ofs with
  | [] => Ok ()
  | f :: rest =>
      match GetFieldByName schema (of_Name f) with
      | Ok _ => validate_order_fields rest schema
      | Err _ => Err (EOrderField (of_Name f))
      end
  end.

Definition validateOrderByFields (orderBy : OrderBy) (schema : Schema) : result ExecError unit :=
  _ ← (if negb (String.eqb (ob_Field orderBy) "")
       then match GetFieldByName schema (ob_Field orderBy) with
            | Ok _ => Ok ()
            | Err _ => Err (EOrderField (ob_Field orderBy))
            end
       else Ok ());
  validate_order_fields (ob_Fields orderBy) schema.

Definition ValidateQuery (query : Query) (schema : Schema) : result ExecError unit :=
  _ ← match ValidateSchema schema with Ok _ => Ok () | Err e => Err (ESchema e) end;
  _ ← opt_check (fun fs => validateFiltersFields fs schema) (q_Filters query);
  opt_check (fun ob => validateOrderByFields ob schema) (q_OrderBy query).

Record ExecutionResult := MkExecutionResult {
  xr_FilteredRows : list (list string);
  xr_TotalRows : Z;
  xr_MatchedRows : Z;
  xr_ReturnedRows : Z;
  xr_MoreAvailable : bool;
  xr_NextOffset : Z;
  xr_FilterStats : stats;
  xr_QueryContext : option QueryContext;
}.

Definition zlen {A} (l : list A) : Z := Z.of_nat (length l).

(** [rows[i:]]; an index out of range panics. *)
Definition slice_from {A} (l : list A) (i : Z) : result ExecError (list A) :=
  if ((0 <=? i) && (i <=? zlen l))%Z then Ok (drop (Z.to_nat i) l) else Err Panic.

(** The pagination of [Execute]: the page, whether more rows follow, and the next offset. *)
Definition paginate (offset limit : Z) (rows : list (list string)) :
  result ExecError (list (list string) * bool * Z) :=
  let offset := if (offset <? 0)%Z then 0%Z else offset in
  let rows := if (0 <? offset)%Z then (if (zlen rows <=? offset)%Z then [] else drop (Z.to_nat offset) rows) else rows in
  if (0 <? limit)%Z then
    if (limit <? zlen rows)%Z then Ok (take (Z.to_nat limit) rows, true, wrap64 (offset + limit)) else Ok (rows, false, 0%Z)
  else if (limit <? 0)%Z then
    let n := wrap64 (- limit) in
    if (n <? zlen rows)%Z then rows ← slice_from rows (wrap64 (zlen rows - n)); Ok (rows, false, 0%Z)
    else Ok (rows, false, 0%Z)
  else Ok (rows, false, 0%Z).

Definition buildQueryContext (query : Query) (total matched returned next : Z) (more : bool) : QueryContext :=
  MkQueryContext query (MkExecutionResults total matched returned more next) None "" "".

Definition run_filters (query : Query) (rows : list (list string)) (schema : Schema) :
  result ExecError (list (list string) * stats) :=
  match q_Filters query with
  | None => Ok (rows, ∅)
  | Some _ => match ApplyFilters (q_Filters query) rows schema with Ok r => Ok r | Err e => Err (EFilter e) end
  end.

Definition Execute (query : option Query) (rows : list (list string)) (schema : Schema) :
  result ExecError ExecutionResult :=
  match query with
  | None => Ok (MkExecutionResult rows (zlen rows) (zlen rows) (zlen rows) false 0 ∅ None)
  | Some q =>
      _ ← ValidateQuery q schema;
      '(filtered, st) ← run_filters q rows schema;
      sorted ← Sort filtered (q_OrderBy q) schema;
      '(page, more, next) ← paginate (q_Offset q) (q_Limit q) sorted;
      Ok (MkExecutionResult page (zlen rows) (zlen filtered) (zlen page) more next st
        (Some (buildQueryContext q (zlen rows) (zlen filtered) (zlen page) next more)))
  end.

Definition ExecuteWhere (filters : option Filters) (rows : list (list string)) (schema : Schema) :
  result ExecError (list (list string)) :=
  match filters with
  | None => Ok rows
  | Some _ => match ApplyFilters filters rows schema with Ok (r, _) => Ok r | Err e => Err (EFilter e) end
  end.

(** *** [NormalizeQueryFields] *)

Definition canonical (schema : Schema) (name : string) : string :=
  match GetFieldByName schema name with Ok f => f_Name f | Err _ => name end.

Definition normalize_filter (schema : Schema) (f : Filter) : Filter :=
  MkFilter (canonical schema (fl_Field f)) (fl_Operator f) (fl_Value f) (fl_Value2 f).

Fixpoint normalizeLogicalGroup (schema : Schema) (group : LogicalGroup) : LogicalGroup :=
  match group with
  | MkLogicalGroup fs ands ors =>
      MkLogicalGroup (map (normalize_filter schema) fs) (map (normalizeLogicalGroup schema) ands)
        (map (normalizeLogicalGroup schema) ors)
  end.

Definition normalize_order (schema : Schema) (ob : OrderBy) : OrderBy :=
  MkOrderBy (if negb (String.eqb (ob_Field ob) "") then canonical schema (ob_Field ob) else ob_Field ob)
    (ob_Direction ob) (map (fun f => MkOrderField (canonical schema (of_Name f)) (of_Direction f)) (ob_Fields ob)).

Definition NormalizeQueryFields (query : Query) (schema : Schema) : Query :=
  MkQuery (q_Language query) (q_Version query) (q_Fields query)
    ((fun fs => MkFilters (normalizeLogicalGroup schema <$> fs_And fs) (normalizeLogicalGroup schema <$> fs_Or fs))
       <$> q_Filters query)
    (normalize_order schema <$> q_OrderBy query) (q_Limit query) (q_Offset query).
End Sorter.

(** ** Three-way comparisons as orders *)

Record three_way_order {A} (P : A -> Prop) (cmp : A -> A -> Z) : Prop := {
  two_anti a b : P a -> P b -> cmp b a = (- cmp a b)%Z;
  two_trans a b c : P a -> P b -> P c -> (cmp a b <= 0)%Z -> (cmp b c <= 0)%Z -> (cmp a c <= 0)%Z;
}.

Lemma three_way_order_weaken {A} (P Q : A -> Prop) (cmp : A -> A -> Z) :
  three_way_order P cmp -> (forall a, Q a -> P a) -> three_way_order Q cmp.
Proof. intros [Ha Ht] H. split; eauto. Qed.

Lemma three_way_order_ext {A} (P : A -> Prop) (cmp cmp' : A -> A -> Z) :
  three_way_order P cmp -> (forall a b, P a -> P b -> cmp' a b = cmp a b) -> three_way_order P cmp'.
Proof.
  intros [Ha Ht] H. split.
  - intros a b Pa Pb. rewrite !H by done. by apply Ha.
  - intros a b c Pa Pb Pc. rewrite !H by done. by apply Ht.
Qed.

Lemma three_way_order_map {A B} (f : A -> B) (P : B -> Prop) (cmp : B -> B -> Z) :
  three_way_order P cmp -> three_way_order (fun a => P (f a)) (fun a b => cmp (f a) (f b)).
Proof. intros [Ha Ht]. split; intros; [by apply Ha|]. by eapply Ht with (b := f b). Qed.

(** The comparison of a strict weak order. *)
Lemma three_way_order_lt {A} (P : A -> Prop) (lt : A -> A -> bool) :
  (forall a, P a -> lt a a = false) ->
  (forall a b c, P a -> P b -> P c -> lt a b = true -> lt b c = true -> lt a c = true) ->
  (forall a b c, P a -> P b -> P c -> lt a c = true -> lt a b = true \/ lt b c = true) ->
  three_way_order P (fun a b => three_way (lt a b) (lt b a)).
Proof.
  intros Hi Ht Hc. unfold three_way. split.
  - intros a b Pa Pb. destruct (lt a b) eqn:E1, (lt b a) eqn:E2; try done.
    specialize (Hi a Pa). by rewrite (Ht a b a Pa Pb Pa E1 E2) in Hi.
  - intros a b c Pa Pb Pc H1 H2.
    destruct (lt a c) eqn:E1; [done|]. destruct (lt c a) eqn:E2; [|done]. exfalso.
    destruct (Hc c b a Pc Pb Pa E2) as [E|E].
    + destruct (lt b c) eqn:E3; [|rewrite E in H2; lia].
      specialize (Hi b Pb). by rewrite (Ht b c b Pb Pc Pb E3 E) in Hi.
    + destruct (lt a b) eqn:E3; [|rewrite E in H1; lia].
      specialize (Hi a Pa). by rewrite (Ht a b a Pa Pb Pa E3 E) in Hi.
Qed.

Lemma three_way_order_neg {A} (P : A -> Prop) (cmp : A -> A -> Z) :
  three_way_order P cmp -> three_way_order P (fun a b => - cmp a b)%Z.
Proof.
  intros [Ha Ht]. split; [intros a b Pa Pb; by rewrite (Ha a b)|].
  intros a b c Pa Pb Pc H1 H2. pose proof (Ha a b Pa Pb). pose proof (Ha b c Pb Pc). pose proof (Ha a c Pa Pc).
  assert (cmp c a <= 0)%Z by (apply (Ht c b a); auto; lia). lia.
Qed.

(** Lexicographic combination. *)
Lemma three_way_order_lex {A} (P : A -> Prop) (c1 c2 : A -> A -> Z) :
  three_way_order P c1 -> three_way_order P c2 ->
  three_way_order P (fun a b => if (c1 a b =? 0)%Z then c2 a b else c1 a b).
Proof.
  intros [A1 T1] [A2 T2]. split.
  - intros a b Pa Pb. rewrite (A1 a b), (A2 a b) by done.
    destruct (Z.eqb_spec (c1 a b) 0) as [E|E], (Z.eqb_spec (- c1 a b) 0); lia.
  - intros a b c Pa Pb Pc H1 H2.
    pose proof (A1 a b Pa Pb). pose proof (A1 b c Pb Pc). pose proof (A1 a c Pa Pc).
    destruct (Z.eqb_spec (c1 a b) 0) as [E1|E1], (Z.eqb_spec (c1 b c) 0) as [E2|E2].
    + assert (c1 a c <= 0)%Z by (apply (T1 a b c); auto; lia).
      assert (c1 c a <= 0)%Z by (apply (T1 c b a); auto; lia).
      destruct (Z.eqb_spec (c1 a c) 0); [by apply (T2 a b c)|lia].
    + assert (c1 a c <= 0)%Z by (apply (T1 a b c); auto; lia).
      destruct (Z.eqb_spec (c1 a c) 0) as [E|E]; [|lia].
      assert (c1 c b <= 0)%Z by (apply (T1 c a b); auto; lia). lia.
    + assert (c1 a c <= 0)%Z by (apply (T1 a b c); auto; lia).
      destruct (Z.eqb_spec (c1 a c) 0) as [E|E]; [|lia].
      assert (c1 b a <= 0)%Z by (apply (T1 b c a); auto; lia). lia.
    + assert (c1 a c <= 0)%Z by (apply (T1 a b c); auto; lia).
      destruct (Z.eqb_spec (c1 a c) 0) as [E|E]; [|lia].
      assert (c1 c b <= 0)%Z by (apply (T1 c a b); auto; lia). lia.
Qed.

Lemma three_way_order_weak {A} (P : A -> Prop) (cmp : A -> A -> Z) :
  three_way_order P cmp -> weak_order (fun a b => cmp a b <? 0)%Z P.
Proof.
  intros [Ha Ht]. split.
  - intros a b Pa Pb H. pose proof (Ha a b Pa Pb). go_bool. apply Z.ltb_ge. lia.
  - intros a b c Pa Pb Pc H1 H2. go_bool. pose proof (Ha a b Pa Pb). pose proof (Ha b c Pb Pc). pose proof (Ha a c Pa Pc).
    apply Z.ltb_ge. assert (cmp a c <= 0)%Z by (apply (Ht a b c); auto; lia). lia.
Qed.

(** The empty value comes first. *)
Definition nulls_first (cmp : string -> string -> Z) (v w : string) : Z :=
  if String.eqb v "" && String.eqb w "" then 0
  else if String.eqb v "" then -1 else if String.eqb w "" then 1 else cmp v w.

Lemma three_way_order_nulls (P : string -> Prop) (cmp : string -> string -> Z) :
  three_way_order (fun v => v <> "" /\ P v) cmp -> three_way_order (fun v => v = "" \/ P v) (nulls_first cmp).
Proof.
  intros [Ha Ht]. unfold nulls_first. split.
  - intros a b Pa Pb. destruct (String.eqb_spec a ""), (String.eqb_spec b ""); simpl; try lia.
    apply Ha; naive_solver.
  - intros a b c Pa Pb Pc.
    destruct (String.eqb_spec a ""), (String.eqb_spec b ""), (String.eqb_spec c ""); simpl; try lia.
    apply Ht; naive_solver.
Qed.

Lemma str_lt_irrefl (a : string) : str_lt a a = false.
Proof. unfold str_lt, str_ltb. by rewrite str_compare_refl. Qed.

Lemma str_lt_trans (a b c : string) : str_lt a b = true -> str_lt b c = true -> str_lt a c = true.
Proof.
  unfold str_lt, str_ltb. destruct (str_compare a b) eqn:E1, (str_compare b c) eqn:E2; try done.
  by rewrite (str_compare_lt_trans a b c).
Qed.

Lemma str_lt_cotrans (a b c : string) : str_lt a c = true -> str_lt a b = true \/ str_lt b c = true.
Proof.
  intros H. unfold str_lt, str_ltb in *. destruct (str_compare a b) eqn:E; [|by left|].
  - apply str_compare_eq in E as ->. by right.
  - right. destruct (str_compare a c) eqn:E2; try done. rewrite (str_compare_lt_trans b a c); [done|..|done].
    rewrite str_compare_antisym, E. done.
Qed.

Lemma compareStrings_order (P : string -> Prop) : three_way_order P compareStrings.
Proof.
  apply (three_way_order_lt P str_lt); [by intros; apply str_lt_irrefl|by intros; eapply str_lt_trans|].
  intros a b c _ _ _. apply str_lt_cotrans.
Qed.

(** ** Values and rows that can be ordered *)

Section Orders.
Context {V : GoValues} {L : GoValuesLaws V}.

(** The comparison of two values that are not empty. *)
Definition typed_compare (field : Field) (val1 val2 : string) : Z :=
  let normalized := NormalizeType (f_Type field) in
  if String.eqb normalized TypeInteger then
    match ParseInt val1, ParseInt val2 with
    | Ok a, Ok b => three_way (a <? b)%Z (b <? a)%Z
    | _, _ => compareStrings val1 val2
    end
  else if one_of normalized [TypeReal; TypeDecimal] then
    match ParseFloat val1, ParseFloat val2 with
    | Some a, Some b => three_way (float_lt a b) (float_lt b a)
    | _, _ => compareStrings val1 val2
    end
  else if String.eqb normalized TypeBoolean then
    three_way (String.eqb val1 "0" && String.eqb val2 "1") (String.eqb val1 "1" && String.eqb val2 "0")
  else if one_of normalized [TypeDate; TypeDatetime; TypeTimestamp] then
    match ParseValue val1 (sort_FieldDef field), ParseValue val2 (sort_FieldDef field) with
    | Ok tv1, Ok tv2 =>
        match tv_TimeValue tv1, tv_TimeValue tv2 with
        | Some a, Some b => three_way (time_Before a b) (time_Before b a)
        | _, _ => compareStrings val1 val2
        end
    | _, _ => compareStrings val1 val2
    end
  else compareStrings val1 val2.

Lemma compareValues_nulls (field : Field) (v w : string) :
  compareValues v w field = nulls_first (typed_compare field) v w.
Proof. reflexivity. Qed.

(** The time a value of a date or time column stands for. *)
Definition time_of (field : Field) (v : string) : option Time :=
  match ParseValue v (sort_FieldDef field) with Ok tv => tv_TimeValue tv | Err _ => None end.

(** A value of the column's type; NaN is excluded. *)
Definition orderable (field : Field) (v : string) : Prop :=
  let t := NormalizeType (f_Type field) in
  (t = TypeInteger -> is_ok (ParseInt v) = true) /\
  (t = TypeReal \/ t = TypeDecimal -> exists x, ParseFloat v = Some x /\ is_NaN x = false) /\
  (t = TypeBoolean -> v = "0" \/ v = "1") /\
  (t = TypeDate \/ t = TypeDatetime \/ t = TypeTimestamp -> is_Some (time_of field v)).

Definition sortable (field : Field) (v : string) : Prop := v = "" \/ orderable field v.

Lemma one_of_true (t : DataType) (ts : list DataType) : one_of t ts = true <-> In t ts.
Proof.
  unfold one_of. rewrite existsb_exists. split; [|by exists t; rewrite String.eqb_refl].
  intros (x & Hx & ->%String.eqb_eq). done.
Qed.

(** A comparison by keys. *)
Lemma keyed_order {K} (P : string -> Prop) (Q : K -> Prop) (key : string -> option K) (lt : K -> K -> bool)
  (cmp : string -> string -> Z) :
  (forall a, Q a -> lt a a = false) ->
  (forall a b c, Q a -> Q b -> Q c -> lt a b = true -> lt b c = true -> lt a c = true) ->
  (forall a b c, Q a -> Q b -> Q c -> lt a c = true -> lt a b = true \/ lt b c = true) ->
  (forall v, P v -> exists k, key v = Some k /\ Q k) ->
  (forall v w x y, key v = Some x -> key w = Some y -> cmp v w = three_way (lt x y) (lt y x)) ->
  three_way_order P cmp.
Proof.
  intros H1 H2 H3 Hk Hc. destruct (three_way_order_lt Q lt H1 H2 H3) as [Ha Ht]. split.
  - intros v w Pv Pw. destruct (Hk v Pv) as (x & Ex & Qx), (Hk w Pw) as (y & Ey & Qy).
    rewrite (Hc v w x y), (Hc w v y x) by done. by apply Ha.
  - intros u v w Pu Pv Pw. destruct (Hk u Pu) as (x & Ex & Qx), (Hk v Pv) as (y & Ey & Qy), (Hk w Pw) as (z & Ez & Qz).
    rewrite (Hc u v x y), (Hc v w y z), (Hc u w x z) by done. by apply Ht.
Qed.

Lemma typed_compare_integer (field : Field) :
  NormalizeType (f_Type field) = TypeInteger ->
  three_way_order (fun v => v <> "" /\ orderable field v) (typed_compare field).
Proof.
  intros Ht. apply (keyed_order _ (fun _ => True) (fun v => outcome (ParseInt v)) Z.ltb).
  - intros a _. apply Z.ltb_irrefl.
  - intros a b c _ _ _ H1 H2. go_bool. apply Z.ltb_lt. lia.
  - intros a b c _ _ _ H. go_bool. destruct (Z.ltb_spec a b); [by left|]. right. apply Z.ltb_lt. lia.
  - intros v (_ & Hi & _). specialize (Hi Ht). destruct (ParseInt v) as [z|]; [by exists z|done].
  - intros v w x y Ev Ew. unfold typed_compare. rewrite Ht. change (String.eqb TypeInteger TypeInteger) with true. cbn iota.
    destruct (ParseInt v), (ParseInt w); by simplify_eq/=.
Qed.

Lemma typed_compare_float (field : Field) :
  NormalizeType (f_Type field) = TypeReal \/ NormalizeType (f_Type field) = TypeDecimal ->
  three_way_order (fun v => v <> "" /\ orderable field v) (typed_compare field).
Proof.
  intros Ht. apply (keyed_order _ (fun x => is_NaN x = false) ParseFloat float_lt).
  - intros a _. apply float_lt_irrefl.
  - intros a b c _ _ _. apply float_lt_trans.
  - intros a b c _ Hb _. by apply float_lt_cotrans.
  - intros v (_ & _ & Hf & _). by apply Hf.
  - intros v w x y Ev Ew. unfold typed_compare.
    by destruct Ht as [-> | ->]; [change (String.eqb TypeReal TypeInteger) with false
      |change (String.eqb TypeDecimal TypeInteger) with false]; cbn iota;
      [change (one_of TypeReal [TypeReal; TypeDecimal]) with true|change (one_of TypeDecimal [TypeReal; TypeDecimal]) with true];
      cbn iota; rewrite Ev, Ew.
Qed.

Lemma typed_compare_boolean (field : Field) :
  NormalizeType (f_Type field) = TypeBoolean ->
  three_way_order (fun v => v <> "" /\ orderable field v) (typed_compare field).
Proof.
  intros Ht. apply (three_way_order_weaken (fun v => v = "0" \/ v = "1")); [|intros v (_ & _ & _ & Hb & _); by apply Hb].
  unfold typed_compare. rewrite Ht. split.
  - by intros a b [->| ->] [->| ->].
  - by intros a b c [->| ->] [->| ->] [->| ->].
Qed.

Lemma typed_compare_time (field : Field) :
  let t := NormalizeType (f_Type field) in
  t = TypeDate \/ t = TypeDatetime \/ t = TypeTimestamp ->
  three_way_order (fun v => v <> "" /\ orderable field v) (typed_compare field).
Proof.
  intros t Ht. apply (keyed_order _ (fun _ => True) (time_of field) time_Before).
  - intros a _. apply time_Before_irrefl.
  - intros a b c _ _ _. apply time_Before_trans.
  - intros a b c _ _ _. apply time_Before_cotrans.
  - intros v (_ & _ & _ & _ & Hm). destruct (Hm Ht) as [x Ex]. by exists x.
  - intros v w x y Ev Ew. unfold typed_compare. fold t.
    assert (String.eqb t TypeInteger = false /\ one_of t [TypeReal; TypeDecimal] = false /\
      String.eqb t TypeBoolean = false /\ one_of t [TypeDate; TypeDatetime; TypeTimestamp] = true) as (-> & -> & -> & ->)
      by (by destruct Ht as [->|[->| ->]]).
    unfold time_of in Ev, Ew. destruct (ParseValue v _); [|done]. destruct (ParseValue w _); [|done].
    by rewrite Ev, Ew.
Qed.

Lemma compareValues_order (field : Field) : three_way_order (sortable field) (fun v w => compareValues v w field).
Proof.
  apply (three_way_order_ext _ (nulls_first (typed_compare field))); [|done].
  apply three_way_order_nulls. set (t := NormalizeType (f_Type field)).
  destruct (String.eqb t TypeInteger) eqn:E1; [apply typed_compare_integer; by apply String.eqb_eq|].
  destruct (one_of t [TypeReal; TypeDecimal]) eqn:E2.
  { apply typed_compare_float. apply one_of_true in E2. unfold t in *. simpl in E2. naive_solver. }
  destruct (String.eqb t TypeBoolean) eqn:E3; [apply typed_compare_boolean; by apply String.eqb_eq|].
  destruct (one_of t [TypeDate; TypeDatetime; TypeTimestamp]) eqn:E4.
  { apply typed_compare_time. apply one_of_true in E4. unfold t in *. simpl in E4. naive_solver. }
  apply (three_way_order_ext _ compareStrings); [apply compareStrings_order|].
  intros a b _ _. unfold typed_compare. fold t. by rewrite E1, E2, E3, E4.
Qed.

(** The three-way comparison of rows. *)
Fixpoint row_compare (sfs : list sortField) (row1 row2 : list string) : Z :=
  match sfs with
  | [] => 0
  | sf :: rest =>
      let c := match row1 !! sf_index sf, row2 !! sf_index sf with
               | Some v, Some w =>
                   let c := compareValues v w (sf_field sf) in
                   if String.eqb (sf_direction sf) "DESC" then - c else c
               | _, _ => 0
               end%Z in
      if (c =? 0)%Z then row_compare rest row1 row2 else c
  end.

(** The row has a sortable value in every sort column. *)
Definition row_sortable (sfs : list sortField) (row : list string) : Prop :=
  Forall (fun sf => exists v, row !! sf_index sf = Some v /\ sortable (sf_field sf) v) sfs.

Lemma compareRows_compare (sfs : list sortField) (row1 row2 : list string) :
  compareRows row1 row2 sfs = (row_compare sfs row1 row2 <? 0)%Z.
Proof.
  induction sfs as [|sf sfs IH]; [done|]. cbn [compareRows row_compare].
  destruct (row1 !! sf_index sf) as [v|], (row2 !! sf_index sf) as [w|]; try done.
  generalize (compareValues v w (sf_field sf)). intros c. cbn zeta. destruct (String.eqb (sf_direction sf) "DESC").
  - replace (- c =? 0)%Z with (c =? 0)%Z; [destruct (c =? 0)%Z; [done|]|]; apply eq_true_iff_eq;
      rewrite ?Z.ltb_lt, ?Z.eqb_eq; lia.
  - by destruct (c =? 0)%Z.
Qed.

Lemma row_compare_order (sfs : list sortField) : three_way_order (row_sortable sfs) (row_compare sfs).
Proof.
  induction sfs as [|sf sfs IH]; [by split|].
  apply (three_way_order_lex (row_sortable (sf :: sfs))
    (fun r1 r2 => match r1 !! sf_index sf, r2 !! sf_index sf with
       | Some v, Some w => let c := compareValues v w (sf_field sf) in
           if String.eqb (sf_direction sf) "DESC" then - c else c
       | _, _ => 0 end)%Z).
  - pose (val (r : list string) := default "" (r !! sf_index sf)).
    assert (three_way_order (fun r => sortable (sf_field sf) (val r))
      (fun r1 r2 => let c := compareValues (val r1) (val r2) (sf_field sf) in
         if String.eqb (sf_direction sf) "DESC" then - c else c)%Z) as H.
    { pose proof (three_way_order_map val _ _ (compareValues_order (sf_field sf))) as H.
      destruct (String.eqb (sf_direction sf) "DESC"); [by apply three_way_order_neg|done]. }
    apply (three_way_order_weaken _ (row_sortable (sf :: sfs))) in H.
    2: { intros r Hr. apply Forall_cons in Hr as [(v & Ev & Hv) _]. unfold val. by rewrite Ev. }
    apply (three_way_order_ext _ _ _ H). intros r1 r2 H1 H2.
    apply Forall_cons in H1 as [(v & Ev & _) _]. apply Forall_cons in H2 as [(w & Ew & _) _].
    unfold val. by rewrite Ev, Ew.
  - apply (three_way_order_weaken _ _ _ IH). intros r Hr. by apply Forall_cons in Hr as [_ Hr].
Qed.

Lemma compareRows_weak_order (sfs : list sortField) :
  weak_order (fun a b => compareRows a b sfs) (row_sortable sfs).
Proof.
  destruct (three_way_order_weak _ _ (row_compare_order sfs)) as [Ha Ht]. split.
  - intros a b Pa Pb. rewrite !compareRows_compare. by apply Ha.
  - intros a b c Pa Pb Pc. rewrite !compareRows_compare. by apply Ht.
Qed.
End Orders.

(** ** Pagination *)

(** The page a query asks for. *)
Definition page_of {A} (offset limit : Z) (rows : list A) : list A :=
  let rest := drop (Z.to_nat offset) rows in
  if (0 <? limit)%Z then take (Z.to_nat limit) rest
  else if (limit <? 0)%Z then drop (length rest - Z.to_nat (- limit)) rest
  else rest.

Lemma zlen_drop {A} (n : nat) (l : list A) : zlen (drop n l) = Z.max 0 (zlen l - Z.of_nat n).
Proof. unfold zlen. rewrite length_drop. lia. Qed.

Lemma paginate_ok (offset limit : Z) (rows : list (list string)) :
  (zlen rows <= max_int64)%Z -> (min_int64 < limit <= max_int64)%Z ->
  exists more next, paginate offset limit rows = Ok (page_of offset limit rows, more, next) /\
    (more = true -> (0 < limit)%Z /\ next = (Z.max 0 offset + limit)%Z /\ (next < zlen rows)%Z) /\
    (more = false -> (0 < limit)%Z -> page_of offset limit rows = drop (Z.to_nat offset) rows).
Proof.
  intros Hl Hlim. unfold paginate, page_of.
  assert ((let o := if (offset <? 0)%Z then 0%Z else offset in
    if (0 <? o)%Z then (if (zlen rows <=? o)%Z then [] else drop (Z.to_nat o) rows) else rows)
    = drop (Z.to_nat offset) rows) as Hd.
  { cbn zeta. destruct (Z.ltb_spec offset 0); [replace (Z.to_nat offset) with 0 by lia; done|].
    destruct (Z.ltb_spec 0 offset); [|replace (Z.to_nat offset) with 0 by lia; done].
    destruct (Z.leb_spec (zlen rows) offset); [|done]. symmetry. apply nil_length_inv. rewrite length_drop.
    unfold zlen in *. lia. }
  cbn zeta in Hd |- *. rewrite Hd. set (rest := drop (Z.to_nat offset) rows).
  pose proof (zlen_drop (Z.to_nat offset) rows) as Hz. fold rest in Hz.
  assert (0 <= zlen rest <= max_int64)%Z by (unfold zlen in *; lia).
  destruct (Z.ltb_spec 0 limit).
  - destruct (Z.ltb_spec limit (zlen rest)).
    + eexists _, _. split; [done|]. split; [|done]. intros _. split; [done|].
      assert ((if (offset <? 0)%Z then 0%Z else offset) = Z.max 0 offset) as -> by (destruct (Z.ltb_spec offset 0); lia).
      rewrite wrap64_id by (apply int64b_intro; unfold min_int64; lia). lia.
    + rewrite take_ge by (unfold zlen in *; lia). by eexists _, _.
  - destruct (Z.ltb_spec limit 0); [|eexists _, _; split; [done|]; split; [done|lia]].
    assert (int64b (- limit) = true) as Hn by (apply int64b_intro; unfold min_int64, max_int64 in *; lia).
    rewrite (wrap64_id (- limit)) by done. destruct (Z.ltb_spec (- limit) (zlen rest)).
    + rewrite wrap64_id by (apply int64b_intro; unfold min_int64, max_int64 in *; lia). unfold slice_from.
      replace ((0 <=? zlen rest - - limit) && (zlen rest - - limit <=? zlen rest))%Z with true.
      2: { symmetry. rewrite andb_true_iff, !Z.leb_le. lia. }
      cbn [mbind result_bind]. exists false, 0%Z. split; [|split; [done|lia]]. repeat f_equal. unfold zlen in *. lia.
    + replace (length rest - Z.to_nat (- limit)) with 0 by (unfold zlen in *; lia).
      eexists _, _. split; [done|]. split; [done|lia].
Qed.

(** The smallest limit is its own negation. *)
Lemma paginate_smallest (rows : list (list string)) :
  (zlen rows <= max_int64)%Z -> paginate 0 min_int64 rows = Err Panic.
Proof.
  intros Hl. assert (0 <= zlen rows)%Z by (unfold zlen; lia). unfold paginate.
  change (0 <? 0)%Z with false. cbn iota zeta. change (0 <? 0)%Z with false. cbn iota.
  change (0 <? min_int64)%Z with false. change (min_int64 <? 0)%Z with true. cbn iota.
  change (wrap64 (- min_int64)) with min_int64.
  replace (min_int64 <? zlen rows)%Z with true by (symmetry; apply Z.ltb_lt; unfold min_int64; lia).
  assert (wrap64 (zlen rows - min_int64) = zlen rows - 2 ^ 63)%Z as ->.
  { unfold wrap64, min_int64, max_int64 in *. replace (zlen rows - - 2 ^ 63 + 2 ^ 63)%Z with (zlen rows + 1 * 2 ^ 64)%Z by lia.
    rewrite Z.mod_add by lia. rewrite Z.mod_small by lia. done. }
  unfold slice_from. replace (0 <=? zlen rows - 2 ^ 63)%Z with false; [done|]. symmetry. apply Z.leb_gt.
  unfold max_int64 in Hl. lia.
Qed.

(** ** Execution in steps *)

Section Steps.
Context {V : GoValues} {C : GoCase}.

(** The rows before pagination. *)
Definition matched_rows (q : Query) (rows : list (list string)) (schema : Schema) :
  result ExecError (list (list string) * stats * list (list string)) :=
  _ ← ValidateQuery q schema;
  '(filtered, st) ← run_filters q rows schema;
  sorted ← Sort filtered (q_OrderBy q) schema;
  Ok (filtered, st, sorted).

Definition with_page (q : Query) (offset limit : Z) : Query :=
  MkQuery (q_Language q) (q_Version q) (q_Fields q) (q_Filters q) (q_OrderBy q) limit offset.

Lemma matched_rows_page (q : Query) (offset limit : Z) (rows : list (list string)) (schema : Schema) :
  matched_rows (with_page q offset limit) rows schema = matched_rows q rows schema.
Proof. reflexivity. Qed.

Lemma Execute_matched (q : Query) (rows : list (list string)) (schema : Schema) (filtered sorted : list (list string))
  (st : stats) :
  matched_rows q rows schema = Ok (filtered, st, sorted) ->
  Execute (Some q) rows schema =
    ('(page, more, next) ← paginate (q_Offset q) (q_Limit q) sorted;
     Ok (MkExecutionResult page (zlen rows) (zlen filtered) (zlen page) more next st
       (Some (buildQueryContext q (zlen rows) (zlen filtered) (zlen page) next more)))).
Proof.
  unfold matched_rows, Execute. destruct (ValidateQuery q schema) as [u|]; [|done]. cbn [mbind result_bind].
  destruct (run_filters q rows schema) as [[f s]|]; [|done]. cbn [mbind result_bind].
  destruct (Sort f (q_OrderBy q) schema) as [so|]; [|done]. cbn [mbind result_bind]. by intros [= -> -> ->].
Qed.

Lemma Execute_ok_matched (q : Query) (rows : list (list string)) (schema : Schema) (r : ExecutionResult) :
  Execute (Some q) rows schema = Ok r -> exists m, matched_rows q rows schema = Ok m.
Proof.
  unfold matched_rows, Execute. destruct (ValidateQuery q schema) as [u|]; [|done]. cbn [mbind result_bind].
  destruct (run_filters q rows schema) as [[f s]|]; [|done]. cbn [mbind result_bind].
  destruct (Sort f (q_OrderBy q) schema) as [so|]; [|done]. cbn [mbind result_bind]. by eexists.
Qed.

Lemma apply_rows_length (fields : gmap string (nat * FieldDef)) (filters : option Filters) (rows kept : list (list string))
  (st st' : stats) :
  apply_rows fields filters rows st = Ok (kept, st') -> length kept <= length rows.
Proof.
  revert kept st st'; induction rows as [|row rows IH]; intros kept st st'; cbn [apply_rows]; [by intros [= <- _]|].
  destruct (evaluateFilters _ _ _) as [[m s]|]; [|done]. cbn [mbind result_bind].
  destruct (apply_rows fields filters rows s) as [[k s']|] eqn:E; [|done]. cbn [mbind result_bind].
  intros [= <- _]. apply IH in E. destruct m; simpl; lia.
Qed.

Lemma Sort_length (rows out : list (list string)) (ob : option OrderBy) (schema : Schema) :
  Sort rows ob schema = Ok out -> length out = length rows.
Proof.
  unfold Sort. destruct ob as [ob|]; [|by intros [= <-]]. destruct (_ && _); [by intros [= <-]|].
  destruct (order_fields ob schema) as [sfs|]; [|done]. cbn [mbind result_bind]. intros [= <-].
  by rewrite (SliceStable_perm _ rows).
Qed.

Lemma matched_rows_length (q : Query) (rows filtered sorted : list (list string)) (st : stats) (schema : Schema) :
  matched_rows q rows schema = Ok (filtered, st, sorted) -> length sorted <= length rows.
Proof.
  unfold matched_rows. destruct (ValidateQuery q schema) as [u|]; [|done]. cbn [mbind result_bind].
  destruct (run_filters q rows schema) as [[f s]|] eqn:Ef; [|done]. cbn [mbind result_bind].
  destruct (Sort f (q_OrderBy q) schema) as [so|] eqn:Es; [|done]. cbn [mbind result_bind]. intros [= -> -> ->].
  apply Sort_length in Es. rewrite Es. revert Ef. unfold run_filters, ApplyFilters.
  destruct (q_Filters q); [|by intros [= <- _]].
  destruct (apply_rows _ _ _ _) as [[k s']|] eqn:E; [|done]. intros [= <- _]. by apply apply_rows_length in E.
Qed.

(** Asking for page after page: the next offset is the one the last result names. *)
Fixpoint collect_pages (fuel : nat) (q : Query) (rows : list (list string)) (schema : Schema) (offset : Z) :
  option (list (list string)) :=
  match fuel with
  | 0 => None
  | S f =>
      match Execute (Some (with_page q offset (q_Limit q))) rows schema with
      | Err _ => None
      | Ok r =>
          if xr_MoreAvailable r
          then app (xr_FilteredRows r) <$> collect_pages f q rows schema (xr_NextOffset r)
          else Some (xr_FilteredRows r)
      end
  end.

Lemma collect_pages_from (fuel : nat) (q : Query) (rows filtered sorted : list (list string)) (st : stats)
  (schema : Schema) (offset : Z) :
  matched_rows q rows schema = Ok (filtered, st, sorted) -> (zlen sorted <= max_int64)%Z ->
  (0 < q_Limit q <= max_int64)%Z -> (0 <= offset)%Z -> (zlen sorted - offset < Z.of_nat fuel)%Z -> 0 < fuel ->
  collect_pages fuel q rows schema offset = Some (drop (Z.to_nat offset) sorted).
Proof.
  revert offset; induction fuel as [|f IH]; intros offset Hm Hl Hlim Ho Hf Hpos; [lia|]. cbn [collect_pages].
  rewrite (Execute_matched (with_page q offset (q_Limit q)) rows schema filtered sorted st) by done.
  cbn [with_page q_Offset q_Limit].
  destruct (paginate_ok offset (q_Limit q) sorted Hl) as (more & next & -> & Ht & Hfa);
    [unfold min_int64; lia|]. cbn [mbind result_bind xr_MoreAvailable xr_FilteredRows xr_NextOffset].
  destruct more; [|by rewrite Hfa by (done || lia)]. destruct (Ht eq_refl) as (_ & En & Hn).
  rewrite IH; [|done|done|done|lia|lia|lia]. cbn [fmap option_fmap option_map]. f_equal.
  unfold page_of. replace (0 <? q_Limit q)%Z with true by (symmetry; apply Z.ltb_lt; lia).
  replace (Z.to_nat next) with (Z.to_nat offset + Z.to_nat (q_Limit q)) by lia. rewrite <- drop_drop. apply take_drop.
Qed.
End Steps.

(** ** Queries on known fields validate *)

Section Known.
Context {V : GoValues} {C : GoCase}.

Definition field_known (schema : Schema) (name : string) : bool := is_ok (GetFieldByName schema name).

Lemma validate_filter_fields_ok (schema : Schema) (fs : list Filter) :
  (forall f, f ∈ fs -> field_known schema (fl_Field f) = true) -> validate_filter_fields schema fs = Ok ().
Proof.
  induction fs as [|f fs IH]; intros H; [done|]. cbn [validate_filter_fields].
  assert (field_known schema (fl_Field f) = true) as Hf by (apply H; constructor). unfold field_known in Hf.
  destruct (GetFieldByName _ _); [|done]. apply IH. intros g Hg. apply H. by constructor.
Qed.

Lemma each_group_ok (check : LogicalGroup -> result ExecError unit) (gs : list LogicalGroup) :
  Forall (fun g => check g = Ok ()) gs -> each_group check gs = Ok ().
Proof. induction 1 as [|g gs Hg _ IH]; [done|]. cbn [each_group]. by rewrite Hg. Qed.

Lemma validateLogicalGroupFields_ok (schema : Schema) (g : LogicalGroup) :
  (forall f, f ∈ group_filters g -> field_known schema (fl_Field f) = true) ->
  validateLogicalGroupFields schema g = Ok ().
Proof.
  induction g as [fs ands ors IHa IHo] using LogicalGroup_rect'. intros H. cbn [group_filters validateLogicalGroupFields] in *.
  rewrite validate_filter_fields_ok by (intros f Hf; apply H, elem_of_app; by left). cbn [mbind result_bind].
  assert (forall gs, Forall (fun g => (forall f, f ∈ group_filters g -> field_known schema (fl_Field f) = true) ->
    validateLogicalGroupFields schema g = Ok ()) gs -> (forall f, f ∈ flat_map group_filters gs ->
    field_known schema (fl_Field f) = true) -> Forall (fun g => validateLogicalGroupFields schema g = Ok ()) gs) as Hall.
  { intros gs Hgs Hf. rewrite Forall_forall in *. intros g Hg. apply Hgs; [done|]. intros f Hin. apply Hf.
    apply list_elem_of_In, in_flat_map. exists g. by rewrite <- !list_elem_of_In. }
  assert (each_group (fun g => validateLogicalGroupFields schema g) ands = Ok ()) as ->
    by (apply each_group_ok, Hall; [done|]; intros f Hf; apply H; rewrite !elem_of_app; tauto).
  cbn [mbind result_bind]. apply each_group_ok, Hall; [done|]. intros f Hf. apply H. rewrite !elem_of_app. tauto.
Qed.

Lemma validateFiltersFields_ok (schema : Schema) (fs : Filters) :
  (forall f, f ∈ all_filters (Some fs) -> field_known schema (fl_Field f) = true) ->
  validateFiltersFields fs schema = Ok ().
Proof.
  unfold validateFiltersFields, all_filters, opt_check. destruct fs as [[a|] [o|]]; cbn [fs_And fs_Or]; intros H;
    rewrite ?app_nil_r in H; cbn [app] in H;
    rewrite ?(validateLogicalGroupFields_ok schema a) by (intros f Hf; apply H; rewrite ?elem_of_app; tauto);
    cbn [mbind result_bind];
    rewrite ?(validateLogicalGroupFields_ok schema o) by (intros f Hf; apply H; rewrite ?elem_of_app; tauto); done.
Qed.

Lemma field_info_known (schema : Schema) (name : string) :
  field_known schema name = true -> exists f i, getFieldInfo name schema = Ok (f, i).
Proof.
  unfold field_known, GetFieldByName, getFieldInfo. generalize 0. induction (s_Fields schema) as [|f fs IH]; intros n H.
  - done.
  - cbn [find_field field_info] in *. destruct (EqualFold (f_Name f) name); [by eexists _, _|]. by apply IH.
Qed.

(** The sort fields of a clause list. *)
Definition clause_field (schema : Schema) (c : OrderByClause) (sf : sortField) : Prop :=
  sf_direction sf = oc_Direction c /\ getFieldInfo (oc_Field c) schema = Ok (sf_field sf, sf_index sf).

Definition clause_known (schema : Schema) (c : OrderByClause) : bool :=
  negb (String.eqb (oc_Field c) "") && field_known schema (oc_Field c).

Lemma sort_fields_clauses (schema : Schema) (cs : list OrderByClause) :
  forallb (clause_known schema) cs = true ->
  exists sfs, sort_fields (map (fun c => MkOrderField (oc_Field c) (oc_Direction c)) cs) schema = Ok sfs /\
    Forall2 (clause_field schema) cs sfs.
Proof.
  induction cs as [|c cs IH]; intros H; [by exists []|]. cbn [forallb] in H. apply andb_true_iff in H as [Hc H].
  unfold clause_known in Hc. apply andb_true_iff in Hc as [_ Hc]. destruct (IH H) as (sfs & E & Hf).
  destruct (field_info_known schema _ Hc) as (f & i & Ei). cbn [map sort_fields of_Name of_Direction].
  rewrite Ei. cbn [mbind result_bind]. rewrite E. cbn [mbind result_bind]. eexists. split; [done|]. by constructor.
Qed.

Lemma order_fields_clauses (schema : Schema) (cs : list OrderByClause) :
  forallb (clause_known schema) cs = true ->
  exists sfs, order_fields (generateOrderBy cs) schema = Ok sfs /\ Forall2 (clause_field schema) cs sfs.
Proof.
  intros H. destruct cs as [|c [|c' cs]]; [by exists []| |by apply (sort_fields_clauses schema (c :: c' :: cs))].
  cbn [forallb] in H. rewrite andb_true_r in H. unfold clause_known in H. apply andb_true_iff in H as [Hne Hc].
  unfold order_fields. cbn [generateOrderBy ob_Field ob_Direction]. rewrite Hne.
  destruct (field_info_known schema _ Hc) as (f & i & Ei). rewrite Ei. cbn [mbind result_bind].
  eexists. split; [done|]. by repeat constructor.
Qed.

Lemma validate_order_fields_ok (schema : Schema) (cs : list OrderByClause) :
  forallb (clause_known schema) cs = true ->
  validate_order_fields (map (fun c => MkOrderField (oc_Field c) (oc_Direction c)) cs) schema = Ok ().
Proof.
  induction cs as [|c cs IH]; intros H; [done|]. cbn [forallb] in H. apply andb_true_iff in H as [Hc H].
  unfold clause_known, field_known in Hc. apply andb_true_iff in Hc as [_ Hc]. cbn [map validate_order_fields of_Name].
  destruct (GetFieldByName _ _); [|done]. by apply IH.
Qed.

Lemma validateOrderByFields_ok (schema : Schema) (cs : list OrderByClause) :
  forallb (clause_known schema) cs = true -> validateOrderByFields (generateOrderBy cs) schema = Ok ().
Proof.
  intros H. unfold validateOrderByFields. destruct cs as [|c [|c' cs]]; [done| |by apply (validate_order_fields_ok schema (c :: c' :: cs))].
  cbn [forallb] in H. rewrite andb_true_r in H. unfold clause_known, field_known in H. apply andb_true_iff in H as [Hne Hc].
  cbn [generateOrderBy ob_Field ob_Fields]. rewrite Hne. by destruct (GetFieldByName _ _).
Qed.

Lemma Sort_clauses (schema : Schema) (cs : list OrderByClause) (rows : list (list string)) (sfs : list sortField) :
  cs <> [] -> forallb (clause_known schema) cs = true -> order_fields (generateOrderBy cs) schema = Ok sfs ->
  Sort rows (Some (generateOrderBy cs)) schema = Ok (SliceStable (fun a b => compareRows a b sfs) rows).
Proof.
  intros Hne Hk Ho. unfold Sort. rewrite Ho. cbn [mbind result_bind].
  assert (String.eqb (ob_Field (generateOrderBy cs)) "" && Nat.eqb (length (ob_Fields (generateOrderBy cs))) 0 = false) as ->;
    [|done].
  destruct cs as [|c [|c' cs]]; [done| |done]. cbn [forallb] in Hk. unfold clause_known in Hk.
  cbn [generateOrderBy ob_Field]. by destruct (String.eqb (oc_Field c) "").
Qed.

Lemma SliceStable_nothing (rows : list (list string)) : SliceStable (fun a b => compareRows a b []) rows = rows.
Proof.
  unfold SliceStable. assert (forall l r, fold_left (fun r x => ins (fun a b => compareRows a b []) x r) l r
    = rev l ++ r) as H.
  { induction l as [|x l IH]; intros r; simpl; [done|]. rewrite IH, <- app_assoc. by destruct r. }
  by rewrite H, app_nil_r, rev_involutive.
Qed.
End Known.

(** The rows a statement selects, before pagination. *)
Lemma translated_matched {V : GoValues} {C : GoCase} (stmt : SelectStatement) (e : Expression) (q : Query)
  (rows : list (list string)) (schema : Schema) :
  ss_Where stmt = Some e -> representable e = true -> Generate stmt = Ok q -> ValidateSchema schema = Ok () ->
  (forall f, f ∈ expr_filters e -> field_known schema (fl_Field f) = true /\ filter_ok (field_map schema) f) ->
  (forall row, row ∈ rows -> row_ok (field_map schema) row) ->
  forallb (clause_known schema) (ss_OrderBy stmt) = true ->
  let filtered := List.filter (fun row => expr_sem (holds schema row) e) rows in
  exists st sfs, Forall2 (clause_field schema) (ss_OrderBy stmt) sfs /\
    matched_rows q rows schema = Ok (filtered, st,
      SliceStable (fun a b => compareRows a b sfs) filtered).
Proof.
  intros Hw Hr Hg Hs Hf Hrows Ho filtered. unfold Generate in Hg. rewrite Hw in Hg.
  destruct (generateFilters e) as [fs|] eqn:Efs; [|done]. cbn [fmap result_fmap mbind result_bind] in Hg.
  injection Hg as <-. unfold matched_rows, ValidateQuery. rewrite Hs.
  cbn [mbind result_bind q_Filters q_OrderBy opt_check].
  rewrite validateFiltersFields_ok by (intros f Hin; by eapply Hf, generateFilters_filters).
  cbn [mbind result_bind].
  destruct (apply_rows_sem schema (Some fs) rows ∅) as [st Ea].
  { intros row f Hrow Hin. unfold holds, evaluateFilter. destruct (Hf f) as [_ (i & fd & Ef & Hc)];
      [by eapply generateFilters_filters|].
    destruct (Hrows row Hrow _ _ _ Ef) as (v & Ev & Hv). rewrite Ef, Ev.
    by destruct (apply_operator_ok f v fd Hv Hc) as [b ->]. }
  assert (List.filter (fun row => filters_sem (holds schema row) (Some fs)) rows
    = List.filter (fun row => expr_sem (holds schema row) e) rows) as Ex.
  { apply filter_ext. intros row. destruct (generateFilters_sem (holds schema row) e Hr) as (fs' & E' & Hs'). congruence. }
  destruct (order_fields_clauses schema _ Ho) as (sfs & Eo & Hsf). exists st, sfs. subst filtered.
  split; [done|]. unfold run_filters, ApplyFilters. cbn [q_Filters]. rewrite Ea, Ex.
  destruct (ss_OrderBy stmt) as [|c cs] eqn:Ecs.
  - cbn [length Nat.eqb opt_check mbind result_bind Sort]. inversion Hsf; subst. by rewrite SliceStable_nothing.
  - cbn [length Nat.eqb]. unfold opt_check. rewrite (validateOrderByFields_ok schema (c :: cs) Ho).
    cbn [mbind result_bind]. by rewrite (Sort_clauses schema (c :: cs) _ sfs).
Qed.

(** ** Theorems *)

(** Sorting is correct: when the rows have values of the right type in the sort columns (an empty
    value is allowed and comes first; NaN is not), [Sort] returns a permutation of the rows, in which no
    row is less than an earlier one, and rows that compare equal keep their order. *)
Theorem sort_correct {V : GoValues} {L : GoValuesLaws V} {C : GoCase} (rows : list (list string)) (ob : OrderBy)
  (schema : Schema) (sfs : list sortField) :
  order_fields ob schema = Ok sfs -> Forall (row_sortable sfs) rows ->
  exists out, Sort rows (Some ob) schema = Ok out /\ out ≡ₚ rows /\
    StronglySorted (fun a b => (row_compare sfs a b <= 0)%Z) out /\
    (forall k, row_sortable sfs k ->
       List.filter (fun r => row_compare sfs k r =? 0)%Z out = List.filter (fun r => row_compare sfs k r =? 0)%Z rows).
Proof.
  intros Ho Hr. exists (SliceStable (fun a b => compareRows a b sfs) rows).
  pose proof (compareRows_weak_order sfs) as Hw. pose proof (row_compare_order sfs) as [Ha Ht].
  pose proof (SliceStable_perm (fun a b => compareRows a b sfs) rows) as Hperm.
  assert (forall k l, row_sortable sfs k -> Forall (row_sortable sfs) l ->
    List.filter (fun r => row_compare sfs k r =? 0)%Z l
    = List.filter (equiv_to (fun a b => compareRows a b sfs) k) l) as Heq.
  { intros k l Hk Hl. apply filter_ext_in. intros r Hin. unfold equiv_to. rewrite !compareRows_compare.
    assert (row_sortable sfs r) as Hrs by (rewrite Forall_forall in Hl; by apply Hl, list_elem_of_In).
    rewrite (Ha k r) by done. apply eq_true_iff_eq. rewrite andb_true_iff, !negb_true_iff, !Z.ltb_ge, Z.eqb_eq. lia. }
  assert (Forall (row_sortable sfs) (SliceStable (fun a b => compareRows a b sfs) rows)) as Hall by (by rewrite Hperm).
  split; [|split; [done|split]].
  - unfold Sort. destruct (String.eqb (ob_Field ob) "" && _) eqn:E.
    + apply andb_true_iff in E as [E1 E2]. unfold order_fields in Ho. rewrite E1 in Ho.
      destruct (ob_Fields ob); [|done]. injection Ho as <-. by rewrite SliceStable_nothing.
    + by rewrite Ho.
  - pose proof (SliceStable_sorted _ _ Hw rows Hr) as Hs. unfold sorted in Hs.
    clear Hperm Heq.
    induction Hs as [|a l Hs IH Hf]; [constructor|]. apply Forall_cons in Hall as [Pa Pl]. constructor; [by apply IH|].
    rewrite Forall_forall in *. intros b Hb. specialize (Hf b Hb). rewrite compareRows_compare in Hf. go_bool.
    rewrite (Ha b a) by auto. lia.
  - intros k Hk. rewrite (Heq k rows Hk Hr), (Heq k _ Hk Hall). by apply (SliceStable_stable _ _ Hw).
Qed.

Lemma sort_correct_witness :
  exists out, @Sort demo_values ascii_case [["10"]; [""]; ["9"]] (Some (MkOrderBy "id" "DESC" []))
      (Build (AddInteger NewBuilder "Id" true)) = Ok out /\ out ≡ₚ [["10"]; [""]; ["9"]] /\
    StronglySorted (fun a b => (@row_compare demo_values [MkSortField "id" 0 "DESC" (mk_field "Id" TypeInteger 0 0 0 true "")] a b <= 0)%Z) out.
Proof.
  destruct (@sort_correct demo_values demo_values_laws ascii_case [["10"]; [""]; ["9"]] (MkOrderBy "id" "DESC" [])
    (Build (AddInteger NewBuilder "Id" true)) [MkSortField "id" 0 "DESC" (mk_field "Id" TypeInteger 0 0 0 true "")])
    as (out & H1 & H2 & H3 & _); [reflexivity| |by exists out].
  repeat (constructor; [constructor; [|constructor]; eexists; split; [reflexivity|]|]); [| | |constructor].
  - right. split; [done|]. split; [by intros [H|H]|]. split; [by intros H|]. by intros [H|[H|H]].
  - by left.
  - right. split; [done|]. split; [by intros [H|H]|]. split; [by intros H|]. by intros [H|[H|H]].
Defined.

(** Paging through a result loses and repeats nothing: with a positive limit, following the next
    offset each result names until no more rows are announced collects exactly the rows of the query
    without a limit, in order, and this takes at most one more page than there are rows. *)
Theorem paging_collects_all {V : GoValues} {C : GoCase} (q : Query) (rows : list (list string)) (schema : Schema)
  (r : ExecutionResult) :
  (0 < q_Limit q <= max_int64)%Z -> (zlen rows <= max_int64)%Z ->
  Execute (Some (with_page q 0 0)) rows schema = Ok r ->
  collect_pages (S (length rows)) q rows schema 0 = Some (xr_FilteredRows r).
Proof.
  intros Hlim Hlen He. destruct (Execute_ok_matched _ _ _ _ He) as ([[filtered st] sorted] & Hm).
  rewrite (Execute_matched _ _ _ _ _ _ Hm) in He. rewrite matched_rows_page in Hm.
  pose proof (matched_rows_length _ _ _ _ _ _ Hm) as Hl.
  cbn [with_page q_Offset q_Limit] in He. change (paginate 0 0 sorted) with (@Ok ExecError _ (sorted, false, 0%Z)) in He.
  cbn [mbind result_bind] in He. injection He as <-. cbn [xr_FilteredRows].
  rewrite (collect_pages_from _ q rows filtered sorted st schema 0) by (done || (unfold zlen in *; lia)). done.
Qed.

Lemma paging_collects_all_witness :
  let q := MkQuery "TDTQL" "1.0" [] filter_demo None 1 0 in
  @collect_pages demo_values ascii_case 5 q filter_demo_rows filter_demo_schema 0
  = Some [["10"; "Kyiv"]; ["100"; "Rome"]].
Proof.
  intros q. refine (@paging_collects_all demo_values ascii_case q filter_demo_rows filter_demo_schema
    (MkExecutionResult [["10"; "Kyiv"]; ["100"; "Rome"]] _ _ _ _ _ _ _) _ _ _); [done|done|vm_compute; reflexivity].
Defined.

(** A tail limit of the smallest 64-bit integer crashes the executor: the SQL text with
    [LIMIT -9223372036854775808] is parsed and translated, negating the limit wraps around to itself, and
    the slice bound computed from it is out of range, for every table. *)
Theorem smallest_limit_panics {V : GoValues} {C : GoCase} (table : string) (rows : list (list string)) (schema : Schema) :
  name_ok table = true -> ValidateSchema schema = Ok () -> (zlen rows <= max_int64)%Z ->
  exists q, Translate (print_select (MkSelectStatement table None [] (Some min_int64) None)) = Ok q /\
    Execute (Some q) rows schema = Err Panic.
Proof.
  intros Hn Hs Hl. unfold Translate. rewrite ParseSelect_print by (unfold printable; cbn [ss_TableName]; by rewrite Hn).
  pose (q := MkQuery "TDTQL" "1.0" [] None None min_int64 0). exists q. split; [reflexivity|].
  rewrite (Execute_matched q rows schema rows rows ∅).
  - cbn [q q_Offset q_Limit]. by rewrite paginate_smallest.
  - unfold matched_rows, ValidateQuery. by rewrite Hs.
Qed.

Lemma smallest_limit_panics_witness :
  exists q, Translate "SELECT * FROM [t] LIMIT -9223372036854775808 " = Ok q /\
    @Execute demo_values ascii_case (Some q) [["1"; "x"]] filter_demo_schema = Err Panic.
Proof. apply (@smallest_limit_panics demo_values ascii_case "t" [["1"; "x"]] filter_demo_schema); reflexivity || done. Defined.
