(* ===== verification/SqlGenerator.v ===== *)
(** * SqlGenerator: from TDTQL queries to SQL text (pkg/core/tdtql/sql_generator.go, ident.go)

    The generator writes the SELECT statement that a database adapter runs.  The theorems read its output
    back with the lexical rules of standard SQL: a string literal ends at a quote that is not doubled, a
    quoted identifier at a double quote that is not doubled, anything else at a delimiter. *)

From Stdlib Require Import ZArith Lia Ascii String.
From stdpp Require Import base list strings.
From S2P Require Import Prelude Strconv PacketTypes QueryFilter.

(** ** ident.go *)

Definition HasSuffix (s : string) (c : ascii) : bool := HasPrefix (str_rev s) (chr c).

(** The parts of a name, trimmed, without their brackets: [p[1 : len(p)-1]]. *)
Definition strip_part (p : string) : string :=
  let p := TrimSpace p in
  if HasPrefix p "[" && HasSuffix p "]" then String.substring 1 (String.length p - 2) p else p.

Definition StripBrackets (name : string) : string := Join (map strip_part (Split name ".")) ".".

(** [SplitFieldList]: the loop over the bytes; [None] for [cur] while between fields, otherwise the
    field being read and whether it is bracketed. *)
Fixpoint split_fields (s : string) (cur : option (string * bool)) : list string :=
  match s, cur with
  | "", None => []
  | "", Some (w, true) => [w]
  | "", Some (w, false) => let t := TrimSpace w in if String.eqb t "" then [] else [t]
  | String c s', None =>
      if Ascii.eqb c " " || Ascii.eqb c "009" || Ascii.eqb c "," then split_fields s' None
      else if Ascii.eqb c "[" then split_fields s' (Some ("", true))
      else split_fields s' (Some (chr c, false))
  | String c s', Some (w, true) =>
      if Ascii.eqb c "]" then w :: split_fields s' None else split_fields s' (Some (w +:+ chr c, true))
  | String c s', Some (w, false) =>
      if Ascii.eqb c "," then
        let t := TrimSpace w in
        if String.eqb t "" then split_fields s' None else t :: split_fields s' None
      else split_fields s' (Some (w +:+ chr c, false))
  end.
Definition SplitFieldList (s : string) : list string := split_fields s None.

(** ** sql_generator.go *)

Definition quoteFieldName (name : string) : string :=
  if all_bytes is_word_byte name then name
  else chr DQUOTE +:+ replace_byte DQUOTE (String DQUOTE (chr DQUOTE)) name +:+ chr DQUOTE.

Definition quoteTableName (name : string) : string :=
  Join (map quoteFieldName (Split (StripBrackets name) ".")) ".".

(** The loop of [isNumeric]: [i] is the byte position, [dots] the dots seen. *)
Fixpoint numeric_loop (i dots : nat) (s : string) : bool :=
  match s with
  | "" => true
  | String c s' =>
      if Ascii.eqb c "-" && Nat.eqb i 0 then numeric_loop (S i) dots s'
      else if Ascii.eqb c "." then if 1 <? S dots then false else numeric_loop (S i) (S dots) s'
      else is_ascii_digit c && numeric_loop (S i) dots s'
  end.

Definition isNumeric (s : string) : bool :=
  negb (String.eqb s "") && numeric_loop 0 0 s
  && let stripped := TrimPrefix s "-" in negb (String.eqb stripped "") && negb (String.eqb stripped ".").

Definition escapeSQLValue (value : string) : string :=
  if String.eqb value "" then "''"
  else if isNumeric value then value
  else "'" +:+ replace_byte SQUOTE "''" value +:+ "'".

Inductive SqlError := BetweenNeedsValue2 | UnsupportedOperator (op : string).

(** The escaped elements of an IN list. *)
Definition in_literals (value : string) : string :=
  Join (map (fun v => escapeSQLValue (TrimSpace v)) (Split value ",")) ", ".

Definition generateFilterCondition (filter : Filter) : result SqlError string :=
  let field := quoteFieldName (fl_Field filter) in
  let op := fl_Operator filter in
  let v := escapeSQLValue (fl_Value filter) in
  let v2 := escapeSQLValue (fl_Value2 filter) in
  if String.eqb op "eq" then Ok (field +:+ " = " +:+ v)
  else if String.eqb op "ne" then Ok (field +:+ " != " +:+ v)
  else if String.eqb op "gt" then Ok (field +:+ " > " +:+ v)
  else if String.eqb op "gte" then Ok (field +:+ " >= " +:+ v)
  else if String.eqb op "lt" then Ok (field +:+ " < " +:+ v)
  else if String.eqb op "lte" then Ok (field +:+ " <= " +:+ v)
  else if String.eqb op "between" then
    fail_if String.eqb (fl_Value2 filter) "" with BetweenNeedsValue2 ;;
    Ok (field +:+ " BETWEEN " +:+ v +:+ " AND " +:+ v2)
  else if String.eqb op "in" then Ok (field +:+ " IN (" +:+ in_literals (fl_Value filter) +:+ ")")
  else if String.eqb op "not_in" then Ok (field +:+ " NOT IN (" +:+ in_literals (fl_Value filter) +:+ ")")
  else if String.eqb op "like" then Ok (field +:+ " LIKE " +:+ v)
  else if String.eqb op "not_like" then Ok (field +:+ " NOT LIKE " +:+ v)
  else if String.eqb op "is_null" then Ok (field +:+ " IS NULL")
  else if String.eqb op "is_not_null" then Ok (field +:+ " IS NOT NULL")
  else Err (UnsupportedOperator op).

Fixpoint filter_conditions (fs : list Filter) : result SqlError (list string) :=
  match fs with
  | [] => Ok []
  | f :: rest => c ← generateFilterCondition f; cs ← filter_conditions rest; Ok (c :: cs)
  end.

Section Groups.
Context (gen : LogicalGroup -> result SqlError string).
Fixpoint group_conditions (gs : list LogicalGroup) : result SqlError (list string) :=
  match gs with
  | [] => Ok []
  | g :: rest => c ← gen g; cs ← group_conditions rest; Ok (("(" +:+ c +:+ ")") :: cs)
  end.
End Groups.

Fixpoint generateLogicalGroup (group : LogicalGroup) (operator : string) : result SqlError string :=
  match group with
  | MkLogicalGroup fs ands ors =>
      c1 ← filter_conditions fs;
      c2 ← group_conditions (fun g => generateLogicalGroup g "AND") ands;
      c3 ← group_conditions (fun g => generateLogicalGroup g "OR") ors;
      Ok (Join (c1 ++ c2 ++ c3) (" " +:+ operator +:+ " "))
  end.

Definition generateWhereClause (filters : Filters) : result SqlError string :=
  match fs_And filters, fs_Or filters with
  | Some g, _ => generateLogicalGroup g "AND"
  | None, Some g => generateLogicalGroup g "OR"
  | None, None => Ok ""
  end.

Section Order.
Context {C : GoCase}.

Definition reverseDirection (dir : string) : string := if EqualFold dir "DESC" then "ASC" else "DESC".

(** [direction := "ASC"; if d != "" { direction = strings.ToUpper(d) }]. *)
Definition sql_direction (d : string) : string := if String.eqb d "" then "ASC" else ToUpper d.

Definition order_clause (dir : string -> string) (ob : OrderBy) : string :=
  Join ((if String.eqb (ob_Field ob) "" then [] else [quoteFieldName (ob_Field ob) +:+ " " +:+ dir (ob_Direction ob)])
    ++ map (fun f => quoteFieldName (of_Name f) +:+ " " +:+ dir (of_Direction f)) (ob_Fields ob)) ", ".

Definition generateOrderByClause (ob : OrderBy) : string := order_clause sql_direction ob.
Definition generateReversedOrderByClause (ob : OrderBy) : string := order_clause reverseDirection ob.

Definition select_part (tableName : string) (query : Query) : string :=
  "SELECT " +:+ (if Nat.eqb (length (q_Fields query)) 0 then "*" else Join (map quoteFieldName (q_Fields query)) ", ")
  +:+ " FROM " +:+ quoteTableName tableName.

Definition where_parts (query : Query) : result SqlError (list string) :=
  match q_Filters query with
  | None => Ok []
  | Some fs => w ← generateWhereClause fs; Ok (if String.eqb w "" then [] else ["WHERE " +:+ w])
  end.

Definition GenerateSQL (tableName : string) (query : option Query) : result SqlError string :=
  match query with
  | None => Ok ("SELECT * FROM " +:+ quoteTableName tableName)
  | Some q =>
      ws ← where_parts q;
      let parts := select_part tableName q :: ws in
      let orderByClause := match q_OrderBy q with Some ob => generateOrderByClause ob | None => "" end in
      let ordered := if String.eqb orderByClause "" then parts else parts ++ ["ORDER BY " +:+ orderByClause] in
      let offset_part := if (0 <? q_Offset q)%Z then ["OFFSET " +:+ Itoa (q_Offset q)] else [] in
      if (0 <? q_Limit q)%Z then Ok (Join (ordered ++ ["LIMIT " +:+ Itoa (q_Limit q)] ++ offset_part) " ")
      else if (q_Limit q <? 0)%Z then
        let n := wrap64 (- q_Limit q) in
        if negb (String.eqb orderByClause "") then
          let reversedClause := match q_OrderBy q with Some ob => generateReversedOrderByClause ob | None => "" end in
          let innerSQL := Join parts " " +:+ " ORDER BY " +:+ reversedClause +:+ " LIMIT " +:+ Itoa n in
          Ok ("SELECT * FROM (" +:+ innerSQL +:+ ") AS _tail ORDER BY " +:+ orderByClause)
        else Ok (Join (ordered ++ ["LIMIT " +:+ Itoa n] ++ offset_part) " ")
      else Ok (Join (ordered ++ offset_part) " ")
  end.
End Order.

Definition CanTranslateToSQL (query : Query) : bool := true.

(** ** Reading the text back: the lexical rules of standard SQL *)

(** The rest of a literal or identifier quoted with [q]: a doubled [q] stands for one. *)
Fixpoint read_quoted (q : ascii) (s : string) : option (string * string) :=
  match s with
  | "" => None
  | String c s' =>
      if Ascii.eqb c q then
        match s' with
        | String d s'' => if Ascii.eqb d q then prod_map (String q) id <$> read_quoted q s'' else Some ("", s')
        | "" => Some ("", "")
        end
      else prod_map (String c) id <$> read_quoted q s'
  end.

(** The longest prefix of bytes in [P]. *)
Fixpoint read_bare (P : ascii -> bool) (s : string) : string * string :=
  match s with
  | "" => ("", "")
  | String c s' => if P c then prod_map (String c) id (read_bare P s') else ("", s)
  end.

(** A token quoted with [q], or a bare one: the longest run of bytes in [P], if it is [ok]. *)
Definition read_token (q : ascii) (P : ascii -> bool) (ok : string -> bool) (s : string) : option (string * string) :=
  match s with
  | String c s' =>
      if Ascii.eqb c q then read_quoted q s'
      else let '(w, rest) := read_bare P s in if ok w then Some (w, rest) else None
  | "" => None
  end.

(** The reserved words of SQL-92. *)
Definition reserved_words : list string :=
  ["ABSOLUTE"; "ACTION"; "ADD"; "ALL"; "ALLOCATE"; "ALTER"; "AND"; "ANY"; "ARE"; "AS"; "ASC"; "ASSERTION"; "AT";
   "AUTHORIZATION"; "AVG"; "BEGIN"; "BETWEEN"; "BIT"; "BIT_LENGTH"; "BOTH"; "BY"; "CASCADE"; "CASCADED"; "CASE";
   "CAST"; "CATALOG"; "CHAR"; "CHARACTER"; "CHAR_LENGTH"; "CHARACTER_LENGTH"; "CHECK"; "CLOSE"; "COALESCE";
   "COLLATE"; "COLLATION"; "COLUMN"; "COMMIT"; "CONNECT"; "CONNECTION"; "CONSTRAINT"; "CONSTRAINTS"; "CONTINUE";
   "CONVERT"; "CORRESPONDING"; "COUNT"; "CREATE"; "CROSS"; "CURRENT"; "CURRENT_DATE"; "CURRENT_TIME";
   "CURRENT_TIMESTAMP"; "CURRENT_USER"; "CURSOR"; "DATE"; "DAY"; "DEALLOCATE"; "DEC"; "DECIMAL"; "DECLARE";
   "DEFAULT"; "DEFERRABLE"; "DEFERRED"; "DELETE"; "DESC"; "DESCRIBE"; "DESCRIPTOR"; "DIAGNOSTICS"; "DISCONNECT";
   "DISTINCT"; "DOMAIN"; "DOUBLE"; "DROP"; "ELSE"; "END"; "ESCAPE"; "EXCEPT"; "EXCEPTION"; "EXEC"; "EXECUTE";
   "EXISTS"; "EXTERNAL"; "EXTRACT"; "FALSE"; "FETCH"; "FIRST"; "FLOAT"; "FOR"; "FOREIGN"; "FOUND"; "FROM";
   "FULL"; "GET"; "GLOBAL"; "GO"; "GOTO"; "GRANT"; "GROUP"; "HAVING"; "HOUR"; "IDENTITY"; "IMMEDIATE"; "IN";
   "INDICATOR"; "INITIALLY"; "INNER"; "INPUT"; "INSENSITIVE"; "INSERT"; "INT"; "INTEGER"; "INTERSECT";
   "INTERVAL"; "INTO"; "IS"; "ISOLATION"; "JOIN"; "KEY"; "LANGUAGE"; "LAST"; "LEADING"; "LEFT"; "LEVEL"; "LIKE";
   "LOCAL"; "LOWER"; "MATCH"; "MAX"; "MIN"; "MINUTE"; "MODULE"; "MONTH"; "NAMES"; "NATIONAL"; "NATURAL";
   "NCHAR"; "NEXT"; "NO"; "NOT"; "NULL"; "NULLIF"; "NUMERIC"; "OCTET_LENGTH"; "OF"; "ON"; "ONLY"; "OPEN";
   "OPTION"; "OR"; "ORDER"; "OUTER"; "OUTPUT"; "OVERLAPS"; "PAD"; "PARTIAL"; "POSITION"; "PRECISION"; "PREPARE";
   "PRESERVE"; "PRIMARY"; "PRIOR"; "PRIVILEGES"; "PROCEDURE"; "PUBLIC"; "READ"; "REAL"; "REFERENCES";
   "RELATIVE"; "RESTRICT"; "REVOKE"; "RIGHT"; "ROLLBACK"; "ROWS"; "SCHEMA"; "SCROLL"; "SECOND"; "SECTION";
   "SELECT"; "SESSION"; "SESSION_USER"; "SET"; "SIZE"; "SMALLINT"; "SOME"; "SPACE"; "SQL"; "SQLCODE";
   "SQLERROR"; "SQLSTATE"; "SUBSTRING"; "SUM"; "SYSTEM_USER"; "TABLE"; "TEMPORARY"; "THEN"; "TIME"; "TIMESTAMP";
   "TIMEZONE_HOUR"; "TIMEZONE_MINUTE"; "TO"; "TRAILING"; "TRANSACTION"; "TRANSLATE"; "TRANSLATION"; "TRIM";
   "TRUE"; "UNION"; "UNIQUE"; "UNKNOWN"; "UPDATE"; "UPPER"; "USAGE"; "USER"; "USING"; "VALUE"; "VALUES";
   "VARCHAR"; "VARYING"; "VIEW"; "WHEN"; "WHENEVER"; "WHERE"; "WITH"; "WORK"; "WRITE"; "YEAR"; "ZONE"].

(** A regular identifier: it begins with a letter or an underscore and is not reserved, in any case. *)
Definition regular_identifier (s : string) : bool :=
  match s with
  | "" => false
  | String c _ => (is_ascii_letter c || Ascii.eqb c "_") && all_bytes is_word_byte s
                  && negb (existsb (String.eqb (map_bytes upper_byte s)) reserved_words)
  end.

(** A numeric literal: digits with at most one dot among them, after an optional minus sign. *)
Definition unsigned_number (s : string) : bool :=
  match Split s "." with
  | [a] => all_bytes is_ascii_digit a && negb (String.eqb a "")
  | [a; b] => all_bytes is_ascii_digit a && all_bytes is_ascii_digit b && negb (String.eqb a "" && String.eqb b "")
  | _ => false
  end.
Definition numeric_literal (s : string) : bool :=
  match strip_prefix "-" s with Some r => unsigned_number r | None => unsigned_number s end.

Definition is_number_byte (c : ascii) : bool := is_ascii_digit c || Ascii.eqb c "-" || Ascii.eqb c ".".
Definition read_ident : string -> option (string * string) := read_token DQUOTE is_word_byte regular_identifier.
Definition read_literal : string -> option (string * string) := read_token SQUOTE is_number_byte numeric_literal.

(** The conditions: what follows the column name, the operator it stands for, and its operands. *)
Inductive Operands := NoOperand | OneOperand | TwoOperands | OperandList.

Definition sql_operators : list (string * string * Operands) :=
  [(" = ", "eq", OneOperand); (" != ", "ne", OneOperand); (" > ", "gt", OneOperand); (" >= ", "gte", OneOperand);
   (" < ", "lt", OneOperand); (" <= ", "lte", OneOperand); (" BETWEEN ", "between", TwoOperands);
   (" IN (", "in", OperandList); (" NOT IN (", "not_in", OperandList); (" LIKE ", "like", OneOperand);
   (" NOT LIKE ", "not_like", OneOperand); (" IS NULL", "is_null", NoOperand); (" IS NOT NULL", "is_not_null", NoOperand)].

Fixpoint read_operator (ops : list (string * string * Operands)) (s : string) : option (string * Operands * string) :=
  match ops with
  | [] => None
  | (w, op, k) :: ops' => match strip_prefix w s with Some r => Some (op, k, r) | None => read_operator ops' s end
  end.

Fixpoint read_list (n : nat) (s : string) : option (list string * string) :=
  '(v, s) ← read_literal s;
  match strip_prefix ", " s with
  | None => s ← strip_prefix ")" s; Some ([v], s)
  | Some r => match n with 0 => None | S n' => prod_map (cons v) id <$> read_list n' r end
  end.

Definition read_operands (k : Operands) (s : string) : option (list string * string) :=
  match k with
  | NoOperand => Some ([], s)
  | OneOperand => '(v, s) ← read_literal s; Some ([v], s)
  | TwoOperands => '(v, s) ← read_literal s; s ← strip_prefix " AND " s; '(w, s) ← read_literal s; Some ([v; w], s)
  | OperandList => read_list (String.length s) s
  end.

Record SqlCondition := MkSqlCondition { sc_Field : string; sc_Operator : string; sc_Operands : list string }.

Definition read_condition (s : string) : option (SqlCondition * string) :=
  '(f, s) ← read_ident s;
  '(op, k, s) ← read_operator sql_operators s;
  '(vs, s) ← read_operands k s;
  Some (MkSqlCondition f op vs, s).

(** Conditions under AND, OR and parentheses, AND binding tighter. *)
Inductive SqlFormula := FCond (c : SqlCondition) | FAnd (a b : SqlFormula) | FOr (a b : SqlFormula).

Fixpoint eval_formula (ev : SqlCondition -> bool) (f : SqlFormula) : bool :=
  match f with
  | FCond c => ev c
  | FAnd a b => eval_formula ev a && eval_formula ev b
  | FOr a b => eval_formula ev a || eval_formula ev b
  end.

Abbreviation reader := (string -> option (SqlFormula * string)).

Fixpoint read_chain (p : reader) (sep : string) (op : SqlFormula -> SqlFormula -> SqlFormula) (n : nat) (s : string) :
  option (SqlFormula * string) :=
  '(f, s) ← p s;
  match strip_prefix sep s with
  | None => Some (f, s)
  | Some r => match n with 0 => None | S n' => prod_map (op f) id <$> read_chain p sep op n' r end
  end.

Definition read_primary (inner : reader) (s : string) : option (SqlFormula * string) :=
  match strip_prefix "(" s with
  | Some r => '(f, r) ← inner r; r ← strip_prefix ")" r; Some (f, r)
  | None => prod_map FCond id <$> read_condition s
  end.

Definition read_and (inner : reader) (s : string) : option (SqlFormula * string) :=
  read_chain (read_primary inner) " AND " FAnd (String.length s) s.

(** [n] bounds the nesting of parentheses. *)
Fixpoint read_or (n : nat) (s : string) : option (SqlFormula * string) :=
  match n with
  | 0 => None
  | S n' => read_chain (read_and (read_or n')) " OR " FOr (String.length s) s
  end.

Definition read_where (s : string) : option SqlFormula :=
  match read_or (S (String.length s)) s with Some (f, "") => Some f | _ => None end.

(** What a filter asks for. *)
Definition operands_of (k : Operands) (f : Filter) : list string :=
  match k with
  | NoOperand => []
  | OneOperand => [fl_Value f]
  | TwoOperands => [fl_Value f; fl_Value2 f]
  | OperandList => map TrimSpace (Split (fl_Value f) ",")
  end.

Definition condition_of (f : Filter) : SqlCondition :=
  MkSqlCondition (fl_Field f) (fl_Operator f)
    match List.find (fun x => String.eqb (snd (fst x)) (fl_Operator f)) sql_operators with
    | Some (_, _, k) => operands_of k f
    | None => []
    end.

(** Every group has a condition or a subgroup. *)
Fixpoint filled (g : LogicalGroup) : bool :=
  match g with
  | MkLogicalGroup fs ands ors =>
      (0 <? length fs + length ands + length ors) && forallb filled ands && forallb filled ors
  end.

(** A name the generator writes without quotes has to be a regular identifier. *)
Definition name_writable (name : string) : bool := negb (all_bytes is_word_byte name) || regular_identifier name.
Fixpoint names_writable (g : LogicalGroup) : bool :=
  match g with
  | MkLogicalGroup fs ands ors =>
      forallb (fun f => name_writable (fl_Field f)) fs && forallb names_writable ands && forallb names_writable ors
  end.

(** ** Tokens read back *)

(** What may follow a token: nothing, or a byte that is in no identifier, number or quote. *)
Definition delimited (s : string) : bool :=
  match s with "" => true | String c _ => Ascii.eqb c " " || Ascii.eqb c ")" || Ascii.eqb c "," end.

Lemma replace_byte_id (q : ascii) (r v : string) : has_byte q v = false -> replace_byte q r v = v.
Proof.
  induction v as [|c v IH]; [done|]. cbn [has_byte replace_byte]. intros [Hc Hv]%orb_false_iff. by rewrite Hc, IH.
Qed.

Lemma read_quoted_escaped (q : ascii) (v rest : string) :
  HasPrefix rest (chr q) = false ->
  read_quoted q (replace_byte q (String q (chr q)) v +:+ String q rest) = Some (v, rest).
Proof.
  intros Hr. induction v as [|c v IH]; cbn [replace_byte String.append read_quoted].
  - rewrite Ascii.eqb_refl. destruct rest as [|d r]; [done|]. rewrite HasPrefix_chr in Hr.
    by rewrite Ascii.eqb_sym, Hr.
  - destruct (Ascii.eqb c q) eqn:E.
    + apply Ascii.eqb_eq in E as ->. cbn [chr String.append read_quoted]. by rewrite !Ascii.eqb_refl, IH.
    + cbn [chr String.append read_quoted]. by rewrite E, IH.
Qed.

Lemma read_bare_all (P : ascii -> bool) (v rest : string) :
  all_bytes P v = true -> match rest with "" => True | String c _ => P c = false end ->
  read_bare P (v +:+ rest) = (v, rest).
Proof.
  intros Hv Hr. induction v as [|c v IH]; simpl in *.
  - destruct rest as [|c r]; [done|]. simpl. by rewrite Hr.
  - apply andb_true_iff in Hv as [-> Hv]. by rewrite IH.
Qed.

Lemma read_token_bare (q : ascii) (P : ascii -> bool) (ok : string -> bool) (v rest : string) :
  P q = false -> (forall c, Ascii.eqb c " " || Ascii.eqb c ")" || Ascii.eqb c "," = true -> P c = false /\ c <> q) ->
  all_bytes P v = true -> v <> "" -> ok v = true -> delimited rest = true ->
  read_token q P ok (v +:+ rest) = Some (v, rest).
Proof.
  intros Hq Hd Hv Hne Hok Hr.
  assert (read_bare P (v +:+ rest) = (v, rest)) as E.
  { apply read_bare_all; [done|]. destruct rest as [|c r]; [done|]. by apply Hd. }
  destruct v as [|d v]; [done|]. cbn [String.append] in *. unfold read_token. cbn [all_bytes] in Hv.
  destruct (Ascii.eqb d q) eqn:Ec; [|by rewrite E, Hok]. apply Ascii.eqb_eq in Ec as ->. by rewrite Hq in Hv.
Qed.

Lemma read_token_quoted (q : ascii) (P : ascii -> bool) (ok : string -> bool) (v rest : string) :
  HasPrefix rest (chr q) = false ->
  read_token q P ok (chr q +:+ replace_byte q (String q (chr q)) v +:+ chr q +:+ rest) = Some (v, rest).
Proof. intros H. cbn. rewrite Ascii.eqb_refl. by apply read_quoted_escaped. Qed.

Lemma delimited_head (q : ascii) (rest : string) :
  delimited (chr q) = false -> delimited rest = true -> HasPrefix rest (chr q) = false.
Proof.
  intros Hq Hr. destruct rest as [|c r]; [done|]. rewrite HasPrefix_chr. simpl in *.
  destruct (Ascii.eqb q c) eqn:E; [|done]. apply Ascii.eqb_eq in E as ->. congruence.
Qed.

Lemma delimiter_bytes (c : ascii) :
  Ascii.eqb c " " || Ascii.eqb c ")" || Ascii.eqb c "," = true -> c = " "%char \/ c = ")"%char \/ c = ","%char.
Proof. rewrite !orb_true_iff, !Ascii.eqb_eq. tauto. Qed.

Lemma read_ident_quoted (name rest : string) :
  name_writable name = true -> delimited rest = true -> read_ident (quoteFieldName name +:+ rest) = Some (name, rest).
Proof.
  unfold name_writable. intros Hn Hr. unfold read_ident, quoteFieldName. destruct (all_bytes is_word_byte name) eqn:E.
  - cbn [negb orb] in Hn. apply read_token_bare; try done; [|by intros ->].
    intros c [-> | [-> | ->]]%delimiter_bytes; done.
  - rewrite !str_app_assoc. by apply read_token_quoted, delimited_head.
Qed.

(** The loop of [isNumeric] past the first byte. *)
Lemma numeric_loop_index (i j dots : nat) (s : string) : numeric_loop (S i) dots s = numeric_loop (S j) dots s.
Proof.
  revert i j dots; induction s as [|c s IH]; intros i j dots; [done|]. cbn [numeric_loop Nat.eqb]. rewrite !andb_false_r.
  by rewrite !(IH (S i) (S j)).
Qed.

Lemma numeric_loop_one (i : nat) (s : string) : numeric_loop (S i) 1 s = true -> all_bytes is_ascii_digit s = true.
Proof.
  revert i; induction s as [|c s IH]; intros i; [done|]. cbn [numeric_loop all_bytes Nat.eqb]. rewrite andb_false_r.
  destruct (Ascii.eqb c "."); [done|]. intros [-> H]%andb_true_iff. by eapply IH.
Qed.

Lemma numeric_loop_zero (i : nat) (s : string) :
  numeric_loop (S i) 0 s = true ->
  all_bytes is_ascii_digit s = true \/
  exists a b, s = a +:+ "." +:+ b /\ all_bytes is_ascii_digit a = true /\ all_bytes is_ascii_digit b = true.
Proof.
  revert i; induction s as [|c s IH]; intros i; [by left|]. cbn [numeric_loop all_bytes Nat.eqb]. rewrite andb_false_r.
  destruct (Ascii.eqb_spec c ".") as [->|_].
  - cbn. intros H%numeric_loop_one. right. by exists "", s.
  - intros [Hd H]%andb_true_iff. rewrite Hd. apply IH in H as [H|(a & b & -> & Ha & Hb)]; [by left|]. right.
    exists (String c a), b. cbn [all_bytes]. by rewrite Hd.
Qed.

Lemma digits_no_dot (s : string) : all_bytes is_ascii_digit s = true -> has_byte "." s = false.
Proof.
  induction s as [|c s IH]; [done|]. cbn [all_bytes has_byte]. intros [Hc Hs]%andb_true_iff. rewrite IH by done.
  destruct (Ascii.eqb_spec c ".") as [->|]; [done|]. by rewrite orb_false_r.
Qed.

Lemma unsigned_number_loop (i : nat) (s : string) :
  numeric_loop (S i) 0 s = true -> s <> "" -> s <> "." -> unsigned_number s = true.
Proof.
  intros [H|(a & b & -> & Ha & Hb)]%numeric_loop_zero Hne Hnd; unfold unsigned_number.
  - change s with (Join [s] (chr ".")) at 1.
    rewrite Split_Join by (done || (repeat constructor; by apply digits_no_dot)). rewrite H.
    by apply String.eqb_neq in Hne as ->.
  - change (a +:+ "." +:+ b) with (Join [a; b] (chr ".")).
    rewrite Split_Join by (done || (repeat constructor; by apply digits_no_dot)). rewrite Ha, Hb. cbn [andb].
    destruct (String.eqb_spec a "") as [->|]; [|done]. by destruct (String.eqb_spec b "") as [->|].
Qed.

Lemma isNumeric_literal (s : string) : isNumeric s = true -> numeric_literal s = true.
Proof.
  unfold isNumeric, numeric_literal. rewrite !andb_true_iff, !negb_true_iff. intros [[Hne H] [H1 H2]].
  destruct s as [|c s]; [done|]. cbn [numeric_loop Nat.eqb] in H. rewrite andb_true_r in H.
  unfold TrimPrefix in *. destruct (Ascii.eqb_spec c "-") as [->|Hc].
  - change (strip_prefix "-" (String "-" s)) with (Some s).
    assert (HasPrefix s "" = true) as Hp by (by destruct s). cbn in H1, H2. rewrite Hp in H1, H2.
    apply String.eqb_neq in H1, H2. by apply (unsigned_number_loop 0).
  - assert (HasPrefix (String c s) "-" = false) as Hp
      by (change "-" with (chr "-"); rewrite HasPrefix_chr; apply Ascii.eqb_neq; congruence).
    rewrite Hp in H1, H2. assert (strip_prefix "-" (String c s) = None) as ->.
    { cbn [strip_prefix]. destruct (Ascii.eqb_spec "-" c); congruence. }
    apply String.eqb_neq in H1, H2. apply (unsigned_number_loop 0); [|done..]. cbn [numeric_loop Nat.eqb].
    rewrite andb_false_r, !(numeric_loop_index 1 0). exact H.
Qed.

Lemma numeric_loop_bytes (i dots : nat) (s : string) : numeric_loop i dots s = true -> all_bytes is_number_byte s = true.
Proof.
  revert i dots; induction s as [|c s IH]; intros i dots; [done|]. cbn [numeric_loop all_bytes]. unfold is_number_byte at 1.
  destruct (Ascii.eqb c "-"); simpl.
  - destruct (Nat.eqb i 0); simpl; [rewrite orb_true_r; apply IH|].
    destruct (Ascii.eqb c "."); simpl; [destruct dots; simpl; [|done]; rewrite orb_true_r; apply IH|].
    destruct (is_ascii_digit c); simpl; [apply IH|done].
  - destruct (Ascii.eqb c "."); simpl; [destruct dots; simpl; [|done]; rewrite orb_true_r; apply IH|].
    destruct (is_ascii_digit c); simpl; [apply IH|done].
Qed.

Lemma read_literal_escaped (v rest : string) :
  delimited rest = true -> read_literal (escapeSQLValue v +:+ rest) = Some (v, rest).
Proof.
  intros Hr. unfold read_literal, escapeSQLValue. destruct (String.eqb v "") eqn:Ev.
  - apply String.eqb_eq in Ev as ->. apply (read_token_quoted SQUOTE is_number_byte numeric_literal ""). by apply delimited_head.
  - destruct (isNumeric v) eqn:E.
    + apply read_token_bare; try done.
      * intros c [-> | [-> | ->]]%delimiter_bytes; done.
      * unfold isNumeric in E. rewrite !andb_true_iff in E. by eapply numeric_loop_bytes, E.
      * by apply String.eqb_neq.
      * by apply isNumeric_literal.
    + rewrite !str_app_assoc. apply (read_token_quoted SQUOTE is_number_byte numeric_literal v). by apply delimited_head.
Qed.


(** ** Conditions read back *)

Lemma read_operator_written (w op : string) (k : Operands) (rest : string) :
  (w, op, k) ∈ sql_operators -> read_operator sql_operators (w +:+ rest) = Some (op, k, rest).
Proof.
  intros H. unfold sql_operators in H. rewrite !elem_of_cons in H.
  repeat (destruct H as [[= -> -> ->]|H]; [reflexivity|]). by apply elem_of_nil in H.
Qed.

Lemma Join_length (l : list string) (sep : string) : sep <> "" -> length l <= S (String.length (Join l sep)).
Proof.
  intros Hs. induction l as [|x [|y l] IH]; [simpl; lia|simpl; lia|].
  rewrite Join_cons, !str_length_app by done. destruct sep; [done|]. cbn [length String.length] in *. lia.
Qed.

Lemma Join_member_length (l : list string) (sep x : string) : x ∈ l -> String.length x <= String.length (Join l sep).
Proof.
  induction l as [|y [|z l] IH]; intros H; [by apply elem_of_nil in H| |].
  - apply list_elem_of_singleton in H as ->. done.
  - rewrite Join_cons, !str_length_app by done. apply elem_of_cons in H as [->|H]; [lia|]. specialize (IH H). lia.
Qed.

Lemma read_list_written (vs : list string) (n : nat) (rest : string) :
  vs <> [] -> length vs <= S n -> read_list n (Join (map escapeSQLValue vs) ", " +:+ ")" +:+ rest) = Some (vs, rest).
Proof.
  intros Hne. revert n. induction vs as [|v [|w vs] IH]; intros n Hn; [done| |].
  - unfold Join; cbn [map String.concat]. destruct n; cbn [read_list]; by rewrite read_literal_escaped.
  - cbn [map]. rewrite Join_cons, !str_app_assoc by done. destruct n as [|n]; [simpl in Hn; lia|].
    cbn [read_list]. rewrite read_literal_escaped by done. cbn [mbind option_bind]. rewrite strip_prefix_app.
    cbn [map] in IH. rewrite IH; [done|done|]. simpl in *. lia.
Qed.

Definition operands_text (k : Operands) (f : Filter) : string :=
  match k with
  | NoOperand => ""
  | OneOperand => escapeSQLValue (fl_Value f)
  | TwoOperands => escapeSQLValue (fl_Value f) +:+ " AND " +:+ escapeSQLValue (fl_Value2 f)
  | OperandList => in_literals (fl_Value f) +:+ ")"
  end.

Lemma read_operands_written (k : Operands) (f : Filter) (rest : string) :
  delimited rest = true -> read_operands k (operands_text k f +:+ rest) = Some (operands_of k f, rest).
Proof.
  intros Hr. destruct k; cbn [read_operands operands_text operands_of].
  - done.
  - by rewrite read_literal_escaped.
  - rewrite !str_app_assoc, read_literal_escaped by done. cbn [mbind option_bind]. rewrite strip_prefix_app.
    cbn [mbind option_bind]. by rewrite read_literal_escaped.
  - unfold in_literals. rewrite !str_app_assoc, <- map_map. apply read_list_written.
    + intros E%map_eq_nil. by apply split_from_nonempty in E.
    + rewrite !str_length_app. pose proof (Join_length (map escapeSQLValue (map TrimSpace (Split (fl_Value f) ","))) ", ").
      rewrite !length_map in *. simpl String.length. lia || (specialize (H ltac:(done)); lia).
Qed.

(** Every condition written is a column, an operator of the table and its operands. *)
Lemma condition_written (f : Filter) (t : string) :
  generateFilterCondition f = Ok t ->
  exists w k, (w, fl_Operator f, k) ∈ sql_operators /\ t = quoteFieldName (fl_Field f) +:+ w +:+ operands_text k f
    /\ sc_Operands (condition_of f) = operands_of k f.
Proof.
  destruct f as [field op v v2]. unfold generateFilterCondition, condition_of.
  cbn [fl_Field fl_Operator fl_Value fl_Value2 sc_Operands]. intros H.
  repeat match type of H with
  | (if String.eqb op ?s then _ else _) = _ => destruct (String.eqb_spec op s) as [->|_]
  end; [..|done].
  all: try (unfold check_ in H; destruct (String.eqb v2 ""); [done|]).
  all: injection H as <-; unfold sql_operators.
  all: eexists _, _; split;
    [solve [repeat (first [apply list_elem_of_here|apply list_elem_of_further])]|split; reflexivity].
Qed.

Lemma operator_delimited (w op : string) (k : Operands) (s : string) :
  (w, op, k) ∈ sql_operators -> delimited (w +:+ s) = true.
Proof.
  intros H. unfold sql_operators in H. rewrite !elem_of_cons in H.
  repeat (destruct H as [[= -> -> ->]|H]; [reflexivity|]). by apply elem_of_nil in H.
Qed.

Lemma read_condition_written (f : Filter) (t rest : string) :
  name_writable (fl_Field f) = true -> generateFilterCondition f = Ok t -> delimited rest = true ->
  read_condition (t +:+ rest) = Some (condition_of f, rest).
Proof.
  intros Hn (w & k & Hw & -> & Hk)%condition_written Hr. unfold read_condition. rewrite !str_app_assoc.
  rewrite read_ident_quoted by (done || by eapply operator_delimited). cbn [mbind option_bind].
  rewrite (read_operator_written _ _ _ _ Hw). cbn [mbind option_bind].
  rewrite read_operands_written by done. cbn [mbind option_bind]. rewrite <- Hk. by destruct f.
Qed.

(** A condition does not begin with a parenthesis. *)
Lemma condition_no_paren (f : Filter) (t rest : string) :
  generateFilterCondition f = Ok t -> strip_prefix "(" (t +:+ rest) = None.
Proof.
  intros (w & k & Hw & -> & _)%condition_written. unfold quoteFieldName.
  assert (forall s, strip_prefix "(" (w +:+ s) = None) as Ho.
  { intros s. unfold sql_operators in Hw. rewrite !elem_of_cons in Hw.
    repeat (destruct Hw as [[= -> _ ->]|Hw]; [reflexivity|]). by apply elem_of_nil in Hw. }
  destruct (fl_Field f) as [|c n]; [cbn [all_bytes String.append]; by rewrite str_app_assoc|].
  cbn [all_bytes]. destruct (is_word_byte c) eqn:E; [|reflexivity]. cbn [andb].
  destruct (all_bytes is_word_byte n); [|reflexivity].
  cbn [String.append strip_prefix]. destruct (Ascii.eqb "(" c) eqn:Ec; [|done].
  apply Ascii.eqb_eq in Ec as <-. discriminate.
Qed.

(** ** Groups read back *)

(** [t] is read as [f] where an operand is expected. *)
Definition reads (t : string) (f : SqlFormula) : Prop :=
  forall n rest, String.length t <= n -> delimited rest = true -> read_primary (read_or n) (t +:+ rest) = Some (f, rest).

(** [t] is read as [f] between parentheses or as the whole text. *)
Definition closing (s : string) : bool := match s with "" => true | String c _ => Ascii.eqb c ")" end.
Definition reads_group (t : string) (f : SqlFormula) : Prop :=
  forall n rest, String.length t < n -> closing rest = true -> read_or n (t +:+ rest) = Some (f, rest).

Fixpoint fold_formula (op : SqlFormula -> SqlFormula -> SqlFormula) (f : SqlFormula) (fs : list SqlFormula) : SqlFormula :=
  match fs with [] => f | g :: fs' => op f (fold_formula op g fs') end.

Lemma read_chain_written (p : reader) (sep : string) op (Q : string -> bool) (t : string) (f : SqlFormula) ts fs n rest :
  Forall2 (fun t f => forall r, Q r = true -> p (t +:+ r) = Some (f, r)) (t :: ts) (f :: fs) ->
  (forall r, Q (sep +:+ r) = true) -> Q rest = true -> strip_prefix sep rest = None -> length ts <= n ->
  read_chain p sep op n (Join (t :: ts) sep +:+ rest) = Some (fold_formula op f fs, rest).
Proof.
  intros H Hs Hq Hr. revert t f fs n H. induction ts as [|t' ts IH]; intros t f fs n [Ht H]%Forall2_cons_1 Hn.
  - apply Forall2_nil_inv_l in H as ->. unfold Join; cbn [String.concat fold_formula].
    destruct n; cbn [read_chain]; rewrite Ht by done; cbn [mbind option_bind]; by rewrite Hr.
  - destruct fs as [|f' fs]; [by inversion H|]. rewrite Join_cons, !str_app_assoc by done.
    destruct n as [|n]; [simpl in Hn; lia|]. cbn [read_chain]. rewrite Ht by done. cbn [mbind option_bind].
    rewrite strip_prefix_app. rewrite (IH t' f' fs n H) by (simpl in Hn; lia). done.
Qed.

(** What ends a conjunction. *)
Definition ends_and (s : string) : bool :=
  delimited s && match strip_prefix " AND " s with None => true | Some _ => false end.

Lemma closing_ends (s : string) : closing s = true -> ends_and s = true /\ strip_prefix " OR " s = None.
Proof. destruct s as [|c s]; [done|]. simpl. intros ->%Ascii.eqb_eq. done. Qed.

Lemma read_and_written (t : string) (f : SqlFormula) ts fs n rest :
  Forall2 reads (t :: ts) (f :: fs) -> String.length (Join (t :: ts) " AND ") <= n -> ends_and rest = true ->
  read_and (read_or n) (Join (t :: ts) " AND " +:+ rest) = Some (fold_formula FAnd f fs, rest).
Proof.
  intros H Hn [Hd Ha]%andb_true_iff. apply read_chain_written with (Q := delimited); [|done|done| |].
  - apply Forall2_same_length_lookup in H as [Hl H]. apply Forall2_same_length_lookup. split; [done|].
    intros i x y Hx Hy r Hr. apply (H i x y Hx Hy); [|done].
    etrans; [apply Join_member_length, list_elem_of_lookup; eauto|]. exact Hn.
  - by destruct (strip_prefix " AND " rest).
  - rewrite str_length_app. pose proof (Join_length (t :: ts) " AND " ltac:(done)). simpl length in *. lia.
Qed.

Lemma reads_and_group (t : string) (f : SqlFormula) ts fs :
  Forall2 reads (t :: ts) (f :: fs) -> reads_group (Join (t :: ts) " AND ") (fold_formula FAnd f fs).
Proof.
  intros H n rest Hn [He Ho]%closing_ends. destruct n as [|n]; [lia|]. cbn [read_or].
  apply (read_chain_written _ " OR " FOr ends_and (Join (t :: ts) " AND ") _ [] []); try done; [|simpl; lia].
  repeat constructor. intros r Hr. apply read_and_written; [done|lia|done].
Qed.

Lemma reads_or_group (t : string) (f : SqlFormula) ts fs :
  Forall2 reads (t :: ts) (f :: fs) -> reads_group (Join (t :: ts) " OR ") (fold_formula FOr f fs).
Proof.
  intros H n rest Hn [He Ho]%closing_ends. destruct n as [|n]; [lia|]. cbn [read_or].
  apply read_chain_written with (Q := ends_and); try done.
  - apply Forall2_same_length_lookup in H as [Hl H]. apply Forall2_same_length_lookup. split; [done|].
    intros i x y Hx Hy r Hr. apply (read_and_written x y [] []); [|cbn|done].
    + constructor; [by apply (H i)|constructor].
    + enough (String.length x <= String.length (Join (t :: ts) " OR ")) by (unfold Join; cbn [String.concat] in *; lia).
      apply Join_member_length, list_elem_of_lookup. eauto.
  - rewrite str_length_app. pose proof (Join_length (t :: ts) " OR " ltac:(done)). simpl length in *. lia.
Qed.

Lemma reads_parens (t : string) (f : SqlFormula) : reads_group t f -> reads ("(" +:+ t +:+ ")") f.
Proof.
  intros H n rest Hn Hr. rewrite !str_app_assoc. unfold read_primary. rewrite strip_prefix_app, H; [done| |done].
  rewrite !str_length_app in Hn. simpl in Hn. lia.
Qed.

Lemma eval_fold_and ev f fs : eval_formula ev (fold_formula FAnd f fs) = forallb (eval_formula ev) (f :: fs).
Proof.
  revert f; induction fs as [|g fs IH]; intros f; cbn [fold_formula forallb]; [by rewrite andb_true_r|].
  cbn [eval_formula]. by rewrite IH.
Qed.

Lemma eval_fold_or ev f fs : eval_formula ev (fold_formula FOr f fs) = existsb (eval_formula ev) (f :: fs).
Proof.
  revert f; induction fs as [|g fs IH]; intros f; cbn [fold_formula existsb]; [by rewrite orb_false_r|].
  cbn [eval_formula]. by rewrite IH.
Qed.

(** The texts [ts] are read as operands with the truth values [sem]. *)
Definition operands_mean (ts : list string) (sem : (Filter -> bool) -> list bool) : Prop :=
  exists fs, Forall2 reads ts fs /\ forall ev, map (eval_formula ev) fs = sem (fun f => ev (condition_of f)).

Lemma operands_mean_app ts1 ts2 s1 s2 :
  operands_mean ts1 s1 -> operands_mean ts2 s2 -> operands_mean (ts1 ++ ts2) (fun ev => s1 ev ++ s2 ev).
Proof.
  intros (f1 & H1 & E1) (f2 & H2 & E2). exists (f1 ++ f2). split; [by apply Forall2_app|].
  intros ev. by rewrite map_app, E1, E2.
Qed.

Lemma filters_mean (fs : list Filter) ts :
  forallb (fun f => name_writable (fl_Field f)) fs = true -> filter_conditions fs = Ok ts -> operands_mean ts (fun ev => map ev fs).
Proof.
  revert ts; induction fs as [|f fs IH]; intros ts Hn; cbn [filter_conditions].
  - intros [= <-]. by exists [].
  - cbn [forallb] in Hn. apply andb_true_iff in Hn as [Hf Hn].
    destruct (generateFilterCondition f) as [t|] eqn:Ef; [|done]. cbn [mbind result_bind].
    destruct (filter_conditions fs) as [us|]; [|done]. cbn [mbind result_bind]. intros [= <-].
    destruct (IH us Hn eq_refl) as (gs & Hg & Eg). exists (FCond (condition_of f) :: gs). split.
    + constructor; [|done]. intros n rest _ Hr. unfold read_primary. rewrite (condition_no_paren f t rest Ef).
      by rewrite (read_condition_written f t rest Hf Ef Hr).
    + intros ev. cbn [map eval_formula]. by rewrite Eg.
Qed.

(** The text of a filled group is read with the group's meaning. *)
Definition group_mean (conj : bool) (g : LogicalGroup) : Prop :=
  forall t, filled g = true -> names_writable g = true -> generateLogicalGroup g (if conj then "AND" else "OR") = Ok t ->
  exists f, reads_group t f /\ forall ev, eval_formula ev f = group_sem (fun c => ev (condition_of c)) conj g.

Lemma groups_mean (conj : bool) (gs : list LogicalGroup) ts :
  Forall (group_mean conj) gs -> forallb filled gs = true -> forallb names_writable gs = true ->
  group_conditions (fun g => generateLogicalGroup g (if conj then "AND" else "OR")) gs = Ok ts ->
  operands_mean ts (fun ev => map (group_sem ev conj) gs).
Proof.
  intros H. revert ts. induction H as [|g gs Hg _ IH]; intros ts Hf Hn; cbn [group_conditions].
  - intros [= <-]. by exists [].
  - cbn [forallb] in Hf, Hn. apply andb_true_iff in Hf as [Hf1 Hf2], Hn as [Hn1 Hn2].
    destruct (generateLogicalGroup g _) as [t|] eqn:Eg; [|done]. cbn [mbind result_bind].
    destruct (group_conditions _ gs) as [us|]; [|done]. cbn [mbind result_bind]. intros [= <-].
    destruct (Hg t Hf1 Hn1 Eg) as (f & Hr & Ev), (IH us Hf2 Hn2 eq_refl) as (fs & Hfs & Es).
    exists (f :: fs). split; [constructor; [by apply reads_parens|done]|]. intros ev. cbn [map]. by rewrite Ev, Es.
Qed.

Lemma forallb_map_id {A} (p : A -> bool) (l : list A) : forallb id (map p l) = forallb p l.
Proof. induction l as [|x l IH]; simpl; [done|]. by rewrite IH. Qed.
Lemma existsb_map_id {A} (p : A -> bool) (l : list A) : existsb id (map p l) = existsb p l.
Proof. induction l as [|x l IH]; simpl; [done|]. by rewrite IH. Qed.

Lemma operands_group_mean (conj : bool) ts sem :
  ts <> [] -> operands_mean ts sem ->
  exists f, reads_group (Join ts (if conj then " AND " else " OR ")) f
    /\ forall ev, eval_formula ev f = (if conj then forallb id else existsb id) (sem (fun c => ev (condition_of c))).
Proof.
  intros Hne (fs & H & E). destruct ts as [|t ts]; [done|]. destruct fs as [|f fs]; [by inversion H|]. destruct conj.
  - exists (fold_formula FAnd f fs). split; [by apply reads_and_group|]. intros ev.
    by rewrite eval_fold_and, <- E, forallb_map_id.
  - exists (fold_formula FOr f fs). split; [by apply reads_or_group|]. intros ev.
    by rewrite eval_fold_or, <- E, existsb_map_id.
Qed.

Lemma operands_mean_length ts sem : operands_mean ts sem -> length ts = length (sem (fun _ => true)).
Proof. intros (fs & H & E). rewrite <- (E (fun _ => true)), length_map. by eapply Forall2_length. Qed.

Lemma generated_group_mean (g : LogicalGroup) : group_mean true g /\ group_mean false g.
Proof.
  induction g as [fs ands ors IHa IHo] using LogicalGroup_rect'.
  apply Forall_and in IHa as [IHa _], IHo as [_ IHo].
  enough (forall conj, group_mean conj (MkLogicalGroup fs ands ors)) by done. intros conj t Hf Hw Hg.
  cbn [names_writable] in Hw. rewrite !andb_true_iff in Hw. destruct Hw as [[Hwf Hwa] Hwo]. cbn [filled] in Hf. apply andb_true_iff in Hf as [[Hn Ha]%andb_true_iff Ho]. apply Nat.ltb_lt in Hn.
  cbn [generateLogicalGroup] in Hg.
  destruct (filter_conditions fs) as [t1|] eqn:E1; [|done]. cbn [mbind result_bind] in Hg.
  destruct (group_conditions _ ands) as [t2|] eqn:E2; [|done]. cbn [mbind result_bind] in Hg.
  destruct (group_conditions _ ors) as [t3|] eqn:E3; [|done]. cbn [mbind result_bind] in Hg. injection Hg as <-.
  assert (Hm := operands_mean_app _ _ _ _ (filters_mean _ _ Hwf E1)
    (operands_mean_app _ _ _ _ (groups_mean true _ _ IHa Ha Hwa E2) (groups_mean false _ _ IHo Ho Hwo E3))).
  assert (t1 ++ t2 ++ t3 <> []) as Hne.
  { intros E. apply operands_mean_length in Hm. rewrite E, !length_app, !length_map in Hm. simpl in Hm. lia. }
  destruct (operands_group_mean conj _ _ Hne Hm) as (f & Hr & Ev). exists f.
  split; [by destruct conj|]. intros ev. rewrite Ev. destruct conj; cbn [group_sem];
    by rewrite ?forallb_app, ?existsb_app, ?forallb_map_id, ?existsb_map_id.
Qed.

Lemma read_where_group (conj : bool) (g : LogicalGroup) (w : string) :
  filled g = true -> names_writable g = true -> generateLogicalGroup g (if conj then "AND" else "OR") = Ok w ->
  exists f, read_where w = Some f /\ forall ev, eval_formula ev f = group_sem (fun c => ev (condition_of c)) conj g.
Proof.
  intros Hf Hn Hg. destruct (generated_group_mean g) as [Ht Hb].
  assert (group_mean conj g) as Hm by (by destruct conj). destruct (Hm w Hf Hn Hg) as (f & Hr & Ev).
  exists f. split; [|done]. unfold read_where. specialize (Hr (S (String.length w)) "" ltac:(lia) eq_refl).
  rewrite str_app_nil_r in Hr. by rewrite Hr.
Qed.

(** ** Properties *)

(** C5. The WHERE clause means the filters and nothing else: whatever bytes the values contain (quotes,
    parentheses, keywords), reading the generated text with the lexical rules of standard SQL, AND binding
    tighter than OR, gives a formula over exactly the conditions of the filters, and the formula has the
    truth value of the filters under every interpretation of the conditions.  A column name with a byte
    other than an ASCII letter, a digit or an underscore is written in quotes and may be anything; a name of
    such bytes only is written bare, and has to be a regular identifier: not empty, not beginning with a
    digit, not a reserved word of SQL (the condition IS NULL on a column named NULL becomes [NULL IS NULL],
    which holds of every row).  The groups must not be empty: an empty group inside another is written as
    two parentheses, which is no SQL. *)
Theorem where_clause_means_filters (filters : Filters) (w : string) :
  match fs_And filters, fs_Or filters with
  | Some g, _ | None, Some g => filled g && names_writable g
  | None, None => false
  end = true ->
  generateWhereClause filters = Ok w ->
  exists f, read_where w = Some f
    /\ forall ev, eval_formula ev f = filters_sem (fun c => ev (condition_of c)) (Some filters).
Proof.
  unfold generateWhereClause, filters_sem. destruct filters as [[g|] [h|]]; cbn [fs_And fs_Or]; intros Hf Hw; try done;
    apply andb_true_iff in Hf as [Hf Hn];
    [by apply (read_where_group true)|by apply (read_where_group true)|by apply (read_where_group false)].
Qed.

Definition where_sql_demo : Filters :=
  MkFilters (Some (MkLogicalGroup [MkFilter "name" "eq" "O'Brien' OR '1'='1" ""; MkFilter "a (b" "in" "1, x" ""]
    [] [MkLogicalGroup [MkFilter "n" "between" "-1.5" "2"; MkFilter "z" "is_null" "" ""] [] []])) None.

Lemma where_clause_means_filters_witness :
  let w := "name = 'O''Brien'' OR ''1''=''1' AND " +:+ chr DQUOTE +:+ "a (b" +:+ chr DQUOTE
    +:+ " IN (1, 'x') AND (n BETWEEN -1.5 AND 2 OR z IS NULL)" in
  generateWhereClause where_sql_demo = Ok w
  /\ exists f, read_where w = Some f
    /\ forall ev, eval_formula ev f = filters_sem (fun c => ev (condition_of c)) (Some where_sql_demo).
Proof. intros w. split; [reflexivity|]. apply (where_clause_means_filters where_sql_demo w); reflexivity. Defined.

(** In tail mode (a negative limit) with an ORDER BY the offset is not in the text: queries that differ only
    in their offset get the same SQL, while the executor skips the offset before it takes the tail. *)
Theorem tail_sql_ignores_offset `{C : GoCase} (table : string) (q : Query) (offset : Z) :
  (q_Limit q < 0)%Z ->
  match q_OrderBy q with Some ob => generateOrderByClause ob | None => "" end <> "" ->
  GenerateSQL table (Some (MkQuery (q_Language q) (q_Version q) (q_Fields q) (q_Filters q) (q_OrderBy q) (q_Limit q) offset))
  = GenerateSQL table (Some q).
Proof.
  intros Hl Ho. unfold GenerateSQL, where_parts, select_part. cbn [q_Filters q_OrderBy q_Limit q_Offset q_Fields].
  destruct (match q_Filters q with Some _ => _ | None => _ end); [|done]. cbn [mbind result_bind].
  rewrite (proj2 (Z.ltb_ge 0 (q_Limit q))), (proj2 (Z.ltb_lt (q_Limit q) 0)) by lia.
  by rewrite (proj2 (String.eqb_neq _ _) Ho).
Qed.
