(* ===== verification/CircuitBreaker.v ===== *)
(** * CircuitBreaker: protection against cascading failures (pkg/resilience)

    [beforeRequest], [afterRequest] and [reset] run under the manager's mutex, so each is one atomic step;
    the protected function runs between the first two, outside the lock, and calls of different goroutines
    interleave there.  [cb_step] is that interleaving: a world is the manager, the calls in flight (each
    with the generation it was given) and the clock.  A clock is passed to each operation as the sequence
    of its [time.Now()] readings, in nanoseconds. *)

From Stdlib Require Import ZArith Lia String.
From stdpp Require Import base list gmap strings.
From S2P Require Import Prelude.

Open Scope Z_scope.

(** ** config.go *)

Inductive State := StateClosed | StateHalfOpen | StateOpen.

#[global] Instance State_eq_dec : EqDecision State.
Proof. solve_decision. Defined.
#[global] Instance State_countable : Countable State.
Proof.
  refine (inj_countable' (fun s => match s with StateClosed => 0%nat | StateHalfOpen => 1%nat | StateOpen => 2%nat end)
    (fun n => match n with 0%nat => StateClosed | 1%nat => StateHalfOpen | _ => StateOpen end) _).
  by intros [].
Defined.

(** [uint32] counters. *)
Record Counts := MkCounts {
  Requests : Z;
  TotalSuccesses : Z;
  TotalFailures : Z;
  ConsecutiveSuccesses : Z;
  ConsecutiveFailures : Z;
}.
Definition zero_counts : Counts := MkCounts 0 0 0 0 0.

(** Increments of [uint32] and [uint64] wrap around. *)
Definition inc32 (x : Z) : Z := (x + 1) mod 2 ^ 32.
Definition inc64u (x : Z) : Z := (x + 1) mod 2 ^ 64.

(** [cf_OnStateChange] says whether a callback is set; [cf_ShouldTrip] is the custom condition. *)
Record BreakerConfig := MkBreakerConfig {
  cf_Enabled : bool;
  cf_Name : string;
  cf_MaxFailures : Z;
  cf_Timeout : Z;
  cf_MaxConcurrentCalls : Z;
  cf_SuccessThreshold : Z;
  cf_OnStateChange : bool;
  cf_ShouldTrip : option (Counts -> bool);
}.

Inductive ConfigError := MaxFailuresZero | TimeoutNotPositive.

(** [Validate] returns the configuration with its defaults filled in. *)
Definition Validate (c : BreakerConfig) : result ConfigError BreakerConfig :=
  fail_if cf_MaxFailures c =? 0 with MaxFailuresZero ;;
  fail_if cf_Timeout c <=? 0 with TimeoutNotPositive ;;
  Ok (MkBreakerConfig (cf_Enabled c) (if String.eqb (cf_Name c) "" then "circuit-breaker" else cf_Name c)
    (cf_MaxFailures c) (cf_Timeout c) (cf_MaxConcurrentCalls c)
    (if cf_SuccessThreshold c =? 0 then 1 else cf_SuccessThreshold c) (cf_OnStateChange c) (cf_ShouldTrip c)).

Definition second : Z := 1000000000.
Definition DefaultConfig (name : string) : BreakerConfig := MkBreakerConfig true name 5 (60 * second) 0 2 false None.
Definition AggressiveConfig (name : string) : BreakerConfig := MkBreakerConfig true name 3 (30 * second) 100 3 false None.
Definition ConservativeConfig (name : string) : BreakerConfig := MkBreakerConfig true name 10 (120 * second) 0 5 false None.

(** ** state.go *)

Record stateManager := MkStateManager {
  sm_state : State;
  sm_generation : Z;
  sm_counts : Counts;
  sm_expiry : Z;
  sm_runningCalls : Z;
  sm_maxRunningCalls : Z;
  sm_lastStateChange : Z;
  sm_stateChanges : gmap State Z;
}.

(** [time.Time{}], the first instant of year 1, in nanoseconds from the Unix epoch. *)
Definition zero_time : Z := -62135596800 * second.

Definition newStateManager (now : Z) : stateManager := MkStateManager StateClosed 0 zero_counts zero_time 0 0 now ∅.

Inductive BreakerError := ErrCircuitOpen | ErrTooManyCalls | ErrCall (msg : string).

(** A change of state: new generation, counters cleared, the change recorded at time [now]. *)
Definition change_state (sm : stateManager) (s : State) (now expiry : Z) : stateManager :=
  MkStateManager s (inc64u (sm_generation sm)) zero_counts expiry (sm_runningCalls sm) (sm_maxRunningCalls sm) now
    (<[s := default 0 (sm_stateChanges sm !! s) + 1]> (sm_stateChanges sm)).

Definition with_counts (sm : stateManager) (c : Counts) : stateManager :=
  MkStateManager (sm_state sm) (sm_generation sm) c (sm_expiry sm) (sm_runningCalls sm) (sm_maxRunningCalls sm)
    (sm_lastStateChange sm) (sm_stateChanges sm).
Definition with_running (sm : stateManager) (n m : Z) : stateManager :=
  MkStateManager (sm_state sm) (sm_generation sm) (sm_counts sm) (sm_expiry sm) n m
    (sm_lastStateChange sm) (sm_stateChanges sm).

(** The callbacks started, as (from, to). *)
Definition notify (cfg : BreakerConfig) (old new : State) : list (State * State) :=
  if cf_OnStateChange cfg then [(old, new)] else [].

(** [state == StateOpen]. *)
Definition is_open (s : State) : bool := match s with StateOpen => true | _ => false end.

Lemma is_open_spec (s : State) : reflect (s = StateOpen) (is_open s).
Proof. by destruct s; constructor. Qed.

Section Manager.
Context (cfg : BreakerConfig).

Definition beforeRequest (clock : nat -> Z) (sm : stateManager) :
  stateManager * list (State * State) * result BreakerError Z :=
  let '(sm, ev) :=
    if is_open (sm_state sm) && (sm_expiry sm <? clock 0%nat)
    then (change_state sm StateHalfOpen (clock 1%nat) (sm_expiry sm), notify cfg StateOpen StateHalfOpen)
    else (sm, []) in
  if is_open (sm_state sm) then (sm, ev, Err ErrCircuitOpen)
  else if (0 <? cf_MaxConcurrentCalls cfg) && (cf_MaxConcurrentCalls cfg <=? sm_runningCalls sm)
  then (sm, ev, Err ErrTooManyCalls)
  else
    let n := inc32 (sm_runningCalls sm) in
    (with_running sm n (if sm_maxRunningCalls sm <? n then n else sm_maxRunningCalls sm), ev, Ok (sm_generation sm)).

Definition shouldTrip (c : Counts) : bool :=
  match cf_ShouldTrip cfg with
  | Some f => f c
  | None => cf_MaxFailures cfg <=? ConsecutiveFailures c
  end.

Definition onSuccess (clock : nat -> Z) (sm : stateManager) : stateManager * list (State * State) :=
  let c := sm_counts sm in
  let c := MkCounts (inc32 (Requests c)) (inc32 (TotalSuccesses c)) (TotalFailures c) (inc32 (ConsecutiveSuccesses c)) 0 in
  let sm := with_counts sm c in
  match sm_state sm with
  | StateHalfOpen =>
      if cf_SuccessThreshold cfg <=? ConsecutiveSuccesses c
      then (change_state sm StateClosed (clock 0%nat) (sm_expiry sm), notify cfg StateHalfOpen StateClosed)
      else (sm, [])
  | _ => (sm, [])
  end.

Definition onFailure (clock : nat -> Z) (sm : stateManager) : stateManager * list (State * State) :=
  let c := sm_counts sm in
  let c := MkCounts (inc32 (Requests c)) (TotalSuccesses c) (inc32 (TotalFailures c)) 0 (inc32 (ConsecutiveFailures c)) in
  let sm := with_counts sm c in
  let needStateChange := match sm_state sm with
    | StateClosed => shouldTrip c
    | StateHalfOpen => true
    | StateOpen => false
    end in
  if needStateChange
  then (change_state sm StateOpen (clock 0%nat) (clock 1%nat + cf_Timeout cfg), notify cfg (sm_state sm) StateOpen)
  else (sm, []).

Definition afterRequest (clock : nat -> Z) (generation : Z) (success : bool) (sm : stateManager) :
  stateManager * list (State * State) :=
  let sm := if 0 <? sm_runningCalls sm then with_running sm (sm_runningCalls sm - 1) (sm_maxRunningCalls sm) else sm in
  if negb (generation =? sm_generation sm) then (sm, [])
  else if success then onSuccess clock sm else onFailure clock sm.

Definition reset (now : Z) (sm : stateManager) : stateManager :=
  MkStateManager StateClosed (inc64u (sm_generation sm)) zero_counts zero_time 0 (sm_maxRunningCalls sm) now
    (sm_stateChanges sm).

Definition timeUntilHalfOpen (now : Z) (sm : stateManager) : Z :=
  if is_open (sm_state sm) then Z.max 0 (sm_expiry sm - now) else 0.

(** ** circuit_breaker.go *)

(** How the protected function ends: it returns an error or nil, or panics. *)
Inductive Outcome := Returned (err : option BreakerError) | Panicked.
Definition succeeded (o : Outcome) : bool := match o with Returned None => true | _ => false end.

(** A call that runs alone: [c1] and [c2] are the clocks of the two steps, [fn] what the function does.
    The boolean says whether the function ran. *)
Definition cb_Execute (c1 c2 : nat -> Z) (fn : Outcome) (sm : stateManager) :
  stateManager * list (State * State) * (bool * Outcome) :=
  if negb (cf_Enabled cfg) then (sm, [], (true, fn))
  else
    match beforeRequest c1 sm with
    | (sm, ev, Err e) => (sm, ev, (false, Returned (Some e)))
    | (sm, ev, Ok generation) =>
        let '(sm, ev') := afterRequest c2 generation (succeeded fn) sm in (sm, ev ++ ev', (true, fn))
    end.

Definition is_breaker_error (o : Outcome) : bool :=
  match o with Returned (Some ErrCircuitOpen) | Returned (Some ErrTooManyCalls) => true | _ => false end.

Definition ExecuteWithFallback (c1 c2 : nat -> Z) (fn : Outcome) (fallback : option Outcome) (sm : stateManager) :
  stateManager * list (State * State) * Outcome :=
  let '(sm, ev, (_, o)) := cb_Execute c1 c2 fn sm in
  match fallback with
  | Some f => (sm, ev, if is_breaker_error o then f else o)
  | None => (sm, ev, o)
  end.

Definition IsOpen (sm : stateManager) : bool := is_open (sm_state sm).

(** The boolean of the result says whether the primary function ran. *)
Definition ExecuteWithImmediateFallback (c1 c2 : nat -> Z) (fn : Outcome) (fallback : option Outcome)
  (sm : stateManager) : stateManager * list (State * State) * (bool * Outcome) :=
  if IsOpen sm then
    (sm, [], (false, match fallback with Some f => f | None => Returned (Some ErrCircuitOpen) end))
  else
    let '(sm, ev, (ran, o)) := cb_Execute c1 c2 fn sm in
    match o, fallback with
    | Returned (Some _), Some f => (sm, ev, (ran, f))
    | _, _ => (sm, ev, (ran, o))
    end.
End Manager.

(** ** Interleaved calls *)

Record world := MkWorld { w_sm : stateManager; w_calls : list Z; w_now : Z }.

(** The readings of one operation lie between the world's clock before and after it. *)
Definition clock_between (t t' : Z) (clock : nat -> Z) : Prop := t <= t' /\ forall k, t <= clock k <= t'.

Inductive label := LBegin | LReject (e : BreakerError) | LEnd (success : bool) | LReset.

Inductive cb_step (cfg : BreakerConfig) : world -> label -> world -> Prop :=
  | step_begin clock sm sm' ev g calls t t' :
      clock_between t t' clock -> beforeRequest cfg clock sm = (sm', ev, Ok g) ->
      cb_step cfg (MkWorld sm calls t) LBegin (MkWorld sm' (calls ++ [g]) t')
  | step_reject clock sm sm' ev e calls t t' :
      clock_between t t' clock -> beforeRequest cfg clock sm = (sm', ev, Err e) ->
      cb_step cfg (MkWorld sm calls t) (LReject e) (MkWorld sm' calls t')
  | step_end clock sm sm' ev success g calls1 calls2 t t' :
      clock_between t t' clock -> afterRequest cfg clock g success sm = (sm', ev) ->
      cb_step cfg (MkWorld sm (calls1 ++ g :: calls2) t) (LEnd success) (MkWorld sm' (calls1 ++ calls2) t')
  | step_reset clock sm calls t t' :
      clock_between t t' clock ->
      cb_step cfg (MkWorld sm calls t) LReset (MkWorld (reset (clock 0%nat) sm) calls t').

(** Runs without a reset. *)
Inductive cb_run (cfg : BreakerConfig) : world -> world -> Prop :=
  | run_refl w : cb_run cfg w w
  | run_step w1 w2 w3 l : cb_run cfg w1 w2 -> cb_step cfg w2 l w3 -> l <> LReset -> cb_run cfg w1 w3.

Definition initial (now : Z) : world := MkWorld (newStateManager now) [] now.

(** ** Lemmas *)

Lemma after_running (cfg : BreakerConfig) clock g success sm sm' ev :
  afterRequest cfg clock g success sm = (sm', ev) ->
  sm_runningCalls sm' = if 0 <? sm_runningCalls sm then sm_runningCalls sm - 1 else sm_runningCalls sm.
Proof.
  unfold afterRequest, onSuccess, onFailure. intros H.
  destruct (0 <? sm_runningCalls sm); repeat case_match; by simplify_eq/=.
Qed.

Lemma before_ok (cfg : BreakerConfig) clock sm sm' ev g :
  beforeRequest cfg clock sm = (sm', ev, Ok g) ->
  sm_runningCalls sm' = inc32 (sm_runningCalls sm) /\ sm_state sm' <> StateOpen
  /\ (sm_state sm = StateOpen -> sm_expiry sm < clock 0%nat)
  /\ (0 < cf_MaxConcurrentCalls cfg -> sm_runningCalls sm < cf_MaxConcurrentCalls cfg).
Proof.
  unfold beforeRequest. intros H.
  destruct (is_open_spec (sm_state sm)) as [Es|Es]; simpl in H.
  - destruct (Z.ltb_spec (sm_expiry sm) (clock 0%nat)); simpl in H.
    + destruct (0 <? _) eqn:E1; simpl in H; [destruct (_ <=? _) eqn:E2; simpl in H|]; simplify_eq/=; repeat split; try done; lia.
    + by rewrite Es in H.
  - destruct (is_open_spec (sm_state sm)); [done|].
    destruct (0 <? _) eqn:E1; simpl in H; [destruct (_ <=? _) eqn:E2; simpl in H|]; simplify_eq/=; repeat split; try done; lia.
Qed.

Lemma before_err (cfg : BreakerConfig) clock sm sm' ev e :
  beforeRequest cfg clock sm = (sm', ev, Err e) ->
  sm_runningCalls sm' = sm_runningCalls sm
  /\ (sm_state sm = StateOpen -> sm' = sm \/ sm_expiry sm < clock 0%nat).
Proof.
  unfold beforeRequest. intros H.
  destruct (is_open_spec (sm_state sm)) as [Es|Es]; simpl in H.
  - destruct (Z.ltb_spec (sm_expiry sm) (clock 0%nat)); simpl in H.
    + destruct (_ && _); simplify_eq/=. auto.
    + rewrite Es in H. simplify_eq/=. auto.
  - destruct (is_open_spec (sm_state sm)); [done|]. destruct (_ && _); simplify_eq/=; auto.
Qed.

(** A late result leaves an open breaker open, with its expiry. *)
Lemma after_open (cfg : BreakerConfig) clock g success sm sm' ev :
  afterRequest cfg clock g success sm = (sm', ev) -> sm_state sm = StateOpen ->
  sm_state sm' = StateOpen /\ sm_expiry sm' = sm_expiry sm.
Proof.
  unfold afterRequest, onSuccess, onFailure. intros H Hs.
  destruct (0 <? sm_runningCalls sm); simpl in H; destruct (negb _); simplify_eq/=; auto;
    destruct success; simpl in H; rewrite Hs in H; by simplify_eq/=.
Qed.

(** The step that opens the breaker sets the expiry. *)
Lemma after_trips (cfg : BreakerConfig) clock g success sm sm' ev :
  afterRequest cfg clock g success sm = (sm', ev) -> sm_state sm <> StateOpen -> sm_state sm' = StateOpen ->
  sm_expiry sm' = clock 1%nat + cf_Timeout cfg.
Proof.
  unfold afterRequest, onSuccess, onFailure. intros H Hs Hs'.
  destruct (0 <? sm_runningCalls sm); simpl in H; repeat case_match; simplify_eq/=; done || congruence.
Qed.

Lemma running_counts_calls (cfg : BreakerConfig) (now : Z) (w : world) :
  0 < cf_MaxConcurrentCalls cfg < 2 ^ 32 -> cb_run cfg (initial now) w ->
  sm_runningCalls (w_sm w) = Z.of_nat (length (w_calls w)) /\ Z.of_nat (length (w_calls w)) <= cf_MaxConcurrentCalls cfg.
Proof.
  intros Hm. remember (initial now) as w0. induction 1 as [|w1 w2 w3 l _ IH Hs Hl]; subst; [simpl; lia|].
  specialize (IH eq_refl). destruct Hs as [clock sm sm' ev g calls t t' _ H|clock sm sm' ev e calls t t' _ H
    |clock sm sm' ev success g calls1 calls2 t t' _ H|]; cbn [w_sm w_calls] in *; [| | |done].
  - apply before_ok in H as (Hr & _ & _ & Hlt). specialize (Hlt ltac:(lia)).
    rewrite length_app. simpl. rewrite Hr. unfold inc32. rewrite Z.mod_small; lia.
  - apply before_err in H as [-> _]. done.
  - apply after_running in H as ->. rewrite !length_app in *. simpl in IH.
    destruct (0 <? sm_runningCalls sm) eqn:E; [lia|]. apply Z.ltb_ge in E. lia.
Qed.

(** From an open breaker, until its expiry has passed, it stays as it is. *)
Lemma open_until_expiry (cfg : BreakerConfig) (w1 w2 : world) :
  cb_run cfg w1 w2 -> sm_state (w_sm w1) = StateOpen ->
  (sm_state (w_sm w2) = StateOpen /\ sm_expiry (w_sm w2) = sm_expiry (w_sm w1)) \/ sm_expiry (w_sm w1) < w_now w2.
Proof.
  intros H Hs. induction H as [|w1 w2 w3 l _ IH Hstep Hl]; [auto|]. specialize (IH Hs).
  destruct Hstep as [clock sm sm' ev g calls t t' [Ht Hc] H|clock sm sm' ev e calls t t' [Ht Hc] H
    |clock sm sm' ev success g calls1 calls2 t t' [Ht Hc] H|]; cbn [w_sm w_now] in *; [| | |done];
    (destruct IH as [[Ho He]|IH]; [|right; lia]).
  - apply before_ok in H as (_ & _ & Hx & _). specialize (Hx Ho). specialize (Hc 0%nat). right. lia.
  - apply before_err in H as [_ Hx]. destruct (Hx Ho) as [-> |Hx']; [auto|]. specialize (Hc 0%nat). right. lia.
  - apply after_open in H as [-> ->]; auto.
Qed.

(** ** Calls one after another *)

Record call := MkCall { call_before : nat -> Z; call_after : nat -> Z; call_fn : Outcome }.

(** The manager after the calls, and for each call whether its function ran. *)
Fixpoint run_calls (cfg : BreakerConfig) (calls : list call) (sm : stateManager) : stateManager * list bool :=
  match calls with
  | [] => (sm, [])
  | c :: rest =>
      let '(sm, _, (ran, _)) := cb_Execute cfg (call_before c) (call_after c) (call_fn c) sm in
      let '(sm, rans) := run_calls cfg rest sm in (sm, ran :: rans)
  end.

Definition failed (c : call) : Prop := succeeded (call_fn c) = false.

Lemma run_calls_app cfg l1 l2 sm :
  run_calls cfg (l1 ++ l2) sm =
  let '(sm, r1) := run_calls cfg l1 sm in let '(sm, r2) := run_calls cfg l2 sm in (sm, r1 ++ r2).
Proof.
  revert sm; induction l1 as [|c l1 IH]; intros sm; simpl; [by destruct (run_calls _ _ _)|].
  destruct (cb_Execute _ _ _ _ _) as [[sm1 ev] [ran o]]. rewrite IH.
  destruct (run_calls cfg l1 sm1) as [sm2 r1]. by destruct (run_calls cfg l2 sm2).
Qed.

(** The failures at the end of a list of calls. *)
Fixpoint leading_failures (l : list call) : nat :=
  match l with
  | [] => 0
  | c :: l' => if succeeded (call_fn c) then 0 else S (leading_failures l')
  end.
Definition trailing_failures (l : list call) : nat := leading_failures (rev l).

Lemma trailing_snoc (l : list call) (c : call) :
  trailing_failures (l ++ [c]) = if succeeded (call_fn c) then 0%nat else S (trailing_failures l).
Proof. unfold trailing_failures. by rewrite rev_unit. Qed.

Lemma trailing_max (l1 l2 : list call) : Forall failed l2 -> (length l2 <= trailing_failures (l1 ++ l2))%nat.
Proof.
  induction l2 as [|c l2 IH] using rev_ind; intros H; [simpl; lia|].
  apply Forall_app in H as [H Hc]. apply Forall_cons in Hc as [Hc _]. rewrite app_assoc, trailing_snoc, length_app, Hc.
  specialize (IH H). simpl. lia.
Qed.

Lemma trailing_split (l : list call) :
  exists l1 l2, l = l1 ++ l2 /\ Forall failed l2 /\ length l2 = trailing_failures l.
Proof.
  induction l as [|c l (l1 & l2 & E & H & Hl)] using rev_ind; [by exists [], []|]. rewrite trailing_snoc.
  destruct (succeeded (call_fn c)) eqn:Ec; [exists (l ++ [c]), []; by rewrite app_nil_r|].
  exists l1, (l2 ++ [c]). rewrite length_app. split; [by rewrite E, app_assoc|]. split; [|simpl in *; lia].
  apply Forall_app. split; [done|]. by repeat constructor.
Qed.

Lemma limit_free (m : Z) : (0 <? m) && (m <=? 0) = false.
Proof. destruct (Z.ltb_spec 0 m), (Z.leb_spec m 0); done || lia. Qed.

Section Sequential.
Context (cfg : BreakerConfig) (Hen : cf_Enabled cfg = true).

(** A call on a closed breaker with nothing else running. *)
Lemma execute_closed (c : call) (sm : stateManager) :
  cf_ShouldTrip cfg = None -> sm_state sm = StateClosed -> sm_runningCalls sm = 0 ->
  exists sm' ev, cb_Execute cfg (call_before c) (call_after c) (call_fn c) sm = (sm', ev, (true, call_fn c))
    /\ sm_runningCalls sm' = 0
    /\ let cf := if succeeded (call_fn c) then 0 else inc32 (ConsecutiveFailures (sm_counts sm)) in
       if succeeded (call_fn c) || negb (cf_MaxFailures cfg <=? cf)
       then sm_state sm' = StateClosed /\ ConsecutiveFailures (sm_counts sm') = cf
       else sm_state sm' = StateOpen.
Proof.
  intros Ht Hs Hr. unfold cb_Execute, beforeRequest. rewrite Hen. cbn [negb].
  rewrite Hs. cbn [andb is_open]. rewrite Hs, Hr. cbn [is_open].
  rewrite limit_free.
  unfold afterRequest. cbn [sm_runningCalls with_running sm_generation]. change (inc32 0) with 1. cbn [Z.ltb Z.compare].
  rewrite Z.eqb_refl. cbn [negb].
  destruct (succeeded (call_fn c)) eqn:Es; cbn [orb].
  - unfold onSuccess. cbn. rewrite Hs. eauto 10.
  - unfold onFailure, shouldTrip. cbn. rewrite Hs, Ht. destruct (_ <=? _); cbn; eauto 10.
Qed.

(** A successful call on a breaker ready to probe: half-open, or open with its timeout over. *)
Lemma execute_probe (c : call) (sm : stateManager) (n : Z) :
  (sm_state sm = StateOpen /\ sm_expiry sm < call_before c 0%nat /\ n = 0
   \/ sm_state sm = StateHalfOpen /\ ConsecutiveSuccesses (sm_counts sm) = n) ->
  sm_runningCalls sm = 0 -> call_fn c = Returned None -> 0 <= n < 2 ^ 32 - 1 ->
  exists sm' ev, cb_Execute cfg (call_before c) (call_after c) (call_fn c) sm = (sm', ev, (true, call_fn c))
    /\ sm_runningCalls sm' = 0
    /\ if cf_SuccessThreshold cfg <=? n + 1 then sm_state sm' = StateClosed
       else sm_state sm' = StateHalfOpen /\ ConsecutiveSuccesses (sm_counts sm') = n + 1.
Proof.
  intros Hs Hr Hf Hn. unfold cb_Execute. rewrite Hen. cbn [negb].
  assert (exists sm1 ev, beforeRequest cfg (call_before c) sm = (sm1, ev, Ok (sm_generation sm1))
    /\ sm_state sm1 = StateHalfOpen /\ ConsecutiveSuccesses (sm_counts sm1) = n /\ sm_runningCalls sm1 = 1)
    as (sm1 & ev & -> & H1 & H2 & H3).
  { unfold beforeRequest. destruct Hs as [(Ho & He & ->)|[Ho Hc]]; rewrite Ho; cbn.
    - apply Z.ltb_lt in He as ->. cbn. rewrite Hr, limit_free.
      match goal with |- exists _ _, (?s, ?e, _) = _ /\ _ => by exists s, e end.
    - rewrite Ho, Hr. cbn. rewrite limit_free.
      match goal with |- exists _ _, (?s, ?e, _) = _ /\ _ => by exists s, e end. }
  rewrite Hf. cbn [succeeded]. unfold afterRequest. rewrite H3. cbn [Z.ltb Z.compare sm_generation with_running].
  rewrite Z.eqb_refl. cbn [negb]. unfold onSuccess. cbn. rewrite H1, H2.
  unfold inc32. rewrite Z.mod_small by lia. destruct (_ <=? _); cbn; eauto 10.
Qed.
End Sequential.

Lemma run_quiet cfg now calls :
  cf_Enabled cfg = true -> cf_ShouldTrip cfg = None -> cf_MaxFailures cfg < 2 ^ 32 ->
  (forall l1 l2 l3, calls = l1 ++ l2 ++ l3 -> Forall failed l2 -> Z.of_nat (length l2) < cf_MaxFailures cfg) ->
  exists sm, run_calls cfg calls (newStateManager now) = (sm, replicate (length calls) true)
    /\ sm_state sm = StateClosed /\ sm_runningCalls sm = 0
    /\ ConsecutiveFailures (sm_counts sm) = Z.of_nat (trailing_failures calls).
Proof.
  intros Hen Ht Hm. induction calls as [|c calls IH] using rev_ind; intros Hq; [by eexists|].
  destruct IH as (sm & Hrun & Hs & Hr & Hc).
  { intros l1 l2 l3 E. apply (Hq l1 l2 (l3 ++ [c])). by rewrite E, !app_assoc. }
  destruct (execute_closed cfg Hen c sm Ht Hs Hr) as (sm' & ev & He & Hr' & H).
  exists sm'. rewrite run_calls_app, Hrun. cbn [run_calls]. rewrite He, length_app, replicate_add. split; [done|].
  assert (Z.of_nat (trailing_failures (calls ++ [c])) < cf_MaxFailures cfg) as Hlt.
  { destruct (trailing_split (calls ++ [c])) as (l1 & l2 & E & Hl & <-). apply (Hq l1 l2 []); [by rewrite app_nil_r|done]. }
  rewrite trailing_snoc in *. rewrite Hc in H. destruct (succeeded (call_fn c)); cbn [orb] in H; [naive_solver|].
  unfold inc32 in H. rewrite Z.mod_small in H by lia.
  replace (cf_MaxFailures cfg <=? _) with false in H by (symmetry; apply Z.leb_gt; lia).
  destruct H as [? H]. repeat split; try done. lia.
Qed.

Lemma run_probes cfg calls sm n :
  cf_Enabled cfg = true -> Forall (fun c => call_fn c = Returned None) calls ->
  sm_state sm = StateHalfOpen -> ConsecutiveSuccesses (sm_counts sm) = n -> sm_runningCalls sm = 0 ->
  0 <= n -> n < cf_SuccessThreshold cfg < 2 ^ 32 -> n + Z.of_nat (length calls) <= cf_SuccessThreshold cfg ->
  exists sm', run_calls cfg calls sm = (sm', replicate (length calls) true)
    /\ sm_state sm' = if n + Z.of_nat (length calls) =? cf_SuccessThreshold cfg then StateClosed else StateHalfOpen.
Proof.
  intros Hen Hall. revert sm n. induction Hall as [|c calls Hc _ IH]; intros sm n Hs Hn Hr H0 Ht Hl.
  - exists sm. split; [done|]. simpl. rewrite Z.add_0_r. by rewrite (proj2 (Z.eqb_neq _ _)) by lia.
  - destruct (execute_probe cfg Hen c sm n) as (sm1 & ev & He & Hr1 & H); [by right|done|done|lia|].
    cbn [run_calls length replicate]. rewrite He. simpl length in Hl.
    destruct (Z.leb_spec (cf_SuccessThreshold cfg) (n + 1)).
    + destruct calls; [|simpl in Hl; lia]. exists sm1. split; [done|]. simpl. by rewrite (proj2 (Z.eqb_eq _ _)) by lia.
    + destruct H as [Hs1 Hn1]. destruct (IH sm1 (n + 1) Hs1 Hn1 Hr1) as (sm2 & -> & Hs2); [lia..|].
      exists sm2. split; [done|]. rewrite Hs2.
      by replace (n + 1 + Z.of_nat (length calls)) with (n + Z.of_nat (S (length calls))) by lia.
Qed.

(** ** Properties *)

(** The limit on concurrent calls is kept: with a limit set, in every run of interleaved calls without a
    reset, the running-calls counter is the number of calls in flight and never exceeds the limit. *)
Theorem concurrency_limit_kept (cfg : BreakerConfig) (now : Z) (w : world) :
  0 < cf_MaxConcurrentCalls cfg < 2 ^ 32 -> cb_run cfg (initial now) w ->
  sm_runningCalls (w_sm w) = Z.of_nat (length (w_calls w)) /\ Z.of_nat (length (w_calls w)) <= cf_MaxConcurrentCalls cfg.
Proof. apply running_counts_calls. Qed.

Lemma concurrency_limit_kept_witness :
  let cfg := AggressiveConfig "db" in
  let sm := with_running (newStateManager 7) 1 1 in
  sm_runningCalls sm = 1 /\ 1 <= cf_MaxConcurrentCalls cfg.
Proof.
  intros cfg sm. apply (concurrency_limit_kept cfg 7 (MkWorld sm [0] 7)); [done|].
  apply run_step with (initial 7) LBegin; [constructor| |done].
  apply (step_begin cfg (fun _ => 7) (newStateManager 7) sm [] 0 [] 7 7); [|reflexivity]. split; [lia|]. intros _. lia.
Defined.

(** C11. An open breaker shields the service for its whole timeout: when a call's end opens the breaker, then
    however other calls interleave, late results of earlier calls included, no call is let through, short of a
    reset, until more than [Timeout] has passed since that end. *)
Theorem open_breaker_shields (cfg : BreakerConfig) (w0 w1 w2 w3 : world) (success : bool) :
  cb_step cfg w0 (LEnd success) w1 -> sm_state (w_sm w0) <> StateOpen -> sm_state (w_sm w1) = StateOpen ->
  cb_run cfg w1 w2 -> cb_step cfg w2 LBegin w3 ->
  w_now w0 + cf_Timeout cfg < w_now w3.
Proof.
  intros H01 Hn Ho Hrun Hb. inversion H01 as [| |clock sm sm' ev s g c1 c2 t t' [_ Hc] Ha|]; subst. cbn [w_sm w_now] in *.
  apply after_trips in Ha; [|done..]. specialize (Hc 1%nat).
  apply open_until_expiry in Hrun; [|done]. cbn [w_sm] in Hrun.
  inversion Hb as [clock' s2 s3 ev' g' calls u u' [Hu Hc'] Hbr| | |]; subst. cbn [w_sm w_now] in *.
  apply before_ok in Hbr as (_ & _ & Hx & _). specialize (Hc' 0%nat). destruct Hrun as [[Hs2 He]|]; [|lia].
  specialize (Hx Hs2). lia.
Qed.

Definition shield_demo_config : BreakerConfig := MkBreakerConfig true "db" 1 100 0 1 false None.

Lemma open_breaker_shields_witness : 0 + cf_Timeout shield_demo_config < 200.
Proof.
  set (cfg := shield_demo_config). set (sm0 := with_running (newStateManager 0) 1 1).
  set (sm1 := fst (afterRequest cfg (fun _ => 0) 0 false sm0)).
  set (sm2 := fst (fst (beforeRequest cfg (fun _ => 200) sm1))).
  apply (open_breaker_shields cfg (MkWorld sm0 [0] 0) (MkWorld sm1 [] 0) (MkWorld sm1 [] 0) (MkWorld sm2 [2] 200) false).
  - apply (step_end cfg (fun _ => 0) sm0 sm1 [] false 0 [] [] 0 0); [|reflexivity]. split; [lia|]. intros _. lia.
  - discriminate.
  - reflexivity.
  - constructor.
  - apply (step_begin cfg (fun _ => 200) sm1 sm2 [] 2 [] 0 200); [|reflexivity]. split; [lia|]. intros _. lia.
Defined.

(** The breaker trips on exactly [MaxFailures] failures in a row: after any calls with no run of that many
    failures it is closed and every function has run, and the next call opens it if and only if the last
    [MaxFailures] calls, this one included, all failed. *)
Theorem breaker_trips_exactly (cfg : BreakerConfig) (now : Z) (calls : list call) (c : call) :
  cf_Enabled cfg = true -> cf_ShouldTrip cfg = None -> 0 < cf_MaxFailures cfg < 2 ^ 32 ->
  (forall l1 l2 l3, calls = l1 ++ l2 ++ l3 -> Forall failed l2 -> Z.of_nat (length l2) < cf_MaxFailures cfg) ->
  exists sm, run_calls cfg calls (newStateManager now) = (sm, replicate (length calls) true)
    /\ sm_state sm = StateClosed
    /\ (sm_state (fst (run_calls cfg (calls ++ [c]) (newStateManager now))) = StateOpen
        <-> exists l1 l2, calls ++ [c] = l1 ++ l2 /\ Forall failed l2 /\ Z.of_nat (length l2) = cf_MaxFailures cfg).
Proof.
  intros Hen Ht Hm Hq. destruct (run_quiet cfg now calls Hen Ht ltac:(lia) Hq) as (sm & Hrun & Hs & Hr & Hc).
  exists sm. split; [done|]. split; [done|]. rewrite run_calls_app, Hrun. cbn [run_calls].
  destruct (execute_closed cfg Hen c sm Ht Hs Hr) as (sm' & ev & He & _ & H). rewrite He. cbn [fst].
  assert (Z.of_nat (trailing_failures calls) < cf_MaxFailures cfg) as Hlt.
  { destruct (trailing_split calls) as (l1 & l2 & E & Hl & <-). apply (Hq l1 l2 []); [by rewrite app_nil_r|done]. }
  pose proof (trailing_snoc calls c) as Hsn. rewrite Hc in H.
  destruct (succeeded (call_fn c)) eqn:Ec; cbn [orb] in H.
  - destruct H as [-> _]. split; [done|]. intros (l1 & l2 & E & Hl & Hlen).
    apply (trailing_max l1) in Hl. rewrite <- E, Hsn in Hl. lia.
  - unfold inc32 in H. rewrite Z.mod_small in H by lia. destruct (Z.leb_spec (cf_MaxFailures cfg) (Z.of_nat (trailing_failures calls) + 1)).
    + split; [intros _|done]. destruct (trailing_split (calls ++ [c])) as (l1 & l2 & E & Hl & Hlen).
      exists l1, l2. repeat split; [done|done|]. rewrite Hlen, Hsn. lia.
    + destruct H as [-> _]. split; [done|]. intros (l1 & l2 & E & Hl & Hlen).
      apply (trailing_max l1) in Hl. rewrite <- E, Hsn in Hl. lia.
Qed.

Lemma breaker_trips_exactly_witness :
  let bad := MkCall (fun _ => 0) (fun _ => 0) Panicked in
  exists sm, run_calls shield_demo_config [] (newStateManager 0) = (sm, [])
    /\ sm_state sm = StateClosed
    /\ (sm_state (fst (run_calls shield_demo_config [bad] (newStateManager 0))) = StateOpen
        <-> exists l1 l2, [bad] = l1 ++ l2 /\ Forall failed l2 /\ Z.of_nat (length l2) = 1).
Proof.
  intros bad. apply (breaker_trips_exactly shield_demo_config 0 [] bad); [done|done|done|].
  intros l1 l2 l3 E _. destruct l1, l2; simplify_eq/=. done.
Defined.

(** A breaker recovers: once the timeout of an open breaker is over, calls through [Execute] are let
    through one after another; it is half-open until [SuccessThreshold] of them have succeeded, and then
    closed. *)
Theorem breaker_recovers (cfg : BreakerConfig) (sm : stateManager) (c : call) (calls : list call) :
  cf_Enabled cfg = true -> 0 < cf_SuccessThreshold cfg < 2 ^ 32 ->
  sm_state sm = StateOpen -> sm_runningCalls sm = 0 -> sm_expiry sm < call_before c 0%nat ->
  Forall (fun c => call_fn c = Returned None) (c :: calls) ->
  Z.of_nat (length (c :: calls)) <= cf_SuccessThreshold cfg ->
  exists sm', run_calls cfg (c :: calls) sm = (sm', replicate (length (c :: calls)) true)
    /\ sm_state sm' = if Z.of_nat (length (c :: calls)) =? cf_SuccessThreshold cfg then StateClosed else StateHalfOpen.
Proof.
  intros Hen Ht Hs Hr He [Hc Hall]%Forall_cons Hl. simpl length in Hl.
  destruct (execute_probe cfg Hen c sm 0) as (sm1 & ev & Hx & Hr1 & H); [by left|done|done|lia|].
  cbn [run_calls length replicate]. rewrite Hx. destruct (Z.leb_spec (cf_SuccessThreshold cfg) (0 + 1)).
  - destruct calls; [|simpl in Hl; lia]. exists sm1. split; [done|]. by replace (cf_SuccessThreshold cfg) with 1 by lia.
  - destruct H as [Hs1 Hn1]. destruct (run_probes cfg calls sm1 (0 + 1) Hen Hall Hs1 Hn1 Hr1) as (sm2 & -> & Hs2); [lia..|].
    exists sm2. split; [done|]. rewrite Hs2. replace (0 + 1 + Z.of_nat (length calls)) with (Z.of_nat (S (length calls))) by lia.
    done.
Qed.

Lemma breaker_recovers_witness :
  let good := MkCall (fun _ => 101) (fun _ => 102) (Returned None) in
  let sm := change_state (newStateManager 0) StateOpen 0 100 in
  exists sm', run_calls (DefaultConfig "db") [good; good] sm = (sm', [true; true]) /\ sm_state sm' = StateClosed.
Proof.
  intros good sm. apply (breaker_recovers (DefaultConfig "db") sm good [good]); try done. by repeat constructor.
Defined.

(** Calls through [ExecuteWithImmediateFallback] with the given clocks, functions and fallbacks; the booleans
    say whether the primary function ran. *)
Fixpoint run_with_fallback (cfg : BreakerConfig) (calls : list (call * option Outcome)) (sm : stateManager) :
  stateManager * list bool :=
  match calls with
  | [] => (sm, [])
  | (c, f) :: rest =>
      let '(sm, _, (ran, _)) := ExecuteWithImmediateFallback cfg (call_before c) (call_after c) (call_fn c) f sm in
      let '(sm, rans) := run_with_fallback cfg rest sm in (sm, ran :: rans)
  end.

(** With the immediate fallback an open breaker never recovers: [IsOpen] does not look at the timeout and
    only [Execute] leaves the open state, so from an open breaker no sequence of such calls, at whatever
    times, runs the primary function or changes the state. *)
Theorem immediate_fallback_never_recovers (cfg : BreakerConfig) (calls : list (call * option Outcome)) (sm : stateManager) :
  sm_state sm = StateOpen -> run_with_fallback cfg calls sm = (sm, replicate (length calls) false).
Proof.
  intros Hs. induction calls as [|[c f] calls IH]; [done|]. cbn [run_with_fallback length replicate].
  unfold ExecuteWithImmediateFallback, IsOpen. rewrite Hs. cbn [is_open]. by rewrite IH.
Qed.

Lemma immediate_fallback_never_recovers_witness :
  let good := MkCall (fun _ => 1000000) (fun _ => 1000000) (Returned None) in
  let sm := change_state (newStateManager 0) StateOpen 0 100 in
  run_with_fallback (DefaultConfig "db") [(good, Some (Returned None)); (good, None)] sm = (sm, [false; false]).
Proof.
  intros good sm. apply (immediate_fallback_never_recovers (DefaultConfig "db") [(good, Some (Returned None)); (good, None)] sm).
  reflexivity.
Defined.

(** A reset forgets the calls in flight: afterwards a call is let through however many are running. *)
Lemma reset_admits_over_limit (cfg : BreakerConfig) (w : world) :
  exists w1 w2, cb_step cfg w LReset w1 /\ cb_step cfg w1 LBegin w2 /\ length (w_calls w2) = S (length (w_calls w)).
Proof.
  destruct w as [sm calls t]. set (sm1 := reset t sm).
  assert (clock_between t t (fun _ => t)) as Ht by (split; [lia|]; intros _; lia).
  exists (MkWorld sm1 calls t), (MkWorld (fst (fst (beforeRequest cfg (fun _ => t) sm1))) (calls ++ [sm_generation sm1]) t).
  split; [by apply (step_reset cfg (fun _ => t))|]. split; [|cbn [w_calls]; rewrite length_app; simpl; lia].
  apply (step_begin cfg (fun _ => t) _ _ []); [done|]. unfold beforeRequest. cbn. by rewrite limit_free.
Qed.
