(* ===== verification/KeyStore.v ===== *)
(** * KeyStore: keys that are read once (src/xzmercury/internal: keystore, quota, acl, request, ldap, api/keys.go)

    The server keeps keys and burn markers in one Redis and quota balances, request records and cached LDAP
    answers in another.  A Redis value is kept as the value it encodes, with the second it expires at.  A
    handler runs to completion as one step: it has one command that changes the keys (SET, or the burn
    script, which Redis runs atomically), and it takes effect there.  Every Redis command of a handler can
    fail, before reaching the server or after it took effect there ([fault]).  The LDAP directory, the
    random source, HMAC-SHA256 and the clock are arguments. *)

From Stdlib Require Import ZArith Lia Ascii String.
From stdpp Require Import base list gmap strings pretty.
From S2P Require Import Prelude Encodings Wire.

Open Scope Z_scope.

(** ** Redis *)

Abbreviation cells V := (gmap string (V * option Z)).

(** The value under [key], if it has not expired. *)
Definition cell_get {V} (now : Z) (key : string) (m : cells V) : option V :=
  match m !! key with
  | Some (v, None) => Some v
  | Some (v, Some exp) => if now <? exp then Some v else None
  | None => None
  end.

(** [Set] of go-redis: a positive [ttl] is a lifetime, zero means no expiry. *)
Definition cell_set {V} (now : Z) (key : string) (v : V) (ttl : Z) (m : cells V) : cells V :=
  <[key := (v, if 0 <? ttl then Some (now + ttl) else None)]> m.

(** How a command fares: it runs and answers, never reaches the server, or runs and its answer is lost. *)
Inductive fault := NoFault | Unreached | ReplyLost.

Definition command {S A} (f : fault) (cmd : S -> S * A) (s : S) : S * option A :=
  match f with
  | NoFault => let '(s', a) := cmd s in (s', Some a)
  | Unreached => (s, None)
  | ReplyLost => (fst (cmd s), None)
  end.

(** ** keystore/store.go *)

Definition keyPrefix : string := "mercury:key:".
Definition burnedPrefix : string := "mercury:burned:".
Definition burnedTTL : Z := 24 * 3600.

Inductive Mode := ModeDev | ModeProd.
Definition mode_text (m : Mode) : string := match m with ModeDev => "dev" | ModeProd => "prod" end.

Record BurnedMarker := MkBurnedMarker { bm_Mode : Mode; bm_BurnedAt : Z }.
Record BindResult := MkBindResult { br_KeyB64 : string; br_HMAC : string; br_Mode : Mode }.

(** The Mercury Redis. *)
Record mercury := MkMercury { m_keys : cells string; m_marks : cells BurnedMarker }.

(** The configuration of a [Store]. *)
Record Store := MkStore { st_secret : string; st_ttl : Z; st_mode : Mode }.

(** HMAC-SHA256 of a message under a key. *)
Class Hmac := { hmac_sha256 : string -> string -> list N }.

Definition hmac_payload (uuid mode : string) : string := uuid +:+ ":" +:+ mode.

(** [key] is what [rand.Read] gives, [None] when it fails. *)
Definition Bind `{Hmac} (s : Store) (f : fault) (now : Z) (uuid : string) (key : option string) (m : mercury) :
  mercury * option BindResult :=
  match key with
  | None => (m, None)
  | Some key =>
      let keyB64 := b64_encode key in
      let set m := (MkMercury (cell_set now (keyPrefix +:+ uuid) keyB64 (st_ttl s) (m_keys m)) (m_marks m), ()) in
      let '(m, r) := command f set m in
      match r with
      | None => (m, None)
      | Some _ =>
          (m, Some (MkBindResult keyB64 (hex_encode (hmac_sha256 (st_secret s) (hmac_payload uuid (mode_text (st_mode s)))))
                (st_mode s)))
      end
  end.

(** The script: GETDEL of the key, and a marker when it was there. *)
Definition burnScript (now : Z) (uuid : string) (marker : BurnedMarker) (m : mercury) : mercury * option string :=
  let val := cell_get now (keyPrefix +:+ uuid) (m_keys m) in
  let keys := delete (keyPrefix +:+ uuid) (m_keys m) in
  match val with
  | Some v => (MkMercury keys (cell_set now (burnedPrefix +:+ uuid) marker burnedTTL (m_marks m)), Some v)
  | None => (MkMercury keys (m_marks m), None)
  end.

Inductive burn_result := BurnKey (keyB64 : string) | BurnedByOther (marker : BurnedMarker) | KeyNotFound | BurnFailed.

Definition CheckBurnedMarker (f : fault) (now : Z) (uuid : string) (m : mercury) : option (option BurnedMarker) :=
  snd (command f (fun m => (m, cell_get now (burnedPrefix +:+ uuid) (m_marks m))) m).

(** [f1] is the fault of the script, [f2] that of the marker's GET. *)
Definition BurnOnRead (s : Store) (f1 f2 : fault) (now : Z) (uuid : string) (m : mercury) : mercury * burn_result :=
  let '(m, r) := command f1 (burnScript now uuid (MkBurnedMarker (st_mode s) now)) m in
  match r with
  | None => (m, BurnFailed)
  | Some (Some v) => (m, BurnKey v)
  | Some None =>
      match CheckBurnedMarker f2 now uuid m with
      | Some (Some marker) => (m, BurnedByOther marker)
      | _ => (m, KeyNotFound)
      end
  end.

(** ** acl/acl.go *)

Record Policy := MkPolicy { po_Group : string; po_Cost : Z }.
Record ACL := MkACL { acl_DefaultGroup : string; acl_DefaultCost : Z; acl_Pipelines : gmap string Policy }.

Definition Lookup (a : ACL) (pipelineName : string) : Policy :=
  match acl_Pipelines a !! pipelineName with
  | Some e => MkPolicy (po_Group e) (if po_Cost e <=? 0 then acl_DefaultCost a else po_Cost e)
  | None => MkPolicy (acl_DefaultGroup a) (acl_DefaultCost a)
  end.

(** What [Load] does after reading the file: [parsed] is the YAML laid over the defaults. *)
Definition default_acl : ACL := MkACL "tdtp-pipeline-users" 1 ∅.
Definition load_defaults (parsed : ACL) : ACL :=
  MkACL (acl_DefaultGroup parsed) (if acl_DefaultCost parsed <=? 0 then 1 else acl_DefaultCost parsed) (acl_Pipelines parsed).

(** ** quota/manager.go *)

(** The UTC date of a day counted from 1970-01-01 (proleptic Gregorian calendar). *)
Definition civil_date (days : Z) : Z * Z * Z :=
  let z := days + 719468 in
  let era := z / 146097 in
  let doe := z - era * 146097 in
  let yoe := (doe - doe / 1460 + doe / 36524 - doe / 146096) / 365 in
  let doy := doe - (365 * yoe + yoe / 4 - yoe / 100) in
  let mp := (5 * doy + 2) / 153 in
  let d := doy - (153 * mp + 2) / 5 + 1 in
  let m := if mp <? 10 then mp + 3 else mp - 9 in
  (yoe + era * 400 + (if m <=? 2 then 1 else 0), m, d).

Definition pad2 (z : Z) : string := if z <? 10 then "0" +:+ pretty z else pretty z.

(** [fmt.Sprintf("quota:%s:%d%02d%02d%02d", ...)] for the hour counted from the epoch. *)
Definition quota_key (group : string) (hour : Z) : string :=
  let '(y, mo, d) := civil_date (hour / 24) in
  "quota:" +:+ group +:+ ":" +:+ pretty y +:+ pad2 mo +:+ pad2 d +:+ pad2 (hour mod 24).

(** The script: balances below 10^14 are exact as Lua numbers. *)
Definition luaQuota (now : Z) (key : string) (cost initial : Z) (q : cells Z) : cells Z * Z :=
  let balance := default initial (cell_get now key q) in
  if balance <? cost then (q, -1)
  else (cell_set now key (balance - cost) 3600 q, balance - cost).

Inductive quota_result := QuotaOk | QuotaExceeded | QuotaFailed.

Definition quota_Check (defaultQuota : Z) (f : fault) (now : Z) (group : string) (cost : Z) (q : cells Z) :
  cells Z * quota_result :=
  let '(q, r) := command f (luaQuota now (quota_key group (now / 3600)) cost defaultQuota) q in
  (q, match r with None => QuotaFailed | Some remaining => if remaining <? 0 then QuotaExceeded else QuotaOk end).

(** ** request/tracker.go *)

Definition requestPrefix : string := "request:".
Definition requestTTL : Z := 24 * 3600.

Inductive RequestState := StateApproved | StateRejected | StateConsumed.

Record Request := MkRequest {
  rq_ID : string;
  rq_PackageUUID : string;
  rq_PipelineName : string;
  rq_Caller : string;
  rq_ConsumedBy : string;
  rq_State : RequestState;
  rq_CreatedAt : Z;
  rq_UpdatedAt : Z;
  rq_ConsumedAt : option Z;
}.
Record Event := MkEvent {
  ev_RequestID : string; ev_PackageUUID : string; ev_PipelineName : string; ev_State : RequestState; ev_Timestamp : Z;
}.

(** The Pipeline Redis; [pl_events] are the messages published, newest first. *)
Record pipeline := MkPipeline {
  pl_quota : cells Z;
  pl_requests : cells Request;
  pl_ldap : cells bool;
  pl_events : list Event;
}.

Definition set_requests (p : pipeline) (r : cells Request) : pipeline := MkPipeline (pl_quota p) r (pl_ldap p) (pl_events p).
Definition set_quota (p : pipeline) (q : cells Z) : pipeline := MkPipeline q (pl_requests p) (pl_ldap p) (pl_events p).
Definition set_ldap (p : pipeline) (l : cells bool) : pipeline := MkPipeline (pl_quota p) (pl_requests p) l (pl_events p).

Definition save (f : fault) (now : Z) (req : Request) (p : pipeline) : pipeline * option unit :=
  command f (fun p => (set_requests p (cell_set now (requestPrefix +:+ rq_ID req) req requestTTL (pl_requests p)), ())) p.

Definition publish (f : fault) (req : Request) (p : pipeline) : pipeline :=
  let ev := MkEvent (rq_ID req) (rq_PackageUUID req) (rq_PipelineName req) (rq_State req) (rq_UpdatedAt req) in
  fst (command f (fun p => (MkPipeline (pl_quota p) (pl_requests p) (pl_ldap p) (ev :: pl_events p), ())) p).

(** [Create] and [Reject] differ in the state; [id] is [None] when the random source fails. *)
Definition new_request (st : RequestState) (f1 f2 : fault) (now : Z) (id : option string)
  (packageUUID pipelineName caller : string) (p : pipeline) : pipeline * option Request :=
  match id with
  | None => (p, None)
  | Some id =>
      let req := MkRequest id packageUUID pipelineName caller "" st now now None in
      match save f1 now req p with
      | (p, None) => (p, None)
      | (p, Some _) => (publish f2 req p, Some req)
      end
  end.
Definition Create := new_request StateApproved.
Definition Reject := new_request StateRejected.

Definition tracker_Get (f : fault) (now : Z) (id : string) (p : pipeline) : option Request :=
  match command f (fun p => (p, cell_get now (requestPrefix +:+ id) (pl_requests p))) p with
  | (_, Some r) => r
  | (_, None) => None
  end.

Definition MarkConsumed (f1 f2 f3 : fault) (now : Z) (requestID consumedBy : string) (p : pipeline) : pipeline * bool :=
  match tracker_Get f1 now requestID p with
  | None => (p, false)
  | Some r =>
      let req := MkRequest (rq_ID r) (rq_PackageUUID r) (rq_PipelineName r) (rq_Caller r) consumedBy StateConsumed
        (rq_CreatedAt r) now (Some now) in
      match save f2 now req p with
      | (p, None) => (p, false)
      | (p, Some _) => (publish f3 req p, true)
      end
  end.

(** ** ldap/cache.go *)

Definition ldap_cache_key (user group : string) : string := "ldap:member:" +:+ user +:+ ":" +:+ group.

(** [inner] is the directory's answer, [None] when it fails. *)
Definition IsMember (ttl : Z) (f1 f2 : fault) (now : Z) (inner : option bool) (user group : string) (p : pipeline) :
  pipeline * option bool :=
  let key := ldap_cache_key user group in
  match snd (command f1 (fun p => (p, cell_get now key (pl_ldap p))) p) with
  | Some (Some cached) => (p, Some cached)
  | _ =>
      match inner with
      | None => (p, None)
      | Some r => (fst (command f2 (fun p => (set_ldap p (cell_set now key r ttl (pl_ldap p)), ())) p), Some r)
      end
  end.

(** ** api/keys.go *)

Record bindRequest := MkBindRequest { bq_PackageUUID : string; bq_PipelineName : string; bq_Caller : string }.
Record retrieveRequest := MkRetrieveRequest { tq_PackageUUID : string; tq_RequestID : string; tq_Caller : string }.

(** The server's configuration, and what a request meets: the time, the random bytes, the directory's answer
    and the faults of the Redis commands it sends, by place. *)
Record server := MkServer { sv_store : Store; sv_quota : Z; sv_acl : ACL; sv_ldap_ttl : Z }.
Record env := MkEnv {
  en_now : Z;
  en_key : option string;
  en_id : option string;
  en_member : option bool;
  en_fault : nat -> fault;
}.

Inductive reply :=
| BindReply (requestID keyB64 hmac : string) (mode : Mode)
| RetrieveReply (keyB64 : string)
| BurnedReply (marker : BurnedMarker)
| StatusReply (code : Z).

(** The LDAP check of [Bind]: 500 when the directory fails, 403 with a rejected record for a stranger. *)
Definition check_member (sv : server) (e : env) (req : bindRequest) (policy : Policy) (p : pipeline) :
  pipeline * option Z :=
  if String.eqb (bq_Caller req) "" then (p, None)
  else
    match IsMember (sv_ldap_ttl sv) (en_fault e 0%nat) (en_fault e 1%nat) (en_now e) (en_member e) (bq_Caller req) (po_Group policy) p with
    | (p, None) => (p, Some 500)
    | (p, Some true) => (p, None)
    | (p, Some false) =>
        (fst (Reject (en_fault e 2%nat) (en_fault e 3%nat) (en_now e) (en_id e) (bq_PackageUUID req) (bq_PipelineName req)
          (bq_Caller req) p), Some 403)
    end.

(** The quota check: 429 with a rejected record, 500 when the script fails. *)
Definition check_quota (sv : server) (e : env) (req : bindRequest) (policy : Policy) (p : pipeline) :
  pipeline * option Z :=
  let '(q, r) := quota_Check (sv_quota sv) (en_fault e 4%nat) (en_now e) (po_Group policy) (po_Cost policy) (pl_quota p) in
  let p := set_quota p q in
  match r with
  | QuotaOk => (p, None)
  | QuotaExceeded =>
      (fst (Reject (en_fault e 5%nat) (en_fault e 6%nat) (en_now e) (en_id e) (bq_PackageUUID req) (bq_PipelineName req)
        (bq_Caller req) p), Some 429)
  | QuotaFailed => (p, Some 500)
  end.

(** [body] is [None] when the JSON does not decode. *)
Definition api_Bind `{Hmac} (sv : server) (e : env) (body : option bindRequest) (m : mercury) (p : pipeline) :
  mercury * pipeline * reply :=
  match body with
  | None => (m, p, StatusReply 400)
  | Some req =>
      if String.eqb (bq_PackageUUID req) "" || String.eqb (bq_PipelineName req) "" then (m, p, StatusReply 400)
      else
        let policy := Lookup (sv_acl sv) (bq_PipelineName req) in
        match check_member sv e req policy p with
        | (p, Some code) => (m, p, StatusReply code)
        | (p, None) =>
            match check_quota sv e req policy p with
            | (p, Some code) => (m, p, StatusReply code)
            | (p, None) =>
                match Bind (sv_store sv) (en_fault e 7%nat) (en_now e) (bq_PackageUUID req) (en_key e) m with
                | (m, None) => (m, p, StatusReply 500)
                | (m, Some r) =>
                    let '(p, rec) := Create (en_fault e 8%nat) (en_fault e 9%nat) (en_now e) (en_id e) (bq_PackageUUID req)
                      (bq_PipelineName req) (bq_Caller req) p in
                    (m, p, BindReply (match rec with Some q => rq_ID q | None => "" end) (br_KeyB64 r) (br_HMAC r) (br_Mode r))
                end
            end
        end
  end.

Definition api_Retrieve (sv : server) (e : env) (body : option retrieveRequest) (m : mercury) (p : pipeline) :
  mercury * pipeline * reply :=
  match body with
  | None => (m, p, StatusReply 400)
  | Some req =>
      if String.eqb (tq_PackageUUID req) "" then (m, p, StatusReply 400)
      else
        match BurnOnRead (sv_store sv) (en_fault e 0%nat) (en_fault e 1%nat) (en_now e) (tq_PackageUUID req) m with
        | (m, BurnedByOther marker) => (m, p, BurnedReply marker)
        | (m, KeyNotFound) => (m, p, StatusReply 404)
        | (m, BurnFailed) => (m, p, StatusReply 500)
        | (m, BurnKey keyB64) =>
            let p := if String.eqb (tq_RequestID req) "" then p
              else fst (MarkConsumed (en_fault e 2%nat) (en_fault e 3%nat) (en_fault e 4%nat) (en_now e) (tq_RequestID req) (tq_Caller req) p) in
            (m, p, RetrieveReply keyB64)
        end
  end.

(** ** pkg/mercury/client.go *)

Definition VerifyHMAC `{Hmac} (packageUUID receivedHMAC serverSecret mode : string) : bool :=
  String.eqb (hex_encode (hmac_sha256 serverSecret (hmac_payload packageUUID mode))) receivedHMAC.

Record KeyBinding := MkKeyBinding { kb_KeyB64 : string; kb_HMAC : string; kb_Mode : string }.

(** What [BindKey] makes of the server's reply. *)
Inductive bind_error := MercuryError | KeyBindRejected.
Definition BindKey (r : reply) : result bind_error KeyBinding :=
  match r with
  | BindReply _ key mac mode => Ok (MkKeyBinding key mac (mode_text mode))
  | StatusReply code => Err (if (code =? 403) || (code =? 429) then KeyBindRejected else MercuryError)
  | _ => Err MercuryError
  end.

(** ** pkg/processors/encryption.go *)

Inductive encrypt_error := EncBind (e : bind_error) | EncNoSecret | EncHMAC | EncKey.

Definition bindAndDecodeKey `{Hmac} (serverSecret packageUUID : string) (binding : result bind_error KeyBinding) :
  result encrypt_error string :=
  match binding with
  | Err e => Err (EncBind e)
  | Ok b =>
      fail_if String.eqb serverSecret "" with EncNoSecret ;;
      fail_if negb (String.eqb serverSecret "dev-mode") && negb (VerifyHMAC packageUUID (kb_HMAC b) serverSecret (kb_Mode b))
        with EncHMAC ;;
      match DecodeKey (XmlError := unit) (kb_KeyB64 b) with Ok key => Ok key | Err _ => Err EncKey end
  end.

(** ** Runs of the key API *)

(** [kw_drawn] are the keys the bind requests drew and [kw_given] the keys in replies to retrieve requests,
    each with its package, newest first. *)
Record kworld := MkKworld {
  kw_now : Z;
  kw_mercury : mercury;
  kw_pipeline : pipeline;
  kw_drawn : list (string * string);
  kw_given : list (string * string);
}.

Definition drawn (e : env) (body : option bindRequest) : list (string * string) :=
  match body, en_key e with Some req, Some k => [(bq_PackageUUID req, k)] | _, _ => [] end.
Definition given (body : option retrieveRequest) (r : reply) : list (string * string) :=
  match body, r with Some req, RetrieveReply k => [(tq_PackageUUID req, k)] | _, _ => [] end.

Inductive key_step `{Hmac} (sv : server) : kworld -> kworld -> Prop :=
| step_bind e body now m p ds gs m' p' r :
    now <= en_now e -> api_Bind sv e body m p = (m', p', r) ->
    key_step sv (MkKworld now m p ds gs) (MkKworld (en_now e) m' p' (drawn e body ++ ds) gs)
| step_retrieve e body now m p ds gs m' p' r :
    now <= en_now e -> api_Retrieve sv e body m p = (m', p', r) ->
    key_step sv (MkKworld now m p ds gs) (MkKworld (en_now e) m' p' ds (given body r ++ gs)).

Definition empty_mercury : mercury := MkMercury ∅ ∅.
Definition empty_pipeline : pipeline := MkPipeline ∅ ∅ ∅ [].
Definition fresh_world (now : Z) : kworld := MkKworld now empty_mercury empty_pipeline [] [].

Lemma Bind_keys `{Hmac} (s : Store) f now uuid key m m' r :
  Bind s f now uuid key m = (m', r) ->
  m' = m \/ exists k x, key = Some k /\ m_keys m' = <[keyPrefix +:+ uuid := (b64_encode k, x)]> (m_keys m).
Proof.
  unfold Bind. destruct key as [k|]; [|intros [= <- _]; auto].
  destruct f; simpl; intros [= <- _]; eauto 10.
Qed.

Lemma api_Bind_keys `{Hmac} sv e body m p m' p' r :
  api_Bind sv e body m p = (m', p', r) ->
  m' = m \/ exists req k x, body = Some req /\ en_key e = Some k
    /\ m_keys m' = <[keyPrefix +:+ bq_PackageUUID req := (b64_encode k, x)]> (m_keys m).
Proof.
  unfold api_Bind. intros H'. destruct body as [req|]; [|simplify_eq; auto].
  destruct (_ || _); [simplify_eq; auto|].
  destruct (check_member _ _ _ _ _) as [p1 [c|]]; [simplify_eq; auto|].
  destruct (check_quota _ _ _ _ _) as [p2 [c|]]; [simplify_eq; auto|].
  destruct (Bind _ _ _ _ _ _) as [m1 b] eqn:Eb. apply Bind_keys in Eb.
  assert (m' = m1) as -> by (destruct b; [destruct (Create _ _ _ _ _ _ _ _)|]; by simplify_eq).
  destruct Eb as [->|(k & x & -> & E)]; [auto|]. right. eauto 10.
Qed.

Lemma burnScript_keys now uuid marker m :
  m_keys (fst (burnScript now uuid marker m)) = delete (keyPrefix +:+ uuid) (m_keys m).
Proof. unfold burnScript. by destruct (cell_get _ _ _). Qed.

Lemma cell_get_Some {V} now key (m : cells V) v : cell_get now key m = Some v -> exists x, m !! key = Some (v, x).
Proof. unfold cell_get. intros E. repeat case_match; simplify_eq; eauto. Qed.

Lemma api_Retrieve_keys sv e body m p m' p' r :
  api_Retrieve sv e body m p = (m', p', r) ->
  (given body r = [] /\ forall key c, m_keys m' !! key = Some c -> m_keys m !! key = Some c)
  \/ exists req v x, body = Some req /\ given body r = [(tq_PackageUUID req, v)]
    /\ m_keys m !! (keyPrefix +:+ tq_PackageUUID req) = Some (v, x)
    /\ m_keys m' = delete (keyPrefix +:+ tq_PackageUUID req) (m_keys m).
Proof.
  unfold api_Retrieve, BurnOnRead. intros H. destruct body as [req|]; [|simplify_eq/=; auto].
  destruct (String.eqb _ _); [simplify_eq/=; auto|].
  pose proof (burnScript_keys (en_now e) (tq_PackageUUID req) (MkBurnedMarker (st_mode (sv_store sv)) (en_now e)) m) as Hk.
  assert (forall k c, delete (keyPrefix +:+ tq_PackageUUID req) (m_keys m) !! k = Some c -> m_keys m !! k = Some c) as Hd
    by (by intros k c [_ ?]%lookup_delete_Some).
  destruct (en_fault e 0%nat); simpl in H; [|simplify_eq/=; auto|simplify_eq/=; left; rewrite Hk; auto].
  destruct (burnScript _ _ _ _) as [m1 [v|]] eqn:Eb; simpl in H, Hk.
  - simplify_eq/=. right. unfold burnScript in Eb.
    destruct (cell_get _ _ _) as [w|] eqn:Eg; simplify_eq/=. apply cell_get_Some in Eg as [x Ex]. exists req, v, x. auto.
  - destruct (CheckBurnedMarker _ _ _ _) as [[mk|]|]; simplify_eq/=; left; rewrite Hk; auto.
Qed.

Lemma b64_encode_inj (a b : string) : b64_encode a = b64_encode b -> a = b.
Proof. intros E. pose proof (b64_decode_encode a) as H. rewrite E, b64_decode_encode in H. by injection H. Qed.

Lemma keyPrefix_inj (a b : string) : keyPrefix +:+ a = keyPrefix +:+ b -> a = b.
Proof. unfold keyPrefix. simpl. by intros [= ->]. Qed.

(** Stored keys were drawn for their package and not given yet; given keys were drawn for their package. *)
Record key_inv (w : kworld) : Prop := MkKeyInv {
  ki_stored : forall u v x, m_keys (kw_mercury w) !! (keyPrefix +:+ u) = Some (v, x) ->
    (exists k, v = b64_encode k /\ (u, k) ∈ kw_drawn w) /\ v ∉ (kw_given w).*2;
  ki_given : forall u v, (u, v) ∈ kw_given w -> exists k, v = b64_encode k /\ (u, k) ∈ kw_drawn w;
  ki_once : NoDup (kw_given w).*2;
}.

(** A key drawn once belongs to one package. *)
Lemma drawn_unique (ds : list (string * string)) (u u' k : string) :
  NoDup ds.*2 -> (u, k) ∈ ds -> (u', k) ∈ ds -> u = u'.
Proof.
  induction ds as [|[a b] ds IH]; intros Hn H1 H2; [by apply elem_of_nil in H1|].
  simpl in Hn. apply NoDup_cons in Hn as [Hb Hn].
  assert (forall x, (x, b) ∉ ds) as Hx by (intros x Hx; apply Hb, list_elem_of_fmap; by exists (x, b)).
  apply elem_of_cons in H1 as [E1|H1], H2 as [E2|H2]; simplify_eq; try done; [by apply Hx in H2|by apply Hx in H1|].
  by apply IH.
Qed.

Section Delivery.
Context `{Hmac} (sv : server).

Lemma bind_keeps_inv w w' e body :
  key_inv w -> NoDup (kw_drawn w').*2 ->
  kw_drawn w' = drawn e body ++ kw_drawn w -> kw_given w' = kw_given w ->
  (kw_mercury w' = kw_mercury w \/ exists req k x, body = Some req /\ en_key e = Some k
    /\ m_keys (kw_mercury w') = <[keyPrefix +:+ bq_PackageUUID req := (b64_encode k, x)]> (m_keys (kw_mercury w))) ->
  key_inv w'.
Proof.
  intros [Hs Hg Ho] Hn Hd Hgv Hm.
  assert (forall u k, (u, k) ∈ kw_drawn w -> (u, k) ∈ kw_drawn w') as Hsub by (intros u k Hk; rewrite Hd; by apply elem_of_app; right).
  assert (forall u v, (u, v) ∈ kw_given w' -> exists k, v = b64_encode k /\ (u, k) ∈ kw_drawn w') as Hg'
    by (intros u v Hv; rewrite Hgv in Hv; destruct (Hg u v Hv) as (k & -> & Hk); eauto).
  split; [|done|by rewrite Hgv].
  intros u v x Hl. rewrite Hgv. destruct Hm as [E|(req & k & y & -> & Ek & E)].
  - rewrite E in Hl. destruct (Hs u v x Hl) as [(k & -> & Hk) Hv]. eauto.
  - rewrite E in Hl. apply lookup_insert_Some in Hl as [[Eu Ev]|[_ Hl]].
    2: { destruct (Hs u v x Hl) as [(k' & -> & Hk) Hv]. eauto. }
    apply keyPrefix_inj in Eu as <-. injection Ev as <- _.
    assert (drawn e (Some req) = [(bq_PackageUUID req, k)]) as Ed by (unfold drawn; by rewrite Ek). rewrite Ed in Hd.
    split; [exists k; split; [done|]; rewrite Hd; apply list_elem_of_here|].
    intros ([u' v'] & Ev' & Hv)%list_elem_of_fmap. simpl in Ev'. subst v'.
    destruct (Hg u' _ Hv) as (k' & Ek' & Hk'). apply b64_encode_inj in Ek' as <-.
    rewrite Hd in Hn. simpl in Hn. apply NoDup_cons in Hn as [Hn _]. apply Hn, list_elem_of_fmap. by exists (u', k).
Qed.

Lemma retrieve_keeps_inv e body now m p ds gs m' p' r :
  key_inv (MkKworld now m p ds gs) -> NoDup ds.*2 -> api_Retrieve sv e body m p = (m', p', r) ->
  key_inv (MkKworld (en_now e) m' p' ds (given body r ++ gs)).
Proof.
  intros [Hs Hg Ho] Hn [[-> Hk]|(req & v & x & -> & -> & Hl & Hm)]%api_Retrieve_keys; cbn [kw_mercury kw_drawn kw_given] in *.
  - split; cbn [kw_mercury kw_drawn kw_given app]; [|done|done]. intros u v x Hl. by apply (Hs u v x), Hk.
  - destruct (Hs _ _ _ Hl) as [(k & -> & Hk) Hv]. split; cbn [kw_mercury kw_drawn kw_given app fmap list_fmap snd].
    + intros u w y Hw. rewrite Hm in Hw. apply lookup_delete_Some in Hw as [Hne Hw].
      destruct (Hs _ _ _ Hw) as [(k' & -> & Hk') Hv']. split; [eauto|].
      intros [E|?]%elem_of_cons; [|done]. apply b64_encode_inj in E as ->. apply Hne.
      by rewrite (drawn_unique ds _ u k Hn Hk Hk').
    + intros u w [[= -> ->]|Hw]%elem_of_cons; eauto.
    + by apply NoDup_cons.
Qed.

Lemma run_key_inv now w : rtc (key_step sv) (fresh_world now) w -> NoDup (kw_drawn w).*2 -> key_inv w.
Proof.
  intros Hrun. apply rtc_ind_r with (z := w) (P := fun w => NoDup (kw_drawn w).*2 -> key_inv w) in Hrun; [done|..].
  - intros _. split; cbn; [intros u v x E; by rewrite lookup_empty in E|intros u v E; by apply elem_of_nil in E|constructor].
  - intros y z _ Hstep IH Hn. destruct Hstep as [e body t m p ds gs m' p' r _ Hb|e body t m p ds gs m' p' r _ Hr].
    + eapply bind_keeps_inv with (e := e) (body := body); [apply IH|done..|]; cbn [kw_drawn kw_mercury] in *;
        [|by apply api_Bind_keys in Hb]. rewrite fmap_app in Hn. by apply NoDup_app in Hn as (_ & _ & ?).
    + by eapply retrieve_keeps_inv; [apply IH|..].
Qed.
End Delivery.

(** ** The quota *)

(** The credits a bind request was charged when it was granted, for the group of its pipeline. *)
Definition bind_granted (r : reply) : bool := match r with BindReply _ _ _ _ => true | _ => false end.
Definition charge (sv : server) (g : string) (body : option bindRequest) (r : reply) : Z :=
  match body with
  | Some req =>
      let policy := Lookup (sv_acl sv) (bq_PipelineName req) in
      if bind_granted r && String.eqb (po_Group policy) g then po_Cost policy else 0
  | None => 0
  end.

(** The credits granted to group [g] in a sequence of bind requests. *)
Fixpoint granted `{Hmac} (sv : server) (g : string) (reqs : list (env * option bindRequest)) (m : mercury) (p : pipeline) : Z :=
  match reqs with
  | [] => 0
  | (e, body) :: rest => let '(m', p', r) := api_Bind sv e body m p in charge sv g body r + granted sv g rest m' p'
  end.

(** [spent] credits are gone from the balance under [key] in the hour [h]. *)
Definition quota_inv (key : string) (h quota spent : Z) (q : cells Z) : Prop :=
  0 <= spent
  /\ match q !! key with
     | None => spent = 0
     | Some (b, exp) => 0 <= b /\ spent + b <= quota
         /\ match exp with Some x => 3600 * (h + 1) <= x | None => True end
     end.

Lemma hour_bounds (now h : Z) : now / 3600 = h -> 3600 * h <= now < 3600 * (h + 1).
Proof. intros <-. pose proof (Z.div_mod now 3600). pose proof (Z.mod_pos_bound now 3600). lia. Qed.

(** Deducting the cost of a request, under any key. *)
Lemma luaQuota_inv key h quota spent q now key' cost :
  quota_inv key h quota spent q -> 0 < cost -> now / 3600 = h ->
  quota_inv key h quota (spent + if (0 <=? snd (luaQuota now key' cost quota q)) && String.eqb key' key then cost else 0)
    (fst (luaQuota now key' cost quota q))
  /\ quota_inv key h quota spent (fst (luaQuota now key' cost quota q)).
Proof.
  intros [Hs Hq] Hc Ht. apply hour_bounds in Ht. unfold luaQuota.
  set (b := default quota (cell_get now key' q)).
  destruct (Z.ltb_spec b cost); cbn [fst snd].
  { change (0 <=? -1) with false. cbn [andb]. rewrite Z.add_0_r. by split; split. }
  rewrite (proj2 (Z.leb_le 0 (b - cost))) by lia. cbn [andb]. unfold cell_set. simpl (if 0 <? 3600 then _ else _).
  destruct (String.eqb_spec key' key) as [->|Hne].
  - assert (spent + b <= quota) as Hb.
    { unfold b, cell_get. destruct (q !! key) as [[v [x|]]|]; simpl; [|lia..].
      rewrite (proj2 (Z.ltb_lt now x)) by lia. simpl. lia. }
    split; (split; [lia|]); rewrite lookup_insert_eq; lia.
  - rewrite Z.add_0_r. split; (split; [done|]); by rewrite lookup_insert_ne.
Qed.

Lemma new_request_quota st f1 f2 now id a b c p : pl_quota (fst (new_request st f1 f2 now id a b c p)) = pl_quota p.
Proof. unfold new_request, save, publish. destruct id; [|done]. by destruct f1, f2. Qed.

Lemma check_member_quota sv e req policy p : pl_quota (fst (check_member sv e req policy p)) = pl_quota p.
Proof.
  unfold check_member, IsMember. destruct (String.eqb _ _); [done|].
  destruct (snd _) as [[[]|]|]; cbn [fst]; [done|apply new_request_quota|..];
    (destruct (en_member e) as [[]|]; [..|done]; destruct (en_fault e 1%nat); cbn [fst command set_ldap pl_quota]; try done;
     unfold Reject; by rewrite new_request_quota).
Qed.

Lemma check_quota_quota sv e req policy p p' c :
  check_quota sv e req policy p = (p', c) ->
  let '(q, r) := quota_Check (sv_quota sv) (en_fault e 4%nat) (en_now e) (po_Group policy) (po_Cost policy) (pl_quota p) in
  pl_quota p' = q /\ (c = None -> r = QuotaOk).
Proof.
  unfold check_quota. destruct (quota_Check _ _ _ _ _ _) as [q []]; intros [= <- <-]; [done| |done].
  unfold Reject. by rewrite new_request_quota.
Qed.

Lemma api_Bind_quota `{Hmac} sv e body m p m' p' r :
  api_Bind sv e body m p = (m', p', r) ->
  (pl_quota p' = pl_quota p /\ bind_granted r = false)
  \/ exists req, body = Some req /\
     let policy := Lookup (sv_acl sv) (bq_PipelineName req) in
     let '(q, qr) := quota_Check (sv_quota sv) (en_fault e 4%nat) (en_now e) (po_Group policy) (po_Cost policy) (pl_quota p) in
     pl_quota p' = q /\ (bind_granted r = true -> qr = QuotaOk).
Proof.
  unfold api_Bind. intros E. destruct body as [req|]; [|simplify_eq; auto].
  destruct (_ || _); [simplify_eq; auto|]. cbn zeta in *. set (policy := Lookup _ _) in *.
  pose proof (check_member_quota sv e req policy p) as H1.
  destruct (check_member _ _ _ _ _) as [p1 [c|]]; cbn [fst] in H1; [simplify_eq; auto|].
  right. exists req. split; [done|]. rewrite <- H1.
  destruct (check_quota sv e req policy p1) as [p2 c] eqn:E2. apply check_quota_quota in E2.
  destruct (quota_Check _ _ _ _ _ _) as [q qr]. destruct E2 as [<- Hc]. destruct c as [c|]; [by simplify_eq|].
  destruct (Bind _ _ _ _ _ _) as [m1 [b|]]; [|by simplify_eq].
  destruct (Create _ _ _ _ _ _ _ _) as [p3 rec] eqn:E3. simplify_eq. split; [|auto].
  pose proof (new_request_quota StateApproved (en_fault e 8%nat) (en_fault e 9%nat) (en_now e) (en_id e)
    (bq_PackageUUID req) (bq_PipelineName req) (bq_Caller req) p2) as H3. unfold Create in E3. by rewrite E3 in H3.
Qed.

Lemma Lookup_cost_pos (a : ACL) (name : string) : 0 < acl_DefaultCost a -> 0 < po_Cost (Lookup a name).
Proof.
  intros Ha. unfold Lookup. destruct (acl_Pipelines a !! name) as [e|]; [|done]. cbn.
  destruct (Z.leb_spec (po_Cost e) 0); lia.
Qed.

Lemma api_Bind_inv `{Hmac} sv e body m p m' p' r g h spent :
  0 < acl_DefaultCost (sv_acl sv) -> en_now e / 3600 = h -> api_Bind sv e body m p = (m', p', r) ->
  quota_inv (quota_key g h) h (sv_quota sv) spent (pl_quota p) ->
  quota_inv (quota_key g h) h (sv_quota sv) (spent + charge sv g body r) (pl_quota p').
Proof.
  intros Ha Ht Hb Hi. apply api_Bind_quota in Hb as [[-> Hr]|(req & -> & Hq)].
  { unfold charge. destruct body; rewrite ?Hr; cbn [andb]; by rewrite Z.add_0_r. }
  cbn zeta in Hq. unfold charge. set (policy := Lookup _ _) in *.
  assert (0 < po_Cost policy) as Hc by (by apply Lookup_cost_pos).
  unfold quota_Check in Hq. rewrite Ht in Hq.
  destruct (luaQuota_inv (quota_key g h) h (sv_quota sv) spent (pl_quota p) (en_now e) (quota_key (po_Group policy) h)
    (po_Cost policy) Hi Hc Ht) as [H1 H2].
  destruct (luaQuota _ _ _ _ _) as [q rem] eqn:El; cbn [fst snd] in H1, H2.
  destruct (en_fault e 4%nat); cbn [command] in Hq; rewrite ?El in Hq; destruct Hq as [-> Hok]; cbn [fst].
  - destruct (bind_granted r); cbn [andb]; [|by rewrite Z.add_0_r]. specialize (Hok eq_refl).
    destruct (Z.ltb_spec rem 0); [done|]. rewrite (proj2 (Z.leb_le 0 rem)) in H1 by lia. cbn [andb] in H1.
    destruct (String.eqb_spec (po_Group policy) g) as [E|]; [|by rewrite Z.add_0_r].
    by rewrite E, String.eqb_refl in H1.
  - destruct (bind_granted r); [by specialize (Hok eq_refl)|]. cbn [andb]. by rewrite Z.add_0_r.
  - destruct (bind_granted r); [by specialize (Hok eq_refl)|]. cbn [andb]. by rewrite Z.add_0_r.
Qed.

Lemma granted_inv `{Hmac} sv g h reqs m p spent :
  0 < acl_DefaultCost (sv_acl sv) -> 0 <= sv_quota sv -> Forall (fun x => en_now (fst x) / 3600 = h) reqs ->
  quota_inv (quota_key g h) h (sv_quota sv) spent (pl_quota p) -> spent + granted sv g reqs m p <= sv_quota sv.
Proof.
  intros Ha Hq Hall. revert m p spent. induction Hall as [|[e body] reqs He _ IH]; intros m p spent Hi; cbn [granted].
  - destruct Hi as [_ Hi]. destruct (pl_quota p !! _) as [[b x]|]; lia.
  - destruct (api_Bind sv e body m p) as [[m' p'] r] eqn:Eb. rewrite Z.add_assoc. eapply IH, api_Bind_inv; eauto.
Qed.

(** ** Reading a key back *)

Lemma keys_bound `{Hmac} sv e req m p m' p' id key mac mode :
  api_Bind sv e (Some req) m p = (m', p', BindReply id key mac mode) ->
  exists k, en_key e = Some k /\ key = b64_encode k /\ mode = st_mode (sv_store sv)
    /\ mac = hex_encode (hmac_sha256 (st_secret (sv_store sv)) (hmac_payload (bq_PackageUUID req) (mode_text mode)))
    /\ m_keys m' = cell_set (en_now e) (keyPrefix +:+ bq_PackageUUID req) key (st_ttl (sv_store sv)) (m_keys m)
    /\ String.eqb (bq_PackageUUID req) "" = false.
Proof.
  unfold api_Bind. destruct (String.eqb (bq_PackageUUID req) ""); [done|]. cbn [orb].
  destruct (String.eqb (bq_PipelineName req) ""); [done|].
  destruct (check_member _ _ _ _ _) as [p1 [c|]]; [done|].
  destruct (check_quota _ _ _ _ _) as [p2 [c|]]; [done|].
  unfold Bind. destruct (en_key e) as [k|]; [|done]. destruct (en_fault e 7%nat); cbn [command]; [|done|done].
  destruct (Create _ _ _ _ _ _ _ _). intros [= <- _ _ <- <- <-]. eauto 10.
Qed.

(** A retrieve request whose commands all run. *)
Lemma retrieve_live sv e req m p v :
  String.eqb (tq_PackageUUID req) "" = false -> en_fault e 0%nat = NoFault ->
  cell_get (en_now e) (keyPrefix +:+ tq_PackageUUID req) (m_keys m) = Some v ->
  exists p', api_Retrieve sv e (Some req) m p =
    (MkMercury (delete (keyPrefix +:+ tq_PackageUUID req) (m_keys m))
       (cell_set (en_now e) (burnedPrefix +:+ tq_PackageUUID req) (MkBurnedMarker (st_mode (sv_store sv)) (en_now e)) burnedTTL
          (m_marks m)), p', RetrieveReply v).
Proof. intros Hu Hf Hg. unfold api_Retrieve, BurnOnRead, burnScript. rewrite Hu, Hf. cbn [command]. rewrite Hg. by eexists. Qed.

Lemma DecodeKey_encoded (k : string) : String.length k = 32%nat -> DecodeKey (XmlError := unit) (b64_encode k) = Ok k.
Proof. intros Hk. unfold DecodeKey. by rewrite b64_decode_encode, Hk. Qed.

(** ** Properties *)

(** An HMAC for the examples, and a server with a short acl. *)
Definition demo_hmac : Hmac := {| hmac_sha256 secret msg := map byte_val (list_ascii_of_string (secret +:+ msg)) |}.
Definition demo_raw_key : string := "0123456789abcdef0123456789abcdef".
Definition demo_server : server := MkServer (MkStore "s3cret" 300 ModeDev) 5 default_acl 120.
Definition demo_env (now : Z) : env := MkEnv now (Some demo_raw_key) (Some "id1") (Some true) (fun _ => NoFault).
Definition demo_bind : bindRequest := MkBindRequest "pkg-1" "salary" "svc".
Definition demo_retrieve : retrieveRequest := MkRetrieveRequest "pkg-1" "id1" "bob".
Definition demo_bound : mercury * pipeline * reply :=
  api_Bind (H := demo_hmac) demo_server (demo_env 100) (Some demo_bind) empty_mercury empty_pipeline.
Definition demo_given : mercury * pipeline * reply :=
  api_Retrieve demo_server (demo_env 200) (Some demo_retrieve) demo_bound.1.1 demo_bound.1.2.

(** C3. A key is delivered at most once: in every run of bind and retrieve requests, in any order, for any
    packages, with any Redis command failing before or after it took effect, if the random source never
    repeats a key then no key is in two replies, and every key delivered was drawn for the package it was
    asked for. *)
Theorem key_delivered_at_most_once `{Hmac} (sv : server) (now : Z) (w : kworld) :
  rtc (key_step sv) (fresh_world now) w -> NoDup (kw_drawn w).*2 ->
  NoDup (kw_given w).*2
  /\ forall u v, (u, v) ∈ kw_given w -> exists k, v = b64_encode k /\ (u, k) ∈ kw_drawn w.
Proof. intros Hrun Hn. by destruct (run_key_inv sv now w Hrun Hn). Qed.

Lemma key_delivered_at_most_once_witness :
  NoDup [b64_encode demo_raw_key]
  /\ forall u v, (u, v) ∈ [("pkg-1", b64_encode demo_raw_key)] -> exists k, v = b64_encode k /\ (u, k) ∈ [("pkg-1", demo_raw_key)].
Proof.
  apply (@key_delivered_at_most_once demo_hmac demo_server 0
    (MkKworld 200 demo_given.1.1 demo_given.1.2 [("pkg-1", demo_raw_key)] [("pkg-1", b64_encode demo_raw_key)])).
  - eapply rtc_l; [apply (@step_bind demo_hmac demo_server (demo_env 100) (Some demo_bind) 0 empty_mercury empty_pipeline
      [] [] demo_bound.1.1 demo_bound.1.2 demo_bound.2); [done|reflexivity]|].
    eapply rtc_l; [apply (@step_retrieve demo_hmac demo_server (demo_env 200) (Some demo_retrieve) 100 demo_bound.1.1 demo_bound.1.2
      [("pkg-1", demo_raw_key)] [] demo_given.1.1 demo_given.1.2 demo_given.2); [done|reflexivity]|].
    apply rtc_refl.
  - apply NoDup_singleton.
Defined.

(** C33. The hourly quota is never overspent: whatever bind requests arrive within an hour, with Redis commands
    failing at any point, the credits granted to a group sum to no more than its hourly balance. *)
Theorem quota_never_overspent `{Hmac} (sv : server) (g : string) (h : Z) (reqs : list (env * option bindRequest))
  (m : mercury) (p : pipeline) :
  0 < acl_DefaultCost (sv_acl sv) -> 0 <= sv_quota sv -> pl_quota p !! quota_key g h = None ->
  Forall (fun x => en_now (fst x) / 3600 = h) reqs ->
  granted sv g reqs m p <= sv_quota sv.
Proof.
  intros Ha Hq Hp Hall. apply (granted_inv sv g h reqs m p 0); try done. split; [done|]. by rewrite Hp.
Qed.

Lemma quota_never_overspent_witness :
  granted (H := demo_hmac) demo_server "tdtp-pipeline-users" (replicate 7 (demo_env 100, Some demo_bind)) empty_mercury empty_pipeline
  <= 5.
Proof.
  apply (@quota_never_overspent demo_hmac demo_server "tdtp-pipeline-users" 0); try reflexivity; [discriminate|].
  by repeat constructor.
Defined.

(** The producer and the consumer get the same key: when a bind request is granted, the producer that
    shares the server's secret accepts the reply and gets the 32 bytes drawn, and a consumer that asks
    before the key expires, and whose request reaches Redis, gets the same bytes.  This holds whichever
    mode the server runs in: the mode that enters the HMAC is the one the reply names. *)
Theorem bound_key_reaches_consumer `{Hmac} (sv : server) (e1 e2 : env) (breq : bindRequest) (treq : retrieveRequest)
  (m m1 : mercury) (p p1 p2 : pipeline) (k id keyB64 mac : string) (mode : Mode) :
  api_Bind sv e1 (Some breq) m p = (m1, p1, BindReply id keyB64 mac mode) ->
  en_key e1 = Some k -> String.length k = 32%nat -> st_secret (sv_store sv) <> "" ->
  tq_PackageUUID treq = bq_PackageUUID breq -> en_fault e2 0%nat = NoFault ->
  0 < st_ttl (sv_store sv) -> en_now e2 < en_now e1 + st_ttl (sv_store sv) ->
  bindAndDecodeKey (st_secret (sv_store sv)) (bq_PackageUUID breq) (BindKey (BindReply id keyB64 mac mode)) = Ok k
  /\ exists m2 p3, api_Retrieve sv e2 (Some treq) m1 p2 = (m2, p3, RetrieveReply keyB64)
     /\ DecodeKey (XmlError := unit) keyB64 = Ok k.
Proof.
  intros (k' & Ek & -> & -> & -> & Hm & Hu)%keys_bound Ek' Hk Hs Eu Hf Httl Hnow.
  rewrite Ek in Ek'. injection Ek' as ->.
  apply DecodeKey_encoded in Hk as Hd. split.
  - unfold bindAndDecodeKey, check_. cbn [BindKey kb_HMAC kb_Mode kb_KeyB64]. unfold VerifyHMAC.
    rewrite (proj2 (String.eqb_neq _ _) Hs), String.eqb_refl, andb_false_r. by rewrite Hd.
  - edestruct (retrieve_live sv e2 treq m1 p2 (b64_encode k)) as [p3 E]; [by rewrite Eu|done| |by eauto].
    rewrite Hm, Eu. unfold cell_get, cell_set. rewrite lookup_insert_eq, (proj2 (Z.ltb_lt 0 _)) by done.
    by rewrite (proj2 (Z.ltb_lt _ _)) by done.
Qed.

Lemma bound_key_reaches_consumer_witness :
  exists mac,
  bindAndDecodeKey (H := demo_hmac) "s3cret" "pkg-1" (BindKey (BindReply "id1" (b64_encode demo_raw_key) mac ModeDev)) = Ok demo_raw_key
  /\ exists m2 p3, api_Retrieve demo_server (demo_env 200) (Some demo_retrieve) demo_bound.1.1 empty_pipeline
     = (m2, p3, RetrieveReply (b64_encode demo_raw_key))
     /\ DecodeKey (XmlError := unit) (b64_encode demo_raw_key) = Ok demo_raw_key.
Proof.
  eexists. apply (@bound_key_reaches_consumer demo_hmac demo_server (demo_env 100) (demo_env 200) demo_bind demo_retrieve
    empty_mercury demo_bound.1.1 empty_pipeline demo_bound.1.2 empty_pipeline demo_raw_key "id1" (b64_encode demo_raw_key) _ ModeDev);
    try reflexivity. discriminate.
Defined.

(** A second reading is reported as such: after a key was delivered, the next request for its package
    within a day gets the marker of the first one, with the mode of the server and the time of the burn. *)
Theorem second_reading_reported (sv : server) (e1 e2 : env) (r1 r2 : retrieveRequest) (m m1 : mercury)
  (p p1 p2 : pipeline) (keyB64 : string) :
  api_Retrieve sv e1 (Some r1) m p = (m1, p1, RetrieveReply keyB64) ->
  tq_PackageUUID r2 = tq_PackageUUID r1 -> en_fault e2 0%nat = NoFault -> en_fault e2 1%nat = NoFault ->
  en_now e2 < en_now e1 + burnedTTL ->
  exists m2, api_Retrieve sv e2 (Some r2) m1 p2
    = (m2, p2, BurnedReply (MkBurnedMarker (st_mode (sv_store sv)) (en_now e1))).
Proof.
  intros H Eu Hf0 Hf1 Hnow. unfold api_Retrieve in H.
  destruct (String.eqb (tq_PackageUUID r1) "") eqn:Hu; [done|]. unfold BurnOnRead, burnScript in H.
  destruct (en_fault e1 0%nat); cbn [command] in H; [|done|done].
  destruct (cell_get _ _ (m_keys m)) as [v|]; cbn [fst snd] in H; cycle 1.
  { by destruct (CheckBurnedMarker _ _ _ _) as [[]|]. }
  injection H as <- _ _. unfold api_Retrieve, BurnOnRead, burnScript, CheckBurnedMarker. rewrite Eu, Hu, Hf0, Hf1.
  cbn [command m_keys m_marks]. unfold cell_get at 1. rewrite lookup_delete_eq. cbn [m_marks snd].
  unfold cell_get, cell_set. rewrite lookup_insert_eq. change (0 <? burnedTTL) with true. cbv iota.
  rewrite (proj2 (Z.ltb_lt (en_now e2) _)) by done. by eexists.
Qed.

Lemma second_reading_reported_witness :
  exists m2, api_Retrieve demo_server (demo_env 500) (Some demo_retrieve) demo_given.1.1 empty_pipeline
    = (m2, empty_pipeline, BurnedReply (MkBurnedMarker ModeDev 200)).
Proof.
  apply (second_reading_reported demo_server (demo_env 200) (demo_env 500) demo_retrieve demo_retrieve demo_bound.1.1
    demo_given.1.1 demo_bound.1.2 demo_given.1.2 empty_pipeline (b64_encode demo_raw_key)); reflexivity.
Defined.

(** The HMAC does not cover the key: if a producer accepts a binding, it accepts the same binding with any
    other 32-byte key in it, and encrypts with that key. *)
Theorem hmac_does_not_cover_key `{Hmac} (secret uuid k k' : string) (b : KeyBinding) :
  bindAndDecodeKey secret uuid (Ok b) = Ok k -> String.length k' = 32%nat ->
  bindAndDecodeKey secret uuid (Ok (MkKeyBinding (b64_encode k') (kb_HMAC b) (kb_Mode b))) = Ok k'.
Proof.
  unfold bindAndDecodeKey, check_. cbn [kb_KeyB64 kb_HMAC kb_Mode]. intros E Hk.
  destruct (String.eqb secret ""); [done|]. destruct (_ && _); [done|]. by rewrite DecodeKey_encoded.
Qed.

Lemma hmac_does_not_cover_key_witness :
  exists mac, bindAndDecodeKey (H := demo_hmac) "s3cret" "pkg-1"
    (Ok (MkKeyBinding (b64_encode "attacker-key-attacker-key-12345!") mac "dev")) = Ok "attacker-key-attacker-key-12345!".
Proof.
  eexists. apply (@hmac_does_not_cover_key demo_hmac "s3cret" "pkg-1" demo_raw_key _
    (MkKeyBinding (b64_encode demo_raw_key) (match demo_bound.2 with BindReply _ _ mac _ => mac | _ => "" end) "dev"));
    vm_compute; reflexivity.
Defined.
