(* ===== verification/GoMaps.v ===== *)
(** * Go maps

    A Go map is a [gmap]; ranging over it visits every entry once, in an order the language leaves
    open, so the order is an interface with that one law.  Also the loops that fill a map from rows by a
    key, as the merge and diff packages write them, and what such a map holds. *)

From Stdlib Require Import ZArith Lia String.
From stdpp Require Import base list gmap strings.
From S2P Require Import Prelude.

(** [for k, v := range m]. *)
Class GoRange := range_entries : forall K `{Countable K} V, gmap K V -> list (K * V).
Arguments range_entries {_ K _ _ V} m.

Class GoRangeLaws (R : GoRange) : Prop :=
  range_permutation : forall K `{Countable K} V (m : gmap K V), range_entries m ≡ₚ map_to_list m.

#[export] Instance tree_range : GoRange := fun K _ _ V m => map_to_list m.
#[export] Instance tree_range_laws : GoRangeLaws tree_range.
Proof. by intros K ?? V m. Qed.

Lemma range_keys `{GoRangeLaws} `{Countable K} {V} (m : gmap K V) (k : K) :
  k ∈ map fst (range_entries m) <-> is_Some (m !! k).
Proof.
  rewrite list_elem_of_fmap. setoid_rewrite range_permutation. split.
  - intros ([k' v] & -> & Hin%elem_of_map_to_list). by eexists.
  - intros [v Hv]. exists (k, v). by rewrite elem_of_map_to_list.
Qed.

(** The entries of a map, listed by any list of its keys. *)
Lemma NoDup_fst_omap_pair {K V} (f : K -> option V) (ks : list K) :
  NoDup ks -> NoDup (omap (fun k => pair k <$> f k) ks).*1.
Proof.
  intros Hks. induction Hks as [|k ks Hk _ IH]; simpl; [constructor|].
  destruct (f k) as [v|]; simpl; [|done]. constructor; [|done].
  intros ((k' & v') & -> & Hin)%list_elem_of_fmap. apply list_elem_of_omap in Hin as (k2 & Hk2 & E).
  destruct (f k2); by simplify_eq/=.
Qed.

Lemma NoDup_omap_pair {K V} (f : K -> option V) (ks : list K) :
  NoDup ks -> NoDup (omap (fun k => pair k <$> f k) ks).
Proof. intros Hks. by apply (NoDup_fmap_1 fst), NoDup_fst_omap_pair. Qed.

Lemma map_snd_omap_pair {K V} (f : K -> option V) (ks : list K) :
  map snd (omap (fun k => pair k <$> f k) ks) = omap f ks.
Proof.
  induction ks as [|k ks IH]; simpl; [done|]. destruct (f k); simpl; [f_equal; exact IH|exact IH].
Qed.

(** What is selected by key does not depend on the order of the keys, nor on those not selected. *)
Lemma omap_keys_Permutation {K V} (f : K -> option V) (ks1 ks2 : list K) :
  NoDup ks1 -> NoDup ks2 -> (forall k, is_Some (f k) -> k ∈ ks1 <-> k ∈ ks2) ->
  omap f ks1 ≡ₚ omap f ks2.
Proof.
  intros H1 H2 Hk. rewrite <- (map_snd_omap_pair f ks1), <- (map_snd_omap_pair f ks2). apply Permutation_map.
  apply NoDup_Permutation; [by apply NoDup_omap_pair..|].
  assert (forall k' k v, pair k' <$> f k' = Some (k, v) -> is_Some (f k')) as Hs.
  { intros k' k v E. destruct (f k'); [by eexists|done]. }
  intros [k v]. rewrite !list_elem_of_omap.
  split; intros (k' & Hin & E); exists k'; (split; [|exact E]); by apply (Hk k' (Hs _ _ _ E)).
Qed.

Lemma entries_by_keys `{GoRangeLaws} `{Countable K} {V} (m : gmap K V) (ks : list K) :
  NoDup ks -> (forall k, is_Some (m !! k) -> k ∈ ks) ->
  range_entries m ≡ₚ omap (fun k => pair k <$> m !! k) ks.
Proof.
  intros Hnd Hks. rewrite range_permutation.
  apply NoDup_Permutation; [apply NoDup_map_to_list|by apply NoDup_omap_pair|].
  intros [k v]. rewrite elem_of_map_to_list, list_elem_of_omap. split.
  - intros E. exists k. rewrite E. split; [|done]. apply Hks. by eauto.
  - intros (k' & _ & E). destruct (m !! k') eqn:E'; by simplify_eq/=.
Qed.

(** Two functions that agree on a list select the same elements of it. *)
Lemma Forall_omap_ext {A B} (f g : A -> option B) (l : list A) :
  Forall (fun x => f x = g x) l -> omap f l = omap g l.
Proof.
  induction 1 as [|x l Hx _ IH]; simpl; [done|]. rewrite Hx.
  destruct (g x); [f_equal; exact IH|exact IH].
Qed.

(** ** Rows by key *)

Section Rows.
  Context {A : Type} (key : A -> string).

Definition rows_of (k : string) (xs : list A) : list A := filter (fun x => key x = k) xs.
Definition distinct_keys (xs : list A) : list string := remove_dups (map key xs).

Lemma elem_of_distinct_keys (k : string) (xs : list A) : k ∈ distinct_keys xs <-> k ∈ map key xs.
Proof. apply elem_of_remove_dups. Qed.

Lemma rows_of_nil (k : string) (xs : list A) : rows_of k xs = [] <-> k ∉ map key xs.
Proof.
  unfold rows_of. induction xs as [|x xs IH]; simpl; [set_solver|].
  rewrite filter_cons. destruct (decide (key x = k)); set_solver.
Qed.

(** Rows with distinct keys all stay, each the only one of its key. *)
Lemma rows_of_NoDup (xs : list A) (x : A) :
  NoDup (map key xs) -> x ∈ xs -> rows_of (key x) xs = [x].
Proof.
  unfold rows_of. induction xs as [|y xs IH]; simpl; [set_solver|].
  intros [Hy Hnd]%NoDup_cons [->|Hin]%elem_of_cons; rewrite filter_cons.
  - rewrite decide_True by done. f_equal. by apply rows_of_nil.
  - rewrite decide_False; [by apply IH|]. intros E. apply Hy. rewrite E. by apply list_elem_of_fmap_2.
Qed.
End Rows.

(** ** Filling a map by key *)

Section Keyed.
  Context {A : Type} (key : A -> string) (use : A -> A -> bool).

(** [if existing, ok := m[key]; ok { if use(existing, row) { m[key] = row } } else { m[key] = row }]. *)
Definition put_row (m : gmap string A) (x : A) : gmap string A :=
  match m !! key x with
  | Some e => if use e x then <[key x := x]> m else m
  | None => <[key x := x]> m
  end.

(** What is left of the rows of one key, in their order. *)
Definition winner (xs : list A) : option A :=
  match xs with
  | [] => None
  | x :: rest => Some (foldl (fun e y => if use e y then y else e) x rest)
  end.

Lemma winner_snoc (xs : list A) (x : A) :
  winner (xs ++ [x]) = Some (match winner xs with Some e => if use e x then x else e | None => x end).
Proof. destruct xs as [|y xs]; simpl; [done|]. by rewrite foldl_app. Qed.

Lemma lookup_put_rows (xs : list A) (k : string) :
  foldl put_row ∅ xs !! k = winner (rows_of key k xs).
Proof.
  induction xs as [|x xs IH] using rev_ind; [apply lookup_empty|].
  rewrite foldl_app. cbn [foldl]. unfold put_row at 1, rows_of.
  rewrite filter_app. destruct (decide (key x = k)) as [<-|Hk].
  - rewrite filter_cons, decide_True, filter_nil by done.
    rewrite winner_snoc. fold (rows_of key (key x) xs). rewrite <- IH.
    destruct (_ !! key x) as [e|] eqn:E; [|by rewrite lookup_insert_eq].
    destruct (use e x); [by rewrite lookup_insert_eq|done].
  - rewrite filter_cons, decide_False, filter_nil, app_nil_r by done. fold (rows_of key k xs). rewrite <- IH.
    destruct (_ !! key x) as [e|]; [|by rewrite lookup_insert_ne].
    destruct (use e x); [by rewrite lookup_insert_ne|done].
Qed.

Lemma winner_Some (k : string) (xs : list A) :
  is_Some (winner (rows_of key k xs)) <-> k ∈ map key xs.
Proof.
  destruct (rows_of key k xs) as [|y ys] eqn:E; simpl.
  - apply rows_of_nil in E. split; [by intros []|done].
  - split; [|by eauto]. intros _. destruct (decide (k ∈ map key xs)) as [|Hn]; [done|].
    apply rows_of_nil in Hn. congruence.
Qed.

Lemma winner_elem (xs : list A) (x : A) : winner xs = Some x -> x ∈ xs.
Proof.
  revert x; induction xs as [|y xs IH] using rev_ind; intros x; [done|].
  rewrite winner_snoc. intros [= <-]. destruct (winner xs) as [e|]; [|set_solver].
  destruct (use e y); [set_solver|]. apply elem_of_app. left. by apply IH.
Qed.

Lemma winner_of_key (k : string) (xs : list A) (x : A) :
  winner (rows_of key k xs) = Some x -> x ∈ xs /\ key x = k.
Proof. intros H. apply winner_elem, list_elem_of_filter in H. tauto. Qed.

(** The entries of the filled map: one per distinct key, in any order. *)
Lemma put_rows_entries `{GoRangeLaws} (xs : list A) :
  range_entries (foldl put_row ∅ xs)
  ≡ₚ omap (fun k => pair k <$> winner (rows_of key k xs)) (distinct_keys key xs).
Proof.
  rewrite (entries_by_keys _ (distinct_keys key xs)).
  - apply reflexive_eq, Forall_omap_ext, Forall_forall. intros k _. by rewrite lookup_put_rows.
  - apply NoDup_remove_dups.
  - intros k. rewrite lookup_put_rows, winner_Some. apply elem_of_distinct_keys.
Qed.

End Keyed.

(** Always keeping the existing row keeps the first; always taking the new one keeps the last. *)
Lemma winner_first {A} (xs : list A) : winner (fun _ _ => false) xs = head xs.
Proof.
  destruct xs as [|x xs]; [done|]. simpl. f_equal. by induction xs as [|y xs IH] in x |- *; simpl.
Qed.

Lemma winner_last {A} (xs : list A) : winner (fun _ _ => true) xs = last xs.
Proof.
  induction xs as [|x xs IH] using rev_ind; [done|]. rewrite winner_snoc, last_snoc.
  by destruct (winner _ xs).
Qed.

(** [m[key] = row] for every row is filling that always takes the new row. *)
Lemma put_row_overwrite {A} (key : A -> string) (m : gmap string A) (x : A) :
  put_row key (fun _ _ => true) m x = <[key x := x]> m.
Proof. unfold put_row. by destruct (m !! key x). Qed.

Lemma overwrite_fold {A} (key : A -> string) (xs : list A) (m : gmap string A) :
  foldl (fun m x => <[key x := x]> m) m xs = foldl (put_row key (fun _ _ => true)) m xs.
Proof.
  induction xs as [|x xs IH] in m |- *; simpl; [done|]. by rewrite put_row_overwrite, IH.
Qed.
