(* ===== verification/MergePkg.v ===== *)
(** * Merging packets

    The package [src/pkg/merge/merge.go]: several packets of one table become one, by union, intersection,
    left or right priority, or appending.  The order in which the source ranges over its row map is the
    interface [GoRange]; the identifier and the clock reading of the new packet are arguments.  The rows
    merged are those of the data sections, as in the source. *)

From Stdlib Require Import ZArith Lia String.
From stdpp Require Import base list gmap strings.
From S2P Require Import Prelude Strconv PacketTypes RowCodec PacketOps GoMaps.

(** ** Data *)

Definition MergeStrategy := Z.
Definition StrategyUnion : MergeStrategy := 0%Z.
Definition StrategyIntersection : MergeStrategy := 1%Z.
Definition StrategyLeftPriority : MergeStrategy := 2%Z.
Definition StrategyRightPriority : MergeStrategy := 3%Z.
Definition StrategyAppend : MergeStrategy := 4%Z.

Record MergeOptions := MkMergeOptions {
  mo_Strategy : MergeStrategy;
  mo_KeyFields : list string;
  mo_ConflictResolver : option (list string -> list string -> Schema -> bool);
}.

Record MergeStats := MkMergeStats {
  mst_TotalPackets : nat;
  mst_TotalRowsIn : nat;
  mst_TotalRowsOut : nat;
  mst_Duplicates : nat;
  mst_ConflictsCount : nat;
}.

Record Conflict := MkConflict {
  cf_Key : string;
  cf_ExistingRow : list string;
  cf_ConflictingRow : list string;
  cf_Resolution : string;
}.

Record MergeResult := MkMergeResult {
  mr_Packet : DataPacket;
  mr_Stats : MergeStats;
  mr_Conflicts : list Conflict;
}.

Inductive SchemaMismatch :=
| FieldCountDiffers (a b : nat)
| FieldNameDiffers (pos : nat) (a b : string)
| FieldTypeDiffers (name a b : string).

Inductive MergeError :=
| NoPackets
| DifferentTable (i : nat) (table base : string)
| MergeSchemaMismatch (i : nat) (e : SchemaMismatch)
| MergeNoKeyFields
| UnknownStrategy (s : MergeStrategy)
| UnknownStrategyName (s : string).

Record Merger := MkMerger { mg_options : MergeOptions }.

Definition NewMerger (options : MergeOptions) : Merger :=
  if (mo_Strategy options =? 0)%Z
  then MkMerger (MkMergeOptions StrategyUnion (mo_KeyFields options) (mo_ConflictResolver options))
  else MkMerger options.

(** ** Helpers *)

(** [buildKey]: a key index beyond the row is left out. *)
Definition key_cells (row : list string) (keyIndices : list nat) : list string :=
  omap (fun idx => row !! idx) keyIndices.
Definition buildKey (keyIndices : list nat) (row : list string) : string :=
  Join (key_cells row keyIndices) "|".

Fixpoint names_from (i : nat) (a b : list Field) : result SchemaMismatch () :=
  match a, b with
  | fa :: a', fb :: b' =>
      fail_if negb (String.eqb (f_Name fa) (f_Name fb))
        with FieldNameDiffers i (f_Name fa) (f_Name fb) ;;
      names_from (S i) a' b'
  | _, _ => Ok ()
  end.
Definition validateSchemas (a b : Schema) : result SchemaMismatch () :=
  fail_if negb (length (s_Fields a) =? length (s_Fields b))%nat
    with FieldCountDiffers (length (s_Fields a)) (length (s_Fields b)) ;;
  names_from 0 (s_Fields a) (s_Fields b).

Section Merge.
  Context `{GoRange} (uuid : string) (now : Z).

Definition buildPacket (rows : list (list string)) (schema : Schema) (tableName : string) : DataPacket :=
  let pkt := NewDataPacket uuid now TypeReference tableName in
  set_p_Data (RowsToData rows) (set_p_Schema schema pkt).

(** [packets[0].Header.TableName]; [Merge] never passes an empty list. *)
Definition first_table (packets : list DataPacket) : string :=
  match packets with p :: _ => h_TableName (p_Header p) | [] => "" end.

(** The variables of the deduplicating loops: [rowMap] and the fields of [result] they change. *)
Record MergeLoop := MkMergeLoop {
  ml_rowMap : gmap string (list string);
  ml_TotalRowsIn : nat;
  ml_Duplicates : nat;
  ml_ConflictsCount : nat;
  ml_Conflicts : list Conflict;
}.
Definition loop_start : MergeLoop := MkMergeLoop ∅ 0 0 0 [].

(** [for _, pkt := range packets { rows := ParseRows(...); TotalRowsIn += len(rows); for ... }]. *)
Definition merge_packet (each : MergeLoop -> list string -> MergeLoop) (st : MergeLoop) (pkt : DataPacket)
    : MergeLoop :=
  let rows := ParseRows (d_Rows (p_Data pkt)) in
  foldl each
    (MkMergeLoop (ml_rowMap st) (ml_TotalRowsIn st + length rows) (ml_Duplicates st)
       (ml_ConflictsCount st) (ml_Conflicts st)) rows.

Definition loop_result (packets : list DataPacket) (schema : Schema) (st : MergeLoop) : MergeResult :=
  let mergedRows := map snd (range_entries (ml_rowMap st)) in
  MkMergeResult (buildPacket mergedRows schema (first_table packets))
    (MkMergeStats (length packets) (ml_TotalRowsIn st) (length mergedRows) (ml_Duplicates st)
       (ml_ConflictsCount st))
    (ml_Conflicts st).

(** ** mergeUnion *)

Definition union_row (m : Merger) (schema : Schema) (keyIndices : list nat) (st : MergeLoop)
    (row : list string) : MergeLoop :=
  let key := buildKey keyIndices row in
  match ml_rowMap st !! key with
  | Some existingRow =>
      let useNew := match mo_ConflictResolver (mg_options m) with
                    | Some resolver => resolver existingRow row schema
                    | None => false
                    end in
      if useNew
      then MkMergeLoop (<[key := row]> (ml_rowMap st)) (ml_TotalRowsIn st) (S (ml_Duplicates st))
             (S (ml_ConflictsCount st)) (ml_Conflicts st ++ [MkConflict key existingRow row "used_new"])
      else MkMergeLoop (ml_rowMap st) (ml_TotalRowsIn st) (S (ml_Duplicates st))
             (S (ml_ConflictsCount st)) (ml_Conflicts st ++ [MkConflict key existingRow row "kept_existing"])
  | None =>
      MkMergeLoop (<[key := row]> (ml_rowMap st)) (ml_TotalRowsIn st) (ml_Duplicates st)
        (ml_ConflictsCount st) (ml_Conflicts st)
  end.

Definition mergeUnion (m : Merger) (packets : list DataPacket) (schema : Schema) (keyFields : list string)
    : MergeResult :=
  let keyIndices := GetFieldIndices schema keyFields in
  loop_result packets schema
    (foldl (merge_packet (union_row m schema keyIndices)) loop_start packets).

(** ** mergeWithPriority *)

Definition priority_row (keyIndices : list nat) (leftPriority : bool) (st : MergeLoop)
    (row : list string) : MergeLoop :=
  let key := buildKey keyIndices row in
  match ml_rowMap st !! key with
  | Some existingRow =>
      if leftPriority
      then MkMergeLoop (ml_rowMap st) (ml_TotalRowsIn st) (S (ml_Duplicates st))
             (S (ml_ConflictsCount st)) (ml_Conflicts st ++ [MkConflict key existingRow row "kept_existing"])
      else MkMergeLoop (<[key := row]> (ml_rowMap st)) (ml_TotalRowsIn st) (S (ml_Duplicates st))
             (S (ml_ConflictsCount st)) (ml_Conflicts st ++ [MkConflict key existingRow row "used_new"])
  | None =>
      MkMergeLoop (<[key := row]> (ml_rowMap st)) (ml_TotalRowsIn st) (ml_Duplicates st)
        (ml_ConflictsCount st) (ml_Conflicts st)
  end.

Definition mergeWithPriority (packets : list DataPacket) (schema : Schema) (keyFields : list string)
    (leftPriority : bool) : MergeResult :=
  let keyIndices := GetFieldIndices schema keyFields in
  loop_result packets schema
    (foldl (merge_packet (priority_row keyIndices leftPriority)) loop_start packets).

(** ** mergeIntersection *)

(** The first loop: [keyCounts[key] = 1; rowMap[key] = row]. *)
Definition first_row (keyIndices : list nat) (st : gmap string nat * gmap string (list string))
    (row : list string) : gmap string nat * gmap string (list string) :=
  let key := buildKey keyIndices row in
  (<[key := 1]> (fst st), <[key := row]> (snd st)).

(** The second: [if _, exists := keyCounts[key]; exists { keyCounts[key]++ }]. *)
Definition count_row (keyIndices : list nat) (keyCounts : gmap string nat) (row : list string)
    : gmap string nat :=
  let key := buildKey keyIndices row in
  match keyCounts !! key with
  | Some n => <[key := S n]> keyCounts
  | None => keyCounts
  end.

Definition mergeIntersection (packets : list DataPacket) (schema : Schema) (keyFields : list string)
    : MergeResult :=
  let keyIndices := GetFieldIndices schema keyFields in
  let firstRows := match packets with p :: _ => ParseRows (d_Rows (p_Data p)) | [] => [] end in
  let '(keyCounts, rowMap) := foldl (first_row keyIndices) (∅, ∅) firstRows in
  let keyCounts :=
    foldl (fun counts pkt => foldl (count_row keyIndices) counts (ParseRows (d_Rows (p_Data pkt))))
      keyCounts (tail packets) in
  let intersectionRows :=
    map (fun kc => default [] (rowMap !! fst kc))
      (List.filter (fun kc => (snd kc =? length packets)%nat) (range_entries keyCounts)) in
  MkMergeResult (buildPacket intersectionRows schema (first_table packets))
    (MkMergeStats (length packets) (length firstRows) (length intersectionRows) 0 0) [].

(** ** mergeAppend *)

Definition mergeAppend (packets : list DataPacket) (schema : Schema) : MergeResult :=
  let '(allRows, totalRowsIn) :=
    foldl (fun '(allRows, totalRowsIn) pkt =>
             let rows := ParseRows (d_Rows (p_Data pkt)) in
             (allRows ++ rows, totalRowsIn + length rows)) ([], 0) packets in
  MkMergeResult (buildPacket allRows schema (first_table packets))
    (MkMergeStats (length packets) totalRowsIn (length allRows) 0 0) [].

(** ** Merge *)

(** The loop over [packets[1:]]; [i] is the index in the whole list. *)
Fixpoint check_packets (baseSchema : Schema) (baseTableName : string) (i : nat) (packets : list DataPacket)
    : result MergeError () :=
  match packets with
  | [] => Ok ()
  | pkt :: rest =>
      fail_if negb (String.eqb (h_TableName (p_Header pkt)) baseTableName)
        with DifferentTable i (h_TableName (p_Header pkt)) baseTableName ;;
      match validateSchemas baseSchema (p_Schema pkt) with
      | Err e => Err (MergeSchemaMismatch i e)
      | Ok _ => check_packets baseSchema baseTableName (S i) rest
      end
  end.

Definition merge_keyFields (m : Merger) (baseSchema : Schema) : list string :=
  match mo_KeyFields (mg_options m) with
  | [] => ExtractKeyFields baseSchema
  | keyFields => keyFields
  end.

Definition Merge (m : Merger) (packets : list DataPacket) : result MergeError MergeResult :=
  match packets with
  | [] => Err NoPackets
  | [p] =>
      let n := length (d_Rows (p_Data p)) in
      Ok (MkMergeResult p (MkMergeStats 1 n n 0 0) [])
  | p0 :: rest =>
      let baseSchema := p_Schema p0 in
      _ ← check_packets baseSchema (h_TableName (p_Header p0)) 1 rest;
      let keyFields := merge_keyFields m baseSchema in
      let strategy := mo_Strategy (mg_options m) in
      fail_if (length keyFields =? 0)%nat && negb (strategy =? StrategyAppend)%Z
        with MergeNoKeyFields ;;
      if (strategy =? StrategyUnion)%Z then Ok (mergeUnion m packets baseSchema keyFields)
      else if (strategy =? StrategyIntersection)%Z then Ok (mergeIntersection packets baseSchema keyFields)
      else if (strategy =? StrategyLeftPriority)%Z
      then Ok (mergeWithPriority packets baseSchema keyFields true)
      else if (strategy =? StrategyRightPriority)%Z
      then Ok (mergeWithPriority packets baseSchema keyFields false)
      else if (strategy =? StrategyAppend)%Z then Ok (mergeAppend packets baseSchema)
      else Err (UnknownStrategy strategy)
  end.
End Merge.

(** ** Names of strategies *)

Definition MergeStrategy_String (s : MergeStrategy) : string :=
  if (s =? StrategyUnion)%Z then "union"
  else if (s =? StrategyIntersection)%Z then "intersection"
  else if (s =? StrategyLeftPriority)%Z then "left-priority"
  else if (s =? StrategyRightPriority)%Z then "right-priority"
  else if (s =? StrategyAppend)%Z then "append"
  else "unknown-" +:+ Itoa s.

Definition ParseStrategy `{GoCase} (s : string) : result MergeError MergeStrategy :=
  let name := ToLower (TrimSpace s) in
  if String.eqb name "union" then Ok StrategyUnion
  else if String.eqb name "intersection" then Ok StrategyIntersection
  else if String.eqb name "left" || String.eqb name "left-priority" then Ok StrategyLeftPriority
  else if String.eqb name "right" || String.eqb name "right-priority" then Ok StrategyRightPriority
  else if String.eqb name "append" then Ok StrategyAppend
  else Err (UnknownStrategyName s).

(** ** Lemmas: rows and keys *)

(** All the rows merged, packet after packet. *)
Definition input_rows (packets : list DataPacket) : list (list string) :=
  concat (map (fun p => ParseRows (d_Rows (p_Data p))) packets).

Lemma ParseRows_good (rows : list Row) : good_rows (ParseRows rows).
Proof. induction rows as [|r rows IH]; constructor; [apply GetRowValues_nonempty|done]. Qed.

Lemma input_rows_good (packets : list DataPacket) : good_rows (input_rows packets).
Proof.
  unfold input_rows. induction packets as [|p packets IH]; simpl; [constructor|].
  apply Forall_app. split; [apply ParseRows_good|done].
Qed.

Lemma buildPacket_rows (uuid : string) (now : Z) (rows : list (list string)) (schema : Schema) (t : string) :
  good_rows rows -> ParseRows (d_Rows (p_Data (buildPacket uuid now rows schema t))) = rows.
Proof. intros Hg. by apply ParseRows_RowsToData. Qed.

(** ** Lemmas: the deduplicating loops *)

(** How a merger decides between the row it has and a new one of the same key. *)
Definition merge_policy (m : Merger) (schema : Schema) (existing new : list string) : bool :=
  if (mo_Strategy (mg_options m) =? StrategyLeftPriority)%Z then false
  else if (mo_Strategy (mg_options m) =? StrategyRightPriority)%Z then true
  else match mo_ConflictResolver (mg_options m) with
       | Some resolver => resolver existing new schema
       | None => false
       end.

Section Loop.
  Context (key : list string -> string) (use : list string -> list string -> bool).

(** What the loops have established after the rows [xs]. *)
Definition loop_inv (xs : list (list string)) (st : MergeLoop) : Prop :=
  ml_rowMap st = foldl (put_row key use) ∅ xs
  /\ ml_Duplicates st + size (ml_rowMap st) = length xs
  /\ ml_ConflictsCount st = ml_Duplicates st
  /\ length (ml_Conflicts st) = ml_Duplicates st.

(** One round of either loop. *)
Definition dedup_step (each : MergeLoop -> list string -> MergeLoop) : Prop :=
  forall st row,
    each st row =
    match ml_rowMap st !! key row with
    | Some e =>
        MkMergeLoop (put_row key use (ml_rowMap st) row) (ml_TotalRowsIn st) (S (ml_Duplicates st))
          (S (ml_ConflictsCount st))
          (ml_Conflicts st ++
             [MkConflict (key row) e row (if use e row then "used_new" else "kept_existing")])
    | None =>
        MkMergeLoop (put_row key use (ml_rowMap st) row) (ml_TotalRowsIn st) (ml_Duplicates st)
          (ml_ConflictsCount st) (ml_Conflicts st)
    end.

  Context (each : MergeLoop -> list string -> MergeLoop) (Heach : dedup_step each).

Lemma each_inv (xs : list (list string)) (row : list string) (st : MergeLoop) :
  loop_inv xs st -> loop_inv (xs ++ [row]) (each st row) /\ ml_TotalRowsIn (each st row) = ml_TotalRowsIn st.
Proof.
  intros (Hm & Hd & Hc & Hl). rewrite Heach. unfold loop_inv.
  rewrite foldl_app, length_app. cbn [foldl length]. rewrite <- Hm.
  destruct (ml_rowMap st !! key row) as [e|] eqn:E; simpl;
    unfold put_row; rewrite E; (split; [split|]); try done.
  - rewrite length_app. simpl. repeat split; try lia.
    destruct (use e row); [|lia]. rewrite map_size_insert_Some by eauto. lia.
  - repeat split; try done. rewrite map_size_insert_None by done. lia.
Qed.

Lemma rows_inv (rows xs : list (list string)) (st : MergeLoop) :
  loop_inv xs st ->
  loop_inv (xs ++ rows) (foldl each st rows)
  /\ ml_TotalRowsIn (foldl each st rows) = ml_TotalRowsIn st.
Proof.
  revert xs st; induction rows as [|row rows IH]; intros xs st Hi; simpl.
  - by rewrite app_nil_r.
  - destruct (each_inv xs row st Hi) as [Hi' Hin].
    destruct (IH (xs ++ [row]) (each st row) Hi') as [H1 H2]. rewrite <- app_assoc in H1. split; [done|congruence].
Qed.

Lemma packets_inv (packets : list DataPacket) (xs : list (list string)) (st : MergeLoop) :
  loop_inv xs st ->
  loop_inv (xs ++ input_rows packets) (foldl (merge_packet each) st packets)
  /\ ml_TotalRowsIn (foldl (merge_packet each) st packets)
     = ml_TotalRowsIn st + length (input_rows packets).
Proof.
  revert xs st; induction packets as [|p packets IH]; intros xs st Hi; simpl.
  - rewrite app_nil_r. split; [done|]. unfold input_rows; simpl. lia.
  - unfold merge_packet at 2 4.
    set (st1 := MkMergeLoop (ml_rowMap st) _ _ _ _).
    destruct (rows_inv (ParseRows (d_Rows (p_Data p))) xs st1 Hi) as [H1 H2].
    destruct (IH _ _ H1) as [H3 H4]. unfold input_rows in *. cbn [map concat]. rewrite app_assoc.
    split; [done|]. rewrite H4, H2. unfold st1. simpl. rewrite length_app. lia.
Qed.
End Loop.

Lemma union_row_step (m : Merger) (schema : Schema) (ki : list nat) :
  mo_Strategy (mg_options m) = StrategyUnion ->
  dedup_step (buildKey ki) (merge_policy m schema) (union_row m schema ki).
Proof.
  intros Hs st row. unfold union_row, put_row, merge_policy. rewrite Hs. simpl.
  destruct (ml_rowMap st !! buildKey ki row) as [e|]; [|done].
  destruct (mo_ConflictResolver (mg_options m)) as [r|]; [|done]. by destruct (r e row schema).
Qed.

Lemma priority_row_step (m : Merger) (schema : Schema) (ki : list nat) (left : bool) :
  mo_Strategy (mg_options m) = (if left then StrategyLeftPriority else StrategyRightPriority) ->
  dedup_step (buildKey ki) (merge_policy m schema) (priority_row ki left).
Proof.
  intros Hs st row. unfold priority_row, put_row, merge_policy. rewrite Hs.
  destruct (ml_rowMap st !! buildKey ki row) as [e|], left; done.
Qed.

(** The specification: one row for each key that occurs, in some order. *)
Definition one_row_per_key (key : list string -> string) (use : list string -> list string -> bool)
    (rows : list (list string)) : list (list string) :=
  omap (fun k => winner use (rows_of key k rows)) (distinct_keys key rows).

Lemma one_row_per_key_length (key : list string -> string) use (rows : list (list string)) :
  length (one_row_per_key key use rows) = length (distinct_keys key rows).
Proof.
  assert (forall ks, Forall (fun k => is_Some (winner use (rows_of key k rows))) ks ->
    length (omap (fun k => winner use (rows_of key k rows)) ks) = length ks) as H.
  { induction 1 as [|k ks [r E] _ IH]; simpl; [done|]. rewrite E. simpl. by f_equal. }
  apply H, Forall_forall. intros k Hk. by apply winner_Some, elem_of_distinct_keys.
Qed.

Lemma one_row_per_key_good (key : list string -> string) use (rows : list (list string)) :
  good_rows rows -> good_rows (one_row_per_key key use rows).
Proof.
  unfold good_rows. rewrite !Forall_forall. intros Hg r (k & _ & Hw)%list_elem_of_omap.
  apply Hg. by apply winner_of_key in Hw as [? _].
Qed.

Lemma loop_result_correct `{GoRangeLaws} (uuid : string) (now : Z) key use each
    (packets : list DataPacket) (schema : Schema) (rows := input_rows packets)
    (res := loop_result uuid now packets schema (foldl (merge_packet each) loop_start packets)) :
  dedup_step key use each ->
  ParseRows (d_Rows (p_Data (mr_Packet res))) ≡ₚ one_row_per_key key use rows
  /\ mst_TotalRowsIn (mr_Stats res) = length rows
  /\ mst_TotalRowsOut (mr_Stats res) = length (distinct_keys key rows)
  /\ mst_Duplicates (mr_Stats res) = length rows - length (distinct_keys key rows)
  /\ mst_ConflictsCount (mr_Stats res) = mst_Duplicates (mr_Stats res)
  /\ length (mr_Conflicts res) = mst_Duplicates (mr_Stats res).
Proof.
  intros Heach.
  destruct (packets_inv key use each Heach packets [] loop_start) as [(Hm & Hd & Hc & Hl) Hin]; [done|].
  rewrite !app_nil_l in *. fold rows in Hm, Hd, Hin.
  pose proof (put_rows_entries key use rows) as Hp. rewrite <- Hm in Hp.
  assert (map snd (range_entries (ml_rowMap (foldl (merge_packet each) loop_start packets)))
    ≡ₚ one_row_per_key key use rows) as Hrows.
  { by rewrite Hp, map_snd_omap_pair. }
  assert (length (map snd (range_entries (ml_rowMap (foldl (merge_packet each) loop_start packets))))
    = length (distinct_keys key rows)) as Hlen.
  { by rewrite Hrows, one_row_per_key_length. }
  unfold res, loop_result. cbn [mr_Packet mr_Stats mr_Conflicts mst_TotalRowsIn mst_TotalRowsOut
    mst_Duplicates mst_ConflictsCount]. rewrite buildPacket_rows.
  - split; [done|]. split; [done|]. split; [done|]. split; [|done].
    rewrite length_map, range_permutation, length_map_to_list in Hlen. lia.
  - unfold good_rows. rewrite Hrows. apply one_row_per_key_good, input_rows_good.
Qed.

(** ** Lemmas: Merge *)

(** The merger keeps one row per key. *)
Definition deduplicates (m : Merger) : bool :=
  let s := mo_Strategy (mg_options m) in
  (s =? StrategyUnion)%Z || (s =? StrategyLeftPriority)%Z || (s =? StrategyRightPriority)%Z.

(** The key the merger gives to a row. *)
Definition merge_key (m : Merger) (schema : Schema) : list string -> string :=
  buildKey (GetFieldIndices schema (merge_keyFields m schema)).

(** The packets can be merged: one table, the same field names, and a key where one is needed. *)
Definition mergeable (m : Merger) (p0 : DataPacket) (rest : list DataPacket) : Prop :=
  Forall (fun p => h_TableName (p_Header p) = h_TableName (p_Header p0)
                   /\ map f_Name (s_Fields (p_Schema p)) = map f_Name (s_Fields (p_Schema p0))) rest
  /\ (merge_keyFields m (p_Schema p0) <> [] \/ mo_Strategy (mg_options m) = StrategyAppend)
  /\ (0 <= mo_Strategy (mg_options m) <= 4)%Z.

Lemma names_from_ok (i : nat) (a b : list Field) :
  length a = length b -> names_from i a b = Ok () <-> map f_Name b = map f_Name a.
Proof.
  revert i b; induction a as [|x a IH]; intros i [|y b] Hl; simpl in *; try done.
  unfold check_. destruct (String.eqb_spec (f_Name x) (f_Name y)) as [E|E]; simpl.
  - rewrite IH by lia. rewrite E. split; [by intros ->|by intros [= ->]].
  - split; [done|congruence].
Qed.

Lemma validateSchemas_ok (a b : Schema) :
  validateSchemas a b = Ok () <-> map f_Name (s_Fields b) = map f_Name (s_Fields a).
Proof.
  unfold validateSchemas, check_. destruct (Nat.eqb_spec (length (s_Fields a)) (length (s_Fields b))) as [E|E].
  - by apply names_from_ok.
  - split; [done|]. intros Hm. apply (f_equal length) in Hm. rewrite !length_map in Hm. by rewrite Hm in E.
Qed.

Lemma check_packets_ok (schema : Schema) (table : string) (i : nat) (packets : list DataPacket) :
  check_packets schema table i packets = Ok () <->
  Forall (fun p => h_TableName (p_Header p) = table
                   /\ map f_Name (s_Fields (p_Schema p)) = map f_Name (s_Fields schema)) packets.
Proof.
  revert i; induction packets as [|p packets IH]; intros i; simpl; [done|].
  rewrite Forall_cons, <- validateSchemas_ok. unfold check_.
  destruct (String.eqb_spec (h_TableName (p_Header p)) table) as [E|E]; simpl; [|split; [done|tauto]].
  destruct (validateSchemas schema (p_Schema p)) as [[]|e]; [rewrite IH; tauto|].
  split; [done|]. by intros [[_ ?] _].
Qed.

(** The switch of [Merge], once the packets are accepted. *)
Lemma Merge_dedup `{GoRange} (uuid : string) (now : Z) (m : Merger) (p0 p1 : DataPacket)
    (rest : list DataPacket) :
  mergeable m p0 (p1 :: rest) -> deduplicates m = true ->
  exists each,
    dedup_step (merge_key m (p_Schema p0)) (merge_policy m (p_Schema p0)) each /\
    Merge uuid now m (p0 :: p1 :: rest)
    = Ok (loop_result uuid now (p0 :: p1 :: rest) (p_Schema p0)
            (foldl (merge_packet each) loop_start (p0 :: p1 :: rest))).
Proof.
  intros (Hp & Hk & Hr) Hd. unfold Merge. rewrite (proj2 (check_packets_ok _ _ 1 _) Hp). simpl.
  unfold check_, deduplicates in *. set (s := mo_Strategy (mg_options m)) in *.
  destruct (length (merge_keyFields m (p_Schema p0)) =? 0)%nat eqn:El.
  { apply Nat.eqb_eq, nil_length_inv in El. destruct Hk as [Hk|Hk]; [done|]. by rewrite Hk in Hd. }
  simpl. destruct (s =? StrategyUnion)%Z eqn:E0; [|destruct (s =? StrategyLeftPriority)%Z eqn:E2;
    [|destruct (s =? StrategyRightPriority)%Z eqn:E3; [|done]]]; go_bool.
  - eexists. split; [by apply union_row_step|]. done.
  - rewrite E2. eexists. split; [by apply (priority_row_step m _ _ true)|]. done.
  - rewrite E3. eexists. split; [by apply (priority_row_step m _ _ false)|]. done.
Qed.

Lemma Merge_ok_mergeable `{GoRange} (uuid : string) (now : Z) (m : Merger) (p0 p1 : DataPacket)
    (rest : list DataPacket) :
  is_ok (Merge uuid now m (p0 :: p1 :: rest)) = true <-> mergeable m p0 (p1 :: rest).
Proof.
  unfold Merge, mergeable. rewrite <- (check_packets_ok (p_Schema p0) _ 1).
  destruct (check_packets _ _ _ _) as [[]|e]; cbn [mbind result_bind]; [|split; [done|by intros [? _]]].
  unfold check_. generalize (mo_Strategy (mg_options m)) as s. intros s.
  unfold StrategyUnion, StrategyIntersection, StrategyLeftPriority, StrategyRightPriority, StrategyAppend.
  destruct (decide (0 <= s <= 4)%Z) as [Hs|Hs].
  - assert (s = 0 \/ s = 1 \/ s = 2 \/ s = 3 \/ s = 4)%Z as Hc by lia.
    destruct Hc as [-> | [-> | [-> | [-> | -> ]]]], (merge_keyFields m (p_Schema p0)) as [|k ks]; simpl;
      (split; [intros ?|intros (_ & [?|?] & _)]); try done; (split; [done|]; split; [|done]); first [by left|by right].
  - split; [|tauto]. rewrite !(proj2 (Z.eqb_neq s _)) by lia. by case_match.
Qed.

(** ** Lemmas: one row per key *)

Lemma keys_one_row_per_key (key : list string -> string) use (rows : list (list string)) :
  map key (one_row_per_key key use rows) = distinct_keys key rows.
Proof.
  unfold one_row_per_key.
  assert (forall ks, Forall (fun k => k ∈ map key rows) ks ->
    map key (omap (fun k => winner use (rows_of key k rows)) ks) = ks) as Hm.
  { induction 1 as [|k ks Hk _ IH]; simpl; [done|].
    destruct (winner use (rows_of key k rows)) as [r|] eqn:E.
    - simpl. f_equal; [by apply winner_of_key in E as [_ ?]|exact IH].
    - apply (winner_Some key use) in Hk. rewrite E in Hk. by destruct Hk. }
  apply Hm, Forall_forall. intros k. apply elem_of_distinct_keys.
Qed.

Lemma rows_of_one_row_per_key (key : list string -> string) use (rows : list (list string)) (k : string) :
  rows_of key k (one_row_per_key key use rows) = option_list (winner use (rows_of key k rows)).
Proof.
  destruct (winner use (rows_of key k rows)) as [r|] eqn:E.
  - assert (key r = k) as <- by (by apply winner_of_key in E as [_ ?]).
    apply rows_of_NoDup; [rewrite keys_one_row_per_key; apply NoDup_remove_dups|].
    apply list_elem_of_omap. exists (key r). split; [|done].
    apply elem_of_distinct_keys, (winner_Some key use). by eauto.
  - apply rows_of_nil. rewrite keys_one_row_per_key. rewrite elem_of_distinct_keys.
    intros Hk. apply (winner_Some key use) in Hk. rewrite E in Hk. by destruct Hk.
Qed.

Lemma winner_collapse {A} (use : A -> A -> bool) (xs ys : list A) :
  winner use (option_list (winner use xs) ++ ys) = winner use (xs ++ ys).
Proof. destruct xs as [|x xs]; simpl; [done|]. by rewrite foldl_app. Qed.

Lemma option_list_perm {A} (l : list A) (o : option A) : l ≡ₚ option_list o -> l = option_list o.
Proof.
  destruct o as [x|]; simpl; intros Hp; [by apply Permutation_singleton_r in Hp|].
  by apply Permutation_nil_r in Hp.
Qed.

#[export] Instance rows_of_Permutation {A} (key : A -> string) (k : string) :
  Proper ((≡ₚ) ==> (≡ₚ)) (rows_of key k).
Proof. intros l1 l2 E. unfold rows_of. by rewrite E. Qed.

(** Reducing some of the rows first does not change the outcome. *)
Lemma one_row_per_key_collapse (key : list string -> string) use (xs rs ys : list (list string)) :
  rs ≡ₚ one_row_per_key key use xs ->
  one_row_per_key key use (rs ++ ys) ≡ₚ one_row_per_key key use (xs ++ ys).
Proof.
  intros Hr.
  assert (forall k, winner use (rows_of key k (rs ++ ys)) = winner use (rows_of key k (xs ++ ys))) as Hw.
  { intros k. unfold rows_of. rewrite !filter_app. fold (rows_of key k rs) (rows_of key k xs).
    rewrite <- winner_collapse. symmetry. rewrite <- winner_collapse. do 3 f_equal.
    symmetry. rewrite (option_list_perm (rows_of key k rs) (winner use (rows_of key k xs))); [|].
    - by destruct (winner use (rows_of key k xs)).
    - by rewrite Hr, rows_of_one_row_per_key. }
  assert (distinct_keys key (rs ++ ys) ≡ₚ distinct_keys key (xs ++ ys)) as Hk.
  { apply NoDup_Permutation; [apply NoDup_remove_dups..|]. intros k.
    rewrite !elem_of_distinct_keys, <- !(winner_Some key use). by rewrite Hw. }
  unfold one_row_per_key. rewrite <- Hk.
  apply reflexive_eq, Forall_omap_ext, Forall_forall. intros k _. apply Hw.
Qed.

(** ** Lemmas: the intersection *)

Section Intersection.
  Context (ki : list nat).

Let key := buildKey ki.

Lemma first_rows_maps (rows : list (list string)) (k : string) :
  (foldl (first_row ki) (∅, ∅) rows).1 !! k = (if decide (k ∈ map key rows) then Some 1 else None)
  /\ (foldl (first_row ki) (∅, ∅) rows).2 !! k = last (rows_of key k rows).
Proof.
  induction rows as [|r rows [IH1 IH2]] using rev_ind.
  { cbn [foldl map fst snd]. rewrite decide_False by set_solver. split; apply lookup_empty. }
  rewrite foldl_app. cbn [foldl]. unfold first_row at 1 3. cbn [fst snd]. fold (key r).
  unfold rows_of. rewrite filter_app, map_app. fold (rows_of key k rows). cbn [map].
  destruct (decide (key r = k)) as [<-|Hk].
  - rewrite decide_True by set_solver.
    by rewrite filter_cons, decide_True, filter_nil, !lookup_insert_eq, last_snoc.
  - rewrite !lookup_insert_ne, IH1, IH2, filter_cons by done. split.
    + apply decide_ext. set_solver.
    + by rewrite decide_False, filter_nil, app_nil_r.
Qed.

Lemma count_rows_lookup (rows : list (list string)) (counts : gmap string nat) (k : string) :
  foldl (count_row ki) counts rows !! k
  = (fun n => n + length (rows_of key k rows)) <$> counts !! k.
Proof.
  induction rows as [|r rows IH] in counts |- *; cbn [foldl].
  - destruct (counts !! k); simpl; f_equal. unfold rows_of. simpl. lia.
  - rewrite IH. unfold count_row. fold (key r). unfold rows_of. rewrite filter_cons.
    fold (rows_of key k rows). destruct (decide (key r = k)) as [<-|Hk].
    + destruct (counts !! key r) as [n|] eqn:E; [|by rewrite E].
      rewrite lookup_insert_eq. simpl. f_equal. lia.
    + destruct (counts !! key r); [by rewrite lookup_insert_ne|done].
Qed.

Lemma count_packets_lookup (packets : list DataPacket) (counts : gmap string nat) (k : string) :
  foldl (fun counts pkt => foldl (count_row ki) counts (ParseRows (d_Rows (p_Data pkt)))) counts packets !! k
  = (fun n => n + length (rows_of key k (input_rows packets))) <$> counts !! k.
Proof.
  induction packets as [|p packets IH] in counts |- *; cbn [foldl].
  - destruct (counts !! k); simpl; f_equal. unfold rows_of. simpl. lia.
  - rewrite IH, count_rows_lookup. unfold input_rows, rows_of. cbn [map concat].
    rewrite filter_app, length_app. destruct (counts !! k); simpl; f_equal. lia.
Qed.

(** The specification: the last row of each key of the first packet, when [keep] says so. *)
Definition kept_rows (keep : string -> bool) (first : list (list string)) : list (list string) :=
  omap (fun k => if keep k then last (rows_of key k first) else None) (distinct_keys key first).

(** The key occurs in the rows once for each of [n] packets: the test the source makes. *)
Definition occurs_exactly (n : nat) (rows : list (list string)) (k : string) : bool :=
  length (rows_of key k rows) =? n.
End Intersection.

Lemma list_filter_Permutation {A} (f : A -> bool) (l1 l2 : list A) :
  l1 ≡ₚ l2 -> List.filter f l1 ≡ₚ List.filter f l2.
Proof.
  induction 1 as [|x l1 l2 _ IH|x y l|l1 l2 l3 _ IH1 _ IH2]; simpl; [done| | |by etrans].
  - destruct (f x); [by apply perm_skip|done].
  - destruct (f x), (f y); try done. apply perm_swap.
Qed.

Lemma kept_rows_good (ki : list nat) (keep : string -> bool) (first : list (list string)) :
  good_rows first -> good_rows (kept_rows ki keep first).
Proof.
  unfold good_rows, kept_rows. rewrite !Forall_forall. intros Hg r (k & _ & Hw)%list_elem_of_omap.
  destruct (keep k); [|done]. apply Hg. rewrite <- winner_last in Hw. by apply winner_of_key in Hw as [? _].
Qed.

Lemma mergeIntersection_rows `{GoRangeLaws} (uuid : string) (now : Z) (p0 : DataPacket)
    (rest : list DataPacket) (schema : Schema) (keyFields : list string)
    (ki := GetFieldIndices schema keyFields) (first := ParseRows (d_Rows (p_Data p0))) :
  GetRows (mr_Packet (mergeIntersection uuid now (p0 :: rest) schema keyFields))
  ≡ₚ kept_rows ki (occurs_exactly ki (length rest) (input_rows rest)) first.
Proof.
  unfold mergeIntersection. fold ki first. destruct (foldl (first_row ki) (∅, ∅) first) as [counts rowMap] eqn:E.
  assert (forall k, counts !! k = (if decide (k ∈ map (buildKey ki) first) then Some 1 else None)
    /\ rowMap !! k = last (rows_of (buildKey ki) k first)) as Hm.
  { intros k. pose proof (first_rows_maps ki first k) as Hk. by rewrite E in Hk. }
  cbn [mr_Packet tail]. set (counts' := foldl _ counts rest).
  assert (forall k, counts' !! k = (if decide (k ∈ map (buildKey ki) first)
    then Some (S (length (rows_of (buildKey ki) k (input_rows rest)))) else None)) as Hc.
  { intros k. unfold counts'. rewrite count_packets_lookup, (proj1 (Hm k)). by destruct (decide _). }
  set (out := map _ _). enough (out ≡ₚ kept_rows ki (occurs_exactly ki (length rest) (input_rows rest)) first) as Ho.
  { rewrite GetRows_data, buildPacket_rows; [done| |done]. unfold good_rows. rewrite Ho. apply kept_rows_good, ParseRows_good. }
  unfold out, kept_rows. etrans; [apply Permutation_map, list_filter_Permutation|].
  - apply (entries_by_keys _ (distinct_keys (buildKey ki) first)); [apply NoDup_remove_dups|].
    intros k. rewrite Hc, elem_of_distinct_keys. destruct (decide _); [done|by intros []].
  - assert (Forall (fun k => k ∈ map (buildKey ki) first) (distinct_keys (buildKey ki) first)) as Hf.
    { apply Forall_forall. intros k. apply elem_of_distinct_keys. }
    induction Hf as [|k ks Hk _ IH]; [done|]. simpl. rewrite Hc, decide_True by done. simpl.
    unfold occurs_exactly. fold (buildKey ki).
    destruct (length (rows_of (buildKey ki) k (input_rows rest)) =? length rest); [|exact IH].
    simpl. rewrite (proj2 (Hm k)). apply (winner_Some (buildKey ki) (fun _ _ => true)) in Hk as [r Hr].
    rewrite winner_last in Hr. rewrite Hr. simpl. by apply perm_skip.
Qed.

Lemma rows_of_length_NoDup (key : list string -> string) (rows : list (list string)) (k : string) :
  NoDup (map key rows) ->
  length (rows_of key k rows) = if bool_decide (k ∈ map key rows) then 1 else 0.
Proof.
  intros Hnd. case_bool_decide as Hk.
  - apply list_elem_of_fmap in Hk as (r & -> & Hr). by rewrite rows_of_NoDup.
  - apply rows_of_nil in Hk. by rewrite Hk.
Qed.

(** Where no packet repeats a key, counting rows is counting packets. *)
Lemma occurs_exactly_all (ki : list nat) (packets : list DataPacket) (k : string) (key := buildKey ki) :
  Forall (fun p => NoDup (map key (ParseRows (d_Rows (p_Data p))))) packets ->
  occurs_exactly ki (length packets) (input_rows packets) k
  = forallb (fun p => bool_decide (k ∈ map key (ParseRows (d_Rows (p_Data p))))) packets.
Proof.
  intros Hnd. unfold occurs_exactly. fold key.
  enough (length (rows_of key k (input_rows packets)) <= length packets /\
    (length (rows_of key k (input_rows packets)) =? length packets)
    = forallb (fun p => bool_decide (k ∈ map key (ParseRows (d_Rows (p_Data p))))) packets) by tauto.
  induction Hnd as [|p packets Hp _ [IH1 IH2]]; [done|].
  unfold input_rows, rows_of in *. cbn [map concat length forallb]. rewrite filter_app, length_app.
  pose proof (rows_of_length_NoDup key (ParseRows (d_Rows (p_Data p))) k Hp) as Hl. unfold rows_of in Hl.
  rewrite Hl. destruct (bool_decide _); simpl; [split; [lia|done]|]. split; [lia|].
  apply Nat.eqb_neq. lia.
Qed.

(** Keys without the separator determine the cells they are made of. *)
Lemma buildKey_inj (ki : list nat) (r1 r2 : list string) :
  Forall (fun c => has_byte PIPE c = false) (key_cells r1 ki) ->
  Forall (fun c => has_byte PIPE c = false) (key_cells r2 ki) ->
  length (key_cells r1 ki) = length (key_cells r2 ki) ->
  buildKey ki r1 = buildKey ki r2 -> key_cells r1 ki = key_cells r2 ki.
Proof.
  unfold buildKey. intros H1 H2 Hl E. change "|" with (chr PIPE) in E.
  destruct (key_cells r1 ki) as [|a l1] eqn:E1, (key_cells r2 ki) as [|b l2] eqn:E2; try done.
  rewrite <- (Split_Join PIPE (a :: l1)), E, Split_Join by done. done.
Qed.

(** Deduplicating merges of acceptable packets, with the specification of what they return. *)
Lemma Merge_dedup_result `{GoRangeLaws} (uuid : string) (now : Z) (m : Merger) (p0 p1 : DataPacket)
    (rest : list DataPacket)
    (packets := p0 :: p1 :: rest) (rows := input_rows packets) (key := merge_key m (p_Schema p0)) :
  deduplicates m = true -> mergeable m p0 (p1 :: rest) ->
  exists res,
    Merge uuid now m packets = Ok res
    /\ p_rawRows (mr_Packet res) = []
    /\ ParseRows (d_Rows (p_Data (mr_Packet res)))
       ≡ₚ one_row_per_key key (merge_policy m (p_Schema p0)) rows
    /\ p_Schema (mr_Packet res) = p_Schema p0
    /\ h_TableName (p_Header (mr_Packet res)) = h_TableName (p_Header p0)
    /\ mst_TotalRowsIn (mr_Stats res) = length rows
    /\ mst_TotalRowsOut (mr_Stats res) = length (distinct_keys key rows)
    /\ mst_Duplicates (mr_Stats res) = length rows - length (distinct_keys key rows)
    /\ mst_ConflictsCount (mr_Stats res) = mst_Duplicates (mr_Stats res)
    /\ length (mr_Conflicts res) = mst_Duplicates (mr_Stats res).
Proof.
  intros Hd Hm. destruct (Merge_dedup uuid now m p0 p1 rest Hm Hd) as (each & Hs & E).
  eexists. split; [exact E|]. split; [done|].
  by destruct (loop_result_correct uuid now _ _ each packets (p_Schema p0) Hs) as (H1 & H2).
Qed.

(** *** Keys as the cells of the key columns *)

(** The key columns of a merge: those named in the options or, where none is, those the schema marks. *)
Definition key_names (m : Merger) (schema : Schema) : list string :=
  if decide (mo_KeyFields (mg_options m) = []) then f_Name <$> filter (fun f => f_Key f = true) (s_Fields schema)
  else mo_KeyFields (mg_options m).
(** The cell of a row in the column of a name, and its cells in the columns of a key. *)
Definition cell_of (schema : Schema) (row : list string) (name : string) : option string :=
  '(i, _) ← list_find (fun f => f_Name f = name) (s_Fields schema); row !! i.
Definition key_tuple (m : Merger) (schema : Schema) (row : list string) : list (option string) :=
  cell_of schema row <$> key_names m schema.
(** The row has all its key cells, none with a [|]. *)
Definition row_keyed (m : Merger) (schema : Schema) (row : list string) : Prop :=
  Forall (fun c => exists v, c = Some v /\ has_byte PIPE v = false) (key_tuple m schema row).
(** Of the rows of one key, in their order, the one that stays. *)
Definition chosen (m : Merger) (schema : Schema) (rows : list (list string)) : option (list string) :=
  match rows, mo_ConflictResolver (mg_options m) with
  | r :: rest, Some resolver =>
      if decide (mo_Strategy (mg_options m) = StrategyUnion) then Some (foldl (fun kept new => if resolver kept new schema then new else kept) r rest)
      else if decide (mo_Strategy (mg_options m) = StrategyRightPriority) then last rows else Some r
  | r :: _, None => if decide (mo_Strategy (mg_options m) = StrategyRightPriority) then last rows else Some r
  | [], _ => None
  end.

Lemma field_index_find (i : nat) (fs : list Field) (name : string) :
  field_index i fs name = (fun p => i + p.1) <$> list_find (fun f => f_Name f = name) fs.
Proof.
  revert i; induction fs as [|f fs IH]; intros i; [done|]. cbn [field_index list_find].
  destruct (String.eqb_spec (f_Name f) name); [rewrite decide_True by done; cbn; by rewrite Nat.add_0_r|].
  rewrite decide_False, IH by done. destruct (list_find _ fs) as [[j g]|]; cbn; [by rewrite Nat.add_succ_r|done].
Qed.
Lemma merge_keyFields_names (m : Merger) (schema : Schema) : merge_keyFields m schema = key_names m schema.
Proof.
  unfold merge_keyFields, key_names. case_decide as E; [|by destruct (mo_KeyFields _)]. rewrite E. unfold ExtractKeyFields.
  induction (s_Fields schema) as [|f fs IH]; [done|]. cbn [List.filter]. rewrite filter_cons. destruct (f_Key f); [rewrite decide_True by done|by rewrite decide_False by done]. cbn. by f_equal.
Qed.
Lemma key_cells_tuple (m : Merger) (schema : Schema) (row : list string) :
  key_cells row (GetFieldIndices schema (merge_keyFields m schema)) = omap id (key_tuple m schema row).
Proof.
  rewrite merge_keyFields_names. unfold key_tuple. induction (key_names m schema) as [|n ns IH]; [done|]. cbn [GetFieldIndices].
  rewrite field_index_find. cbn. unfold cell_of at 1. destruct (list_find _ _) as [[i f]|]; cbn; [|exact IH].
  destruct (row !! i); cbn; [by f_equal|exact IH].
Qed.
Lemma row_keyed_cells (m : Merger) (schema : Schema) (row : list string) : row_keyed m schema row ->
  let cells := omap id (key_tuple m schema row) in
  Forall (fun v => has_byte PIPE v = false) cells /\ key_tuple m schema row = Some <$> cells.
Proof.
  unfold row_keyed. induction 1 as [|? cs (v & -> & Hv) _ [IH1 IH2]]; cbn; [done|]. split; [by constructor|by f_equal].
Qed.

(** Rows have one key text exactly if they have the same key cells. *)
Lemma merge_key_tuple (m : Merger) (schema : Schema) (r1 r2 : list string) : row_keyed m schema r1 -> row_keyed m schema r2 ->
  merge_key m schema r1 = merge_key m schema r2 <-> key_tuple m schema r1 = key_tuple m schema r2.
Proof.
  intros [H1 E1]%row_keyed_cells [H2 E2]%row_keyed_cells. cbn zeta in *. unfold merge_key. split.
  - intros E. apply buildKey_inj in E; rewrite ?key_cells_tuple in *; [by rewrite E1, E2, E|done|done|].
    apply (f_equal length) in E1, E2. rewrite length_fmap in E1, E2. rewrite <- E1, <- E2. unfold key_tuple. by rewrite !length_fmap.
  - intros E. unfold buildKey. by rewrite !key_cells_tuple, E.
Qed.
Lemma winner_chosen (m : Merger) (schema : Schema) (rows : list (list string)) : deduplicates m = true ->
  winner (merge_policy m schema) rows = chosen m schema rows.
Proof.
  intros Hd. destruct rows as [|r rest]; [done|]. unfold merge_policy, chosen, deduplicates in *.
  destruct (Z.eqb_spec (mo_Strategy (mg_options m)) StrategyLeftPriority) as [->|Hl].
  { destruct (mo_ConflictResolver _); rewrite ?decide_False by done; cbn; f_equal; clear; by induction rest. }
  destruct (Z.eqb_spec (mo_Strategy (mg_options m)) StrategyRightPriority) as [->|Hr].
  { rewrite winner_last. by destruct (mo_ConflictResolver _). }
  destruct (Z.eqb_spec (mo_Strategy (mg_options m)) StrategyUnion) as [->|]; [|done].
  destruct (mo_ConflictResolver _); cbn; [done|]. f_equal. clear. by induction rest.
Qed.
Lemma filter_agree {A} (P Q : A -> Prop) `{!forall x, Decision (P x), !forall x, Decision (Q x)} (xs : list A) :
  (forall x, x ∈ xs -> P x <-> Q x) -> filter P xs = filter Q xs.
Proof.
  induction xs as [|x xs IH]; intros Hx; [done|]. rewrite !filter_cons, IH by set_solver. specialize (Hx x ltac:(set_solver)).
  repeat case_decide; tauto.
Qed.

(** The rows kept, by their tuples. *)
Lemma one_row_per_tuple (m : Merger) (schema : Schema) (rows out : list (list string)) (tuple : list (option string)) :
  deduplicates m = true -> Forall (row_keyed m schema) rows -> out ≡ₚ one_row_per_key (merge_key m schema) (merge_policy m schema) rows ->
  filter (fun r => key_tuple m schema r = tuple) out = option_list (chosen m schema (filter (fun r => key_tuple m schema r = tuple) rows)).
Proof.
  rewrite Forall_forall. intros Hd Hrows Hout.
  assert (Hin : forall r, r ∈ out -> r ∈ rows) by (intros r; rewrite Hout; intros (k & _ & Hw)%list_elem_of_omap; by apply winner_of_key in Hw as [? _]).
  rewrite <- winner_chosen by done. destruct (decide (Exists (fun r => key_tuple m schema r = tuple) rows)) as [(r0 & H0 & E0)%Exists_exists|Hno].
  - set (k := merge_key m schema r0). assert (Hag : forall r, r ∈ rows -> key_tuple m schema r = tuple <-> merge_key m schema r = k).
    { intros r Hr. unfold k. rewrite merge_key_tuple by auto. by rewrite E0. }
    rewrite (filter_agree _ (fun r => merge_key m schema r = k) rows), (filter_agree _ (fun r => merge_key m schema r = k) out) by auto.
    apply option_list_perm. pose proof (rows_of_one_row_per_key (merge_key m schema) (merge_policy m schema) rows k) as Hk. unfold rows_of in Hk.
    by rewrite <- Hk, Hout.
  - assert (Hnone : forall xs, (forall r, r ∈ xs -> r ∈ rows) -> filter (fun r => key_tuple m schema r = tuple) xs = []).
    { induction xs as [|x xs IH]; intros Hx; [done|]. rewrite filter_cons, decide_False; [apply IH; set_solver|].
      intros Et. apply Hno, Exists_exists. exists x. split; [apply Hx; set_solver|done]. }
    by rewrite !Hnone by auto.
Qed.

(** ** Properties *)

(** C22. Union and priority merging keep exactly one row per key.  Two or more packets of one table with the same field names are merged
    under union, left or right priority, with a key: the columns named or, where none is, those the first schema marks.  Where every row
    of their data has all its key cells and none of these holds a [|], the merge succeeds, the new packet has the first one's table and
    schema, and for every tuple of key cells it holds exactly one row if a row has that tuple and none otherwise: the first of these rows
    under left priority (and under union without a resolver), the last under right priority, and under union with a resolver what it
    leaves after comparing the rows in their order.  The statistics count the rows, those kept and the difference. *)
Theorem merge_keeps_one_row_per_key `{GoRangeLaws} (uuid : string) (now : Z) (m : Merger)
    (p0 p1 : DataPacket) (rest : list DataPacket)
    (packets := p0 :: p1 :: rest) (rows := input_rows packets) (schema := p_Schema p0) :
  deduplicates m = true ->
  Forall (fun p => h_TableName (p_Header p) = h_TableName (p_Header p0) /\ map f_Name (s_Fields (p_Schema p)) = map f_Name (s_Fields schema)) (p1 :: rest) ->
  key_names m schema <> [] -> Forall (row_keyed m schema) rows ->
  exists res,
    Merge uuid now m packets = Ok res
    /\ (forall tuple, filter (fun r => key_tuple m schema r = tuple) (GetRows (mr_Packet res))
                      = option_list (chosen m schema (filter (fun r => key_tuple m schema r = tuple) rows)))
    /\ p_Schema (mr_Packet res) = schema
    /\ h_TableName (p_Header (mr_Packet res)) = h_TableName (p_Header p0)
    /\ mst_TotalRowsIn (mr_Stats res) = length rows
    /\ mst_TotalRowsOut (mr_Stats res) = length (GetRows (mr_Packet res))
    /\ mst_Duplicates (mr_Stats res) = length rows - length (GetRows (mr_Packet res))
    /\ mst_ConflictsCount (mr_Stats res) = mst_Duplicates (mr_Stats res)
    /\ length (mr_Conflicts res) = mst_Duplicates (mr_Stats res).
Proof.
  intros Hd Hp Hk Hrows. assert (Hm : mergeable m p0 (p1 :: rest)).
  { split; [done|]. split; [left; by rewrite merge_keyFields_names|]. unfold deduplicates, StrategyUnion, StrategyLeftPriority, StrategyRightPriority in Hd.
    rewrite !orb_true_iff, !Z.eqb_eq in Hd. lia. }
  destruct (Merge_dedup_result uuid now m p0 p1 rest Hd Hm) as (res & E & Hraw & Hr & Hs & Ht & Hin & Hout & Hdup & Hc).
  subst schema rows packets. rewrite <- (one_row_per_key_length _ (merge_policy m (p_Schema p0))), <- Hr in Hout, Hdup. rewrite <- GetRows_data in * by done.
  exists res. split_and!; try done; [|apply Hc..]. intros tuple. by apply one_row_per_tuple.
Qed.

(** A table [users(id key, name)] and two versions of it. *)
Definition merge_field (name : string) (isKey : bool) : Field :=
  MkField name "TEXT" 0 0 0 isKey "" "" false false None "".
Definition merge_demo (rows : list (list string)) : DataPacket :=
  set_p_Data (RowsToData rows)
    (set_p_Schema (MkSchema [merge_field "id" true; merge_field "name" false] None "" "" "")
      (NewDataPacket "u" 1 TypeReference "users")).
Definition demo_merger (s : MergeStrategy) : Merger := NewMerger (MkMergeOptions s [] None).

Lemma demo_mergeable (s : MergeStrategy) (rows : list (list string)) (rest : list (list (list string))) :
  (0 <= s <= 4)%Z -> mergeable (demo_merger s) (merge_demo rows) (map merge_demo rest).
Proof.
  intros Hs. split; [|split].
  - apply Forall_forall. intros p (rs & -> & _)%list_elem_of_fmap. done.
  - left. unfold demo_merger, NewMerger. by destruct (_ =? 0)%Z.
  - unfold demo_merger, NewMerger. destruct (Z.eqb_spec (mo_Strategy (MkMergeOptions s [] None)) 0); [done|exact Hs].
Qed.

Lemma merge_keeps_one_row_per_key_witness :
  exists res,
    Merge "n" 2 (demo_merger StrategyRightPriority)
      [merge_demo [["1"; "ann"]; ["2"; "bob"]]; merge_demo [["2"; "bea"]; ["3"; "cy"]]] = Ok res
    /\ filter (fun r => key_tuple (demo_merger StrategyRightPriority) (p_Schema (merge_demo [])) r = [Some "2"]) (GetRows (mr_Packet res)) = [["2"; "bea"]]
    /\ mst_ConflictsCount (mr_Stats res) = mst_Duplicates (mr_Stats res).
Proof.
  destruct (merge_keeps_one_row_per_key "n" 2 (demo_merger StrategyRightPriority)
    (merge_demo [["1"; "ann"]; ["2"; "bob"]]) (merge_demo [["2"; "bea"]; ["3"; "cy"]]) [] eq_refl
    (proj1 (demo_mergeable StrategyRightPriority _ [_] ltac:(done)))) as (res & E & Hr & _ & _ & _ & _ & _ & Hd & _).
  - discriminate.
  - vm_compute. repeat constructor; eexists; by split.
  - exists res. split; [exact E|]. split; [|exact Hd]. exact (Hr [Some "2"]).
Defined.

(** Merging step by step is merging at once: packets merged into one, and that one merged with
    more packets, hold the same rows as all of them merged together, whatever the resolver and the
    order in which the rows come out in between. *)
Theorem merge_incremental `{GoRangeLaws} (uuid : string) (now : Z) (m : Merger)
    (p0 p1 p2 : DataPacket) (rest more : list DataPacket) :
  deduplicates m = true -> mergeable m p0 ((p1 :: rest) ++ p2 :: more) ->
  exists part stepwise whole,
    Merge uuid now m (p0 :: p1 :: rest) = Ok part
    /\ Merge uuid now m (mr_Packet part :: p2 :: more) = Ok stepwise
    /\ Merge uuid now m (p0 :: (p1 :: rest) ++ p2 :: more) = Ok whole
    /\ GetRows (mr_Packet stepwise) ≡ₚ GetRows (mr_Packet whole)
    /\ mst_TotalRowsOut (mr_Stats stepwise) = mst_TotalRowsOut (mr_Stats whole).
Proof.
  intros Hd (Hp & Hk & Hs). pose proof Hp as [Hp1 Hp2]%Forall_app.
  destruct (Merge_dedup_result uuid now m p0 p1 rest)
    as (part & E1 & Hraw1 & Hr1 & Hs1 & Ht1 & _); [done|done|].
  destruct (Merge_dedup_result uuid now m (mr_Packet part) p2 more)
    as (stepwise & E2 & Hraw2 & Hr2 & _ & _ & _ & Ho2 & _); [done|unfold mergeable; by rewrite Hs1, Ht1|].
  destruct (Merge_dedup_result uuid now m p0 p1 (rest ++ p2 :: more))
    as (whole & E3 & Hraw3 & Hr3 & _ & _ & _ & Ho3 & _); [done|done|].
  exists part, stepwise, whole. do 3 (split; [done|]).
  rewrite Hs1 in Hr2, Ho2. rewrite !GetRows_data, Ho2, Ho3 by done.
  rewrite <- !(one_row_per_key_length _ (merge_policy m (p_Schema p0))).
  assert (one_row_per_key (merge_key m (p_Schema p0)) (merge_policy m (p_Schema p0))
      (input_rows (mr_Packet part :: p2 :: more))
    ≡ₚ one_row_per_key (merge_key m (p_Schema p0)) (merge_policy m (p_Schema p0))
      (input_rows (p0 :: p1 :: rest ++ p2 :: more))) as Hc.
  { change (p0 :: p1 :: rest ++ p2 :: more) with ((p0 :: p1 :: rest) ++ p2 :: more).
    unfold input_rows. rewrite map_app, concat_app. by apply one_row_per_key_collapse. }
  split; [by rewrite Hr2, Hr3|by rewrite Hc].
Qed.

Lemma merge_incremental_witness :
  exists part stepwise whole,
    Merge "n" 2 (demo_merger StrategyLeftPriority) [merge_demo [["1"; "ann"]]; merge_demo [["1"; "al"]]] = Ok part
    /\ Merge "n" 2 (demo_merger StrategyLeftPriority) [mr_Packet part; merge_demo [["1"; "x"]; ["2"; "y"]]] = Ok stepwise
    /\ Merge "n" 2 (demo_merger StrategyLeftPriority)
         [merge_demo [["1"; "ann"]]; merge_demo [["1"; "al"]]; merge_demo [["1"; "x"]; ["2"; "y"]]] = Ok whole
    /\ GetRows (mr_Packet stepwise) ≡ₚ GetRows (mr_Packet whole)
    /\ mst_TotalRowsOut (mr_Stats stepwise) = mst_TotalRowsOut (mr_Stats whole).
Proof.
  apply (merge_incremental "n" 2 (demo_merger StrategyLeftPriority) (merge_demo [["1"; "ann"]])
    (merge_demo [["1"; "al"]]) (merge_demo [["1"; "x"]; ["2"; "y"]]) [] []); [reflexivity|].
  apply (demo_mergeable StrategyLeftPriority [["1"; "ann"]] [_; _]). done.
Defined.

(** Intersection keeps a row of the first packet exactly when its key occurs, in the rows of all
    the other packets together, as many times as there are other packets; where none of those repeats a
    key, that is when every packet has the key, as the option promises.  Of several rows of the first
    packet with one key the last is kept. *)
Theorem merge_intersection_correct `{GoRangeLaws} (uuid : string) (now : Z) (m : Merger)
    (p0 p1 : DataPacket) (rest : list DataPacket) (others := p1 :: rest)
    (ki := GetFieldIndices (p_Schema p0) (merge_keyFields m (p_Schema p0)))
    (first := ParseRows (d_Rows (p_Data p0))) :
  mo_Strategy (mg_options m) = StrategyIntersection -> mergeable m p0 others ->
  exists res,
    Merge uuid now m (p0 :: others) = Ok res
    /\ GetRows (mr_Packet res)
       ≡ₚ kept_rows ki (occurs_exactly ki (length others) (input_rows others)) first
    /\ (Forall (fun p => NoDup (map (buildKey ki) (ParseRows (d_Rows (p_Data p))))) others ->
        GetRows (mr_Packet res)
        ≡ₚ kept_rows ki (fun k => forallb (fun p =>
             bool_decide (k ∈ map (buildKey ki) (ParseRows (d_Rows (p_Data p))))) others) first).
Proof.
  intros Hs (Hp & Hk & _). exists (mergeIntersection uuid now (p0 :: others) (p_Schema p0)
    (merge_keyFields m (p_Schema p0))).
  assert (Merge uuid now m (p0 :: others)
    = Ok (mergeIntersection uuid now (p0 :: others) (p_Schema p0) (merge_keyFields m (p_Schema p0)))) as E.
  { unfold Merge. rewrite (proj2 (check_packets_ok _ _ 1 _) Hp), Hs. simpl. unfold check_.
    destruct Hk as [Hk|Hk]; [|by rewrite Hs in Hk]. by destruct (merge_keyFields m (p_Schema p0)). }
  pose proof (mergeIntersection_rows uuid now p0 others (p_Schema p0) (merge_keyFields m (p_Schema p0))) as Hr.
  fold ki first in Hr. split; [exact E|]. split; [exact Hr|].
  intros Hnd. rewrite Hr. unfold kept_rows. apply reflexive_eq, Forall_omap_ext, Forall_forall.
  intros k _. by rewrite occurs_exactly_all.
Qed.

Lemma merge_intersection_correct_witness :
  exists res,
    Merge "n" 2 (demo_merger StrategyIntersection)
      [merge_demo [["1"; "ann"]; ["2"; "bob"]]; merge_demo [["2"; "bea"]; ["3"; "cy"]]] = Ok res
    /\ GetRows (mr_Packet res) ≡ₚ [["2"; "bob"]].
Proof.
  destruct (merge_intersection_correct "n" 2 (demo_merger StrategyIntersection)
    (merge_demo [["1"; "ann"]; ["2"; "bob"]]) (merge_demo [["2"; "bea"]; ["3"; "cy"]]) [] eq_refl
    (demo_mergeable StrategyIntersection _ [_] ltac:(done))) as (res & E & Hr & _).
  exists res. split; [exact E|]. etrans; [exact Hr|]. vm_compute. apply reflexive_eq. reflexivity.
Defined.

(** Intersection loses a common row when a packet repeats its key: of two packets that both have a
    key, the second one twice or more, the intersection has no row with that key. *)
Theorem intersection_drops_repeated_key `{GoRangeLaws} (uuid : string) (now : Z) (m : Merger)
    (p0 p1 : DataPacket) (res : MergeResult) (k : string) (key := merge_key m (p_Schema p0)) :
  mo_Strategy (mg_options m) = StrategyIntersection ->
  Merge uuid now m [p0; p1] = Ok res ->
  2 <= length (rows_of key k (ParseRows (d_Rows (p_Data p1)))) ->
  k ∉ map key (GetRows (mr_Packet res)).
Proof.
  intros Hs E Hl. assert (mergeable m p0 [p1]) as (Hp & Hk & _).
  { apply (Merge_ok_mergeable uuid now). by rewrite E. }
  unfold Merge in E. rewrite (proj2 (check_packets_ok _ _ 1 _) Hp), Hs in E. simpl in E. unfold check_ in E.
  destruct (merge_keyFields m (p_Schema p0)) as [|f fs] eqn:Ek; [by destruct Hk as [Hk|Hk]; [|rewrite Hs in Hk]|].
  simpl in E. injection E as <-.
  rewrite (mergeIntersection_rows uuid now p0 [p1]).
  intros (r & -> & (k' & _ & Hr)%list_elem_of_omap)%list_elem_of_fmap. unfold key, merge_key in *.
  rewrite Ek in *. unfold occurs_exactly, input_rows in Hr. cbn [map concat length] in Hr.
  rewrite app_nil_r in Hr. destruct (Nat.eqb_spec
    (length (rows_of (buildKey (GetFieldIndices (p_Schema p0) (f :: fs))) k'
      (ParseRows (d_Rows (p_Data p1))))) 1) as [El|]; [|done].
  rewrite <- winner_last in Hr. apply winner_of_key in Hr as [_ Hr]. rewrite Hr, El in Hl. lia.
Qed.

Lemma intersection_drops_repeated_key_witness :
  let a := merge_demo [["1"; "ann"]] in
  let b := merge_demo [["1"; "al"]; ["1"; "alice"]] in
  exists res, Merge "n" 2 (demo_merger StrategyIntersection) [a; b] = Ok res
    /\ "1" ∉ map (merge_key (demo_merger StrategyIntersection) (p_Schema a)) (GetRows (mr_Packet res)).
Proof.
  cbv zeta. eexists. split; [reflexivity|].
  apply (intersection_drops_repeated_key "n" 2 (demo_merger StrategyIntersection)
    (merge_demo [["1"; "ann"]]) (merge_demo [["1"; "al"]; ["1"; "alice"]])); [reflexivity..|].
  vm_compute. lia.
Defined.

(** A key list that names no field of the schema is accepted and makes all rows one: the merge of any
    rows at all then has exactly one row. *)
Theorem unknown_key_fields_collapse `{GoRangeLaws} (uuid : string) (now : Z) (m : Merger)
    (p0 p1 : DataPacket) (rest : list DataPacket) :
  deduplicates m = true -> mergeable m p0 (p1 :: rest) ->
  GetFieldIndices (p_Schema p0) (merge_keyFields m (p_Schema p0)) = [] ->
  input_rows (p0 :: p1 :: rest) <> [] ->
  exists res row,
    Merge uuid now m (p0 :: p1 :: rest) = Ok res /\ GetRows (mr_Packet res) = [row].
Proof.
  intros Hd Hm Hk Hne. destruct (Merge_dedup_result uuid now m p0 p1 rest Hd Hm) as (res & E & Hraw & Hr & _).
  unfold merge_key in Hr. rewrite Hk in Hr. exists res.
  assert (length (one_row_per_key (buildKey []) (merge_policy m (p_Schema p0)) (input_rows (p0 :: p1 :: rest))) = 1)
    as Hl.
  { rewrite one_row_per_key_length. unfold distinct_keys.
    destruct (input_rows (p0 :: p1 :: rest)) as [|r rs]; [done|]. cbn [map].
    rewrite (NoDup_Permutation (remove_dups _) [buildKey [] r]); [done|apply NoDup_remove_dups|apply NoDup_singleton|].
    intros k. rewrite elem_of_remove_dups, list_elem_of_singleton. split; [|intros ->; by constructor].
    intros [->|(x & -> & _)%list_elem_of_fmap]%elem_of_cons; done. }
  rewrite <- Hr in Hl. rewrite GetRows_data by done.
  destruct (ParseRows (d_Rows (p_Data (mr_Packet res)))) as [|row [|]]; try done. by exists row.
Qed.

Lemma unknown_key_fields_collapse_witness :
  let m := NewMerger (MkMergeOptions StrategyUnion ["ID"] None) in
  exists res row,
    Merge "n" 2 m [merge_demo [["1"; "ann"]; ["2"; "bob"]]; merge_demo [["3"; "cy"]]] = Ok res
    /\ GetRows (mr_Packet res) = [row].
Proof.
  cbv zeta. apply (unknown_key_fields_collapse "n" 2 (NewMerger (MkMergeOptions StrategyUnion ["ID"] None))
    (merge_demo [["1"; "ann"]; ["2"; "bob"]]) (merge_demo [["3"; "cy"]]) []); [reflexivity| |reflexivity|done].
  split; [by repeat constructor|]. split; [by left|done].
Defined.

(** Printing a strategy and parsing the name gives it back, for the five strategies there are. *)
Theorem strategy_roundtrip `{GoCaseLaws} (s : MergeStrategy) :
  (0 <= s <= 4)%Z -> ParseStrategy (MergeStrategy_String s) = Ok s.
Proof.
  intros Hs. assert (s = 0 \/ s = 1 \/ s = 2 \/ s = 3 \/ s = 4)%Z as [-> | [-> | [-> | [-> | -> ]]]] by lia;
    unfold ParseStrategy; rewrite ToLower_ascii by (vm_compute; reflexivity); vm_compute; reflexivity.
Qed.
