(* ===== verification/DiffPkg.v ===== *)
(** * Comparing packets

    The package [src/pkg/diff/diff.go]: two packets of one table are compared row by row, by key.  The
    order of ranging over a map is the interface [GoRange], case folding [GoCase].  An access beyond the
    fields of the schema, a run-time panic in the source, is the error [DiffPanic]. *)

From Stdlib Require Import ZArith Lia String.
From stdpp Require Import base list gmap strings.
From S2P Require Import Prelude PacketTypes RowCodec PacketOps GoMaps MergePkg.

(** ** Data *)

Record FieldChange := MkFieldChange {
  fc_FieldName : string;
  fc_OldValue : string;
  fc_NewValue : string;
}.

Record ModifiedRow := MkModifiedRow {
  md_Key : string;
  md_OldRow : list string;
  md_NewRow : list string;
  md_Changes : gmap nat FieldChange;
}.

Record DiffStats := MkDiffStats {
  ds_TotalInA : nat;
  ds_TotalInB : nat;
  ds_AddedCount : nat;
  ds_RemovedCount : nat;
  ds_ModifiedCount : nat;
  ds_UnchangedCount : nat;
}.

Record DiffResult := MkDiffResult {
  df_Added : list (list string);
  df_Removed : list (list string);
  df_Modified : list ModifiedRow;
  df_Stats : DiffStats;
  df_Schema : Schema;
}.

Record DiffOptions := MkDiffOptions {
  do_KeyFields : list string;
  do_IgnoreFields : list string;
  do_CaseSensitive : bool;
}.

Inductive DiffError :=
| NilPackets
| DifferentTables (a b : string)
| DiffSchemaMismatch (e : SchemaMismatch)
| DiffNoKeyFields
| DiffPanic (index : nat).

Record Differ := MkDiffer { df_options : DiffOptions }.

Definition NewDiffer (options : DiffOptions) : Differ :=
  if negb (do_CaseSensitive options)
  then MkDiffer (MkDiffOptions (do_KeyFields options) (do_IgnoreFields options) false)
  else MkDiffer options.

(** ** Helpers *)

Fixpoint fields_from (i : nat) (a b : list Field) : result SchemaMismatch () :=
  match a, b with
  | fa :: a', fb :: b' =>
      fail_if negb (String.eqb (f_Name fa) (f_Name fb))
        with FieldNameDiffers i (f_Name fa) (f_Name fb) ;;
      fail_if negb (String.eqb (f_Type fa) (f_Type fb))
        with FieldTypeDiffers (f_Name fa) (f_Type fa) (f_Type fb) ;;
      fields_from (S i) a' b'
  | _, _ => Ok ()
  end.
Definition validateSchemas (a b : Schema) : result SchemaMismatch () :=
  fail_if negb (length (s_Fields a) =? length (s_Fields b))%nat
    with FieldCountDiffers (length (s_Fields a)) (length (s_Fields b)) ;;
  fields_from 0 (s_Fields a) (s_Fields b).

Definition contains (slice : list nat) (val : nat) : bool := existsb (fun v => v =? val) slice.

Section Diff.
  Context `{GoCase} `{GoRange}.

(** [if !d.options.CaseSensitive { val = strings.ToLower(val) }]. *)
Definition fold_cell (d : Differ) (val : string) : string :=
  if do_CaseSensitive (df_options d) then val else ToLower val.

Definition buildKey (d : Differ) (keyIndices : list nat) (row : list string) : string :=
  Join (omap (fun idx => fold_cell d <$> row !! idx) keyIndices) "|".

Definition buildRowMap (d : Differ) (rows : list (list string)) (keyIndices : list nat)
    : gmap string (list string) :=
  foldl (fun m row => <[buildKey d keyIndices row := row]> m) ∅ rows.

(** The loop of [compareRows] from index [i] on. *)
Fixpoint compare_from (d : Differ) (ignoreIndices : list nat) (schema : Schema) (i : nat)
    (rowA rowB : list string) (modified : bool) (changes : gmap nat FieldChange)
    : result DiffError (bool * gmap nat FieldChange) :=
  match rowA, rowB with
  | a :: rowA', b :: rowB' =>
      if contains ignoreIndices i
      then compare_from d ignoreIndices schema (S i) rowA' rowB' modified changes
      else if negb (String.eqb (fold_cell d a) (fold_cell d b))
      then match s_Fields schema !! i with
           | None => Err (DiffPanic i)
           | Some f =>
               compare_from d ignoreIndices schema (S i) rowA' rowB' true
                 (<[i := MkFieldChange (f_Name f) a b]> changes)
           end
      else compare_from d ignoreIndices schema (S i) rowA' rowB' modified changes
  | _, _ => Ok (modified, changes)
  end.
Definition compareRows (d : Differ) (rowA rowB : list string) (ignoreIndices : list nat) (schema : Schema)
    : result DiffError (bool * gmap nat FieldChange) :=
  compare_from d ignoreIndices schema 0 rowA rowB false ∅.

(** ** Compare *)

(** The rounds of [for key, rowA := range mapA]. *)
Definition add_removed (row : list string) (r : DiffResult) : DiffResult :=
  let s := df_Stats r in
  MkDiffResult (df_Added r) (df_Removed r ++ [row]) (df_Modified r)
    (MkDiffStats (ds_TotalInA s) (ds_TotalInB s) (ds_AddedCount s) (S (ds_RemovedCount s))
       (ds_ModifiedCount s) (ds_UnchangedCount s)) (df_Schema r).
Definition add_modified (row : ModifiedRow) (r : DiffResult) : DiffResult :=
  let s := df_Stats r in
  MkDiffResult (df_Added r) (df_Removed r) (df_Modified r ++ [row])
    (MkDiffStats (ds_TotalInA s) (ds_TotalInB s) (ds_AddedCount s) (ds_RemovedCount s)
       (S (ds_ModifiedCount s)) (ds_UnchangedCount s)) (df_Schema r).
Definition add_unchanged (r : DiffResult) : DiffResult :=
  let s := df_Stats r in
  MkDiffResult (df_Added r) (df_Removed r) (df_Modified r)
    (MkDiffStats (ds_TotalInA s) (ds_TotalInB s) (ds_AddedCount s) (ds_RemovedCount s)
       (ds_ModifiedCount s) (S (ds_UnchangedCount s))) (df_Schema r).
Definition add_added (row : list string) (r : DiffResult) : DiffResult :=
  let s := df_Stats r in
  MkDiffResult (df_Added r ++ [row]) (df_Removed r) (df_Modified r)
    (MkDiffStats (ds_TotalInA s) (ds_TotalInB s) (S (ds_AddedCount s)) (ds_RemovedCount s)
       (ds_ModifiedCount s) (ds_UnchangedCount s)) (df_Schema r).

Fixpoint compare_old (d : Differ) (mapB : gmap string (list string)) (ignoreIndices : list nat)
    (schema : Schema) (entries : list (string * list string)) (r : DiffResult)
    : result DiffError DiffResult :=
  match entries with
  | [] => Ok r
  | (key, rowA) :: rest =>
      match mapB !! key with
      | None => compare_old d mapB ignoreIndices schema rest (add_removed rowA r)
      | Some rowB =>
          '(modified, changes) ← compareRows d rowA rowB ignoreIndices schema;
          compare_old d mapB ignoreIndices schema rest
            (if modified : bool then add_modified (MkModifiedRow key rowA rowB changes) r
             else add_unchanged r)
      end
  end.

(** The rounds of [for key, rowB := range mapB]. *)
Definition compare_new (mapA : gmap string (list string)) (entries : list (string * list string))
    (r : DiffResult) : DiffResult :=
  foldl (fun r '(key, rowB) => match mapA !! key with Some _ => r | None => add_added rowB r end) r entries.

Definition diff_keyFields (d : Differ) (schema : Schema) : list string :=
  match do_KeyFields (df_options d) with
  | [] => ExtractKeyFields schema
  | keyFields => keyFields
  end.

Definition Compare (d : Differ) (packetA packetB : option DataPacket) : result DiffError DiffResult :=
  match packetA, packetB with
  | Some packetA, Some packetB =>
      fail_if negb (String.eqb (h_TableName (p_Header packetA)) (h_TableName (p_Header packetB)))
        with DifferentTables (h_TableName (p_Header packetA)) (h_TableName (p_Header packetB)) ;;
      match validateSchemas (p_Schema packetA) (p_Schema packetB) with
      | Err e => Err (DiffSchemaMismatch e)
      | Ok _ =>
          let keyFields := diff_keyFields d (p_Schema packetA) in
          fail_if (length keyFields =? 0)%nat with DiffNoKeyFields ;;
          let keyIndices := GetFieldIndices (p_Schema packetA) keyFields in
          let ignoreIndices := GetFieldIndices (p_Schema packetA) (do_IgnoreFields (df_options d)) in
          let rowsA := ParseRows (d_Rows (p_Data packetA)) in
          let rowsB := ParseRows (d_Rows (p_Data packetB)) in
          let mapA := buildRowMap d rowsA keyIndices in
          let mapB := buildRowMap d rowsB keyIndices in
          let result := MkDiffResult [] [] []
            (MkDiffStats (length rowsA) (length rowsB) 0 0 0 0) (p_Schema packetA) in
          result ← compare_old d mapB ignoreIndices (p_Schema packetA) (range_entries mapA) result;
          Ok (compare_new mapA (range_entries mapB) result)
      end
  | _, _ => Err NilPackets
  end.
End Diff.

Definition IsEqual (r : DiffResult) : bool :=
  (ds_AddedCount (df_Stats r) =? 0)%nat && (ds_RemovedCount (df_Stats r) =? 0)%nat
  && (ds_ModifiedCount (df_Stats r) =? 0)%nat.

(** ** Lemmas: two rows *)

Section Rows.
  Context `{GoCase} (d : Differ) (ignore : list nat) (schema : Schema).

(** The change at index [i], if there is one to report. *)
Definition cell_change (a b : list string) (i : nat) : option FieldChange :=
  if contains ignore i then None
  else x ← a !! i; y ← b !! i;
       if String.eqb (fold_cell d x) (fold_cell d y) then None
       else f ← s_Fields schema !! i; Some (MkFieldChange (f_Name f) x y).
Definition row_changes (a b : list string) : gmap nat FieldChange :=
  list_to_map (omap (fun i => pair i <$> cell_change a b i) (seq 0 (length a))).

(** Two rows agree on every cell both have, up to case folding and the ignored fields. *)
Definition rows_agree (a b : list string) : Prop :=
  forall i x y, contains ignore i = false -> a !! i = Some x -> b !! i = Some y ->
    fold_cell d x = fold_cell d y.

Lemma lookup_row_changes (a b : list string) (i : nat) : row_changes a b !! i = cell_change a b i.
Proof.
  unfold row_changes. destruct (cell_change a b i) as [c|] eqn:E.
  - apply elem_of_list_to_map_1.
    + apply NoDup_fst_omap_pair, NoDup_seq.
    + apply list_elem_of_omap. exists i. rewrite E. split; [|done]. apply elem_of_seq. split; [lia|].
      unfold cell_change in E. destruct (contains ignore i); [done|].
      destruct (a !! i) eqn:Ea; [|done]. apply lookup_lt_Some in Ea. lia.
  - apply not_elem_of_list_to_map_1. intros ((j & c) & -> & (k & _ & Ek)%list_elem_of_omap)%list_elem_of_fmap.
    destruct (cell_change a b k) eqn:E'; simplify_eq/=.
Qed.

Lemma row_changes_empty (a b : list string) :
  length a <= length (s_Fields schema) -> row_changes a b = ∅ <-> rows_agree a b.
Proof.
  intros Hw. split.
  - intros E i x y Hi Ha Hb. pose proof (lookup_row_changes a b i) as Hl.
    rewrite E, lookup_empty in Hl. unfold cell_change in Hl. rewrite Hi, Ha, Hb in Hl. simpl in Hl.
    destruct (String.eqb_spec (fold_cell d x) (fold_cell d y)); [done|].
    destruct (s_Fields schema !! i) eqn:Ef; [done|]. apply lookup_ge_None in Ef. apply lookup_lt_Some in Ha. lia.
  - intros Hag. apply map_eq. intros i. rewrite lookup_row_changes, lookup_empty. unfold cell_change.
    destruct (contains ignore i) eqn:Hi; [done|].
    destruct (a !! i) as [x|] eqn:Ha, (b !! i) as [y|] eqn:Hb; simpl; try done.
    by rewrite (Hag i x y Hi Ha Hb), String.eqb_refl.
Qed.

Lemma cell_change_beyond (a b : list string) (i : nat) :
  length a <= i \/ length b <= i -> cell_change a b i = None.
Proof.
  intros Hi. unfold cell_change. destruct (contains ignore i); [done|].
  destruct Hi as [Hi|Hi]; rewrite (lookup_ge_None_2 _ i Hi); [done|]. by destruct (a !! i).
Qed.

Lemma cell_change_at (pa pb a b : list string) (x y : string) :
  length pa = length pb ->
  cell_change (pa ++ x :: a) (pb ++ y :: b) (length pa)
  = if contains ignore (length pa) then None
    else if String.eqb (fold_cell d x) (fold_cell d y) then None
    else f ← s_Fields schema !! length pa; Some (MkFieldChange (f_Name f) x y).
Proof.
  intros Hl. unfold cell_change. rewrite list_lookup_middle by done. by rewrite list_lookup_middle.
Qed.

(** The loop has reported the changes of the cells behind it. *)
Lemma compare_from_ok (a b pa pb : list string) (changes : gmap nat FieldChange) :
  length pa = length pb -> length (pa ++ a) <= length (s_Fields schema) ->
  (forall j, changes !! j = if decide (j < length pa) then cell_change (pa ++ a) (pb ++ b) j else None) ->
  compare_from d ignore schema (length pa) a b (negb (bool_decide (changes = ∅))) changes
  = Ok (negb (bool_decide (row_changes (pa ++ a) (pb ++ b) = ∅)), row_changes (pa ++ a) (pb ++ b)).
Proof.
  revert b pa pb changes; induction a as [|x a IH]; intros b pa pb changes Hl Hw Hc.
  - enough (row_changes (pa ++ []) (pb ++ b) = changes) as -> by done.
    apply map_eq. intros j. rewrite lookup_row_changes, Hc. destruct (decide _); [done|].
    apply cell_change_beyond. left. rewrite app_nil_r. lia.
  - destruct b as [|y b].
    { enough (row_changes (pa ++ x :: a) (pb ++ []) = changes) as -> by done.
      apply map_eq. intros j. rewrite lookup_row_changes, Hc. destruct (decide _); [done|].
      apply cell_change_beyond. right. rewrite app_nil_r. lia. }
    assert (length (pa ++ [x]) = S (length pa)) as Hsl by (rewrite length_app; simpl; lia).
    pose proof (cell_change_at pa pb a b x y Hl) as Hat.
    assert (forall changes', (forall j, changes' !! j = if decide (j = length pa)
        then cell_change (pa ++ x :: a) (pb ++ y :: b) j else changes !! j) ->
      compare_from d ignore schema (S (length pa)) a b (negb (bool_decide (changes' = ∅))) changes'
      = Ok (negb (bool_decide (row_changes (pa ++ x :: a) (pb ++ y :: b) = ∅)),
            row_changes (pa ++ x :: a) (pb ++ y :: b))) as Hnext.
    { intros changes' Hc'. specialize (IH b (pa ++ [x]) (pb ++ [y]) changes').
      rewrite Hsl in IH. rewrite <- !app_assoc in IH. apply IH; [rewrite length_app; simpl; lia|done|].
      intros j. rewrite Hc', Hc. destruct (decide (j = length pa)), (decide (j < length pa)),
        (decide (j < S (length pa))); try done; lia. }
    assert (changes !! length pa = None) as Hnone by (rewrite Hc; by destruct (decide _); [lia|]).
    cbn [compare_from]. destruct (contains ignore (length pa)).
    { apply Hnext. intros j. destruct (decide (j = length pa)) as [->|]; [by rewrite Hat|done]. }
    destruct (String.eqb (fold_cell d x) (fold_cell d y)); cbn [negb].
    { apply Hnext. intros j. destruct (decide (j = length pa)) as [->|]; [by rewrite Hat|done]. }
    destruct (s_Fields schema !! length pa) as [f|] eqn:Ef.
    + rewrite <- (Hnext (<[length pa := MkFieldChange (f_Name f) x y]> changes)).
      * rewrite bool_decide_eq_false_2; [done|]. apply insert_non_empty.
      * intros j. destruct (decide (j = length pa)) as [->|]; [by rewrite lookup_insert_eq, Hat|].
        by rewrite lookup_insert_ne.
    + apply lookup_ge_None in Ef. rewrite length_app in Hw. simpl in Hw. lia.
Qed.

(** [compareRows] reports exactly the changes, on rows no wider than the schema. *)
Lemma compareRows_ok (a b : list string) :
  length a <= length (s_Fields schema) ->
  compareRows d a b ignore schema = Ok (negb (bool_decide (row_changes a b = ∅)), row_changes a b).
Proof.
  intros Hw. pose proof (compare_from_ok a b [] [] ∅ eq_refl Hw (fun j => lookup_empty j)) as Hc.
  by rewrite (bool_decide_eq_true_2 (∅ = ∅)) in Hc.
Qed.
End Rows.

(** ** Lemmas: two tables *)

Section Tables.
  Context `{GoCase} `{GoRangeLaws} (d : Differ) (schema : Schema) (ignore : list nat).
  Implicit Types (t : gmap string (list string)) (entries : list (string * list string)).

Definition removed_row t (e : string * list string) : option (list string) :=
  match t !! e.1 with Some _ => None | None => Some e.2 end.
Definition modified_row t (e : string * list string) : option ModifiedRow :=
  b ← t !! e.1;
  let changes := row_changes d ignore schema e.2 b in
  if bool_decide (changes = ∅) then None else Some (MkModifiedRow e.1 e.2 b changes).
Definition unchanged_row t (e : string * list string) : option (list string) :=
  b ← t !! e.1;
  if bool_decide (row_changes d ignore schema e.2 b = ∅) then Some e.2 else None.

(** A result with more removed, modified and unchanged rows. *)
Definition extend_diff (removed : list (list string)) (modified : list ModifiedRow) (unchanged : nat)
    (r : DiffResult) : DiffResult :=
  let s := df_Stats r in
  MkDiffResult (df_Added r) (df_Removed r ++ removed) (df_Modified r ++ modified)
    (MkDiffStats (ds_TotalInA s) (ds_TotalInB s) (ds_AddedCount s)
       (ds_RemovedCount s + length removed) (ds_ModifiedCount s + length modified)
       (ds_UnchangedCount s + unchanged)) (df_Schema r).

Lemma extend_diff_app rem1 mod1 n1 rem2 mod2 n2 (r : DiffResult) :
  extend_diff rem2 mod2 n2 (extend_diff rem1 mod1 n1 r)
  = extend_diff (rem1 ++ rem2) (mod1 ++ mod2) (n1 + n2) r.
Proof. unfold extend_diff. cbn. by rewrite !length_app, <- !app_assoc, !Nat.add_assoc. Qed.

Lemma extend_diff_steps (r : DiffResult) (row : list string) (md : ModifiedRow) :
  extend_diff [] [] 0 r = r /\ add_removed row r = extend_diff [row] [] 0 r
  /\ add_modified md r = extend_diff [] [md] 0 r /\ add_unchanged r = extend_diff [] [] 1 r.
Proof.
  unfold extend_diff, add_removed, add_modified, add_unchanged. cbn [length].
  rewrite !app_nil_r, !Nat.add_0_r, !Nat.add_1_r. split; [|done]. destruct r as [???[]?]. done.
Qed.

(** The first loop sorts the entries into removed, modified and unchanged rows. *)
Lemma compare_old_ok t entries (r : DiffResult) :
  Forall (fun e => length e.2 <= length (s_Fields schema)) entries ->
  compare_old d t ignore schema entries r
  = Ok (extend_diff (omap (removed_row t) entries) (omap (modified_row t) entries)
          (length (omap (unchanged_row t) entries)) r).
Proof.
  intros Hw. revert r; induction Hw as [|[k a] entries Ha _ IH]; intros r; simpl.
  - by rewrite (proj1 (extend_diff_steps r [] (MkModifiedRow "" [] [] ∅))).
  - unfold removed_row at 1, modified_row at 1, unchanged_row at 1. simpl.
    destruct (t !! k) as [b|]; simpl.
    + rewrite compareRows_ok by done. simpl. set (ch := row_changes d ignore schema a b).
      destruct (extend_diff_steps r a (MkModifiedRow k a b ch)) as (_ & _ & Hm & Hu).
      destruct (bool_decide _); simpl; rewrite IH, ?Hm, ?Hu, extend_diff_app; reflexivity.
    + destruct (extend_diff_steps r a (MkModifiedRow k a [] ∅)) as (_ & Hr & _).
      rewrite IH, Hr, extend_diff_app. reflexivity.
Qed.

(** The second loop finds the added rows. *)
Lemma compare_new_ok t entries (r : DiffResult) (s := df_Stats r) :
  compare_new t entries r
  = MkDiffResult (df_Added r ++ omap (removed_row t) entries) (df_Removed r) (df_Modified r)
      (MkDiffStats (ds_TotalInA s) (ds_TotalInB s) (ds_AddedCount s + length (omap (removed_row t) entries))
         (ds_RemovedCount s) (ds_ModifiedCount s) (ds_UnchangedCount s)) (df_Schema r).
Proof.
  unfold s, compare_new. clear s. revert r; induction entries as [|[k b] entries IH]; intros r; simpl.
  - rewrite app_nil_r, Nat.add_0_r. by destruct r as [???[]?].
  - rewrite IH. assert (removed_row t (k, b) = match t !! k with Some _ => None | None => Some b end) as -> by done.
    destruct (t !! k); [done|]. simpl. rewrite <- app_assoc. by rewrite Nat.add_succ_r.
Qed.
End Tables.

(** ** Lemmas: Compare *)

Lemma omap_entries {K V W} (f : K * V -> option W) (g : K -> option V) (ks : list K) :
  omap f (omap (fun k => pair k <$> g k) ks) = omap (fun k => g k ≫= fun v => f (k, v)) ks.
Proof.
  induction ks as [|k ks IH]; simpl; [done|]. destruct (g k); simpl; [|exact IH].
  destruct (f _); [f_equal; exact IH|exact IH].
Qed.

Section Compare.
  Context `{GoCase} `{GoRangeLaws} (d : Differ).

(** The row a key stands for: the last one with it. *)
Definition keyed (ki : list nat) (rows : list (list string)) (k : string) : option (list string) :=
  last (rows_of (buildKey d ki) k rows).

Lemma lookup_buildRowMap (rows : list (list string)) (ki : list nat) (k : string) :
  buildRowMap d rows ki !! k = keyed ki rows k.
Proof. unfold buildRowMap, keyed. by rewrite overwrite_fold, lookup_put_rows, winner_last. Qed.

Lemma keyed_Some (ki : list nat) (rows : list (list string)) (k : string) :
  is_Some (keyed ki rows k) <-> k ∈ distinct_keys (buildKey d ki) rows.
Proof. unfold keyed. by rewrite <- winner_last, winner_Some, elem_of_distinct_keys. Qed.

Lemma keyed_elem (ki : list nat) (rows : list (list string)) (k : string) (r : list string) :
  keyed ki rows k = Some r -> r ∈ rows.
Proof. unfold keyed. rewrite <- winner_last. by intros [? _]%winner_of_key. Qed.

Lemma buildRowMap_entries (rows : list (list string)) (ki : list nat) :
  range_entries (buildRowMap d rows ki)
  ≡ₚ omap (fun k => pair k <$> keyed ki rows k) (distinct_keys (buildKey d ki) rows).
Proof.
  rewrite (entries_by_keys _ (distinct_keys (buildKey d ki) rows)).
  - apply reflexive_eq, Forall_omap_ext, Forall_forall. intros k _. by rewrite lookup_buildRowMap.
  - apply NoDup_remove_dups.
  - intros k. rewrite lookup_buildRowMap. apply keyed_Some.
Qed.

(** Selecting among the entries is selecting among the keys. *)
Lemma select_entries {W} (f : string * list string -> option W) (g : string -> option W) (ki : list nat)
    (rows : list (list string)) :
  (forall k, (keyed ki rows k ≫= fun r => f (k, r)) = g k) ->
  omap f (range_entries (buildRowMap d rows ki)) ≡ₚ omap g (distinct_keys (buildKey d ki) rows).
Proof.
  intros Hfg. rewrite buildRowMap_entries, omap_entries.
  apply reflexive_eq, Forall_omap_ext, Forall_forall. auto.
Qed.

(** What the classification of a key should be, from the rows it stands for. *)
Definition only_left (tA tB : string -> option (list string)) (k : string) : option (list string) :=
  match tB k with Some _ => None | None => tA k end.
Definition changed (schema : Schema) (ignore : list nat) (tA tB : string -> option (list string)) (k : string)
    : option ModifiedRow :=
  a ← tA k; b ← tB k;
  let changes := row_changes d ignore schema a b in
  if bool_decide (changes = ∅) then None else Some (MkModifiedRow k a b changes).
Definition same (schema : Schema) (ignore : list nat) (tA tB : string -> option (list string)) (k : string)
    : option (list string) :=
  a ← tA k; b ← tB k;
  if bool_decide (row_changes d ignore schema a b = ∅) then Some a else None.

(** Two packets that can be compared; no row of the first is wider than the schema. *)
Record comparable (A B : DataPacket) : Prop := {
  cmp_table : h_TableName (p_Header A) = h_TableName (p_Header B);
  cmp_schema : map (fun f => (f_Name f, f_Type f)) (s_Fields (p_Schema A))
               = map (fun f => (f_Name f, f_Type f)) (s_Fields (p_Schema B));
  cmp_key : diff_keyFields d (p_Schema A) <> [];
  cmp_width : Forall (fun r => length r <= length (s_Fields (p_Schema A))) (ParseRows (d_Rows (p_Data A)));
}.

(** The indices the comparison works with, and the rows by key. *)
Definition diff_indices (A : DataPacket) : list nat :=
  GetFieldIndices (p_Schema A) (diff_keyFields d (p_Schema A)).
Definition ignored (A : DataPacket) : list nat :=
  GetFieldIndices (p_Schema A) (do_IgnoreFields (df_options d)).
Definition keyed_packet (ki : list nat) (p : DataPacket) : string -> option (list string) :=
  keyed ki (ParseRows (d_Rows (p_Data p))).
Definition packet_keys (ki : list nat) (p : DataPacket) : list string :=
  distinct_keys (buildKey d ki) (ParseRows (d_Rows (p_Data p))).

(** The result the comparison should return, up to the order of the rows. *)
Record diff_of (A B : DataPacket) (r : DiffResult) (ki := diff_indices A)
    (tA := keyed_packet ki A) (tB := keyed_packet ki B) : Prop := {
  dof_removed : df_Removed r ≡ₚ omap (only_left tA tB) (packet_keys ki A);
  dof_added : df_Added r ≡ₚ omap (only_left tB tA) (packet_keys ki B);
  dof_modified : df_Modified r ≡ₚ omap (changed (p_Schema A) (ignored A) tA tB) (packet_keys ki A);
  dof_stats : df_Stats r = MkDiffStats (length (ParseRows (d_Rows (p_Data A))))
    (length (ParseRows (d_Rows (p_Data B)))) (length (df_Added r)) (length (df_Removed r))
    (length (df_Modified r)) (length (omap (same (p_Schema A) (ignored A) tA tB) (packet_keys ki A)));
  dof_schema : df_Schema r = p_Schema A;
}.

Lemma fields_from_ok (i : nat) (a b : list Field) :
  length a = length b ->
  fields_from i a b = Ok () <->
  map (fun f => (f_Name f, f_Type f)) a = map (fun f => (f_Name f, f_Type f)) b.
Proof.
  revert i b; induction a as [|x a IH]; intros i [|y b] Hl; simpl in *; try done. unfold check_.
  destruct (String.eqb_spec (f_Name x) (f_Name y)) as [En|En],
    (String.eqb_spec (f_Type x) (f_Type y)) as [Et|Et]; simpl; try (split; [done|congruence]).
  rewrite IH by lia. rewrite En, Et. split; [by intros ->|by intros [= ->]].
Qed.

Lemma diff_validateSchemas_ok (a b : Schema) :
  validateSchemas a b = Ok () <->
  map (fun f => (f_Name f, f_Type f)) (s_Fields a) = map (fun f => (f_Name f, f_Type f)) (s_Fields b).
Proof.
  unfold validateSchemas, check_. destruct (Nat.eqb_spec (length (s_Fields a)) (length (s_Fields b))) as [E|E].
  - by apply fields_from_ok.
  - split; [done|]. intros Hm. apply (f_equal length) in Hm. by rewrite !length_map in Hm.
Qed.

Lemma Compare_ok (A B : DataPacket) :
  comparable A B -> exists r, Compare d (Some A) (Some B) = Ok r /\ diff_of A B r.
Proof.
  intros [Ht Hs Hk Hw]. unfold Compare. rewrite (proj2 (String.eqb_eq _ _) Ht).
  rewrite (proj2 (diff_validateSchemas_ok _ _) Hs). simpl. unfold check_.
  destruct (Nat.eqb_spec (length (diff_keyFields d (p_Schema A))) 0) as [E|_].
  { by apply nil_length_inv in E. }
  fold (diff_indices A) (ignored A). set (ki := diff_indices A).
  rewrite compare_old_ok.
  2: { rewrite buildRowMap_entries. apply Forall_forall. intros [k r] (k' & _ & E)%list_elem_of_omap.
       destruct (keyed ki _ k') as [r'|] eqn:E'; simplify_eq/=. apply keyed_elem in E'.
       by rewrite Forall_forall in Hw; apply Hw. }
  cbn [mbind result_bind]. eexists. split; [reflexivity|]. rewrite compare_new_ok. unfold extend_diff. cbn.
  split; cbn; [apply select_entries..| |done].
  - intros k. unfold removed_row, only_left. cbn. rewrite lookup_buildRowMap. unfold keyed_packet. fold ki.
    by destruct (keyed ki _ k), (keyed ki _ k).
  - intros k. unfold removed_row, only_left. cbn. rewrite lookup_buildRowMap. unfold keyed_packet. fold ki.
    by destruct (keyed ki _ k), (keyed ki _ k).
  - intros k. unfold modified_row. cbn. by rewrite lookup_buildRowMap.
  - f_equal. rewrite select_entries; [done|]. intros k. unfold unchanged_row. cbn. by rewrite lookup_buildRowMap.
Qed.

(** Every key is classified once. *)
Lemma classified_left (schema : Schema) (ignore : list nat) (tA tB : string -> option (list string)) (ks : list string) :
  Forall (fun k => is_Some (tA k)) ks ->
  length (omap (only_left tA tB) ks) + length (omap (changed schema ignore tA tB) ks)
  + length (omap (same schema ignore tA tB) ks) = length ks.
Proof.
  induction 1 as [|k ks [a Ha] _ IH]; [done|]. simpl. unfold only_left at 1, changed at 1, same at 1.
  rewrite Ha. destruct (tB k) as [b|]; simpl; [destruct (bool_decide _)|]; simpl; unfold omap in IH; lia.
Qed.

Lemma classified_right (schema : Schema) (ignore : list nat) (tA tB : string -> option (list string)) (ks : list string) :
  Forall (fun k => is_Some (tB k)) ks ->
  length (omap (only_left tB tA) ks) + length (omap (changed schema ignore tA tB) ks)
  + length (omap (same schema ignore tA tB) ks) = length ks.
Proof.
  induction 1 as [|k ks [b Hb] _ IH]; [done|]. simpl. unfold only_left at 1, changed at 1, same at 1.
  rewrite Hb. destruct (tA k) as [a|]; simpl; [destruct (bool_decide _)|]; simpl; unfold omap in IH; lia.
Qed.

Lemma packet_keys_keyed (ki : list nat) (p : DataPacket) :
  Forall (fun k => is_Some (keyed_packet ki p k)) (packet_keys ki p).
Proof. apply Forall_forall. intros k. apply keyed_Some. Qed.

(** What needs both rows selects the same keys from either side. *)
Lemma select_common {W} (ki : list nat) (A B : DataPacket) (f : string -> option W) :
  (forall k, is_Some (f k) -> is_Some (keyed_packet ki A k) /\ is_Some (keyed_packet ki B k)) ->
  omap f (packet_keys ki A) ≡ₚ omap f (packet_keys ki B).
Proof.
  intros Hf. apply omap_keys_Permutation; [apply NoDup_remove_dups..|].
  intros k Hk. apply Hf in Hk as [HA HB]. by split; intros _; apply keyed_Some.
Qed.

Lemma changed_Some (schema : Schema) (ignore : list nat) tA tB (k : string) :
  is_Some (changed schema ignore tA tB k) -> is_Some (tA k) /\ is_Some (tB k).
Proof. unfold changed. destruct (tA k), (tB k); simpl; intros [? E]; try done; by eauto. Qed.

Lemma same_Some (schema : Schema) (ignore : list nat) tA tB (k : string) :
  is_Some (same schema ignore tA tB k) -> is_Some (tA k) /\ is_Some (tB k).
Proof. unfold same. destruct (tA k), (tB k); simpl; intros [? E]; try done; by eauto. Qed.

(** The counts of a result add up to the keys of either packet. *)
Lemma diff_accounting (A B : DataPacket) (r : DiffResult) (ki := diff_indices A) (s := df_Stats r) :
  diff_of A B r ->
  ds_RemovedCount s + ds_ModifiedCount s + ds_UnchangedCount s = length (packet_keys ki A)
  /\ ds_AddedCount s + ds_ModifiedCount s + ds_UnchangedCount s = length (packet_keys ki B).
Proof.
  intros [Hrem Hadd Hmod Hst _]. unfold s. rewrite Hst. cbn. rewrite Hrem, Hadd, Hmod. split.
  - apply classified_left, packet_keys_keyed.
  - rewrite (select_common (diff_indices A) A B) by apply changed_Some.
    rewrite (select_common (diff_indices A) A B (same _ _ _ _)) by apply same_Some.
    apply classified_right, packet_keys_keyed.
Qed.
End Compare.

(** ** Lemmas: equality and symmetry *)

Lemma omap_nil_iff {A B} (f : A -> option B) (l : list A) : omap f l = [] <-> forall x, x ∈ l -> f x = None.
Proof.
  induction l as [|x l IH]; simpl; [set_solver|]. destruct (f x) eqn:E.
  - split; [done|]. intros Hf. rewrite (Hf x) in E; [done|]. by constructor.
  - etrans; [exact IH|]. set_solver.
Qed.

Lemma perm_length_0 {A} (l1 l2 : list A) : l1 ≡ₚ l2 -> (length l1 =? 0) = true <-> l2 = [].
Proof. intros ->. rewrite Nat.eqb_eq. apply length_zero_iff_nil. Qed.

Lemma field_index_names (i : nat) (a b : list Field) (name : string) :
  map f_Name a = map f_Name b -> field_index i a name = field_index i b name.
Proof.
  revert i b; induction a as [|x a IH]; intros i [|y b]; simpl; try done.
  intros [= En Et]. rewrite En. by rewrite (IH _ b Et).
Qed.

Lemma GetFieldIndices_names (a b : Schema) (names : list string) :
  map f_Name (s_Fields a) = map f_Name (s_Fields b) -> GetFieldIndices a names = GetFieldIndices b names.
Proof.
  intros Hab. induction names as [|n names IH]; simpl; [done|].
  by rewrite (field_index_names 0 _ (s_Fields b)), IH.
Qed.

Lemma names_of_types (a b : list Field) :
  map (fun f => (f_Name f, f_Type f)) a = map (fun f => (f_Name f, f_Type f)) b ->
  map f_Name a = map f_Name b.
Proof. intros E. apply (f_equal (map fst)) in E. by rewrite !map_map in E. Qed.

Lemma lookup_name (a b : list Field) (i : nat) :
  map f_Name a = map f_Name b -> f_Name <$> a !! i = f_Name <$> b !! i.
Proof. intros E. apply (f_equal (lookup i)) in E. by rewrite !list_lookup_fmap in E. Qed.

Definition swap_change (c : FieldChange) : FieldChange :=
  MkFieldChange (fc_FieldName c) (fc_NewValue c) (fc_OldValue c).
Definition swap_modified (md : ModifiedRow) : ModifiedRow :=
  MkModifiedRow (md_Key md) (md_NewRow md) (md_OldRow md) (swap_change <$> md_Changes md).

Section Swap.
  Context `{GoCase} (d : Differ) (ignore : list nat) (sA sB : Schema).
  Context (Hnames : map f_Name (s_Fields sA) = map f_Name (s_Fields sB)).

Lemma row_changes_swap (a b : list string) :
  row_changes d ignore sB b a = swap_change <$> row_changes d ignore sA a b.
Proof.
  apply map_eq. intros i. rewrite lookup_fmap, !lookup_row_changes. unfold cell_change.
  pose proof (lookup_name _ _ i Hnames) as Hi. destruct (contains ignore i); [done|].
  destruct (a !! i) as [x|], (b !! i) as [y|]; simpl; try done.
  rewrite (String.eqb_sym (fold_cell d y)). destruct (String.eqb _ _); [done|].
  destruct (s_Fields sA !! i), (s_Fields sB !! i); simplify_eq/=; [|done].
  unfold swap_change. simpl. congruence.
Qed.

Lemma row_changes_swap_empty (a b : list string) :
  bool_decide (row_changes d ignore sB b a = ∅) = bool_decide (row_changes d ignore sA a b = ∅).
Proof.
  rewrite row_changes_swap. apply bool_decide_ext. split; [apply fmap_empty_inv|].
  intros ->. apply fmap_empty.
Qed.

Lemma changed_swap tA tB (k : string) :
  changed d sB ignore tB tA k = swap_modified <$> changed d sA ignore tA tB k.
Proof.
  unfold changed. destruct (tA k) as [a|], (tB k) as [b|]; try done. cbn.
  rewrite row_changes_swap_empty. destruct (bool_decide _); [done|]. cbn. unfold swap_modified. cbn.
  by rewrite row_changes_swap.
Qed.

Lemma same_swap_length tA tB (ks : list string) :
  length (omap (same d sB ignore tB tA) ks) = length (omap (same d sA ignore tA tB) ks).
Proof.
  induction ks as [|k ks IH]; [done|]. simpl.
  assert (same d sB ignore tB tA k = None <-> same d sA ignore tA tB k = None) as Hk.
  { unfold same. destruct (tA k) as [a|], (tB k) as [b|]; try done. cbn. rewrite row_changes_swap_empty.
    by destruct (bool_decide _). }
  destruct (same d sB ignore tB tA k), (same d sA ignore tA tB k); simpl;
    [f_equal; exact IH|discriminate (proj2 Hk eq_refl)|discriminate (proj1 Hk eq_refl)|exact IH].
Qed.
End Swap.

Lemma omap_fmap_Some {A B C} (f : A -> option B) (g : B -> C) (l : list A) :
  omap (fun x => g <$> f x) l = map g (omap f l).
Proof. induction l as [|x l IH]; simpl; [done|]. destruct (f x); simpl; [f_equal|]; exact IH. Qed.

(** ** Properties *)

(** C23. The comparison classifies every key once: for packets of one table with the same field names
    and types, a key and no row wider than the schema, it succeeds; the removed rows are those of keys
    only the first packet has, the added rows those of keys only the second has, the modified rows those
    of common keys with a differing cell (together with exactly the cells that differ, [row_changes]),
    all other common keys are unchanged, and the counts add up to the keys of either packet. *)
Theorem diff_correct `{GoCase} `{GoRangeLaws} (d : Differ) (A B : DataPacket) (ki := diff_indices d A) :
  comparable d A B ->
  exists r, Compare d (Some A) (Some B) = Ok r /\ diff_of d A B r
    /\ (forall md i, md ∈ df_Modified r ->
         md_Changes md !! i = cell_change d (ignored d A) (p_Schema A) (md_OldRow md) (md_NewRow md) i)
    /\ ds_RemovedCount (df_Stats r) + ds_ModifiedCount (df_Stats r) + ds_UnchangedCount (df_Stats r)
       = length (packet_keys d ki A)
    /\ ds_AddedCount (df_Stats r) + ds_ModifiedCount (df_Stats r) + ds_UnchangedCount (df_Stats r)
       = length (packet_keys d ki B).
Proof.
  intros Hc. destruct (Compare_ok d A B Hc) as (r & E & Hr). exists r. do 2 (split; [done|]).
  split; [|by apply diff_accounting].
  intros md i. rewrite (dof_modified d A B r Hr). intros (k & _ & Ek)%list_elem_of_omap. unfold changed in Ek.
  destruct (keyed_packet d (diff_indices d A) A k), (keyed_packet d (diff_indices d A) B k); try done.
  simpl in Ek. destruct (bool_decide _); simplify_eq/=. apply lookup_row_changes.
Qed.

(** A table [users(id key, name, note)]. *)
Definition diff_demo (rows : list (list string)) : DataPacket :=
  set_p_Data (RowsToData rows)
    (set_p_Schema (MkSchema [merge_field "id" true; merge_field "name" false; merge_field "note" false] None "" "" "")
      (NewDataPacket "u" 1 TypeReference "users")).
Definition demo_differ (caseSensitive : bool) : Differ := NewDiffer (MkDiffOptions [] ["note"] caseSensitive).

Lemma diff_demo_comparable (cs : bool) (rowsA rowsB : list (list string)) :
  forallb (fun r => negb (length r =? 0) && (length r <=? 3)) rowsA = true ->
  comparable (demo_differ cs) (diff_demo rowsA) (diff_demo rowsB).
Proof.
  intros Hw. split; [done|done|by destruct cs|]. cbn [diff_demo set_p_Data p_Data].
  rewrite ParseRows_RowsToData.
  - apply Forall_forall. intros r Hr. rewrite forallb_forall in Hw. apply list_elem_of_In, Hw in Hr.
    apply andb_true_iff in Hr as [_ Hr%Nat.leb_le]. exact Hr.
  - apply Forall_forall. intros r Hr. rewrite forallb_forall in Hw. apply list_elem_of_In, Hw in Hr. by destruct r.
Qed.

Lemma diff_correct_witness :
  let a := diff_demo [["1"; "Ann"; "x"]; ["2"; "bob"; "y"]; ["3"; "cy"; ""]] in
  let b := diff_demo [["1"; "ANN"; "z"]; ["2"; "bea"; "y"]; ["4"; "dan"; ""]] in
  exists r, @Compare ascii_case _ (demo_differ false) (Some a) (Some b) = Ok r
    /\ ds_RemovedCount (df_Stats r) + ds_ModifiedCount (df_Stats r) + ds_UnchangedCount (df_Stats r) = 3.
Proof.
  cbv zeta. destruct (@diff_correct ascii_case _ _ (demo_differ false)
    (diff_demo [["1"; "Ann"; "x"]; ["2"; "bob"; "y"]; ["3"; "cy"; ""]])
    (diff_demo [["1"; "ANN"; "z"]; ["2"; "bea"; "y"]; ["4"; "dan"; ""]])) as (r & E & _ & _ & Hk & _).
  - by apply diff_demo_comparable.
  - exists r. split; [exact E|]. rewrite Hk. vm_compute. reflexivity.
Defined.

(** [IsEqual] means equal tables: it is true exactly when the two packets have the same keys and,
    for every key, the rows it stands for agree on every cell that both have and that is not ignored, up
    to case unless the comparison is case-sensitive. *)
Theorem diff_equal_iff `{GoCase} `{GoRangeLaws} (d : Differ) (A B : DataPacket) (ki := diff_indices d A) :
  comparable d A B ->
  exists r, Compare d (Some A) (Some B) = Ok r /\
    (IsEqual r = true <-> forall k,
       match keyed_packet d ki A k, keyed_packet d ki B k with
       | Some a, Some b => rows_agree d (ignored d A) a b
       | None, None => True
       | _, _ => False
       end).
Proof.
  intros Hc. destruct (Compare_ok d A B Hc) as (r & E & [Hrem Hadd Hmod Hst _]). exists r. split; [done|].
  unfold IsEqual. rewrite Hst. cbn. rewrite !andb_true_iff.
  rewrite (perm_length_0 _ _ Hrem), (perm_length_0 _ _ Hadd), (perm_length_0 _ _ Hmod), !omap_nil_iff.
  fold ki. setoid_rewrite <- keyed_Some. fold (keyed_packet d ki A) (keyed_packet d ki B).
  assert (forall k a b, keyed_packet d ki A k = Some a ->
    bool_decide (row_changes d (ignored d A) (p_Schema A) a b = ∅) = true <-> rows_agree d (ignored d A) a b) as Hag.
  { intros k a b Ha. rewrite bool_decide_eq_true. apply row_changes_empty.
    destruct Hc as [_ _ _ Hw]. rewrite Forall_forall in Hw. by apply Hw, (keyed_elem d ki _ k). }
  unfold only_left, changed. split.
  - intros [[H1 H2] H3] k. specialize (H1 k). specialize (H2 k). specialize (H3 k).
    destruct (keyed_packet d ki A k) as [a|] eqn:Ea, (keyed_packet d ki B k) as [b|]; simpl in *; try done.
    + apply (Hag k a b Ea). by destruct (bool_decide _); [|specialize (H3 ltac:(done))].
    + by specialize (H2 ltac:(done)).
    + by specialize (H1 ltac:(done)).
  - intros Hall. split; [split|]; intros k Hk; specialize (Hall k);
      destruct (keyed_packet d ki A k) as [a|] eqn:Ea, (keyed_packet d ki B k) as [b|]; simpl in *; try done.
    by rewrite (proj2 (Hag k a b Ea) Hall).
Qed.

Lemma diff_equal_iff_witness :
  let a := diff_demo [["1"; "Ann"; "x"]; ["2"; "bob"; "y"]] in
  let b := diff_demo [["2"; "BOB"; "y"]; ["1"; "ann"; "changed"]] in
  exists r, @Compare ascii_case _ (demo_differ false) (Some a) (Some b) = Ok r /\
    (IsEqual r = true <-> forall k,
       match @keyed_packet ascii_case (demo_differ false) [0] a k, @keyed_packet ascii_case (demo_differ false) [0] b k with
       | Some a, Some b => @rows_agree ascii_case (demo_differ false) [2] a b
       | None, None => True
       | _, _ => False
       end) /\ IsEqual r = true.
Proof.
  cbv zeta. destruct (@diff_equal_iff ascii_case _ _ (demo_differ false)
    (diff_demo [["1"; "Ann"; "x"]; ["2"; "bob"; "y"]])
    (diff_demo [["2"; "BOB"; "y"]; ["1"; "ann"; "changed"]])) as (r & E & Hr).
  - by apply diff_demo_comparable.
  - exists r. split; [exact E|]. split; [exact Hr|]. vm_compute in E. injection E as <-. reflexivity.
Defined.

(** Comparing the other way round swaps the result: rows added become rows removed, a modified row
    has its old and new cells exchanged, and as many rows are unchanged, when both schemas mark the same
    key. *)
Theorem diff_swap `{GoCase} `{GoRangeLaws} (d : Differ) (A B : DataPacket) :
  comparable d A B -> comparable d B A ->
  diff_keyFields d (p_Schema A) = diff_keyFields d (p_Schema B) ->
  exists r r', Compare d (Some A) (Some B) = Ok r /\ Compare d (Some B) (Some A) = Ok r'
    /\ df_Added r' ≡ₚ df_Removed r /\ df_Removed r' ≡ₚ df_Added r
    /\ df_Modified r' ≡ₚ map swap_modified (df_Modified r)
    /\ ds_UnchangedCount (df_Stats r') = ds_UnchangedCount (df_Stats r)
    /\ IsEqual r' = IsEqual r.
Proof.
  intros HAB HBA Hkey. pose proof (names_of_types _ _ (cmp_schema d A B HAB)) as Hn.
  destruct (Compare_ok d A B HAB) as (r & E & [Hrem Hadd Hmod Hst _]).
  destruct (Compare_ok d B A HBA) as (r' & E' & [Hrem' Hadd' Hmod' Hst' _]).
  assert (diff_indices d B = diff_indices d A) as Hi.
  { unfold diff_indices. rewrite <- Hkey. by apply GetFieldIndices_names. }
  assert (ignored d B = ignored d A) as Hg by (by apply GetFieldIndices_names).
  rewrite Hi, Hg in *. exists r, r'. do 2 (split; [done|]).
  assert (df_Modified r' ≡ₚ map swap_modified (df_Modified r)) as Hm.
  { rewrite Hmod', Hmod, <- omap_fmap_Some.
    rewrite (select_common d (diff_indices d A) A B).
    - apply reflexive_eq, Forall_omap_ext, Forall_forall. intros k _. by apply changed_swap.
    - intros k [x Hx]. apply (changed_Some d (p_Schema A) (ignored d A)).
      by destruct (changed d (p_Schema A) (ignored d A) _ _ k). }
  split; [by rewrite Hadd', Hrem|]. split; [by rewrite Hrem', Hadd|]. split; [done|].
  rewrite Hst, Hst'. cbn. split.
  - rewrite (same_swap_length d (ignored d A) (p_Schema A) (p_Schema B) Hn).
    by rewrite (select_common d (diff_indices d A) A B) by apply same_Some.
  - unfold IsEqual. rewrite Hst, Hst'. cbn. rewrite Hm, length_map, Hadd', Hrem', Hadd, Hrem.
    f_equal. apply andb_comm.
Qed.

Lemma diff_swap_witness :
  let a := diff_demo [["1"; "Ann"; "x"]; ["2"; "bob"; "y"]] in
  let b := diff_demo [["1"; "Al"; "x"]; ["3"; "cy"; "y"]] in
  exists r r', @Compare ascii_case _ (demo_differ true) (Some a) (Some b) = Ok r
    /\ @Compare ascii_case _ (demo_differ true) (Some b) (Some a) = Ok r'
    /\ df_Added r' ≡ₚ df_Removed r /\ df_Removed r' ≡ₚ df_Added r
    /\ df_Modified r' ≡ₚ map swap_modified (df_Modified r)
    /\ ds_UnchangedCount (df_Stats r') = ds_UnchangedCount (df_Stats r)
    /\ IsEqual r' = IsEqual r.
Proof.
  cbv zeta. apply (@diff_swap ascii_case _ _ (demo_differ true)
    (diff_demo [["1"; "Ann"; "x"]; ["2"; "bob"; "y"]]) (diff_demo [["1"; "Al"; "x"]; ["3"; "cy"; "y"]]));
    [by apply diff_demo_comparable..|reflexivity].
Defined.

(** ** Lemmas: merging and comparing *)

Lemma rows_of_ext {A} (f g : A -> string) (k : string) (l : list A) :
  (forall x, f x = g x) -> rows_of f k l = rows_of g k l.
Proof. intros Hfg. apply list_filter_iff. intros x. by rewrite Hfg. Qed.

(** A case-sensitive comparison and a merger give a row the same key. *)
Lemma buildKey_case_sensitive `{GoCase} (d : Differ) (ki : list nat) (row : list string) :
  do_CaseSensitive (df_options d) = true -> buildKey d ki row = MergePkg.buildKey ki row.
Proof.
  intros Hcs. unfold buildKey, MergePkg.buildKey, key_cells, fold_cell. rewrite Hcs. f_equal.
  apply Forall_omap_ext, Forall_forall. intros i _. by destruct (row !! i).
Qed.

Lemma remove_dups_NoDup {A} `{EqDecision A} (l : list A) : NoDup l -> remove_dups l ≡ₚ l.
Proof.
  intros Hl. apply NoDup_Permutation; [apply NoDup_remove_dups|done|]. intros x. apply elem_of_remove_dups.
Qed.

Section MergeDiff.
  Context `{GoCase} `{GoRangeLaws} (d : Differ) (m : Merger) (A : DataPacket).
  Context (Hcs : do_CaseSensitive (df_options d) = true)
    (Hkeys : do_KeyFields (df_options d) = mo_KeyFields (mg_options m)).

Lemma merge_diff_key (row : list string) :
  buildKey d (diff_indices d A) row = merge_key m (p_Schema A) row.
Proof.
  rewrite buildKey_case_sensitive by done. unfold merge_key, diff_indices, diff_keyFields, merge_keyFields.
  by rewrite Hkeys.
Qed.

(** What the rows of a left-priority merge stand for. *)
Lemma keyed_merged (rows out : list (list string)) (k : string) :
  out ≡ₚ one_row_per_key (merge_key m (p_Schema A)) (fun _ _ => false) rows ->
  keyed d (diff_indices d A) out k = head (rows_of (merge_key m (p_Schema A)) k rows).
Proof.
  intros Ho. unfold keyed. rewrite (rows_of_ext _ (merge_key m (p_Schema A))) by apply merge_diff_key.
  rewrite (option_list_perm (rows_of _ k out) (winner (fun _ _ => false) (rows_of (merge_key m (p_Schema A)) k rows))).
  - rewrite winner_first. by destruct (head _).
  - by rewrite Ho, rows_of_one_row_per_key.
Qed.

Lemma keyed_first (rows rest : list (list string)) (k : string) (r : list string) :
  NoDup (map (merge_key m (p_Schema A)) rows) -> keyed d (diff_indices d A) rows k = Some r ->
  head (rows_of (merge_key m (p_Schema A)) k (rows ++ rest)) = Some r.
Proof.
  intros Hnd Hr. pose proof (keyed_elem d _ _ _ _ Hr) as Hin. unfold keyed in Hr.
  rewrite (rows_of_ext _ (merge_key m (p_Schema A))) in Hr by apply merge_diff_key.
  rewrite <- winner_last in Hr. apply winner_of_key in Hr as [_ <-].
  unfold rows_of. rewrite filter_app. fold (rows_of (merge_key m (p_Schema A)) (merge_key m (p_Schema A) r) rows).
  by rewrite rows_of_NoDup.
Qed.

(** Rows with distinct keys have as many keys as rows. *)
Lemma packet_keys_length (p : DataPacket) (rows := ParseRows (d_Rows (p_Data p))) :
  NoDup (map (merge_key m (p_Schema A)) rows) ->
  length (packet_keys d (diff_indices d A) p) = length rows.
Proof.
  intros Hnd. unfold packet_keys, distinct_keys.
  rewrite (map_ext _ _ merge_diff_key), remove_dups_NoDup by done. apply length_map.
Qed.
End MergeDiff.

Lemma row_changes_refl `{GoCase} (d : Differ) (ignore : list nat) (schema : Schema) (a : list string) :
  row_changes d ignore schema a a = ∅.
Proof.
  apply map_eq. intros i. rewrite lookup_row_changes, lookup_empty. unfold cell_change.
  destruct (contains ignore i); [done|]. destruct (a !! i); simpl; [|done]. by rewrite String.eqb_refl.
Qed.

(** A left-priority merge only adds: compared with its first packet (whose keys are distinct and
    whose rows fit the schema), case-sensitively and by the same key fields, the merged packet has no row
    removed and none modified; all rows of the first packet are unchanged, and the added rows are
    counted by what the merge put out beyond them. *)
Theorem merge_left_only_adds `{GoCase} `{GoRangeLaws} (uuid : string) (now : Z) (d : Differ) (m : Merger)
    (A B : DataPacket) (rest : list DataPacket) (rowsA := ParseRows (d_Rows (p_Data A))) :
  do_CaseSensitive (df_options d) = true -> do_KeyFields (df_options d) = mo_KeyFields (mg_options m) ->
  mo_Strategy (mg_options m) = StrategyLeftPriority -> mergeable m A (B :: rest) ->
  NoDup (map (merge_key m (p_Schema A)) rowsA) ->
  Forall (fun r => length r <= length (s_Fields (p_Schema A))) rowsA ->
  exists res r,
    Merge uuid now m (A :: B :: rest) = Ok res /\ Compare d (Some A) (Some (mr_Packet res)) = Ok r
    /\ df_Removed r = [] /\ df_Modified r = []
    /\ ds_UnchangedCount (df_Stats r) = length rowsA
    /\ ds_AddedCount (df_Stats r) + length rowsA = mst_TotalRowsOut (mr_Stats res).
Proof.
  intros Hcs Hkf Hs Hm Hnd Hw.
  destruct (Merge_dedup_result uuid now m A B rest) as (res & E & Hraw & Hr & Hsch & Ht & _ & Hout & _);
    [unfold deduplicates; by rewrite Hs|done|].
  assert (comparable d A (mr_Packet res)) as Hc.
  { split; [done|by rewrite Hsch| |done]. destruct Hm as (_ & [Hk|Hk] & _); [|by rewrite Hs in Hk].
    unfold diff_keyFields. by rewrite Hkf. }
  destruct (Compare_ok d A (mr_Packet res) Hc) as (r & Ec & Hd). exists res, r. do 2 (split; [done|]).
  assert (merge_policy m (p_Schema A) = fun _ _ => false) as Hp by (unfold merge_policy; by rewrite Hs).
  rewrite Hp in Hr. set (ki := diff_indices d A) in *.
  assert (forall k a, keyed_packet d ki A k = Some a -> keyed_packet d ki (mr_Packet res) k = Some a) as Hkeep.
  { intros k a Ha. unfold keyed_packet. rewrite (keyed_merged d m A Hcs Hkf _ _ k Hr).
    by apply (keyed_first d m A Hcs Hkf rowsA (input_rows (B :: rest))). }
  pose proof (packet_keys_keyed d ki A) as HkA. rewrite Forall_forall in HkA.
  assert (df_Removed r = []) as Hrem0.
  { apply Permutation_nil_r. rewrite (dof_removed d _ _ _ Hd). apply reflexive_eq, (proj2 (omap_nil_iff _ _)).
    intros k [a Ha]%HkA. unfold only_left. fold ki. by rewrite (Hkeep k a Ha). }
  assert (df_Modified r = []) as Hmod0.
  { apply Permutation_nil_r. rewrite (dof_modified d _ _ _ Hd). apply reflexive_eq, (proj2 (omap_nil_iff _ _)).
    intros k [a Ha]%HkA. unfold changed. fold ki. rewrite Ha, (Hkeep k a Ha). simpl. by rewrite row_changes_refl. }
  destruct (diff_accounting d A (mr_Packet res) r Hd) as [HlA HlR].
  rewrite (packet_keys_length d m A Hcs Hkf) in HlA by done.
  rewrite (packet_keys_length d m A Hcs Hkf) in HlR
    by (rewrite Hr, keys_one_row_per_key; apply NoDup_remove_dups).
  rewrite Hr, one_row_per_key_length, <- Hout in HlR.
  rewrite (dof_stats d _ _ _ Hd), Hrem0, Hmod0 in *. cbn in *. fold rowsA in HlA. do 2 (split; [done|]). lia.
Qed.

Lemma merge_left_only_adds_witness :
  let a := merge_demo [["1"; "ann"]; ["2"; "bob"]] in
  let b := merge_demo [["2"; "bea"]; ["3"; "cy"]] in
  exists res r,
    Merge "n" 2 (demo_merger StrategyLeftPriority) [a; b] = Ok res
    /\ @Compare ascii_case _ (demo_differ true) (Some a) (Some (mr_Packet res)) = Ok r
    /\ df_Removed r = [] /\ df_Modified r = []
    /\ ds_UnchangedCount (df_Stats r) = 2
    /\ ds_AddedCount (df_Stats r) + 2 = mst_TotalRowsOut (mr_Stats res).
Proof.
  cbv zeta. apply (@merge_left_only_adds ascii_case _ _ "n" 2 (demo_differ true) (demo_merger StrategyLeftPriority)
    (merge_demo [["1"; "ann"]; ["2"; "bob"]]) (merge_demo [["2"; "bea"]; ["3"; "cy"]]) []); try reflexivity.
  - by apply (demo_mergeable StrategyLeftPriority _ [_]).
  - vm_compute. repeat constructor; set_solver.
  - vm_compute. repeat constructor.
Defined.

(** ** Rows wider than the schema *)

Lemma compare_from_panics `{GoCase} (d : Differ) (ignore : list nat) (schema : Schema) (a b : list string)
    (i j : nat) (x y : string) (modified : bool) (changes : gmap nat FieldChange) :
  a !! j = Some x -> b !! j = Some y -> fold_cell d x <> fold_cell d y ->
  contains ignore (i + j) = false -> length (s_Fields schema) <= i + j ->
  exists n, compare_from d ignore schema i a b modified changes = Err (DiffPanic n).
Proof.
  revert b i j modified changes; induction a as [|u a IH]; intros [|v b] i j modified changes; try done.
  intros Hx Hy Hne Hig Hl. simpl. destruct j as [|j]; simpl in Hx, Hy.
  - rewrite Nat.add_0_r in Hig, Hl. simplify_eq. rewrite Hig, (proj2 (String.eqb_neq _ _) Hne). simpl.
    rewrite lookup_ge_None_2 by done. by exists i.
  - rewrite Nat.add_succ_r in Hig, Hl.
    destruct (contains ignore i); [by apply (IH b (S i) j)|].
    destruct (String.eqb (fold_cell d u) (fold_cell d v)); simpl; [by apply (IH b (S i) j)|].
    destruct (s_Fields schema !! i); [by apply (IH b (S i) j)|by exists i].
Qed.

Lemma compare_from_error `{GoCase} (d : Differ) (ignore : list nat) (schema : Schema) (a b : list string)
    (i : nat) (modified : bool) (changes : gmap nat FieldChange) (e : DiffError) :
  compare_from d ignore schema i a b modified changes = Err e -> exists n, e = DiffPanic n.
Proof.
  revert b i modified changes; induction a as [|u a IH]; intros [|v b] i modified changes; simpl; try done.
  destruct (contains ignore i); [by apply IH|].
  destruct (String.eqb _ _); simpl; [by apply IH|].
  destruct (s_Fields schema !! i); [by apply IH|]. intros [= <-]. by exists i.
Qed.

Lemma compare_old_panics `{GoCase} (d : Differ) (t : gmap string (list string)) (ignore : list nat)
    (schema : Schema) (entries : list (string * list string)) (r : DiffResult) (k : string) (a b : list string) (n : nat) :
  (k, a) ∈ entries -> t !! k = Some b -> compareRows d a b ignore schema = Err (DiffPanic n) ->
  exists n', compare_old d t ignore schema entries r = Err (DiffPanic n').
Proof.
  intros Hin Ht Hp. revert r; induction entries as [|[k' a'] entries IH]; intros r; [by apply not_elem_of_nil in Hin|].
  simpl. apply elem_of_cons in Hin as [Heq|Hin]; [injection Heq as -> ->; rewrite Ht, Hp; by exists n|].
  destruct (t !! k') as [b'|]; [|by apply IH].
  destruct (compareRows d a' b' ignore schema) as [[]|e] eqn:E; simpl; [by apply IH|].
  apply compare_from_error in E as [n' ->]. by exists n'.
Qed.

(** Comparing rows wider than the schema panics: when a key stands for rows that differ in a cell
    beyond the fields of the schema, [Compare] indexes the schema out of range instead of reporting an
    error, on packets the parser accepts. *)
Theorem wide_rows_panic `{GoCase} `{GoRangeLaws} (d : Differ) (A B : DataPacket) (k : string)
    (a b : list string) (i : nat) (x y : string) (ki := diff_indices d A) :
  h_TableName (p_Header A) = h_TableName (p_Header B) ->
  map (fun f => (f_Name f, f_Type f)) (s_Fields (p_Schema A))
  = map (fun f => (f_Name f, f_Type f)) (s_Fields (p_Schema B)) ->
  diff_keyFields d (p_Schema A) <> [] ->
  keyed_packet d ki A k = Some a -> keyed_packet d ki B k = Some b ->
  a !! i = Some x -> b !! i = Some y -> fold_cell d x <> fold_cell d y ->
  length (s_Fields (p_Schema A)) <= i ->
  exists n, Compare d (Some A) (Some B) = Err (DiffPanic n).
Proof.
  intros Ht Hs Hk Ha Hb Hx Hy Hne Hi. unfold Compare. rewrite (proj2 (String.eqb_eq _ _) Ht).
  rewrite (proj2 (diff_validateSchemas_ok _ _) Hs). simpl. unfold check_.
  destruct (Nat.eqb_spec (length (diff_keyFields d (p_Schema A))) 0) as [E|_].
  { by apply nil_length_inv in E. }
  assert (contains (ignored d A) i = false) as Hig.
  { apply not_true_iff_false. unfold contains. rewrite existsb_exists. intros (j & Hj & ->%Nat.eqb_eq).
    pose proof (GetFieldIndices_bounded (p_Schema A) (do_IgnoreFields (df_options d))) as Hbd.
    rewrite Forall_forall in Hbd. apply list_elem_of_In, Hbd in Hj. lia. }
  destruct (compare_from_panics d (ignored d A) (p_Schema A) a b 0 i x y false ∅ Hx Hy Hne Hig Hi) as [n Hn].
  destruct (compare_old_panics d (buildRowMap d (ParseRows (d_Rows (p_Data B))) ki) (ignored d A) (p_Schema A)
    (range_entries (buildRowMap d (ParseRows (d_Rows (p_Data A))) ki))
    (MkDiffResult [] [] [] (MkDiffStats (length (ParseRows (d_Rows (p_Data A))))
       (length (ParseRows (d_Rows (p_Data B)))) 0 0 0 0) (p_Schema A)) k a b n) as [n' Hn'].
  - rewrite range_permutation, elem_of_map_to_list, lookup_buildRowMap. exact Ha.
  - rewrite lookup_buildRowMap. exact Hb.
  - exact Hn.
  - exists n'. unfold ki, diff_indices, ignored in Hn'. by rewrite Hn'.
Qed.

Lemma wide_rows_panic_witness :
  exists n, @Compare ascii_case _ (demo_differ true) (Some (diff_demo [["1"; "a"; "b"; "c"]]))
              (Some (diff_demo [["1"; "a"; "b"; "d"]])) = Err (DiffPanic n).
Proof.
  apply (@wide_rows_panic ascii_case _ _ (demo_differ true) (diff_demo [["1"; "a"; "b"; "c"]])
    (diff_demo [["1"; "a"; "b"; "d"]]) "1" ["1"; "a"; "b"; "c"] ["1"; "a"; "b"; "d"] 3 "c" "d");
    try reflexivity; done.
Defined.
