(* ===== verification/Retry.v ===== *)
(** * Retrying and the dead letter queue

    The package [src/pkg/retry]: config.go, retry.go and dlq.go, and the way tdtpcli puts a retryer around
    a circuit breaker ([ExecuteWithResilience] of [src/cmd/tdtpcli/production.go]).

    The function retried is a transition of a world that returns an error text or none, so that what it
    does can depend on earlier calls.  What the loop meets besides it (cancellation of the context, clock
    readings, random numbers) is a record of sequences, indexed by the attempt.  A [float64] is a
    [spec_float] of 53 bits.  The queue's file is part of its state; JSON is an interface. *)

From Stdlib Require Import ZArith Lia Ascii String Floats.SpecFloat.
From stdpp Require Import base list gmap strings pretty.
From S2P Require Import Prelude Strconv CircuitBreaker.

Open Scope Z_scope.

(** ** float64 *)

Definition f64 := spec_float.
Definition f64_of_int (z : Z) : f64 := binary_normalize 53 1024 z 0 false.
Definition f64_mul (x y : f64) : f64 := SFmul 53 1024 x y.
Definition f64_sub (x y : f64) : f64 := SFsub 53 1024 x y.
Definition f64_zero : f64 := S754_zero false.
Definition f64_one : f64 := f64_of_int 1.
Definition f64_two : f64 := f64_of_int 2.

(** The conversion [int64(x)]: truncation, and [out_of_range] (which the language leaves to the
    implementation) for a value no [int64] can hold. *)
Definition int64_of_f64 (out_of_range : Z) (x : f64) : Z :=
  match x with
  | S754_zero _ => 0
  | S754_finite s m e =>
      let v := if 0 <=? e then Z.pos m * 2 ^ e else Z.pos m / 2 ^ (- e) in
      let v := if s then - v else v in
      if int64b v then v else out_of_range
  | _ => out_of_range
  end.

(** ** config.go *)

Definition BackoffStrategy := string.
Definition BackoffConstant : BackoffStrategy := "constant".
Definition BackoffLinear : BackoffStrategy := "linear".
Definition BackoffExponential : BackoffStrategy := "exponential".

Record DLQConfig := MkDLQConfig {
  dc_Enabled : bool;
  dc_FilePath : string;
  dc_BrokerDLQ : string;
  dc_MaxSize : Z;
  dc_RetentionPeriod : Z;
}.

(** [rc_OnRetry] says whether the callback is set. *)
Record Config := MkConfig {
  rc_Enabled : bool;
  rc_MaxAttempts : Z;
  rc_InitialDelay : Z;
  rc_MaxDelay : Z;
  rc_BackoffStrategy : BackoffStrategy;
  rc_BackoffMultiplier : f64;
  rc_Jitter : f64;
  rc_RetryableErrors : list string;
  rc_OnRetry : bool;
  rc_DLQ : DLQConfig;
}.

Inductive RetryConfigError :=
| MaxAttemptsNegative (n : Z)
| InitialDelayNegative
| MaxDelayBelowInitial (max initial : Z)
| InvalidBackoff (s : string)
| InvalidJitter.

Definition with_multiplier (c : Config) (x : f64) : Config :=
  MkConfig (rc_Enabled c) (rc_MaxAttempts c) (rc_InitialDelay c) (rc_MaxDelay c) (rc_BackoffStrategy c) x
    (rc_Jitter c) (rc_RetryableErrors c) (rc_OnRetry c) (rc_DLQ c).

(** [Validate] returns the configuration with its default filled in. *)
Definition Validate (c : Config) : result RetryConfigError Config :=
  if negb (rc_Enabled c) then Ok c
  else
    fail_if rc_MaxAttempts c <? 0 with MaxAttemptsNegative (rc_MaxAttempts c) ;;
    fail_if rc_InitialDelay c <? 0 with InitialDelayNegative ;;
    fail_if rc_MaxDelay c <? rc_InitialDelay c
      with MaxDelayBelowInitial (rc_MaxDelay c) (rc_InitialDelay c) ;;
    fail_if negb (String.eqb (rc_BackoffStrategy c) BackoffConstant)
            && negb (String.eqb (rc_BackoffStrategy c) BackoffLinear)
            && negb (String.eqb (rc_BackoffStrategy c) BackoffExponential)
      with InvalidBackoff (rc_BackoffStrategy c) ;;
    let c := if SFleb (rc_BackoffMultiplier c) f64_zero then with_multiplier c f64_two else c in
    fail_if SFltb (rc_Jitter c) f64_zero || SFltb f64_one (rc_Jitter c) with InvalidJitter ;;
    Ok c.

(** 0.1, rounded to 53 bits. *)
Definition tenth : f64 := S754_finite false 7205759403792794 (-56).

Definition DefaultConfig : Config :=
  MkConfig false 3 (1 * second) (30 * second) BackoffExponential f64_two tenth [] false
    (MkDLQConfig false "./dlq.json" "" 10000 (7 * 24 * 3600 * second)).

Definition EnableRetry (maxAttempts initialDelay : Z) : Config :=
  let c := DefaultConfig in
  MkConfig true maxAttempts initialDelay (rc_MaxDelay c) (rc_BackoffStrategy c) (rc_BackoffMultiplier c)
    (rc_Jitter c) (rc_RetryableErrors c) (rc_OnRetry c) (rc_DLQ c).

Definition EnableRetryWithDLQ (maxAttempts initialDelay : Z) (dlqPath : string) : Config :=
  let c := EnableRetry maxAttempts initialDelay in
  let q := rc_DLQ c in
  MkConfig (rc_Enabled c) (rc_MaxAttempts c) (rc_InitialDelay c) (rc_MaxDelay c) (rc_BackoffStrategy c)
    (rc_BackoffMultiplier c) (rc_Jitter c) (rc_RetryableErrors c) (rc_OnRetry c)
    (MkDLQConfig true dlqPath (dc_BrokerDLQ q) (dc_MaxSize q) (dc_RetentionPeriod q)).

(** ** retry.go: delays *)

Section Delay.
(** [math.Pow], and what a conversion out of range gives. *)
  Context (Pow : f64 -> f64 -> f64) (out_of_range : Z).

Definition backoff_delay (c : Config) (attempt : Z) : Z :=
  if String.eqb (rc_BackoffStrategy c) BackoffConstant then rc_InitialDelay c
  else if String.eqb (rc_BackoffStrategy c) BackoffLinear then wrap64 (rc_InitialDelay c * attempt)
  else if String.eqb (rc_BackoffStrategy c) BackoffExponential then
    let multiplier := Pow (rc_BackoffMultiplier c) (f64_of_int (attempt - 1)) in
    int64_of_f64 out_of_range (f64_mul (f64_of_int (rc_InitialDelay c)) multiplier)
  else rc_InitialDelay c.

(** [rnd] is the value of [rand.Float64()]. *)
Definition calculateDelay (c : Config) (rnd : f64) (attempt : Z) : Z :=
  let delay := backoff_delay c attempt in
  let delay := if rc_MaxDelay c <? delay then rc_MaxDelay c else delay in
  if SFltb f64_zero (rc_Jitter c) then
    let jitter := int64_of_f64 out_of_range
      (f64_mul (f64_mul (f64_of_int delay) (rc_Jitter c)) (f64_sub (f64_mul rnd f64_two) f64_one)) in
    let delay := wrap64 (delay + jitter) in
    if delay <? 0 then rc_InitialDelay c else delay
  else delay.
End Delay.

Definition isRetryableError (c : Config) (err : option string) : bool :=
  match err with
  | None => false
  | Some errStr =>
      if (length (rc_RetryableErrors c) =? 0)%nat then true
      else existsb (Contains errStr) (rc_RetryableErrors c)
  end.

(** ** dlq.go *)

(** [D] is the type of the data kept with an entry ([any] in the source, absent when nil). *)
Record DLQEntry (D : Type) := MkDLQEntry {
  dl_ID : string;
  dl_Timestamp : Z;
  dl_Attempts : Z;
  dl_LastError : string;
  dl_FailureType : string;
  dl_Data : option D;
}.
Arguments MkDLQEntry {D}.
Arguments dl_ID {D}.
Arguments dl_Timestamp {D}.
Arguments dl_Attempts {D}.
Arguments dl_LastError {D}.
Arguments dl_FailureType {D}.
Arguments dl_Data {D}.

Record DLQ (D : Type) := MkDLQ {
  dq_config : DLQConfig;
  dq_entries : list (DLQEntry D);
  dq_counter : Z;
}.
Arguments MkDLQ {D}.
Arguments dq_config {D}.
Arguments dq_entries {D}.
Arguments dq_counter {D}.

(** encoding/json on the list of entries.  Data may not be encodable; encoded, it comes back as [reload] of what it was: nothing when it was
    written as null, a map when it was a struct, and the value itself when it is one that decoding into an [any] produces ([json_native]: a
    boolean, a number, a text of valid UTF-8, arrays and maps of these).  Texts come back as valid UTF-8, a byte that is not being replaced. *)
Class DlqJson (D : Type) := {
  dlq_marshal : list (DLQEntry D) -> option string;
  dlq_unmarshal : string -> option (list (DLQEntry D));
  reload : D -> option D;
  json_native : D -> bool;
}.
Definition reload_entry `{DlqJson D} (e : DLQEntry D) : DLQEntry D :=
  MkDLQEntry (ToValidUTF8 (dl_ID e)) (dl_Timestamp e) (dl_Attempts e) (ToValidUTF8 (dl_LastError e)) (ToValidUTF8 (dl_FailureType e))
    (dl_Data e ≫= reload).
Class DlqJsonLaws {D : Type} (J : DlqJson D) : Prop := {
  dlq_json_roundtrip es s : dlq_marshal es = Some s -> dlq_unmarshal s = Some (map reload_entry es);
  reload_native d : json_native d = true -> reload d = Some d;
}.

(** What [os.WriteFile] does: it writes, or fails and leaves some content behind. *)
Inductive WriteOutcome := Written | WriteFailed (partial : option string).

Inductive DlqError := MarshalFailed | WriteFileFailed | ReadFailed | UnmarshalFailed.

Section Dlq.
  Context {D : Type} `{DlqJson D}.
  Implicit Types (q : DLQ D) (e : DLQEntry D) (file : option string) (w : WriteOutcome).

(** The new content of the file, and the error. *)
Definition saveUnsafe w q file : option string * result DlqError () :=
  match dlq_marshal (dq_entries q) with
  | None => (file, Err MarshalFailed)
  | Some data =>
      match w with
      | Written => (Some data, Ok ())
      | WriteFailed partial => (partial, Err WriteFileFailed)
      end
  end.

Definition with_entries q (es : list (DLQEntry D)) : DLQ D := MkDLQ (dq_config q) es (dq_counter q).

(** [now] is the reading of [time.Now()] for the identifier. *)
Definition entry_id (now counter : Z) : string :=
  "dlq-" +:+ Itoa (now / second) +:+ "-" +:+ Itoa counter.
Definition with_id (id : string) e : DLQEntry D :=
  MkDLQEntry id (dl_Timestamp e) (dl_Attempts e) (dl_LastError e) (dl_FailureType e) (dl_Data e).

Definition dlq_Add (now : Z) w e q file : DLQ D * option string :=
  let counter := dq_counter q + 1 in
  let entries := dq_entries q ++ [with_id (entry_id now counter) e] in
  let len := Z.of_nat (length entries) in
  let max := dc_MaxSize (dq_config q) in
  let entries :=
    if (0 <? max) && (max <? len) then drop (Z.to_nat (len - max)) entries else entries in
  let q := MkDLQ (dq_config q) entries counter in
  (q, fst (saveUnsafe w q file)).

Definition dlq_Get q : list (DLQEntry D) := dq_entries q.

Fixpoint find_id (id : string) (es : list (DLQEntry D)) : option (DLQEntry D) :=
  match es with
  | [] => None
  | e :: rest => if String.eqb (dl_ID e) id then Some e else find_id id rest
  end.
Definition dlq_GetByID (id : string) q : option (DLQEntry D) := find_id id (dq_entries q).

(** The entries without the first one of that identifier; [None] when there is none. *)
Fixpoint remove_id (id : string) (es : list (DLQEntry D)) : option (list (DLQEntry D)) :=
  match es with
  | [] => None
  | e :: rest => if String.eqb (dl_ID e) id then Some rest else cons e <$> remove_id id rest
  end.
Definition dlq_Remove (id : string) w q file : DLQ D * option string * bool :=
  match remove_id id (dq_entries q) with
  | Some es => let q := with_entries q es in (q, fst (saveUnsafe w q file), true)
  | None => (q, file, false)
  end.

Definition dlq_Clear w q file : DLQ D * option string * result DlqError () :=
  let q := with_entries q [] in
  let '(file, err) := saveUnsafe w q file in (q, file, err).

Definition dlq_CleanupOld (now : Z) w q file : DLQ D * option string * nat :=
  if dc_RetentionPeriod (dq_config q) =? 0 then (q, file, 0%nat)
  else
    let cutoffTime := now - dc_RetentionPeriod (dq_config q) in
    let newEntries := List.filter (fun e => cutoffTime <? dl_Timestamp e) (dq_entries q) in
    let removed := (length (dq_entries q) - length newEntries)%nat in
    if (0 <? removed)%nat
    then let q := with_entries q newEntries in (q, fst (saveUnsafe w q file), removed)
    else (q, file, 0%nat).

Definition dlq_Size q : nat := length (dq_entries q).

Definition dlq_Save w q file : option string * result DlqError () := saveUnsafe w q file.

(** [readable]: the file can be read. *)
Definition dlq_Load (readable : bool) q file : result DlqError (DLQ D) :=
  match file with
  | Some data =>
      fail_if negb readable with ReadFailed ;;
      match dlq_unmarshal data with
      | Some es => Ok (with_entries q es)
      | None => Err UnmarshalFailed
      end
  | None => Err ReadFailed
  end.

Definition NewDLQ (readable : bool) (config : DLQConfig) file : result DlqError (DLQ D) :=
  let dlq := MkDLQ config [] 0 in
  match file with
  | Some _ => dlq_Load readable dlq file
  | None => Ok dlq
  end.

Record DLQStats := MkDLQStats {
  dst_TotalEntries : nat;
  dst_OldestEntry : option Z;
  dst_NewestEntry : option Z;
  dst_FailureTypes : gmap string nat;
}.
Definition dlq_GetStats q : DLQStats :=
  let es := dq_entries q in
  match es with
  | [] => MkDLQStats 0 None None ∅
  | first :: _ =>
      MkDLQStats (length es) (Some (dl_Timestamp first)) (dl_Timestamp <$> last es)
        (foldl (fun m e => <[dl_FailureType e := S (default 0%nat (m !! dl_FailureType e))]> m) ∅ es)
  end.
End Dlq.

(** ** retry.go: the loop *)

Record Retryer (D : Type) := MkRetryer { rt_config : Config; rt_dlq : option (DLQ D) }.
Arguments MkRetryer {D}.
Arguments rt_config {D}.
Arguments rt_dlq {D}.

Inductive NewRetryerError := BadConfig (e : RetryConfigError) | BadDLQ (e : DlqError).

Definition NewRetryer `{DlqJson D} (readable : bool) (config : Config) (file : option string)
    : result NewRetryerError (Retryer D) :=
  match Validate config with
  | Err e => Err (BadConfig e)
  | Ok config =>
      if dc_Enabled (rc_DLQ config) then
        match NewDLQ readable (rc_DLQ config) file with
        | Err e => Err (BadDLQ e)
        | Ok dlq => Ok (MkRetryer config (Some dlq))
        end
      else Ok (MkRetryer config None)
  end.

Inductive RetryError :=
| NonRetryable (err : string)
| MaxAttemptsExceeded (max : Z) (err : string)
| ContextCanceled
| ContextCanceledDuringRetry
| Direct (err : string).

(** What the loop meets at each attempt: whether the context is done after the call, and whether it ends
    while the loop waits; the random number; the clock for the entry and for its identifier; and the
    writing of the queue's file. *)
Record RetryEnv := MkRetryEnv {
  re_ctx_done : nat -> bool;
  re_ctx_done_waiting : nat -> bool;
  re_rnd : nat -> f64;
  re_now : nat -> Z;
  re_id_now : nat -> Z;
  re_write : nat -> WriteOutcome;
}.

(** The queue (if there is one) and its file. *)
Record Letters (D : Type) := MkLetters { lt_dlq : option (DLQ D); lt_file : option string }.
Arguments MkLetters {D}.
Arguments lt_dlq {D}.
Arguments lt_file {D}.

(** A finished run: the world it leaves, the queue, the calls of [OnRetry] and the error. *)
Record RetryRun (W D : Type) := MkRetryRun {
  rr_world : W;
  rr_letters : Letters D;
  rr_attempts : nat;
  rr_callbacks : list (nat * string * Z);
  rr_error : option RetryError;
}.
Arguments MkRetryRun {W D}.
Arguments rr_world {W D}.
Arguments rr_letters {W D}.
Arguments rr_attempts {W D}.
Arguments rr_callbacks {W D}.
Arguments rr_error {W D}.

Section Loop.
  Context {W D : Type} `{DlqJson D} (Pow : f64 -> f64 -> f64) (out_of_range : Z).
  Context (c : Config) (fn : W -> W * option string) (data : option D) (addToDLQ : bool) (env : RetryEnv).

(** [if r.dlq != nil && addToDLQ { r.dlq.Add(...) }]. *)
Definition add_letter (attempts : nat) (err : string) (l : Letters D) : Letters D :=
  match lt_dlq l with
  | Some q =>
      if addToDLQ then
        let '(q, file) := dlq_Add (re_id_now env attempts) (re_write env attempts)
          (MkDLQEntry "" (re_now env attempts) (Z.of_nat attempts) err "max_attempts_exceeded" data)
          q (lt_file l) in
        MkLetters (Some q) file
      else l
  | None => l
  end.

(** The rounds of the loop; [attempts] calls have been made.  [None]: the fuel is used up. *)
Fixpoint retry_loop (fuel attempts : nat) (world : W) (l : Letters D) (log : list (nat * string * Z))
    : option (RetryRun W D) :=
  match fuel with
  | O => None
  | S fuel =>
      let attempts := S attempts in
      let '(world, err) := fn world in
      match err with
      | None => Some (MkRetryRun world l attempts log None)
      | Some e =>
          if negb (isRetryableError c (Some e))
          then Some (MkRetryRun world l attempts log (Some (NonRetryable e)))
          else if (0 <? rc_MaxAttempts c) && (rc_MaxAttempts c <=? Z.of_nat attempts)
          then Some (MkRetryRun world (add_letter attempts e l) attempts log
                       (Some (MaxAttemptsExceeded (rc_MaxAttempts c) e)))
          else if re_ctx_done env attempts
          then Some (MkRetryRun world l attempts log (Some ContextCanceled))
          else
            let delay := calculateDelay Pow out_of_range c (re_rnd env attempts) (Z.of_nat attempts) in
            let log := if rc_OnRetry c then log ++ [(attempts, e, delay)] else log in
            if re_ctx_done_waiting env attempts
            then Some (MkRetryRun world l attempts log (Some ContextCanceledDuringRetry))
            else retry_loop fuel attempts world l log
      end
  end.

Definition doInternal (fuel : nat) (world : W) (l : Letters D) : option (RetryRun W D) :=
  if negb (rc_Enabled c) then
    let '(world, err) := fn world in Some (MkRetryRun world l 1 [] (Direct <$> err))
  else retry_loop fuel 0 world l [].
End Loop.

(** [Do] and [DoWithData]. *)
Definition retry_Do {W D} `{DlqJson D} (Pow : f64 -> f64 -> f64) (out_of_range : Z) (c : Config)
    (fn : W -> W * option string) (env : RetryEnv) (fuel : nat) (world : W) (l : Letters D)
    : option (RetryRun W D) :=
  doInternal Pow out_of_range c fn None true env fuel world l.
Definition DoWithData {W D} `{DlqJson D} (Pow : f64 -> f64 -> f64) (out_of_range : Z) (c : Config)
    (fn : W -> W * option string) (data : D) (env : RetryEnv) (fuel : nat) (world : W) (l : Letters D)
    : option (RetryRun W D) :=
  doInternal Pow out_of_range c fn (Some data) true env fuel world l.

(** [Close] saves the queue. *)
Definition retry_Close {D} `{DlqJson D} (w : WriteOutcome) (l : Letters D) : Letters D * result DlqError () :=
  match lt_dlq l with
  | Some q => let '(file, err) := dlq_Save w q (lt_file l) in (MkLetters (Some q) file, err)
  | None => (l, Ok ())
  end.

(** ** Lemmas: the loop *)

Section LoopLemmas.
  Context {W D : Type} `{DlqJson D} (Pow : f64 -> f64 -> f64) (out_of_range : Z).
  Context (c : Config) (fn : W -> W * option string) (data : option D) (addToDLQ : bool) (env : RetryEnv).

(** The world after [n] calls, and the error of call number [n]. *)
Fixpoint after_calls (n : nat) (world : W) : W :=
  match n with O => world | S n => fst (fn (after_calls n world)) end.
Definition call_error (n : nat) (world : W) : option string := snd (fn (after_calls (pred n) world)).

(** What attempt [n] decides: to stop with a result, or to try again ([None]). *)
Definition decision (n : nat) (world : W) : option (option RetryError) :=
  match call_error n world with
  | None => Some None
  | Some e =>
      if negb (isRetryableError c (Some e)) then Some (Some (NonRetryable e))
      else if (0 <? rc_MaxAttempts c) && (rc_MaxAttempts c <=? Z.of_nat n)
      then Some (Some (MaxAttemptsExceeded (rc_MaxAttempts c) e))
      else if re_ctx_done env n then Some (Some ContextCanceled)
      else if re_ctx_done_waiting env n then Some (Some ContextCanceledDuringRetry)
      else None
  end.

(** The queue after a run that ended with this result at attempt [n]. *)
Definition letters_after (n : nat) (err : option RetryError) (l : Letters D) : Letters D :=
  match err with
  | Some (MaxAttemptsExceeded _ e) => add_letter data addToDLQ env n e l
  | _ => l
  end.

Lemma after_calls_S (n : nat) (world : W) : after_calls (S n) world = after_calls n (fst (fn world)).
Proof. induction n as [|n IH]; [done|]. change (fst (fn (after_calls (S n) world)) = after_calls (S n) (fst (fn world))). by rewrite IH. Qed.

(** One round, seen from the start of the run. *)
Lemma retry_loop_step (fuel n : nat) (world : W) (l : Letters D) log :
  exists log',
  retry_loop Pow out_of_range c fn data addToDLQ env (S fuel) n (after_calls n world) l log
  = match decision (S n) world with
    | Some err => Some (MkRetryRun (after_calls (S n) world) (letters_after (S n) err l) (S n) log' err)
    | None => retry_loop Pow out_of_range c fn data addToDLQ env fuel (S n) (after_calls (S n) world) l log'
    end.
Proof.
  unfold decision, call_error. cbn [retry_loop pred after_calls].
  destruct (fn (after_calls n world)) as [world' [e|]]; cbn [fst snd]; [|by eexists].
  destruct (negb _); [by eexists|]. destruct (_ && _); [by eexists|].
  destruct (re_ctx_done env (S n)); [by eexists|].
  destruct (re_ctx_done_waiting env (S n)); by eexists.
Qed.

Lemma retry_loop_stops (k n fuel : nat) (world : W) (l : Letters D) log err :
  (forall m, (n < m < n + S k)%nat -> decision m world = None) ->
  decision (n + S k)%nat world = Some err -> (k < fuel)%nat ->
  exists log', retry_loop Pow out_of_range c fn data addToDLQ env fuel n (after_calls n world) l log
  = Some (MkRetryRun (after_calls (n + S k) world) (letters_after (n + S k) err l) (n + S k) log' err).
Proof.
  revert n fuel log; induction k as [|k IH]; intros n fuel log Hn Hs Hf; (destruct fuel as [|fuel]; [lia|]);
    destruct (retry_loop_step fuel n world l log) as [log' ->].
  - rewrite Nat.add_1_r in *. rewrite Hs. by eexists.
  - rewrite (Hn (S n)) by lia. rewrite <- Nat.add_succ_comm in *.
    apply IH; [|done|lia]. intros m Hm. apply Hn. lia.
Qed.

Lemma retry_loop_runs_on (fuel n : nat) (world : W) (l : Letters D) log :
  (forall m, (n < m)%nat -> decision m world = None) ->
  retry_loop Pow out_of_range c fn data addToDLQ env fuel n (after_calls n world) l log = None.
Proof.
  revert n log; induction fuel as [|fuel IH]; intros n log Hn; [done|].
  destruct (retry_loop_step fuel n world l log) as [log' ->]. rewrite (Hn (S n)) by lia.
  apply IH. intros m Hm. apply Hn. lia.
Qed.

(** Among the first [k] attempts either none decides to stop, or there is a first that does. *)
Lemma first_decision (k : nat) (world : W) :
  (forall m, (0 < m <= k)%nat -> decision m world = None)
  \/ exists n err, (0 < n <= k)%nat /\ decision n world = Some err
       /\ (forall m, (0 < m < n)%nat -> decision m world = None).
Proof.
  induction k as [|k [IH|(n & err & Hn & Hd & Hm)]]; [left; lia| |right; exists n, err; split; [lia|done]].
  destruct (decision (S k) world) as [err|] eqn:E.
  - right. exists (S k), err. split; [lia|]. split; [done|]. intros m Hm. apply IH. lia.
  - left. intros m Hm. destruct (decide (m = S k)) as [->|]; [done|]. apply IH. lia.
Qed.

(** With a limit, the attempt that reaches it decides. *)
Lemma decision_at_limit (world : W) :
  0 < rc_MaxAttempts c -> decision (Z.to_nat (rc_MaxAttempts c)) world <> None.
Proof.
  intros Hm. unfold decision. destruct (call_error _ world); [|done]. destruct (negb _); [done|].
  rewrite (proj2 (Z.ltb_lt _ _) Hm), Z2Nat.id by lia. by rewrite Z.leb_refl.
Qed.
End LoopLemmas.

(** ** Properties: retrying *)

(** An enabled retryer makes exactly the calls its configuration asks for: it stops at the first
    attempt that succeeds, fails with an error that is not retryable, reaches the limit, or finds the
    context done; it has then called the function that many times, reports that decision, and leaves a
    dead letter exactly when the attempts were exhausted.  With a limit there is such an attempt, within
    the limit; where no attempt decides to stop, the loop never ends. *)
Theorem retry_runs_until_decided {W D} `{DlqJson D} (Pow : f64 -> f64 -> f64) (oor : Z) (c : Config)
    (fn : W -> W * option string) (data : option D) (addToDLQ : bool) (env : RetryEnv) (world : W)
    (l : Letters D) (decide_at := fun n => decision c fn env n world) :
  rc_Enabled c = true ->
  (forall n err, decide_at n = Some err -> (0 < n)%nat -> (forall m, (0 < m < n)%nat -> decide_at m = None) ->
     forall fuel, (n <= fuel)%nat ->
     exists log, doInternal Pow oor c fn data addToDLQ env fuel world l
       = Some (MkRetryRun (after_calls fn n world) (letters_after data addToDLQ env n err l) n log err))
  /\ (0 < rc_MaxAttempts c -> exists n err, (0 < n <= Z.to_nat (rc_MaxAttempts c))%nat
       /\ decide_at n = Some err /\ forall m, (0 < m < n)%nat -> decide_at m = None)
  /\ ((forall n, (0 < n)%nat -> decide_at n = None) ->
       forall fuel, doInternal Pow oor c fn data addToDLQ env fuel world l = None).
Proof.
  intros Hen. unfold doInternal. rewrite Hen. cbn [negb]. split; [|split].
  - intros [|n] err Hd Hn Hm fuel Hf; [lia|].
    apply (retry_loop_stops Pow oor c fn data addToDLQ env n 0 fuel world l [] err); [|done|lia].
    intros m Hmn. apply Hm. lia.
  - intros Hmax. destruct (first_decision c fn env (Z.to_nat (rc_MaxAttempts c)) world) as [Hno|Hyes]; [|done].
    exfalso. apply (decision_at_limit c fn env world Hmax). apply Hno. lia.
  - intros Hno fuel. apply (retry_loop_runs_on Pow oor c fn data addToDLQ env fuel 0 world). exact Hno.
Qed.

(** A queue of texts, and functions that fail a number of times. *)
Definition demo_json : DlqJson string := {|
  dlq_marshal es := Some (Join (map (fun e => dl_ID e) es) ",");
  dlq_unmarshal _ := None;
  reload d := Some (ToValidUTF8 d);
  json_native := utf8_text;
|}.
Definition quiet_env : RetryEnv :=
  MkRetryEnv (fun _ => false) (fun _ => false) (fun _ => f64_zero) (fun _ => 5 * second) (fun _ => 5 * second)
    (fun _ => Written).
Definition failing (n : nat) (world : nat) : nat * option string :=
  (S world, if (world <? n)%nat then Some "timeout" else None).

Lemma retry_runs_until_decided_witness :
  exists log, @doInternal nat string demo_json (fun x _ => x) 0 (EnableRetry 5 second) (failing 2) None true quiet_env 5 0%nat
      (MkLetters None None)
    = Some (MkRetryRun 3%nat (MkLetters None None) 3 log None).
Proof.
  apply (proj1 (@retry_runs_until_decided nat string demo_json (fun x _ => x) 0 (EnableRetry 5 second) (failing 2)
    None true quiet_env 0%nat (MkLetters None None) eq_refl) 3%nat None); [reflexivity|lia| |lia].
  intros m Hm. assert (m = 1 \/ m = 2)%nat as [-> | ->] by lia; reflexivity.
Defined.

(** ** Lemmas: the queue *)

Lemma entry_id_inj (t1 k1 t2 k2 : Z) :
  0 <= k1 -> 0 <= k2 -> entry_id t1 k1 = entry_id t2 k2 -> k1 = k2.
Proof.
  unfold entry_id. intros H1 H2 E. apply str_app_inj in E as [_ E]; [|done].
  assert (forall k, 0 <= k -> has_byte "-"%char (Itoa k) = false) as Hd.
  { intros [|p|p] Hk; [done|by apply pretty_N_bytes|lia]. }
  apply (last_byte_inj "-"%char) in E as [_ E]; [|by apply Hd..]. by apply (inj pretty) in E.
Qed.

Lemma Forall_sublist {A} (P : A -> Prop) (l1 l2 : list A) : l1 `sublist_of` l2 -> Forall P l2 -> Forall P l1.
Proof. rewrite !Forall_forall. intros Hs Hp x Hx. apply Hp. by eapply elem_of_sublist. Qed.

Section DlqLemmas.
  Context {D : Type} `{J : DlqJson D}.
  Implicit Types (q : DLQ D) (e : DLQEntry D).

(** One operation on the queue; [writes] says which outcomes of writing the file are considered. *)
Inductive dlq_step (writes : WriteOutcome -> Prop) : DLQ D * option string -> DLQ D * option string -> Prop :=
  | step_add now w e q file : writes w -> dlq_step writes (q, file) (dlq_Add now w e q file)
  | step_remove id w q file : writes w -> dlq_step writes (q, file) (fst (dlq_Remove id w q file))
  | step_clear w q file : writes w -> dlq_step writes (q, file) (fst (dlq_Clear w q file))
  | step_cleanup now w q file : writes w -> dlq_step writes (q, file) (fst (dlq_CleanupOld now w q file))
  | step_save w q file : writes w -> dlq_step writes (q, file) (q, fst (dlq_Save w q file)).

(** What a queue that was started empty keeps true. *)
Record dlq_inv (cfg : DLQConfig) q : Prop := {
  di_config : dq_config q = cfg;
  di_counter : 0 <= dq_counter q;
  di_size : 0 < dc_MaxSize cfg -> Z.of_nat (length (dq_entries q)) <= dc_MaxSize cfg;
  di_ids : Forall (fun e => exists t k, dl_ID e = entry_id t k /\ 0 < k <= dq_counter q) (dq_entries q);
  di_nodup : NoDup (map dl_ID (dq_entries q));
}.

(** Keeping only some of the entries, in their order. *)
Lemma dlq_inv_sublist (cfg : DLQConfig) q (es : list (DLQEntry D)) :
  es `sublist_of` dq_entries q -> dlq_inv cfg q -> dlq_inv cfg (with_entries q es).
Proof.
  intros Hs [Hc Hk Hsz Hid Hnd]. split; cbn; try done.
  - intros Hm. specialize (Hsz Hm). apply sublist_length in Hs. lia.
  - by eapply Forall_sublist.
  - by apply (sublist_NoDup _ (map dl_ID (dq_entries q))); [|apply (fmap_sublist dl_ID)].
Qed.

Lemma remove_id_sublist (id : string) (es es' : list (DLQEntry D)) :
  remove_id id es = Some es' -> es' `sublist_of` es.
Proof.
  revert es'; induction es as [|e es IH]; intros es'; simpl; [done|].
  destruct (String.eqb (dl_ID e) id); [intros [= <-]; by apply sublist_cons|].
  destruct (remove_id id es) as [r|]; [|done]. intros [= <-]. apply sublist_skip. by apply IH.
Qed.

Lemma filter_sublist {A} (f : A -> bool) (l : list A) : List.filter f l `sublist_of` l.
Proof. induction l as [|x l IH]; simpl; [constructor|]. destruct (f x); by constructor. Qed.

Lemma dlq_Add_inv (cfg : DLQConfig) now w e q file :
  dlq_inv cfg q -> dlq_inv cfg (fst (dlq_Add now w e q file)).
Proof.
  intros [Hc Hk Hsz Hid Hnd]. unfold dlq_Add. cbn [fst]. rewrite Hc.
  set (es := dq_entries q ++ [with_id (entry_id now (dq_counter q + 1)) e]).
  set (es' := if ((0 <? dc_MaxSize cfg) && _)%bool then _ else es).
  assert (es' `sublist_of` es) as Hs by (unfold es'; destruct (_ && _); [apply sublist_drop|done]).
  assert (0 < dc_MaxSize cfg -> Z.of_nat (length es') <= dc_MaxSize cfg) as Hl.
  { intros Hm. unfold es'. rewrite (proj2 (Z.ltb_lt _ _) Hm). cbn [andb].
    destruct (Z.ltb_spec (dc_MaxSize cfg) (Z.of_nat (length es))); [rewrite length_drop|]; lia. }
  assert (Forall (fun e => exists t k, dl_ID e = entry_id t k /\ 0 < k <= dq_counter q + 1) es) as Hes.
  { apply Forall_app. split.
    - eapply Forall_impl; [exact Hid|]. cbn. intros x (t & k & -> & Hk'). exists t, k. split; [done|lia].
    - constructor; [|done]. exists now, (dq_counter q + 1). split; [done|lia]. }
  split; cbn; [done|lia|done|by eapply Forall_sublist|].
  apply (sublist_NoDup _ (map dl_ID es)); [|by apply (fmap_sublist dl_ID)].
  unfold es. rewrite map_app. apply NoDup_app. split; [done|]. split; [|apply NoDup_singleton].
  cbn. intros id (x & -> & Hx)%list_elem_of_fmap Heq%list_elem_of_singleton.
  rewrite Forall_forall in Hid. apply Hid in Hx as (t & k & Ex & Hk'). rewrite Ex in Heq.
  apply entry_id_inj in Heq; lia.
Qed.

Lemma dlq_step_inv (writes : WriteOutcome -> Prop) (cfg : DLQConfig) (s s' : DLQ D * option string) :
  dlq_step writes s s' -> dlq_inv cfg (fst s) -> dlq_inv cfg (fst s').
Proof.
  intros [now w e q file _|id w q file _|w q file _|now w q file _|w q file _] Hi; cbn [fst] in *; [|..|done].
  - by apply dlq_Add_inv.
  - unfold dlq_Remove. destruct (remove_id id (dq_entries q)) as [es|] eqn:E; cbn; [|done].
    by apply dlq_inv_sublist; [eapply remove_id_sublist|].
  - unfold dlq_Clear. destruct (saveUnsafe _ _ _). cbn. apply dlq_inv_sublist; [apply sublist_nil_l|done].
  - unfold dlq_CleanupOld. destruct (_ =? 0); [done|]. destruct (_ <? _)%nat; [|done]. cbn.
    apply dlq_inv_sublist; [apply filter_sublist|done].
Qed.

(** The file holds the entries, or nothing was ever written. *)
Definition file_mirrors (s : DLQ D * option string) : Prop :=
  snd s = dlq_marshal (dq_entries (fst s)) \/ (snd s = None /\ dq_entries (fst s) = []).

Lemma saveUnsafe_written q file :
  is_Some (dlq_marshal (dq_entries q)) -> fst (saveUnsafe Written q file) = dlq_marshal (dq_entries q).
Proof. intros [s E]. unfold saveUnsafe. by rewrite E. Qed.

Lemma dlq_step_mirrors (s s' : DLQ D * option string) :
  (forall es, is_Some (dlq_marshal es)) -> dlq_step (eq Written) s s' -> file_mirrors s -> file_mirrors s'.
Proof.
  intros Hm [now w e q file <-|id w q file <-|w q file <-|now w q file <-|w q file <-] Hi.
  - left. by apply saveUnsafe_written.
  - unfold dlq_Remove. destruct (remove_id id (dq_entries q)); [|done]. left. by apply saveUnsafe_written.
  - unfold dlq_Clear. destruct (saveUnsafe Written (with_entries q []) file) as [f r] eqn:E. cbn. left.
    change f with (fst (f, r)). rewrite <- E. by apply saveUnsafe_written.
  - unfold dlq_CleanupOld. destruct (_ =? 0); [done|]. destruct (_ <? _)%nat; [|done]. left. by apply saveUnsafe_written.
  - left. by apply saveUnsafe_written.
Qed.
End DlqLemmas.

(** An implementation of the JSON interface on which the examples compute. *)
Fixpoint digits_of_pos (p : positive) : string :=
  match p with
  | xH => ""
  | xO p => String "0" (digits_of_pos p)
  | xI p => String "1" (digits_of_pos p)
  end.
Fixpoint pos_of_digits (s : string) : positive :=
  match s with
  | "" => xH
  | String c s => if Ascii.eqb c "0" then xO (pos_of_digits s) else xI (pos_of_digits s)
  end.
Lemma pos_of_digits_of_pos (p : positive) : pos_of_digits (digits_of_pos p) = p.
Proof. induction p as [p IH|p IH|]; simpl; by rewrite ?IH. Qed.

#[global] Instance DLQEntry_eq_dec : EqDecision (DLQEntry string).
Proof. solve_decision. Defined.
#[global] Instance DLQEntry_countable : Countable (DLQEntry string).
Proof.
  refine (inj_countable' (fun e => (dl_ID e, dl_Timestamp e, dl_Attempts e, dl_LastError e, dl_FailureType e, dl_Data e))
    (fun '(a, b, c, d, e, f) => MkDLQEntry a b c d e f) _).
  by intros [].
Defined.
Definition valid_entry (e : DLQEntry string) : DLQEntry string :=
  MkDLQEntry (ToValidUTF8 (dl_ID e)) (dl_Timestamp e) (dl_Attempts e) (ToValidUTF8 (dl_LastError e)) (ToValidUTF8 (dl_FailureType e))
    (ToValidUTF8 <$> dl_Data e).
#[global] Instance text_json : DlqJson string := {|
  dlq_marshal es := Some (digits_of_pos (encode es));
  dlq_unmarshal s := map valid_entry <$> decode (pos_of_digits s);
  reload d := Some (ToValidUTF8 d);
  json_native := utf8_text;
|}.
#[global] Instance text_json_laws : DlqJsonLaws text_json.
Proof.
  split.
  - intros es s [= <-]. cbn [dlq_unmarshal text_json]. rewrite pos_of_digits_of_pos, decode_encode. reflexivity.
  - intros d Hd. cbn. f_equal. by apply utf8_text_eq.
Qed.

(** An identifier is ASCII, so the file keeps it. *)
Lemma entry_id_valid (now counter : Z) : ToValidUTF8 (entry_id now counter) = entry_id now counter.
Proof.
  apply utf8_text_eq, ascii_utf8. unfold entry_id, is_ascii. rewrite !all_bytes_app. fold (is_ascii (Itoa (now / second))) (is_ascii (Itoa counter)). by rewrite !Itoa_ascii.
Qed.

(** ** Properties: the dead letter queue *)

(** The queue stays within its size and its identifiers are unique: after any sequence of operations
    on a queue started empty, whatever happens to its file, it holds at most [MaxSize] entries (when a
    size is set), no two with one identifier, so that [GetByID] and [Remove] act on one entry. *)
Theorem dlq_bounded_and_distinct {D} `{DlqJson D} (writes : WriteOutcome -> Prop) (cfg : DLQConfig)
    (q : DLQ D) (file : option string) :
  rtc (dlq_step writes) (MkDLQ cfg [] 0, None) (q, file) ->
  (0 < dc_MaxSize cfg -> Z.of_nat (dlq_Size q) <= dc_MaxSize cfg) /\ NoDup (map dl_ID (dlq_Get q)).
Proof.
  intros Hr. assert (dlq_inv cfg (fst (q, file))) as [_ _ Hs _ Hn]; [|done].
  remember (MkDLQ cfg [] 0, None) as s0 eqn:E0. assert (dlq_inv cfg (fst s0)) as H0.
  { subst. split; cbn; [done|lia|lia|constructor|constructor]. }
  clear E0. induction Hr as [|s1 s2 s3 Hs _ IH]; [done|]. apply IH. by eapply dlq_step_inv.
Qed.

Definition letter (msg : string) : DLQEntry string := MkDLQEntry "" (7 * second) 3 "timeout" "max_attempts_exceeded" (Some msg).
Definition small_dlq : DLQConfig := MkDLQConfig true "dlq.json" "" 2 0.
Definition after_three : DLQ string * option string :=
  let '(q, f) := dlq_Add (7 * second) Written (letter "a") (MkDLQ small_dlq [] 0) None in
  let '(q, f) := dlq_Add (7 * second) Written (letter "b") q f in
  dlq_Add (8 * second) (WriteFailed None) (letter "c") q f.

Lemma dlq_bounded_and_distinct_witness :
  map dl_Data (dq_entries (fst after_three)) = [Some "b"; Some "c"]
  /\ NoDup (map dl_ID (dlq_Get (fst after_three))).
Proof.
  split; [reflexivity|].
  apply (dlq_bounded_and_distinct (fun _ => True) small_dlq (fst after_three) (snd after_three)).
  eapply rtc_l; [apply (step_add _ (7 * second) Written (letter "a")); exact I|].
  eapply rtc_l; [apply (step_add _ (7 * second) Written (letter "b")); exact I|].
  eapply rtc_l; [apply (step_add _ (8 * second) (WriteFailed None) (letter "c")); exact I|]. apply rtc_refl.
Defined.

Lemma NewDLQ_mirrors {D} `{DlqJsonLaws D} (cfg : DLQConfig) (q : DLQ D) (file : option string) :
  file_mirrors (q, file) -> is_Some (dlq_marshal (dq_entries q)) ->
  NewDLQ true cfg file = Ok (MkDLQ cfg (map reload_entry (dq_entries q)) 0).
Proof.
  intros [E|[E1 E2]] [s Hs]; cbn in *; [|by rewrite E1, E2].
  rewrite E, Hs. cbn. by rewrite (dlq_json_roundtrip _ _ Hs).
Qed.

(** A restart loses no dead letter: after any sequence of operations whose writes succeeded, a new
    queue opened on the file has the same entries in the same order, data as JSON gives it back. *)
Theorem dlq_survives_restart {D} `{DlqJsonLaws D} (cfg : DLQConfig) (q : DLQ D) (file : option string) :
  (forall es : list (DLQEntry D), is_Some (dlq_marshal es)) ->
  rtc (dlq_step (eq Written)) (MkDLQ cfg [] 0, None) (q, file) ->
  NewDLQ true cfg file = Ok (MkDLQ cfg (map reload_entry (dlq_Get q)) 0).
Proof.
  intros Hm Hr. apply NewDLQ_mirrors; [|done].
  remember (MkDLQ cfg [] 0, None) as s0 eqn:E0. assert (file_mirrors s0) as H1 by (subst; by right).
  clear E0. remember (q, file) as s1. clear Heqs1.
  induction Hr as [|s1 s2 s3 Hs _ IH]; [done|]. apply IH. by eapply dlq_step_mirrors.
Qed.

Lemma dlq_survives_restart_witness :
  let s := dlq_Add (7 * second) Written (letter "a") (MkDLQ small_dlq [] 0) None in
  NewDLQ true small_dlq (snd s) = Ok (MkDLQ small_dlq (map reload_entry (dlq_Get (fst s))) 0).
Proof.
  cbv zeta. apply (dlq_survives_restart small_dlq); [by eauto|].
  eapply rtc_l; [apply (step_add _ (7 * second) Written (letter "a")); reflexivity|]. apply rtc_refl.
Defined.

Lemma dlq_Add_last {D} `{DlqJson D} (now : Z) (w : WriteOutcome) (e : DLQEntry D) (q : DLQ D) (file : option string) :
  last (dq_entries (fst (dlq_Add now w e q file))) = Some (with_id (entry_id now (dq_counter q + 1)) e).
Proof.
  unfold dlq_Add. cbn. destruct (_ && _) eqn:E; [|apply last_snoc]. apply andb_true_iff in E as [E1 E2].
  apply Z.ltb_lt in E1, E2. rewrite length_app in *. cbn in *.
  rewrite drop_app_le by lia. apply last_snoc.
Qed.

(** Below the size limit the entry is appended. *)
Lemma dlq_Add_below {D} `{DlqJson D} (now : Z) (w : WriteOutcome) (e : DLQEntry D) (q : DLQ D) (file : option string)
    (q' := MkDLQ (dq_config q) (dq_entries q ++ [with_id (entry_id now (dq_counter q + 1)) e]) (dq_counter q + 1)) :
  dc_MaxSize (dq_config q) <= 0 \/ Z.of_nat (length (dq_entries q)) < dc_MaxSize (dq_config q) ->
  dlq_Add now w e q file = (q', fst (saveUnsafe w q' file)).
Proof.
  intros Hs. unfold dlq_Add, q'. rewrite length_app. cbn [length].
  destruct (Z.ltb_spec 0 (dc_MaxSize (dq_config q))), (Z.ltb_spec (dc_MaxSize (dq_config q))
    (Z.of_nat (length (dq_entries q) + 1))); cbn [andb]; done || lia.
Qed.

(** The result of a run is the decision of its last attempt. *)
Lemma doInternal_decided {W D} `{DlqJson D} (Pow : f64 -> f64 -> f64) (oor : Z) (c : Config)
    (fn : W -> W * option string) (data : option D) (addToDLQ : bool) (env : RetryEnv) (world : W)
    (l : Letters D) (fuel : nat) (run : RetryRun W D) :
  rc_Enabled c = true -> doInternal Pow oor c fn data addToDLQ env fuel world l = Some run ->
  decision c fn env (rr_attempts run) world = Some (rr_error run)
  /\ rr_letters run = letters_after data addToDLQ env (rr_attempts run) (rr_error run) l.
Proof.
  unfold doInternal. intros -> Hr. cbn [negb] in Hr. change world with (after_calls fn 0 world) in Hr.
  revert Hr. generalize 0%nat as n, (@nil (nat * string * Z)) as log. revert fuel.
  induction fuel as [|fuel IH]; intros n log; [done|].
  destruct (retry_loop_step Pow oor c fn data addToDLQ env fuel n world l log) as [log' ->].
  destruct (decision c fn env (S n) world) as [err|] eqn:E; [|apply IH]. by intros [= <-].
Qed.



(** Identifiers repeat after a restart, where the counter starts again: an entry added within the same
    second as the first entry of the file gets its identifier, and removing by that identifier removes
    the older entry only. *)
Theorem dlq_ids_repeat_after_restart {D} `{DlqJsonLaws D} (cfg : DLQConfig) (now now' : Z) (e e' : DLQEntry D)
    (q : DLQ D) (file : option string) :
  dc_MaxSize cfg <= 0 \/ 2 <= dc_MaxSize cfg -> now / second = now' / second ->
  (forall es : list (DLQEntry D), is_Some (dlq_marshal es)) ->
  dlq_Add now Written e (MkDLQ cfg [] 0) None = (q, file) ->
  exists q2, NewDLQ true cfg file = Ok q2 /\
    exists q3 file3 id, dlq_Add now' Written e' q2 file = (q3, file3)
      /\ map dl_ID (dlq_Get q3) = [id; id]
      /\ exists q4 file4, dlq_Remove id Written q3 file3 = (q4, file4, true) /\ dlq_Get q4 = [with_id id e'].
Proof.
  intros Hsz Ht Hm Ha. assert (Hid : entry_id now' 1 = entry_id now 1) by (unfold entry_id; by rewrite Ht).
  rewrite dlq_Add_below in Ha by (cbn; lia). injection Ha as Hq Hf. eexists. split.
  { apply (NewDLQ_mirrors _ q); [|done]. left. cbn. rewrite <- Hf, <- Hq. by apply saveUnsafe_written. }
  rewrite <- Hq. rewrite dlq_Add_below by (cbn; lia). cbn -[entry_id ToValidUTF8].
  eexists _, _, (entry_id now 1). split; [reflexivity|]. unfold dlq_Get. cbn -[entry_id ToValidUTF8]. rewrite entry_id_valid. change (0 + 1) with 1. rewrite Hid. split; [done|].
  unfold dlq_Remove. cbn -[entry_id ToValidUTF8]. rewrite entry_id_valid, String.eqb_refl. eexists _, _. by split; [reflexivity|].
Qed.

Lemma dlq_ids_repeat_after_restart_witness :
  let s := dlq_Add (7 * second) Written (letter "a") (MkDLQ small_dlq [] 0) None in
  exists q2, NewDLQ true small_dlq (snd s) = Ok q2 /\
    exists q3 file3 id, dlq_Add (7 * second + 5) Written (letter "b") q2 (snd s) = (q3, file3)
      /\ map dl_ID (dlq_Get q3) = [id; id]
      /\ exists q4 file4, dlq_Remove id Written q3 file3 = (q4, file4, true) /\ dlq_Get q4 = [with_id id (letter "b")].
Proof.
  cbv zeta. apply (dlq_ids_repeat_after_restart small_dlq (7 * second) (7 * second + 5) (letter "a") (letter "b")
    (fst (dlq_Add (7 * second) Written (letter "a") (MkDLQ small_dlq [] 0) None)));
    [right; cbn; lia|reflexivity|by eauto|reflexivity].
Defined.

(** ** Properties: delays *)

Lemma wrap64_range (z : Z) : - 2 ^ 63 <= wrap64 z < 2 ^ 63.
Proof. unfold wrap64. pose proof (Z.mod_pos_bound (z + 2 ^ 63) (2 ^ 64) ltac:(lia)). lia. Qed.

(** The delays of a valid configuration: without jitter none is above [MaxDelay], a constant backoff
    waits [InitialDelay] every time, and a linear one [InitialDelay] times the attempt up to [MaxDelay], as
    long as the product fits 64 bits; with jitter no delay is negative. *)
Theorem delay_bounds (Pow : f64 -> f64 -> f64) (oor : Z) (c c' : Config) (rnd : f64) (attempt : Z)
    (delay := calculateDelay Pow oor c' rnd attempt) :
  rc_Enabled c = true -> Validate c = Ok c' -> 1 <= attempt -> rc_MaxDelay c <= max_int64 ->
  (SFltb f64_zero (rc_Jitter c') = false ->
     delay <= rc_MaxDelay c'
     /\ (rc_BackoffStrategy c' = BackoffConstant -> delay = rc_InitialDelay c)
     /\ (rc_BackoffStrategy c' = BackoffLinear -> rc_InitialDelay c * attempt <= max_int64 ->
         delay = Z.min (rc_InitialDelay c * attempt) (rc_MaxDelay c)))
  /\ (SFltb f64_zero (rc_Jitter c') = true -> 0 <= delay).
Proof.
  intros Hen Hv Ha Hmx. unfold Validate, check_ in Hv. rewrite Hen in Hv. cbn [negb] in Hv.
  destruct (Z.ltb_spec (rc_MaxAttempts c) 0); [done|].
  destruct (Z.ltb_spec (rc_InitialDelay c) 0) as [|Hi]; [done|].
  destruct (Z.ltb_spec (rc_MaxDelay c) (rc_InitialDelay c)) as [|Hm]; [done|].
  destruct (_ && _); [done|]. set (d := if SFleb _ _ then _ else c) in Hv.
  assert (rc_InitialDelay d = rc_InitialDelay c /\ rc_MaxDelay d = rc_MaxDelay c) as [Ei Em]
    by (unfold d; by destruct (SFleb _ _)).
  destruct (_ || _); [done|]. injection Hv as <-. unfold delay, calculateDelay. rewrite Em, Ei. split.
  - intros ->. split; [destruct (Z.ltb_spec (rc_MaxDelay c) (backoff_delay Pow oor d attempt)); lia|].
    unfold backoff_delay. rewrite Ei. split; intros ->.
    + cbn. destruct (Z.ltb_spec (rc_MaxDelay c) (rc_InitialDelay c)); lia.
    + cbn. intros Hp. rewrite wrap64_id by (apply int64b_intro; unfold min_int64, max_int64 in *; nia).
      destruct (Z.ltb_spec (rc_MaxDelay c) (rc_InitialDelay c * attempt)); lia.
  - intros ->. set (x := wrap64 _). destruct (Z.ltb_spec x 0); lia.
Qed.

Definition linear_config : Config :=
  MkConfig true 5 (1 * second) (3 * second) BackoffLinear f64_two f64_zero [] false (rc_DLQ DefaultConfig).

Lemma delay_bounds_witness :
  map (calculateDelay (fun x _ => x) 0 linear_config f64_zero) [1; 2; 3; 4] = map (Z.mul second) [1; 2; 3; 3]
  /\ calculateDelay (fun x _ => x) 0 linear_config f64_zero 2 = Z.min (1 * second * 2) (3 * second).
Proof.
  split; [vm_compute; reflexivity|].
  destruct (delay_bounds (fun x _ => x) 0 linear_config linear_config f64_zero 2 eq_refl eq_refl ltac:(lia) ltac:(done))
    as [Hj _].
  destruct (Hj eq_refl) as (_ & _ & Hl). apply (Hl eq_refl). vm_compute. discriminate.
Defined.

(** The exponential configuration of the defaults, without jitter. *)
Definition steady_config : Config :=
  MkConfig true 0 (1 * second) (30 * second) BackoffExponential f64_two f64_zero [] false (rc_DLQ DefaultConfig).

Section Exponential.
(** [math.Pow] is exact on the powers of two a [float64] holds. *)
  Context (Pow : f64 -> f64 -> f64).
  Context (Pow_two : forall k, 0 <= k < 1024 -> Pow f64_two (f64_of_int k) = f64_of_int (2 ^ k)).

(** The product that is converted at an attempt. *)
Definition doubled (k : nat) : f64 := f64_mul (f64_of_int (1 * second)) (f64_of_int (2 ^ Z.of_nat k)).

Lemma steady_backoff (oor attempt : Z) :
  1 <= attempt <= 1024 ->
  backoff_delay Pow oor steady_config attempt = int64_of_f64 oor (doubled (Z.to_nat (attempt - 1))).
Proof.
  intros Ha. unfold backoff_delay, doubled. cbn -[f64_mul f64_of_int int64_of_f64].
  by rewrite Pow_two, Z2Nat.id by lia.
Qed.
End Exponential.

(** A table checked by evaluation. *)
Lemma doubled_table (P : f64 -> bool) (lo n : nat) (attempt : Z) :
  forallb (fun k => P (doubled k)) (seq lo n) = true ->
  Z.of_nat lo < attempt <= Z.of_nat (lo + n) -> P (doubled (Z.to_nat (attempt - 1))) = true.
Proof. intros Hall Ha. rewrite forallb_forall in Hall. apply Hall, in_seq. lia. Qed.

(** The value is one an [int64] can hold. *)
Definition f64_fits (x : f64) : bool := int64_of_f64 0 x =? int64_of_f64 1 x.

Lemma int64_of_f64_fits (oor : Z) (x : f64) :
  int64_of_f64 oor x = if f64_fits x then int64_of_f64 0 x else oor.
Proof.
  unfold f64_fits, int64_of_f64. destruct x as [s|s| |s m e]; try done.
  set (v := if s then _ else _). destruct (int64b v); [by rewrite Z.eqb_refl|done].
Qed.

(** Exponential backoff stops waiting: with the default delays (one second doubled, at most thirty) and
    no jitter, attempts 6 to 34 wait thirty seconds, but from attempt 35 on (up to the largest [float64]
    power) the product exceeds 64 bits, and the delay is whatever the conversion gives, unless that is
    above the maximum; where the conversion gives a negative number, as on amd64, the loop no longer
    waits at all. *)
Theorem exponential_delay_overflows (Pow : f64 -> f64 -> f64) (oor : Z) (rnd : f64) (attempt : Z) :
  (forall k, 0 <= k < 1024 -> Pow f64_two (f64_of_int k) = f64_of_int (2 ^ k)) ->
  (6 <= attempt <= 34 -> calculateDelay Pow oor steady_config rnd attempt = 30 * second)
  /\ (35 <= attempt <= 1024 -> oor <= 30 * second -> calculateDelay Pow oor steady_config rnd attempt = oor).
Proof.
  intros HP. unfold calculateDelay. change (SFltb f64_zero (rc_Jitter steady_config)) with false. cbv iota.
  change (rc_MaxDelay steady_config) with (30 * second). split.
  - intros Ha. rewrite (steady_backoff Pow HP) by lia. rewrite int64_of_f64_fits.
    rewrite (doubled_table f64_fits 5 29) by (done || lia).
    by rewrite (doubled_table (fun x => 30 * second <? int64_of_f64 0 x) 5 29) by (done || lia).
  - intros Ha Ho. rewrite (steady_backoff Pow HP) by lia. rewrite int64_of_f64_fits.
    assert (f64_fits (doubled (Z.to_nat (attempt - 1))) = false) as ->.
    { apply negb_true_iff, (doubled_table (fun x => negb (f64_fits x)) 34 990); [vm_compute; reflexivity|lia]. }
    destruct (Z.ltb_spec (30 * second) oor); lia.
Qed.

Definition demo_pow (x y : f64) : f64 := f64_of_int (2 ^ int64_of_f64 0 y).

Lemma exponential_delay_overflows_witness :
  calculateDelay demo_pow (- 2 ^ 63) steady_config f64_zero 34 = 30 * second
  /\ calculateDelay demo_pow (- 2 ^ 63) steady_config f64_zero 35 = - 2 ^ 63.
Proof.
  assert (forall k, 0 <= k < 1024 -> demo_pow f64_two (f64_of_int k) = f64_of_int (2 ^ k)) as HP.
  { intros k Hk. unfold demo_pow. do 2 f_equal.
    assert (forallb (fun k => int64_of_f64 0 (f64_of_int (Z.of_nat k)) =? Z.of_nat k) (seq 0 1024) = true) as Hall
      by (vm_compute; reflexivity).
    rewrite forallb_forall in Hall. specialize (Hall (Z.to_nat k)). rewrite Z2Nat.id in Hall by lia.
    apply Z.eqb_eq, Hall, in_seq. lia. }
  split.
  - apply (exponential_delay_overflows demo_pow (- 2 ^ 63) f64_zero 34 HP). lia.
  - apply (exponential_delay_overflows demo_pow (- 2 ^ 63) f64_zero 35 HP); [lia|]. vm_compute. discriminate.
Defined.

(** Jitter is added after the cap, so a delay can exceed [MaxDelay]: half of the default tenth above it. *)
Lemma jitter_exceeds_max_delay (Pow : f64 -> f64 -> f64) (oor : Z) :
  Pow f64_two (f64_of_int 5) = f64_of_int 32 ->
  calculateDelay Pow oor (EnableRetry 9 second) (S754_finite false 3 (-2)) 6
  = rc_MaxDelay (EnableRetry 9 second) + 1500 * 1000000.
Proof.
  intros HP. unfold calculateDelay, backoff_delay.
  change (rc_BackoffMultiplier (EnableRetry 9 second)) with f64_two. change (6 - 1) with 5. rewrite HP. vm_compute. reflexivity.
Qed.

(** ** Retrying through a circuit breaker

    [ExecuteWithResilience] of [src/cmd/tdtpcli/production.go], for calls that run alone. *)

(** What [err.Error()] says of an error returned through the breaker. *)
Definition breaker_error_text (e : BreakerError) : string :=
  match e with
  | ErrCircuitOpen => "circuit breaker is open"
  | ErrTooManyCalls => "too many concurrent calls"
  | ErrCall msg => msg
  end.

Section Resilience.
  Context {W D : Type} `{DlqJson D} (Pow : f64 -> f64 -> f64) (out_of_range : Z).

(** The protected call: the breaker's state, how many calls were made, and the function's own world. *)
Record Guarded := MkGuarded { gd_breaker : stateManager; gd_calls : nat; gd_world : W }.

(** [pf.CircuitBreaker.Execute(ctx, wrappedFn)]; the clocks are those of the call. *)
Definition guarded_call (cfg : BreakerConfig) (before after : nat -> nat -> Z) (fn : W -> W * option string)
    (g : Guarded) : Guarded * option string :=
  let i := gd_calls g in
  let '(world, err) := fn (gd_world g) in
  let '(sm, _, (ran, out)) :=
    cb_Execute cfg (before i) (after i) (Returned (ErrCall <$> err)) (gd_breaker g) in
  (MkGuarded sm (S i) (if ran : bool then world else gd_world g),
   match out with Returned (Some e) => Some (breaker_error_text e) | _ => None end).

Definition unguarded_call (fn : W -> W * option string) (g : Guarded) : Guarded * option string :=
  let '(world, err) := fn (gd_world g) in (MkGuarded (gd_breaker g) (S (gd_calls g)) world, err).

Definition ExecuteWithResilience (breaker : option BreakerConfig) (retryer : option Config)
    (before after : nat -> nat -> Z) (env : RetryEnv) (fn : W -> W * option string) (fuel : nat)
    (g : Guarded) (l : Letters D) : option (RetryRun Guarded D) :=
  let executeFn := match breaker with
                   | Some cfg => guarded_call cfg before after fn
                   | None => unguarded_call fn
                   end in
  match retryer with
  | Some c => retry_Do Pow out_of_range c executeFn env fuel g l
  | None => let '(g, err) := executeFn g in Some (MkRetryRun g l 1 [] (Direct <$> err))
  end.
End Resilience.
Arguments Guarded : clear implicits.

Section BreakerLemmas.
  Context {W : Type} (cfg : BreakerConfig) (before after : nat -> nat -> Z) (fn : W -> W * option string).
  Context (start : Z).
  Context (Hen : cf_Enabled cfg = true) (Htrip : cf_ShouldTrip cfg = None) (Hmax : 1 <= cf_MaxFailures cfg < 2 ^ 32).
  Context (Hfail : forall w, is_Some (snd (fn w))).
  Context (Hclock : forall i k, before i k <= start + cf_Timeout cfg /\ start <= after i k).

(** The breaker after [n] failed attempts: still closed and counting, or open until the timeout. *)
Definition failing_state (n : nat) (sm : stateManager) : Prop :=
  if (Z.of_nat n <? cf_MaxFailures cfg)
  then sm_state sm = StateClosed /\ sm_runningCalls sm = 0 /\ ConsecutiveFailures (sm_counts sm) = Z.of_nat n
  else sm_state sm = StateOpen /\ start + cf_Timeout cfg <= sm_expiry sm.

(** A failing call on a closed breaker runs; it opens the breaker when it reaches the limit. *)
Lemma failing_call_closed (c1 c2 : nat -> Z) (e : BreakerError) (n : nat) (sm : stateManager) :
  (forall k, start <= c2 k) -> Z.of_nat n < cf_MaxFailures cfg -> failing_state n sm ->
  exists sm' ev, cb_Execute cfg c1 c2 (Returned (Some e)) sm = (sm', ev, (true, Returned (Some e)))
    /\ failing_state (S n) sm'.
Proof.
  intros Hc Hn. unfold failing_state at 1. rewrite (proj2 (Z.ltb_lt _ _) Hn). intros (Hs & Hr & Hf).
  unfold cb_Execute, beforeRequest. rewrite Hen. cbn [negb]. rewrite Hs. cbn [andb is_open].
  rewrite Hs, Hr, limit_free. cbn [is_open]. unfold afterRequest.
  cbn [sm_runningCalls with_running sm_generation]. change (inc32 0) with 1. cbn [Z.ltb Z.compare].
  rewrite Z.eqb_refl. cbn [negb succeeded]. unfold onFailure, shouldTrip. cbn. rewrite Hs, Htrip, Hf.
  unfold inc32. rewrite Z.mod_small by lia. unfold failing_state.
  replace (Z.of_nat (S n)) with (Z.of_nat n + 1) by lia.
  destruct (Z.leb_spec (cf_MaxFailures cfg) (Z.of_nat n + 1)), (Z.ltb_spec (Z.of_nat n + 1) (cf_MaxFailures cfg));
    try lia; cbn.
  - eexists _, _. split; [reflexivity|]. cbn. split; [done|]. specialize (Hc 1%nat). lia.
  - eexists _, _. split; [reflexivity|]. cbn. done.
Qed.

(** A call on a breaker that is open is rejected, the function does not run. *)
Lemma failing_call_open (c1 c2 : nat -> Z) (o : Outcome) (n : nat) (sm : stateManager) :
  c1 0%nat <= start + cf_Timeout cfg -> cf_MaxFailures cfg <= Z.of_nat n -> failing_state n sm ->
  cb_Execute cfg c1 c2 o sm = (sm, [], (false, Returned (Some ErrCircuitOpen))) /\ failing_state (S n) sm.
Proof.
  intros Hc Hn. unfold failing_state. rewrite !(proj2 (Z.ltb_ge _ _)) by lia. intros (Hs & He).
  unfold cb_Execute, beforeRequest. rewrite Hen, Hs. cbn [negb is_open andb].
  rewrite (proj2 (Z.ltb_ge _ _)) by lia. by rewrite Hs.
Qed.

(** One attempt of the retryer: the function runs while the breaker is closed. *)
Lemma guarded_step (n : nat) (sm : stateManager) (world : W) :
  failing_state n sm ->
  exists sm', failing_state (S n) sm' /\
    guarded_call cfg before after fn (MkGuarded sm n world)
    = (if Z.of_nat n <? cf_MaxFailures cfg
       then (MkGuarded sm' (S n) (fst (fn world)), snd (fn world))
       else (MkGuarded sm' (S n) world, Some "circuit breaker is open")).
Proof.
  intros Hs. unfold guarded_call. cbn [gd_calls gd_world gd_breaker].
  destruct (Hfail world) as [e He]. destruct (fn world) as [world' err]. cbn in He. subst err.
  destruct (Z.ltb_spec (Z.of_nat n) (cf_MaxFailures cfg)) as [Hn|Hn].
  - destruct (failing_call_closed (before n) (after n) (ErrCall e) n sm) as (sm' & ev & E & Hs');
      [apply Hclock|done|done|]. exists sm'. split; [done|]. cbn [fmap option_fmap option_map]. by rewrite E.
  - destruct (failing_call_open (before n) (after n) (Returned (ErrCall <$> Some e)) n sm) as [E Hs'];
      [apply Hclock|done|done|]. exists sm. split; [done|]. by rewrite E.
Qed.

(** The attempts of a retryer: the function has run at most as often as the breaker allows. *)
Lemma guarded_attempts (n : nat) (sm : stateManager) (world : W) (F := Z.to_nat (cf_MaxFailures cfg)) :
  failing_state 0 sm ->
  exists sm', after_calls (guarded_call cfg before after fn) n (MkGuarded sm 0 world)
      = MkGuarded sm' n (after_calls fn (Nat.min n F) world) /\ failing_state n sm'.
Proof.
  intros H0. induction n as [|n (sm1 & E & Hs)]; [by exists sm|]. cbn [after_calls]. rewrite E.
  destruct (guarded_step n sm1 (after_calls fn (Nat.min n F) world) Hs) as (sm' & Hs' & ->).
  exists sm'. split; [|done]. unfold F. destruct (Z.ltb_spec (Z.of_nat n) (cf_MaxFailures cfg)); cbn [fst]; f_equal.
  - by replace (Nat.min (S n) (Z.to_nat (cf_MaxFailures cfg))) with (S (Nat.min n (Z.to_nat (cf_MaxFailures cfg)))) by lia.
  - f_equal. lia.
Qed.

Lemma guarded_error (n : nat) (sm : stateManager) (world : W) :
  failing_state 0 sm ->
  call_error (guarded_call cfg before after fn) (S n) (MkGuarded sm 0 world)
  = if Z.of_nat n <? cf_MaxFailures cfg then call_error fn (S n) world else Some "circuit breaker is open".
Proof.
  intros H0. destruct (guarded_attempts n sm world H0) as (sm' & E & Hs).
  unfold call_error. cbn [pred]. rewrite E.
  destruct (guarded_step n sm' (after_calls fn (Nat.min n (Z.to_nat (cf_MaxFailures cfg))) world) Hs) as (? & _ & ->).
  destruct (Z.ltb_spec (Z.of_nat n) (cf_MaxFailures cfg)); [|done]. cbn. by rewrite Nat.min_l by lia.
Qed.
End BreakerLemmas.

(** A run whose calls all fail, with the context alive, uses up its attempts. *)
Lemma retry_exhausts {W D} `{DlqJson D} (Pow : f64 -> f64 -> f64) (oor : Z) (c : Config)
    (fn : W -> W * option string) (data : option D) (addToDLQ : bool) (env : RetryEnv) (world : W)
    (l : Letters D) (A := Z.to_nat (rc_MaxAttempts c)) :
  rc_Enabled c = true -> 0 < rc_MaxAttempts c -> rc_RetryableErrors c = [] ->
  (forall n, re_ctx_done env n = false /\ re_ctx_done_waiting env n = false) ->
  (forall n, is_Some (call_error fn (S n) world)) ->
  exists e log, call_error fn A world = Some e
    /\ doInternal Pow oor c fn data addToDLQ env A world l
       = Some (MkRetryRun (after_calls fn A world) (add_letter data addToDLQ env A e l) A log
                 (Some (MaxAttemptsExceeded (rc_MaxAttempts c) e))).
Proof.
  intros Hc HA Hpat Hctx Herr. destruct A as [|k] eqn:EA; [lia|].
  assert (forall n, (0 < n < S k)%nat -> decision c fn env n world = None) as Hgo.
  { intros [|n] Hn; [lia|]. unfold decision, isRetryableError. destruct (Herr n) as [e ->]. rewrite Hpat. cbn.
    destruct (Hctx (S n)) as [-> ->]. by rewrite (proj2 (Z.ltb_lt _ _)), (proj2 (Z.leb_gt _ _)) by lia. }
  destruct (Herr k) as [e He]. exists e.
  destruct (retry_loop_stops Pow oor c fn data addToDLQ env k 0 (S k) world l []
    (Some (MaxAttemptsExceeded (rc_MaxAttempts c) e))) as [log Hrun]; [exact Hgo| |lia|].
  - unfold decision, isRetryableError. cbn [Nat.add]. rewrite He, Hpat. cbn.
    by rewrite (proj2 (Z.ltb_lt _ _)), (proj2 (Z.leb_le _ _)) by lia.
  - exists log. split; [done|]. unfold doInternal. rewrite Hc. exact Hrun.
Qed.

(** Retrying through a breaker spares the failing function: when every call fails, the breaker starts
    closed and its timeout does not run out meanwhile, a retryer with [A] attempts over a breaker with
    [F] failures gives up after [A] attempts, of which only the first [F] reached the function; the error
    reported is the function's own when [A <= F], and that the circuit is open otherwise. *)
Theorem retry_through_breaker {W D} `{DlqJson D} (Pow : f64 -> f64 -> f64) (oor : Z) (cfg : BreakerConfig)
    (c : Config) (before after : nat -> nat -> Z) (env : RetryEnv) (fn : W -> W * option string)
    (start now : Z) (world : W) (l : Letters D)
    (A := Z.to_nat (rc_MaxAttempts c)) (F := Z.to_nat (cf_MaxFailures cfg)) :
  cf_Enabled cfg = true -> cf_ShouldTrip cfg = None -> 1 <= cf_MaxFailures cfg < 2 ^ 32 ->
  (forall w, is_Some (snd (fn w))) ->
  (forall i k, before i k <= start + cf_Timeout cfg /\ start <= after i k) ->
  rc_Enabled c = true -> 0 < rc_MaxAttempts c -> rc_RetryableErrors c = [] ->
  (forall n, re_ctx_done env n = false /\ re_ctx_done_waiting env n = false) ->
  exists run, ExecuteWithResilience Pow oor (Some cfg) (Some c) before after env fn A
      (MkGuarded (newStateManager now) 0 world) l = Some run
    /\ rr_attempts run = A
    /\ gd_world (rr_world run) = after_calls fn (Nat.min A F) world
    /\ exists err, rr_error run = Some (MaxAttemptsExceeded (rc_MaxAttempts c) err)
       /\ Some err = if (A <=? F)%nat then call_error fn A world else Some "circuit breaker is open".
Proof.
  intros Hen Htrip HF Hfail Hclock Hc HA Hpat Hctx.
  set (g := MkGuarded (newStateManager now) 0 world). set (gfn := guarded_call cfg before after fn).
  assert (failing_state cfg start 0 (newStateManager now)) as H0.
  { unfold failing_state. rewrite (proj2 (Z.ltb_lt _ _)) by lia. done. }
  destruct (retry_exhausts Pow oor c gfn None true env g l) as (e & log & He & Hrun); try done.
  { intros n. unfold gfn, g. rewrite (guarded_error cfg before after fn start) by done.
    destruct (_ <? _); [|by eexists]. apply Hfail. }
  eexists. split; [exact Hrun|]. split; [done|]. cbn [rr_world rr_error]. split.
  - destruct (guarded_attempts cfg before after fn start Hen Htrip HF Hfail Hclock A (newStateManager now) world H0)
      as (sm' & E & _). fold gfn g in E. fold A. by rewrite E.
  - exists e. split; [done|]. rewrite <- He. fold A. destruct A as [|k] eqn:EA; [lia|]. unfold gfn, g.
    rewrite (guarded_error cfg before after fn start) by done.
    destruct (Z.ltb_spec (Z.of_nat k) (cf_MaxFailures cfg)), (Nat.leb_spec (S k) F); done || lia.
Qed.

Lemma retry_through_breaker_witness :
  let breaker := MkBreakerConfig true "db" 2 (60 * second) 0 1 false None in
  let fn (world : nat) := (S world, Some "timeout") in
  exists run, ExecuteWithResilience demo_pow 0 (Some breaker) (Some (EnableRetry 5 second)) (fun _ _ => 7) (fun _ _ => 7)
      quiet_env fn 5 (MkGuarded (newStateManager 0) 0 0%nat) (MkLetters (D := string) None None) = Some run
    /\ rr_attempts run = 5%nat /\ gd_world (rr_world run) = 2%nat
    /\ rr_error run = Some (MaxAttemptsExceeded 5 "circuit breaker is open").
Proof.
  cbv zeta. destruct (@retry_through_breaker nat string _ demo_pow 0 (MkBreakerConfig true "db" 2 (60 * second) 0 1 false None)
    (EnableRetry 5 second) (fun _ _ => 7) (fun _ _ => 7) quiet_env (fun world => (S world, Some "timeout")) 7 0 0%nat
    (MkLetters None None)) as (run & E & Ha & Hw & err & He & Herr); try reflexivity; try (cbn; lia).
  - intros w. by eexists.
  - intros _ _. unfold cf_Timeout, second. lia.
  - exists run. split; [exact E|]. split; [exact Ha|]. split; [by rewrite Hw|]. rewrite He. by injection Herr as ->.
Defined.
