(* ===== verification/SqlGuard.v ===== *)
(** * SQL of pipelines: variables and the safe mode

    What tdtpcli does to the SQL of a pipeline before it runs: the substitution of command-line variables
    ([src/pkg/etl/variables.go]) and the check of the safe mode ([src/pkg/security/validator.go]), in the
    order of [src/cmd/tdtpcli/commands/pipeline.go].

    The three regular expressions of variables.go match a mark, a run of word bytes and a closing mark;
    each is a function that recognises it at the start of a text, and [scan] finds the leftmost matches.
    Of the pipeline configuration the records hold the fields this code reads or writes. *)

From Stdlib Require Import ZArith Lia Ascii String.
From stdpp Require Import base list gmap strings.
From S2P Require Import Prelude Strconv StableSort PacketTypes GoMaps SqlGenerator.

(** ** validator.go *)

Record SQLValidator := MkSQLValidator { safeMode : bool }.
Definition NewSQLValidator (safeMode : bool) : SQLValidator := MkSQLValidator safeMode.
Definition IsSafeMode (v : SQLValidator) : bool := safeMode v.
Definition SetSafeMode (b : bool) (v : SQLValidator) : SQLValidator := MkSQLValidator b.

Inductive SqlGuardError :=
| OnlySelectAllowed (got : string)
| ForbiddenKeyword (keyword : string)
| MultipleStatements
| SemicolonInside
| LineComment
| BlockComment.

Definition forbidden : list string :=
  ["INSERT"; "UPDATE"; "DELETE"; "TRUNCATE"; "MERGE"; "DROP"; "CREATE"; "ALTER"; "RENAME"; "GRANT"; "REVOKE";
   "EXECUTE"; "EXEC"; "CALL"; "PRAGMA"; "ATTACH"; "DETACH"; "BEGIN"; "COMMIT"; "ROLLBACK"].

Definition keyword_patterns (keyword : string) : list string :=
  [" " +:+ keyword +:+ " "; " " +:+ keyword +:+ ";"; " " +:+ keyword +:+ "("; keyword +:+ " "].

Fixpoint check_keywords (sql : string) (keywords : list string) : result SqlGuardError () :=
  match keywords with
  | [] => Ok ()
  | keyword :: rest =>
      fail_if existsb (Contains sql) (keyword_patterns keyword) with ForbiddenKeyword keyword ;;
      fail_if EndsWith sql (" " +:+ keyword) with ForbiddenKeyword keyword ;;
      check_keywords sql rest
  end.
Definition checkForbiddenKeywords (sql : string) : result SqlGuardError () := check_keywords sql forbidden.

Definition checkMultipleStatements (sql : string) : result SqlGuardError () :=
  let semicolonCount := Count sql ";" in
  fail_if (1 <? semicolonCount) with MultipleStatements ;;
  fail_if (semicolonCount =? 1) && negb (EndsWith (TrimSpace sql) ";") with SemicolonInside ;;
  Ok ().

Definition checkComments (sql : string) : result SqlGuardError () :=
  fail_if Contains sql "--" with LineComment ;;
  fail_if Contains sql "/*" || Contains sql "*/" with BlockComment ;;
  Ok ().

Definition getQueryType (sql : string) : string :=
  match Fields sql with w :: _ => w | [] => "UNKNOWN" end.

Definition normalized `{GoCase} (sql : string) : string := Join (Fields (ToUpper sql)) " ".

Definition sql_Validate `{GoCase} (v : SQLValidator) (sql : string) : result SqlGuardError () :=
  if negb (safeMode v) then Ok ()
  else
    let n := normalized sql in
    fail_if negb (HasPrefix n "SELECT") && negb (HasPrefix n "WITH") with OnlySelectAllowed (getQueryType n) ;;
    _ ← checkForbiddenKeywords n;
    _ ← checkMultipleStatements sql;
    checkComments sql.

(** ** variables.go *)

(** The word bytes at the start of a text, and the rest. *)
Definition span_word : string -> string * string := span_bytes is_word_byte.

(** A match at the start: the name and what follows the match. *)
Definition matcher := string -> option (string * string).

(** [@(\w+)]. *)
Definition reSQLVar : matcher := fun s =>
  match strip_prefix "@" s with
  | Some r => let '(w, r) := span_word r in if String.eqb w "" then None else Some (w, r)
  | None => None
  end.
(** ['@(\w+)'] and [\{\{(\w+)\}\}]. *)
Definition enclosed (opening closing : string) : matcher := fun s =>
  match strip_prefix opening s with
  | Some r =>
      let '(w, r) := span_word r in
      if String.eqb w "" then None else pair w <$> strip_prefix closing r
  | None => None
  end.
Definition reSQLStringVar : matcher := enclosed "'@" "'".
Definition reYAMLVar : matcher := enclosed "{{" "}}".

(** A text cut at the leftmost matches. *)
Inductive piece := Lit (c : ascii) | Var (name : string).

Fixpoint scan_fuel (m : matcher) (n : nat) (s : string) : list piece :=
  match n, s with
  | S n', String c s' =>
      match m s with
      | Some (w, r) => Var w :: scan_fuel m n' r
      | None => Lit c :: scan_fuel m n' s'
      end
  | _, _ => []
  end.
Definition scan (m : matcher) (s : string) : list piece := scan_fuel m (String.length s) s.

Fixpoint render (f : string -> string) (ps : list piece) : string :=
  match ps with
  | [] => ""
  | Lit c :: ps => String c (render f ps)
  | Var w :: ps => f w +:+ render f ps
  end.
Definition piece_names (ps : list piece) : list string :=
  omap (fun p => match p with Var w => Some w | Lit _ => None end) ps.

(** [re.ReplaceAllStringFunc(s, f)]; [f] gets the name. *)
Definition ReplaceAllStringFunc (m : matcher) (s : string) (f : string -> string) : string :=
  render f (scan m s).

Abbreviation Vars := (gmap string string).

Definition substituteSQL (query : string) (vars : Vars) : string :=
  if String.eqb query "" then query
  else
    let query := ReplaceAllStringFunc reSQLStringVar query (fun name =>
      match vars !! name with
      | Some val => "'" +:+ replace_byte SQUOTE "''" val +:+ "'"
      | None => "'@" +:+ name +:+ "'"
      end) in
    ReplaceAllStringFunc reSQLVar query (fun name =>
      match vars !! name with Some val => val | None => "@" +:+ name end).

Definition substituteYAML (s : string) (vars : Vars) : string :=
  if String.eqb s "" then s
  else
    ReplaceAllStringFunc reYAMLVar s (fun name =>
      match vars !! name with Some val => val | None => "{{" +:+ name +:+ "}}" end).

Record SourceConfig := MkSourceConfig { so_Name : string; so_Query : string; so_DSN : string }.
Set Warnings "-register-all".

(** The destinations of an output and its chain of fallbacks. *)
Inductive OutputConfig := MkOutputConfig {
  ou_TDTP : option string;
  ou_XLSX : option string;
  ou_Fallback : option OutputConfig;
}.
Record PipelineConfig := MkPipelineConfig {
  pl_Name : string;
  pl_Version : string;
  pl_Description : string;
  pl_Sources : list SourceConfig;
  pl_TransformSQL : string;
  pl_Output : OutputConfig;
}.

(** [ParsePipelineVars]: one argument. *)
Definition unquote (value : string) : string :=
  if (2 <=? String.length value) && HasPrefix value (chr DQUOTE) && EndsWith value (chr DQUOTE)
  then str_rev (drop_bytes 1 (str_rev (drop_bytes 1 value))) else value.
Definition parse_var (arg : string) : option (string * string) :=
  match strip_prefix "@" arg with
  | None => None
  | Some r =>
      match cut_at "=" r with
      | Some (name, value) => if String.eqb name "" then None else Some (name, unquote value)
      | None => None
      end
  end.
Fixpoint ParsePipelineVars (args : list string) : Vars * list string :=
  match args with
  | [] => (∅, [])
  | arg :: rest =>
      let '(vars, other) := ParsePipelineVars rest in
      match parse_var arg with
      | Some (name, value) => (match vars !! name with Some _ => vars | None => <[name := value]> vars end, other)
      | None => (vars, arg :: other)
      end
  end.

Fixpoint output_names (out : OutputConfig) : list string :=
  from_option (fun d => piece_names (scan reYAMLVar d)) [] (ou_TDTP out)
  ++ from_option (fun d => piece_names (scan reYAMLVar d)) [] (ou_XLSX out)
  ++ match ou_Fallback out with Some f => output_names f | None => [] end.
Definition collectDeclaredVars (config : PipelineConfig) : gset string :=
  list_to_set
    (concat (map (fun src => piece_names (scan reSQLVar (so_Query src)) ++ piece_names (scan reYAMLVar (so_DSN src)))
               (pl_Sources config))
     ++ piece_names (scan reSQLVar (pl_TransformSQL config))
     ++ piece_names (scan reYAMLVar (pl_Description config))
     ++ output_names (pl_Output config)).

Fixpoint applyOutputVars (vars : Vars) (out : OutputConfig) : OutputConfig :=
  MkOutputConfig ((fun d => substituteYAML d vars) <$> ou_TDTP out) ((fun d => substituteYAML d vars) <$> ou_XLSX out)
    match ou_Fallback out with Some f => Some (applyOutputVars vars f) | None => None end.

Definition str_sort (l : list string) : list string := SliceStable str_ltb l.

Inductive PipelineError :=
| VariablesMissing (names : list string)
| SourceInvalid (i : nat) (name : string) (e : SqlGuardError)
| TransformInvalid (e : SqlGuardError).

Section Apply.
  Context `{GoRange}.

(** [ApplyVariables]: the substituted configuration and the warnings. *)
Definition unused_warning (name : string) : string :=
  "variable '@" +:+ name +:+ "' was passed on CLI but is not used in the pipeline".

Definition missing_vars (declared : gset string) (vars : Vars) : list string :=
  List.filter (fun name => negb (bool_decide (is_Some (vars !! name)))) (elements declared).

Definition ApplyVariables (config : PipelineConfig) (vars : Vars)
    : result PipelineError (PipelineConfig * list string) :=
  let declared := collectDeclaredVars config in
  if (size declared =? 0)%nat && (size vars =? 0)%nat then Ok (config, [])
  else
    let missing := missing_vars declared vars in
    fail_if (0 <? length missing)%nat with VariablesMissing (str_sort (map (String "@") missing)) ;;
    let unused := List.filter (fun name => negb (bool_decide (name ∈ declared))) (map fst (range_entries vars)) in
    Ok (MkPipelineConfig (pl_Name config) (pl_Version config) (substituteYAML (pl_Description config) vars)
          (map (fun src => MkSourceConfig (so_Name src) (substituteSQL (so_Query src) vars)
                             (substituteYAML (so_DSN src) vars)) (pl_Sources config))
          (substituteSQL (pl_TransformSQL config) vars)
          (applyOutputVars vars (pl_Output config)),
        str_sort (map unused_warning unused)).
End Apply.

(** [UsedVariables]; a nil map is the empty one. *)
Definition UsedVariables (config : PipelineConfig) (vars : Vars) : Vars :=
  filter (fun kv => kv.1 ∈ collectDeclaredVars config) vars.

(** ** pipeline.go *)

Definition buildPipelineContext (name version : string) (vars : Vars) : PipelineContext :=
  MkPipelineContext (MkPipelineInfo name version)
    (map (fun k => MkPipelineVar k (default "" (vars !! k))) (str_sort (map fst (map_to_list vars)))).

Fixpoint validate_sources `{GoCase} (v : SQLValidator) (i : nat) (sources : list SourceConfig)
    : result PipelineError () :=
  match sources with
  | [] => Ok ()
  | src :: rest =>
      if String.eqb (so_Query src) "" then validate_sources v (S i) rest
      else
        match sql_Validate v (so_Query src) with
        | Err e => Err (SourceInvalid i (so_Name src) e)
        | Ok _ => validate_sources v (S i) rest
        end
  end.
Definition validatePipelineSQL `{GoCase} (config : PipelineConfig) (v : SQLValidator) : result PipelineError () :=
  _ ← validate_sources v 0 (pl_Sources config);
  match sql_Validate v (pl_TransformSQL config) with
  | Err e => Err (TransformInvalid e)
  | Ok _ => Ok ()
  end.

(** The steps 2b to 4 of [ExecutePipeline]: the configuration that will run, and the context put into its
    packets. *)
Definition preparePipeline `{GoCase} `{GoRange} (config : PipelineConfig) (vars : Vars) (unsafe : bool)
    : result PipelineError (PipelineConfig * option PipelineContext) :=
  '(config, ctx) ←
    (if (0 <? size vars)%nat then
       '(config, _) ← ApplyVariables config vars;
       let usedVars := UsedVariables config vars in
       Ok (config, if (0 <? size usedVars)%nat || negb (String.eqb (pl_Name config) "")
                   then Some (buildPipelineContext (pl_Name config) (pl_Version config) usedVars) else None)
     else
       Ok (config, if negb (String.eqb (pl_Name config) "")
                   then Some (buildPipelineContext (pl_Name config) (pl_Version config) ∅) else None));
  _ ← validatePipelineSQL config (NewSQLValidator (negb unsafe));
  Ok (config, ctx).

(** ** Lemmas: the safe mode *)

Lemma check_keywords_ok (sql : string) (keywords : list string) (k : string) :
  check_keywords sql keywords = Ok () -> k ∈ keywords ->
  (forall p, p ∈ keyword_patterns k -> Contains sql p = false) /\ EndsWith sql (" " +:+ k) = false.
Proof.
  induction keywords as [|k' keywords IH]; [set_solver|]; cbn [check_keywords]. unfold check_.
  destruct (existsb (Contains sql) (keyword_patterns k')) eqn:E1; [done|].
  destruct (EndsWith sql (" " +:+ k')) eqn:E2; [done|]. intros Hc [->|Hk]%elem_of_cons; [|by apply IH].
  split; [|done]. intros p Hp. apply not_true_iff_false. intros Hcon.
  apply not_true_iff_false in E1. apply E1, existsb_exists. exists p. split; [by apply list_elem_of_In|done].
Qed.

(** Where a word that is not the first stands in the joined text. *)
Lemma Join_word (w0 w : string) (l1 l2 : list string) :
  exists pre post, Join (w0 :: l1 ++ w :: l2) " " = pre +:+ " " +:+ w +:+ post
    /\ (post = "" \/ exists r, post = " " +:+ r).
Proof.
  exists (Join (w0 :: l1) " "). change (w0 :: l1 ++ w :: l2) with ((w0 :: l1) ++ w :: l2).
  rewrite Join_app by done. destruct l2 as [|y l2].
  - exists "". split; [by rewrite (str_app_nil_r w)|by left].
  - exists (" " +:+ Join (y :: l2) " "). rewrite (Join_cons w) by done. split; [done|]. right. by eexists.
Qed.

(** A word that is a forbidden keyword, or calls or ends with one, is found. *)
Definition is_keyword_use (k w : string) : Prop :=
  w = k \/ HasPrefix w (k +:+ "(") = true \/ HasPrefix w (k +:+ ";") = true.

Lemma later_word_found (k w0 w : string) (l1 l2 : list string) (sql := Join (w0 :: l1 ++ w :: l2) " ") :
  is_keyword_use k w ->
  (exists p, p ∈ keyword_patterns k /\ Contains sql p = true) \/ EndsWith sql (" " +:+ k) = true.
Proof.
  destruct (Join_word w0 w l1 l2) as (pre & post & E & Hpost). unfold sql. rewrite E.
  intros [->|[[r ->]%HasPrefix_inv|[r ->]%HasPrefix_inv]].
  - destruct Hpost as [->|[r ->]].
    + right. rewrite str_app_nil_r. apply EndsWith_app.
    + left. exists (" " +:+ k +:+ " "). split; [by left|].
      pose proof (Contains_app pre (" " +:+ k +:+ " ") r) as Hc. by rewrite !str_app_assoc in Hc.
  - left. exists (" " +:+ k +:+ "("). split; [by right; right; left|].
    pose proof (Contains_app pre (" " +:+ k +:+ "(") (r +:+ post)) as Hc. by rewrite !str_app_assoc in *.
  - left. exists (" " +:+ k +:+ ";"). split; [by right; left|].
    pose proof (Contains_app pre (" " +:+ k +:+ ";") (r +:+ post)) as Hc. by rewrite !str_app_assoc in *.
Qed.

(** No forbidden keyword begins like the words a query may begin with. *)
Lemma keyword_first_byte (k w : string) :
  k ∈ forbidden -> HasPrefix w "SELECT" = true \/ HasPrefix w "WITH" = true -> ~ is_keyword_use k w.
Proof.
  intros Hk Hw Hu. assert (HasPrefix w k = true) as Hp.
  { destruct Hu as [->|[[r ->]%HasPrefix_inv|[r ->]%HasPrefix_inv]]; rewrite ?str_app_assoc; try apply HasPrefix_app.
    rewrite <- (str_app_nil_r k) at 1. apply HasPrefix_app. }
  assert (forallb (fun k => match k with String c _ => negb (Ascii.eqb c "S") && negb (Ascii.eqb c "W") | "" => false end)
    forbidden = true) as Hall by reflexivity.
  rewrite forallb_forall in Hall. apply list_elem_of_In in Hk. specialize (Hall k Hk).
  destruct k as [|c k]; [done|]. apply HasPrefix_inv in Hp as [r ->].
  destruct Hw as [Hw|Hw]; cbn [String.append HasPrefix] in Hw; go_bool; congruence.
Qed.

(** What the safe mode promises of a text. *)
Record guarded `{GoCase} (sql : string) : Prop := {
  gu_query : exists w ws, Fields (ToUpper sql) = w :: ws /\ (HasPrefix w "SELECT" = true \/ HasPrefix w "WITH" = true);
  gu_words : forall k w, k ∈ forbidden -> w ∈ Fields (ToUpper sql) -> ~ is_keyword_use k w;
  gu_single : Count sql ";" = 0 \/ (Count sql ";" = 1 /\ EndsWith (TrimSpace sql) ";" = true);
  gu_comments : Contains sql "--" = false /\ Contains sql "/*" = false /\ Contains sql "*/" = false;
}.

Lemma normalized_first `{GoCase} (sql p : string) :
  HasPrefix (normalized sql) p = true -> p <> "" -> has_byte " " p = false ->
  exists w ws, Fields (ToUpper sql) = w :: ws /\ HasPrefix w p = true.
Proof.
  unfold normalized. intros Hp Hne Hs. destruct (Fields (ToUpper sql)) as [|w ws].
  { destruct p; [done|]. discriminate Hp. }
  exists w, ws. split; [done|]. destruct ws as [|y ws]; [exact Hp|].
  rewrite Join_cons in Hp by done. by apply (HasPrefix_before " " w (Join (y :: ws) " ") p Hs).
Qed.

Lemma sql_Validate_guarded `{GoCase} (sql : string) :
  sql_Validate (NewSQLValidator true) sql = Ok () -> guarded sql.
Proof.
  unfold sql_Validate. cbn [NewSQLValidator safeMode negb]. unfold check_ at 1.
  destruct (negb (HasPrefix (normalized sql) "SELECT") && negb (HasPrefix (normalized sql) "WITH")) eqn:Eq; [done|].
  destruct (checkForbiddenKeywords (normalized sql)) as [[]|] eqn:Ek; [|done]. cbn.
  destruct (checkMultipleStatements sql) as [[]|] eqn:Em; [|done]. cbn. intros Ec.
  assert (exists w ws, Fields (ToUpper sql) = w :: ws /\ (HasPrefix w "SELECT" = true \/ HasPrefix w "WITH" = true)) as Hq.
  { apply andb_false_iff in Eq as [Eq|Eq]; go_bool; apply normalized_first in Eq as (w & ws & E & Hw); try done; eauto. }
  split; [done| | |].
  - destruct Hq as (w0 & ws & E & Hw0). intros k w Hk Hw Hu. rewrite E in Hw. apply elem_of_cons in Hw as [->|Hw].
    { by apply (keyword_first_byte k w0). }
    apply list_elem_of_split in Hw as (l1 & l2 & ->).
    destruct (check_keywords_ok _ _ _ Ek Hk) as [Hn He]. unfold normalized in Hn, He. rewrite E in Hn, He.
    destruct (later_word_found k w0 w l1 l2 Hu) as [(p & Hp & Hc)|Hc]; [by rewrite Hn in Hc|by rewrite He in Hc].
  - unfold checkMultipleStatements, check_ in Em. destruct (Nat.ltb_spec 1 (Count sql ";")); [done|].
    destruct (Nat.eqb_spec (Count sql ";") 1) as [E1|E1]; [|left; lia]. right. split; [done|].
    destruct (EndsWith (TrimSpace sql) ";"); [done|]. discriminate Em.
  - unfold checkComments, check_ in Ec. destruct (Contains sql "--"); [done|].
    destruct (Contains sql "/*"), (Contains sql "*/"); done.
Qed.

(** ** Lemmas: scanning *)

Definition consumes (m : matcher) : Prop :=
  forall s w r, m s = Some (w, r) -> String.length r < String.length s.

Lemma reSQLVar_consumes : consumes reSQLVar.
Proof.
  intros s w r. unfold reSQLVar. destruct (strip_prefix "@" s) as [s'|] eqn:E; [|done].
  apply strip_prefix_eq in E as ->. destruct (span_word s') as [w' r'] eqn:E. apply span_bytes_eq in E as ->.
  destruct (String.eqb_spec w' ""); [done|]. intros [= <- <-]. simpl. rewrite str_length_app. lia.
Qed.

Lemma enclosed_consumes (opening closing : string) : consumes (enclosed opening closing).
Proof.
  intros s w r. unfold enclosed. destruct (strip_prefix opening s) as [s'|] eqn:E; [|done].
  apply strip_prefix_eq in E as ->. destruct (span_word s') as [w' r'] eqn:E. apply span_bytes_eq in E as ->.
  destruct (String.eqb_spec w' "") as [|Hw]; [done|]. destruct (strip_prefix closing r') as [r2|] eqn:E2; [|done].
  apply strip_prefix_eq in E2 as ->. intros [= <- <-]. rewrite !str_length_app. destruct w'; [done|]. simpl. lia.
Qed.
#[export] Hint Resolve reSQLVar_consumes enclosed_consumes : go.

Section Scan.
  Context (m : matcher) (Hm : consumes m).

Lemma scan_fuel_enough (n1 n2 : nat) (s : string) :
  String.length s <= n1 -> String.length s <= n2 -> scan_fuel m n1 s = scan_fuel m n2 s.
Proof.
  revert n2 s; induction n1 as [|n1 IH]; intros n2 s H1 H2; destruct s as [|c s]; simpl in *; try lia;
    try (by destruct n2). destruct n2 as [|n2]; [lia|]. simpl.
  destruct (m (String c s)) as [[w r]|] eqn:E; f_equal; apply IH; try lia; apply Hm in E; simpl in E; lia.
Qed.

Lemma scan_match (s w r : string) : m s = Some (w, r) -> scan m s = Var w :: scan m r.
Proof.
  intros E. pose proof (Hm _ _ _ E) as Hl. unfold scan. destruct s as [|c s]; simpl in *; [lia|]. rewrite E. f_equal.
  apply scan_fuel_enough; lia.
Qed.

Lemma scan_skip (c : ascii) (s : string) : m (String c s) = None -> scan m (String c s) = Lit c :: scan m s.
Proof. intros E. unfold scan. simpl. by rewrite E. Qed.

(** A text in which nothing matches is scanned byte by byte. *)
Lemma scan_text (t rest : string) (f : string -> string) :
  (forall a c b, t = a +:+ String c b -> m (String c (b +:+ rest)) = None) ->
  render f (scan m (t +:+ rest)) = t +:+ render f (scan m rest)
  /\ piece_names (scan m (t +:+ rest)) = piece_names (scan m rest).
Proof.
  induction t as [|c t IH]; intros Ht; [done|]. cbn [String.append].
  rewrite scan_skip by (by apply (Ht "" c t)). destruct IH as [IH1 IH2]; [|by rewrite <- IH2; cbn [render]; rewrite IH1].
  intros a c' b ->. by apply (Ht (String c a) c' b).
Qed.
End Scan.

(** ** Templates

    A text as a sequence of plain parts and parameters. *)

Inductive segment := Text (t : string) | Quoted (name : string) | Bare (name : string).

Definition good_name (n : string) : bool := negb (String.eqb n "") && all_bytes is_word_byte n.
Definition starts_word (s : string) : bool := match s with String c _ => is_word_byte c | "" => false end.

Fixpoint sql_text (segs : list segment) : string :=
  match segs with
  | [] => ""
  | Text t :: rest => t +:+ sql_text rest
  | Quoted n :: rest => "'@" +:+ n +:+ "'" +:+ sql_text rest
  | Bare n :: rest => "@" +:+ n +:+ sql_text rest
  end.

(** Plain parts have no [@], nor a quote that would make the bare parameter after them a quoted one; a
    bare parameter ends where its name does. *)
Fixpoint good_template (segs : list segment) : bool :=
  match segs with
  | [] => true
  | Text t :: rest =>
      negb (has_byte "@" t) && negb (EndsWith t "'" && HasPrefix (sql_text rest) "@") && good_template rest
  | Quoted n :: rest => good_name n && good_template rest
  | Bare n :: rest => good_name n && negb (starts_word (sql_text rest)) && good_template rest
  end.

(** The literal written for a value, and the text meant for a template. *)
Definition sql_literal (val : string) : string := "'" +:+ replace_byte SQUOTE "''" val +:+ "'".
Fixpoint fill (vars : Vars) (segs : list segment) : string :=
  match segs with
  | [] => ""
  | Text t :: rest => t +:+ fill vars rest
  | Quoted n :: rest => sql_literal (default "" (vars !! n)) +:+ fill vars rest
  | Bare n :: rest => default "" (vars !! n) +:+ fill vars rest
  end.
Definition segment_names (segs : list segment) : list string :=
  omap (fun g => match g with Text _ => None | Quoted n | Bare n => Some n end) segs.

Lemma span_word_name (n r : string) :
  all_bytes is_word_byte n = true -> starts_word r = false -> span_word (n +:+ r) = (n, r).
Proof. intros Hn Hr. apply span_bytes_app; [done|]. by destruct r. Qed.

Lemma reSQLVar_name (n r : string) :
  good_name n = true -> starts_word r = false -> reSQLVar ("@" +:+ n +:+ r) = Some (n, r).
Proof.
  unfold good_name, reSQLVar. intros Hn Hr. go_bool. rewrite strip_prefix_app, span_word_name by done.
  by rewrite (proj2 (String.eqb_neq n "")).
Qed.

Lemma reSQLVar_none (c : ascii) (s : string) : c <> "@"%char -> reSQLVar (String c s) = None.
Proof. intros Hc. unfold reSQLVar. cbn [strip_prefix]. by rewrite (proj2 (Ascii.eqb_neq "@" c)). Qed.

Lemma enclosed_name (opening closing n r : string) :
  good_name n = true -> starts_word closing = false -> closing <> "" ->
  enclosed opening closing (opening +:+ n +:+ closing +:+ r) = Some (n, r).
Proof.
  unfold good_name, enclosed. intros Hn Hc Hne. go_bool. rewrite strip_prefix_app.
  rewrite span_word_name by (done || by destruct closing). rewrite (proj2 (String.eqb_neq n "")) by done.
  by rewrite strip_prefix_app.
Qed.

Lemma enclosed_none (o : ascii) (opening closing : string) (c : ascii) (s : string) :
  c <> o -> enclosed (String o opening) closing (String c s) = None.
Proof. intros Hc. unfold enclosed. cbn [strip_prefix]. by rewrite (proj2 (Ascii.eqb_neq o c)). Qed.

(** A quote that is not followed by [@] opens no quoted parameter. *)
Lemma quoted_none (s : string) : HasPrefix s "@" = false -> reSQLStringVar (String "'" s) = None.
Proof.
  intros Hs. unfold reSQLStringVar, enclosed. destruct s as [|c s]; [done|]. change "@" with (chr "@") in Hs.
  rewrite HasPrefix_chr in Hs. cbn [strip_prefix]. by rewrite Ascii.eqb_refl, Hs.
Qed.

Lemma text_no_quoted (t rest : string) :
  has_byte "@" t = false -> EndsWith t "'" && HasPrefix rest "@" = false ->
  forall a c b, t = a +:+ String c b -> reSQLStringVar (String c (b +:+ rest)) = None.
Proof.
  intros Ht He a c b ->. destruct (decide (c = "'"%char)) as [->|Hc]; [|by apply enclosed_none].
  apply quoted_none. destruct b as [|d b].
  - cbn [String.append]. change (String "'" "") with "'" in He. by rewrite EndsWith_app in He.
  - rewrite has_byte_app in Ht. cbn [String.append has_byte] in *. apply orb_false_iff in Ht as [_ Ht]. go_bool.
    change "@" with (chr "@"). rewrite HasPrefix_chr. apply Ascii.eqb_neq. congruence.
Qed.

Lemma name_no_quoted (n rest : string) :
  good_name n = true ->
  forall a c b, "@" +:+ n = a +:+ String c b -> reSQLStringVar (String c (b +:+ rest)) = None.
Proof.
  unfold good_name. intros Hn a c b E. apply enclosed_none. intros ->. go_bool.
  assert (has_byte "'" ("@" +:+ n) = false) as Hq
    by (cbn; by apply (all_bytes_has_byte is_word_byte)).
  rewrite E, has_byte_app in Hq. cbn [has_byte] in Hq. by rewrite Ascii.eqb_refl, orb_true_r in Hq.
Qed.

Section Fill.
  Context (vars : Vars).

(** After the first pass the quoted parameters are plain text. *)
Definition quote_values (segs : list segment) : list segment :=
  map (fun g => match g with Quoted n => Text (sql_literal (default "" (vars !! n))) | g => g end) segs.

Definition named (segs : list segment) : Prop := Forall (fun n => is_Some (vars !! n)) (segment_names segs).

Lemma first_pass (segs : list segment) :
  good_template segs = true -> named segs ->
  ReplaceAllStringFunc reSQLStringVar (sql_text segs) (fun name =>
    match vars !! name with Some val => sql_literal val | None => "'@" +:+ name +:+ "'" end)
  = sql_text (quote_values segs).
Proof.
  unfold ReplaceAllStringFunc, named. induction segs as [|g segs IH]; intros Hg Hn; [done|].
  destruct g as [t|n|n]; cbn [sql_text good_template segment_names omap list_omap quote_values map] in *; go_bool.
  - destruct (scan_text reSQLStringVar t (sql_text segs) (fun name =>
      match vars !! name with Some val => sql_literal val | None => "'@" +:+ name +:+ "'" end)) as [-> _];
      [by apply text_no_quoted|]. by rewrite IH.
  - rewrite (scan_match reSQLStringVar (enclosed_consumes _ _) _ n (sql_text segs)) by (by apply enclosed_name).
    apply Forall_cons in Hn as [[v Hv] Hn]. cbn [render]. rewrite Hv, IH by done. done.
  - apply Forall_cons in Hn as [_ Hn]. rewrite <- str_app_assoc.
    destruct (scan_text reSQLStringVar ("@" +:+ n) (sql_text segs) (fun name =>
      match vars !! name with Some val => sql_literal val | None => "'@" +:+ name +:+ "'" end)) as [-> _];
      [by apply name_no_quoted|]. rewrite IH by done. by rewrite str_app_assoc.
Qed.

Lemma starts_word_app (a b c : string) : starts_word b = starts_word c -> starts_word (a +:+ b) = starts_word (a +:+ c).
Proof. by destruct a. Qed.

Lemma quote_values_starts (segs : list segment) :
  starts_word (sql_text (quote_values segs)) = starts_word (sql_text segs).
Proof. induction segs as [|[t|n|n] segs IH]; cbn; try done. by apply starts_word_app. Qed.

(** The values have no [@]. *)
Definition plain_values (segs : list segment) : Prop :=
  Forall (fun n => has_byte "@" (default "" (vars !! n)) = false) (segment_names segs).

Lemma sql_literal_plain (v : string) : has_byte "@" v = false -> has_byte "@" (sql_literal v) = false.
Proof.
  unfold sql_literal. intros Hv. rewrite !has_byte_app. cbn. rewrite orb_false_r.
  induction v as [|c v IH]; [done|]. cbn [replace_byte has_byte] in *. apply orb_false_iff in Hv as [Hc Hv].
  rewrite has_byte_app, IH by done. rewrite orb_false_r. destruct (Ascii.eqb c SQUOTE); [done|]. cbn. by rewrite Hc.
Qed.

Lemma text_no_var (t rest : string) :
  has_byte "@" t = false -> forall a c b, t = a +:+ String c b -> reSQLVar (String c (b +:+ rest)) = None.
Proof.
  intros Ht a c b ->. apply reSQLVar_none. intros ->. rewrite has_byte_app in Ht. cbn [has_byte] in Ht.
  by rewrite Ascii.eqb_refl, orb_true_r in Ht.
Qed.

Lemma second_pass (segs : list segment) :
  good_template segs = true -> named segs -> plain_values segs ->
  ReplaceAllStringFunc reSQLVar (sql_text (quote_values segs)) (fun name =>
    match vars !! name with Some val => val | None => "@" +:+ name end)
  = fill vars segs.
Proof.
  unfold ReplaceAllStringFunc, named, plain_values. induction segs as [|g segs IH]; intros Hg Hn Hp; [done|].
  set (f := fun name => match vars !! name with Some val => val | None => "@" +:+ name end) in *.
  destruct g as [t|n|n];
    cbn [sql_text good_template segment_names omap list_omap quote_values map fill] in *; go_bool.
  - destruct (scan_text reSQLVar t (sql_text (quote_values segs)) f) as [E _]; [by apply text_no_var|].
    unfold quote_values in *. rewrite E. by rewrite IH.
  - apply Forall_cons in Hn as [_ Hn], Hp as [Hp1 Hp].
    destruct (scan_text reSQLVar (sql_literal (default "" (vars !! n))) (sql_text (quote_values segs)) f) as [E _];
      [by apply text_no_var, sql_literal_plain|]. unfold quote_values in *. rewrite E. by rewrite IH.
  - apply Forall_cons in Hn as [[v Hv] Hn], Hp as [_ Hp].
    rewrite (scan_match reSQLVar reSQLVar_consumes _ n (sql_text (quote_values segs)))
      by (apply reSQLVar_name; [done|by rewrite quote_values_starts]).
    cbn [render]. unfold f at 1. rewrite Hv. cbn. by rewrite IH.
Qed.

(** Substitution fills a template. *)
Lemma substituteSQL_fill (segs : list segment) :
  good_template segs = true -> named segs -> plain_values segs ->
  substituteSQL (sql_text segs) vars = fill vars segs.
Proof.
  intros Hg Hn Hp. unfold substituteSQL. destruct (String.eqb_spec (sql_text segs) "") as [E|_].
  - rewrite E. pose proof (second_pass segs Hg Hn Hp) as H2. pose proof (first_pass segs Hg Hn) as H1.
    rewrite E in H1. cbn in H1. rewrite <- H1 in H2. done.
  - pose proof (first_pass segs Hg Hn) as H1. unfold sql_literal in H1. by rewrite H1, second_pass.
Qed.

Lemma fill_plain (segs : list segment) :
  good_template segs = true -> plain_values segs -> has_byte "@" (fill vars segs) = false.
Proof.
  unfold plain_values. induction segs as [|g segs IH]; intros Hg Hp; [done|].
  destruct g as [t|n|n]; cbn [good_template segment_names omap list_omap fill] in *; go_bool; rewrite has_byte_app;
    apply orb_false_iff; try apply Forall_cons in Hp as [Hp1 Hp]; split; auto using sql_literal_plain.
Qed.

Lemma fill_app (segs segs' : list segment) : fill vars (segs ++ segs') = fill vars segs +:+ fill vars segs'.
Proof. induction segs as [|[t|n|n] segs IH]; cbn; [done|..]; rewrite IH; by rewrite ?str_app_assoc. Qed.
End Fill.

(** A literal is read back as the value it was written for. *)
Lemma sql_literal_reads (v rest : string) :
  HasPrefix rest "'" = false ->
  exists t, sql_literal v +:+ rest = String SQUOTE t /\ read_quoted SQUOTE t = Some (v, rest).
Proof.
  intros Hr. exists (replace_byte SQUOTE "''" v +:+ String SQUOTE rest). split; [|by apply read_quoted_escaped].
  unfold sql_literal. by rewrite !str_app_assoc.
Qed.

(** A text without the mark has no parameters. *)
Lemma no_mark_no_names (s : string) : has_byte "@" s = false -> piece_names (scan reSQLVar s) = [].
Proof.
  intros Hs. destruct (scan_text reSQLVar s "" id) as [_ E]; [by apply text_no_var|].
  by rewrite str_app_nil_r in E.
Qed.

Lemma no_brace_no_match (c : ascii) (s : string) : c <> "{"%char -> reYAMLVar (String c s) = None.
Proof. apply enclosed_none. Qed.

Lemma no_brace_no_names (s : string) :
  has_byte "{" s = false -> piece_names (scan reYAMLVar s) = [] /\ forall vars, substituteYAML s vars = s.
Proof.
  intros Hs. assert (forall a c b, s = a +:+ String c b -> reYAMLVar (String c (b +:+ "")) = None) as Hm.
  { intros a c b ->. apply no_brace_no_match. intros ->. rewrite has_byte_app in Hs. cbn [has_byte] in Hs.
    by rewrite Ascii.eqb_refl, orb_true_r in Hs. }
  split.
  - destruct (scan_text reYAMLVar s "" id Hm) as [_ E]. by rewrite str_app_nil_r in E.
  - intros vars. unfold substituteYAML. destruct (String.eqb s ""); [done|].
    pose proof (scan_text reYAMLVar s "" (fun name =>
      match vars !! name with Some val => val | None => "{{" +:+ name +:+ "}}" end) Hm) as [E _].
    by rewrite !str_app_nil_r in E.
Qed.

(** ** Lemmas: the configuration *)

Lemma str_sort_elem (l : list string) (x : string) : x ∈ str_sort l <-> x ∈ l.
Proof. unfold str_sort. by rewrite (SliceStable_perm str_ltb l). Qed.

Lemma filter_bool_elem {A} (f : A -> bool) (l : list A) (x : A) : x ∈ List.filter f l <-> f x = true /\ x ∈ l.
Proof. rewrite !list_elem_of_In, filter_In. tauto. Qed.

Section Prepare.
  Context `{GoCase} `{GoRange}.

(** The texts of a configuration that are run as SQL. *)
Definition run_sql (config : PipelineConfig) : list string :=
  List.filter (fun q => negb (String.eqb q "")) (map so_Query (pl_Sources config)) ++ [pl_TransformSQL config].

Lemma validate_sources_ok (v : SQLValidator) (i : nat) (sources : list SourceConfig) :
  validate_sources v i sources = Ok () <->
  Forall (fun q => sql_Validate v q = Ok ()) (List.filter (fun q => negb (String.eqb q "")) (map so_Query sources)).
Proof.
  revert i; induction sources as [|src sources IH]; intros i; cbn [validate_sources map List.filter]; [done|].
  destruct (String.eqb (so_Query src) ""); cbn [negb]; [apply IH|]. rewrite Forall_cons, <- (IH (S i)).
  destruct (sql_Validate v (so_Query src)) as [[]|]; [tauto|]. split; [done|]. by intros [? _].
Qed.

Lemma validatePipelineSQL_ok (config : PipelineConfig) (v : SQLValidator) :
  validatePipelineSQL config v = Ok () <-> Forall (fun q => sql_Validate v q = Ok ()) (run_sql config).
Proof.
  unfold validatePipelineSQL, run_sql. rewrite Forall_app, Forall_singleton, <- (validate_sources_ok v 0).
  destruct (validate_sources v 0 (pl_Sources config)) as [[]|]; cbn; [|split; [done|by intros [? _]]].
  destruct (sql_Validate v (pl_TransformSQL config)) as [[]|]; [done|]. split; [done|by intros [_ ?]].
Qed.

(** A configuration that runs has passed the check, after the substitution. *)
Lemma preparePipeline_ok (config config' : PipelineConfig) (vars : Vars) (unsafe : bool) (ctx : option PipelineContext) :
  preparePipeline config vars unsafe = Ok (config', ctx) ->
  validatePipelineSQL config' (NewSQLValidator (negb unsafe)) = Ok ()
  /\ (vars = ∅ /\ config' = config \/ vars <> ∅ /\ exists ws, ApplyVariables config vars = Ok (config', ws)).
Proof.
  unfold preparePipeline. destruct (Nat.ltb_spec 0 (size vars)) as [Hs|Hs].
  - destruct (ApplyVariables config vars) as [[c ws]|] eqn:E; cbn; [|done].
    destruct (validatePipelineSQL c _) as [[]|] eqn:Ev; cbn; [|done]. intros [= <- _]. split; [done|].
    right. split; [|by eexists]. intros ->. rewrite map_size_empty in Hs. lia.
  - cbn. destruct (validatePipelineSQL config _) as [[]|] eqn:Ev; cbn; [|done]. intros [= <- _]. split; [done|].
    left. split; [|done]. apply map_size_empty_iff. lia.
Qed.

Lemma missing_vars_elem (declared : gset string) (vars : Vars) (n : string) :
  n ∈ missing_vars declared vars <-> n ∈ declared /\ vars !! n = None.
Proof.
  unfold missing_vars. rewrite filter_bool_elem, negb_true_iff, bool_decide_eq_false, elem_of_elements.
  rewrite eq_None_not_Some. tauto.
Qed.

Lemma missing_vars_nil (declared : gset string) (vars : Vars) :
  missing_vars declared vars = [] <-> forall n, n ∈ declared -> is_Some (vars !! n).
Proof.
  split; intros Hm.
  - intros n Hn. apply not_eq_None_Some. intros Hno.
    assert (n ∈ missing_vars declared vars) as Hin by (by apply missing_vars_elem). rewrite Hm in Hin. set_solver.
  - destruct (missing_vars declared vars) as [|n l] eqn:E; [done|].
    assert (n ∈ missing_vars declared vars) as Hin by (rewrite E; set_solver).
    apply missing_vars_elem in Hin as [Hd Hno]. destruct (Hm n Hd). congruence.
Qed.

Lemma ApplyVariables_ok (config : PipelineConfig) (vars : Vars) config' ws :
  ApplyVariables config vars = Ok (config', ws) -> forall n, n ∈ collectDeclaredVars config -> is_Some (vars !! n).
Proof.
  unfold ApplyVariables, check_. intros HA n Hn. destruct (Nat.eqb_spec (size (collectDeclaredVars config)) 0) as [E|E].
  { apply size_empty_inv in E. set_solver. }
  cbn [andb] in HA. destruct (Nat.ltb_spec 0 (length (missing_vars (collectDeclaredVars config) vars))) as [Hl|Hl]; [done|].
  revert n Hn. apply missing_vars_nil, length_zero_iff_nil. lia.
Qed.
Lemma ApplyVariables_warnings `{!GoRangeLaws _} (config : PipelineConfig) (vars : Vars) config' ws :
  ApplyVariables config vars = Ok (config', ws) ->
  forall w, w ∈ ws <-> exists n, w = unused_warning n /\ is_Some (vars !! n) /\ n ∉ collectDeclaredVars config.
Proof.
  unfold ApplyVariables, check_. intros HA w. destruct (_ && _) eqn:E; cbn [andb] in HA.
  - injection HA as <- <-. go_bool. apply map_size_empty_iff in H2 as ->.
    split; [set_solver|]. intros (n & _ & [? Hn] & _). by rewrite lookup_empty in Hn.
  - destruct (0 <? length _)%nat; [done|]. injection HA as _ <-. rewrite str_sort_elem, list_elem_of_fmap.
    apply exist_proper. intros n. rewrite filter_bool_elem, negb_true_iff, bool_decide_eq_false, range_keys. tauto.
Qed.
End Prepare.

(** The argument that gives [n] the value [v]. *)
Definition var_arg (n v : string) : string :=
  "@" +:+ n +:+ "=" +:+ chr DQUOTE +:+ v +:+ chr DQUOTE.

Lemma unquote_quoted (v : string) : unquote (chr DQUOTE +:+ v +:+ chr DQUOTE) = v.
Proof.
  unfold unquote. rewrite HasPrefix_app, <- str_app_assoc, EndsWith_app, !str_length_app. cbn [String.length chr].
  replace (2 <=? _) with true by (symmetry; apply Nat.leb_le; lia). cbn [andb].
  rewrite str_app_assoc. cbn [chr String.append drop_bytes]. rewrite str_rev_app. cbn [str_rev String.append drop_bytes].
  apply str_rev_involutive.
Qed.

Lemma parse_var_print (n v : string) :
  n <> "" -> has_byte "=" n = false -> parse_var (var_arg n v) = Some (n, v).
Proof.
  intros Hn He. unfold parse_var, var_arg. rewrite strip_prefix_app.
  assert (forall r, cut_at "=" (n +:+ "=" +:+ r) = Some (n, r)) as ->.
  { intros r. clear Hn. induction n as [|c n IH]; [done|]. cbn [has_byte] in He. apply orb_false_iff in He as [Hc He].
    change (String c n +:+ "=" +:+ r) with (String c (n +:+ "=" +:+ r)). cbn [cut_at]. by rewrite Hc, (IH He). }
  by rewrite (proj2 (String.eqb_neq n "")), unquote_quoted.
Qed.

(** An assignment seen before the others only counts where they say nothing. *)
Lemma add_first (m : Vars) (n v : string) :
  match m !! n with Some _ => m | None => <[n := v]> m end = m ∪ list_to_map [(n, v)].
Proof.
  cbn. apply map_eq. intros k. rewrite lookup_union. destruct (decide (k = n)) as [->|Hk].
  - rewrite lookup_insert_eq. destruct (m !! n) eqn:E; [by rewrite E|by rewrite lookup_insert_eq].
  - rewrite lookup_insert_ne, lookup_empty by done. destruct (m !! n); rewrite ?lookup_insert_ne by done; by destruct (m !! k).
Qed.

(** The parameters of a template are the names found in its text. *)
Lemma template_names (segs : list segment) :
  good_template segs = true -> piece_names (scan reSQLVar (sql_text segs)) = segment_names segs.
Proof.
  induction segs as [|[t|n|n] segs IH]; intros Hg; cbn [sql_text good_template segment_names omap list_omap] in *; go_bool; [done|..].
  - destruct (scan_text reSQLVar t (sql_text segs) id) as [_ ->]; [by apply text_no_var|]. by apply IH.
  - change ("'@" +:+ n +:+ "'" +:+ sql_text segs) with (String "'" ("@" +:+ n +:+ String "'" (sql_text segs))).
    rewrite scan_skip by (by apply reSQLVar_none).
    rewrite (scan_match reSQLVar reSQLVar_consumes _ n (String "'" (sql_text segs))) by (by apply reSQLVar_name).
    rewrite scan_skip by (by apply reSQLVar_none). cbn. f_equal. by apply IH.
  - rewrite (scan_match reSQLVar reSQLVar_consumes _ n (sql_text segs)) by (by apply reSQLVar_name). cbn. f_equal. by apply IH.
Qed.

(** No destination of an output has a brace. *)
Fixpoint no_braces (out : OutputConfig) : bool :=
  from_option (fun d => negb (has_byte "{" d)) true (ou_TDTP out)
  && from_option (fun d => negb (has_byte "{" d)) true (ou_XLSX out)
  && match ou_Fallback out with Some f => no_braces f | None => true end.

Lemma no_brace_dest (vars : Vars) (d : option string) :
  from_option (fun d => negb (has_byte "{" d)) true d = true ->
  from_option (fun d => piece_names (scan reYAMLVar d)) [] ((fun d => substituteYAML d vars) <$> d) = [].
Proof. destruct d as [d|]; [|done]. cbn. intros Hd%negb_true_iff. by destruct (no_brace_no_names d Hd) as [E ->]. Qed.

Lemma no_braces_names (vars : Vars) : forall out, no_braces out = true -> output_names (applyOutputVars vars out) = [].
Proof.
  fix IH 1. intros [t x f] Hb. cbn [no_braces ou_TDTP ou_XLSX ou_Fallback] in Hb.
  apply andb_true_iff in Hb as [[Ht Hx]%andb_true_iff Hf].
  cbn [output_names applyOutputVars ou_TDTP ou_XLSX ou_Fallback]. rewrite !no_brace_dest by done.
  destruct f as [f|]; [by rewrite (IH f)|done].
Qed.

(** The templates of the sources of a configuration and of its transformation. *)
Record sql_templates (config : PipelineConfig) (queries : list (list segment)) (transform : list segment) : Prop := {
  sc_queries : map so_Query (pl_Sources config) = map sql_text queries;
  sc_transform : pl_TransformSQL config = sql_text transform;
  sc_good : Forall (fun segs => good_template segs = true) (transform :: queries);
}.
(** A configuration whose parameters all stand in its SQL. *)
Record sql_config (config : PipelineConfig) (queries : list (list segment)) (transform : list segment) : Prop := {
  sc_templates :> sql_templates config queries transform;
  sc_description : has_byte "{" (pl_Description config) = false;
  sc_dsn : Forall (fun src => has_byte "{" (so_DSN src) = false) (pl_Sources config);
  sc_output : no_braces (pl_Output config) = true;
}.

Lemma sql_templates_names config queries transform segs :
  sql_templates config queries transform -> segs ∈ transform :: queries ->
  forall n, n ∈ segment_names segs -> n ∈ collectDeclaredVars config.
Proof.
  intros Hc Hs n Hn. pose proof (sc_good _ _ _ Hc) as Hg. rewrite Forall_forall in Hg. specialize (Hg segs Hs).
  rewrite <- template_names in Hn by done. unfold collectDeclaredVars. rewrite elem_of_list_to_set, !elem_of_app.
  apply elem_of_cons in Hs as [->|Hs]; [right; left; by rewrite (sc_transform _ _ _ Hc)|]. left.
  assert (sql_text segs ∈ map so_Query (pl_Sources config)) as Hq
    by (rewrite (sc_queries _ _ _ Hc); by apply list_elem_of_fmap_2).
  apply list_elem_of_fmap in Hq as (src & E & Hsrc). apply list_elem_of_In, in_concat. eexists.
  split; [by apply in_map, list_elem_of_In|]. apply in_app_iff. left. rewrite <- E. by apply list_elem_of_In.
Qed.

Section Filled.
  Context `{GoCase} `{GoRange} (config config' : PipelineConfig) (queries : list (list segment)) (transform : list segment).
  Context (vars : Vars) (ws : list string) (Hvars : vars <> ∅) (Hc : sql_templates config queries transform).
  Context (Hplain : forall n v, vars !! n = Some v -> has_byte "@" v = false).
  Context (HA : ApplyVariables config vars = Ok (config', ws)).

Lemma ApplyVariables_config :
  config' = MkPipelineConfig (pl_Name config) (pl_Version config) (substituteYAML (pl_Description config) vars)
    (map (fun src => MkSourceConfig (so_Name src) (substituteSQL (so_Query src) vars)
                       (substituteYAML (so_DSN src) vars)) (pl_Sources config))
    (substituteSQL (pl_TransformSQL config) vars) (applyOutputVars vars (pl_Output config)).
Proof.
  unfold ApplyVariables, check_ in HA. destruct (Nat.eqb_spec (size vars) 0) as [E|E].
  { by apply map_size_empty_iff in E. }
  rewrite andb_false_r in HA. by destruct (0 <? length _)%nat; [|injection HA].
Qed.

Lemma template_filled (segs : list segment) :
  segs ∈ transform :: queries ->
  substituteSQL (sql_text segs) vars = fill vars segs /\ has_byte "@" (fill vars segs) = false.
Proof.
  intros Hs. pose proof (sc_good _ _ _ Hc) as Hg. rewrite Forall_forall in Hg. specialize (Hg segs Hs).
  assert (plain_values vars segs) as Hp.
  { apply Forall_forall. intros n _. destruct (vars !! n) eqn:E; [|done]. by apply (Hplain n). }
  split; [|by apply fill_plain]. apply substituteSQL_fill; try done. apply Forall_forall. intros n Hn.
  apply (ApplyVariables_ok config vars config' ws HA), (sql_templates_names config queries transform segs Hc Hs n Hn).
Qed.

Lemma queries_filled : map so_Query (pl_Sources config') = map (fill vars) queries.
Proof.
  rewrite ApplyVariables_config. cbn [pl_Sources]. rewrite map_map. cbn [so_Query].
  rewrite <- (map_map so_Query (fun q => substituteSQL q vars)), (sc_queries _ _ _ Hc), map_map.
  apply map_ext_in. intros segs Hs. apply template_filled. right. by apply list_elem_of_In.
Qed.

Lemma transform_filled : pl_TransformSQL config' = fill vars transform.
Proof. rewrite ApplyVariables_config. cbn. rewrite (sc_transform _ _ _ Hc). apply template_filled. by left. Qed.

Lemma source_names_after (src : SourceConfig) :
  sql_config config queries transform -> src ∈ pl_Sources config ->
  piece_names (scan reSQLVar (substituteSQL (so_Query src) vars))
    ++ piece_names (scan reYAMLVar (substituteYAML (so_DSN src) vars)) = [].
Proof.
  intros Hcf Hs. pose proof (sc_dsn _ _ _ Hcf) as Hd. rewrite Forall_forall in Hd. specialize (Hd src Hs).
  destruct (no_brace_no_names (so_DSN src) Hd) as [Ed ->]. rewrite Ed, app_nil_r.
  assert (so_Query src ∈ map sql_text queries) as Hq
    by (rewrite <- (sc_queries _ _ _ Hc); by apply list_elem_of_fmap_2).
  apply list_elem_of_fmap in Hq as (segs & -> & Hin). destruct (template_filled segs) as [-> Hm]; [by right|].
  by apply no_mark_no_names.
Qed.

Lemma nothing_declared_after : sql_config config queries transform -> collectDeclaredVars config' = ∅.
Proof.
  intros Hcf. unfold collectDeclaredVars. rewrite transform_filled, (no_mark_no_names (fill vars transform)) by (by apply template_filled; left).
  rewrite ApplyVariables_config. cbn [pl_Description pl_Output pl_Sources].
  rewrite no_braces_names by apply (sc_output _ _ _ Hcf).
  destruct (no_brace_no_names (pl_Description config) (sc_description _ _ _ Hcf)) as [Ed ->]. rewrite Ed. cbn [app].
  rewrite app_nil_r, map_map. cbn [so_Query so_DSN].
  replace (concat _) with (@nil string); [done|]. symmetry. apply concat_nil_Forall, Forall_forall.
  intros l (src & -> & Hs)%list_elem_of_fmap. by apply source_names_after.
Qed.
End Filled.

(** ** Properties *)

(** The names and values given on the command line are the variables: each argument printed from a name
    and a value is read back, the last one given to a name counts, and the other arguments are left over
    in their order. *)
Theorem command_line_variables_roundtrip (args : list (string * string + string)) :
  (forall n v, inl (n, v) ∈ args -> n <> "" /\ has_byte "=" n = false) ->
  (forall a, inr a ∈ args -> parse_var a = None) ->
  ParsePipelineVars (map (fun a => match a with inl (n, v) => var_arg n v | inr a => a end) args)
  = (list_to_map (rev (omap (fun a => match a with inl nv => Some nv | inr _ => None end) args)),
     omap (fun a => match a with inr a => Some a | inl _ => None end) args).
Proof.
  intros Hn Ho. induction args as [|[[n v]|a] args IH]; [done|..]; cbn [map ParsePipelineVars]; rewrite IH by set_solver.
  - destruct (Hn n v) as [Hne He]; [set_solver|]. rewrite parse_var_print by done. f_equal.
    cbn [omap list_omap rev]. rewrite list_to_map_app. apply add_first.
  - by rewrite (Ho a) by set_solver.
Qed.

Lemma command_line_variables_roundtrip_witness :
  ParsePipelineVars ["@dept=" +:+ chr DQUOTE +:+ "97 = 256" +:+ chr DQUOTE; "--verbose"; "@=x"]
  = ({["dept" := "97 = 256"]}, ["--verbose"; "@=x"]).
Proof.
  refine (command_line_variables_roundtrip [inl ("dept", "97 = 256"); inr "--verbose"; inr "@=x"] _ _).
  - intros n v Hn. assert (n = "dept") as -> by set_solver. done.
  - intros a Ha. assert (a = "--verbose" \/ a = "@=x") as [-> | ->] by set_solver; reflexivity.
Defined.

(** Substitution writes what a template means: for a SQL text made of plain parts, of parameters inside
    string literals and of bare parameters, with every parameter given a value that has no [@], the
    result is the text with each bare parameter replaced by its value and each quoted one by a literal;
    and a reader of the literal gets the value back, whatever quotes it has, and goes on with the
    template. *)
Theorem substitution_fills_template (vars : Vars) (segs : list segment) :
  good_template segs = true ->
  (forall n, n ∈ segment_names segs -> exists v, vars !! n = Some v /\ has_byte "@" v = false) ->
  substituteSQL (sql_text segs) vars = fill vars segs
  /\ forall pre n post, segs = pre ++ Quoted n :: post -> HasPrefix (fill vars post) "'" = false ->
     exists v t, vars !! n = Some v /\ substituteSQL (sql_text segs) vars = fill vars pre +:+ String SQUOTE t
       /\ read_quoted SQUOTE t = Some (v, fill vars post).
Proof.
  intros Hg Hv. assert (substituteSQL (sql_text segs) vars = fill vars segs) as E.
  { apply substituteSQL_fill; [done|..]; apply Forall_forall; intros n Hn; destruct (Hv n Hn) as (v & -> & Hp); [by eexists|done]. }
  split; [done|]. intros pre n post -> Hp. rewrite E, fill_app. cbn [fill].
  destruct (Hv n) as (v & -> & _).
  { unfold segment_names. rewrite omap_app. apply elem_of_app. right. by left. }
  destruct (sql_literal_reads v (fill vars post) Hp) as (t & Et & Hr). exists v, t. cbn [default from_option]. by rewrite <- Et.
Qed.

Lemma substitution_fills_template_witness :
  substituteSQL "SELECT * FROM t WHERE name = '@n' AND age > @a" {["n" := "O'Brien' OR 1=1"; "a" := "30"]}
  = "SELECT * FROM t WHERE name = 'O''Brien'' OR 1=1' AND age > 30".
Proof.
  refine (proj1 (substitution_fills_template {["n" := "O'Brien' OR 1=1"; "a" := "30"]}
    [Text "SELECT * FROM t WHERE name = "; Quoted "n"; Text " AND age > "; Bare "a"] eq_refl _)).
  intros m Hm. assert (m = "n" \/ m = "a") as [-> | ->] by set_solver; eexists; split; reflexivity.
Defined.

(** A value may name another variable, and then the other's value is put between the quotes of the
    literal as it is, its own quotes not doubled. *)
Theorem value_of_value_not_escaped (a b v : string) (vars : Vars) :
  good_name a = true -> good_name b = true -> vars !! a = Some ("@" +:+ b) -> vars !! b = Some v ->
  substituteSQL ("'@" +:+ a +:+ "'") vars = "'" +:+ v +:+ "'".
Proof.
  intros Ha Hb Ea Eb. unfold substituteSQL. cbn [String.append String.eqb]. unfold ReplaceAllStringFunc at 2.
  pose proof (enclosed_name "'@" "'" a "" Ha eq_refl ltac:(done)) as Hm.
  rewrite (scan_match reSQLStringVar (enclosed_consumes _ _) _ a "") by exact Hm. cbn [render scan scan_fuel String.length].
  rewrite Ea. assert (has_byte SQUOTE ("@" +:+ b) = false) as Hq.
  { unfold good_name in Hb. go_bool. cbn. by apply (all_bytes_has_byte is_word_byte). }
  rewrite replace_byte_id by done. unfold ReplaceAllStringFunc.
  rewrite str_app_nil_r, str_app_assoc.
  rewrite scan_skip by (by apply reSQLVar_none).
  rewrite (scan_match reSQLVar reSQLVar_consumes _ b "'") by (by apply reSQLVar_name).
  cbn [render]. rewrite Eb. done.
Qed.

Lemma value_of_value_not_escaped_witness :
  substituteSQL "'@a'" {["a" := "@b"; "b" := "x' OR '1'='1"]} = "'x' OR '1'='1'".
Proof. by refine (value_of_value_not_escaped "a" "b" "x' OR '1'='1" _ _ _ _ _). Defined.

(** A configuration is refused exactly when it has a parameter without a value, and the refusal lists
    those parameters; otherwise the warnings list the variables it does not have. *)
Theorem missing_variables_refused `{GoRangeLaws} (config : PipelineConfig) (vars : Vars) :
  match ApplyVariables config vars with
  | Ok (_, warnings) =>
      (forall n, n ∈ collectDeclaredVars config -> is_Some (vars !! n))
      /\ forall w, w ∈ warnings <->
           exists n, w = unused_warning n /\ is_Some (vars !! n) /\ n ∉ collectDeclaredVars config
  | Err e =>
      exists l, e = VariablesMissing l /\ l <> []
        /\ forall a, a ∈ l <-> exists n, a = "@" +:+ n /\ n ∈ collectDeclaredVars config /\ vars !! n = None
  end.
Proof.
  destruct (ApplyVariables config vars) as [[config' ws]|e] eqn:E.
  - split; [by apply (ApplyVariables_ok config vars config' ws)|]. by apply (ApplyVariables_warnings config vars config').
  - unfold ApplyVariables, check_ in E. destruct (_ && _); [done|].
    destruct (Nat.ltb_spec 0 (length (missing_vars (collectDeclaredVars config) vars))) as [Hl|]; [|done].
    injection E as <-. eexists. split; [done|]. split.
    + intros Hn. apply (f_equal length) in Hn. unfold str_sort in Hn. rewrite SliceStable_perm, length_map in Hn. cbn in Hn. lia.
    + intros a. rewrite str_sort_elem, list_elem_of_fmap. by setoid_rewrite missing_vars_elem.
Qed.

(** C27. A pipeline that is let through in the safe mode runs guarded SQL only, whatever its values put into it: its transformation, and
    the query of each source that has one, begins with [SELECT] or [WITH], has at most one semicolon and that at the end, no comment,
    and between its blanks no word that is a forbidden keyword or begins with one followed by a parenthesis or a semicolon.  Where
    variables are given, none of their values has an [@], and the texts are templates, what is run is the templates filled: each quoted
    parameter replaced by the literal of its value, each bare one by the value. *)
Theorem safe_pipeline_runs_guarded_sql `{GoCase} `{GoRange} (config config' : PipelineConfig) (vars : Vars) (ctx : option PipelineContext) :
  preparePipeline config vars false = Ok (config', ctx) ->
  guarded (pl_TransformSQL config')
  /\ Forall (fun src => so_Query src = "" \/ guarded (so_Query src)) (pl_Sources config')
  /\ forall queries transform, sql_templates config queries transform -> vars <> ∅ ->
     (forall n v, vars !! n = Some v -> has_byte "@" v = false) ->
     map so_Query (pl_Sources config') = map (fill vars) queries /\ pl_TransformSQL config' = fill vars transform.
Proof.
  intros [Hval HA]%preparePipeline_ok. apply validatePipelineSQL_ok in Hval. cbn [negb] in Hval. unfold run_sql in Hval.
  apply Forall_app in Hval as [Hs Htr]. rewrite Forall_singleton in Htr. split_and!.
  - by apply sql_Validate_guarded.
  - apply Forall_forall. intros src Hin. destruct (String.eqb_spec (so_Query src) "") as [|Hne]; [by left|right].
    apply sql_Validate_guarded. rewrite Forall_forall in Hs. apply Hs, filter_bool_elem.
    split; [by apply negb_true_iff, String.eqb_neq|]. by apply list_elem_of_fmap_2.
  - intros queries transform Hc Hv Hp. destruct HA as [[? _]|[_ [ws HA]]]; [done|].
    split; [by eapply queries_filled|by eapply transform_filled].
Qed.

Definition demo_config : PipelineConfig :=
  MkPipelineConfig "nightly" "1.0" "loads a department"
    [MkSourceConfig "staff" "SELECT * FROM staff WHERE dept = '@dept'" "file:staff.db"]
    "SELECT name FROM staff WHERE age > @age" (MkOutputConfig (Some "out.xml") None None).
Definition demo_queries : list (list segment) := [[Text "SELECT * FROM staff WHERE dept = "; Quoted "dept"]].
Definition demo_transform : list segment := [Text "SELECT name FROM staff WHERE age > "; Bare "age"].
Definition demo_vars : Vars := {["dept" := "R'D"; "age" := "30"]}.

Lemma demo_sql_config : sql_config demo_config demo_queries demo_transform.
Proof. split; [split|..]; try reflexivity; repeat constructor. Qed.

Lemma demo_vars_plain : forall n v, demo_vars !! n = Some v -> has_byte "@" v = false.
Proof.
  assert (map_Forall (fun _ v => has_byte "@" v = false) demo_vars) as Hv; [|exact Hv].
  apply (bool_decide_unpack _). by vm_compute.
Qed.

Lemma safe_pipeline_runs_guarded_sql_witness :
  exists config' ctx, preparePipeline (H := ascii_case) (H0 := tree_range) demo_config demo_vars false = Ok (config', ctx)
    /\ guarded (H := ascii_case) (pl_TransformSQL config') /\ pl_TransformSQL config' = "SELECT name FROM staff WHERE age > 30".
Proof.
  eexists _, _. split; [vm_compute; reflexivity|].
  match goal with |- guarded (pl_TransformSQL ?c) /\ _ =>
    destruct (@safe_pipeline_runs_guarded_sql ascii_case tree_range demo_config c demo_vars _ ltac:(vm_compute; reflexivity)) as (Hg & _ & Hf) end.
  split; [exact Hg|]. refine (proj2 (Hf demo_queries demo_transform demo_sql_config _ demo_vars_plain)). done.
Defined.

Lemma UsedVariables_none (config : PipelineConfig) (vars : Vars) :
  collectDeclaredVars config = ∅ -> UsedVariables config vars = ∅.
Proof.
  intros Hd. unfold UsedVariables. rewrite Hd. apply map_empty. intros k.
  apply map_lookup_filter_None_2. right. intros v _ Hk. set_solver.
Qed.

(** The context put into the packets of such a pipeline names no variable, though it is meant to name
    those used: they are looked for after the substitution has removed them. *)
Theorem used_variables_lost `{GoCase} `{GoRange} (config config' : PipelineConfig) (queries : list (list segment))
    (transform : list segment) (vars : Vars) (unsafe : bool) (ctx : PipelineContext) :
  sql_config config queries transform ->
  (forall n v, vars !! n = Some v -> has_byte "@" v = false) ->
  preparePipeline config vars unsafe = Ok (config', Some ctx) ->
  ctx = buildPipelineContext (pl_Name config) (pl_Version config) ∅ /\ pc_Variables ctx = [].
Proof.
  intros Hc Hp. unfold preparePipeline. destruct (Nat.ltb_spec 0 (size vars)) as [Hs|Hs].
  - destruct (ApplyVariables config vars) as [[c ws]|] eqn:HA; cbn [mbind result_bind]; [|done].
    assert (vars <> ∅) as Hv by (intros ->; rewrite map_size_empty in Hs; lia).
    pose proof (nothing_declared_after _ _ _ _ _ _ Hv Hc Hp HA Hc) as Hd.
    assert (pl_Name c = pl_Name config /\ pl_Version c = pl_Version config) as [-> ->]
      by (by rewrite (ApplyVariables_config _ _ _ _ Hv HA)).
    rewrite (UsedVariables_none c vars Hd).
    rewrite map_size_empty. cbn [Nat.ltb Nat.leb orb mbind result_bind].
    destruct (negb (String.eqb (pl_Name config) "")), (validatePipelineSQL c _); by intros [= <- <-].
  - cbn [mbind result_bind]. destruct (negb (String.eqb (pl_Name config) "")), (validatePipelineSQL config _); by intros [= <- <-].
Qed.

Lemma used_variables_lost_witness :
  pc_Variables (buildPipelineContext "nightly" "1.0" ∅) = [].
Proof.
  refine (proj2 (@used_variables_lost ascii_case tree_range demo_config _ demo_queries demo_transform demo_vars false _
    demo_sql_config demo_vars_plain _)). by vm_compute.
Defined.

(** A pipeline that has parameters is refused when a variable is missing, but not when no variable is
    given at all: then it runs with its parameters as they stand. *)
Theorem no_variables_not_refused `{GoCase} `{GoRange} (config : PipelineConfig) :
  collectDeclaredVars config <> ∅ ->
  (exists l, ApplyVariables config ∅ = Err (VariablesMissing l))
  /\ exists ctx, preparePipeline config ∅ true = Ok (config, ctx).
Proof.
  intros Hd. split.
  - unfold ApplyVariables, check_. destruct (Nat.eqb_spec (size (collectDeclaredVars config)) 0) as [E|_].
    { by apply size_empty_inv, leibniz_equiv in E. }
    cbn [andb]. destruct (Nat.ltb_spec 0 (length (missing_vars (collectDeclaredVars config) ∅))) as [|Hl]; [by eexists|].
    exfalso. apply set_choose_L in Hd as [n Hn].
    assert (n ∈ missing_vars (collectDeclaredVars config) ∅) as Hin by (by apply missing_vars_elem).
    destruct (missing_vars _ _); [set_solver|cbn in Hl; lia].
  - unfold preparePipeline. rewrite map_size_empty. cbn [Nat.ltb Nat.leb mbind result_bind negb].
    assert (validatePipelineSQL config (NewSQLValidator false) = Ok ()) as ->
      by (apply validatePipelineSQL_ok, Forall_forall; done). by eexists.
Qed.

Lemma no_variables_not_refused_witness :
  exists ctx, preparePipeline (H := ascii_case) (H0 := tree_range) demo_config ∅ true = Ok (demo_config, ctx).
Proof. refine (proj2 (@no_variables_not_refused ascii_case tree_range demo_config _)). by vm_compute. Defined.

(** The safe mode lets a statement through that creates a table, and refuses a query for its column
    name. *)
Lemma safe_mode_examples :
  sql_Validate (H := ascii_case) (NewSQLValidator true) "SELECT * INTO t FROM u" = Ok ()
  /\ sql_Validate (H := ascii_case) (NewSQLValidator true) "SELECT last_update FROM t" = Err (ForbiddenKeyword "UPDATE").
Proof. split; vm_compute; reflexivity. Qed.
