(* ===== verification/CertAuthority.v ===== *)
(** * CertAuthority: licences, certificates and challenges (src/xzmercury/internal/ca)

    The server that lets an xZMercury instance run.  An environment enrols with a licence key and its
    public key, and gets a certificate; later it shows the certificate and gets a session token.  Both
    take two requests: the first is answered with a nonce, the second brings its signature.

    The SQLite tables are a map of licences and a list of certificate rows in rowid order; a statement
    that fails changes nothing, and any statement of a handler can fail ([ev_db]).  A handler runs to
    completion as one step at one clock reading, with the nonces and identifiers drawn for it
    ([CaEnv]).  Times are nanoseconds.  SHA-256 and Ed25519 are an interface. *)

From Stdlib Require Import ZArith Lia Ascii String.
From stdpp Require Import base list gmap strings.
From S2P Require Import Prelude Strconv Encodings.

Open Scope Z_scope.

(** ** cert.go *)

Definition sec : Z := 1000000000.
Definition hour : Z := 3600 * sec.
Definition CertTTL : Z := 24 * hour.
Definition RenewalThreshold : Z := 12 * hour.
Definition sessionTokenTTL : Z := 4 * hour.
Definition challengeTTL : Z := 120 * sec.

Inductive CertStatus := CertActive | CertRevoked | CertExpired.
Inductive LicenseStatus := LicenseActive | LicenseRevoked.
#[export] Instance CertStatus_eq_dec : EqDecision CertStatus.
Proof. solve_decision. Defined.
#[export] Instance LicenseStatus_eq_dec : EqDecision LicenseStatus.
Proof. solve_decision. Defined.

Record EnvCert := MkEnvCert {
  c_CertID : string;
  c_LicenseHash : string;
  c_EnvIDPub : string;
  c_Permissions : list string;
  c_IssuedAt : Z;
  c_NotAfter : Z;
  c_Status : CertStatus;
  c_Offline : bool;
  c_Signature : string;
}.
Record CertPayload := MkCertPayload {
  cp_CertID : string;
  cp_LicenseHash : string;
  cp_EnvIDPub : string;
  cp_Permissions : list string;
  cp_IssuedAt : Z;
  cp_NotAfter : Z;
  cp_Offline : bool;
}.
Record License := MkLicense {
  l_Hash : string;
  l_Permissions : list string;
  l_SeatLimit : Z;
  l_Status : LicenseStatus;
  l_PaidUntil : Z;
}.
Record SessionToken := MkSessionToken { t_Token : string; t_Permissions : list string; t_ExpiresAt : Z }.

(** SHA-256 of a text and of the JSON of a payload, and Ed25519. *)
Class CaCrypto := {
  sha256 : string -> string;
  payload_digest : CertPayload -> string;
  ed_public : string -> string;
  ed_sign : string -> string -> string;
  ed_verify : string -> string -> string -> bool;
}.
Class CaCryptoLaws (C : CaCrypto) : Prop := {
  ed_verify_sign : forall k m, ed_verify (ed_public k) m (ed_sign k m) = true;
  ed_verify_other : forall k m m', ed_verify (ed_public k) m' (ed_sign k m) = true -> m' = m;
  ed_sign_length : forall k m, ed_sign k m <> "";
}.

Section Certs.
  Context `{CaCrypto}.

Definition HashLicenseKey (key : string) : string := EncodeToString (sha256 key).

(** [b] is what [rand.Read] gives, [None] when it fails. *)
Definition NewSessionToken (now : Z) (b : option string) (permissions : list string) (ttl : Z) : option SessionToken :=
  (fun b => MkSessionToken (EncodeToString b) permissions (now + ttl)) <$> b.

Definition Sign (payload : CertPayload) (caPriv : string) : string := ed_sign caPriv (payload_digest payload).

Definition payload_of (cert : EnvCert) : CertPayload :=
  MkCertPayload (c_CertID cert) (c_LicenseHash cert) (c_EnvIDPub cert) (c_Permissions cert) (c_IssuedAt cert)
    (c_NotAfter cert) (c_Offline cert).
Definition Verify (cert : EnvCert) (caPub : string) : bool :=
  ed_verify caPub (payload_digest (payload_of cert)) (c_Signature cert).

Definition IsValid (now : Z) (c : EnvCert) : bool := bool_decide (c_Status c = CertActive) && (now <? c_NotAfter c).

Definition VerifyChallenge (c : EnvCert) (challenge sig : string) : bool :=
  if negb (String.length (c_EnvIDPub c) =? 32)%nat then false else ed_verify (c_EnvIDPub c) challenge sig.
End Certs.

(** ** db.go *)

(** A time as it is stored: RFC 3339, in seconds. *)
Definition rfc3339 (t : Z) : Z := t / sec * sec.

Record CertRow := MkCertRow { r_cert : EnvCert; r_last_seen : Z }.
Record DB := MkDB { licenses : gmap string License; certs : list CertRow }.

Definition stored_license (l : License) : License :=
  MkLicense (l_Hash l) (l_Permissions l) (l_SeatLimit l) (l_Status l) (rfc3339 (l_PaidUntil l)).
Definition stored_cert (c : EnvCert) : EnvCert :=
  MkEnvCert (c_CertID c) (c_LicenseHash c) (c_EnvIDPub c) (c_Permissions c) (rfc3339 (c_IssuedAt c))
    (rfc3339 (c_NotAfter c)) (c_Status c) (c_Offline c) (c_Signature c).
Definition set_status (st : CertStatus) (c : EnvCert) : EnvCert :=
  MkEnvCert (c_CertID c) (c_LicenseHash c) (c_EnvIDPub c) (c_Permissions c) (c_IssuedAt c) (c_NotAfter c) st
    (c_Offline c) (c_Signature c).
Definition set_not_after (t : Z) (c : EnvCert) : EnvCert :=
  MkEnvCert (c_CertID c) (c_LicenseHash c) (c_EnvIDPub c) (c_Permissions c) (c_IssuedAt c) t (c_Status c)
    (c_Offline c) (c_Signature c).

Definition is_active (c : EnvCert) : bool := bool_decide (c_Status c = CertActive).

Definition GetLicense (hash : string) (d : DB) : option License := licenses d !! hash.
Definition InsertLicense (l : License) (d : DB) : option DB :=
  match licenses d !! l_Hash l with
  | Some _ => None
  | None => Some (MkDB (<[l_Hash l := stored_license l]> (licenses d)) (certs d))
  end.

Definition find_cert (p : EnvCert -> bool) (d : DB) : option EnvCert :=
  r_cert <$> List.find (fun r => p (r_cert r)) (certs d).
Definition GetCertByID (certID : string) : DB -> option EnvCert := find_cert (fun c => String.eqb (c_CertID c) certID).
Definition GetCertByEnvID (licenseHash envIDPub : string) : DB -> option EnvCert :=
  find_cert (fun c => String.eqb (c_LicenseHash c) licenseHash && String.eqb (c_EnvIDPub c) envIDPub && is_active c).
Definition GetActiveCertByEnvID (envIDPub : string) : DB -> option EnvCert :=
  find_cert (fun c => String.eqb (c_EnvIDPub c) envIDPub && is_active c).
Definition CountActiveCerts (licenseHash : string) (d : DB) : Z :=
  Z.of_nat (length (List.filter (fun r => String.eqb (c_LicenseHash (r_cert r)) licenseHash && is_active (r_cert r)) (certs d))).

(** The row is refused when its [cert_id] is taken. *)
Definition InsertCert (now : Z) (c : EnvCert) (d : DB) : option DB :=
  match GetCertByID (c_CertID c) d with
  | Some _ => None
  | None => Some (MkDB (licenses d) (certs d ++ [MkCertRow (stored_cert c) (rfc3339 now)]))
  end.

Definition update_certs (p : EnvCert -> bool) (f : CertRow -> CertRow) (d : DB) : DB :=
  MkDB (licenses d) (map (fun r => if p (r_cert r) then f r else r) (certs d)).
Definition has_id (certID : string) (c : EnvCert) : bool := String.eqb (c_CertID c) certID.
Definition TouchLastSeen (now : Z) (certID : string) : DB -> DB :=
  update_certs (has_id certID) (fun r => MkCertRow (r_cert r) (rfc3339 now)).
Definition RenewCert (now : Z) (certID : string) (d : DB) : DB * Z :=
  let newNotAfter := now + CertTTL in
  (update_certs (has_id certID) (fun r => MkCertRow (set_not_after (rfc3339 newNotAfter) (r_cert r)) (rfc3339 now)) d,
   newNotAfter).
Definition RevokeCert (certID : string) : DB -> DB :=
  update_certs (has_id certID) (fun r => MkCertRow (set_status CertRevoked (r_cert r)) (r_last_seen r)).
Definition RevokeLicense (licenseHash : string) (d : DB) : DB :=
  let d := MkDB (alter (fun l => MkLicense (l_Hash l) (l_Permissions l) (l_SeatLimit l) LicenseRevoked (l_PaidUntil l))
                   licenseHash (licenses d)) (certs d) in
  update_certs (fun c => String.eqb (c_LicenseHash c) licenseHash)
    (fun r => MkCertRow (set_status CertRevoked (r_cert r)) (r_last_seen r)) d.

(** ** The handlers *)

(** What one handler run gets from outside: the clock, which of its statements fail, the nonce and the
    token that [rand.Read] gives, and the two UUIDs it may draw. *)
Record CaEnv := MkCaEnv {
  ev_now : Z;
  ev_db : nat -> bool;
  ev_nonce : option string;
  ev_token : option string;
  ev_uuid : string;
}.

(** A status and the fixed part of its message. *)
Definition refusal : Type := Z * string.
Definition query {A} (e : CaEnv) (i : nat) (r : refusal) (a : A) : result refusal A :=
  if ev_db e i then Err r else Ok a.

Definition db_error : refusal := (500, "db error").

(** The keys of the server. *)
Record CaKeys := MkCaKeys { caPriv : string; caPub : string }.

(** *** enroll.go *)

Record pendingChallenge := MkPendingChallenge {
  pc_nonce : string;
  pc_licenseHash : string;
  pc_envIDPub : string;
  pc_expiresAt : Z;
}.
Abbreviation EnrollHandler := (gmap string pendingChallenge).

Record enrollStep1Request := MkEnrollStep1Request { e1_LicenseKey : string; e1_EnvIDPub : string }.
Record challenge := MkChallenge { ch_ChallengeID : string; ch_Nonce : string }.
Record enrollStep2Response := MkEnrollStep2Response {
  e2_Cert : EnvCert;
  e2_SessionToken : SessionToken;
  e2_Permissions : list string;
}.

(** A licence that may be used now. *)
Definition license_check (e : CaEnv) (lic : License) : result refusal () :=
  fail_if negb (bool_decide (l_Status lic = LicenseActive)) with (403, "license revoked") ;;
  fail_if l_PaidUntil lic <? ev_now e with (402, "license expired") ;;
  Ok ().

Section Handlers.
  Context `{CaCrypto} (keys : CaKeys).

(** The checks of the first step of an enrolment: the licence, and a seat for a new environment. *)
Definition enroll_admit (e : CaEnv) (req : option enrollStep1Request) (d : DB) : result refusal (string * string) :=
  match req with
  | None => Err (400, "invalid json")
  | Some req =>
      fail_if String.eqb (e1_LicenseKey req) "" || negb (String.length (e1_EnvIDPub req) =? 32)%nat
        with (400, "license_key and env_id_pub (32 bytes) required") ;;
      let licenseHash := HashLicenseKey (e1_LicenseKey req) in
      lic ← query e 0 db_error (GetLicense licenseHash d);
      match lic with
      | None => Err (403, "license not found or not activated")
      | Some lic =>
          _ ← license_check e lic;
          existing ← query e 1 db_error (GetCertByEnvID licenseHash (e1_EnvIDPub req) d);
          _ ← (match existing with
               | Some _ => Ok ()
               | None =>
                   existingAny ← query e 2 db_error (GetActiveCertByEnvID (e1_EnvIDPub req) d);
                   fail_if from_option (fun c => negb (String.eqb (c_LicenseHash c) licenseHash)) false existingAny
                     with (409, "env already enrolled under a different license") ;;
                   count ← query e 3 db_error (CountActiveCerts licenseHash d);
                   fail_if l_SeatLimit lic <=? count with (409, "seat limit exhausted") ;;
                   Ok ()
               end);
          Ok (licenseHash, e1_EnvIDPub req)
      end
  end.

Definition enroll_Step1 (e : CaEnv) (req : option enrollStep1Request) (d : DB) (h : EnrollHandler)
    : EnrollHandler * result refusal challenge :=
  match enroll_admit e req d with
  | Err r => (h, Err r)
  | Ok (licenseHash, envIDPub) =>
      match ev_nonce e with
      | None => (h, Err (500, "nonce generation failed"))
      | Some nonce =>
          let challengeID := ev_uuid e in
          (<[challengeID := MkPendingChallenge nonce licenseHash envIDPub (ev_now e + challengeTTL)]> h,
           Ok (MkChallenge challengeID nonce))
      end
  end.

(** The certificate of the second step: the one the environment has, or a new one. *)
Definition new_payload (e : CaEnv) (licenseHash envIDPub : string) (lic : License) : CertPayload :=
  MkCertPayload (ev_uuid e) licenseHash envIDPub (l_Permissions lic) (ev_now e) (ev_now e + CertTTL) false.
Definition cert_of (payload : CertPayload) (sig : string) : EnvCert :=
  MkEnvCert (cp_CertID payload) (cp_LicenseHash payload) (cp_EnvIDPub payload) (cp_Permissions payload)
    (cp_IssuedAt payload) (cp_NotAfter payload) CertActive (cp_Offline payload) sig.

Definition issue_cert (e : CaEnv) (licenseHash envIDPub : string) (d : DB) : DB * result refusal EnvCert :=
  match query e 0 db_error (GetCertByEnvID licenseHash envIDPub d) with
  | Err r => (d, Err r)
  | Ok (Some existing) => (d, Ok existing)
  | Ok None =>
      match query e 1 (500, "license lookup failed") (GetLicense licenseHash d) with
      | Err r => (d, Err r)
      | Ok None => (d, Err (500, "license lookup failed"))
      | Ok (Some lic) =>
          let payload := new_payload e licenseHash envIDPub lic in
          let cert := cert_of payload (Sign payload (caPriv keys)) in
          match query e 2 (500, "cert persistence failed") (InsertCert (ev_now e) cert d) with
          | Ok (Some d') => (d', Ok cert)
          | _ => (d, Err (500, "cert persistence failed"))
          end
      end
  end.

Definition enroll_confirm (e : CaEnv) (ch : pendingChallenge) (sig : string) (d : DB)
    : DB * result refusal enrollStep2Response :=
  if negb (ed_verify (pc_envIDPub ch) (pc_nonce ch) sig)
  then (d, Err (401, "invalid signature - env identity mismatch"))
  else
    let '(d, r) := issue_cert e (pc_licenseHash ch) (pc_envIDPub ch) d in
    (d, cert ← r;
        match NewSessionToken (ev_now e) (ev_token e) (c_Permissions cert) sessionTokenTTL with
        | None => Err (500, "token generation failed")
        | Some token => Ok (MkEnrollStep2Response cert token (c_Permissions cert))
        end).

(** The second step; a request is the challenge and the signature. *)
Definition enroll_Step2 (e : CaEnv) (req : option (string * string)) (d : DB) (h : EnrollHandler)
    : DB * EnrollHandler * result refusal enrollStep2Response :=
  match req with
  | None => (d, h, Err (400, "invalid json"))
  | Some (cid, sig) =>
      if String.eqb cid "" || String.eqb sig "" then (d, h, Err (400, "challenge_id and signature required"))
      else
        match h !! cid with
        | None => (d, h, Err (401, "challenge expired or not found"))
        | Some ch =>
            let h := delete cid h in
            if pc_expiresAt ch <? ev_now e then (d, h, Err (401, "challenge expired or not found"))
            else let '(d, r) := enroll_confirm e ch sig d in (d, h, r)
        end
  end.

(** [sweepExpired]: one tick. *)
Definition enroll_sweep (now : Z) (h : EnrollHandler) : EnrollHandler :=
  filter (fun kv => ~ pc_expiresAt kv.2 < now) h.

End Handlers.

(** *** authorize.go *)

Record authChallenge := MkAuthChallenge { ac_nonce : string; ac_certID : string; ac_expiresAt : Z }.
Abbreviation AuthorizeHandler := (gmap string authChallenge).

Record authStep2Response := MkAuthStep2Response {
  a2_SessionToken : SessionToken;
  a2_Permissions : list string;
  a2_CertNotAfter : Z;
}.

Section Authorize.
  Context `{CaCrypto} (keys : CaKeys).

(** What both ways of authorizing check of a certificate and its licence. *)
Definition cert_check (e : CaEnv) (cert : EnvCert) (d : DB) : result refusal EnvCert :=
  fail_if negb (Verify cert (caPub keys)) with (401, "cert signature invalid") ;;
  dbCert ← query e 0 db_error (GetCertByID (c_CertID cert) d);
  match dbCert with
  | None => Err (403, "cert not found or revoked")
  | Some dbCert =>
      fail_if negb (is_active dbCert) with (403, "cert not found or revoked") ;;
      Ok dbCert
  end.
Definition cert_license (e : CaEnv) (i : nat) (dbCert : EnvCert) (d : DB) : result refusal License :=
  lic ← query e i (403, "license not found") (GetLicense (c_LicenseHash dbCert) d);
  match lic with
  | None => Err (403, "license not found")
  | Some lic => Ok lic
  end.

Definition auth_admit (e : CaEnv) (req : option (option EnvCert)) (d : DB) : result refusal EnvCert :=
  match req with
  | None => Err (400, "invalid json")
  | Some None => Err (400, "cert required")
  | Some (Some cert) =>
      fail_if c_Offline cert with (400, "offline cert cannot use online authorize") ;;
      dbCert ← cert_check e cert d;
      lic ← cert_license e 1 dbCert d;
      _ ← license_check e lic;
      Ok dbCert
  end.

Definition auth_Step1 (e : CaEnv) (req : option (option EnvCert)) (d : DB) (h : AuthorizeHandler)
    : AuthorizeHandler * result refusal challenge :=
  match auth_admit e req d with
  | Err r => (h, Err r)
  | Ok dbCert =>
      match ev_nonce e with
      | None => (h, Err (500, "nonce generation failed"))
      | Some nonce =>
          let challengeID := EncodeToString (String.substring 0 8 nonce) in
          (<[challengeID := MkAuthChallenge nonce (c_CertID dbCert) (ev_now e + challengeTTL)]> h,
           Ok (MkChallenge challengeID nonce))
      end
  end.

(** The renewal of a certificate; when it fails, [last_seen] alone is tried. *)
Definition renew (e : CaEnv) (dbCert : EnvCert) (certID : string) (d : DB) : DB * Z :=
  if ev_db e 2 then ((if ev_db e 3 then d else TouchLastSeen (ev_now e) certID d), c_NotAfter dbCert)
  else RenewCert (ev_now e) certID d.

Definition auth_confirm (e : CaEnv) (ch : authChallenge) (sig : string) (d : DB)
    : DB * result refusal authStep2Response :=
  match query e 0 (500, "cert lookup failed") (GetCertByID (ac_certID ch) d) with
  | Err r => (d, Err r)
  | Ok None => (d, Err (500, "cert lookup failed"))
  | Ok (Some dbCert) =>
      if negb (ed_verify (c_EnvIDPub dbCert) (ac_nonce ch) sig)
      then (d, Err (401, "liveness check failed - env identity mismatch (possible cert clone)"))
      else
        match cert_license e 1 dbCert d with
        | Err r => (d, Err r)
        | Ok lic =>
            let '(d, newNotAfter) := renew e dbCert (ac_certID ch) d in
            match NewSessionToken (ev_now e) (ev_token e) (l_Permissions lic) sessionTokenTTL with
            | None => (d, Err (500, "token generation failed"))
            | Some token => (d, Ok (MkAuthStep2Response token (l_Permissions lic) newNotAfter))
            end
        end
  end.

Definition auth_Step2 (e : CaEnv) (req : option (string * string)) (d : DB) (h : AuthorizeHandler)
    : DB * AuthorizeHandler * result refusal authStep2Response :=
  match req with
  | None => (d, h, Err (400, "invalid json"))
  | Some (cid, sig) =>
      match h !! cid with
      | None => (d, h, Err (401, "challenge expired or not found"))
      | Some ch =>
          let h := delete cid h in
          if ac_expiresAt ch <? ev_now e then (d, h, Err (401, "challenge expired or not found"))
          else let '(d, r) := auth_confirm e ch sig d in (d, h, r)
      end
  end.

(** One step for an air-gapped environment: no challenge, and no renewal. *)
Definition OfflineAuthorize (e : CaEnv) (req : option (option EnvCert)) (d : DB)
    : DB * result refusal (SessionToken * list string) :=
  match req with
  | None => (d, Err (400, "invalid json"))
  | Some None => (d, Err (400, "cert required"))
  | Some (Some cert) =>
      let admitted :=
        fail_if negb (c_Offline cert) with (400, "cert is not an offline cert") ;;
        dbCert ← cert_check e cert d;
        fail_if negb (IsValid (ev_now e) dbCert) with (403, "cert expired") ;;
        lic ← cert_license e 1 dbCert d;
        _ ← license_check e lic;
        Ok (dbCert, lic) in
      match admitted with
      | Err r => (d, Err r)
      | Ok (dbCert, lic) =>
          let d := if ev_db e 2 then d else TouchLastSeen (ev_now e) (c_CertID dbCert) d in
          match NewSessionToken (ev_now e) (ev_token e) (l_Permissions lic) sessionTokenTTL with
          | None => (d, Err (500, "token generation failed"))
          | Some token => (d, Ok (token, l_Permissions lic))
          end
      end
  end.

Definition auth_sweep (now : Z) (h : AuthorizeHandler) : AuthorizeHandler :=
  filter (fun kv => ~ ac_expiresAt kv.2 < now) h.
End Authorize.

(** *** hello.go *)

Definition HelloDelay : Z := 2 * sec.
Definition HelloTokenTTL : Z := 30 * sec.
Definition MaxConcurrentHelloPerIP : Z := 3.

Record helloToken := MkHelloToken { ht_ip : string; ht_expiresAt : Z }.
(** The calls that wait out the delay are listed with the time they began. *)
Record HelloHandler := MkHelloHandler {
  hh_tokens : gmap string helloToken;
  hh_ipPending : gmap string Z;
  hh_waiting : list (string * Z);
}.

(** The text before the last [c]. *)
Definition before_last (c : ascii) (s : string) : string :=
  match cut_at c (str_rev s) with Some (_, r) => str_rev r | None => s end.
Definition is_bracket (c : ascii) : bool := Ascii.eqb c "[" || Ascii.eqb c "]".
Fixpoint drop_brackets (s : string) : string :=
  match s with String c s' => if is_bracket c then drop_brackets s' else s | "" => "" end.
Definition clientIP (forwarded remoteAddr : string) : string :=
  if negb (String.eqb forwarded "")
  then TrimSpace (match cut_at "," forwarded with Some (first, _) => first | None => forwarded end)
  else str_rev (drop_brackets (str_rev (drop_brackets (before_last ":" remoteAddr)))).

Definition ip_count (ip : string) (h : HelloHandler) : Z := default 0 (hh_ipPending h !! ip).
Definition add_count (ip : string) (n : Z) (h : HelloHandler) : HelloHandler :=
  MkHelloHandler (hh_tokens h) (<[ip := ip_count ip h + n]> (hh_ipPending h)) (hh_waiting h).

(** [ServeHTTP] up to the delay: the call waits, or is refused. *)
Definition hello_begin (e : CaEnv) (forwarded remoteAddr : string) (h : HelloHandler) : HelloHandler * result refusal () :=
  let ip := clientIP forwarded remoteAddr in
  let h := add_count ip 1 h in
  let current := ip_count ip h in
  if MaxConcurrentHelloPerIP <? current
  then (add_count ip (-1) h, Err (429, "too many concurrent /hello requests from this IP"))
  else (MkHelloHandler (hh_tokens h) (hh_ipPending h) ((ip, ev_now e) :: hh_waiting h), Ok ()).

Fixpoint remove_first {A} (p : A -> bool) (l : list A) : list A :=
  match l with [] => [] | x :: l' => if p x then l' else x :: remove_first p l' end.
Definition waiter_eqb (a b : string * Z) : bool := String.eqb a.1 b.1 && (a.2 =? b.2).

(** The end of a call: a waiter whose delay is over gets a token, unless the client has gone. *)
Definition hello_end (e : CaEnv) (waiter : string * Z) (connected : bool) (h : HelloHandler)
    : HelloHandler * result refusal string :=
  if negb (existsb (waiter_eqb waiter) (hh_waiting h)) then (h, Err (0, "no such call"))
  else if connected && (ev_now e <? waiter.2 + HelloDelay) then (h, Err (0, "still waiting"))
  else
    let h := add_count waiter.1 (-1)
               (MkHelloHandler (hh_tokens h) (hh_ipPending h) (remove_first (waiter_eqb waiter) (hh_waiting h))) in
    if negb connected then (h, Err (0, "client disconnected"))
    else
      match ev_token e with
      | None => (h, Err (500, "token generation failed"))
      | Some raw =>
          let token := EncodeToString raw in
          (MkHelloHandler (<[token := MkHelloToken waiter.1 (ev_now e + HelloTokenTTL)]> (hh_tokens h))
             (hh_ipPending h) (hh_waiting h), Ok token)
      end.

Definition hello_Consume (e : CaEnv) (token : string) (h : HelloHandler) : HelloHandler * result refusal string :=
  if String.eqb token "" then (h, Err (401, "X-Hello-Token header required; call GET /hello first (2s wait)"))
  else
    match hh_tokens h !! token with
    | None => (h, Err (401, "hello token not found or already consumed; call GET /hello again"))
    | Some rec =>
        let h := MkHelloHandler (delete token (hh_tokens h)) (hh_ipPending h) (hh_waiting h) in
        if ht_expiresAt rec <? ev_now e then (h, Err (401, "hello token expired; call GET /hello again"))
        else (h, Ok (ht_ip rec))
    end.

Definition hello_sweep (now : Z) (h : HelloHandler) : HelloHandler :=
  MkHelloHandler (filter (fun kv => ~ ht_expiresAt kv.2 < now) (hh_tokens h))
    (filter (fun kv => kv.2 <> 0) (hh_ipPending h)) (hh_waiting h).

(** *** router.go, and the commands of tdtp-certify that write the database *)

Record CA := MkCA { ca_db : DB; ca_enroll : EnrollHandler; ca_auth : AuthorizeHandler; ca_hello : HelloHandler }.

Inductive ca_request :=
| HelloBegin (forwarded remoteAddr : string)
| HelloEnd (waiter : string * Z) (connected : bool)
| Enroll (token : string) (req : option enrollStep1Request)
| EnrollConfirm (req : option (string * string))
| Authorize (token : string) (req : option (option EnvCert))
| AuthorizeConfirm (req : option (string * string))
| AuthorizeOffline (req : option (option EnvCert))
| DeleteCert (certID : string)
| DeleteLicense (licenseHash : string)
| IssueLicense (licenseKey : string) (permissions : list string) (seatLimit paidUntil : Z)
| IssueOfflineCert (envIDPub licenseKey : string) (notAfter : option Z)
| SweepEnroll
| SweepAuthorize
| SweepHello.

Inductive ca_reply :=
| Done
| HelloToken (token : string)
| Challenge (c : challenge)
| Enrolled (r : enrollStep2Response)
| Authorized (r : authStep2Response)
| OfflineAuthorized (token : SessionToken) (permissions : list string)
| OfflineCert (cert : EnvCert)
| Refused (r : refusal).

Definition reply_of {A} (f : A -> ca_reply) (r : result refusal A) : ca_reply :=
  match r with Ok a => f a | Err e => Refused e end.

Section Server.
  Context `{CaCrypto} (keys : CaKeys).

Definition cmdIssueLicense (e : CaEnv) (licenseKey : string) (permissions : list string) (seatLimit paidUntil : Z) (d : DB)
    : DB * ca_reply :=
  let lic := MkLicense (HashLicenseKey licenseKey) permissions seatLimit LicenseActive paidUntil in
  match query e 0 db_error (InsertLicense lic d) with
  | Ok (Some d) => (d, Done)
  | _ => (d, Refused (0, "insert license (already exists?)"))
  end.

Definition cmdIssueOfflineCert (e : CaEnv) (envIDPub licenseKey : string) (notAfter : option Z) (d : DB) : DB * ca_reply :=
  let issued :=
    fail_if negb (String.length envIDPub =? 32)%nat with (0, "env-pub must be 32 bytes (64 hex chars)") ;;
    let licenseHash := HashLicenseKey licenseKey in
    lic ← query e 0 (0, "db: get license") (GetLicense licenseHash d);
    match lic with
    | None => Err (0, "license not found")
    | Some lic =>
        fail_if negb (bool_decide (l_Status lic = LicenseActive)) with (0, "license is revoked") ;;
        let notAfter := default (l_PaidUntil lic) notAfter in
        fail_if l_PaidUntil lic <? notAfter with (0, "not-after cannot exceed license paid_until") ;;
        let payload := MkCertPayload (ev_uuid e) licenseHash envIDPub (l_Permissions lic) (ev_now e) notAfter true in
        let cert := cert_of payload (Sign payload (caPriv keys)) in
        d' ← query e 1 (0, "insert cert") (InsertCert (ev_now e) cert d);
        match d' with None => Err (0, "insert cert") | Some d' => Ok (d', cert) end
    end in
  match issued with
  | Err r => (d, Refused r)
  | Ok (d', cert) => (d', OfflineCert cert)
  end.

(** [Middleware]: the hello token is burnt before the handler runs. *)
Definition gated {A} (e : CaEnv) (token : string) (s : CA) (next : CA -> CA * A) (refused : refusal -> A) : CA * A :=
  let '(hello, r) := hello_Consume e token (ca_hello s) in
  let s := MkCA (ca_db s) (ca_enroll s) (ca_auth s) hello in
  match r with Ok _ => next s | Err r => (s, refused r) end.

Definition serve (e : CaEnv) (q : ca_request) (s : CA) : CA * ca_reply :=
  let with_hello h := MkCA (ca_db s) (ca_enroll s) (ca_auth s) h in
  let with_db d := MkCA d (ca_enroll s) (ca_auth s) (ca_hello s) in
  match q with
  | HelloBegin fwd addr => let '(h, r) := hello_begin e fwd addr (ca_hello s) in (with_hello h, reply_of (fun _ => Done) r)
  | HelloEnd w connected => let '(h, r) := hello_end e w connected (ca_hello s) in (with_hello h, reply_of HelloToken r)
  | Enroll token req =>
      gated e token s (fun s =>
        let '(p, r) := enroll_Step1 e req (ca_db s) (ca_enroll s) in
        (MkCA (ca_db s) p (ca_auth s) (ca_hello s), reply_of Challenge r)) Refused
  | EnrollConfirm req =>
      let '(d, p, r) := enroll_Step2 keys e req (ca_db s) (ca_enroll s) in
      (MkCA d p (ca_auth s) (ca_hello s), reply_of Enrolled r)
  | Authorize token req =>
      gated e token s (fun s =>
        let '(p, r) := auth_Step1 keys e req (ca_db s) (ca_auth s) in
        (MkCA (ca_db s) (ca_enroll s) p (ca_hello s), reply_of Challenge r)) Refused
  | AuthorizeConfirm req =>
      let '(d, p, r) := auth_Step2 e req (ca_db s) (ca_auth s) in
      (MkCA d (ca_enroll s) p (ca_hello s), reply_of Authorized r)
  | AuthorizeOffline req =>
      let '(d, r) := OfflineAuthorize keys e req (ca_db s) in
      (with_db d, reply_of (fun '(t, p) => OfflineAuthorized t p) r)
  | DeleteCert id => if ev_db e 0 then (s, Refused db_error) else (with_db (RevokeCert id (ca_db s)), Done)
  | DeleteLicense h => if ev_db e 0 then (s, Refused db_error) else (with_db (RevokeLicense h (ca_db s)), Done)
  | IssueLicense key perms seats paid =>
      let '(d, r) := cmdIssueLicense e key perms seats paid (ca_db s) in (with_db d, r)
  | IssueOfflineCert pub key na =>
      let '(d, r) := cmdIssueOfflineCert e pub key na (ca_db s) in (with_db d, r)
  | SweepEnroll => (MkCA (ca_db s) (enroll_sweep (ev_now e) (ca_enroll s)) (ca_auth s) (ca_hello s), Done)
  | SweepAuthorize => (MkCA (ca_db s) (ca_enroll s) (auth_sweep (ev_now e) (ca_auth s)) (ca_hello s), Done)
  | SweepHello => (with_hello (hello_sweep (ev_now e) (ca_hello s)), Done)
  end.
End Server.

Definition empty_db : DB := MkDB ∅ [].
Definition NewRouter (d : DB) : CA := MkCA d ∅ ∅ (MkHelloHandler ∅ ∅ []).

(** ** Lemmas: the tables *)

(** What may happen to a row: everything signed stays, and a revoked row stays revoked. *)
Record keeps_row (r r' : CertRow) : Prop := {
  kr_id : c_CertID (r_cert r') = c_CertID (r_cert r);
  kr_license : c_LicenseHash (r_cert r') = c_LicenseHash (r_cert r);
  kr_pub : c_EnvIDPub (r_cert r') = c_EnvIDPub (r_cert r);
  kr_permissions : c_Permissions (r_cert r') = c_Permissions (r_cert r);
  kr_issued : c_IssuedAt (r_cert r') = c_IssuedAt (r_cert r);
  kr_offline : c_Offline (r_cert r') = c_Offline (r_cert r);
  kr_signature : c_Signature (r_cert r') = c_Signature (r_cert r);
  kr_status : c_Status (r_cert r') = c_Status (r_cert r) \/ c_Status (r_cert r') = CertRevoked;
}.

Lemma keeps_row_refl (r : CertRow) : keeps_row r r.
Proof. split; auto. Qed.
Lemma keeps_row_trans (r1 r2 r3 : CertRow) : keeps_row r1 r2 -> keeps_row r2 r3 -> keeps_row r1 r3.
Proof. intros [] []. split; try congruence. destruct kr_status1; [destruct kr_status0; [left|right]; congruence|by right]. Qed.
#[export] Hint Resolve keeps_row_refl : go.

(** What may happen to the table: rows change in place, and a new row, which is as [P] says, has a new
    identifier. *)
Inductive rows_step (P : CertRow -> Prop) (l : list CertRow) : list CertRow -> Prop :=
| rows_update l' : Forall2 keeps_row l l' -> rows_step P l l'
| rows_insert row :
    Forall (fun r => c_CertID (r_cert r) <> c_CertID (r_cert row)) l -> P row -> rows_step P l (l ++ [row]).

Lemma rows_same P (l : list CertRow) : rows_step P l l.
Proof. apply rows_update. induction l; constructor; auto with go. Qed.

Lemma update_certs_rows P (p : EnvCert -> bool) (f : CertRow -> CertRow) (d : DB) :
  (forall r, keeps_row r (f r)) -> rows_step P (certs d) (certs (update_certs p f d)).
Proof.
  intros Hf. apply rows_update. cbn. induction (certs d) as [|r l IH]; constructor; [|done].
  destruct (p (r_cert r)); auto with go.
Qed.

Lemma TouchLastSeen_rows P now id d : rows_step P (certs d) (certs (TouchLastSeen now id d)).
Proof. apply update_certs_rows. intros r. split; auto. Qed.
Lemma RenewCert_rows P now id d : rows_step P (certs d) (certs (RenewCert now id d).1).
Proof. apply update_certs_rows. intros r. split; auto. Qed.
Lemma RevokeCert_rows P id d : rows_step P (certs d) (certs (RevokeCert id d)).
Proof. apply update_certs_rows. intros r. split; auto. Qed.
Lemma RevokeLicense_rows P h d : rows_step P (certs d) (certs (RevokeLicense h d)).
Proof. apply (update_certs_rows _ _ _ (MkDB _ (certs d))). intros r. split; auto. Qed.

Lemma find_cert_None (p : EnvCert -> bool) (d : DB) :
  find_cert p d = None <-> Forall (fun r => p (r_cert r) = false) (certs d).
Proof.
  unfold find_cert. induction (certs d) as [|r l IH]; cbn; [split; [constructor|done]|].
  rewrite Forall_cons, <- IH. destruct (p (r_cert r)); cbn; naive_solver.
Qed.

Lemma find_cert_Some (p : EnvCert -> bool) (d : DB) (c : EnvCert) :
  find_cert p d = Some c -> exists r, r ∈ certs d /\ r_cert r = c /\ p c = true.
Proof.
  unfold find_cert. destruct (List.find _ (certs d)) as [r|] eqn:E; [|done]. intros [= <-].
  apply List.find_some in E as [Hin Hp]. exists r. split; [by apply list_elem_of_In|done].
Qed.

Lemma InsertCert_rows now c d d' :
  InsertCert now c d = Some d' ->
  GetCertByID (c_CertID c) d = None /\ licenses d' = licenses d
  /\ certs d' = certs d ++ [MkCertRow (stored_cert c) (rfc3339 now)]
  /\ forall P : CertRow -> Prop, P (MkCertRow (stored_cert c) (rfc3339 now)) -> rows_step P (certs d) (certs d').
Proof.
  unfold InsertCert. destruct (GetCertByID (c_CertID c) d) eqn:E; [done|]. intros [= <-]. do 3 (split; [done|]). cbn. intros P HP.
  apply rows_insert; [|done]. apply find_cert_None in E. eapply Forall_impl; [exact E|]. cbn. intros r Hr%String.eqb_neq. done.
Qed.
#[export] Hint Resolve rows_same TouchLastSeen_rows RenewCert_rows RevokeCert_rows RevokeLicense_rows : go.

Lemma ip_count_add (ip ip' : string) (n : Z) (h : HelloHandler) :
  ip_count ip' (add_count ip n h) = ip_count ip' h + (if String.eqb ip ip' then n else 0).
Proof.
  unfold ip_count, add_count. cbn. destruct (String.eqb_spec ip ip') as [->|Hne]; [by rewrite lookup_insert_eq|].
  rewrite lookup_insert_ne by done. lia.
Qed.

(** What may happen to a licence: it is revoked, or stays. *)
Definition keeps_license (l l' : License) : Prop :=
  l_Hash l' = l_Hash l /\ l_Permissions l' = l_Permissions l /\ l_SeatLimit l' = l_SeatLimit l
  /\ l_PaidUntil l' = l_PaidUntil l /\ (l_Status l' = l_Status l \/ l_Status l' = LicenseRevoked).
Definition licenses_step (m m' : gmap string License) : Prop :=
  forall h l, m !! h = Some l -> exists l', m' !! h = Some l' /\ keeps_license l l'.

Lemma licenses_same (m : gmap string License) : licenses_step m m.
Proof. intros h l E. exists l. split; [done|]. repeat split; auto. Qed.
#[export] Hint Resolve licenses_same : go.

Lemma InsertLicense_step l d d' : InsertLicense l d = Some d' -> licenses_step (licenses d) (licenses d') /\ certs d' = certs d.
Proof.
  unfold InsertLicense. destruct (licenses d !! l_Hash l) eqn:E; [done|]. intros [= <-]. split; [|done].
  intros h l0 E0. exists l0. cbn. rewrite lookup_insert_ne by congruence. split; [done|]. repeat split; auto.
Qed.

Lemma RevokeLicense_step h d : licenses_step (licenses d) (licenses (RevokeLicense h d)).
Proof.
  intros h' l E. cbn. destruct (decide (h = h')) as [->|Hne].
  - rewrite lookup_alter_eq, E. cbn. eexists. split; [done|]. repeat split; auto.
  - rewrite lookup_alter_ne, E by done. eexists. split; [done|]. repeat split; auto.
Qed.
#[export] Hint Resolve RevokeLicense_step : go.

(** ** Lemmas: the handlers *)

Section HandlerLemmas.
  Context `{CaCrypto} (keys : CaKeys).

(** A new row is a certificate the authority has signed, with the permissions of its licence. *)
Definition new_row (d : DB) (row : CertRow) : Prop :=
  exists p lic, r_cert row = stored_cert (cert_of p (Sign p (caPriv keys)))
    /\ GetLicense (cp_LicenseHash p) d = Some lic /\ cp_Permissions p = l_Permissions lic.

Definition db_step (d d' : DB) : Prop :=
  rows_step (new_row d) (certs d) (certs d') /\ licenses_step (licenses d) (licenses d').
Lemma db_same (d : DB) : db_step d d.
Proof. split; auto with go. Qed.
#[local] Hint Resolve db_same : go.

Lemma issue_cert_step e h pub d : db_step d (issue_cert keys e h pub d).1.
Proof.
  unfold issue_cert, query. destruct (ev_db e 0); [auto with go|]. destruct (GetCertByEnvID h pub d); [auto with go|].
  destruct (ev_db e 1); [auto with go|]. destruct (GetLicense h d) as [lic|] eqn:El0; [|auto with go].
  destruct (ev_db e 2); [auto with go|]. destruct (InsertCert _ _ d) as [d'|] eqn:E; [|auto with go].
  apply InsertCert_rows in E as (_ & El & _ & Hr). split; [|cbn; rewrite El; auto with go]. apply Hr.
  by exists (new_payload e h pub lic), lic.
Qed.

Lemma enroll_Step2_step e req d h : db_step d (enroll_Step2 keys e req d h).1.1.
Proof.
  unfold enroll_Step2, enroll_confirm. destruct req as [[cid sig]|]; [|auto with go].
  destruct (_ || _); [auto with go|]. destruct (h !! cid) as [ch|]; [|auto with go].
  destruct (_ <? _); [auto with go|]. destruct (negb _); [auto with go|].
  pose proof (issue_cert_step e (pc_licenseHash ch) (pc_envIDPub ch) d) as Hs.
  by destruct (issue_cert keys e (pc_licenseHash ch) (pc_envIDPub ch) d).
Qed.

Lemma renew_step e c id d : db_step d (renew e c id d).1.
Proof. unfold renew. destruct (ev_db e 2), (ev_db e 3); split; cbn [fst]; auto with go. Qed.

Lemma auth_confirm_step e ch sig d : db_step d (auth_confirm e ch sig d).1.
Proof.
  unfold auth_confirm, query. destruct (ev_db e 0); [auto with go|].
  destruct (GetCertByID (ac_certID ch) d) as [c|]; [|auto with go]. destruct (negb _); [auto with go|].
  destruct (cert_license e 1 c d) as [lic|]; [|auto with go].
  pose proof (renew_step e c (ac_certID ch) d) as Hs. destruct (renew e c (ac_certID ch) d) as [d' t]. by destruct (NewSessionToken _ _ _ _).
Qed.

Lemma auth_Step2_step e req d h : db_step d (auth_Step2 e req d h).1.1.
Proof.
  unfold auth_Step2. destruct req as [[cid sig]|]; [|auto with go]. destruct (h !! cid) as [ch|]; [|auto with go].
  destruct (_ <? _); [auto with go|]. pose proof (auth_confirm_step e ch sig d) as Hs. by destruct (auth_confirm e ch sig d).
Qed.

Lemma OfflineAuthorize_step e req d : db_step d (OfflineAuthorize keys e req d).1.
Proof.
  unfold OfflineAuthorize. destruct req as [[cert|]|]; [|auto with go..].
  destruct (check_ _ _ _) as [[c lic]|]; [|auto with go].
  destruct (ev_db e 2); (destruct (NewSessionToken _ _ _ _); [|]); split; cbn [fst]; auto with go.
Qed.

Lemma cmdIssueLicense_step e key perms seats paid d : db_step d (cmdIssueLicense e key perms seats paid d).1.
Proof.
  unfold cmdIssueLicense, query. destruct (ev_db e 0); [auto with go|]. destruct (InsertLicense _ d) as [d'|] eqn:E; [|auto with go].
  apply InsertLicense_step in E as [Hl Hc]. split; [|done]. cbn. rewrite Hc. auto with go.
Qed.

Lemma cmdIssueOfflineCert_step e pub key na d : db_step d (cmdIssueOfflineCert keys e pub key na d).1.
Proof.
  unfold cmdIssueOfflineCert, query, check_. destruct (negb _); [auto with go|]. destruct (ev_db e 0); [auto with go|].
  cbn [mbind result_bind]. destruct (GetLicense _ d) as [lic|] eqn:Eg; [|auto with go]. destruct (negb _); [auto with go|].
  destruct (_ <? _); [auto with go|]. destruct (ev_db e 1); [auto with go|]. cbn [mbind result_bind].
  destruct (InsertCert _ _ d) as [d'|] eqn:E; [|auto with go].
  apply InsertCert_rows in E as (_ & El & _ & Hr). split; [|cbn; rewrite El; auto with go]. apply Hr.
  eexists _, lic. split; [done|]. split; [exact Eg|done].
Qed.

Lemma gated_inv {A} e token s (next : CA -> CA * A) refused s' a :
  gated e token s next refused = (s', a) ->
  (exists r, a = refused r /\ ca_db s' = ca_db s /\ ca_enroll s' = ca_enroll s /\ ca_auth s' = ca_auth s)
  \/ exists h ip, hello_Consume e token (ca_hello s) = (h, Ok ip)
       /\ next (MkCA (ca_db s) (ca_enroll s) (ca_auth s) h) = (s', a).
Proof.
  unfold gated. destruct (hello_Consume e token (ca_hello s)) as [h [ip|r]] eqn:E.
  - intros E'. right. by exists h, ip.
  - intros [= <- <-]. left. by exists r.
Qed.

Lemma serve_step e q s : db_step (ca_db s) (ca_db (serve keys e q s).1).
Proof.
  destruct q; cbn [serve].
  - destruct (hello_begin _ _ _ _). cbn. auto with go.
  - destruct (hello_end _ _ _ _). cbn. auto with go.
  - destruct (gated _ _ _ _ _) as [s' a] eqn:E. cbn [fst]. apply gated_inv in E as [(r & _ & -> & _)|(h & ip & _ & E)]; [auto with go|].
    cbn in E. destruct (enroll_Step1 _ _ _ _). injection E as <- _. cbn. auto with go.
  - pose proof (enroll_Step2_step e req (ca_db s) (ca_enroll s)) as Hs. by destruct (enroll_Step2 _ _ _ _ _) as [[d p] r].
  - destruct (gated _ _ _ _ _) as [s' a] eqn:E. cbn [fst]. apply gated_inv in E as [(r & _ & -> & _)|(h & ip & _ & E)]; [auto with go|].
    cbn in E. destruct (auth_Step1 _ _ _ _ _). injection E as <- _. cbn. auto with go.
  - pose proof (auth_Step2_step e req (ca_db s) (ca_auth s)) as Hs. by destruct (auth_Step2 _ _ _ _) as [[d p] r].
  - pose proof (OfflineAuthorize_step e req (ca_db s)) as Hs. by destruct (OfflineAuthorize _ _ _ _) as [d r].
  - destruct (ev_db e 0); cbn [fst]; [auto with go|]. split; cbn [ca_db]; auto with go.
  - destruct (ev_db e 0); cbn [fst]; [auto with go|]. split; cbn [ca_db]; auto with go.
  - pose proof (cmdIssueLicense_step e licenseKey permissions seatLimit paidUntil (ca_db s)) as Hs.
    by destruct (cmdIssueLicense _ _ _ _ _ _) as [d r].
  - pose proof (cmdIssueOfflineCert_step e envIDPub licenseKey notAfter (ca_db s)) as Hs.
    by destruct (cmdIssueOfflineCert _ _ _ _ _ _) as [d r].
  - cbn. auto with go.
  - cbn. auto with go.
  - cbn. auto with go.
Qed.
End HandlerLemmas.

Section Admission.
  Context `{CaCrypto} (keys : CaKeys).

(** What the first step of an authorization has checked. *)
Record admitted (e : CaEnv) (cert : EnvCert) (d : DB) (dbCert : EnvCert) : Prop := {
  ad_online : c_Offline cert = false;
  ad_signed : Verify cert (caPub keys) = true;
  ad_row : GetCertByID (c_CertID cert) d = Some dbCert;
  ad_active : is_active dbCert = true;
  ad_license : exists lic, GetLicense (c_LicenseHash dbCert) d = Some lic
    /\ l_Status lic = LicenseActive /\ ev_now e <= l_PaidUntil lic;
}.

Lemma license_check_ok e lic :
  license_check e lic = Ok () <-> l_Status lic = LicenseActive /\ ev_now e <= l_PaidUntil lic.
Proof.
  unfold license_check, check_. case_bool_decide as E; cbn [negb]; [|naive_solver].
  destruct (Z.ltb_spec (l_PaidUntil lic) (ev_now e)); split; try done; intros []; lia.
Qed.

Lemma cert_check_ok e cert d dbCert :
  cert_check keys e cert d = Ok dbCert <->
  ev_db e 0 = false /\ Verify cert (caPub keys) = true /\ GetCertByID (c_CertID cert) d = Some dbCert
  /\ is_active dbCert = true.
Proof.
  unfold cert_check, query, check_. destruct (Verify cert (caPub keys)); cbn [negb]; [|naive_solver].
  destruct (ev_db e 0); cbn [mbind result_bind]; [naive_solver|].
  destruct (GetCertByID (c_CertID cert) d) as [c|]; [|naive_solver].
  destruct (is_active c) eqn:Ea; cbn [negb]; split; [by intros [= ->]|by intros (_ & _ & [= ->] & _)|done|].
  intros (_ & _ & [= ->] & Ha). congruence.
Qed.

Lemma cert_license_ok e i c d lic :
  cert_license e i c d = Ok lic <-> ev_db e i = false /\ GetLicense (c_LicenseHash c) d = Some lic.
Proof.
  unfold cert_license, query. destruct (ev_db e i); cbn [mbind result_bind]; [naive_solver|].
  destruct (GetLicense (c_LicenseHash c) d); naive_solver.
Qed.

Lemma auth_admit_ok e req d dbCert :
  auth_admit keys e req d = Ok dbCert <->
  ev_db e 0 = false /\ ev_db e 1 = false /\ exists cert, req = Some (Some cert) /\ admitted e cert d dbCert.
Proof.
  unfold auth_admit, check_. destruct req as [[cert|]|]; [|naive_solver..]. split.
  - destruct (c_Offline cert) eqn:Eo; [done|]. destruct (cert_check keys e cert d) as [c|] eqn:Ec; [|done].
    cbn [mbind result_bind]. destruct (cert_license e 1 c d) as [lic|] eqn:El; [|done]. cbn [mbind result_bind].
    destruct (license_check e lic) as [[]|] eqn:Ek; [|done]. cbn [mbind result_bind]. intros [= ->].
    apply cert_check_ok in Ec as (H0 & Hs & Hr & Ha). apply cert_license_ok in El as [H1 El]. apply license_check_ok in Ek.
    do 2 (split; [done|]). exists cert. split; [done|]. by split; eauto.
  - intros (H0 & H1 & cert' & [= <-] & [Ho Hs Hr Ha (lic & El & Hl)]). rewrite Ho.
    rewrite (proj2 (cert_check_ok e cert d dbCert)) by done. cbn [mbind result_bind].
    rewrite (proj2 (cert_license_ok e 1 dbCert d lic)) by done. cbn [mbind result_bind].
    by rewrite (proj2 (license_check_ok e lic)).
Qed.

(** A challenge is pending after a request because it was, or because this request was given it. *)
Definition challenged (e : CaEnv) (q : ca_request) (s : CA) (cid : string) (ch : authChallenge) : Prop :=
  exists token cert dbCert,
    q = Authorize token (Some (Some cert)) /\ (serve keys e q s).2 = Challenge (MkChallenge cid (ac_nonce ch))
    /\ admitted e cert (ca_db s) dbCert /\ ac_certID ch = c_CertID dbCert /\ ac_expiresAt ch = ev_now e + challengeTTL.

Definition confirms (cid : string) (q : ca_request) : Prop := exists sig, q = AuthorizeConfirm (Some (cid, sig)).

Lemma auth_Step1_pending e token req s cid ch :
  ca_auth (serve keys e (Authorize token req) s).1 !! cid = Some ch ->
  ca_auth s !! cid = Some ch \/ challenged e (Authorize token req) s cid ch.
Proof.
  unfold challenged. cbn [serve]. destruct (gated _ _ _ _ _) as [s' a] eqn:E. cbn [fst snd].
  apply gated_inv in E as [(r & _ & _ & _ & ->)|(h & ip & _ & E)]; [by left|]. cbn [ca_db ca_auth ca_enroll ca_hello] in E.
  unfold auth_Step1 in E. destruct (auth_admit keys e req (ca_db s)) as [dbCert|] eqn:Ea; [|injection E as <- <-; by left].
  destruct (ev_nonce e) as [nonce|]; [|injection E as <- <-; by left]. injection E as <- <-. cbn [ca_auth].
  apply auth_admit_ok in Ea as (_ & _ & cert & -> & Had). intros [[<- <-]|[_ Hl]]%lookup_insert_Some; [|by left].
  right. exists token, cert, dbCert. by cbn.
Qed.

Lemma serve_pending e q s cid ch :
  ca_auth (serve keys e q s).1 !! cid = Some ch ->
  (ca_auth s !! cid = Some ch /\ ~ confirms cid q) \/ challenged e q s cid ch.
Proof.
  destruct q;
    try match goal with
        | |- context [AuthorizeConfirm] => fail 1
        | |- context [Authorize] => fail 1
        | _ => intros Hl; left; split; [|by intros [? ?]]; revert Hl; cbn [serve]
        end.
  - by destruct (hello_begin _ _ _ _).
  - by destruct (hello_end _ _ _ _).
  - destruct (gated _ _ _ _ _) as [s' a] eqn:E. cbn [fst]. apply gated_inv in E as [(r & _ & _ & _ & ->)|(h & ip & _ & E)]; [done|].
    cbn in E. destruct (enroll_Step1 _ _ _ _). by injection E as <- _.
  - by destruct (enroll_Step2 _ _ _ _ _) as [[d p] r].
  - intros [Hl|Hc]%auth_Step1_pending; [left|by right]. split; [done|by intros [? ?]].
  - cbn [serve]. unfold auth_Step2. destruct req as [[cid' sig]|]; [|cbn; left; split; [done|by intros [? ?]]].
    destruct (ca_auth s !! cid') as [ch'|] eqn:E'.
    + assert (forall d (r : result refusal authStep2Response), ca_auth (MkCA d (ca_enroll s) (delete cid' (ca_auth s)) (ca_hello s), reply_of Authorized r).1 !! cid = Some ch ->
        ca_auth s !! cid = Some ch /\ cid <> cid') as Hd by (intros d r; cbn; rewrite lookup_delete_Some; naive_solver).
      destruct (_ <? _); [|destruct (auth_confirm _ _ _ _) as [d r]]; intros [Hl Hne]%Hd; left; (split; [done|]); by intros [? [= -> _]].
    + cbn. intros Hl. left. split; [done|]. intros [sig' [= -> ->]]. congruence.
  - by destruct (OfflineAuthorize _ _ _ _) as [d r].
  - by destruct (ev_db e 0).
  - by destruct (ev_db e 0).
  - by destruct (cmdIssueLicense _ _ _ _ _ _) as [d r].
  - by destruct (cmdIssueOfflineCert _ _ _ _ _ _) as [d r].
  - done.
  - cbn. unfold auth_sweep. by intros [? _]%map_lookup_filter_Some.
  - done.
Qed.

(** What a second enrolment step that succeeds has done: the certificate is the one the environment
    had, or a new one that is now in the table. *)
Inductive issued (e : CaEnv) (h pub : string) (d d' : DB) (cert : EnvCert) : Prop :=
| issued_before : GetCertByEnvID h pub d = Some cert -> d' = d -> issued e h pub d d' cert
| issued_now lic :
    GetCertByEnvID h pub d = None -> GetLicense h d = Some lic ->
    cert = cert_of (new_payload e h pub lic) (Sign (new_payload e h pub lic) (caPriv keys)) ->
    InsertCert (ev_now e) cert d = Some d' -> issued e h pub d d' cert.

Lemma issue_cert_inv e h pub d d' cert : issue_cert keys e h pub d = (d', Ok cert) -> issued e h pub d d' cert.
Proof.
  unfold issue_cert, query. destruct (ev_db e 0); [done|]. destruct (GetCertByEnvID h pub d) as [c|] eqn:Ee.
  { intros [= <- <-]. by apply issued_before. }
  destruct (ev_db e 1); [done|]. destruct (GetLicense h d) as [lic|] eqn:El; [|done].
  destruct (ev_db e 2); [done|]. destruct (InsertCert _ _ d) as [d2|] eqn:Ei; [|done]. intros [= <- <-]. by apply (issued_now _ _ _ _ _ _ lic).
Qed.

Lemma issue_cert_Err e h pub d d' r : issue_cert keys e h pub d = (d', Err r) -> d' = d.
Proof.
  unfold issue_cert, query. destruct (ev_db e 0); [by intros [= <- _]|]. destruct (GetCertByEnvID h pub d); [done|].
  destruct (ev_db e 1); [by intros [= <- _]|]. destruct (GetLicense h d) as [lic|]; [|by intros [= <- _]].
  destruct (ev_db e 2); [by intros [= <- _]|]. destruct (InsertCert _ _ d); [done|by intros [= <- _]].
Qed.

Lemma Enrolled_inv e req s r :
  (serve keys e (EnrollConfirm req) s).2 = Enrolled r ->
  exists cid sig ch, req = Some (cid, sig) /\ ca_enroll s !! cid = Some ch /\ ev_now e <= pc_expiresAt ch
    /\ ed_verify (pc_envIDPub ch) (pc_nonce ch) sig = true
    /\ issued e (pc_licenseHash ch) (pc_envIDPub ch) (ca_db s) (ca_db (serve keys e (EnrollConfirm req) s).1) (e2_Cert r)
    /\ e2_Permissions r = c_Permissions (e2_Cert r) /\ t_ExpiresAt (e2_SessionToken r) = ev_now e + sessionTokenTTL.
Proof.
  cbn [serve]. unfold enroll_Step2. destruct req as [[cid sig]|]; [|done]. destruct (_ || _); [done|].
  destruct (ca_enroll s !! cid) as [ch|] eqn:Ec; [|done]. destruct (Z.ltb_spec (pc_expiresAt ch) (ev_now e)) as [|Hx]; [done|].
  unfold enroll_confirm. destruct (ed_verify _ _ _) eqn:Ev; [|done]. cbn [negb].
  destruct (issue_cert keys e (pc_licenseHash ch) (pc_envIDPub ch) (ca_db s)) as [d' [cert|]] eqn:Ei; [|done].
  apply issue_cert_inv in Ei. unfold NewSessionToken. cbn [mbind result_bind]. destruct (ev_token e) as [b|]; [|done]. cbn. intros [= <-].
  exists cid, sig, ch. by cbn.
Qed.

Lemma OfflineAuthorized_inv e req s t p :
  (serve keys e (AuthorizeOffline req) s).2 = OfflineAuthorized t p ->
  exists cert c lic, req = Some (Some cert) /\ Verify cert (caPub keys) = true
    /\ GetCertByID (c_CertID cert) (ca_db s) = Some c /\ IsValid (ev_now e) c = true
    /\ GetLicense (c_LicenseHash c) (ca_db s) = Some lic /\ l_Status lic = LicenseActive /\ ev_now e <= l_PaidUntil lic
    /\ p = l_Permissions lic /\ t_ExpiresAt t = ev_now e + sessionTokenTTL.
Proof.
  cbn [serve]. unfold OfflineAuthorize, check_. destruct req as [[cert|]|]; [|done..]. destruct (c_Offline cert); [|done]. cbn [negb].
  destruct (cert_check keys e cert (ca_db s)) as [c|] eqn:Ec; [|done]. cbn [mbind result_bind].
  destruct (IsValid (ev_now e) c) eqn:Ev; [|done]. cbn [negb].
  destruct (cert_license e 1 c (ca_db s)) as [lic|] eqn:El; [|done]. cbn [mbind result_bind].
  destruct (license_check e lic) as [[]|] eqn:Ek; [|done]. cbn [mbind result_bind].
  apply cert_check_ok in Ec as (_ & Hs & Hr & _). apply cert_license_ok in El as [_ El]. apply license_check_ok in Ek as [Hst Hp].
  unfold NewSessionToken. destruct (ev_token e); cbn; [|by destruct (ev_db e 2)].
  intros Hq. assert (MkSessionToken (EncodeToString s0) (l_Permissions lic) (ev_now e + sessionTokenTTL) = t /\ l_Permissions lic = p) as [<- <-]
    by (by destruct (ev_db e 2); injection Hq). exists cert, c, lic. by cbn.
Qed.

(** What the first step of an enrolment has checked. *)
Lemma enroll_admit_ok e req d h pub :
  enroll_admit e req d = Ok (h, pub) ->
  String.length pub = 32%nat /\ exists lic, GetLicense h d = Some lic /\ l_Status lic = LicenseActive
    /\ ev_now e <= l_PaidUntil lic
    /\ (is_Some (GetCertByEnvID h pub d) \/ CountActiveCerts h d < l_SeatLimit lic).
Proof.
  unfold enroll_admit, query, check_. destruct req as [req|]; [|done]. destruct (_ || _) eqn:Eb; [done|]. go_bool.
  destruct (ev_db e 0); [done|]. cbn [mbind result_bind]. destruct (GetLicense _ d) as [lic|] eqn:El; [|done].
  destruct (license_check e lic) as [[]|] eqn:Ek; [|done]. cbn [mbind result_bind]. apply license_check_ok in Ek as [Hst Hp].
  destruct (ev_db e 1); [done|]. cbn [mbind result_bind].
  destruct (GetCertByEnvID _ _ d) as [c|] eqn:Ec; cbn [mbind result_bind].
  - intros [= <- <-]. split; [done|]. exists lic. rewrite Ec. eauto 10.
  - destruct (ev_db e 2); [done|]. cbn [mbind result_bind]. destruct (from_option _ _ _); [done|].
    destruct (ev_db e 3); [done|]. cbn [mbind result_bind]. destruct (Z.leb_spec (l_SeatLimit lic) (CountActiveCerts (HashLicenseKey (e1_LicenseKey req)) d)); [done|].
    intros [= <- <-]. split; [done|]. exists lic. auto.
Qed.

Lemma Enroll_challenge e token req s s1 c :
  serve keys e (Enroll token req) s = (s1, Challenge c) ->
  exists h pub, enroll_admit e req (ca_db s) = Ok (h, pub) /\ ca_db s1 = ca_db s
    /\ ca_enroll s1 = <[ch_ChallengeID c := MkPendingChallenge (ch_Nonce c) h pub (ev_now e + challengeTTL)]> (ca_enroll s).
Proof.
  cbn [serve]. intros [(r & ? & _)|(hh & ip & _ & E)]%gated_inv; [done|]. cbn [ca_db ca_auth ca_enroll ca_hello] in E.
  unfold enroll_Step1 in E. destruct (enroll_admit e req (ca_db s)) as [[h pub]|] eqn:Ea; [|done].
  destruct (ev_nonce e); [|done]. injection E as <- <-. by exists h, pub.
Qed.

(** Issuing a certificate takes a seat of its licence, and of no other. *)
Lemma issued_count e h pub d d' cert h' :
  issued e h pub d d' cert ->
  CountActiveCerts h' d' = CountActiveCerts h' d
    + (if String.eqb h h' && negb (bool_decide (is_Some (GetCertByEnvID h pub d))) then 1 else 0).
Proof.
  intros [Hg ->|lic Hg _ -> Hi].
  - rewrite Hg, bool_decide_eq_true_2 by eauto. rewrite andb_false_r. lia.
  - apply InsertCert_rows in Hi as (_ & _ & E & _). unfold CountActiveCerts. rewrite E, List.filter_app, Hg.
    rewrite bool_decide_eq_false_2, length_app, Nat2Z.inj_add by (by intros [? ?]). cbn.
    change (is_active (stored_cert _)) with true. by destruct (String.eqb h h').
Qed.
End Admission.

(** ** Cryptography for examples *)

(** Toy cryptography: a signature is the key and the text. *)
Definition toy_digest (p : CertPayload) : string :=
  cp_CertID p +:+ "/" +:+ Itoa (cp_IssuedAt p) +:+ "/" +:+ Itoa (cp_NotAfter p).
Definition toy_crypto : CaCrypto := {|
  sha256 := fun s => s;
  payload_digest := toy_digest;
  ed_public := fun k => k;
  ed_sign := fun k m => k +:+ ":" +:+ m;
  ed_verify := fun pub m sig => String.eqb sig (pub +:+ ":" +:+ m);
|}.
Lemma toy_crypto_laws : CaCryptoLaws toy_crypto.
Proof.
  split; cbn.
  - intros k m. apply String.eqb_refl.
  - intros k m m' E%String.eqb_eq. assert (forall p a b : string, p +:+ a = p +:+ b -> a = b) as Hinj.
    { induction p as [|c p IH]; [done|]. intros a b [= Hab]. by apply IH. }
    apply Hinj in E. by injection E.
  - intros k m. by destruct k.
Qed.
