(* ===== verification/CertRuns.v ===== *)
(** * CertRuns: what holds in every history of the certificate authority

    A history is a list of requests, newest first, each with the state it found and the reply it got;
    the clock never goes back, and the server may be restarted between requests, which loses the
    challenges and hello tokens. *)

From Stdlib Require Import ZArith Lia Ascii String.
From stdpp Require Import base list gmap strings.
From S2P Require Import Prelude Strconv Encodings CertAuthority.

Open Scope Z_scope.

Record event := MkEvent { x_pre : CA; x_env : CaEnv; x_req : ca_request; x_reply : ca_reply }.
Definition x_now (x : event) : Z := ev_now (x_env x).

Section Runs.
  Context `{CaCrypto} (keys : CaKeys).

Inductive ca_run : list event -> CA -> Prop :=
| run_start : ca_run [] (NewRouter empty_db)
| run_serve t s e q :
    ca_run t s -> Forall (fun x => x_now x <= ev_now e) t ->
    ca_run (MkEvent s e q (serve keys e q s).2 :: t) (serve keys e q s).1
| run_restart t s : ca_run t s -> ca_run t (NewRouter (ca_db s)).

(** ** The table of certificates *)

Definition row_ids (d : DB) : list string := map (fun r => c_CertID (r_cert r)) (certs d).

Lemma rows_step_ids P l l' : rows_step P l l' -> NoDup (map (fun r => c_CertID (r_cert r)) l) ->
  NoDup (map (fun r => c_CertID (r_cert r)) l').
Proof.
  intros [l2 Hf|row Hn HP] Hd.
  - replace (map _ l2) with (map (fun r => c_CertID (r_cert r)) l); [done|].
    induction Hf as [|r r' l l2 Hr _ IH]; [done|]. cbn in *. rewrite (kr_id _ _ Hr).
    apply NoDup_cons in Hd as [_ Hd]. by rewrite IH.
  - rewrite map_app. apply NoDup_app. split; [done|]. split; [|apply NoDup_singleton].
    intros id Hid%list_elem_of_fmap. destruct Hid as (r & -> & Hr). rewrite Forall_forall in Hn. cbn.
    intros Hs. apply list_elem_of_singleton in Hs. by apply (Hn r).
Qed.

Lemma run_ids t s : ca_run t s -> NoDup (row_ids (ca_db s)).
Proof.
  induction 1 as [|t s e q _ IH _|t s _ IH]; [constructor| |done].
  apply (rows_step_ids (new_row keys (ca_db s)) (certs (ca_db s))); [apply serve_step|done].
Qed.

(** A row found by its identifier is found again after the step. *)
Lemma GetCertByID_iff (d : DB) (id : string) (c : EnvCert) :
  NoDup (row_ids d) -> GetCertByID id d = Some c <-> exists r, r ∈ certs d /\ r_cert r = c /\ c_CertID c = id.
Proof.
  intros Hd. split.
  - intros (r & Hr & E & Hp)%find_cert_Some. exists r. by apply String.eqb_eq in Hp.
  - intros (r & Hr & <- & <-). unfold GetCertByID, find_cert, row_ids in *. induction (certs d) as [|r0 l IH]; [set_solver|].
    cbn in *. apply NoDup_cons in Hd as [Hn Hd]. apply elem_of_cons in Hr as [->|Hr]; [by rewrite String.eqb_refl|].
    destruct (String.eqb_spec (c_CertID (r_cert r0)) (c_CertID (r_cert r))) as [E|_]; [|by apply IH].
    destruct Hn. rewrite E. apply list_elem_of_fmap. by exists r.
Qed.

Lemma row_unique (d : DB) (r r' : CertRow) :
  NoDup (row_ids d) -> r ∈ certs d -> r' ∈ certs d -> c_CertID (r_cert r) = c_CertID (r_cert r') -> r_cert r = r_cert r'.
Proof.
  intros Hd Hr Hr' E. pose proof (proj2 (GetCertByID_iff d (c_CertID (r_cert r')) (r_cert r) Hd)) as G.
  pose proof (proj2 (GetCertByID_iff d (c_CertID (r_cert r')) (r_cert r') Hd)) as G'.
  rewrite G in G' by eauto. symmetry. specialize (G' ltac:(eauto)). congruence.
Qed.

Lemma rows_step_find P l l' r : rows_step P l l' -> r ∈ l -> exists r', r' ∈ l' /\ keeps_row r r'.
Proof.
  intros [l2 Hf|row Hn HP] Hr.
  - induction Hf as [|r0 r' l l2 Hk _ IH]; [set_solver|]. apply elem_of_cons in Hr as [->|Hr]; [exists r'; set_solver|].
    destruct (IH Hr) as (r2 & ? & ?). exists r2. set_solver.
  - exists r. split; [set_solver|auto with go].
Qed.

(** Where a row of the table after a step comes from. *)
Lemma rows_step_back P l l' r' : rows_step P l l' -> r' ∈ l' ->
  (exists r, r ∈ l /\ keeps_row r r') \/ (Forall (fun r => c_CertID (r_cert r) <> c_CertID (r_cert r')) l /\ P r').
Proof.
  intros [l2 Hf|row Hn HP] Hr.
  - left. induction Hf as [|r0 r1 l l2 Hk _ IH]; [set_solver|]. apply elem_of_cons in Hr as [->|Hr]; [exists r0; set_solver|].
    destruct (IH Hr) as (r2 & ? & ?). exists r2. set_solver.
  - apply elem_of_app in Hr as [Hr|Hr]; [left; exists r'; split; [done|auto with go]|].
    apply list_elem_of_singleton in Hr as ->. by right.
Qed.

Lemma step_cert P (d d' : DB) id c :
  NoDup (row_ids d) -> rows_step P (certs d) (certs d') -> GetCertByID id d = Some c ->
  exists c', GetCertByID id d' = Some c' /\ c_CertID c' = c_CertID c /\ c_EnvIDPub c' = c_EnvIDPub c /\ c_LicenseHash c' = c_LicenseHash c.
Proof.
  intros Hd Hs (r & Hr & <- & Hid)%GetCertByID_iff; [|done]. destruct (rows_step_find _ _ _ _ Hs Hr) as (r' & Hr' & []).
  exists (r_cert r'). split; [|by rewrite kr_id, kr_pub, kr_license]. apply GetCertByID_iff; [by eapply rows_step_ids|].
  exists r'. split; [done|]. split; [done|]. congruence.
Qed.

Lemma update_certs_find p f d id c :
  (forall r, keeps_row r (f r)) -> GetCertByID id d = Some c ->
  exists c', GetCertByID id (update_certs p f d) = Some c' /\ c_EnvIDPub c' = c_EnvIDPub c /\ c_LicenseHash c' = c_LicenseHash c.
Proof.
  intros Hf. unfold GetCertByID, find_cert, update_certs. cbn [certs]. induction (certs d) as [|r l IH]; [done|]. cbn.
  set (r' := if p (r_cert r) then f r else r).
  assert (keeps_row r r') as [] by (unfold r'; destruct (p (r_cert r)); auto with go).
  rewrite kr_id. destruct (String.eqb (c_CertID (r_cert r)) id); [|done]. cbn. intros [= <-]. by exists (r_cert r').
Qed.

(** ** Pending challenges *)

(** The request [x] was given the challenge [cid], after the checks on the stored certificate [c]. *)
Definition challenge_event (x : event) (cid nonce : string) (c : EnvCert) : Prop :=
  exists token cert, x_req x = Authorize token (Some (Some cert)) /\ x_reply x = Challenge (MkChallenge cid nonce)
    /\ admitted keys (x_env x) cert (ca_db (x_pre x)) c.

Record pending_origin (t : list event) (s : CA) (cid : string) (ch : authChallenge) : Prop := {
  po_origin : exists newer x older c, t = newer ++ x :: older /\ challenge_event x cid (ac_nonce ch) c
    /\ ac_certID ch = c_CertID c /\ ac_expiresAt ch = x_now x + challengeTTL
    /\ Forall (fun y => ~ confirms cid (x_req y)) newer
    /\ exists cur, GetCertByID (c_CertID c) (ca_db s) = Some cur /\ c_EnvIDPub cur = c_EnvIDPub c;
}.

Lemma admitted_id e cert d c : admitted keys e cert d c -> GetCertByID (c_CertID c) d = Some c.
Proof.
  intros Ha. pose proof (ad_row _ _ _ _ _ Ha) as Hr. assert (c_CertID c = c_CertID cert) as ->; [|done].
  apply find_cert_Some in Hr as (r & _ & _ & Hp). by apply String.eqb_eq in Hp.
Qed.

Lemma run_pending t s cid ch : ca_run t s -> ca_auth s !! cid = Some ch -> pending_origin t s cid ch.
Proof.
  intros Hrun. revert cid ch. induction Hrun as [|t s e q Hrun IH Ht|t s Hrun IH]; intros cid ch Hl;
    [by cbn in Hl; rewrite lookup_empty in Hl| |by cbn in Hl; rewrite lookup_empty in Hl].
  pose proof (run_ids t s Hrun) as Hids. destruct (serve_step keys e q s) as [Hrows _].
  apply serve_pending in Hl as [[Hl Hnc]|(token & cert & c & -> & Hrep & Had & Hid & Hex)].
  - destruct (IH cid ch Hl) as [(newer & x & older & c & -> & Hx & Hid & Hex & Hn & cur & Hc & Hp)].
    destruct (step_cert _ _ _ _ _ Hids Hrows Hc) as (cur' & Hc' & _ & Hp' & _).
    split. exists (MkEvent s e q (serve keys e q s).2 :: newer), x, older, c. do 4 (split; [done|]).
    split; [by constructor|]. exists cur'. split; [done|]. congruence.
  - destruct (step_cert _ _ _ _ _ Hids Hrows (admitted_id _ _ _ _ Had)) as (cur' & Hc' & _ & Hp' & _).
    split. eexists [], _, t, c. split; [done|]. split; [exists token, cert; by cbn|]. do 2 (split; [done|]).
    split; [constructor|]. by exists cur'.
Qed.

(** What a session token given by the second step tells. *)
Lemma Authorized_inv e cid sig s r :
  (serve keys e (AuthorizeConfirm (Some (cid, sig))) s).2 = Authorized r ->
  exists ch c lic, ca_auth s !! cid = Some ch /\ ev_now e <= ac_expiresAt ch
    /\ GetCertByID (ac_certID ch) (ca_db s) = Some c /\ ed_verify (c_EnvIDPub c) (ac_nonce ch) sig = true
    /\ GetLicense (c_LicenseHash c) (ca_db s) = Some lic /\ a2_Permissions r = l_Permissions lic
    /\ t_Permissions (a2_SessionToken r) = l_Permissions lic /\ t_ExpiresAt (a2_SessionToken r) = ev_now e + sessionTokenTTL.
Proof.
  cbn [serve]. unfold auth_Step2. destruct (ca_auth s !! cid) as [ch|]; [|done].
  destruct (Z.ltb_spec (ac_expiresAt ch) (ev_now e)) as [|Hx]; [done|]. unfold auth_confirm, query.
  destruct (ev_db e 0); [done|]. destruct (GetCertByID (ac_certID ch) (ca_db s)) as [c|] eqn:Ec; [|done].
  destruct (ed_verify _ _ _) eqn:Ev; [|done]. cbn [negb]. destruct (cert_license e 1 c (ca_db s)) as [lic|] eqn:El; [|done].
  apply cert_license_ok in El as [_ El]. destruct (renew e c (ac_certID ch) (ca_db s)) as [d t]. unfold NewSessionToken.
  destruct (ev_token e) as [b|]; cbn; [|done]. intros [= <-]. exists ch, c, lic. by cbn.
Qed.

Lemma run_replies t s : ca_run t s -> Forall (fun y => x_reply y = (serve keys (x_env y) (x_req y) (x_pre y)).2) t.
Proof. induction 1; [constructor|by constructor|done]. Qed.

(** ** Revocation *)

Record locked (id : string) (until : Z) (s : CA) : Prop := {
  lk_present : id ∈ row_ids (ca_db s);
  lk_revoked : forall r, r ∈ certs (ca_db s) -> c_CertID (r_cert r) = id -> c_Status (r_cert r) = CertRevoked;
  lk_pending : forall cid ch, ca_auth s !! cid = Some ch -> ac_certID ch = id -> ac_expiresAt ch <= until;
}.

Lemma locked_inactive id until s c : locked id until s -> GetCertByID id (ca_db s) = Some c -> is_active c = false.
Proof.
  intros Hl (r & Hr & <- & Hp)%find_cert_Some. apply String.eqb_eq in Hp. unfold is_active.
  by rewrite (lk_revoked _ _ _ Hl r Hr Hp).
Qed.

Lemma locked_serve id until e q s : locked id until s -> locked id until (serve keys e q s).1.
Proof.
  intros Hl. destruct (serve_step keys e q s) as [Hrows _]. split.
  - pose proof (lk_present _ _ _ Hl) as (r & -> & Hr)%list_elem_of_fmap. destruct (rows_step_find _ _ _ _ Hrows Hr) as (r' & Hr' & Hk).
    apply list_elem_of_fmap. exists r'. by rewrite (kr_id _ _ Hk).
  - intros r' Hr' Hid. destruct (rows_step_back _ _ _ _ Hrows Hr') as [(r & Hr & Hk)|[Hnew _]].
    + pose proof (lk_revoked _ _ _ Hl r Hr) as Hst. rewrite <- (kr_id _ _ Hk) in Hst. specialize (Hst Hid).
      destruct (kr_status _ _ Hk); congruence.
    + pose proof (lk_present _ _ _ Hl) as (r & E & Hr)%list_elem_of_fmap. rewrite Forall_forall in Hnew.
      destruct (Hnew r Hr). congruence.
  - intros cid ch Hp Hid. apply serve_pending in Hp as [[Hp _]|(token & cert & c & -> & _ & Had & Hc & _)].
    + by apply (lk_pending _ _ _ Hl cid).
    + pose proof (admitted_id _ _ _ _ Had) as Hg. rewrite <- Hc, Hid in Hg. pose proof (locked_inactive _ _ _ _ Hl Hg).
      pose proof (ad_active _ _ _ _ _ Had). congruence.
Qed.

Lemma locked_restart id until s : locked id until s -> locked id until (NewRouter (ca_db s)).
Proof. intros []. split; [done..|]. intros cid ch Hp. cbn in Hp. by rewrite lookup_empty in Hp. Qed.

Lemma locked_start t s id e :
  ca_run t s -> Forall (fun x => x_now x <= ev_now e) t -> id ∈ row_ids (ca_db s) ->
  (serve keys e (DeleteCert id) s).2 = Done -> locked id (ev_now e + challengeTTL) (serve keys e (DeleteCert id) s).1.
Proof.
  intros Hrun Ht Hid. cbn [serve]. destruct (ev_db e 0); [done|]. intros _. cbn [fst]. split; cbn [ca_db ca_auth].
  - unfold row_ids in *. cbn. rewrite map_map. replace (map _ _) with (map (fun r => c_CertID (r_cert r)) (certs (ca_db s))); [done|].
    apply map_ext. intros r. by destruct (has_id id (r_cert r)).
  - intros r Hr Hi. cbn in Hr. apply list_elem_of_fmap in Hr as (r0 & -> & Hr0). unfold has_id in *.
    destruct (String.eqb_spec (c_CertID (r_cert r0)) id); [done|]. congruence.
  - intros cid ch Hp _. destruct (run_pending t s cid ch Hrun Hp) as [(newer & x & older & c & -> & _ & _ & -> & _)].
    apply Forall_app in Ht as [_ Ht]. apply Forall_cons in Ht as [Hx _]. lia.
Qed.

Lemma run_locked t s newer x older id :
  ca_run t s -> t = newer ++ x :: older -> x_req x = DeleteCert id -> x_reply x = Done -> id ∈ row_ids (ca_db (x_pre x)) ->
  Forall (fun y => locked id (x_now x + challengeTTL) (x_pre y)) newer /\ locked id (x_now x + challengeTTL) s.
Proof.
  intros Hrun. revert newer x older. induction Hrun as [|t s e q Hrun IH Ht|t s Hrun IH]; intros newer x older E Hq Hr Hid.
  - by destruct newer.
  - destruct newer as [|y newer]; injection E as <- ->.
    + cbn in *. subst q. split; [constructor|]. by apply (locked_start older).
    + destruct (IH newer x older eq_refl Hq Hr Hid) as [Hn Hs]. split; [by constructor|by apply locked_serve].
  - destruct (IH newer x older E Hq Hr Hid) as [Hn Hs]. split; [done|by apply locked_restart].
Qed.

(** The event gives a session token on account of the certificate [id]. *)
Inductive token_for (id : string) (y : event) : Prop :=
| token_online cid sig r ch :
    x_req y = AuthorizeConfirm (Some (cid, sig)) -> x_reply y = Authorized r ->
    ca_auth (x_pre y) !! cid = Some ch -> ac_certID ch = id -> token_for id y
| token_offline cert t p :
    x_req y = AuthorizeOffline (Some (Some cert)) -> x_reply y = OfflineAuthorized t p -> c_CertID cert = id -> token_for id y
| token_enrolled req r :
    x_req y = EnrollConfirm req -> x_reply y = Enrolled r -> c_CertID (e2_Cert r) = id ->
    token_for id y.

Lemma locked_token id until y :
  locked id until (x_pre y) -> x_reply y = (serve keys (x_env y) (x_req y) (x_pre y)).2 -> token_for id y -> x_now y <= until.
Proof.
  intros Hl Hy [cid sig r ch Hq Hr Hc Hid|cert t p Hq Hr Hid|req r Hq Hr Hid]; rewrite Hq, Hr in Hy; symmetry in Hy.
  - apply Authorized_inv in Hy as (ch' & _ & _ & Hc' & Hx & _). rewrite Hc in Hc'. injection Hc' as <-.
    pose proof (lk_pending _ _ _ Hl cid ch Hc Hid). unfold x_now. lia.
  - apply OfflineAuthorized_inv in Hy as (cert' & c & lic & [= <-] & _ & Hg & Hv & _). rewrite Hid in Hg.
    pose proof (locked_inactive _ _ _ _ Hl Hg) as Ha. unfold IsValid in Hv. unfold is_active in Ha. by rewrite Ha in Hv.
  - apply Enrolled_inv in Hy as (cid & sig & ch & _ & _ & _ & _ & Hi & _).
    destruct Hi as [Hg _|lic _ _ Hcert Hi].
    + apply find_cert_Some in Hg as (row & Hrow & E & Hp). rewrite <- E in *. pose proof (lk_revoked _ _ _ Hl row Hrow Hid) as Hst.
      unfold is_active in Hp. rewrite Hst in Hp. cbn in Hp. by rewrite andb_false_r in Hp.
    + apply InsertCert_rows in Hi as (Hn & _). rewrite Hcert in Hid, Hn. cbn in Hid, Hn. apply find_cert_None in Hn. rewrite Forall_forall in Hn.
      pose proof (lk_present _ _ _ Hl) as (row & E & Hrow)%list_elem_of_fmap. specialize (Hn row Hrow). cbn in Hn.
      apply String.eqb_neq in Hn. congruence.
Qed.

Lemma locked_challenge id until y token cert :
  locked id until (x_pre y) -> x_reply y = (serve keys (x_env y) (x_req y) (x_pre y)).2 ->
  x_req y = Authorize token (Some (Some cert)) -> c_CertID cert = id -> exists r, x_reply y = Refused r.
Proof.
  intros Hl -> -> Hid. cbn [serve]. destruct (gated _ _ _ _ _) as [s' a] eqn:E. cbn [snd].
  apply gated_inv in E as [(r & -> & _)|(h & ip & _ & E)]; [by exists r|]. cbn [ca_db ca_auth ca_enroll ca_hello] in E.
  unfold auth_Step1 in E. destruct (auth_admit keys (x_env y) (Some (Some cert)) (ca_db (x_pre y))) as [c|r] eqn:Ea;
    [|injection E as _ <-; by exists r].
  apply auth_admit_ok in Ea as (_ & _ & cert' & [= <-] & Had). pose proof (ad_row _ _ _ _ _ Had) as Hr. rewrite Hid in Hr.
  pose proof (locked_inactive _ _ _ _ Hl Hr). pose proof (ad_active _ _ _ _ _ Had). congruence.
Qed.

(** ** Issued certificates *)

(** What every row is: a certificate the authority has signed, its times as they are stored, with the
    permissions of a licence that exists. *)
Definition row_ok (d : DB) (r : CertRow) : Prop :=
  exists p lic, c_Signature (r_cert r) = Sign p (caPriv keys) /\ cp_CertID p = c_CertID (r_cert r)
    /\ cp_LicenseHash p = c_LicenseHash (r_cert r) /\ cp_EnvIDPub p = c_EnvIDPub (r_cert r)
    /\ cp_Permissions p = c_Permissions (r_cert r) /\ cp_Offline p = c_Offline (r_cert r)
    /\ rfc3339 (cp_IssuedAt p) = c_IssuedAt (r_cert r)
    /\ GetLicense (c_LicenseHash (r_cert r)) d = Some lic /\ c_Permissions (r_cert r) = l_Permissions lic.

Lemma row_ok_keeps d d' r r' : row_ok d r -> keeps_row r r' -> licenses_step (licenses d) (licenses d') -> row_ok d' r'.
Proof.
  intros (p & lic & ? & ? & ? & ? & ? & ? & ? & Hl & Hp) [] Hs. destruct (Hs _ _ Hl) as (lic' & Hl' & _ & Hp' & _).
  exists p, lic'. rewrite kr_license. repeat split; try congruence. done.
Qed.

Lemma row_ok_new d d' r : new_row keys d r -> licenses_step (licenses d) (licenses d') -> row_ok d' r.
Proof.
  intros (p & lic & E & Hl & Hp) Hs. destruct (Hs _ _ Hl) as (lic' & Hl' & _ & Hp' & _). exists p, lic'. rewrite E. cbn.
  repeat split; try congruence.
Qed.

Lemma run_rows_ok t s : ca_run t s -> Forall (row_ok (ca_db s)) (certs (ca_db s)).
Proof.
  induction 1 as [|t s e q Hrun IH _|t s _ IH]; [constructor| |done]. destruct (serve_step keys e q s) as [Hr Hl].
  rewrite Forall_forall in *. intros r' Hr'. destruct (rows_step_back _ _ _ _ Hr Hr') as [(r & Hin & Hk)|[_ Hn]].
  - apply (row_ok_keeps (ca_db s) _ r); auto.
  - by apply (row_ok_new (ca_db s)).
Qed.

(** The event issued the certificate, which was not in the table. *)
Definition issues (x : event) (cert : EnvCert) : Prop :=
  exists req r, x_req x = EnrollConfirm req /\ x_reply x = Enrolled r /\ e2_Cert r = cert
    /\ GetCertByID (c_CertID cert) (ca_db (x_pre x)) = None.

Lemma issues_row e req s r :
  (serve keys e (EnrollConfirm req) s).2 = Enrolled r -> GetCertByID (c_CertID (e2_Cert r)) (ca_db s) = None ->
  (exists p, e2_Cert r = cert_of p (Sign p (caPriv keys)) /\ cp_Offline p = false) /\
  exists row, row ∈ certs (ca_db (serve keys e (EnrollConfirm req) s).1) /\ r_cert row = stored_cert (e2_Cert r).
Proof.
  intros (cid & sig & ch & _ & _ & _ & _ & Hi & _)%Enrolled_inv Hnew. destruct Hi as [Hg _|lic _ _ Hc Hi].
  - apply find_cert_Some in Hg as (row & Hrow & E & _). apply find_cert_None in Hnew. rewrite Forall_forall in Hnew.
    specialize (Hnew row Hrow). rewrite E in Hnew. by rewrite String.eqb_refl in Hnew.
  - split; [by eexists|]. apply InsertCert_rows in Hi as (_ & _ & -> & _).
    exists (MkCertRow (stored_cert (e2_Cert r)) (rfc3339 (ev_now e))). set_solver.
Qed.

Lemma run_issued t s x cert :
  ca_run t s -> x ∈ t -> issues x cert ->
  (exists p, cert = cert_of p (Sign p (caPriv keys)) /\ cp_Offline p = false) /\
  exists r0 row, r_cert r0 = stored_cert cert /\ row ∈ certs (ca_db s) /\ keeps_row r0 row.
Proof.
  induction 1 as [|t s e q Hrun IH _|t s _ IH]; intros Hx Hi; [set_solver| |by apply IH].
  apply elem_of_cons in Hx as [->|Hx].
  - destruct Hi as (req & r & Hq & Hr & <- & Hnew). cbn in Hq, Hr, Hnew. subst q.
    destruct (issues_row e req s r Hr Hnew) as [Hp (row & Hrow & E)]. split; [done|]. exists row, row. auto with go.
  - destruct (IH Hx Hi) as [Hp (r0 & row & E & Hrow & Hk)]. split; [done|].
    destruct (rows_step_find _ _ _ _ (proj1 (serve_step keys e q s)) Hrow) as (row' & Hrow' & Hk').
    exists r0, row'. split; [done|]. split; [done|]. by apply (keeps_row_trans r0 row).
Qed.

(** A certificate the authority has signed verifies, and a changed one does not. *)
Lemma Verify_signed `{!CaCryptoLaws _} (p : CertPayload) :
  caPub keys = ed_public (caPriv keys) -> Verify (cert_of p (Sign p (caPriv keys))) (caPub keys) = true.
Proof. intros ->. unfold Verify, Sign. destruct p. apply ed_verify_sign. Qed.

Lemma Verify_changed `{!CaCryptoLaws _} (p : CertPayload) (c : EnvCert) :
  caPub keys = ed_public (caPriv keys) -> c_Signature c = Sign p (caPriv keys) ->
  payload_digest (payload_of c) <> payload_digest p -> Verify c (caPub keys) = false.
Proof.
  intros -> Hs Hd. unfold Verify. rewrite Hs. unfold Sign. apply not_true_iff_false. intros Hv. by apply ed_verify_other in Hv.
Qed.

(** ** Confirming and revoking *)

Lemma enroll_confirm_count e cid sig s h (s' := (serve keys e (EnrollConfirm (Some (cid, sig))) s).1) :
  CountActiveCerts h (ca_db s') = CountActiveCerts h (ca_db s)
  \/ exists ch, ca_enroll s !! cid = Some ch
       /\ exists cert, issued keys e (pc_licenseHash ch) (pc_envIDPub ch) (ca_db s) (ca_db s') cert.
Proof.
  subst s'. cbn [serve]. unfold enroll_Step2. destruct (_ || _); [by left|]. destruct (ca_enroll s !! cid) as [ch|]; [|by left].
  destruct (_ <? _); [by left|]. unfold enroll_confirm. destruct (negb _); [by left|].
  destruct (issue_cert keys e (pc_licenseHash ch) (pc_envIDPub ch) (ca_db s)) as [d r] eqn:E. cbn.
  destruct r as [cert|r].
  - right. exists ch. split; [done|]. exists cert. by apply issue_cert_inv.
  - left. by rewrite (issue_cert_Err _ _ _ _ _ _ _ E).
Qed.

Lemma enroll_confirm_pending e cid cid' sig s :
  cid <> cid' -> ca_enroll (serve keys e (EnrollConfirm (Some (cid, sig))) s).1 !! cid' = ca_enroll s !! cid'.
Proof.
  intros Hne. cbn [serve]. unfold enroll_Step2. destruct (_ || _); [done|]. destruct (ca_enroll s !! cid) as [ch|]; [|done].
  destruct (_ <? _); [by cbn; rewrite lookup_delete_ne|]. destruct (enroll_confirm _ _ _ _ _). by cbn; rewrite lookup_delete_ne.
Qed.

(** A revocation leaves the certificate and the licence to be found. *)
Lemma revoke_finds d id c lic d' :
  GetCertByID id d = Some c -> GetLicense (c_LicenseHash c) d = Some lic ->
  d' = d \/ d' = RevokeCert id d \/ d' = RevokeLicense (c_LicenseHash c) d ->
  exists c' lic', GetCertByID id d' = Some c' /\ c_EnvIDPub c' = c_EnvIDPub c
    /\ GetLicense (c_LicenseHash c') d' = Some lic' /\ l_Permissions lic' = l_Permissions lic.
Proof.
  intros Hc Hl [->|[->|Hd]]; [by exists c, lic|..].
  - destruct (update_certs_find (has_id id) (fun r => MkCertRow (set_status CertRevoked (r_cert r)) (r_last_seen r)) d id c)
      as (c' & Hc' & Hp & Hh); [by intros r; split; auto|done|]. exists c', lic. by rewrite Hh.
  - destruct (RevokeLicense_step (c_LicenseHash c) d _ _ Hl) as (lic' & Hl' & _ & Hpe & _). rewrite <- Hd in Hl'.
    destruct (update_certs_find (fun c0 => String.eqb (c_LicenseHash c0) (c_LicenseHash c))
      (fun r => MkCertRow (set_status CertRevoked (r_cert r)) (r_last_seen r)) (MkDB (licenses d') (certs d)) id c)
      as (c' & Hc' & Hp & Hh); [by intros r; split; auto|done|]. exists c', lic'. rewrite Hh. subst d'. done.
Qed.

(** ** The hello gate *)

Definition waiting_from (ip : string) (h : HelloHandler) : Z :=
  Z.of_nat (length (List.filter (fun w => String.eqb w.1 ip) (hh_waiting h))).
Definition hello_inv (h : HelloHandler) : Prop :=
  forall ip, ip_count ip h = waiting_from ip h /\ waiting_from ip h <= MaxConcurrentHelloPerIP.

Lemma remove_first_count (w : string * Z) (l : list (string * Z)) (ip : string) :
  existsb (waiter_eqb w) l = true ->
  Z.of_nat (length (List.filter (fun v => String.eqb v.1 ip) (remove_first (waiter_eqb w) l)))
  = Z.of_nat (length (List.filter (fun v => String.eqb v.1 ip) l)) - (if String.eqb w.1 ip then 1 else 0).
Proof.
  induction l as [|v l IH]; [done|]. cbn [existsb remove_first]. destruct (waiter_eqb w v) eqn:E.
  - intros _. unfold waiter_eqb in E. apply andb_true_iff in E as [E _]. apply String.eqb_eq in E. cbn. rewrite E.
    destruct (String.eqb v.1 ip); cbn [length]; lia.
  - cbn. intros Hl. specialize (IH Hl). destruct (String.eqb v.1 ip); cbn [length]; lia.
Qed.

Lemma hello_begin_inv e fwd addr h : hello_inv h -> hello_inv (hello_begin e fwd addr h).1.
Proof.
  intros Hi. unfold hello_begin. set (ip0 := clientIP fwd addr).
  destruct (Z.ltb_spec MaxConcurrentHelloPerIP (ip_count ip0 (add_count ip0 1 h))) as [Hc|Hc]; cbn [fst]; intros ip; destruct (Hi ip) as [H1 H2].
  - rewrite !ip_count_add. unfold waiting_from in *. cbn [add_count hh_waiting]. destruct (String.eqb ip0 ip); lia.
  - rewrite ip_count_add, String.eqb_refl in Hc. unfold waiting_from in *. cbn [hh_waiting List.filter fst].
    change (ip_count ip (MkHelloHandler _ _ _)) with (ip_count ip (add_count ip0 1 h)). rewrite ip_count_add.
    change (hh_waiting (add_count ip0 1 h)) with (hh_waiting h).
    destruct (String.eqb_spec ip0 ip) as [E|_]; [rewrite E in Hc|]; cbn [length]; lia.
Qed.

Lemma hello_end_inv e w connected h : hello_inv h -> hello_inv (hello_end e w connected h).1.
Proof.
  intros Hi. unfold hello_end. destruct (existsb (waiter_eqb w) (hh_waiting h)) eqn:Ex; cbn [negb]; [|done].
  destruct (_ && _); [done|].
  assert (hello_inv (add_count w.1 (-1) (MkHelloHandler (hh_tokens h) (hh_ipPending h) (remove_first (waiter_eqb w) (hh_waiting h))))) as Hi'.
  { intros ip. destruct (Hi ip) as [H1 H2]. rewrite ip_count_add. unfold waiting_from in *. cbn [add_count hh_waiting].
    rewrite remove_first_count by done. unfold ip_count in *. cbn [hh_ipPending]. destruct (String.eqb w.1 ip); lia. }
  destruct (negb connected); [done|]. destruct (ev_token e); done.
Qed.

Lemma hello_Consume_inv e token h : hello_inv h -> hello_inv (hello_Consume e token h).1.
Proof.
  intros Hi. unfold hello_Consume. destruct (String.eqb token ""); [done|]. destruct (hh_tokens h !! token); [|done].
  by destruct (_ <? _).
Qed.

Lemma hello_sweep_inv now h : hello_inv h -> hello_inv (hello_sweep now h).
Proof.
  intros Hi ip. destruct (Hi ip) as [H1 H2]. split; [|done]. unfold waiting_from in *. cbn [hello_sweep hh_waiting].
  rewrite <- H1. unfold ip_count. cbn [hello_sweep hh_ipPending]. rewrite map_lookup_filter.
  destruct (hh_ipPending h !! ip) as [n|]; cbn; [|done]. destruct (decide (n = 0)) as [->|]; [done|]. by rewrite option_guard_True.
Qed.

Lemma serve_hello_inv e q s : hello_inv (ca_hello s) -> hello_inv (ca_hello (serve keys e q s).1).
Proof.
  intros Hi. destruct q; cbn [serve]; try done.
  - pose proof (hello_begin_inv e forwarded remoteAddr _ Hi). by destruct (hello_begin _ _ _ _).
  - pose proof (hello_end_inv e waiter connected _ Hi). by destruct (hello_end _ _ _ _).
  - unfold gated. pose proof (hello_Consume_inv e token _ Hi). destruct (hello_Consume _ _ _) as [h [ip|r]]; [|done].
    by destruct (enroll_Step1 _ _ _ _).
  - by destruct (enroll_Step2 _ _ _ _ _) as [[d p] r].
  - unfold gated. pose proof (hello_Consume_inv e token _ Hi). destruct (hello_Consume _ _ _) as [h [ip|r]]; [|done].
    by destruct (auth_Step1 _ _ _ _ _).
  - by destruct (auth_Step2 _ _ _ _) as [[d p] r].
  - by destruct (OfflineAuthorize _ _ _ _).
  - by destruct (ev_db e 0).
  - by destruct (ev_db e 0).
  - by destruct (cmdIssueLicense _ _ _ _ _ _).
  - by destruct (cmdIssueOfflineCert _ _ _ _ _ _).
  - by apply hello_sweep_inv.
Qed.

(** ** Properties *)

(** C9. In every history of the authority, a session token of the second step is given only to the holder of
    the environment key: the challenge it answers was issued at most two minutes before, to a request
    whose certificate the authority had signed, which was then active and its licence active and paid; the
    signature is one of that challenge's nonce under the key of the certificate; and no other request has
    used the challenge since, so each challenge gives at most one token. *)
Theorem token_needs_fresh_challenge (t : list event) (s : CA) (e : CaEnv) (cid sig : string) (r : authStep2Response) :
  ca_run t s -> (serve keys e (AuthorizeConfirm (Some (cid, sig))) s).2 = Authorized r ->
  exists newer x older nonce c, t = newer ++ x :: older /\ challenge_event x cid nonce c
    /\ ev_now e <= x_now x + challengeTTL /\ ed_verify (c_EnvIDPub c) nonce sig = true
    /\ Forall (fun y => ~ confirms cid (x_req y)) newer
    /\ t_ExpiresAt (a2_SessionToken r) = ev_now e + sessionTokenTTL.
Proof.
  intros Hrun (ch & cur & lic & Hp & Hx & Hc & Hv & _ & _ & _ & Ht)%Authorized_inv.
  destruct (run_pending t s cid ch Hrun Hp) as [(newer & x & older & c & -> & Hev & Hid & Hex & Hn & cur' & Hc' & Hpub)].
  rewrite Hid, Hc' in Hc. injection Hc as <-. exists newer, x, older, (ac_nonce ch), c. rewrite <- Hpub.
  repeat split; try done. lia.
Qed.

(** C25. Revoking a certificate takes effect within two minutes: in every history, once its row is revoked no
    request gets a challenge for it, and no request gets a session token on its account, be it online,
    offline or by enrolling again, later than the lifetime of a challenge that was pending. *)
Theorem revoked_cert_locked_out (newer : list event) (x : event) (older : list event) (s : CA) (id : string) :
  ca_run (newer ++ x :: older) s -> x_req x = DeleteCert id -> x_reply x = Done -> id ∈ row_ids (ca_db (x_pre x)) ->
  Forall (fun y =>
    (token_for id y -> x_now y <= x_now x + challengeTTL)
    /\ forall token cert, x_req y = Authorize token (Some (Some cert)) -> c_CertID cert = id ->
         exists r, x_reply y = Refused r) newer.
Proof.
  intros Hrun Hq Hr Hid. destruct (run_locked _ _ newer x older id Hrun eq_refl Hq Hr Hid) as [Hl _].
  pose proof (run_replies _ _ Hrun) as Hy. apply Forall_app in Hy as [Hy _].
  rewrite Forall_forall in *. intros y Hin. specialize (Hl y Hin). specialize (Hy y Hin). split.
  - by apply locked_token.
  - intros token cert. by apply (locked_challenge id (x_now x + challengeTTL)).
Qed.

(** Everything in the table is in order: identifiers are distinct, and every row is a certificate the
    authority signed for an environment, with the permissions of a licence that exists. *)
Theorem stored_certs_signed (t : list event) (s : CA) :
  ca_run t s -> NoDup (row_ids (ca_db s)) /\ Forall (row_ok (ca_db s)) (certs (ca_db s)).
Proof. intros Hrun. split; [by apply (run_ids t)|by apply (run_rows_ok t)]. Qed.

(** A certificate is good for as long as it is not revoked: in every later state of a history, an
    environment that shows the certificate it was issued is given a challenge, when its row is active, its
    licence active and paid, its hello token good, and nothing fails.  The end of the certificate's own
    validity does not matter. *)
Theorem issued_cert_gets_challenge `{!CaCryptoLaws _} (t : list event) (s : CA) (x : event) (cert row : EnvCert)
    (lic : License) (e : CaEnv) (token ip : string) (h : HelloHandler) (nonce : string) :
  ca_run t s -> x ∈ t -> issues x cert -> caPub keys = ed_public (caPriv keys) ->
  GetCertByID (c_CertID cert) (ca_db s) = Some row -> is_active row = true ->
  GetLicense (c_LicenseHash cert) (ca_db s) = Some lic -> l_Status lic = LicenseActive -> ev_now e <= l_PaidUntil lic ->
  hello_Consume e token (ca_hello s) = (h, Ok ip) -> ev_db e 0 = false -> ev_db e 1 = false -> ev_nonce e = Some nonce ->
  (serve keys e (Authorize token (Some (Some cert))) s).2
  = Challenge (MkChallenge (EncodeToString (String.substring 0 8 nonce)) nonce).
Proof.
  intros Hrun Hx Hi Hpub Hrow Hact Hlic Hst Hpaid Hhello H0 H1 Hn.
  destruct (run_issued t s x cert Hrun Hx Hi) as [(p & Ep & Eo) (r0 & r & E0 & Hr & Hk)].
  assert (c_LicenseHash row = c_LicenseHash cert) as El.
  { apply GetCertByID_iff in Hrow as (r' & Hr' & <- & Hid); [|by apply (run_ids t)].
    rewrite (row_unique (ca_db s) r' r); [by rewrite (kr_license _ _ Hk), E0|by apply (run_ids t)|done..|].
    by rewrite (kr_id _ _ Hk), E0. }
  cbn [serve]. unfold gated. rewrite Hhello. cbn [ca_db ca_auth ca_enroll ca_hello]. unfold auth_Step1.
  rewrite (proj2 (auth_admit_ok keys e (Some (Some cert)) (ca_db s) row)), Hn; [done|]. do 2 (split; [done|]). exists cert.
  split; [done|]. split; [by rewrite Ep|rewrite Ep; by apply Verify_signed|done..|]. exists lic. by rewrite El.
Qed.

(** Enrolling again gives back the certificate of the first time as the database has it, its times cut to
    seconds and its end moved by renewals, with the signature of the first time.  Such a certificate does
    not verify, and shown to the authority it is refused. *)
Theorem reenrolled_cert_refused `{!CaCryptoLaws _} (t : list event) (s : CA) (x : event) (cert : EnvCert)
    (e e' : CaEnv) (req : option (string * string)) (r : enrollStep2Response) (token : string) :
  ca_run t s -> x ∈ t -> issues x cert -> caPub keys = ed_public (caPriv keys) ->
  (serve keys e (EnrollConfirm req) s).2 = Enrolled r -> c_CertID (e2_Cert r) = c_CertID cert ->
  payload_digest (payload_of (e2_Cert r)) <> payload_digest (payload_of cert) ->
  Verify cert (caPub keys) = true /\ Verify (e2_Cert r) (caPub keys) = false
  /\ c_IssuedAt (e2_Cert r) = rfc3339 (c_IssuedAt cert)
  /\ forall s', exists why, (serve keys e' (Authorize token (Some (Some (e2_Cert r)))) s').2 = Refused why.
Proof.
  intros Hrun Hx Hi Hpub Hr Hid Hd. destruct (run_issued t s x cert Hrun Hx Hi) as [(p & Ep & Eo) (r0 & row & E0 & Hrow & Hk)].
  assert (r_cert row = e2_Cert r) as Er.
  { apply Enrolled_inv in Hr as (cid & sig & ch & _ & _ & _ & _ & Hiss & _). destruct Hiss as [Hg _|lic _ _ _ Hin].
    - apply find_cert_Some in Hg as (row' & Hrow' & Er' & _). rewrite <- Er'.
      apply (row_unique (ca_db s)); [by apply (run_ids t)|done..|]. by rewrite (kr_id _ _ Hk), E0, Er', Hid.
    - apply InsertCert_rows in Hin as (Hn & _). apply find_cert_None in Hn. rewrite Forall_forall in Hn. specialize (Hn row Hrow).
      cbn in Hn. rewrite (kr_id _ _ Hk), E0, Hid in Hn. cbn in Hn. by rewrite String.eqb_refl in Hn. }
  assert (Verify (e2_Cert r) (caPub keys) = false) as Hv.
  { apply (Verify_changed p); [done|by rewrite <- Er, (kr_signature _ _ Hk), E0, Ep|]. rewrite Ep in Hd. by destruct p. }
  split; [rewrite Ep; by apply Verify_signed|]. split; [done|].
  split; [by rewrite <- Er, (kr_issued _ _ Hk), E0|]. intros s'. cbn [serve].
  destruct (gated _ _ _ _ _) as [s2 a] eqn:E. cbn [snd]. apply gated_inv in E as [(why & -> & _)|(h & ip & _ & E)]; [by exists why|].
  cbn in E. unfold auth_Step1 in E. destruct (auth_admit keys e' _ _) as [c|why] eqn:Ea; [|injection E as _ <-; by exists why].
  apply auth_admit_ok in Ea as (_ & _ & c0 & [= <-] & Had). pose proof (ad_signed _ _ _ _ _ Had). congruence.
Qed.

(** An enrolment whose second step follows its first keeps to the seats of the licence: it leaves no more
    active certificates than the limit, or than there were. *)
Theorem enrolment_respects_seats (e e' : CaEnv) (token sig h : string) (req : option enrollStep1Request) (s s1 : CA)
    (c : challenge) (lic : License) :
  serve keys e (Enroll token req) s = (s1, Challenge c) -> GetLicense h (ca_db s) = Some lic ->
  CountActiveCerts h (ca_db (serve keys e' (EnrollConfirm (Some (ch_ChallengeID c, sig))) s1).1)
  <= Z.max (CountActiveCerts h (ca_db s)) (l_SeatLimit lic).
Proof.
  intros (h1 & pub & Ha & Hdb & Hp)%Enroll_challenge Hl. rewrite <- Hdb in *.
  destruct (enroll_confirm_count e' (ch_ChallengeID c) sig s1 h) as [-> |(ch & Hch & Hiss)]; [lia|].
  rewrite Hp, lookup_insert_eq in Hch. injection Hch as <-. cbn in Hiss. destruct Hiss as (cert & Hiss).
  rewrite (issued_count _ _ _ _ _ _ _ _ Hiss). apply enroll_admit_ok in Ha as (_ & lic' & Hl' & _ & _ & Hseat).
  destruct (String.eqb_spec h1 h) as [->|_]; cbn [andb]; [|lia]. rewrite Hl in Hl'. injection Hl' as <-.
  case_bool_decide; cbn [negb]; [lia|]. destruct Hseat; [done|]. lia.
Qed.

(** But the seats are counted in the first step alone: two environments that both pass it before either
    confirms are both enrolled, whatever the limit. *)
Theorem seats_not_rechecked (e1 e2 : CaEnv) (cid1 cid2 sig1 sig2 : string) (s : CA) (ch1 ch2 : pendingChallenge)
    (r1 r2 : enrollStep2Response) (s1 := (serve keys e1 (EnrollConfirm (Some (cid1, sig1))) s).1) :
  ca_enroll s !! cid1 = Some ch1 -> ca_enroll s !! cid2 = Some ch2 -> pc_licenseHash ch1 = pc_licenseHash ch2 ->
  GetCertByEnvID (pc_licenseHash ch1) (pc_envIDPub ch1) (ca_db s) = None ->
  GetCertByEnvID (pc_licenseHash ch2) (pc_envIDPub ch2) (ca_db s1) = None ->
  cid1 <> cid2 ->
  (serve keys e1 (EnrollConfirm (Some (cid1, sig1))) s).2 = Enrolled r1 ->
  (serve keys e2 (EnrollConfirm (Some (cid2, sig2))) s1).2 = Enrolled r2 ->
  CountActiveCerts (pc_licenseHash ch1) (ca_db (serve keys e2 (EnrollConfirm (Some (cid2, sig2))) s1).1)
  = CountActiveCerts (pc_licenseHash ch1) (ca_db s) + 2.
Proof.
  intros H1 H2 Hh Hg1 Hg2 Hne Hr1 Hr2.
  apply Enrolled_inv in Hr1 as (? & ? & ch & [= <- <-] & Hc & _ & _ & Hi1 & _). rewrite H1 in Hc. injection Hc as <-.
  assert (ca_enroll s1 !! cid2 = Some ch2) as H2' by (unfold s1; by rewrite enroll_confirm_pending).
  apply Enrolled_inv in Hr2 as (? & ? & ch & [= <- <-] & Hc & _ & _ & Hi2 & _). rewrite H2' in Hc. injection Hc as <-.
  rewrite (issued_count _ _ _ _ _ _ _ _ Hi2), <- Hh, String.eqb_refl. rewrite Hh, Hg2. fold s1 in Hi1.
  rewrite <- Hh, (issued_count _ _ _ _ _ _ _ _ Hi1), String.eqb_refl, Hg1. cbn. lia.
Qed.

(** Revoking a certificate, or its whole licence, does not stop an authorization that has its challenge:
    the second step checks neither, gives the token, and renews the certificate. *)
Theorem challenge_outlives_revocation (e e' : CaEnv) (cid sig b : string) (s : CA) (ch : authChallenge) (c : EnvCert)
    (lic : License) (q : ca_request) :
  ca_auth s !! cid = Some ch -> GetCertByID (ac_certID ch) (ca_db s) = Some c ->
  GetLicense (c_LicenseHash c) (ca_db s) = Some lic -> q = DeleteCert (ac_certID ch) \/ q = DeleteLicense (c_LicenseHash c) ->
  ev_now e' <= ac_expiresAt ch -> ed_verify (c_EnvIDPub c) (ac_nonce ch) sig = true ->
  (forall i, ev_db e' i = false) -> ev_token e' = Some b ->
  (serve keys e' (AuthorizeConfirm (Some (cid, sig))) (serve keys e q s).1).2
  = Authorized (MkAuthStep2Response (MkSessionToken (EncodeToString b) (l_Permissions lic) (ev_now e' + sessionTokenTTL))
      (l_Permissions lic) (ev_now e' + CertTTL)).
Proof.
  intros Hch Hc Hl Hq Hx Hv Hdb Hb.
  assert (exists c' lic', GetCertByID (ac_certID ch) (ca_db (serve keys e q s).1) = Some c' /\ c_EnvIDPub c' = c_EnvIDPub c
    /\ GetLicense (c_LicenseHash c') (ca_db (serve keys e q s).1) = Some lic' /\ l_Permissions lic' = l_Permissions lic) as
    (c' & lic' & Hc' & Hp' & Hl' & Hpe').
  { destruct (revoke_finds (ca_db s) (ac_certID ch) c lic (ca_db (serve keys e q s).1) Hc Hl) as (c' & lic' & ?); [|eauto].
    destruct Hq as [->| ->]; cbn [serve]; destruct (ev_db e 0); cbn; eauto. }
  assert (ca_auth (serve keys e q s).1 = ca_auth s) as Ha by (destruct Hq as [->| ->]; cbn; by destruct (ev_db e 0)).
  cbn [serve]. unfold auth_Step2. rewrite Ha, Hch. destruct (Z.ltb_spec (ac_expiresAt ch) (ev_now e')); [lia|].
  unfold auth_confirm, query. rewrite Hdb, Hc', Hp', Hv. cbn [negb]. unfold cert_license, query. rewrite Hdb. cbn [mbind result_bind].
  rewrite Hl'. unfold renew, NewSessionToken. rewrite Hdb, Hb, Hpe'. done.
Qed.

(** The gate holds in every history: at most three calls of one address wait for a hello token at a time,
    a token is given only to a call that has waited the full delay, and a first step, whatever it answers,
    burns the token it was shown. *)
Theorem hello_gate_holds (t : list event) (s : CA) (e : CaEnv) :
  ca_run t s ->
  (forall ip, waiting_from ip (ca_hello s) <= MaxConcurrentHelloPerIP)
  /\ (forall w connected token, (serve keys e (HelloEnd w connected) s).2 = HelloToken token ->
        existsb (waiter_eqb w) (hh_waiting (ca_hello s)) = true /\ w.2 + HelloDelay <= ev_now e)
  /\ forall token q, token <> "" -> (exists req, q = Enroll token req) \/ (exists req, q = Authorize token req) ->
       hh_tokens (ca_hello (serve keys e q s).1) !! token = None.
Proof.
  intros Hrun. split; [|split].
  - intros ip. assert (hello_inv (ca_hello s)) as Hi; [|by apply Hi].
    induction Hrun; [|by apply serve_hello_inv|]; intros ip'; by cbn.
  - intros w connected token. cbn [serve]. unfold hello_end. destruct (existsb _ _); cbn [negb]; [|done].
    destruct connected; cbn [andb negb]; [|done]. destruct (Z.ltb_spec (ev_now e) (w.2 + HelloDelay)); [done|]. done.
  - intros token q Hne Hq.
    assert (hh_tokens (hello_Consume e token (ca_hello s)).1 !! token = None) as Hd.
    { unfold hello_Consume. apply String.eqb_neq in Hne. rewrite Hne. destruct (hh_tokens (ca_hello s) !! token) eqn:E; [|done].
      destruct (_ <? _); cbn; by rewrite lookup_delete_eq. }
    destruct Hq as [[req ->]|[req ->]]; cbn [serve]; unfold gated; destruct (hello_Consume e token (ca_hello s)) as [h [ip|r]]; try done;
      [by destruct (enroll_Step1 _ _ _ _)|by destruct (auth_Step1 _ _ _ _ _)].
Qed.
End Runs.

(** ** An example history *)

#[local] Existing Instance toy_crypto.
#[local] Existing Instance toy_crypto_laws.

(** The requests of a history, newest first, played from the empty database. *)
Fixpoint replay (keys : CaKeys) (l : list (CaEnv * ca_request)) : list event * CA :=
  match l with
  | [] => ([], NewRouter empty_db)
  | (e, q) :: older =>
      let '(t, s) := replay keys older in
      let '(s', r) := serve keys e q s in
      (MkEvent s e q r :: t, s')
  end.
Fixpoint clocks_ok (l : list (CaEnv * ca_request)) : bool :=
  match l with
  | [] => true
  | (e, _) :: older => forallb (fun '(e', _) => ev_now e' <=? ev_now e) older && clocks_ok older
  end.

Lemma replay_run keys l : clocks_ok l = true -> ca_run keys (replay keys l).1 (replay keys l).2.
Proof.
  assert (forall l now, forallb (fun '(e', _) => ev_now e' <=? now) l = true -> Forall (fun x => x_now x <= now) (replay keys l).1) as Hnow.
  { induction l0 as [|[e q] l0 IH]; intros now Hf; [constructor|]. cbn in *. apply andb_true_iff in Hf as [Hn%Z.leb_le Hf].
    specialize (IH now Hf). destruct (replay keys l0) as [t s]. destruct (serve keys e q s). by constructor. }
  induction l as [|[e q] l IH]; [constructor|]. cbn. intros [Hf Hc]%andb_true_iff. specialize (IH Hc). specialize (Hnow l _ Hf).
  destruct (replay keys l) as [t s]. cbn in *. pose proof (run_serve keys t s e q IH Hnow) as Hr. by destruct (serve keys e q s).
Qed.

Definition toy_keys : CaKeys := MkCaKeys "CA" "CA".
Definition toy_env (now : Z) (id : string) : CaEnv := MkCaEnv (now * sec + 7) (fun _ => false) (Some (id +:+ "nonce-of-8-bytes")) (Some id) id.
Definition pub1 : string := "environment-one-of-32-bytes-here".
Definition pub2 : string := "environment-two-of-32-bytes-here".

(** The hello token whose random bytes are [id]. *)
Definition hello_of (now : Z) (id : string) : list (CaEnv * ca_request) :=
  [(toy_env (now + 2) id, HelloEnd ("10.0.0.1", now * sec + 7) true);
   (toy_env now id, HelloBegin "" "10.0.0.1:5000")].
Definition enrol1 (now : Z) (id pub : string) : list (CaEnv * ca_request) :=
  (toy_env (now + 3) id, Enroll (EncodeToString id) (Some (MkEnrollStep1Request "KEY" pub))) :: hello_of now id.
Definition toy_sig (pub id : string) : string := pub +:+ ":" +:+ id +:+ "nonce-of-8-bytes".

(** A licence of one seat, an enrolment, and an authorization up to its challenge. *)
Definition toy_licensed : list (CaEnv * ca_request) := [(toy_env 0 "l", IssueLicense "KEY" ["enc"] 1 (1000000 * sec))].
Definition toy_enrolled : list (CaEnv * ca_request) :=
  (toy_env 14 "cert-1", EnrollConfirm (Some ("e", toy_sig pub1 "e"))) :: enrol1 10 "e" pub1 ++ toy_licensed.
Definition toy_payload : CertPayload :=
  MkCertPayload "cert-1" (EncodeToString "KEY") pub1 ["enc"] (14 * sec + 7) (14 * sec + 7 + CertTTL) false.
Definition toy_cert : EnvCert := cert_of toy_payload (Sign toy_payload "CA").
Definition toy_challenged : list (CaEnv * ca_request) :=
  (toy_env 24 "a", Authorize (EncodeToString "a") (Some (Some toy_cert))) :: hello_of 20 "a" ++ toy_enrolled.
Definition toy_cid : string := EncodeToString (String.substring 0 8 "anonce-of-8-bytes").
Definition toy_state (l : list (CaEnv * ca_request)) : CA := (replay toy_keys l).2.
Definition toy_trace (l : list (CaEnv * ca_request)) : list event := (replay toy_keys l).1.

Lemma toy_run l : clocks_ok l = true -> ca_run toy_keys (toy_trace l) (toy_state l).
Proof. apply replay_run. Qed.

(** The event in which the certificate is issued. *)
Definition toy_response : enrollStep2Response :=
  MkEnrollStep2Response toy_cert (MkSessionToken (EncodeToString "cert-1") ["enc"] (14 * sec + 7 + sessionTokenTTL)) ["enc"].
Definition toy_issue : event :=
  MkEvent (toy_state (enrol1 10 "e" pub1 ++ toy_licensed)) (toy_env 14 "cert-1")
    (EnrollConfirm (Some ("e", toy_sig pub1 "e"))) (Enrolled toy_response).

Lemma toy_trace_cons e q l : toy_trace ((e, q) :: l) = MkEvent (toy_state l) e q (serve toy_keys e q (toy_state l)).2 :: toy_trace l.
Proof. unfold toy_trace, toy_state. cbn. destruct (replay toy_keys l) as [t s]. cbn. by destruct (serve toy_keys e q s). Qed.

Lemma toy_trace_suffix l1 l2 : toy_trace l2 `suffix_of` toy_trace (l1 ++ l2).
Proof.
  induction l1 as [|[e q] l1 IH]; [done|]. cbn [app]. rewrite toy_trace_cons. destruct IH as [k ->]. by eexists (_ :: k).
Qed.

Lemma toy_issue_in l : toy_issue ∈ toy_trace (l ++ toy_enrolled).
Proof.
  destruct (toy_trace_suffix l toy_enrolled) as [k ->]. apply elem_of_app. right. unfold toy_enrolled. rewrite toy_trace_cons.
  assert ((serve toy_keys (toy_env 14 "cert-1") (EnrollConfirm (Some ("e", toy_sig pub1 "e")))
    (toy_state (enrol1 10 "e" pub1 ++ toy_licensed))).2 = Enrolled toy_response) as -> by (vm_compute; reflexivity).
  by left.
Qed.

Lemma toy_issues : issues toy_issue toy_cert.
Proof.
  exists (Some ("e", toy_sig pub1 "e")), toy_response. do 3 (split; [reflexivity|]). cbn [toy_issue x_pre]. vm_compute. reflexivity.
Qed.

Lemma token_needs_fresh_challenge_witness :
  exists newer x older nonce c, toy_trace toy_challenged = newer ++ x :: older /\ challenge_event toy_keys x toy_cid nonce c.
Proof.
  destruct (token_needs_fresh_challenge toy_keys (toy_trace toy_challenged) (toy_state toy_challenged) (toy_env 60 "t") toy_cid
    (toy_sig pub1 "a") (MkAuthStep2Response (MkSessionToken (EncodeToString "t") ["enc"] (60 * sec + 7 + sessionTokenTTL)) ["enc"]
       (60 * sec + 7 + CertTTL)))
    as (newer & x & older & nonce & c & E & Hx & _).
  - apply toy_run. vm_compute. reflexivity.
  - vm_compute. reflexivity.
  - exists newer, x, older, nonce, c. exact (conj E Hx).
Defined.

(** A revocation after the challenge, and the confirmation that is still let through. *)
Definition toy_confirm (now : Z) : CaEnv * ca_request := (toy_env now "t", AuthorizeConfirm (Some (toy_cid, toy_sig pub1 "a"))).
Definition toy_revoked : list (CaEnv * ca_request) := (toy_env 30 "r", DeleteCert "cert-1") :: toy_challenged.
Definition toy_delete : event := MkEvent (toy_state toy_challenged) (toy_env 30 "r") (DeleteCert "cert-1") Done.

Lemma toy_history : toy_trace (toy_confirm 60 :: toy_revoked)
  = [MkEvent (toy_state toy_revoked) (toy_env 60 "t") (AuthorizeConfirm (Some (toy_cid, toy_sig pub1 "a")))
       (serve toy_keys (toy_env 60 "t") (AuthorizeConfirm (Some (toy_cid, toy_sig pub1 "a"))) (toy_state toy_revoked)).2]
    ++ toy_delete :: toy_trace toy_challenged.
Proof.
  unfold toy_confirm, toy_revoked. rewrite !toy_trace_cons. cbn [app]. f_equal.
Qed.

Lemma revoked_cert_locked_out_witness :
  Forall (fun y => token_for "cert-1" y -> x_now y <= 30 * sec + 7 + challengeTTL)
    [MkEvent (toy_state toy_revoked) (toy_env 60 "t") (AuthorizeConfirm (Some (toy_cid, toy_sig pub1 "a")))
       (serve toy_keys (toy_env 60 "t") (AuthorizeConfirm (Some (toy_cid, toy_sig pub1 "a"))) (toy_state toy_revoked)).2].
Proof.
  assert (ca_run toy_keys (toy_trace (toy_confirm 60 :: toy_revoked)) (toy_state (toy_confirm 60 :: toy_revoked))) as Hrun
    by (apply toy_run; vm_compute; reflexivity).
  rewrite toy_history in Hrun. eapply Forall_impl.
  - apply (revoked_cert_locked_out toy_keys _ toy_delete _ _ "cert-1" Hrun); [reflexivity|reflexivity|].
    apply (bool_decide_unpack _). vm_compute. exact I.
  - cbn beta. intros y [Hy _]. exact Hy.
Defined.

Lemma challenge_outlives_revocation_witness :
  (serve toy_keys (toy_env 60 "t") (AuthorizeConfirm (Some (toy_cid, toy_sig pub1 "a")))
     (serve toy_keys (toy_env 30 "r") (DeleteCert "cert-1") (toy_state toy_challenged)).1).2
  = Authorized (MkAuthStep2Response (MkSessionToken (EncodeToString "t") ["enc"] (60 * sec + 7 + sessionTokenTTL)) ["enc"]
       (60 * sec + 7 + CertTTL)).
Proof.
  refine (challenge_outlives_revocation toy_keys (toy_env 30 "r") (toy_env 60 "t") toy_cid (toy_sig pub1 "a") "t" (toy_state toy_challenged)
    (MkAuthChallenge "anonce-of-8-bytes" "cert-1" (24 * sec + 7 + challengeTTL)) (stored_cert toy_cert)
    (MkLicense (EncodeToString "KEY") ["enc"] 1 LicenseActive (1000000 * sec)) _ _ _ _ (or_introl eq_refl) _ _ (fun _ => eq_refl) eq_refl).
  - vm_compute. reflexivity.
  - vm_compute. reflexivity.
  - vm_compute. reflexivity.
  - vm_compute. discriminate.
  - vm_compute. reflexivity.
Defined.

Lemma stored_certs_signed_witness : NoDup (row_ids (ca_db (toy_state toy_enrolled))).
Proof.
  refine (proj1 (stored_certs_signed toy_keys (toy_trace toy_enrolled) (toy_state toy_enrolled) _)).
  apply toy_run. vm_compute. reflexivity.
Defined.

Lemma issued_cert_gets_challenge_witness :
  (serve toy_keys (toy_env 24 "a") (Authorize (EncodeToString "a") (Some (Some toy_cert)))
     (toy_state (hello_of 20 "a" ++ toy_enrolled))).2 = Challenge (MkChallenge toy_cid "anonce-of-8-bytes").
Proof.
  refine (issued_cert_gets_challenge toy_keys (toy_trace (hello_of 20 "a" ++ toy_enrolled)) _ toy_issue toy_cert (stored_cert toy_cert)
    (MkLicense (EncodeToString "KEY") ["enc"] 1 LicenseActive (1000000 * sec)) (toy_env 24 "a") (EncodeToString "a") "10.0.0.1" _
    "anonce-of-8-bytes" _ (toy_issue_in (hello_of 20 "a")) toy_issues eq_refl _ _ _ eq_refl _ _ eq_refl eq_refl eq_refl).
  - apply toy_run. vm_compute. reflexivity.
  - vm_compute. reflexivity.
  - vm_compute. reflexivity.
  - vm_compute. reflexivity.
  - vm_compute. discriminate.
  - vm_compute. reflexivity.
Defined.

(** The environment enrols a second time. *)
Definition toy_again : list (CaEnv * ca_request) := enrol1 40 "f" pub1 ++ toy_enrolled.
Definition toy_second : enrollStep2Response :=
  MkEnrollStep2Response (stored_cert toy_cert)
    (MkSessionToken (EncodeToString "u") ["enc"] (44 * sec + 7 + sessionTokenTTL)) ["enc"].

Lemma reenrolled_cert_refused_witness : Verify toy_cert "CA" = true /\ Verify (stored_cert toy_cert) "CA" = false.
Proof.
  destruct (reenrolled_cert_refused toy_keys (toy_trace toy_again) (toy_state toy_again) toy_issue toy_cert (toy_env 44 "u")
    (toy_env 50 "v") (Some ("f", toy_sig pub1 "f")) toy_second "") as (H1 & H2 & _).
  - apply toy_run. vm_compute. reflexivity.
  - apply toy_issue_in.
  - exact toy_issues.
  - reflexivity.
  - vm_compute. reflexivity.
  - reflexivity.
  - vm_compute. discriminate.
  - exact (conj H1 H2).
Defined.

Lemma enrolment_respects_seats_witness :
  CountActiveCerts (EncodeToString "KEY") (ca_db (serve toy_keys (toy_env 14 "cert-1")
    (EnrollConfirm (Some ("e", toy_sig pub1 "e"))) (toy_state (enrol1 10 "e" pub1 ++ toy_licensed))).1) <= 1.
Proof.
  pose proof (enrolment_respects_seats toy_keys (toy_env 13 "e") (toy_env 14 "cert-1") (EncodeToString "e") (toy_sig pub1 "e")
    (EncodeToString "KEY") (Some (MkEnrollStep1Request "KEY" pub1)) (toy_state (hello_of 10 "e" ++ toy_licensed))
    (toy_state (enrol1 10 "e" pub1 ++ toy_licensed)) (MkChallenge "e" "enonce-of-8-bytes")
    (MkLicense (EncodeToString "KEY") ["enc"] 1 LicenseActive (1000000 * sec))) as Hs.
  assert (Z.max (CountActiveCerts (EncodeToString "KEY") (ca_db (toy_state (hello_of 10 "e" ++ toy_licensed)))) 1 = 1) as Hm
    by (vm_compute; reflexivity).
  rewrite <- Hm. apply Hs; vm_compute; reflexivity.
Defined.

(** Two environments pass the first step before either confirms. *)
Definition toy_race : list (CaEnv * ca_request) := enrol1 20 "f" pub2 ++ enrol1 10 "e" pub1 ++ toy_licensed.

Definition toy_race_confirmed : CA := (serve toy_keys (toy_env 30 "cert-1") (EnrollConfirm (Some ("e", toy_sig pub1 "e"))) (toy_state toy_race)).1.

Lemma seats_not_rechecked_witness :
  CountActiveCerts (EncodeToString "KEY")
    (ca_db (serve toy_keys (toy_env 31 "cert-2") (EnrollConfirm (Some ("f", toy_sig pub2 "f"))) toy_race_confirmed).1)
  = CountActiveCerts (EncodeToString "KEY") (ca_db (toy_state toy_race)) + 2
  /\ l_SeatLimit <$> GetLicense (EncodeToString "KEY") (ca_db (toy_state toy_race)) = Some 1.
Proof.
  split; [|vm_compute; reflexivity].
  pose (cert p now := MkEnrollStep2Response (cert_of p (Sign p "CA"))
    (MkSessionToken (EncodeToString (cp_CertID p)) ["enc"] (now * sec + 7 + sessionTokenTTL)) ["enc"]).
  pose (payload id pub now := MkCertPayload id (EncodeToString "KEY") pub ["enc"] (now * sec + 7) (now * sec + 7 + CertTTL) false).
  refine (seats_not_rechecked toy_keys (toy_env 30 "cert-1") (toy_env 31 "cert-2") "e" "f" (toy_sig pub1 "e") (toy_sig pub2 "f")
    (toy_state toy_race) (MkPendingChallenge "enonce-of-8-bytes" (EncodeToString "KEY") pub1 (13 * sec + 7 + challengeTTL))
    (MkPendingChallenge "fnonce-of-8-bytes" (EncodeToString "KEY") pub2 (23 * sec + 7 + challengeTTL))
    (cert (payload "cert-1" pub1 30) 30) (cert (payload "cert-2" pub2 31) 31) _ _ eq_refl _ _ _ _ _).
  - vm_compute. reflexivity.
  - vm_compute. reflexivity.
  - vm_compute. reflexivity.
  - vm_compute. reflexivity.
  - discriminate.
  - vm_compute. reflexivity.
  - vm_compute. reflexivity.
Defined.

Lemma hello_gate_holds_witness : waiting_from "10.0.0.1" (ca_hello (toy_state toy_challenged)) <= MaxConcurrentHelloPerIP.
Proof.
  refine (proj1 (hello_gate_holds toy_keys (toy_trace toy_challenged) _ (toy_env 60 "t") _) "10.0.0.1").
  apply toy_run. vm_compute. reflexivity.
Defined.
