(* ===== verification/CaSession.v ===== *)
(** * CaSession: a key server under its certificate authority (caClient, infra/ca_bootstrap.go, api/middleware.go)

    How an xZMercury instance in production gets its session from the authority of [CertAuthority] and
    keeps it: the client's exchanges, the start of the server, the renewal loop and the guard in front of
    the key operations of [KeyStore].  An HTTP exchange may not reach the authority or lose its reply
    ([fault]); the file of the certificate and the environment's key pair are arguments.  The renewal loop
    is one poll at a time. *)

From Stdlib Require Import ZArith Lia Ascii String.
From stdpp Require Import base list gmap strings.
From S2P Require Import Prelude Strconv Encodings KeyStore CertAuthority.

Open Scope Z_scope.

(** ** envkey.go *)

Record Identity := MkIdentity { id_pub : string; id_priv : string }.
Definition identity_Sign `{CaCrypto} (id : Identity) (msg : string) : string := ed_sign (id_priv id) msg.
Definition identity_Verify `{CaCrypto} (id : Identity) (msg sig : string) : bool := ed_verify (id_pub id) msg sig.

(** ** caClient/client.go *)

(** What the exchanges of one call meet: the server's clock and draws in each, and how each fares. *)
Record Net := MkNet {
  n_begin : CaEnv;
  n_end : CaEnv;
  n_step1 : CaEnv;
  n_step2 : CaEnv;
  n_fault : nat -> fault;
  n_addr : string;
}.

Inductive client_error := HelloError | Step1Error | Step2Error.

Section Client.
  Context `{CaCrypto} (keys : CaKeys) (id : Identity).

Definition client_hello (n : Net) (s : CA) : CA * result client_error string :=
  let get s :=
    match serve keys (n_begin n) (HelloBegin "" (n_addr n)) s with
    | (s, Done) => serve keys (n_end n) (HelloEnd (clientIP "" (n_addr n), ev_now (n_begin n)) true) s
    | (s, r) => (s, r)
    end in
  match command (n_fault n 0%nat) get s with
  | (s, Some (HelloToken token)) => (s, Ok token)
  | (s, _) => (s, Err HelloError)
  end.

Definition client_post (e : CaEnv) (f : fault) (q : ca_request) (s : CA) : CA * option ca_reply :=
  command f (serve keys e q) s.

Definition client_Enroll (n : Net) (licenseKey : string) (s : CA) : CA * result client_error enrollStep2Response :=
  match client_hello n s with
  | (s, Err e) => (s, Err e)
  | (s, Ok helloToken) =>
      match client_post (n_step1 n) (n_fault n 1%nat) (Enroll helloToken (Some (MkEnrollStep1Request licenseKey (id_pub id)))) s with
      | (s, Some (Challenge c)) =>
          let sig := identity_Sign id (ch_Nonce c) in
          match client_post (n_step2 n) (n_fault n 2%nat) (EnrollConfirm (Some (ch_ChallengeID c, sig))) s with
          | (s, Some (Enrolled r)) => (s, Ok r)
          | (s, _) => (s, Err Step2Error)
          end
      | (s, _) => (s, Err Step1Error)
      end
  end.

Definition client_Authorize (n : Net) (cert : EnvCert) (s : CA) : CA * result client_error authStep2Response :=
  match client_hello n s with
  | (s, Err e) => (s, Err e)
  | (s, Ok helloToken) =>
      match client_post (n_step1 n) (n_fault n 1%nat) (Authorize helloToken (Some (Some cert))) s with
      | (s, Some (Challenge c)) =>
          let sig := identity_Sign id (ch_Nonce c) in
          match client_post (n_step2 n) (n_fault n 2%nat) (AuthorizeConfirm (Some (ch_ChallengeID c, sig))) s with
          | (s, Some (Authorized r)) => (s, Ok r)
          | (s, _) => (s, Err Step2Error)
          end
      | (s, _) => (s, Err Step1Error)
      end
  end.

(** The times of an offline result are zero values. *)
Definition client_AuthorizeOffline (e : CaEnv) (f : fault) (cert : EnvCert) (s : CA)
    : CA * result client_error (SessionToken * list string) :=
  match client_post e f (AuthorizeOffline (Some (Some cert))) s with
  | (s, Some (OfflineAuthorized t p)) => (s, Ok (t, p))
  | (s, _) => (s, Err Step1Error)
  end.
End Client.

(** *** AutoRenew

    The loop waits for the renewal time, or for the next try after a failure. *)

Inductive renew_phase := Waiting | Retrying (retryAt : Z).
Record Renewer := MkRenewer { rn_certNotAfter : Z; rn_phase : renew_phase }.

(** ** infra/ca_bootstrap.go *)

Record CASession := MkCASession { cs_token : string; cs_permissions : list string; cs_expiresAt : Z }.
Definition empty_session : CASession := MkCASession "" [] 0.
Definition session_Valid (now : Z) (s : CASession) : bool := negb (String.eqb (cs_token s) "") && (now <? cs_expiresAt s).
Definition session_Permissions (s : CASession) : list string := cs_permissions s.
Definition session_update (token : string) (perms : list string) (expiresAt : Z) (s : CASession) : CASession :=
  MkCASession token perms expiresAt.

(** [onRenew]. *)
Definition on_renew (r : authStep2Response) : CASession -> CASession :=
  session_update (t_Token (a2_SessionToken r)) (a2_Permissions r) (t_ExpiresAt (a2_SessionToken r)).

(** The loop is due for a try. *)
Definition renew_due (now : Z) (rn : Renewer) : bool :=
  match rn_phase rn with
  | Waiting => rn_certNotAfter rn - RenewalThreshold <? now
  | Retrying retryAt => retryAt <? now
  end.

(** One look of the loop at the clock: the reading, what [Authorize] gives if it is called then, and the reading when it
    has returned, which the next try is set by. *)
Record Look := MkLook { lk_now : Z; lk_attempt : option authStep2Response; lk_after : Z }.
Definition renew_poll (look : Look) (rn : Renewer) (session : CASession) : Renewer * CASession :=
  if negb (renew_due (lk_now look) rn) then (rn, session)
  else
    match lk_attempt look with
    | Some result => (MkRenewer (a2_CertNotAfter result) Waiting, on_renew result session)
    | None => (MkRenewer (rn_certNotAfter rn) (Retrying (lk_after look + hour)), session)
    end.

Record CAConfig := MkCAConfig { cc_URL : string; cc_LicenseKey : string }.
Inductive boot_error := NoURL | NoLicenseKey | EnvKeyError | CertFileError | EnrollFailed (e : client_error) | SaveError | AuthorizeFailed (e : client_error).

(** What the start of a server leaves: the session, the loop and the certificate on disk. *)
Record Booted := MkBooted { bo_session : CASession; bo_renewer : Renewer; bo_cert : EnvCert }.

(** [identity] is what the key directory gives, [file] the certificate on disk, [saved] whether writing it
    works. *)
Definition BootstrapCA `{CaCrypto} (keys : CaKeys) (cfg : CAConfig) (identity : option Identity)
    (file : option (option EnvCert)) (saved : bool) (n : Net) (s : CA) : CA * result boot_error Booted :=
  if String.eqb (cc_URL cfg) "" then (s, Err NoURL)
  else if String.eqb (cc_LicenseKey cfg) "" then (s, Err NoLicenseKey)
  else
    match identity, file with
    | None, _ => (s, Err EnvKeyError)
    | _, None => (s, Err CertFileError)
    | Some identity, Some None =>
        match client_Enroll keys identity n (cc_LicenseKey cfg) s with
        | (s, Err e) => (s, Err (EnrollFailed e))
        | (s, Ok result) =>
            if negb saved then (s, Err SaveError)
            else
              let session := session_update (t_Token (e2_SessionToken result)) (e2_Permissions result)
                               (t_ExpiresAt (e2_SessionToken result)) empty_session in
              (s, Ok (MkBooted session (MkRenewer (c_NotAfter (e2_Cert result)) Waiting) (e2_Cert result)))
        end
    | Some identity, Some (Some cert) =>
        match client_Authorize keys identity n cert s with
        | (s, Err e) => (s, Err (AuthorizeFailed e))
        | (s, Ok result) =>
            (s, Ok (MkBooted (on_renew result empty_session) (MkRenewer (c_NotAfter cert) Waiting) cert))
        end
    end.

(** ** api/middleware.go *)

(** [guard] is [None] in dev mode. *)
Definition caGuardMiddleware {S} (guard : option CASession) (now : Z) (next : S -> S * reply) (s : S) : S * reply :=
  match guard with
  | None => next s
  | Some session => if negb (session_Valid now session) then (s, StatusReply 503) else next s
  end.

(** The two key operations behind it. *)
Definition keys_api `{Hmac} (guard : option CASession) (now : Z) (sv : server) (e : env)
    (q : option bindRequest + option retrieveRequest) (s : mercury * pipeline) : mercury * pipeline * reply :=
  caGuardMiddleware guard now (fun '(m, p) =>
    match q with inl body => api_Bind sv e body m p | inr body => api_Retrieve sv e body m p end) s.

(** ** Lemmas: exchanges in which nothing fails *)

(** The exchanges reach the authority in order and in time, and none of its statements and draws fails. *)
Record good_net (n : Net) (raw nonce tok : string) : Prop := {
  gn_fault : forall i, n_fault n i = NoFault;
  gn_db : forall i, ev_db (n_step1 n) i = false /\ ev_db (n_step2 n) i = false;
  gn_raw : ev_token (n_end n) = Some raw;
  gn_raw_some : EncodeToString raw <> "";
  gn_nonce : ev_nonce (n_step1 n) = Some nonce;
  gn_tok : ev_token (n_step2 n) = Some tok;
  gn_tok_some : EncodeToString tok <> "";
  gn_uuid : ev_uuid (n_step1 n) <> "";
  gn_delay : ev_now (n_begin n) + HelloDelay <= ev_now (n_end n);
  gn_hello : ev_now (n_end n) <= ev_now (n_step1 n) <= ev_now (n_end n) + HelloTokenTTL;
  gn_step : ev_now (n_step1 n) <= ev_now (n_step2 n) <= ev_now (n_step1 n) + challengeTTL;
}.

Definition net_ip (n : Net) : string := clientIP "" (n_addr n).

Section Exchanges.
  Context `{CaCrypto} (keys : CaKeys) (id : Identity).
  Context (n : Net) (raw nonce tok : string) (Hn : good_net n raw nonce tok).

Lemma client_hello_ok (s : CA) :
  ip_count (net_ip n) (ca_hello s) < MaxConcurrentHelloPerIP ->
  exists h, client_hello keys n s = (MkCA (ca_db s) (ca_enroll s) (ca_auth s) h, Ok (EncodeToString raw))
    /\ hh_tokens h !! EncodeToString raw = Some (MkHelloToken (net_ip n) (ev_now (n_end n) + HelloTokenTTL))
    /\ forall ip, ip_count ip h = ip_count ip (ca_hello s).
Proof.
  intros Hc. unfold client_hello, command. rewrite (gn_fault _ _ _ _ Hn). cbn [serve]. unfold hello_begin. fold (net_ip n).
  assert ((MaxConcurrentHelloPerIP <? ip_count (net_ip n) (add_count (net_ip n) 1 (ca_hello s))) = false) as ->.
  { apply Z.ltb_ge. rewrite ip_count_add, String.eqb_refl. lia. }
  cbn [reply_of ca_hello ca_db ca_enroll ca_auth]. unfold hello_end. cbn [hh_waiting existsb fst snd remove_first].
  unfold waiter_eqb at 1 2. cbn [fst snd]. rewrite String.eqb_refl, Z.eqb_refl. cbn [andb orb negb].
  pose proof (gn_delay _ _ _ _ Hn). destruct (Z.ltb_spec (ev_now (n_end n)) (ev_now (n_begin n) + HelloDelay)); [lia|].
  rewrite (gn_raw _ _ _ _ Hn). cbn [reply_of]. eexists. split; [reflexivity|]. split; [apply lookup_insert_eq|].
  intros ip. transitivity (ip_count ip (add_count (net_ip n) 1 (ca_hello s)) + (if String.eqb (net_ip n) ip then -1 else 0)).
  - exact (ip_count_add (net_ip n) ip (-1) (MkHelloHandler (hh_tokens (ca_hello s)) (hh_ipPending (add_count (net_ip n) 1 (ca_hello s))) [])).
  - rewrite ip_count_add. destruct (String.eqb _ _); lia.
Qed.

Lemma hello_spent (e : CaEnv) (h : HelloHandler) :
  hh_tokens h !! EncodeToString raw = Some (MkHelloToken (net_ip n) (ev_now (n_end n) + HelloTokenTTL)) ->
  ev_now e <= ev_now (n_end n) + HelloTokenTTL ->
  hello_Consume e (EncodeToString raw) h
  = (MkHelloHandler (delete (EncodeToString raw) (hh_tokens h)) (hh_ipPending h) (hh_waiting h), Ok (net_ip n)).
Proof.
  intros Ht He. unfold hello_Consume. rewrite (proj2 (String.eqb_neq _ _) (gn_raw_some _ _ _ _ Hn)), Ht. cbn [ht_expiresAt].
  destruct (Z.ltb_spec (ev_now (n_end n) + HelloTokenTTL) (ev_now e)); [lia|done].
Qed.

(** The certificate of a new environment. *)
Definition fresh_cert (licenseKey : string) (lic : License) : EnvCert :=
  let p := new_payload (n_step2 n) (HashLicenseKey licenseKey) (id_pub id) lic in cert_of p (Sign p (caPriv keys)).

Record enrolable (s : CA) (licenseKey : string) (lic : License) : Prop := {
  en_key_given : licenseKey <> "";
  en_license : GetLicense (HashLicenseKey licenseKey) (ca_db s) = Some lic;
  en_active : l_Status lic = LicenseActive;
  en_paid : ev_now (n_step1 n) <= l_PaidUntil lic;
  en_pub : id_pub id = ed_public (id_priv id) /\ String.length (id_pub id) = 32%nat;
  en_new : GetActiveCertByEnvID (id_pub id) (ca_db s) = None;
  en_seat : CountActiveCerts (HashLicenseKey licenseKey) (ca_db s) < l_SeatLimit lic;
  en_uuid : GetCertByID (ev_uuid (n_step2 n)) (ca_db s) = None;
  en_ip : ip_count (net_ip n) (ca_hello s) < MaxConcurrentHelloPerIP;
}.

Lemma not_enrolled (h pub : string) (d : DB) : GetActiveCertByEnvID pub d = None -> GetCertByEnvID h pub d = None.
Proof.
  unfold GetActiveCertByEnvID, GetCertByEnvID. rewrite !find_cert_None. intros Hd. eapply Forall_impl; [exact Hd|]. intros r Hr.
  rewrite <- andb_assoc, Hr. by rewrite andb_false_r.
Qed.

Lemma enroll_admit_new (s : CA) (licenseKey : string) (lic : License) :
  enrolable s licenseKey lic ->
  enroll_admit (n_step1 n) (Some (MkEnrollStep1Request licenseKey (id_pub id))) (ca_db s)
  = Ok (HashLicenseKey licenseKey, id_pub id).
Proof.
  intros []. unfold enroll_admit, query, check_. cbn [e1_LicenseKey e1_EnvIDPub].
  rewrite (proj2 (String.eqb_neq _ _) en_key_given0), (proj2 en_pub0). cbn [Nat.eqb negb orb].
  assert (forall i, ev_db (n_step1 n) i = false) as Hdb by (intros i; apply (gn_db _ _ _ _ Hn)). rewrite !Hdb. cbn [mbind result_bind].
  rewrite en_license0, (proj2 (license_check_ok _ _)) by done. cbn [mbind result_bind].
  rewrite (not_enrolled _ _ _ en_new0), en_new0. cbn [mbind result_bind from_option].
  destruct (Z.leb_spec (l_SeatLimit lic) (CountActiveCerts (HashLicenseKey licenseKey) (ca_db s))); [lia|done].
Qed.

Lemma client_Enroll_ok `{!CaCryptoLaws _} (s : CA) (licenseKey : string) (lic : License) :
  enrolable s licenseKey lic ->
  exists s', client_Enroll keys id n licenseKey s
    = (s', Ok (MkEnrollStep2Response (fresh_cert licenseKey lic)
                 (MkSessionToken (EncodeToString tok) (l_Permissions lic) (ev_now (n_step2 n) + sessionTokenTTL)) (l_Permissions lic)))
    /\ ca_db s' = MkDB (licenses (ca_db s))
         (certs (ca_db s) ++ [MkCertRow (stored_cert (fresh_cert licenseKey lic)) (rfc3339 (ev_now (n_step2 n)))])
    /\ forall ip, ip_count ip (ca_hello s') = ip_count ip (ca_hello s).
Proof.
  intros He. unfold client_Enroll. destruct (client_hello_ok s (en_ip _ _ _ He)) as (h & -> & Ht & Hip).
  unfold client_post, command. rewrite !(gn_fault _ _ _ _ Hn). cbn [serve]. unfold gated. cbn [ca_hello ca_db ca_enroll ca_auth].
  rewrite (hello_spent (n_step1 n) h Ht) by apply (gn_hello _ _ _ _ Hn). cbn [ca_hello ca_db ca_enroll ca_auth].
  unfold enroll_Step1. rewrite (enroll_admit_new s licenseKey lic He), (gn_nonce _ _ _ _ Hn). cbn [reply_of ch_Nonce ch_ChallengeID].
  cbn [serve ca_hello ca_db ca_enroll ca_auth]. unfold enroll_Step2, identity_Sign.
  rewrite (proj2 (String.eqb_neq _ _) (gn_uuid _ _ _ _ Hn)), (proj2 (String.eqb_neq _ _) (ed_sign_length _ _)). cbn [orb].
  rewrite lookup_insert_eq. cbn [pc_expiresAt]. destruct (Z.ltb_spec (ev_now (n_step1 n) + challengeTTL) (ev_now (n_step2 n)));
    [pose proof (gn_step _ _ _ _ Hn); lia|].
  destruct (en_pub _ _ _ He) as [Hpub _]. unfold enroll_confirm. cbn [pc_envIDPub pc_nonce pc_licenseHash].
  assert (ed_verify (id_pub id) nonce (ed_sign (id_priv id) nonce) = true) as -> by (rewrite Hpub; apply ed_verify_sign).
  cbn [negb]. unfold issue_cert, query.
  assert (forall i, ev_db (n_step2 n) i = false) as Hdb by (intros i; apply (gn_db _ _ _ _ Hn)). rewrite !Hdb.
  rewrite (not_enrolled _ _ _ (en_new _ _ _ He)), (en_license _ _ _ He). unfold InsertCert. cbn [c_CertID cert_of new_payload cp_CertID].
  rewrite (en_uuid _ _ _ He). unfold NewSessionToken. rewrite (gn_tok _ _ _ _ Hn). eexists. split; [reflexivity|]. split; [reflexivity|].
  intros ip. cbn [ca_hello]. etrans; [|apply Hip]. done.
Qed.

(** A certificate the authority lets through, presented by the environment it is for. *)
Record authorizable (s : CA) (cert row : EnvCert) (lic : License) : Prop := {
  au_online : c_Offline cert = false;
  au_signed : Verify cert (caPub keys) = true;
  au_row : GetCertByID (c_CertID cert) (ca_db s) = Some row;
  au_active : is_active row = true;
  au_pub : c_EnvIDPub row = ed_public (id_priv id);
  au_license : GetLicense (c_LicenseHash row) (ca_db s) = Some lic;
  au_license_active : l_Status lic = LicenseActive;
  au_paid : ev_now (n_step1 n) <= l_PaidUntil lic;
  au_ip : ip_count (net_ip n) (ca_hello s) < MaxConcurrentHelloPerIP;
}.

Lemma client_Authorize_ok `{!CaCryptoLaws _} (s : CA) (cert row : EnvCert) (lic : License) :
  authorizable s cert row lic ->
  exists s', client_Authorize keys id n cert s
    = (s', Ok (MkAuthStep2Response
                 (MkSessionToken (EncodeToString tok) (l_Permissions lic) (ev_now (n_step2 n) + sessionTokenTTL))
                 (l_Permissions lic) (ev_now (n_step2 n) + CertTTL))).
Proof.
  intros []. unfold client_Authorize. destruct (client_hello_ok s au_ip0) as (h & -> & Ht & _).
  unfold client_post, command. rewrite !(gn_fault _ _ _ _ Hn). cbn [serve]. unfold gated. cbn [ca_hello ca_db ca_enroll ca_auth].
  rewrite (hello_spent (n_step1 n) h Ht) by apply (gn_hello _ _ _ _ Hn). cbn [ca_hello ca_db ca_enroll ca_auth].
  unfold auth_Step1. rewrite (proj2 (auth_admit_ok keys (n_step1 n) (Some (Some cert)) (ca_db s) row)).
  2:{ do 2 (split; [apply (gn_db _ _ _ _ Hn)|]). exists cert. split; [done|]. split; eauto. }
  rewrite (gn_nonce _ _ _ _ Hn). cbn [reply_of ch_Nonce ch_ChallengeID]. cbn [serve ca_hello ca_db ca_enroll ca_auth].
  unfold auth_Step2. rewrite lookup_insert_eq. cbn [ac_expiresAt].
  destruct (Z.ltb_spec (ev_now (n_step1 n) + challengeTTL) (ev_now (n_step2 n))); [pose proof (gn_step _ _ _ _ Hn); lia|].
  unfold auth_confirm, query. cbn [ac_certID ac_nonce].
  assert (forall i, ev_db (n_step2 n) i = false) as Hdb by (intros i; apply (gn_db _ _ _ _ Hn)). rewrite !Hdb.
  assert (c_CertID row = c_CertID cert) as -> by (apply find_cert_Some in au_row0 as (? & _ & _ & Hp); by apply String.eqb_eq in Hp).
  rewrite au_row0. unfold identity_Sign. rewrite au_pub0, ed_verify_sign. cbn [negb]. unfold cert_license, query. rewrite Hdb.
  cbn [mbind result_bind]. rewrite au_license0. unfold renew, NewSessionToken. rewrite !Hdb, (gn_tok _ _ _ _ Hn). eexists. reflexivity.
Qed.
End Exchanges.

Lemma find_cert_last (p : EnvCert -> bool) (d : DB) (l : gmap string License) (row : CertRow) :
  find_cert p d = None -> p (r_cert row) = true -> find_cert p (MkDB l (certs d ++ [row])) = Some (r_cert row).
Proof.
  rewrite find_cert_None. unfold find_cert. cbn [certs]. induction (certs d) as [|r rows IH]; intros Hn Hp; cbn.
  - by rewrite Hp.
  - apply Forall_cons in Hn as [-> Hn]. by apply IH.
Qed.

(** ** Lemmas: the renewal loop *)

(** The looks of the loop, oldest first. *)
Fixpoint renew_polls (polls : list Look) (st : Renewer * CASession) : Renewer * CASession :=
  match polls with
  | [] => st
  | look :: polls => renew_polls polls (renew_poll look st.1 st.2)
  end.

(** Before the renewal time the loop does nothing. *)
Lemma renew_polls_early (polls : list Look) (notAfter : Z) (session : CASession) :
  Forall (fun p => lk_now p <= notAfter - RenewalThreshold) polls ->
  renew_polls polls (MkRenewer notAfter Waiting, session) = (MkRenewer notAfter Waiting, session).
Proof.
  induction 1 as [|look polls Hp _ IH]; [done|]. cbn [renew_polls fst snd] in *. unfold renew_poll, renew_due.
  cbn [rn_phase rn_certNotAfter]. destruct (Z.ltb_spec (notAfter - RenewalThreshold) (lk_now look)); [lia|]. done.
Qed.

(** When the loop is next due. *)
Definition due_at (rn : Renewer) : Z :=
  match rn_phase rn with Waiting => rn_certNotAfter rn - RenewalThreshold | Retrying r => r end.

(** The time the first renewal is done. *)
Fixpoint renewed_at (polls : list Look) (st : Renewer * CASession) : option Z :=
  match polls with
  | [] => None
  | look :: polls =>
      if renew_due (lk_now look) st.1 && (match lk_attempt look with Some _ => true | None => false end) then Some (lk_after look)
      else renewed_at polls (renew_poll look st.1 st.2)
  end.

(** The clock goes up; the loop looks at it at most [gap] after the last reading, and a try takes at most [duration]. *)
Fixpoint polled (gap duration last : Z) (polls : list Look) (st : Renewer * CASession) : Prop :=
  match polls with
  | [] => True
  | look :: polls =>
      let tried := renew_due (lk_now look) st.1 in
      last <= lk_now look <= last + gap /\ (tried = true -> lk_now look <= lk_after look <= lk_now look + duration)
      /\ polled gap duration (if tried then lk_after look else lk_now look) polls (renew_poll look st.1 st.2)
  end.

(** The authority answers from [up] on: a try begun then and done by the end of the certificate succeeds. *)
Definition answers_from (up notAfter : Z) (polls : list Look) : Prop :=
  Forall (fun p => up <= lk_now p -> lk_after p <= notAfter -> is_Some (lk_attempt p)) polls.

Lemma renewed_in_time (gap duration up limit : Z) (polls : list Look) :
  0 <= duration -> up + duration + hour <= limit ->
  forall (last : Z) (rn : Renewer) (session : CASession),
  polled gap duration last polls (rn, session) -> answers_from up (limit + gap + duration) polls -> due_at rn <= limit -> last <= limit ->
  Exists (fun p => limit < lk_now p) polls ->
  exists now, renewed_at polls (rn, session) = Some now /\ now <= limit + gap + duration.
Proof.
  intros Hdur Hup. induction polls as [|look polls IH]; intros last rn session Hp Hu Hd Hl Hx; [by inversion Hx|].
  cbn [polled fst snd] in Hp. destruct Hp as (Hn & Ht & Hp). apply Forall_cons in Hu as [Ha Hu].
  cbn [renewed_at fst snd]. unfold renew_poll in *.
  assert (renew_due (lk_now look) rn = (due_at rn <? lk_now look)) as E by (unfold renew_due, due_at; by destruct (rn_phase rn)). rewrite E in *.
  destruct (Z.ltb_spec (due_at rn) (lk_now look)) as [Hdue|Hdue]; cbn [andb negb] in *.
  - specialize (Ht eq_refl). destruct (lk_attempt look) as [r|]; [exists (lk_after look); split; [done|lia]|].
    assert (lk_now look < up) as Hlt by (destruct (Z.lt_ge_cases (lk_now look) up) as [|Hge]; [done|]; destruct (Ha Hge ltac:(lia)); done).
    unfold hour, sec in *. apply (IH (lk_after look)); [done..|unfold due_at; cbn [rn_phase]; lia|lia|]. inversion Hx as [? ? Hx0|]; [lia|done].
  - apply (IH (lk_now look)); [done..|lia|]. inversion Hx as [? ? Hx0|]; [lia|done].
Qed.

(** ** Properties *)

(** C26. An outage of the authority is survived if it ends early enough before the certificate does: an hour, the time of
    two tries (one that fails as the outage ends, one that renews) and a poll.  A loop that looks at the clock at least
    every [gap], whose tries take at most [duration], and which goes on until the last moment for a try, has renewed
    before the end of the certificate, if a try begun after the outage and done by that end succeeds. *)
Theorem renewal_survives_outage (gap duration up start notAfter : Z) (polls : list Look) (session : CASession) :
  polled gap duration start polls (MkRenewer notAfter Waiting, session) -> answers_from up notAfter polls ->
  start <= notAfter - RenewalThreshold -> 0 <= gap -> 0 <= duration -> gap + duration <= RenewalThreshold ->
  up + hour + gap + 2 * duration <= notAfter -> Exists (fun p => notAfter - gap - duration < lk_now p) polls ->
  exists now, renewed_at polls (MkRenewer notAfter Waiting, session) = Some now /\ now <= notAfter.
Proof.
  intros Hp Hu Hs Hg Hd Hgd Hup Hx.
  destruct (renewed_in_time gap duration up (notAfter - gap - duration) polls Hd ltac:(lia) start (MkRenewer notAfter Waiting) session)
    as (now & E & Hnow); try done; [by replace (notAfter - gap - duration + gap + duration) with notAfter by lia|unfold due_at; cbn; lia|lia|].
  exists now. split; [done|lia].
Qed.

(** A server that enrols with an environment key and a licence starts, with a session of four hours that
    has the permissions of the licence; and with the certificate it saved it starts again, as long as the
    licence is paid. *)
Theorem server_starts_and_restarts `{CaCryptoLaws} (keys : CaKeys) (id : Identity) (cfg : CAConfig) (n1 n2 : Net)
    (raw1 nonce1 tok1 raw2 nonce2 tok2 : string) (s : CA) (lic : License) :
  good_net n1 raw1 nonce1 tok1 -> good_net n2 raw2 nonce2 tok2 -> caPub keys = ed_public (caPriv keys) ->
  cc_URL cfg <> "" -> enrolable id n1 s (cc_LicenseKey cfg) lic ->
  ev_now (n_step1 n2) <= l_PaidUntil lic -> ip_count (net_ip n2) (ca_hello s) < MaxConcurrentHelloPerIP ->
  exists s1 b1 s2 b2,
    BootstrapCA keys cfg (Some id) (Some None) true n1 s = (s1, Ok b1)
    /\ BootstrapCA keys cfg (Some id) (Some (Some (bo_cert b1))) true n2 s1 = (s2, Ok b2)
    /\ Forall (fun '(n, b) => session_Permissions (bo_session b) = l_Permissions lic
         /\ forall now, session_Valid now (bo_session b) = (now <? ev_now (n_step2 n) + sessionTokenTTL)) [(n1, b1); (n2, b2)].
Proof.
  intros Hn1 Hn2 Hca Hurl He Hpaid Hip.
  destruct (client_Enroll_ok keys id n1 raw1 nonce1 tok1 Hn1 s (cc_LicenseKey cfg) lic He) as (s1 & E1 & Hdb & Hip1).
  destruct (client_Authorize_ok keys id n2 raw2 nonce2 tok2 Hn2 s1 (fresh_cert keys id n1 (cc_LicenseKey cfg) lic)
    (stored_cert (fresh_cert keys id n1 (cc_LicenseKey cfg) lic)) lic) as (s2 & E2).
  { split; try done.
    - unfold Verify. rewrite Hca. apply ed_verify_sign.
    - rewrite Hdb. apply (find_cert_last _ _ _ (MkCertRow (stored_cert _) _)); [apply (en_uuid _ _ _ _ _ He)|apply String.eqb_refl].
    - apply (en_pub _ _ _ _ _ He).
    - rewrite Hdb. apply (en_license _ _ _ _ _ He).
    - apply (en_active _ _ _ _ _ He).
    - by rewrite Hip1. }
  unfold BootstrapCA. rewrite (proj2 (String.eqb_neq _ _) Hurl), (proj2 (String.eqb_neq _ _) (en_key_given _ _ _ _ _ He)), E1.
  cbn [negb]. eexists _, _, _, _. split; [reflexivity|]. cbn [bo_cert e2_Cert]. rewrite E2. split; [reflexivity|].
  repeat constructor; intros now; unfold session_Valid; cbn;
    [rewrite (proj2 (String.eqb_neq _ _) (gn_tok_some _ _ _ _ Hn1))|rewrite (proj2 (String.eqb_neq _ _) (gn_tok_some _ _ _ _ Hn2))]; done.
Qed.

(** C32. The session token lives for four hours and the loop renews twelve hours before the certificate's day is
    over: so, however often the loop polls and whatever the authority would answer, a server that has
    enrolled refuses every key operation from the fourth to the twelfth hour, and the keys stay as they
    are. *)
Theorem keys_refused_between_renewals `{CaCryptoLaws} `{Hmac} (keys : CaKeys) (id : Identity) (cfg : CAConfig) (n : Net)
    (raw nonce tok : string) (s s1 : CA) (lic : License) (b : Booted) (polls : list Look) (now : Z)
    (sv : server) (e : env) (q : option bindRequest + option retrieveRequest) (st : mercury * pipeline) :
  good_net n raw nonce tok -> enrolable id n s (cc_LicenseKey cfg) lic ->
  BootstrapCA keys cfg (Some id) (Some None) true n s = (s1, Ok b) ->
  ev_now (n_step2 n) + 4 * hour <= now <= ev_now (n_step2 n) + 12 * hour -> Forall (fun p => lk_now p <= now) polls ->
  keys_api (Some (renew_polls polls (bo_renewer b, bo_session b)).2) now sv e q st = (st, StatusReply 503).
Proof.
  intros Hn He HB Hnow Hp. destruct (client_Enroll_ok keys id n raw nonce tok Hn s (cc_LicenseKey cfg) lic He) as (s' & E & _ & _).
  unfold BootstrapCA in HB. rewrite E in HB. destruct (String.eqb (cc_URL cfg) ""); [done|].
  rewrite (proj2 (String.eqb_neq _ _) (en_key_given _ _ _ _ _ He)) in HB. cbn [negb] in HB. injection HB as <- <-.
  cbn [bo_renewer bo_session e2_Cert]. rewrite renew_polls_early.
  2:{ eapply Forall_impl; [exact Hp|]. intros p Hpn. cbn [fresh_cert cert_of c_NotAfter new_payload cp_NotAfter].
      unfold CertTTL, RenewalThreshold in *. cbn beta in Hpn. lia. }
  unfold keys_api, caGuardMiddleware, session_Valid. cbn [snd e2_SessionToken session_update cs_expiresAt t_ExpiresAt].
  destruct (Z.ltb_spec now (ev_now (n_step2 n) + sessionTokenTTL)) as [Hl|_]; [unfold sessionTokenTTL in Hl; lia|].
  by rewrite andb_false_r.
Qed.

(** ** An example *)

#[local] Existing Instance toy_crypto.
#[local] Existing Instance toy_crypto_laws.

Definition demo_identity : Identity := MkIdentity "environment-one-of-32-bytes-here" "environment-one-of-32-bytes-here".
Definition demo_ca : CA := NewRouter (MkDB {[EncodeToString "KEY" := MkLicense (EncodeToString "KEY") ["enc"] 1 LicenseActive (1000000 * sec)]} []).
Definition demo_ca_env (now : Z) (x : string) : CaEnv := MkCaEnv (now * sec) (fun _ => false) (Some (x +:+ "-nonce")) (Some x) x.
Definition demo_net (now : Z) : Net :=
  MkNet (demo_ca_env now "b") (demo_ca_env (now + 2) "h") (demo_ca_env (now + 3) "c") (demo_ca_env (now + 4) "t") (fun _ => NoFault) "10.0.0.1:5000".
Definition demo_ca_keys : CaKeys := MkCaKeys "CA" "CA".
Definition demo_ca_config : CAConfig := MkCAConfig "https://ca" "KEY".

Lemma demo_net_good (now : Z) : good_net (demo_net now) "h" "c-nonce" "t".
Proof.
  split; try done; cbn [demo_net n_begin n_end n_step1 n_step2 demo_ca_env ev_now];
    unfold HelloDelay, HelloTokenTTL, challengeTTL, sec; lia.
Qed.

Lemma demo_enrolable : enrolable demo_identity (demo_net 10) demo_ca "KEY" (MkLicense (EncodeToString "KEY") ["enc"] 1 LicenseActive (1000000 * sec)).
Proof. split; try done; vm_compute; try done; split; reflexivity. Qed.

Lemma server_starts_and_restarts_witness :
  exists s1 b1, BootstrapCA demo_ca_keys demo_ca_config (Some demo_identity) (Some None) true (demo_net 10) demo_ca = (s1, Ok b1).
Proof.
  destruct (@server_starts_and_restarts toy_crypto toy_crypto_laws demo_ca_keys demo_identity demo_ca_config (demo_net 10) (demo_net 100) "h" "c-nonce" "t" "h" "c-nonce"
    "t" demo_ca _ (demo_net_good 10) (demo_net_good 100) eq_refl ltac:(discriminate) demo_enrolable) as (s1 & b1 & _ & _ & E & _).
  - vm_compute. discriminate.
  - vm_compute. reflexivity.
  - exists s1, b1. exact E.
Defined.

Definition demo_booted : CA * result boot_error Booted :=
  BootstrapCA demo_ca_keys demo_ca_config (Some demo_identity) (Some None) true (demo_net 10) demo_ca.
Definition demo_boot : Booted :=
  MkBooted (MkCASession (EncodeToString "t") ["enc"] (14 * sec + sessionTokenTTL)) (MkRenewer (14 * sec + CertTTL) Waiting)
    (fresh_cert demo_ca_keys demo_identity (demo_net 10) "KEY" (MkLicense (EncodeToString "KEY") ["enc"] 1 LicenseActive (1000000 * sec))).

Lemma keys_refused_between_renewals_witness :
  keys_api (H := demo_hmac) (Some (renew_polls [MkLook (5 * hour) None (5 * hour + sec)] (bo_renewer demo_boot, bo_session demo_boot)).2) (6 * hour) demo_server
    (demo_env 0) (inl (Some demo_bind)) (empty_mercury, empty_pipeline) = (empty_mercury, empty_pipeline, StatusReply 503).
Proof.
  refine (@keys_refused_between_renewals toy_crypto toy_crypto_laws demo_hmac demo_ca_keys demo_identity demo_ca_config (demo_net 10) "h"
    "c-nonce" "t" demo_ca demo_booted.1 _ demo_boot [MkLook (5 * hour) None (5 * hour + sec)] (6 * hour) demo_server (demo_env 0) (inl (Some demo_bind))
    (empty_mercury, empty_pipeline) (demo_net_good 10) demo_enrolable _ _ _).
  - vm_compute. reflexivity.
  - vm_compute. split; discriminate.
  - repeat constructor. vm_compute. discriminate.
Defined.

(** The authority is away until the twentieth hour. *)
Definition demo_renewal : authStep2Response := MkAuthStep2Response (MkSessionToken "t" [] (26 * hour)) [] (46 * hour).

Definition demo_looks : list Look :=
  [MkLook (11 * hour) None (11 * hour); MkLook (12 * hour + sec) None (12 * hour + 9 * sec); MkLook (14 * hour) None (14 * hour + 10 * sec);
   MkLook (16 * hour) None (16 * hour + 10 * sec); MkLook (18 * hour) None (18 * hour + 10 * sec); MkLook (20 * hour - sec) None (20 * hour + 9 * sec);
   MkLook (20 * hour + 10 * sec) (Some demo_renewal) (20 * hour + 10 * sec); MkLook (22 * hour) (Some demo_renewal) (22 * hour + 7 * sec)].

Lemma renewal_survives_outage_witness :
  exists now, renewed_at demo_looks (MkRenewer (24 * hour) Waiting, empty_session) = Some now /\ now <= 24 * hour.
Proof.
  apply (renewal_survives_outage (2 * hour) (10 * sec) (20 * hour) (10 * hour) (24 * hour)).
  - vm_compute. repeat split; discriminate.
  - repeat constructor; cbn; unfold hour, sec; intros; lia || by eexists.
  - vm_compute. discriminate.
  - vm_compute. discriminate.
  - vm_compute. discriminate.
  - vm_compute. discriminate.
  - vm_compute. discriminate.
  - do 7 apply Exists_cons_tl. apply Exists_cons_hd. vm_compute. reflexivity.
Defined.
