(* ===== verification/FieldProcessors.v ===== *)
(** * FieldProcessors: masking and normalizing columns (src/pkg/processors: field_masker.go, field_normalizer.go)

    A processor gets the rows of a packet and its schema and changes the cells of the columns it is
    configured for.  It visits the columns of a row in the order in which Go ranges over a map.  The
    regular expressions of the package match character classes and marks; each is a function that
    recognises its language. *)

From Stdlib Require Import ZArith Lia Ascii String.
From stdpp Require Import base list gmap strings.
From S2P Require Import Prelude Strconv PacketTypes GoMaps.

Abbreviation Rows := (list (list string)).

(** ** Columns

    What both processors do with their map of fields. *)

Section Columns.
  Context `{GoRange} {P : Type}.

(** [fieldIndices]: the configured columns of the schema, by index. *)
Fixpoint field_indices_from (i : nat) (cfg : gmap string P) (fields : list Field) : gmap nat P :=
  match fields with
  | [] => ∅
  | f :: fields =>
      let m := field_indices_from (S i) cfg fields in
      match cfg !! f_Name f with Some p => <[i := p]> m | None => m end
  end.
Definition field_indices : gmap string P -> list Field -> gmap nat P := field_indices_from 0.

(** [change p v] is the new cell, or [None] when it stays. *)
Definition change_cell (change : P -> string -> option string) (row : list string) (col : nat * P) : list string :=
  match row !! col.1 with
  | Some v => if String.eqb v "" then row else match change col.2 v with Some v' => <[col.1 := v']> row | None => row end
  | None => row
  end.
Definition change_row (change : P -> string -> option string) (cols : gmap nat P) (row : list string) : list string :=
  fold_left (change_cell change) (range_entries cols) row.
Definition change_rows (change : P -> string -> option string) (cfg : gmap string P) (data : Rows) (schema : Schema) : Rows :=
  if (size cfg =? 0)%nat then data
  else
    let cols := field_indices cfg (s_Fields schema) in
    if (size cols =? 0)%nat then data else map (change_row change cols) data.
End Columns.

(** ** field_masker.go *)

Inductive MaskPattern := MaskPartial | MaskMiddle | MaskStars | MaskFirst2Last2 | MaskOther (text : string).
Record FieldMasker := MkFieldMasker { fieldsToMask : gmap string MaskPattern }.
Definition NewFieldMasker (fields : gmap string MaskPattern) : FieldMasker := MkFieldMasker fields.

(** [emailRegex]: the local part and the domain of an address.  The text after the last dot is two letters
    or more, and something comes before it. *)
Definition is_alnum (c : ascii) : bool := is_ascii_letter c || is_ascii_digit c.
Definition local_byte (c : ascii) : bool := is_alnum c || existsb (Ascii.eqb c) ["."; "_"; "%"; "+"; "-"]%char.
Definition domain_byte (c : ascii) : bool := is_alnum c || existsb (Ascii.eqb c) ["."; "-"]%char.
Definition email_domain (d : string) : bool :=
  all_bytes domain_byte d
  && match cut_at "." (str_rev d) with
     | Some (tld, host) => all_bytes is_ascii_letter tld && (2 <=? String.length tld)%nat && negb (String.eqb host "")
     | None => false
     end.
Definition emailRegex (value : string) : option (string * string) :=
  match cut_at "@" value with
  | Some (l, d) => if all_bytes local_byte l && negb (String.eqb l "") && email_domain d then Some (l, d) else None
  | None => None
  end.

Definition first_byte (s : string) : string := match s with String c _ => string_of_byte c | "" => "" end.
Definition maskPartial (value : string) : string :=
  match emailRegex value with
  | Some (localPart, domain) => first_byte localPart +:+ "***@" +:+ domain
  | None =>
      if (String.length value <=? 2)%nat then "***"
      else first_byte value +:+ "***" +:+ first_byte (str_rev value)
  end.

Fixpoint filter_bytes (p : ascii -> bool) (s : string) : string :=
  match s with "" => "" | String c s' => if p c then String c (filter_bytes p s') else filter_bytes p s' end.
Fixpoint Repeat (c : ascii) (n : nat) : string := match n with O => "" | S n' => String c (Repeat c n') end.

Definition is_digit_rune (r : N) : bool := ((48 <=? r) && (r <=? 57))%N.
Definition digit_count (value : string) : nat := String.length (filter_bytes is_ascii_digit value).
Definition visible_digits (n : nat) : nat := if (n <? 8)%nat then n / 2 else 4.

(** The loop over the runes; [n] digits in all, [seen] of them so far. *)
Fixpoint mask_digits (n visible seen : nat) (rs : list N) : list N :=
  match rs with
  | [] => []
  | r :: rs' =>
      if is_digit_rune r then
        let seen := S seen in
        (if (visible <? seen)%nat && (seen <=? n - visible)%nat then 88%N else r) :: mask_digits n visible seen rs'
      else r :: mask_digits n visible seen rs'
  end.
Definition maskMiddle (value : string) : string :=
  let n := digit_count value in
  if (n <=? 4)%nat then Repeat "X" (String.length value)
  else string_of_runes (mask_digits n (visible_digits n) 0 (runes value)).

Definition is_separator (r : N) : bool := existsb (N.eqb r) [32; 45; 40; 41; 46; 47]%N.
Definition star_rune (r : N) : N := if is_separator r then r else 42%N.
Definition maskStars (value : string) : string := string_of_runes (map star_rune (runes value)).

(** Put back the spaces: the runes of the value are replaced by those of the mask, one by one. *)
Fixpoint restore_spaces (value masked : list N) : list N :=
  match value with
  | [] => []
  | r :: value =>
      if (r =? 32)%N then 32%N :: restore_spaces value masked
      else match masked with m :: masked => m :: restore_spaces value masked | [] => restore_spaces value [] end
  end.
Definition maskFirst2Last2 (value : string) : string :=
  let cleaned := filter_bytes (fun c => negb (Ascii.eqb c " ")) value in
  let n := String.length cleaned in
  if (n <=? 4)%nat then Repeat "*" (String.length value)
  else
    let masked := String.substring 0 2 cleaned +:+ Repeat "*" (n - 4) +:+ drop_bytes (n - 2) cleaned in
    if has_byte " " value then string_of_runes (restore_spaces (runes value) (runes masked)) else masked.

Definition maskValue (value : string) (pattern : MaskPattern) : string :=
  match pattern with
  | MaskPartial => maskPartial value
  | MaskMiddle => maskMiddle value
  | MaskStars => maskStars value
  | MaskFirst2Last2 => maskFirst2Last2 value
  | MaskOther _ => maskStars value
  end.

Definition masker_Process `{GoRange} (m : FieldMasker) (data : Rows) (schema : Schema) : Rows :=
  change_rows (fun p v => Some (maskValue v p)) (fieldsToMask m) data schema.

(** ** field_normalizer.go *)

Inductive NormalizeRule :=
| NormalizePhone | NormalizeEmail | NormalizeWhitespace | NormalizeUpperCase | NormalizeLowerCase | NormalizeDate
| NormalizeOther (text : string).
Record FieldNormalizer := MkFieldNormalizer { fieldsToNormalize : gmap string NormalizeRule }.
Definition NewFieldNormalizer (fields : gmap string NormalizeRule) : FieldNormalizer := MkFieldNormalizer fields.

Definition phone_byte (c : ascii) : bool := is_ascii_digit c || Ascii.eqb c "+".
Definition normalizePhone (value : string) : option string :=
  let cleaned := TrimPrefix (filter_bytes phone_byte value) "+" in
  if (String.length cleaned <? 7)%nat then None else Some cleaned.

Definition normalizeEmail `{GoCase} (value : string) : option string :=
  let normalized := ToLower (TrimSpace value) in
  if negb (Contains normalized "@") || negb (Contains normalized ".") then None else Some normalized.

(** [\s+] to one space; [gap] says that the byte before was a space. *)
Definition is_re_space (c : ascii) : bool := existsb (Ascii.eqb c) ["009"; "010"; "012"; "013"; " "]%char.
Fixpoint collapse_spaces (gap : bool) (s : string) : string :=
  match s with
  | "" => ""
  | String c s' =>
      if is_re_space c then (if gap then collapse_spaces true s' else String " " (collapse_spaces true s'))
      else String c (collapse_spaces false s')
  end.
Definition normalizeWhitespace (value : string) : option string := Some (collapse_spaces false (TrimSpace value)).

(** [dateRegex]: day, month and year. *)
Definition is_date_mark (c : ascii) : bool := existsb (Ascii.eqb c) ["."; "/"; "-"]%char.
Definition span_digits : string -> string * string := span_bytes is_ascii_digit.
Definition digits_of_length (lo hi : nat) (w : string) : bool := (lo <=? String.length w)%nat && (String.length w <=? hi)%nat.
Definition dateRegex (value : string) : option (string * string * string) :=
  match span_digits value with
  | (day, String m1 r1) =>
      match span_digits r1 with
      | (month, String m2 r2) =>
          let '(year, r3) := span_digits r2 in
          if is_date_mark m1 && is_date_mark m2 && String.eqb r3 "" && digits_of_length 1 2 day
             && digits_of_length 1 2 month && digits_of_length 2 4 year
          then Some (day, month, year) else None
      | _ => None
      end
  | _ => None
  end.
Definition pad_day (w : string) : string := if (String.length w =? 1)%nat then "0" +:+ w else w.
Definition normalizeDate (value : string) : option string :=
  match dateRegex value with
  | None => None
  | Some (day, month, year) =>
      let year := if (String.length year =? 2)%nat then "20" +:+ year else year in
      Some (year +:+ "-" +:+ pad_day month +:+ "-" +:+ pad_day day)
  end.

(** [None] where the source returns an error with the value itself. *)
Definition normalizeValue `{GoCase} (value : string) (rule : NormalizeRule) : option string :=
  match rule with
  | NormalizePhone => normalizePhone value
  | NormalizeEmail => normalizeEmail value
  | NormalizeWhitespace => normalizeWhitespace value
  | NormalizeUpperCase => Some (ToUpper value)
  | NormalizeLowerCase => Some (ToLower value)
  | NormalizeDate => normalizeDate value
  | NormalizeOther _ => None
  end.

Definition normalizer_Process `{GoRange} `{GoCase} (n : FieldNormalizer) (data : Rows) (schema : Schema) : Rows :=
  change_rows (fun rule v => normalizeValue v rule) (fieldsToNormalize n) data schema.

(** ** Lemmas: columns *)

Section ColumnLemmas.
  Context {P : Type} (change : P -> string -> option string).

Lemma field_indices_from_lookup (cfg : gmap string P) (fields : list Field) (i k : nat) :
  field_indices_from i cfg fields !! k = if (k <? i)%nat then None else fields !! (k - i)%nat ≫= fun f => cfg !! f_Name f.
Proof.
  revert i; induction fields as [|f fields IH]; intros i; cbn [field_indices_from].
  - rewrite lookup_empty. by destruct (k <? i)%nat.
  - assert (field_indices_from (S i) cfg fields !! k = if (k <? i)%nat then None else
      if (k =? i)%nat then None else (f :: fields) !! (k - i)%nat ≫= fun f => cfg !! f_Name f) as E.
    { rewrite IH. destruct (Nat.ltb_spec k (S i)), (Nat.ltb_spec k i), (Nat.eqb_spec k i); try lia; try done.
      by replace (k - i)%nat with (S (k - S i)) by lia. }
    destruct (cfg !! f_Name f) as [p|] eqn:Ep; [|rewrite E];
      (destruct (Nat.eqb_spec k i) as [->|Hne]; [rewrite ?lookup_insert_eq, Nat.ltb_irrefl, Nat.sub_diag; cbn; by rewrite Ep|]);
      [rewrite lookup_insert_ne by done; exact E|done].
Qed.

Lemma field_indices_lookup (cfg : gmap string P) (fields : list Field) (k : nat) :
  field_indices cfg fields !! k = fields !! k ≫= fun f => cfg !! f_Name f.
Proof. unfold field_indices. rewrite field_indices_from_lookup. cbn. by rewrite Nat.sub_0_r. Qed.

(** What becomes of a cell, given what its column is configured for. *)
Definition cell_after (o : option P) (v : string) : string :=
  if String.eqb v "" then v else match o with Some p => default v (change p v) | None => v end.

Lemma change_cell_lookup (row : list string) (k : nat) (p : P) (j : nat) :
  change_cell change row (k, p) !! j = cell_after (if (j =? k)%nat then Some p else None) <$> row !! j.
Proof.
  unfold change_cell, cell_after. cbn [fst snd]. destruct (Nat.eqb_spec j k) as [->|Hne].
  - destruct (row !! k) as [v|] eqn:E; [|done]. cbn. destruct (String.eqb v ""); [done|].
    destruct (change p v) as [v'|]; [|done]. apply list_lookup_insert_eq. by apply lookup_lt_Some in E.
  - assert (forall v', <[k := v']> row !! j = row !! j) as Hi by (intros; by apply list_lookup_insert_ne).
    replace (match row !! k with Some v => _ | None => row end !! j) with (row !! j).
    + destruct (row !! j) as [w|]; [|done]. cbn. by destruct (String.eqb w "").
    + destruct (row !! k) as [v|]; [|done]. destruct (String.eqb v ""); [done|]. by destruct (change p v).
Qed.

Lemma cell_after_None (v : string) : cell_after None v = v.
Proof. unfold cell_after. by destruct (String.eqb v ""). Qed.

Lemma fold_cells_lookup (l : list (nat * P)) (row : list string) (j : nat) :
  NoDup l.*1 -> fold_left (change_cell change) l row !! j = cell_after (list_to_map (M := gmap nat P) l !! j) <$> row !! j.
Proof.
  revert row; induction l as [|[k p] l IH]; intros row Hd; cbn.
  - rewrite lookup_empty. destruct (row !! j) as [v|]; [|done]. cbn. by rewrite cell_after_None.
  - apply NoDup_cons in Hd as [Hk Hd]. rewrite IH, change_cell_lookup by done. destruct (Nat.eqb_spec j k) as [->|Hne].
    + rewrite lookup_insert_eq, (not_elem_of_list_to_map_1 l k Hk). destruct (row !! k); [|done]. cbn. by rewrite cell_after_None.
    + rewrite lookup_insert_ne by done. destruct (row !! j) as [v|]; [|done]. cbn. by rewrite cell_after_None.
Qed.

Context `{GoRangeLaws}.

Lemma change_row_lookup (cols : gmap nat P) (row : list string) (j : nat) :
  change_row change cols row !! j = cell_after (cols !! j) <$> row !! j.
Proof.
  unfold change_row. assert (NoDup (range_entries cols).*1) as Hd.
  { rewrite (fmap_Permutation fst _ _ (range_permutation _ _ cols)). apply NoDup_fst_map_to_list. }
  rewrite fold_cells_lookup by done. do 2 f_equal.
  rewrite (list_to_map_proper (range_entries cols) (map_to_list cols)); [by rewrite list_to_map_to_list|done|].
  apply range_permutation.
Qed.

(** The rows after a processor, cell by cell. *)
Lemma change_rows_lookup (cfg : gmap string P) (data : Rows) (schema : Schema) (i : nat) (row : list string) :
  data !! i = Some row ->
  exists row', change_rows change cfg data schema !! i = Some row'
    /\ forall j, row' !! j = cell_after (s_Fields schema !! j ≫= fun f => cfg !! f_Name f) <$> row !! j.
Proof.
  intros Hr. unfold change_rows.
  assert (forall o : nat -> option P, (forall j, o j = None) -> forall j, row !! j = cell_after (o j) <$> row !! j) as Hnone.
  { intros o Ho j. rewrite Ho. destruct (row !! j) as [v|]; [|done]. cbn. by rewrite cell_after_None. }
  destruct (Nat.eqb_spec (size cfg) 0) as [E|_].
  { apply map_size_empty_iff in E as ->. exists row. split; [done|]. apply Hnone. intros j. by destruct (s_Fields schema !! j). }
  destruct (Nat.eqb_spec (size (field_indices cfg (s_Fields schema))) 0) as [E|_].
  { apply map_size_empty_iff in E. exists row. split; [done|]. apply Hnone. intros j.
    by rewrite <- field_indices_lookup, E, lookup_empty. }
  rewrite list_lookup_fmap, Hr. eexists. split; [done|]. intros j. by rewrite change_row_lookup, field_indices_lookup.
Qed.

Lemma change_rows_length (cfg : gmap string P) (data : Rows) (schema : Schema) :
  length (change_rows change cfg data schema) = length data.
Proof. unfold change_rows. destruct (_ =? _)%nat; [done|]. destruct (_ =? _)%nat; [done|]. apply length_map. Qed.
End ColumnLemmas.

(** ** Lemmas: masks *)

Lemma mask_digits_keeps (n visible : nat) (rs : list N) :
  (n - visible <= visible)%nat -> forall seen, mask_digits n visible seen rs = rs.
Proof.
  intros Hv. induction rs as [|r rs IH]; intros seen; [done|]. cbn [mask_digits]. rewrite !IH.
  destruct (is_digit_rune r); [|done]. destruct (Nat.ltb_spec visible (S seen)), (Nat.leb_spec (S seen) (n - visible)); cbn; try done. lia.
Qed.

Lemma mask_digits_digits (n visible seen : nat) (rs : list N) (ds := List.filter is_digit_rune rs) :
  (visible <= n - visible)%nat -> (seen + length ds = n)%nat ->
  List.filter is_digit_rune (mask_digits n visible seen rs) = take (visible - seen) ds ++ drop (n - visible - seen) ds.
Proof.
  subst ds. intros Hv. revert seen; induction rs as [|r rs IH]; intros seen Hn; cbn [mask_digits List.filter] in *.
  { by rewrite take_nil, drop_nil. }
  destruct (is_digit_rune r) eqn:Er; cbn [List.filter length] in *; [|rewrite Er; by apply IH].
  specialize (IH (S seen) ltac:(lia)).
  destruct (Nat.ltb_spec visible (S seen)) as [H1|H1], (Nat.leb_spec (S seen) (n - visible)) as [H2|H2]; cbn [andb].
  - cbn [is_digit_rune]. change (is_digit_rune 88) with false. cbn match. rewrite IH.
    replace (visible - seen)%nat with 0%nat by lia. replace (visible - S seen)%nat with 0%nat by lia.
    by replace (n - visible - seen)%nat with (S (n - visible - S seen)) by lia.
  - rewrite Er, IH. replace (visible - seen)%nat with 0%nat by lia. replace (visible - S seen)%nat with 0%nat by lia.
    replace (n - visible - seen)%nat with 0%nat by lia. by replace (n - visible - S seen)%nat with 0%nat by lia.
  - rewrite Er, IH. replace (visible - seen)%nat with (S (visible - S seen)) by lia.
    by replace (n - visible - seen)%nat with (S (n - visible - S seen)) by lia.
  - lia.
Qed.

Lemma mask_digits_small (n visible seen : nat) (rs : list N) :
  Forall (fun r => (r < 128)%N) rs -> Forall (fun r => (r < 128)%N) (mask_digits n visible seen rs).
Proof.
  intros Hs. revert seen; induction Hs as [|r rs Hr _ IH]; intros seen; cbn [mask_digits]; [constructor|].
  destruct (is_digit_rune r); constructor; try done. destruct (_ && _); [lia|done].
Qed.

Lemma mask_digits_length (n visible seen : nat) (rs : list N) : length (mask_digits n visible seen rs) = length rs.
Proof. revert seen; induction rs as [|r rs IH]; intros seen; [done|]. cbn. destruct (is_digit_rune r); cbn; by rewrite IH. Qed.

(** Runes below 128 written as text, and the bytes of the text that satisfy a test. *)
Lemma filter_small (p : N -> bool) (q : ascii -> bool) (rs : list N) :
  (forall c, q c = p (byte_val c)) -> Forall (fun r => (r < 128)%N) rs ->
  List.filter q (map ascii_of_N rs) = map ascii_of_N (List.filter p rs).
Proof.
  intros Hq. induction 1 as [|r rs Hr _ IH]; [done|]. cbn [map List.filter]. rewrite Hq.
  unfold byte_val. rewrite N_ascii_embedding by lia. destruct (p r); cbn; by rewrite IH.
Qed.

Lemma filter_bytes_list (q : ascii -> bool) (s : string) : bytes_list (filter_bytes q s) = List.filter q (bytes_list s).
Proof. induction s as [|c s IH]; [done|]. cbn. destruct (q c); cbn; by rewrite IH. Qed.

Lemma bytes_list_length (s : string) : length (bytes_list s) = String.length s.
Proof. induction s as [|c s IH]; [done|]. cbn. by rewrite IH. Qed.

Lemma is_digit_byte (c : ascii) : is_ascii_digit c = is_digit_rune (byte_val c).
Proof. by destruct c as [[] [] [] [] [] [] [] []]. Qed.

Lemma restore_spaces_spec (value masked : list N) :
  length masked = length (List.filter (fun r => negb (r =? 32)%N) value) -> Forall (fun m => m <> 32%N) masked ->
  List.filter (fun r => negb (r =? 32)%N) (restore_spaces value masked) = masked
  /\ map (fun r => (r =? 32)%N) (restore_spaces value masked) = map (fun r => (r =? 32)%N) value.
Proof.
  revert masked; induction value as [|r value IH]; intros masked Hl Hm; cbn in *; [by destruct masked|].
  destruct (N.eqb_spec r 32) as [->|Hr]; cbn in *.
  - destruct (IH masked Hl Hm) as [-> ->]. done.
  - destruct masked as [|m masked]; [done|]. cbn in Hl. apply Forall_cons in Hm as [Hm Hms].
    destruct (IH masked ltac:(lia) Hms) as [E1 E2]. cbn. apply N.eqb_neq in Hm. rewrite Hm. cbn. by rewrite E1, E2.
Qed.

Lemma masked_text (rs : list N) : Forall (fun r => (r < 128)%N) rs -> bytes_list (string_of_runes rs) = map ascii_of_N rs.
Proof. intros Hs. rewrite string_of_runes_small by done. apply list_ascii_of_string_of_list_ascii. Qed.

Lemma star_rune_small (r : N) : (star_rune r < 128)%N.
Proof.
  unfold star_rune, is_separator. destruct (existsb _ _) eqn:E; [|lia]. apply existsb_exists in E as (x & Hx & ->%N.eqb_eq).
  cbn in Hx. lia.
Qed.

Lemma Repeat_bytes (c : ascii) (n : nat) : bytes_list (Repeat c n) = repeat c n.
Proof. induction n as [|n IH]; [done|]. cbn. by rewrite IH. Qed.

Lemma bytes_list_app (a b : string) : bytes_list (a +:+ b) = bytes_list a ++ bytes_list b.
Proof. induction a as [|c a IH]; [done|]. cbn. by rewrite IH. Qed.

Lemma bytes_take2 (s : string) : bytes_list (String.substring 0 2 s) = take 2 (bytes_list s).
Proof. destruct s as [|a [|b s]]; try done. cbn. by destruct s. Qed.

Lemma bytes_drop (n : nat) (s : string) : bytes_list (drop_bytes n s) = drop n (bytes_list s).
Proof. revert s; induction n as [|n IH]; intros [|c s]; try done. cbn. apply IH. Qed.

Lemma map_small (rs : list N) : Forall (fun r => (r < 128)%N) rs -> map byte_val (map ascii_of_N rs) = rs.
Proof.
  induction 1 as [|r rs Hr _ IH]; [done|]. cbn [map]. rewrite IH. unfold byte_val. by rewrite N_ascii_embedding by lia.
Qed.

Lemma bytes_of_runes (l : list ascii) : map ascii_of_N (map byte_val l) = l.
Proof. rewrite map_map. rewrite <- (map_id l) at 2. apply map_ext. intros c. apply ascii_N_embedding. Qed.

(** ** Properties *)

(** Masking changes the configured columns and nothing else: every row keeps its place and its width, the
    cell of a column configured with a pattern becomes its mask unless it is empty, every other cell is as
    it was; the order in which the columns are visited does not matter. *)
Theorem masking_columns `{GoRangeLaws} (m : FieldMasker) (data : Rows) (schema : Schema) :
  length (masker_Process m data schema) = length data
  /\ forall i row, data !! i = Some row ->
     exists row', masker_Process m data schema !! i = Some row'
       /\ forall j, row' !! j = (fun v => if String.eqb v "" then v else
            match s_Fields schema !! j ≫= fun f => fieldsToMask m !! f_Name f with
            | Some p => maskValue v p
            | None => v
            end) <$> row !! j.
Proof.
  split; [apply change_rows_length|]. intros i row Hr.
  destruct (change_rows_lookup (fun p v => Some (maskValue v p)) (fieldsToMask m) data schema i row Hr) as (row' & E & Hj).
  exists row'. split; [done|]. intros j. by rewrite Hj.
Qed.

(** Stars leave nothing of a value but its length in characters and its separators. *)
Theorem stars_leave_separators (value : string) :
  bytes_list (maskStars value) = map (fun r => if is_separator r then ascii_of_N r else "*"%char) (runes value).
Proof.
  unfold maskStars. rewrite masked_text, map_map by (apply Forall_map, Forall_forall; intros; apply star_rune_small).
  apply map_ext. intros r. unfold star_rune. by destruct (is_separator r).
Qed.

(** The middle mask of an ASCII value with more than four digits keeps as many digits at either end as
    [visible_digits] says, drops those between, and keeps the length. *)
Theorem middle_keeps_ends (value : string) (ds := bytes_list (filter_bytes is_ascii_digit value)) (n := digit_count value) :
  is_ascii value = true -> (4 < n)%nat ->
  bytes_list (filter_bytes is_ascii_digit (maskMiddle value)) = take (visible_digits n) ds ++ drop (n - visible_digits n) ds
  /\ String.length (maskMiddle value) = String.length value.
Proof.
  intros Ha Hn. unfold maskMiddle. fold n. destruct (Nat.leb_spec n 4); [lia|]. rewrite runes_ascii by done.
  pose proof (bytes_small value Ha) as Hs.
  pose proof (mask_digits_small n (visible_digits n) 0 _ Hs) as Hsm. split.
  - rewrite filter_bytes_list, masked_text by done. rewrite (filter_small is_digit_rune) by (done || apply is_digit_byte).
    assert (List.filter is_digit_rune (map byte_val (bytes_list value)) = map byte_val ds) as Eds.
    { unfold ds. rewrite filter_bytes_list. clear. induction (bytes_list value) as [|c l IH]; [done|]. cbn [map List.filter].
      rewrite <- is_digit_byte. destruct (is_ascii_digit c); cbn [map]; by rewrite IH. }
    rewrite mask_digits_digits, Eds, !Nat.sub_0_r.
    + rewrite map_app, firstn_map, skipn_map.
      by rewrite !bytes_of_runes.
    + unfold visible_digits. destruct (Nat.ltb_spec n 8); [|lia]. pose proof (Nat.div_mod n 2). lia.
    + rewrite Eds, length_map. unfold ds. rewrite bytes_list_length. done.
  - rewrite <- bytes_list_length, masked_text, length_map, mask_digits_length, length_map by done. apply bytes_list_length.
Qed.

Lemma middle_keeps_ends_witness :
  bytes_list (filter_bytes is_ascii_digit (maskMiddle "1234 5678 9012 3456"))
  = take 4 (bytes_list "1234567890123456") ++ drop 12 (bytes_list "1234567890123456").
Proof.
  refine (proj1 (middle_keeps_ends "1234 5678 9012 3456" eq_refl _)). vm_compute. repeat constructor.
Defined.

(** So a number of six or of eight digits is not masked at all. *)
Theorem middle_shows_six_and_eight (value : string) :
  is_ascii value = true -> digit_count value = 6%nat \/ digit_count value = 8%nat -> maskMiddle value = value.
Proof.
  intros Ha Hn. unfold maskMiddle. destruct (Nat.leb_spec (digit_count value) 4); [lia|].
  rewrite mask_digits_keeps; [by apply runes_roundtrip|]. destruct Hn as [->| ->]; cbn; lia.
Qed.

Lemma middle_shows_six_and_eight_witness : maskMiddle "12-34-56" = "12-34-56" /\ maskMiddle "1234 5678" = "1234 5678".
Proof. split; [exact (middle_shows_six_and_eight "12-34-56" eq_refl (or_introl eq_refl))|exact (middle_shows_six_and_eight "1234 5678" eq_refl (or_intror eq_refl))]. Defined.

Lemma filter_all_bytes (P q : ascii -> bool) (s : string) : all_bytes P s = true -> all_bytes P (filter_bytes q s) = true.
Proof.
  induction s as [|c s IH]; [done|]. cbn. intros [Hc Hs]%andb_true_iff. destruct (q c); cbn; [rewrite Hc|]; by apply IH.
Qed.

Lemma all_bytes_list (P : ascii -> bool) (s : string) : all_bytes P s = true <-> Forall (fun c => P c = true) (bytes_list s).
Proof.
  induction s as [|c s IH]; cbn; [split; [constructor|done]|]. rewrite andb_true_iff, IH, Forall_cons. done.
Qed.

(** The bytes of a value that are no spaces. *)
Abbreviation solid value := (filter_bytes (fun c => negb (Ascii.eqb c " ")) value).

Definition ends_masked (cleaned : list ascii) : list ascii :=
  take 2 cleaned ++ repeat "*"%char (length cleaned - 4) ++ drop (length cleaned - 2) cleaned.

Lemma ends_masked_length (l : list ascii) : (4 < length l)%nat -> length (ends_masked l) = length l.
Proof. intros Hl. unfold ends_masked. rewrite !length_app, length_take, repeat_length, length_drop. lia. Qed.

Lemma ends_masked_Forall (P : ascii -> Prop) (l : list ascii) : P "*"%char -> Forall P l -> Forall P (ends_masked l).
Proof.
  intros Hs Hl. unfold ends_masked. apply Forall_app. split; [by apply Forall_take|]. apply Forall_app. split; [|by apply Forall_drop].
  induction (length l - 4)%nat; constructor; auto.
Qed.

Lemma space_byte (c : ascii) : Ascii.eqb c " " = (byte_val c =? 32)%N.
Proof. by destruct c as [[] [] [] [] [] [] [] []]. Qed.

Lemma restore_small (value masked : list N) :
  Forall (fun r => (r < 128)%N) masked -> Forall (fun r => (r < 128)%N) (restore_spaces value masked).
Proof.
  revert masked; induction value as [|r value IH]; intros masked Hm; cbn; [constructor|]. destruct (r =? 32)%N; [constructor; [lia|by apply IH]|].
  destruct Hm as [|m masked Hm Hms]; [by apply IH|]. constructor; [done|by apply IH].
Qed.

Lemma solid_list (l : list ascii) : Forall (fun c => Ascii.eqb c " " = false) (List.filter (fun c => negb (Ascii.eqb c " ")) l).
Proof. induction l as [|c l IH]; [constructor|]. cbn [List.filter]. destruct (Ascii.eqb c " ") eqn:E; [done|]. by constructor. Qed.

Lemma solid_count (l : list ascii) :
  length (List.filter (fun r => negb (r =? 32)%N) (map byte_val l)) = length (List.filter (fun c => negb (Ascii.eqb c " ")) l).
Proof. induction l as [|c l IH]; [done|]. cbn [map List.filter]. rewrite space_byte. destruct (byte_val c =? 32)%N; cbn; congruence. Qed.

Lemma no_spaces (l : list ascii) :
  Forall (fun c => Ascii.eqb c " " = false) l ->
  List.filter (fun c => negb (Ascii.eqb c " ")) l = l /\ map (fun c => Ascii.eqb c " ") l = repeat false (length l).
Proof. induction 1 as [|c l Hc _ [IH1 IH2]]; [done|]. cbn. rewrite Hc. cbn. by rewrite IH1, IH2. Qed.

Lemma has_no_space (value : string) : has_byte " " value = false -> Forall (fun c => Ascii.eqb c " " = false) (bytes_list value).
Proof. induction value as [|c v IH]; cbn; [constructor|]. intros [Hc Hv]%orb_false_iff. constructor; [done|by apply IH]. Qed.

(** Spaces put back into a mask that has none. *)
Lemma restored_text (value : string) (masked : list ascii) :
  Forall (fun c => (byte_val c <? 128)%N = true) masked -> Forall (fun c => Ascii.eqb c " " = false) masked ->
  length masked = length (bytes_list (solid value)) ->
  let t := string_of_runes (restore_spaces (map byte_val (bytes_list value)) (map byte_val masked)) in
  bytes_list (solid t) = masked /\ map (fun c => Ascii.eqb c " ") (bytes_list t) = map (fun c => Ascii.eqb c " ") (bytes_list value).
Proof.
  intros Hs Hc Hl t. rewrite filter_bytes_list in Hl.
  destruct (restore_spaces_spec (map byte_val (bytes_list value)) (map byte_val masked)) as [E1 E2].
  { by rewrite length_map, solid_count. }
  { apply Forall_map. eapply Forall_impl; [exact Hc|]. intros c Hc32. cbn beta in Hc32. rewrite space_byte in Hc32. by apply N.eqb_neq. }
  assert (Forall (fun r => (r < 128)%N) (restore_spaces (map byte_val (bytes_list value)) (map byte_val masked))) as Hsm.
  { apply restore_small, Forall_map. eapply Forall_impl; [exact Hs|]. intros c Hlt. by apply N.ltb_lt. }
  assert (forall l, map (fun c => Ascii.eqb c " ") l = map (fun r => (r =? 32)%N) (map byte_val l)) as Hsp
    by (intros l; rewrite map_map; apply map_ext; apply space_byte).
  unfold t. rewrite filter_bytes_list, masked_text by done. split.
  - rewrite (filter_small (fun r => negb (r =? 32)%N)) by (done || intros c; by rewrite space_byte). rewrite E1. apply bytes_of_runes.
  - rewrite !Hsp, map_small by done. exact E2.
Qed.

(** The mask that keeps two characters at either end leaves the spaces of an ASCII value where they are,
    and of its other characters the first two and the last two. *)
Theorem first2_last2_keeps_ends (value : string) (cleaned := bytes_list (solid value)) :
  is_ascii value = true -> (4 < length cleaned)%nat ->
  bytes_list (solid (maskFirst2Last2 value)) = ends_masked cleaned
  /\ map (fun c => Ascii.eqb c " ") (bytes_list (maskFirst2Last2 value)) = map (fun c => Ascii.eqb c " ") (bytes_list value).
Proof.
  intros Ha Hn. unfold maskFirst2Last2. rewrite <- bytes_list_length. fold cleaned. destruct (Nat.leb_spec (length cleaned) 4); [lia|].
  set (masked := (_ +:+ _)%string). assert (bytes_list masked = ends_masked cleaned) as Em.
  { unfold masked, ends_masked. by rewrite !bytes_list_app, bytes_take2, Repeat_bytes, bytes_drop. }
  assert (Forall (fun c => (byte_val c <? 128)%N = true) (ends_masked cleaned)) as H1.
  { apply ends_masked_Forall; [done|]. by apply all_bytes_list, filter_all_bytes. }
  assert (Forall (fun c => Ascii.eqb c " " = false) (ends_masked cleaned)) as H2.
  { apply ends_masked_Forall; [done|]. unfold cleaned. rewrite filter_bytes_list. apply solid_list. }
  destruct (has_byte " " value) eqn:Hb.
  - rewrite !runes_ascii, Em; [|by apply all_bytes_list; rewrite Em|done]. apply restored_text; [done..|by apply ends_masked_length].
  - pose proof (no_spaces _ (has_no_space value Hb)) as [Ev Sv]. rewrite filter_bytes_list, Em.
    destruct (no_spaces _ H2) as [-> ->]. split; [done|]. rewrite Sv, ends_masked_length by done.
    unfold cleaned. by rewrite filter_bytes_list, Ev.
Qed.

Lemma first2_last2_keeps_ends_witness :
  bytes_list (solid (maskFirst2Last2 "1234 567890")) = bytes_list "12******90".
Proof. refine (proj1 (first2_last2_keeps_ends "1234 567890" eq_refl _)). vm_compute. repeat constructor. Defined.
