(* ===== verification/FieldValidator.v ===== *)
(** * FieldValidator: validation, chains and their configuration (src/pkg/processors: field_validator.go, chain.go, factory.go)

    The validator of columns, the chain of processors a pipeline runs, and the factory that makes them
    from the YAML configuration.  A YAML map is the list of its entries in the order Go ranges over it.
    The regular expressions a user gives are compiled by an argument; those of the package are
    recognisers.  Errors are values where the source formats texts. *)

From Stdlib Require Import ZArith Lia Ascii String.
From stdpp Require Import base list gmap strings.
From S2P Require Import Prelude Strconv PacketTypes SchemaPkg GoMaps FieldProcessors.

(** ** field_validator.go *)

Definition ValidationErrorStrategy := string.
Definition StrategyFail : ValidationErrorStrategy := "fail".
Definition StrategyFilter : ValidationErrorStrategy := "filter".
Definition StrategyWarn : ValidationErrorStrategy := "warn".

Definition ValidationRule := string.
Definition ValidateRegex : ValidationRule := "regex".
Definition ValidateRange : ValidationRule := "range".
Definition ValidateEnum : ValidationRule := "enum".
Definition ValidateRequired : ValidationRule := "required".
Definition ValidateLength : ValidationRule := "length".
Definition ValidateEmail : ValidationRule := "email".
Definition ValidatePhone : ValidationRule := "phone".
Definition ValidateURL : ValidationRule := "url".
Definition ValidateDate : ValidationRule := "date".

Record FieldValidationRule := MkFieldValidationRule { vr_Type : ValidationRule; vr_Param : string; vr_ErrMsg : string }.

(** [regexp.Compile] and [MatchString]. *)
Class GoRegexp := re_compile : string -> option (string -> bool).

Record FieldValidator := MkFieldValidator {
  fieldsToValidate : gmap string (list FieldValidationRule);
  stopOnFirstError : bool;
  errorStrategy : ValidationErrorStrategy;
  customRegexes : gmap string (string -> bool);
}.

Inductive value_error :=
| PatternNotFound | NoMatch | BadRangeFormat | BadRangeMin | BadRangeMax | NotANumber | OutOfRange | NotInList | RequiredEmpty
| BadLengthFormat | BadLengthMin | BadLengthMax | LengthOutOfRange | InvalidEmail | InvalidPhone | InvalidURL | InvalidDate
| InvalidMonth | InvalidDay | InvalidYear | UnknownRule (type : string).

Inductive config_error :=
| MissingParam (name : string) | InvalidPattern (field : string) | InvalidRegex (pattern : string) | BadRule (field : string)
| BadOnError (text : string) | UnknownProcessor (type : string) | CreateFailed (type : string) (e : config_error)
| ChainFailed (i : nat) (e : config_error).

Section Validator.
  Context `{V : GoValues} `{RE : GoRegexp} `{R : GoRange}.

(** The regex rules, in the order they are compiled. *)
Definition regex_params (fields : list (string * list FieldValidationRule)) : list string :=
  omap (fun r => if String.eqb (vr_Type r) ValidateRegex then Some (vr_Param r) else None) (concat (map snd fields)).

Fixpoint compile_all (params : list string) (m : gmap string (string -> bool)) : result config_error (gmap string (string -> bool)) :=
  match params with
  | [] => Ok m
  | p :: params =>
      match re_compile p with
      | None => Err (InvalidRegex p)
      | Some re => compile_all params (<[p := re]> m)
      end
  end.

Definition NewFieldValidator (fields : gmap string (list FieldValidationRule)) (stop : bool)
    : result config_error FieldValidator :=
  MkFieldValidator fields stop StrategyFail <$> compile_all (regex_params (range_entries fields)) ∅.

Definition validateRegex (v : FieldValidator) (value pattern : string) : option value_error :=
  match (customRegexes v !! pattern : option (string -> bool)) with
  | None => Some PatternNotFound
  | Some re => if re value then None else Some NoMatch
  end.

Definition validateRange (value param : string) : option value_error :=
  match Split param "-" with
  | [lo; hi] =>
      match ParseFloat lo, ParseFloat hi with
      | None, _ => Some BadRangeMin
      | _, None => Some BadRangeMax
      | Some minVal, Some maxVal =>
          match ParseFloat value with
          | None => Some NotANumber
          | Some val => if float_lt val minVal || float_lt maxVal val then Some OutOfRange else None
          end
      end
  | _ => Some BadRangeFormat
  end.

Definition validateEnum (value param : string) : option value_error :=
  if existsb (fun allowed => String.eqb (TrimSpace allowed) value) (Split param ",") then None else Some NotInList.

Definition validateRequired (value : string) : option value_error :=
  if String.eqb (TrimSpace value) "" then Some RequiredEmpty else None.

Definition validateLength (value param : string) : option value_error :=
  match Split param "-" with
  | [lo; hi] =>
      match ParseInt lo, ParseInt hi with
      | Err _, _ => Some BadLengthMin
      | _, Err _ => Some BadLengthMax
      | Ok minLen, Ok maxLen =>
          let length := Z.of_nat (String.length value) in
          if (length <? minLen)%Z || (maxLen <? length)%Z then Some LengthOutOfRange else None
      end
  | _ => Some BadLengthFormat
  end.

Definition validateEmail (value : string) : option value_error :=
  match emailRegex value with Some _ => None | None => Some InvalidEmail end.

(** [phoneRegex] on the digits and plus signs of the value. *)
Definition phoneRegex (s : string) : bool :=
  let digits := TrimPrefix s "+" in all_bytes is_ascii_digit digits && digits_of_length 7 15 digits.
Definition validatePhone (value : string) : option value_error :=
  if phoneRegex (filter_bytes phone_byte value) then None else Some InvalidPhone.

(** [urlRegex]; the optional end of the host is part of the class before it. *)
Definition urlRegex (value : string) : bool :=
  match strip_prefix "http" value with
  | None => false
  | Some r =>
      match strip_prefix "://" (TrimPrefix r "s") with
      | None => false
      | Some r =>
          let '(host, path) := span_bytes domain_byte r in
          negb (String.eqb host "")
          && (String.eqb path "" || HasPrefix path "/" && negb (has_byte LF path))
      end
  end.
Definition validateURL (value : string) : option value_error := if urlRegex value then None else Some InvalidURL.

Definition iso_dateRegex (value : string) : bool :=
  match span_digits value with
  | (year, String m1 r1) =>
      match span_digits r1 with
      | (month, String m2 r2) =>
          let '(day, r3) := span_digits r2 in
          Ascii.eqb m1 "-" && Ascii.eqb m2 "-" && String.eqb r3 "" && digits_of_length 4 4 year && digits_of_length 2 2 month
          && digits_of_length 2 2 day
      | _ => false
      end
  | _ => false
  end.
Definition validateDate (value : string) : option value_error :=
  if negb (iso_dateRegex value) then Some InvalidDate
  else
    match Split value "-" with
    | year :: month :: day :: _ =>
        let year := Atoi_value year in
        let month := Atoi_value month in
        let day := Atoi_value day in
        if (month <? 1)%Z || (12 <? month)%Z then Some InvalidMonth
        else if (day <? 1)%Z || (31 <? day)%Z then Some InvalidDay
        else if (year <? 1900)%Z || (2100 <? year)%Z then Some InvalidYear
        else None
    | _ => None
    end.

Definition validateValue (v : FieldValidator) (value : string) (rule : FieldValidationRule) : option value_error :=
  let typed (t : ValidationRule) := String.eqb (vr_Type rule) t in
  if typed ValidateRegex then validateRegex v value (vr_Param rule)
  else if typed ValidateRange then validateRange value (vr_Param rule)
  else if typed ValidateEnum then validateEnum value (vr_Param rule)
  else if typed ValidateRequired then validateRequired value
  else if typed ValidateLength then validateLength value (vr_Param rule)
  else if typed ValidateEmail then validateEmail value
  else if typed ValidatePhone then validatePhone value
  else if typed ValidateURL then validateURL value
  else if typed ValidateDate then validateDate value
  else Some (UnknownRule (vr_Type rule)).

(** A message: the row from 1, the field, and the error or the text configured for it. *)
Record row_error := MkRowError { re_row : nat; re_field : string; re_what : value_error + string }.

Definition rule_errors (v : FieldValidator) (rowIdx : nat) (fieldName value : string) (rules : list FieldValidationRule) : list row_error :=
  omap (fun rule =>
    (fun err => MkRowError (S rowIdx) fieldName (if String.eqb (vr_ErrMsg rule) "" then inl err else inr (vr_ErrMsg rule)))
    <$> validateValue v value rule) rules.

Definition row_errors (v : FieldValidator) (fields : list Field) (cols : gmap nat (list FieldValidationRule))
    (rowIdx : nat) (row : list string) : list row_error :=
  concat (map (fun '(colIdx, rules) =>
    match row !! colIdx with
    | None => []
    | Some value => rule_errors v rowIdx (from_option f_Name "" (fields !! colIdx)) value rules
    end) (range_entries cols)).

Definition validator_Process (v : FieldValidator) (data : Rows) (schema : Schema) : result (list row_error) Rows :=
  if (size (fieldsToValidate v) =? 0)%nat then Ok data
  else
    let cols := field_indices (fieldsToValidate v) (s_Fields schema) in
    if (size cols =? 0)%nat then Ok data
    else
      let errors := imap (fun i row => row_errors v (s_Fields schema) cols i row) data in
      if String.eqb (errorStrategy v) StrategyFail then
        match concat errors with
        | [] => Ok data
        | e :: es => Err (if stopOnFirstError v then [e] else e :: es)
        end
      else if String.eqb (errorStrategy v) StrategyFilter
      then Ok (omap (fun '(es, row) => match es with [] => Some row | _ => None end) (zip errors data))
      else Ok data.

(** ** Configuration *)

Set Warnings "-register-all".
(** A YAML value; [YOther] is a number, a null and the like, as [%v] prints it. *)
Inductive yaml := YStr (s : string) | YBool (b : bool) | YList (l : list yaml) | YMap (m : list (string * yaml)) | YOther (text : string).
Definition Params := list (string * yaml).

Definition param (params : Params) (key : string) : option yaml :=
  snd <$> List.find (fun kv => String.eqb (fst kv) key) params.
Definition as_string (y : option yaml) : option string := match y with Some (YStr s) => Some s | _ => None end.
Definition as_bool (y : option yaml) : option bool := match y with Some (YBool b) => Some b | _ => None end.
Definition as_map (y : option yaml) : option Params := match y with Some (YMap m) => Some m | _ => None end.

(** The entries of a map of fields, each read by [read]; the first error ends the loop. *)
Fixpoint read_fields {A} (read : string -> yaml -> result config_error A) (entries : Params) (m : gmap string A)
    : result config_error (gmap string A) :=
  match entries with
  | [] => Ok m
  | (fieldName, y) :: entries =>
      match read fieldName y with
      | Ok a => read_fields read entries (<[fieldName := a]> m)
      | Err e => Err e
      end
  end.

(** [fmt.Sprintf("%v", y)] as far as it can be the name of a rule: a list or a map prints in brackets. *)
Definition plain_text (y : yaml) : string :=
  match y with YStr s | YOther s => s | YBool true => "true" | YBool false => "false" | YList _ | YMap _ => "[" end.
Definition named {A} (names : list (string * A)) (text : string) : option A :=
  snd <$> List.find (fun nv => String.eqb (fst nv) text) names.

Definition mask_names : list (string * MaskPattern) :=
  [("partial", MaskPartial); ("middle", MaskMiddle); ("stars", MaskStars); ("first2_last2", MaskFirst2Last2)].
Definition NewFieldMaskerFromConfig (params : Params) : result config_error FieldMasker :=
  match as_map (param params "fields") with
  | None => Err (MissingParam "fields")
  | Some fields =>
      NewFieldMasker <$> read_fields (fun fieldName y =>
        match named mask_names (plain_text y) with Some p => Ok p | None => Err (InvalidPattern fieldName) end) fields ∅
  end.

Definition normalize_names : list (string * NormalizeRule) :=
  [("phone", NormalizePhone); ("email", NormalizeEmail); ("whitespace", NormalizeWhitespace); ("uppercase", NormalizeUpperCase);
   ("lowercase", NormalizeLowerCase); ("date", NormalizeDate)].
Definition NewFieldNormalizerFromConfig (params : Params) : result config_error FieldNormalizer :=
  match as_map (param params "fields") with
  | None => Err (MissingParam "fields")
  | Some fields =>
      NewFieldNormalizer <$> read_fields (fun fieldName y =>
        match named normalize_names (plain_text y) with Some r => Ok r | None => Err (InvalidPattern fieldName) end) fields ∅
  end.

Definition validRules : list ValidationRule :=
  [ValidateRegex; ValidateRange; ValidateEnum; ValidateRequired; ValidateLength; ValidateEmail; ValidatePhone; ValidateURL; ValidateDate].
Definition parseValidationRule (ruleStr : string) : option FieldValidationRule :=
  let '(ruleType, ruleParam) := default (ruleStr, "") (cut_at ":" ruleStr) in
  if existsb (String.eqb ruleType) validRules then Some (MkFieldValidationRule ruleType ruleParam "") else None.
Definition parseValidationRuleFromMap (m : Params) : option FieldValidationRule :=
  typeStr ← as_string (param m "type");
  rule ← parseValidationRule typeStr;
  Some (match as_string (param m "error") with
        | Some errMsg => MkFieldValidationRule (vr_Type rule) (vr_Param rule) errMsg
        | None => rule
        end).
Definition field_rules (ruleConfig : yaml) : option (list FieldValidationRule) :=
  match ruleConfig with
  | YStr rc => (fun r => [r]) <$> parseValidationRule rc
  | YList rc => mapM (fun r => ruleStr ← as_string (Some r); parseValidationRule ruleStr) rc
  | YMap rc => (fun r => [r]) <$> parseValidationRuleFromMap rc
  | _ => None
  end.

Definition NewFieldValidatorFromConfig (params : Params) : result config_error FieldValidator :=
  match as_map (param params "rules") with
  | None => Err (MissingParam "rules")
  | Some rules =>
      let stop := default false (as_bool (param params "stop_on_first_error")) in
      fields ← read_fields (fun fieldName y =>
        match field_rules y with Some rs => Ok rs | None => Err (BadRule fieldName) end) rules ∅;
      v ← NewFieldValidator fields stop;
      match as_string (param params "on_error") with
      | None => Ok v
      | Some s =>
          if existsb (String.eqb s) [StrategyFail; StrategyFilter; StrategyWarn]
          then Ok (MkFieldValidator (fieldsToValidate v) (stopOnFirstError v) s (customRegexes v))
          else Err (BadOnError s)
      end
  end.

(** ** processor.go, chain.go *)

Record Processor := MkProcessor { proc_Name : string; proc_Process : Rows -> Schema -> result (list row_error) Rows }.

Record ChainError := MkChainError { ce_index : nat; ce_name : string; ce_errors : list row_error }.
Fixpoint run_chain (i : nat) (procs : list Processor) (data : Rows) (schema : Schema) : result ChainError Rows :=
  match procs with
  | [] => Ok data
  | proc :: procs =>
      match proc_Process proc data schema with
      | Ok data => run_chain (S i) procs data schema
      | Err es => Err (MkChainError i (proc_Name proc) es)
      end
  end.
Definition Chain := list Processor.
Definition chain_Process (c : Chain) : Rows -> Schema -> result ChainError Rows := run_chain 0 c.
Definition chain_Add (c : Chain) (p : Processor) : Chain := c ++ [p].
Definition IsEmpty (c : Chain) : bool := (length c =? 0)%nat.

(** ** factory.go *)

  Context `{GC : GoCase}.

Definition masker_processor (m : FieldMasker) : Processor :=
  MkProcessor "field_masker" (fun data schema => Ok (masker_Process m data schema)).
Definition normalizer_processor (n : FieldNormalizer) : Processor :=
  MkProcessor "field_normalizer" (fun data schema => Ok (normalizer_Process n data schema)).
Definition validator_processor (v : FieldValidator) : Processor := MkProcessor "field_validator" (validator_Process v).

Record Config := MkConfig { c_Type : string; c_Params : Params }.
Definition CreatorFunc := Params -> result config_error Processor.
Record Factory := MkFactory { creators : gmap string CreatorFunc }.
Definition Register (type : string) (creator : CreatorFunc) (f : Factory) : Factory :=
  MkFactory (<[type := creator]> (creators f)).
Definition NewFactory : Factory :=
  Register "field_validator" (fun params => validator_processor <$> NewFieldValidatorFromConfig params)
    (Register "field_normalizer" (fun params => normalizer_processor <$> NewFieldNormalizerFromConfig params)
      (Register "field_masker" (fun params => masker_processor <$> NewFieldMaskerFromConfig params) (MkFactory ∅))).
Definition Create (f : Factory) (config : Config) : result config_error Processor :=
  match creators f !! c_Type config with
  | None => Err (UnknownProcessor (c_Type config))
  | Some creator => match creator (c_Params config) with Ok p => Ok p | Err e => Err (CreateFailed (c_Type config) e) end
  end.
Fixpoint create_from (f : Factory) (i : nat) (configs : list Config) (chain : Chain) : result config_error Chain :=
  match configs with
  | [] => Ok chain
  | config :: configs =>
      match Create f config with
      | Ok p => create_from f (S i) configs (chain_Add chain p)
      | Err e => Err (ChainFailed i e)
      end
  end.
Definition CreateChain (f : Factory) (configs : list Config) : result config_error Chain := create_from f 0 configs [].
Definition CreateChainFromConfigs : list Config -> result config_error Chain := CreateChain NewFactory.
End Validator.

(** ** Lemmas *)

Lemma omap_nil_Forall {A B} (f : A -> option B) (l : list A) : omap f l = [] <-> Forall (fun x => f x = None) l.
Proof.
  induction l as [|x l IH]; simpl; [done|]. rewrite Forall_cons, <- IH. destruct (f x); naive_solver.
Qed.

Lemma concat_nil_iff {A} (ls : list (list A)) : concat ls = [] <-> Forall (fun l => l = []) ls.
Proof. induction ls as [|l ls IH]; simpl; [done|]. rewrite Forall_cons, <- IH. destruct l; naive_solver. Qed.

Lemma elem_of_concat {A} (x : A) (ls : list (list A)) : x ∈ concat ls <-> exists l, x ∈ l /\ l ∈ ls.
Proof. rewrite list_elem_of_In, in_concat. setoid_rewrite list_elem_of_In. naive_solver. Qed.

(** The rows whose list of errors is empty. *)
Lemma error_free_rows {E R} (F : nat -> R -> list E) (ok : R -> bool) (data : list R) :
  (forall i row, F i row = [] <-> ok row = true) ->
  omap (fun '(es, row) => match es with [] => Some row | _ => None end) (zip (imap F data) data) = List.filter ok data.
Proof.
  revert F; induction data as [|row data IH]; intros F HF; [done|]. rewrite imap_cons. cbn [zip zip_with omap list_omap List.filter].
  pose proof (HF 0 row) as H0. rewrite (IH (F ∘ S)) by (intros i r; apply HF).
  destruct (F 0 row), (ok row); naive_solver.
Qed.

Lemma error_free {E R} (F : nat -> R -> list E) (ok : R -> bool) (data : list R) :
  (forall i row, F i row = [] <-> ok row = true) -> concat (imap F data) = [] <-> forallb ok data = true.
Proof.
  revert F; induction data as [|row data IH]; intros F HF; [done|]. rewrite imap_cons. cbn [concat forallb].
  pose proof (HF 0 row) as H0. specialize (IH (F ∘ S) (fun i r => HF (S i) r)). rewrite andb_true_iff, <- IH, <- H0.
  destruct (F 0 row); naive_solver.
Qed.

Section ValidatorLemmas.
  Context `{V : GoValues} `{RL : GoRangeLaws}.

(** A row is valid when every cell of a configured column satisfies the rules of the column. *)
Definition cell_valid (v : FieldValidator) (cell : Field * string) : bool :=
  match fieldsToValidate v !! f_Name cell.1 with
  | Some rules => forallb (fun rule => match validateValue v cell.2 rule with None => true | Some _ => false end) rules
  | None => true
  end.
Definition row_valid (v : FieldValidator) (schema : Schema) (row : list string) : bool :=
  forallb (cell_valid v) (zip (s_Fields schema) row).

Lemma rule_errors_nil (v : FieldValidator) (i : nat) (name value : string) (rules : list FieldValidationRule) :
  rule_errors v i name value rules = [] <->
  forallb (fun rule => match validateValue v value rule with None => true | Some _ => false end) rules = true.
Proof.
  unfold rule_errors. rewrite omap_nil_Forall, forallb_forall, Forall_forall. setoid_rewrite list_elem_of_In.
  apply forall_proper. intros rule. destruct (validateValue v value rule); naive_solver.
Qed.

Lemma row_errors_nil (v : FieldValidator) (schema : Schema) (i : nat) (row : list string) :
  row_errors v (s_Fields schema) (field_indices (fieldsToValidate v) (s_Fields schema)) i row = [] <-> row_valid v schema row = true.
Proof.
  unfold row_errors, row_valid. rewrite concat_nil_iff, Forall_fmap, range_permutation.
  rewrite Forall_forall, forallb_forall. setoid_rewrite <- list_elem_of_In. split.
  - intros H [f value] Hin. apply list_elem_of_lookup in Hin as [k Hk].
    apply lookup_zip_with_Some in Hk as (f' & value' & [= <- <-] & Hf & Hv). unfold cell_valid. cbn [fst snd].
    destruct (fieldsToValidate v !! f_Name f) as [rules|] eqn:E; [|done].
    specialize (H (k, rules)). cbn in H. rewrite elem_of_map_to_list, field_indices_lookup, Hf, Hv in H. cbn in H.
    by apply (rule_errors_nil v i (f_Name f)), H.
  - intros H [k rules] Hk. cbn. destruct (row !! k) as [value|] eqn:Hv; [|done].
    apply elem_of_map_to_list in Hk. rewrite field_indices_lookup in Hk. destruct (s_Fields schema !! k) as [f|] eqn:Hf; [|done].
    cbn in Hk. apply rule_errors_nil. specialize (H (f, value)). unfold cell_valid in H. cbn [fst snd] in H. rewrite Hk in H. apply H.
    apply list_elem_of_lookup. exists k. apply lookup_zip_with_Some. eauto 6.
Qed.

Lemma no_columns_valid (v : FieldValidator) (schema : Schema) (row : list string) :
  (size (fieldsToValidate v) =? 0)%nat || (size (field_indices (fieldsToValidate v) (s_Fields schema)) =? 0)%nat = true ->
  row_valid v schema row = true.
Proof.
  intros Hz. apply (row_errors_nil v schema 0). assert (field_indices (fieldsToValidate v) (s_Fields schema) = ∅) as ->.
  { apply orb_true_iff in Hz as [Hz|Hz]; apply Nat.eqb_eq, map_size_empty_iff in Hz; [|done].
    apply map_eq. intros k. rewrite field_indices_lookup, Hz, lookup_empty. by destruct (s_Fields schema !! k). }
  unfold row_errors. rewrite concat_nil_iff, Forall_fmap, range_permutation. by rewrite map_to_list_empty.
Qed.

(** Every reported error is of a cell and a rule of its column. *)
Lemma reported_cells (v : FieldValidator) (schema : Schema) (data : Rows) (e : row_error) :
  e ∈ concat (imap (fun i row => row_errors v (s_Fields schema) (field_indices (fieldsToValidate v) (s_Fields schema)) i row) data) ->
  exists i row k f cell rules rule, re_row e = S i /\ data !! i = Some row /\ s_Fields schema !! k = Some f /\ re_field e = f_Name f
    /\ row !! k = Some cell /\ fieldsToValidate v !! f_Name f = Some rules /\ rule ∈ rules /\ validateValue v cell rule <> None.
Proof.
  rewrite elem_of_concat. intros (es & He & Hes). apply list_elem_of_lookup in Hes as [i Hi].
  apply list_lookup_imap_Some in Hi as (row & Hr & ->). unfold row_errors in He. apply elem_of_concat in He as (l & He & Hl).
  apply list_elem_of_fmap in Hl as ([k rules] & -> & Hk). rewrite range_permutation, elem_of_map_to_list, field_indices_lookup in Hk.
  destruct (s_Fields schema !! k) as [f|] eqn:Hf; [|done]. cbn in Hk, He. destruct (row !! k) as [cell|] eqn:Hc; [|by apply not_elem_of_nil in He].
  unfold rule_errors in He. apply list_elem_of_omap in He as (rule & Hrule & E). destruct (validateValue v cell rule) eqn:Ev; [|done]. injection E as <-.
  exists i, row, k, f, cell, rules, rule. cbn. rewrite Hf. split_and!; congruence || done.
Qed.
End ValidatorLemmas.

(** *** Chains *)

(** [out] has some of the rows of [data], in order, each with as many cells as it had. *)
Definition narrowed (data out : Rows) : Prop :=
  exists kept, kept `sublist_of` data /\ Forall2 (fun row row' => length row = length row') kept out.

Lemma sublist_Forall2 {A B} (P : A -> B -> Prop) (l : list A) (k k' : list B) :
  k' `sublist_of` k -> Forall2 P l k -> exists l', l' `sublist_of` l /\ Forall2 P l' k'.
Proof.
  intros Hs. revert l. induction Hs as [|x k' k Hs IH|x k' k Hs IH]; intros l Hl.
  - apply Forall2_nil_inv_r in Hl as ->. by exists [].
  - apply Forall2_cons_inv_r in Hl as (y & l2 & Hy & Hl & ->). destruct (IH l2 Hl) as (l' & H1 & H2).
    exists (y :: l'). split; [by apply sublist_skip|by constructor].
  - apply Forall2_cons_inv_r in Hl as (y & l2 & Hy & Hl & ->). destruct (IH l2 Hl) as (l' & H1 & H2).
    exists l'. split; [by apply sublist_cons|done].
Qed.

#[export] Instance narrowed_preorder : PreOrder narrowed.
Proof.
  split.
  - intros data. exists data. split; [done|]. by apply Forall_Forall2_diag, Forall_true.
  - intros a b c (k1 & H1 & W1) (k2 & H2 & W2). destruct (sublist_Forall2 _ k1 b k2 H2 W1) as (k & Hk & Wk).
    exists k. split; [by trans k1|]. clear -Wk W2. revert c W2.
    induction Wk as [|x y k k2 E _ IH]; intros c W2; inversion_clear W2; constructor; [congruence|auto].
Qed.

Lemma narrowed_filter (p : list string -> bool) (data : Rows) : narrowed data (List.filter p data).
Proof.
  exists (List.filter p data). split; [|by apply Forall_Forall2_diag, Forall_true].
  induction data as [|row data IH]; simpl; [done|]. destruct (p row); [by apply sublist_skip|by apply sublist_cons].
Qed.

Lemma same_positions {A B} (l : list A) (k : list B) : (forall j, is_Some (l !! j) <-> is_Some (k !! j)) -> length l = length k.
Proof.
  setoid_rewrite lookup_lt_is_Some. intros H. pose proof (H (length l)). pose proof (H (length k)). lia.
Qed.

Lemma change_rows_narrowed `{GoRangeLaws} {P} (change : P -> string -> option string) (cfg : gmap string P) (data : Rows) (schema : Schema) :
  narrowed data (change_rows change cfg data schema).
Proof.
  exists data. split; [done|]. apply Forall2_same_length_lookup. split; [by rewrite change_rows_length|].
  intros i row row' Hr Hr'. destruct (change_rows_lookup change cfg data schema i row Hr) as (r & E & Hj).
  rewrite E in Hr'. injection Hr' as <-. apply same_positions. intros j. rewrite Hj. by rewrite fmap_is_Some.
Qed.

Section ChainLemmas.
  Context `{V : GoValues} `{RE : GoRegexp} `{RL : GoRangeLaws} `{GC : GoCase}.

Lemma validator_Process_spec (v : FieldValidator) (data out : Rows) (schema : Schema) :
  validator_Process v data schema = Ok out ->
  out = (if String.eqb (errorStrategy v) StrategyFilter then List.filter (row_valid v schema) data else data)
  /\ (errorStrategy v = StrategyFail \/ errorStrategy v = StrategyFilter -> forallb (row_valid v schema) out = true).
Proof.
  pose proof (fun i row => row_errors_nil v schema i row) as Hn. unfold validator_Process.
  destruct (size (fieldsToValidate v) =? 0)%nat eqn:E1; [|destruct (size (field_indices _ _) =? 0)%nat eqn:E2].
  1,2: intros [= <-]; assert (forall row, row_valid v schema row = true) as Hv by
      (intros row; apply no_columns_valid; rewrite ?E1, ?E2; apply orb_true_r || done);
    split; [|intros _; by apply forallb_forall].
  1,2: destruct (String.eqb _ _); [|done]; symmetry; induction data as [|r data IH]; simpl; [done|]; by rewrite Hv, IH.
  destruct (String.eqb_spec (errorStrategy v) StrategyFail) as [->|Hf]; [|destruct (String.eqb_spec (errorStrategy v) StrategyFilter) as [Ef|Hf2]].
  - destruct (concat _) eqn:E; [|done]. intros [= <-]. split; [done|]. intros _.
    eapply error_free; [|exact E]. intros i row. apply Hn.
  - intros [= <-]. rewrite (error_free_rows _ (row_valid v schema)) by apply Hn. split; [done|]. intros _.
    apply forallb_forall. intros row Hr. by apply filter_In in Hr as [_ Hr].
  - intros [= <-]. split; [done|]. by intros [?|?].
Qed.

(** A processor that only drops rows and changes cells. *)
Definition tame (p : Processor) : Prop :=
  forall data schema out, proc_Process p data schema = Ok out -> narrowed data out.

Lemma Create_tame (config : Config) (p : Processor) : Create NewFactory config = Ok p -> tame p.
Proof.
  unfold Create, NewFactory, Register. cbn [creators]. intros H data schema out Hp.
  destruct (_ !! c_Type config) as [creator|] eqn:E; [|done]. destruct (creator (c_Params config)) as [p'|] eqn:Ec; [|done].
  injection H as ->. repeat (apply lookup_insert_Some in E as [[_ <-]|[_ E]]); [| | |done].
  - destruct (NewFieldValidatorFromConfig _) as [v|]; [|done]. injection Ec as <-.
    apply validator_Process_spec in Hp as [-> _]. destruct (String.eqb _ _); [apply narrowed_filter|done].
  - destruct (NewFieldNormalizerFromConfig _) as [n|]; [|done]. injection Ec as <-. injection Hp as <-. apply change_rows_narrowed.
  - destruct (NewFieldMaskerFromConfig _) as [m|]; [|done]. injection Ec as <-. injection Hp as <-. apply change_rows_narrowed.
Qed.

Lemma Create_validator (params : Params) :
  Create NewFactory (MkConfig "field_validator" params) =
  match NewFieldValidatorFromConfig params with
  | Ok v => Ok (validator_processor v)
  | Err e => Err (CreateFailed "field_validator" e)
  end.
Proof.
  assert (creators NewFactory !! "field_validator" = Some (fun params => validator_processor <$> NewFieldValidatorFromConfig params)) as E
    by apply lookup_insert_eq.
  unfold Create. cbn [c_Type c_Params]. rewrite E. by destruct (NewFieldValidatorFromConfig params).
Qed.

Lemma create_from_app (f : Factory) (i : nat) (configs : list Config) (chain c : Chain) :
  create_from f i configs chain = Ok c ->
  exists procs, c = chain ++ procs /\ Forall2 (fun config p => Create f config = Ok p) configs procs.
Proof.
  revert i chain; induction configs as [|config configs IH]; intros i chain; cbn [create_from].
  - intros [= <-]. exists []. split; [by rewrite app_nil_r|constructor].
  - destruct (Create f config) as [p|] eqn:E; [|done]. intros (procs & -> & Hp)%IH. exists (p :: procs).
    split; [by unfold chain_Add; rewrite <- app_assoc|by constructor].
Qed.

Lemma run_chain_app (i : nat) (c1 c2 : Chain) (data : Rows) (schema : Schema) :
  run_chain i (c1 ++ c2) data schema =
  match run_chain i c1 data schema with Ok data' => run_chain (i + length c1) c2 data' schema | Err e => Err e end.
Proof.
  revert i data; induction c1 as [|p c1 IH]; intros i data; simpl; [by rewrite Nat.add_0_r|].
  destruct (proc_Process p data schema); [|done]. rewrite IH. by rewrite Nat.add_succ_r.
Qed.

Lemma run_chain_narrowed (i : nat) (c : Chain) (data out : Rows) (schema : Schema) :
  Forall tame c -> run_chain i c data schema = Ok out -> narrowed data out.
Proof.
  intros Hc. revert i data; induction Hc as [|p c Hp _ IH]; intros i data; simpl; [by intros [= <-]|].
  destruct (proc_Process p data schema) as [d|] eqn:E; [|done]. intros H. trans d; [by apply (Hp data schema)|by apply (IH (S i))].
Qed.
End ChainLemmas.

(** *** Dates and phones *)

Lemma span_digits_mark (w : string) (c : ascii) (r : string) :
  all_bytes is_ascii_digit w = true -> is_ascii_digit c = false -> span_digits (w +:+ String c r) = (w, String c r).
Proof. intros Hw Hc. by apply span_bytes_app. Qed.

Lemma span_digits_all (w : string) : all_bytes is_ascii_digit w = true -> span_digits w = (w, "").
Proof. intros Hw. rewrite <- (str_app_nil_r w) at 1. by apply span_bytes_app. Qed.

Lemma span_bytes_class (P : ascii -> bool) (s : string) : all_bytes P (span_bytes P s).1 = true.
Proof.
  induction s as [|c s IH]; simpl; [done|]. destruct (P c) eqn:E; [|done]. destruct (span_bytes P s). simpl. by rewrite E.
Qed.

Lemma iso_of_digits (y m d : string) :
  all_bytes is_ascii_digit y = true -> all_bytes is_ascii_digit m = true -> all_bytes is_ascii_digit d = true ->
  iso_dateRegex (y +:+ "-" +:+ m +:+ "-" +:+ d) = digits_of_length 4 4 y && digits_of_length 2 2 m && digits_of_length 2 2 d.
Proof.
  intros Hy Hm Hd. unfold iso_dateRegex. cbn [String.append]. rewrite span_digits_mark, span_digits_mark by done.
  rewrite span_digits_all by done. done.
Qed.

Lemma dateRegex_digits (value day month year : string) :
  dateRegex value = Some (day, month, year) ->
  Forall (fun w => all_bytes is_ascii_digit w = true) [day; month; year]
  /\ digits_of_length 1 2 day = true /\ digits_of_length 1 2 month = true /\ digits_of_length 2 4 year = true.
Proof.
  unfold dateRegex. pose proof (span_bytes_class is_ascii_digit) as Hs. fold span_digits in Hs.
  pose proof (Hs value) as H1. destruct (span_digits value) as [d [|m1 r1]]; [done|].
  pose proof (Hs r1) as H2. destruct (span_digits r1) as [m [|m2 r2]]; [done|].
  pose proof (Hs r2) as H3. destruct (span_digits r2) as [y r3]. cbn [fst] in *.
  destruct (_ && _) eqn:E; [|done]. intros [= -> -> ->]. go_bool. by repeat constructor.
Qed.

Lemma pad_day_digits (w : string) :
  all_bytes is_ascii_digit w = true -> digits_of_length 1 2 w = true ->
  all_bytes is_ascii_digit (pad_day w) = true /\ digits_of_length 2 2 (pad_day w) = true /\ Atoi_value (pad_day w) = Atoi_value w.
Proof.
  unfold pad_day, digits_of_length. intros Hw Hl. destruct w as [|c [|d [|e w]]]; [done| |done|]; [|cbn in Hl; by go_bool].
  cbn [String.length Nat.eqb String.append]. cbn [all_bytes] in Hw. rewrite andb_true_r in Hw.
  split; [cbn [all_bytes]; by rewrite Hw|]. split; [done|].
  by destruct c as [[] [] [] [] [] [] [] []]; try discriminate Hw.
Qed.

Lemma filter_bytes_class (P : ascii -> bool) (s : string) : all_bytes P (filter_bytes P s) = true.
Proof. induction s as [|c s IH]; simpl; [done|]. destruct (P c) eqn:E; simpl; [by rewrite E|done]. Qed.

Lemma filter_bytes_id (P : ascii -> bool) (s : string) : all_bytes P s = true -> filter_bytes P s = s.
Proof. induction s as [|c s IH]; simpl; [done|]. intros H. go_bool. by rewrite H, IH. Qed.

Lemma TrimPrefix_bytes (P : ascii -> bool) (s : string) (c : ascii) :
  all_bytes P s = true -> all_bytes P (TrimPrefix s (String c "")) = true.
Proof. destruct s as [|d s]; [done|]. unfold TrimPrefix. intros H. case_match; [|done]. simpl in *. by go_bool. Qed.

Lemma plus_free_digits (s : string) : all_bytes phone_byte s = true -> has_byte "+" s = false -> all_bytes is_ascii_digit s = true.
Proof.
  induction s as [|c s IH]; simpl; [done|]. intros H1 H2. apply andb_true_iff in H1 as [Hc H1]. apply orb_false_iff in H2 as [Hp H2].
  rewrite IH by done. unfold phone_byte in Hc. rewrite Hp, orb_false_r in Hc. by rewrite Hc.
Qed.

(** The year of a date in four digits. *)
Definition full_year (year : string) : string := if (String.length year =? 2)%nat then "20" +:+ year else year.

Lemma full_year_digits (y : string) :
  all_bytes is_ascii_digit y = true -> digits_of_length 2 4 y = true ->
  all_bytes is_ascii_digit (full_year y) = true
  /\ digits_of_length 4 4 (full_year y) = negb (String.length y =? 3)%nat.
Proof.
  unfold full_year, digits_of_length. intros Hy Hl. destruct y as [|a [|b [|c [|d [|e y]]]]]; try done; cbn in Hl; by go_bool.
Qed.

(** *** What the rules ask of a value *)

Section Rules.
  Context `{V : GoValues}.

(** A letter, a digit or one of some other bytes. *)
Definition in_class (others : string) (c : ascii) : bool := is_ascii_letter c || is_ascii_digit c || has_byte c others.

Definition regex_met (v : FieldValidator) (pattern value : string) : Prop :=
  exists re : string -> bool, customRegexes v !! pattern = Some re /\ re value = true.
(** The parts of [min-max]. *)
Definition ends_of (param lo hi : string) : Prop := param = lo +:+ "-" +:+ hi /\ has_byte "-" lo = false /\ has_byte "-" hi = false.
Definition range_met (param value : string) : Prop :=
  exists lo hi a b x, ends_of param lo hi /\ ParseFloat lo = Some a /\ ParseFloat hi = Some b /\ ParseFloat value = Some x
    /\ float_lt x a = false /\ float_lt b x = false.
Definition enum_met (param value : string) : Prop := exists allowed, allowed ∈ Split param "," /\ TrimSpace allowed = value.
Definition length_met (param value : string) : Prop :=
  exists lo hi m n, ends_of param lo hi /\ ParseInt lo = Ok m /\ ParseInt hi = Ok n /\ (m <= Z.of_nat (String.length value) <= n)%Z.
Definition email_met (value : string) : Prop :=
  exists l h t, value = l +:+ "@" +:+ h +:+ "." +:+ t /\ l <> "" /\ h <> "" /\ 2 <= String.length t
    /\ all_bytes (in_class "._%+-") l = true /\ all_bytes (in_class ".-") h = true /\ all_bytes is_ascii_letter t = true.
Definition phone_met (value : string) : Prop :=
  exists sign digits, filter_bytes (fun c => is_ascii_digit c || Ascii.eqb c "+") value = sign +:+ digits /\ (sign = "" \/ sign = "+")
    /\ all_bytes is_ascii_digit digits = true /\ 7 <= String.length digits <= 15.
Definition url_met (value : string) : Prop :=
  exists s host path, value = "http" +:+ s +:+ "://" +:+ host +:+ path /\ (s = "" \/ s = "s") /\ host <> ""
    /\ all_bytes (in_class ".-") host = true /\ (path = "" \/ exists r, path = "/" +:+ r /\ has_byte LF r = false).
Definition date_met (value : string) : Prop :=
  exists y m d, value = y +:+ "-" +:+ m +:+ "-" +:+ d /\ Forall (fun w => all_bytes is_ascii_digit w = true) [y; m; d]
    /\ String.length y = 4 /\ String.length m = 2 /\ String.length d = 2
    /\ (1900 <= Atoi_value y <= 2100)%Z /\ (1 <= Atoi_value m <= 12)%Z /\ (1 <= Atoi_value d <= 31)%Z.

(** A rule of another type is met by no value. *)
Definition rule_met (v : FieldValidator) (rule : FieldValidationRule) (value : string) : Prop :=
  (vr_Type rule = "regex" /\ regex_met v (vr_Param rule) value) \/ (vr_Type rule = "range" /\ range_met (vr_Param rule) value)
  \/ (vr_Type rule = "enum" /\ enum_met (vr_Param rule) value) \/ (vr_Type rule = "required" /\ TrimSpace value <> "")
  \/ (vr_Type rule = "length" /\ length_met (vr_Param rule) value) \/ (vr_Type rule = "email" /\ email_met value)
  \/ (vr_Type rule = "phone" /\ phone_met value) \/ (vr_Type rule = "url" /\ url_met value) \/ (vr_Type rule = "date" /\ date_met value).

Lemma validateRegex_met (v : FieldValidator) (value pattern : string) : validateRegex v value pattern = None <-> regex_met v pattern value.
Proof. unfold validateRegex, regex_met. destruct (customRegexes v !! pattern) as [re|]; [destruct (re value) eqn:E|]; naive_solver congruence. Qed.

Lemma validateRange_met (value param : string) : validateRange value param = None <-> range_met param value.
Proof.
  unfold validateRange, range_met, ends_of. setoid_rewrite <- (Split_two "-" param). destruct (Split param "-") as [|lo [|hi [|]]]; [naive_solver|naive_solver| |naive_solver].
  destruct (ParseFloat lo) as [a|] eqn:Ea; [|naive_solver congruence]. destruct (ParseFloat hi) as [b|] eqn:Eb; [|naive_solver congruence].
  destruct (ParseFloat value) as [x|] eqn:Ex; [|naive_solver congruence].
  destruct (float_lt x a) eqn:E1, (float_lt b x) eqn:E2; cbn [orb]; split; try done; try (intros _; by exists lo, hi, a, b, x); naive_solver congruence.
Qed.

Lemma validateLength_met (value param : string) : validateLength value param = None <-> length_met param value.
Proof.
  unfold validateLength, length_met, ends_of. setoid_rewrite <- (Split_two "-" param). destruct (Split param "-") as [|lo [|hi [|]]]; [naive_solver|naive_solver| |naive_solver].
  destruct (ParseInt lo) as [m|] eqn:Em; [|naive_solver congruence]. destruct (ParseInt hi) as [n|] eqn:En; [|naive_solver congruence].
  destruct (Z.ltb_spec (Z.of_nat (String.length value)) m), (Z.ltb_spec n (Z.of_nat (String.length value))); cbn [orb]; split; try done;
    try (intros _; by exists lo, hi, m, n); intros (? & ? & m' & n' & [= <- <-] & E1 & E2 & ?); rewrite Em in E1; rewrite En in E2; injection E1 as <-; injection E2 as <-; lia.
Qed.

Lemma validateEnum_met (value param : string) : validateEnum value param = None <-> enum_met param value.
Proof.
  unfold validateEnum, enum_met. destruct (existsb _ _) eqn:E.
  - split; [|done]. intros _. apply existsb_exists in E as (x & Hx & He%String.eqb_eq). exists x. by rewrite list_elem_of_In.
  - split; [done|]. intros (x & Hx%list_elem_of_In & He). apply not_true_iff_false in E. destruct E. apply existsb_exists. exists x. by rewrite String.eqb_eq.
Qed.

Lemma all_bytes_ext (P Q : ascii -> bool) (w : string) : (forall c, P c = Q c) -> all_bytes P w = all_bytes Q w.
Proof. intros H. induction w as [|c w IH]; [done|]. cbn. by rewrite H, IH. Qed.
Lemma str_rev_facts (P : ascii -> bool) (w : string) : all_bytes P (str_rev w) = all_bytes P w /\ String.length (str_rev w) = String.length w.
Proof.
  induction w as [|c w [IH1 IH2]]; [done|]. change (String c w) with (chr c +:+ w). rewrite str_rev_app, !all_bytes_app, !str_length_app, IH1, IH2.
  change (str_rev (chr c)) with (chr c). split; [apply andb_comm|cbn; lia].
Qed.
Lemma local_class (w : string) : all_bytes local_byte w = all_bytes (in_class "._%+-") w.
Proof. apply all_bytes_ext. by intros [[] [] [] [] [] [] [] []]. Qed.
Lemma domain_class (w : string) : all_bytes domain_byte w = all_bytes (in_class ".-") w.
Proof. apply all_bytes_ext. by intros [[] [] [] [] [] [] [] []]. Qed.

Lemma email_domain_parts (D : string) : email_domain D = true <->
  exists h t, D = h +:+ "." +:+ t /\ h <> "" /\ 2 <= String.length t /\ all_bytes (in_class ".-") h = true /\ all_bytes is_ascii_letter t = true.
Proof.
  unfold email_domain. rewrite domain_class. pose proof (cut_at_spec "." (str_rev D)) as Hc. split.
  - destruct (cut_at "." (str_rev D)) as [[t h]|]; [|by rewrite andb_false_r]. destruct Hc as [_ Hc]. intros [HD [[Ht Hl]%andb_true_iff Hh]%andb_true_iff]%andb_true_iff.
    exists (str_rev h), (str_rev t). apply (f_equal str_rev) in Hc. rewrite str_rev_involutive, !str_rev_app in Hc. change (str_rev (chr ".")) with "." in Hc.
    rewrite str_app_assoc in Hc. rewrite Hc, !all_bytes_app in HD. apply andb_true_iff in HD as [HD _]. apply Nat.leb_le in Hl. apply negb_true_iff, String.eqb_neq in Hh.
    rewrite (proj1 (str_rev_facts is_ascii_letter t)), (proj2 (str_rev_facts is_ascii_letter t)). split_and!; try done.
    intros E. apply (f_equal str_rev) in E. by rewrite str_rev_involutive in E.
  - intros (h & t & -> & Hh & Hl & Hd & Ht). rewrite !str_rev_app. change (str_rev ".") with ".". rewrite str_app_assoc. change ("." +:+ str_rev h) with (String "." (str_rev h)).
    rewrite cut_at_app by (apply (all_bytes_has_byte is_ascii_letter); [done|by rewrite (proj1 (str_rev_facts _ t))]).
    rewrite !all_bytes_app, Hd, (proj1 (str_rev_facts _ t)), (proj2 (str_rev_facts is_ascii_letter t)), Ht, (proj2 (Nat.leb_le _ _) Hl).
    rewrite (all_bytes_mono is_ascii_letter (in_class ".-") t) by (done || by intros [[] [] [] [] [] [] [] []]). cbn [andb all_bytes].
    apply negb_true_iff, String.eqb_neq. intros E. apply (f_equal str_rev) in E. by rewrite str_rev_involutive in E.
Qed.
Lemma validateEmail_met (value : string) : validateEmail value = None <-> email_met value.
Proof.
  unfold validateEmail, emailRegex, email_met. pose proof (cut_at_spec "@" value) as Hc. split.
  - destruct (cut_at "@" value) as [[l D]|]; [|done]. destruct Hc as [_ ->]. rewrite local_class.
    destruct (all_bytes _ l) eqn:Hl, (String.eqb_spec l ""), (email_domain D) eqn:HD; cbn [andb negb]; try done. intros _.
    apply email_domain_parts in HD as (h & t & -> & ?). exists l, h, t. by destruct_and?.
  - intros (l & h & t & -> & Hl & Hh & Ht & Cl & Ch & Ct). change ("@" +:+ h +:+ "." +:+ t) with (String "@" (h +:+ "." +:+ t)).
    rewrite cut_at_app by (by apply (all_bytes_has_byte (in_class "._%+-"))). rewrite local_class, Cl, (proj2 (String.eqb_neq _ _) Hl).
    assert (email_domain (h +:+ "." +:+ t) = true) as -> by (apply email_domain_parts; by exists h, t). done.
Qed.

Lemma validatePhone_met (value : string) : validatePhone value = None <-> phone_met value.
Proof.
  unfold validatePhone, phone_met, phoneRegex, digits_of_length. change phone_byte with (fun c => is_ascii_digit c || Ascii.eqb c "+").
  set (s := filter_bytes _ value). split.
  - destruct (_ && _) eqn:E; [|done]. intros _. apply andb_true_iff in E as [Hd [H7 H15]%andb_true_iff]. apply Nat.leb_le in H7, H15.
    unfold TrimPrefix in *. destruct (HasPrefix s "+") eqn:Ep; [apply HasPrefix_inv in Ep as [r E]; rewrite E in *; exists "+", r|exists "", s]; by auto.
  - intros (sign & digits & -> & Hs & Hd & H7 & H15). assert (TrimPrefix (sign +:+ digits) "+" = digits) as ->.
    { destruct Hs as [->| ->]; [|unfold TrimPrefix; by rewrite (HasPrefix_app "+" digits)]. destruct digits as [|c digits]; [done|]. unfold TrimPrefix. cbn in Hd. apply andb_true_iff in Hd as [Hc _].
      by destruct c as [[] [] [] [] [] [] [] []]. }
    by rewrite Hd, (proj2 (Nat.leb_le _ _) H7), (proj2 (Nat.leb_le _ _) H15).
Qed.

Lemma validateURL_met (value : string) : validateURL value = None <-> url_met value.
Proof.
  unfold validateURL, url_met. enough (urlRegex value = true <-> url_met value) as H by (unfold url_met in H; rewrite <- H; by destruct (urlRegex value)).
  unfold urlRegex, url_met. split.
  - destruct (strip_prefix "http" value) as [r|] eqn:E1; [|done]. apply strip_prefix_eq in E1 as ->.
    destruct (strip_prefix "://" (TrimPrefix r "s")) as [r2|] eqn:E2; [|done]. apply strip_prefix_eq in E2.
    destruct (span_bytes domain_byte r2) as [host path] eqn:E3. pose proof (span_bytes_class domain_byte r2) as Hc. rewrite E3 in Hc. apply span_bytes_eq in E3 as ->.
    intros [Hh Hp]%andb_true_iff. apply negb_true_iff, String.eqb_neq in Hh. cbn [fst] in Hc. rewrite domain_class in Hc.
    assert (path = "" \/ exists r, path = "/" +:+ r /\ has_byte LF r = false) as Hpath.
    { apply orb_true_iff in Hp as [->%String.eqb_eq|[[p ->]%HasPrefix_inv Hl%negb_true_iff]%andb_true_iff]; [by left|right]. by exists p. }
    unfold TrimPrefix in E2. destruct (HasPrefix r "s") eqn:Es; [apply HasPrefix_inv in Es as [r' ->]; change (r' = "://" +:+ host +:+ path) in E2; subst; exists "s", host, path; by split_and!; auto|].
    subst. exists "", host, path. by split_and!; auto.
  - intros (s & host & path & -> & Hs & Hh & Hc & Hp). rewrite strip_prefix_app.
    assert (TrimPrefix (s +:+ "://" +:+ host +:+ path) "s" = "://" +:+ host +:+ path) as -> by (by destruct Hs as [->| ->]).
    rewrite strip_prefix_app, span_bytes_app; [|by rewrite domain_class|destruct Hp as [->|(r & -> & _)]; done].
    rewrite (proj2 (String.eqb_neq _ _) Hh). destruct Hp as [->|(r & -> & Hl)]; [done|]. rewrite (HasPrefix_app "/" r). cbn [negb andb]. change (has_byte LF ("/" +:+ r)) with (has_byte LF r). by rewrite Hl, orb_true_r.
Qed.

Lemma iso_dateRegex_parts (value : string) : iso_dateRegex value = true -> exists y m d,
  value = y +:+ "-" +:+ m +:+ "-" +:+ d /\ Forall (fun w => all_bytes is_ascii_digit w = true) [y; m; d]
  /\ String.length y = 4 /\ String.length m = 2 /\ String.length d = 2.
Proof.
  unfold iso_dateRegex. pose proof (span_bytes_class is_ascii_digit) as Hs. fold span_digits in Hs.
  destruct (span_digits value) as [y [|m1 r1]] eqn:E1; [done|]. destruct (span_digits r1) as [m [|m2 r2]] eqn:E2; [done|].
  destruct (span_digits r2) as [d r3] eqn:E3. unfold digits_of_length. intros H. rewrite !andb_true_iff, !Nat.leb_le, !Ascii.eqb_eq, String.eqb_eq in H.
  destruct H as [[[[[-> ->] ->] Hy] Hm] Hd]. pose proof (Hs value) as H1. pose proof (Hs r1) as H2. pose proof (Hs r2) as H3. rewrite E1 in H1. rewrite E2 in H2. rewrite E3 in H3.
  apply span_bytes_eq in E1, E2, E3. exists y, m, d. subst r2 r1. rewrite str_app_nil_r in E1. split_and!; [exact E1|by repeat constructor|lia..].
Qed.
Lemma validateDate_met (value : string) : validateDate value = None <-> date_met value.
Proof.
  unfold validateDate, date_met. assert (Hsplit : forall y m d, Forall (fun w => all_bytes is_ascii_digit w = true) [y; m; d] -> Split (y +:+ "-" +:+ m +:+ "-" +:+ d) "-" = [y; m; d]).
  { intros y m d Hf. apply (Split_Join "-" [y; m; d]); [done|]. eapply Forall_impl; [exact Hf|]. intros w. by apply (all_bytes_has_byte is_ascii_digit). }
  split.
  - destruct (iso_dateRegex value) eqn:E; [|done]. apply iso_dateRegex_parts in E as (y & m & d & -> & Hf & Hl). rewrite Hsplit by done. cbn [negb].
    repeat match goal with |- context [(?a <? ?b)%Z] => destruct (Z.ltb_spec a b) end; cbn [orb]; try done. intros _. exists y, m, d. by destruct_and!.
  - intros (y & m & d & -> & Hf & Ly & Lm & Ld & Hy & Hm & Hd). rewrite Hsplit by done.
    rewrite !Forall_cons in Hf. destruct Hf as (Dy & Dm & Dd & _). rewrite iso_of_digits by done. unfold digits_of_length. rewrite Ly, Lm, Ld. cbn [Nat.leb andb negb].
    by repeat (rewrite (proj2 (Z.ltb_ge _ _)) by lia).
Qed.

(** The switch of [validateValue] is the rule of the type. *)
Lemma validateValue_met (v : FieldValidator) (value : string) (rule : FieldValidationRule) : validateValue v value rule = None <-> rule_met v rule value.
Proof.
  unfold validateValue, rule_met. rewrite <- validateRegex_met, <- validateRange_met, <- validateEnum_met, <- validateLength_met, <- validateEmail_met,
    <- validatePhone_met, <- validateURL_met, <- validateDate_met.
  assert (validateRequired value = None <-> TrimSpace value <> "") as <- by (unfold validateRequired; by destruct (String.eqb_spec (TrimSpace value) "")).
  unfold ValidateRegex, ValidateRange, ValidateEnum, ValidateRequired, ValidateLength, ValidateEmail, ValidatePhone, ValidateURL, ValidateDate.
  repeat match goal with |- context [String.eqb (vr_Type rule) ?t] => destruct (String.eqb_spec (vr_Type rule) t) as [E|?] end;
    (split; [intros H; first [discriminate H|tauto]|]); intros H; destruct_or! H; destruct_and! H; congruence.
Qed.
End Rules.

(** A row satisfies the rules: every cell of a column that has some meets them. *)
Section RowSpec.
  Context `{V : GoValues}.
Definition row_ok (v : FieldValidator) (schema : Schema) (row : list string) : Prop :=
  forall k f cell rules rule, s_Fields schema !! k = Some f -> row !! k = Some cell -> fieldsToValidate v !! f_Name f = Some rules ->
    rule ∈ rules -> rule_met v rule cell.
(** The error is of a cell of the data that does not meet a rule of its column. *)
Definition cell_failure (v : FieldValidator) (schema : Schema) (data : Rows) (e : row_error) : Prop :=
  exists i row k f cell rules rule, re_row e = S i /\ data !! i = Some row /\ s_Fields schema !! k = Some f /\ re_field e = f_Name f
    /\ row !! k = Some cell /\ fieldsToValidate v !! f_Name f = Some rules /\ rule ∈ rules /\ ~ rule_met v rule cell.

Lemma row_valid_ok (v : FieldValidator) (schema : Schema) (row : list string) : row_valid v schema row = true <-> row_ok v schema row.
Proof.
  unfold row_valid, row_ok. rewrite forallb_forall. setoid_rewrite <- list_elem_of_In. unfold cell_valid. split.
  - intros H k f cell rules rule Hf Hc Hr Hin. specialize (H (f, cell)). cbn [fst snd] in H. rewrite Hr, forallb_forall in H.
    apply validateValue_met. specialize (H ltac:(apply list_elem_of_lookup; exists k; apply lookup_zip_with_Some; eauto 6) rule ltac:(by apply list_elem_of_In)).
    by destruct (validateValue v cell rule).
  - intros H [f cell] [k Hk]%list_elem_of_lookup. apply lookup_zip_with_Some in Hk as (f' & cell' & [= <- <-] & Hf & Hc). cbn [fst snd].
    destruct (fieldsToValidate v !! f_Name f) as [rules|] eqn:Er; [|done]. apply forallb_forall. intros rule Hin%list_elem_of_In.
    specialize (H k f cell rules rule Hf Hc Er Hin). apply validateValue_met in H. by rewrite H.
Qed.
#[global] Instance row_ok_dec (v : FieldValidator) (schema : Schema) (row : list string) : Decision (row_ok v schema row).
Proof. destruct (row_valid v schema row) eqn:E; [left; by apply row_valid_ok|right; rewrite <- row_valid_ok; by rewrite E]. Defined.
Lemma row_ok_all (v : FieldValidator) (schema : Schema) (data : Rows) : Forall (row_ok v schema) data <-> forallb (row_valid v schema) data = true.
Proof. rewrite forallb_forall, Forall_forall. setoid_rewrite list_elem_of_In. by setoid_rewrite row_valid_ok. Qed.
Lemma row_ok_filter (v : FieldValidator) (schema : Schema) (data : Rows) : List.filter (row_valid v schema) data = filter (row_ok v schema) data.
Proof.
  induction data as [|row data IH]; [done|]. cbn [List.filter]. rewrite filter_cons, IH. pose proof (row_valid_ok v schema row) as H.
  destruct (row_valid v schema row); case_decide; naive_solver.
Qed.
End RowSpec.

(** ** Theorems *)

Section Theorems.
  Context `{V : GoValues} `{RE : GoRegexp} `{RL : GoRangeLaws}.


(** A configured chain that ends with a validator which does not only warn returns valid rows only; they are some of
    the rows it got, in order, with as many cells, whatever processors come before. *)
Theorem chain_output_valid `{GC : GoCase} (configs : list Config) (params : Params) (chain : Chain) (v : FieldValidator)
    (data out : Rows) (schema : Schema) :
  CreateChainFromConfigs (configs ++ [MkConfig "field_validator" params]) = Ok chain ->
  NewFieldValidatorFromConfig params = Ok v -> errorStrategy v = StrategyFail \/ errorStrategy v = StrategyFilter ->
  chain_Process chain data schema = Ok out ->
  forallb (row_valid v schema) out = true /\ narrowed data out.
Proof.
  intros Hc Hv Hs Hp. apply create_from_app in Hc as (procs & -> & Hf). rewrite app_nil_l in Hp. split.
  - apply Forall2_app_inv_l in Hf as (l & k & _ & Hk & ->). apply Forall2_cons_inv_l in Hk as (p & k' & Hcr & Hk & ->).
    apply Forall2_nil_inv_l in Hk as ->. rewrite Create_validator, Hv in Hcr. injection Hcr as <-. unfold chain_Process in Hp. rewrite run_chain_app in Hp.
    destruct (run_chain 0 l data schema) as [d|]; [|done]. cbn [run_chain validator_processor proc_Process] in Hp.
    destruct (validator_Process v d schema) as [o|] eqn:E; [|done]. injection Hp as ->. by apply validator_Process_spec in E as [_ E]; apply E.
  - eapply run_chain_narrowed; [|exact Hp]. clear -Hf RL. induction Hf as [|c p cs ps Hc _ IH]; constructor; [|done].
    by eapply Create_tame.
Qed.

(** A number that is neither below nor above any other, as NaN is, is in every range. *)
Theorem nan_in_every_range (value lo hi : string) (x a b : float64) :
  ParseFloat value = Some x -> (forall y, float_lt x y = false /\ float_lt y x = false) ->
  has_byte "-" lo = false -> has_byte "-" hi = false -> ParseFloat lo = Some a -> ParseFloat hi = Some b ->
  validateRange value (lo +:+ "-" +:+ hi) = None.
Proof.
  intros Hx Hn Hlo Hhi Ha Hb. unfold validateRange.
  assert (Split (lo +:+ "-" +:+ hi) "-" = [lo; hi]) as -> by (apply (Split_Join "-" [lo; hi]); [done|by repeat constructor]).
  rewrite Ha, Hb, Hx. by rewrite (proj1 (Hn a)), (proj2 (Hn b)).
Qed.

(** A range whose lower end is negative is never read, so no value satisfies it. *)
Theorem negative_range_refuses_all (value lo hi : string) :
  validateRange value ("-" +:+ lo +:+ "-" +:+ hi) = Some BadRangeFormat.
Proof.
  unfold validateRange, Split. cbn [String.append split_from Ascii.eqb]. change (Ascii.eqb "-" "-") with true. cbn iota.
  assert (forall cur, 2 <= length (split_from "-" cur (lo +:+ String "-" hi))) as Hl.
  { induction lo as [|c lo IH]; intros cur; cbn [String.append split_from].
    - change (Ascii.eqb "-" "-") with true. cbn. pose proof (split_from_nonempty "-" "" hi) as Hn. destruct (split_from _ _ _); [done|simpl; lia].
    - destruct (Ascii.eqb c "-"); [simpl; specialize (IH ""); lia|apply IH]. }
  specialize (Hl ""). destruct (split_from _ _ _) as [|a [|b l]]; simpl in Hl; [lia|lia|done].
Qed.
End Theorems.

(** A date the normalizer reads is written in the form the validator reads unless its year has three digits, and is
    accepted when its parts are in range. *)
Theorem normalized_date_accepted (value day month year : string) :
  dateRegex value = Some (day, month, year) ->
  exists d, normalizeDate value = Some d
    /\ (validateDate d = Some InvalidDate <-> String.length year = 3)
    /\ (String.length year <> 3 -> (1 <= Atoi_value month <= 12)%Z -> (1 <= Atoi_value day <= 31)%Z ->
        (1900 <= Atoi_value (full_year year) <= 2100)%Z -> validateDate d = None).
Proof.
  intros H. unfold normalizeDate. rewrite H. eexists. split; [done|]. fold (full_year year).
  apply dateRegex_digits in H as (Hd & Ld & Lm & Ly). apply Forall_cons in Hd as [Dd Hd]. apply Forall_cons in Hd as [Dm Hd].
  rewrite Forall_singleton in Hd. destruct (full_year_digits year Hd Ly) as [Fy Gy].
  destruct (pad_day_digits month Dm Lm) as (Pm & Qm & Em). destruct (pad_day_digits day Dd Ld) as (Pd & Qd & Ed).
  assert (forall w, all_bytes is_ascii_digit w = true -> has_byte "-" w = false) as Hno
    by (intros w; by apply (all_bytes_has_byte is_ascii_digit)).
  assert (Split (full_year year +:+ "-" +:+ pad_day month +:+ "-" +:+ pad_day day) "-" = [full_year year; pad_day month; pad_day day])
    as Hsplit by (apply (Split_Join "-" [full_year year; pad_day month; pad_day day]); [done|repeat constructor; auto]).
  unfold validateDate. rewrite iso_of_digits, Gy, Qm, Qd, Hsplit, Em, Ed by done.
  destruct (Nat.eqb_spec (String.length year) 3) as [E|E]; cbn [negb andb].
  - split; [done|lia].
  - split; [repeat case_match; naive_solver|]. intros _ ???. repeat (rewrite (proj2 (Z.ltb_ge _ _)) by lia). done.
Qed.

(** A phone number the normalizer writes without a plus sign is accepted exactly when it has at most fifteen digits. *)
Theorem normalized_phone_accepted (value p : string) :
  normalizePhone value = Some p -> has_byte "+" p = false ->
  validatePhone p = if (15 <? String.length p)%nat then Some InvalidPhone else None.
Proof.
  unfold normalizePhone. destruct (Nat.ltb_spec (String.length (TrimPrefix (filter_bytes phone_byte value) "+")) 7) as [|Hl]; [done|].
  intros [= Hp] Hplus. rewrite Hp in Hl.
  assert (all_bytes phone_byte p = true) as Hb by (rewrite <- Hp; apply TrimPrefix_bytes, filter_bytes_class).
  assert (all_bytes is_ascii_digit p = true) as Hd by (by apply plus_free_digits).
  unfold validatePhone. rewrite filter_bytes_id by done. unfold phoneRegex, digits_of_length.
  assert (TrimPrefix p "+" = p) as ->.
  { destruct p as [|c p]; [done|]. cbn [has_byte] in Hplus. apply orb_false_iff in Hplus as [Hc _].
    unfold TrimPrefix. cbn [HasPrefix]. by rewrite Ascii.eqb_sym, Hc. }
  rewrite Hd. cbn [andb]. rewrite (proj2 (Nat.leb_le 7 _)) by done. cbn [andb].
  destruct (Nat.ltb_spec 15 (String.length p)); [by rewrite (proj2 (Nat.leb_gt _ 15))|by rewrite (proj2 (Nat.leb_le _ 15))].
Qed.

(** ** Witnesses *)

(** A pattern that matches itself only. *)
Definition literal_regexp : GoRegexp := fun pattern => Some (String.eqb pattern).

Definition plain_field (name : string) : Field := MkField name "TEXT" 0 0 0 false "" "" false false None "".
Definition demo_people : Schema := set_s_Fields [plain_field "name"; plain_field "age"] zero_Schema.
Definition demo_rules : Params :=
  [("rules", YMap [("age", YStr "range:0-150"); ("name", YList [YStr "required"; YStr "length:1-5"])]); ("on_error", YStr "filter")].
Definition demo_masks : Params := [("fields", YMap [("name", YStr "stars")])].
Definition demo_validator : FieldValidator :=
  MkFieldValidator
    (<["name" := [MkFieldValidationRule ValidateRequired "" ""; MkFieldValidationRule ValidateLength "1-5" ""]]>
      (<["age" := [MkFieldValidationRule ValidateRange "0-150" ""]]> ∅)) false StrategyFilter ∅.


Lemma chain_output_valid_witness :
  let data := [["Ann"; "30"]; ["Bob"; "200"]] in
  exists chain v,
    CreateChainFromConfigs (V:=demo_values) (RE:=literal_regexp) (GC:=ascii_case)
      ([MkConfig "field_masker" demo_masks] ++ [MkConfig "field_validator" demo_rules]) = Ok chain
    /\ NewFieldValidatorFromConfig (RE:=literal_regexp) demo_rules = Ok v
    /\ chain_Process chain data demo_people = Ok [["***"; "30"]]
    /\ forallb (row_valid (V:=demo_values) v demo_people) [["***"; "30"]] = true /\ narrowed data [["***"; "30"]].
Proof.
  intros data. eexists _, _. split; [reflexivity|]. split; [reflexivity|]. split; [vm_compute; reflexivity|].
  eapply (chain_output_valid (V:=demo_values) (RE:=literal_regexp) (GC:=ascii_case) [MkConfig "field_masker" demo_masks] demo_rules _ _ data _ demo_people);
    [reflexivity|reflexivity|by right|vm_compute; reflexivity].
Defined.

(** Integers and a NaN. *)
Definition nan_values : GoValues := {|
  float64 := option Z;
  ParseFloat s := if String.eqb s "NaN" then Some None else match ParseInt s with Ok z => Some (Some z) | Err _ => None end;
  FormatFloat x _ := match x with Some z => Itoa z | None => "NaN" end;
  float_lt x y := match x, y with Some a, Some b => (a <? b)%Z | _, _ => false end;
  is_NaN x := match x with Some _ => false | None => true end;
  Time := Z; time_Parse _ _ := None; time_Format t _ := Itoa t; time_Before := Z.ltb; time_UTC := id; time_Midnight t := t;
|}.

Lemma nan_in_every_range_witness :
  validateRange (V:=nan_values) "NaN" "0-150" = None /\ validateRange (V:=nan_values) "200" "0-150" = Some OutOfRange.
Proof.
  split; [|reflexivity].
  apply (nan_in_every_range (V:=nan_values) "NaN" "0" "150" None (Some 0%Z) (Some 150%Z)); try reflexivity. by intros [].
Defined.

Lemma normalized_date_accepted_witness :
  exists d, normalizeDate "5.12.24" = Some d /\ validateDate d = None.
Proof.
  destruct (normalized_date_accepted "5.12.24" "5" "12" "24" eq_refl) as (d & E & _ & Hd). exists d. split; [exact E|].
  apply Hd; vm_compute; (discriminate || by split).
Defined.

Lemma normalized_phone_accepted_witness : validatePhone "79161234567" = None.
Proof. apply (normalized_phone_accepted "+7 (916) 123-45-67" "79161234567"); reflexivity. Defined.

(** The checks of a date know no month lengths, and a three-digit year is normalized to what they refuse. *)
Lemma date_examples :
  validateDate "2024-02-31" = None /\ normalizeDate "1.2.123" = Some "123-02-01" /\ validateDate "123-02-01" = Some InvalidDate.
Proof. by vm_compute. Qed.
