(* ===== verification/ExportChain.v ===== *)
(** * ExportChain: processors applied to packets

    What [tdtpcli --export] and the ETL exporter do to a packet between the database and the file:
    src/cmd/tdtpcli/processors.go (masking, normalizing and validating the rows of a packet),
    src/pkg/processors/packet_processor.go, the packet processors and the chain of
    src/cmd/tdtpcli/commands/export.go, and the pre-export steps of src/pkg/etl/exporter.go.  Reading and
    parsing the files of rules is an argument; so is the exchange with the hash registry. *)

From Stdlib Require Import ZArith Lia Ascii String.
From stdpp Require Import base list gmap strings pretty.
From S2P Require Import Prelude Strconv Encodings PacketTypes RowCodec PacketOps Compression Compact Integrity PacketParser.
From S2P Require Import MercuryHash PacketGenerator SpecialValuesV131 DictionaryV14 SchemaPkg GoMaps FieldProcessors FieldValidator.

(** ** src/cmd/tdtpcli/processors.go *)

Inductive add_error := LoadFailed (rulesFile : string) | ConfigFailed (e : config_error).

Section Manager.
  Context `{V : GoValues} `{RE : GoRegexp} `{R : GoRange} `{GC : GoCase}.
  Context (load : string -> option Params).

Record ProcessorManager := MkProcessorManager { pm_chain : Chain }.
Definition NewProcessorManager : ProcessorManager := MkProcessorManager [].

Definition detectMaskPattern (fieldName : string) : MaskPattern :=
  let lower := ToLower fieldName in
  if Contains lower "email" then MaskPartial
  else if Contains lower "phone" || Contains lower "mobile" then MaskMiddle
  else if Contains lower "card" || Contains lower "credit" then MaskFirst2Last2
  else if Contains lower "passport" || Contains lower "ssn" then MaskStars
  else MaskPartial.

Definition add_mask_field (m : gmap string MaskPattern) (field : string) : gmap string MaskPattern :=
  let field := TrimSpace field in
  if String.eqb field "" then m else <[field := detectMaskPattern field]> m.
Definition AddMaskProcessor (maskFields : string) (pm : ProcessorManager) : ProcessorManager :=
  if String.eqb maskFields "" then pm
  else
    let fieldsToMask := fold_left add_mask_field (Split maskFields ",") ∅ in
    if (0 <? size fieldsToMask)%nat
    then MkProcessorManager (chain_Add (pm_chain pm) (masker_processor (NewFieldMasker fieldsToMask))) else pm.

Definition add_from_file (section : string) (create : Params -> result config_error Processor) (rulesFile : string)
    (pm : ProcessorManager) : result add_error ProcessorManager :=
  if String.eqb rulesFile "" then Ok pm
  else
    match load rulesFile with
    | None => Err (LoadFailed rulesFile)
    | Some params =>
        match param params section with
        | None => Ok pm
        | Some _ =>
            match create params with
            | Ok p => Ok (MkProcessorManager (chain_Add (pm_chain pm) p))
            | Err e => Err (ConfigFailed e)
            end
        end
    end.
Definition AddValidateProcessor : string -> ProcessorManager -> result add_error ProcessorManager :=
  add_from_file "rules" (fun params => validator_processor <$> NewFieldValidatorFromConfig params).
Definition AddNormalizeProcessor : string -> ProcessorManager -> result add_error ProcessorManager :=
  add_from_file "fields" (fun params => normalizer_processor <$> NewFieldNormalizerFromConfig params).
End Manager.

Definition HasProcessors (pm : ProcessorManager) : bool := negb (IsEmpty (pm_chain pm)).

Definition convertPacketToMatrix (pkt : DataPacket) : Rows := map (fun row => Split (r_Value row) PIPE) (d_Rows (p_Data pkt)).

(** The loop over the matrix, in place on the rows of the packet. *)
Fixpoint update_rows (rows : list Row) (matrix : Rows) : list Row :=
  match rows, matrix with
  | _ :: rows, cells :: matrix => MkRow (Join cells "|") :: update_rows rows matrix
  | rows, _ => rows
  end.
Definition updatePacketFromMatrix (pkt : DataPacket) (matrix : Rows) : DataPacket :=
  set_p_Data (set_d_Rows (update_rows (d_Rows (p_Data pkt)) matrix) (p_Data pkt)) pkt.

Definition manager_ProcessPacket (pm : ProcessorManager) (pkt : DataPacket) : result ChainError DataPacket :=
  if IsEmpty (pm_chain pm) then Ok pkt
  else
    let pkt := MaterializeRows pkt in
    match chain_Process (pm_chain pm) (convertPacketToMatrix pkt) (p_Schema pkt) with
    | Ok processed => Ok (updatePacketFromMatrix pkt processed)
    | Err e => Err e
    end.

(** ** packet_processor.go and the packet processors of export.go *)

Inductive export_error :=
| ERows (e : ChainError) | EIntegrity (e : integrity_error) | ERegister (e : mercury_error) | ECompress (e : codec_error).

Record PacketProcessor := MkPacketProcessor { pp_Name : string; pp_ProcessPacket : DataPacket -> result export_error DataPacket }.
Definition PacketChain := list PacketProcessor.
Fixpoint PacketChain_ProcessPacket (c : PacketChain) (pkt : DataPacket) : result (string * export_error) DataPacket :=
  match c with
  | [] => Ok pkt
  | p :: c =>
      match pp_ProcessPacket p pkt with
      | Ok pkt => PacketChain_ProcessPacket c pkt
      | Err e => Err (pp_Name p, e)
      end
  end.

Definition rowChain (pm : ProcessorManager) : PacketProcessor :=
  MkPacketProcessor "row-chain" (fun pkt => match manager_ProcessPacket pm pkt with Ok q => Ok q | Err e => Err (ERows e) end).
Definition compactProc (fixedNames : list string) (writeTail : bool) : PacketProcessor :=
  MkPacketProcessor "compact" (fun pkt => Ok (ApplyCompact pkt fixedNames writeTail)).
Definition compressProc `{Codec} (algo : string) (level : Z) (checksum : bool) : PacketProcessor :=
  MkPacketProcessor "compress" (fun pkt =>
    match compressPacketData pkt level algo checksum with Ok q => Ok q | Err e => Err (ECompress e) end).

(** [RegisterHash] of the client of a registry. *)
Definition Registrar := string -> Z -> string -> string -> string -> string -> result mercury_error unit.

(** The address of the registry, as an entry of the dictionary, unless there is one. *)
Definition add_registry_entry (url : string) (s : Schema) : Schema :=
  let entries := match s_Dictionary s with Some d => dict_Entries d | None => [] end in
  if existsb (fun e => String.eqb (de_Short e) "@MRC") entries then set_s_Dictionary (Some (MkDictionary entries)) s
  else set_s_Dictionary (Some (MkDictionary (entries ++ [MkDictEntry "@MRC" url]))) s.

Definition integrity_ProcessPacket `{HashEnv} (client : option Registrar) (mercuryURL caller : string) (pkt : DataPacket)
    : result export_error DataPacket :=
  let pkt := set_p_Version "1.4" pkt in
  let pkt := match client with
             | Some _ => if String.eqb mercuryURL "" then pkt else set_p_Schema (add_registry_entry mercuryURL (p_Schema pkt)) pkt
             | None => pkt
             end in
  match ComputeIntegrity pkt with
  | Err e => Err (EIntegrity e)
  | Ok (pkt, _) =>
      match client with
      | None => Ok pkt
      | Some register =>
          let caller := if String.eqb caller "" then "tdtpcli" else caller in
          match register (h_MessageID (p_Header pkt)) (h_PartNumber (p_Header pkt)) (p_XXH3 pkt) (h_TableName (p_Header pkt))
                  caller (p_Version pkt) with
          | Ok _ => Ok pkt
          | Err e => Err (ERegister e)
          end
      end
  end.
Definition integrityProc `{HashEnv} (client : option Registrar) (mercuryURL caller : string) : PacketProcessor :=
  MkPacketProcessor "integrity" (integrity_ProcessPacket client mercuryURL caller).

Record ExportOptions := MkExportOptions {
  eo_ProcessorMgr : option ProcessorManager; eo_Compact : bool; eo_FixedFields : list string; eo_CompactTail : bool;
  eo_IntegrityV14 : bool; eo_Encrypt : bool; eo_EncryptLegacy : bool; eo_MercuryURL : string; eo_MercuryCaller : string;
  eo_Compress : bool; eo_CompressAlgo : string; eo_CompressLevel : Z; eo_EnableChecksum : bool;
}.

(** The chain [ExportTable] builds; [schema] is that of the first packet and [connect] makes a client. *)
Section TableExport.
  Context {C : Codec} {HE : HashEnv} (connect : string -> Registrar).

Definition export_chain (opts : ExportOptions) (schema : Schema) : PacketChain :=
  match eo_ProcessorMgr opts with Some pm => if HasProcessors pm then [rowChain pm] else [] | None => [] end
  ++ (if eo_Compact opts then
        let fixedNames := ResolveFixedFields schema (eo_FixedFields opts) in
        if (length fixedNames =? 0)%nat then [] else [compactProc fixedNames (eo_CompactTail opts)]
      else [])
  ++ (if eo_IntegrityV14 opts || (eo_Encrypt opts && negb (eo_EncryptLegacy opts)) then
        [integrityProc (if String.eqb (eo_MercuryURL opts) "" then None else Some (connect (eo_MercuryURL opts)))
           (eo_MercuryURL opts) (if String.eqb (eo_MercuryCaller opts) "" then "tdtpcli" else eo_MercuryCaller opts)]
      else [])
  ++ (if eo_Compress opts then [compressProc (eo_CompressAlgo opts) (eo_CompressLevel opts) (eo_EnableChecksum opts)] else []).

(** The packets in the order they are written. *)
Fixpoint process_packets (c : PacketChain) (packets : list DataPacket) : result (string * export_error) (list DataPacket) :=
  match packets with
  | [] => Ok []
  | pkt :: packets => q ← PacketChain_ProcessPacket c pkt; qs ← process_packets c packets; Ok (q :: qs)
  end.
Definition export_packets (opts : ExportOptions) (packets : list DataPacket) : result (string * export_error) (list DataPacket) :=
  match packets with
  | [] => Ok []
  | pkt :: _ => process_packets (export_chain opts (p_Schema pkt)) packets
  end.
End TableExport.

(** ** src/pkg/etl/exporter.go *)

Definition applyPreExport (chain : option Chain) (pkt : DataPacket) : result ChainError DataPacket :=
  match chain with
  | None => Ok pkt
  | Some c =>
      if IsEmpty c then Ok pkt
      else
        match chain_Process c (GetRows pkt) (p_Schema pkt) with
        | Ok processed => Ok (set_p_Data (RowsToData processed) pkt)
        | Err e => Err e
        end
  end.

Record TDTPOutput := MkTDTPOutput { to_Compact : bool; to_CompactTail : bool; to_FixedFields : list string; to_Fast : bool }.
Inductive etl_error := EPreExport (e : ChainError) | EGenerate (e : dict_error).

(** [exportToTDTP] up to the parts it writes. *)
Definition newGenerator (fast : bool) (cfg : TDTPOutput) : Generator :=
  if fast || to_Fast cfg then SetSkipSpecialValues true NewGenerator else NewGenerator.
Definition tdtp_parts `{GC : GoCase} (w : World) (fast : bool) (chain : option Chain) (cfg : TDTPOutput) (pkt : DataPacket)
    : result etl_error (list DataPacket) :=
  match applyPreExport chain pkt with
  | Err e => Err (EPreExport e)
  | Ok pkt =>
      let pkt := if to_Compact cfg then
                   let fixedNames := ResolveFixedFields (p_Schema pkt) (to_FixedFields cfg) in
                   if (0 <? length fixedNames)%nat then ApplyCompact pkt fixedNames (to_CompactTail cfg) else pkt
                 else pkt in
      match GenerateReference w (newGenerator fast cfg) (h_TableName (p_Header pkt)) (p_Schema pkt) (GetRows pkt) with
      | Ok parts => Ok parts
      | Err e => Err (EGenerate e)
      end
  end.

(** [strings.LastIndex(s, string(c))], and the last slash of a path or 0. *)
Fixpoint last_index (P : ascii -> bool) (s : string) : option nat :=
  match s with
  | "" => None
  | String c s' => match last_index P s' with Some i => Some (S i) | None => if P c then Some 0 else None end
  end.
Definition lastSep (path : string) : nat := default 0 (last_index (fun c => Ascii.eqb c "/" || Ascii.eqb c "\") path).

Definition take_bytes (n : nat) (s : string) : string := String.substring 0 n s.
Definition tdtpPartDestination (destination : string) (partNum totalParts : Z) : string :=
  if (totalParts <=? 1)%Z then destination
  else
    let idx := lastSep destination in
    let '(base, ext) :=
      if (0 <? idx)%nat then
        let name := drop_bytes (S idx) destination in
        match last_index (Ascii.eqb ".") name with
        | Some dot => (take_bytes (S idx) destination +:+ take_bytes dot name, drop_bytes dot name)
        | None => (destination, "")
        end
      else
        match last_index (Ascii.eqb ".") destination with
        | Some dot => (take_bytes dot destination, drop_bytes dot destination)
        | None => (destination, "")
        end in
    base +:+ "_part_" +:+ Itoa partNum +:+ "_of_" +:+ Itoa totalParts +:+ ext.

(** ** Lemmas *)

Lemma update_rows_app (rows : list Row) (matrix : Rows) :
  length matrix <= length rows ->
  update_rows rows matrix = map (fun cells => MkRow (Join cells "|")) matrix ++ drop (length matrix) rows.
Proof.
  revert matrix; induction rows as [|r rows IH]; intros [|m matrix] H; simpl in *; try done; [lia|].
  rewrite IH by lia. done.
Qed.

Lemma update_rows_length (rows : list Row) (matrix : Rows) : length (update_rows rows matrix) = length rows.
Proof. revert matrix; induction rows as [|r rows IH]; intros [|m matrix]; simpl; by rewrite ?IH. Qed.

Lemma manager_spec (pm : ProcessorManager) (p : DataPacket) (out : Rows) :
  HasProcessors pm = true -> chain_Process (pm_chain pm) (convertPacketToMatrix (MaterializeRows p)) (p_Schema p) = Ok out ->
  manager_ProcessPacket pm p = Ok (updatePacketFromMatrix (MaterializeRows p) out).
Proof.
  unfold HasProcessors, manager_ProcessPacket. intros Hp Hc. apply negb_true_iff in Hp. rewrite Hp.
  by rewrite MaterializeRows_Schema, Hc.
Qed.

Lemma hasSpecial_bytes (v : string) : hasSpecial v = false -> has_byte BSLASH v = false /\ has_byte PIPE v = false.
Proof.
  induction v as [|c v IH]; simpl; [done|]. destruct (Ascii.eqb c BSLASH), (Ascii.eqb c PIPE), (Ascii.eqb c LF); try done.
Qed.

(** A row of cells without special bytes is the cells with pipes between them. *)
Lemma plain_row (cells : list string) :
  Forall (fun c => hasSpecial c = false) cells -> JoinRowEscaped cells = Join cells "|".
Proof.
  intros H. rewrite JoinRowEscaped_Join. f_equal. induction H as [|c cells Hc _ IH]; simpl; [done|]. by rewrite escape_bytes_plain, IH.
Qed.

Lemma GetRowValues_split (r : Row) : has_byte BSLASH (r_Value r) = false -> GetRowValues r = Split (r_Value r) PIPE.
Proof. unfold GetRowValues. by intros ->. Qed.

Lemma raw_cells_repeat (fixedPos : list bool) (carry row : list string) (j : nat) (c : string) :
  length carry = length fixedPos -> fixedPos !! j = Some true -> carry !! j = Some c -> row !! j = Some c ->
  raw_cells fixedPos false carry row !! j = Some "".
Proof.
  revert carry row j; induction fixedPos as [|b fp IH]; intros [|l ls] row j Hl Hf Hc Hr; try done.
  destruct row as [|v row]; [done|]. injection Hl as Hl. destruct j as [|j]; simpl in *.
  - simplify_eq. by rewrite String.eqb_refl.
  - by apply IH.
Qed.

Lemma row_carry_lookup (fixedPos : list bool) (carry row : list string) (j : nat) (c : string) :
  length carry = length fixedPos -> fixedPos !! j = Some true -> row !! j = Some c -> row_carry fixedPos carry row !! j = Some c.
Proof.
  revert carry row j; induction fixedPos as [|b fp IH]; intros [|l ls] row j Hl Hf Hr; try done.
  destruct row as [|v row]; [done|]. injection Hl as Hl. destruct j as [|j]; simpl in *; [by simplify_eq|by apply IH].
Qed.

(** The second row of a table that agrees with the first in a fixed column has the column empty. *)
Lemma second_row_blank (fixedPos : list bool) (r1 r2 : list string) (rest : Rows) (j : nat) (c : string) :
  fixedPos !! j = Some true -> r1 !! j = Some c -> r2 !! j = Some c ->
  ParseRows (compact_rows fixedPos false true (replicate (length fixedPos) "") (r1 :: r2 :: rest)) !! 1 ≫= (.!! j) = Some "".
Proof.
  intros Hf H1 H2. cbn [compact_rows andb orb]. rewrite !compact_cells_spec. unfold ParseRows. cbn [map lookup list_lookup mbind option_bind].
  assert (length (row_carry fixedPos (replicate (length fixedPos) "") r1) = length fixedPos) as Hl
    by (by rewrite row_carry_length, length_replicate).
  rewrite GetRowValues_escapeValue.
  - eapply raw_cells_repeat; [done|done| |exact H2]. apply row_carry_lookup; [by rewrite length_replicate|done|done].
  - intros E. apply (f_equal length) in E. rewrite raw_cells_length in E by done. apply lookup_lt_Some in Hf. simpl in E. lia.
Qed.

Lemma Itoa_no_underscore (z : Z) : has_byte "_" (Itoa z) = false.
Proof. destruct z; [done|by apply pretty_N_bytes|]. simpl. by apply (pretty_N_bytes "_" (N.pos p)). Qed.

Lemma Itoa_sep_inj (a b : Z) (r s : string) : Itoa a +:+ "_" +:+ r = Itoa b +:+ "_" +:+ s -> a = b.
Proof. intros E. apply (sep_inj "_") in E as [E _]; [|apply Itoa_no_underscore..]. by apply (inj pretty). Qed.

Lemma list_eq_singleton {A} (l : list A) (x : A) : length l = 1 -> l !! 0 = Some x -> l = [x].
Proof. destruct l as [|y [|]]; [done| |done]. by intros _ [= ->]. Qed.

(** What stamping leaves in the data section. *)
Lemma stamped_data `{HE : HashEnv} (p q : DataPacket) (r : IntegrityResult) (d := p_Data (MaterializeRows p)) :
  ComputeIntegrity p = Ok (q, r) ->
  d_Rows (p_Data q) = d_Rows d /\ d_Compression (p_Data q) = d_Compression d /\ d_Checksum (p_Data q) = d_Checksum d.
Proof. unfold ComputeIntegrity. destruct (computeHashes _); [|done]. by intros [= <- <-]. Qed.

Lemma integrity_stamp `{HE : HashEnv} (client : option Registrar) (url caller : string) (p q : DataPacket) :
  integrity_ProcessPacket client url caller p = Ok q ->
  exists s r, ComputeIntegrity (set_p_Schema s (set_p_Version "1.4" p)) = Ok (q, r).
Proof.
  unfold integrity_ProcessPacket. set (p' := match client with Some _ => _ | None => _ end). intros H.
  assert (exists s, p' = set_p_Schema s (set_p_Version "1.4" p)) as [s E].
  { unfold p'. destruct client; [|by exists (p_Schema p); destruct p]. destruct (String.eqb url ""); [by exists (p_Schema p); destruct p|by eexists]. }
  exists s. rewrite <- E. destruct (ComputeIntegrity p') as [[q' r]|]; [|done]. exists r.
  destruct client as [register|]; [|by injection H as ->]. destruct (register _ _ _ _ _ _); [by injection H as ->|done].
Qed.

(** The rows of a packet after [ApplyCompact], as written. *)
Lemma compacted_rows (p : DataPacket) (names : list string) (tail : bool) :
  rows_in_one_place p -> good_rows (GetRows p) ->
  GetRows (ApplyCompact p names tail) = ParseRows (d_Rows (RowsToCompactData (GetRows p) (p_Schema (ApplyCompact p names tail)) tail)).
Proof.
  intros Ho Hg. destruct (MaterializeRows_one_place p Ho Hg) as [Hraw Hrows]. rewrite GetRows_data by exact Hraw.
  rewrite <- Hrows. reflexivity.
Qed.

(** The parts generated without the search for special values have the rows, and none is marked compact. *)
Lemma fast_reference_rows `{GC : GoCase} (w : World) (t : string) (schema : Schema) (rows : Rows) (parts : list DataPacket) :
  GenerateReference w (SetSkipSpecialValues true NewGenerator) t schema rows = Ok parts ->
  concat (map GetRows parts) = rows /\ Forall (fun q => d_Compact (p_Data (MaterializeRows q)) = false) parts.
Proof.
  unfold GenerateReference. destruct (match s_Dictionary schema with Some _ => _ | None => _ end); [simpl|done]. intros [= <-]. split.
  - rewrite (concat_map_imap _ _ id) by (intros; apply reference_part_GetRows). rewrite map_id. apply partitionRows_correct.
  - apply Forall_lookup. intros i q. rewrite list_lookup_imap. destruct (partitionRows _ rows !! i) as [part|]; [|done].
    intros [= <-]. unfold MaterializeRows, reference_part. simpl. by destruct (has_dictionary schema), part.
Qed.

(** What the row processors of the options make of a packet. *)
Definition row_stage (opts : ExportOptions) (p : DataPacket) : result ChainError DataPacket :=
  match eo_ProcessorMgr opts with Some pm => if HasProcessors pm then manager_ProcessPacket pm p else Ok p | None => Ok p end.

(** ** Theorems *)

(** C24. An exported packet with hashes, compressed after they are computed, reads back: it decompresses to a packet of
    version 1.4 whose hashes verify and whose rows are those the row processors made, with or without a registry.
    This is for an export of one packet that succeeds, with hashes and compression and without the compact form, where
    the packet the row processors made keeps its rows in one place (raw or in the data section), every row has a cell
    and no line feed, the rows are not a single empty row, it is not compressed yet and carries no checksum, and its
    row count in the header is zero or right. *)
Theorem export_reads_back {C : Codec} {CL : CodecLaws C} {HE : HashEnv} (connect : string -> Registrar) (opts : ExportOptions) (p m q : DataPacket) :
  row_stage opts p = Ok m -> eo_Compact opts = false -> eo_IntegrityV14 opts = true -> eo_Compress opts = true ->
  rows_in_one_place m -> good_rows (GetRows m) -> ready_to_compress (MaterializeRows m) ->
  map r_Value (d_Rows (p_Data (MaterializeRows m))) <> [""] ->
  export_packets connect opts [p] = Ok [q] ->
  exists r, decompressPacketData q = Ok r /\ VerifyIntegrity r = (r, Ok ()) /\ HasIntegrity r = true
    /\ GetRows r = GetRows m /\ p_Version r = "1.4".
Proof.
  intros Hm Hc Hi Hz Ho Hg Hr Hne. unfold export_packets, export_chain. rewrite Hc, Hi, Hz. cbn [app orb]. intros H.
  match type of H with context [_ ++ [?a; ?b]] => set (tl := [a; b]) in H end.
  assert (exists q', PacketChain_ProcessPacket tl m = Ok q' /\ q' = q) as (q' & Hq & ->).
  { unfold row_stage in Hm. revert H Hm. destruct (eo_ProcessorMgr opts) as [pm|]; [destruct (HasProcessors pm)|];
      cbn [app process_packets PacketChain_ProcessPacket rowChain pp_ProcessPacket].
    1: destruct (manager_ProcessPacket pm p) as [m'|]; [|done].
    all: intros H [= ->]; destruct (PacketChain_ProcessPacket tl m) as [q'|]; [|done]; injection H as ->; by eexists. }
  clear H. unfold tl in Hq. cbn [PacketChain_ProcessPacket integrityProc pp_ProcessPacket compressProc] in Hq.
  destruct (integrity_ProcessPacket _ _ _ m) as [s|] eqn:Es; [|done]. destruct (compressPacketData s _ _ _) as [z|] eqn:Ez; [|done].
  injection Hq as ->. apply integrity_stamp in Es as (sch & res & Es).
  set (m' := set_p_Schema sch (set_p_Version "1.4" m)) in Es.
  assert (MaterializeRows m' = set_p_Schema sch (set_p_Version "1.4" (MaterializeRows m))) as Hmat.
  { unfold MaterializeRows, m'. destruct m; simpl. by destruct (_ && _). }
  destruct (stamped_facts m' s res Ho Hg Es) as (Hh & Hv & _ & Hraw & Hhd & Hvs & Hrows).
  destruct (stamped_data m' s res Es) as (D1 & D2 & D3). rewrite Hmat in D1, D2, D3. cbn in D1, D2, D3.
  assert (MaterializeRows s = s) as Hs by (unfold MaterializeRows; by rewrite Hraw).
  exists s. split; [|by split_and!]. apply (decompress_undoes_compress s q _ _ _) in Ez; rewrite Hs in *.
  - by rewrite Ez.
  - destruct Hr as (R1 & R2 & R3 & R4). split_and!; rewrite ?D1, ?D2, ?D3; try done.
    rewrite Hhd. cbn.
    assert (p_Header (MaterializeRows m) = p_Header m) as <- by (unfold MaterializeRows; by destruct (_ && _)). exact R3.
  - by rewrite D1.
Qed.

(** On rows without escapes the command line applies the chain to the rows of the packet, when the chain keeps their
    number and writes no byte that needs an escape. *)
Theorem cli_chain_correct (pm : ProcessorManager) (p : DataPacket) (out : Rows) :
  HasProcessors pm = true -> rows_in_one_place p -> good_rows (GetRows p) ->
  Forall (fun r => has_byte BSLASH (r_Value r) = false) (d_Rows (p_Data (MaterializeRows p))) ->
  chain_Process (pm_chain pm) (GetRows p) (p_Schema p) = Ok out ->
  length out = length (GetRows p) -> good_rows out -> Forall (Forall (fun c => hasSpecial c = false)) out ->
  exists q, manager_ProcessPacket pm p = Ok q /\ GetRows q = out.
Proof.
  intros Hp Ho Hg Hb Hc Hl Hgo Hs. destruct (MaterializeRows_one_place p Ho Hg) as [Hraw Hrows].
  assert (convertPacketToMatrix (MaterializeRows p) = GetRows p) as Hm.
  { rewrite <- Hrows. unfold convertPacketToMatrix, ParseRows. clear -Hb. induction Hb as [|r rs Hr _ IH]; simpl; [done|].
    by rewrite IH, GetRowValues_split. }
  rewrite <- Hm in Hc. eexists. split; [by apply manager_spec|]. rewrite GetRows_data by exact Hraw.
  cbn [updatePacketFromMatrix set_p_Data p_Data set_d_Rows d_Rows].
  assert (length out = length (d_Rows (p_Data (MaterializeRows p)))) as Hl'.
  { rewrite Hl, <- Hrows. unfold ParseRows. by rewrite length_map. }
  rewrite update_rows_app, drop_ge, app_nil_r by lia.
  rewrite <- (ParseRows_RowsToData out Hgo) at 2. f_equal. cbn [RowsToData set_d_Rows d_Rows].
  clear -Hs. induction Hs as [|r out Hr _ IH]; simpl; [done|]. by rewrite plain_row, IH.
Qed.

(** The command line never removes a row: when the chain returns fewer rows, they take the first places and the last
    rows of the packet stay as they were. *)
Theorem cli_keeps_row_count (pm : ProcessorManager) (p : DataPacket) (out : Rows) (rows := d_Rows (p_Data (MaterializeRows p))) :
  HasProcessors pm = true -> chain_Process (pm_chain pm) (convertPacketToMatrix (MaterializeRows p)) (p_Schema p) = Ok out ->
  length out <= length rows ->
  exists q, manager_ProcessPacket pm p = Ok q /\ length (d_Rows (p_Data q)) = length rows
    /\ d_Rows (p_Data q) = map (fun cells => MkRow (Join cells "|")) out ++ drop (length out) rows.
Proof.
  intros Hp Hc Hl. eexists. split; [by apply manager_spec|]. cbn. split; [apply update_rows_length|by apply update_rows_app].
Qed.

(** A pipe inside a cell shifts the columns the command line sees: with a mask on the second of two columns, the value
    of the second column of such a row is exported as it was, and part of the first is masked. *)
Theorem cli_mask_misses_column `{R : GoRange} `{RL : !GoRangeLaws R} (p : DataPacket) (f1 f2 : Field) (a b s : string) (pat : MaskPattern) :
  f_Name f1 <> f_Name f2 -> s_Fields (p_Schema p) = [f1; f2] -> p_rawRows p = [] ->
  d_Rows (p_Data p) = [MkRow (JoinRowEscaped [a +:+ "|" +:+ b; s])] ->
  Forall (fun c => hasSpecial c = false) [a; b; s; maskValue b pat] -> b <> "" ->
  exists q, manager_ProcessPacket (MkProcessorManager [masker_processor (NewFieldMasker {[f_Name f2 := pat]})]) p = Ok q
    /\ GetRows q = [[a +:+ "|" +:+ maskValue b pat; s]].
Proof.
  intros Hn Hf Hraw Hrows Hs Hb. apply Forall_cons in Hs as [Ha Hs]. apply Forall_cons in Hs as [Hb' Hs]. apply Forall_cons in Hs as [Hs Hm].
  rewrite Forall_singleton in Hm. assert (MaterializeRows p = p) as Hmat by (unfold MaterializeRows; by rewrite Hraw).
  assert (forall x, hasSpecial x = false -> escape_bytes (a +:+ "|" +:+ x) = (a +:+ "\") +:+ "|" +:+ x) as He.
  { intros x Hx. rewrite !escape_bytes_app, (escape_bytes_plain a Ha), (escape_bytes_plain x Hx). by rewrite str_app_assoc. }
  assert (forall x, hasSpecial x = false -> JoinRowEscaped [a +:+ "|" +:+ x; s] = Join [a +:+ "\"; x; s] "|") as Hj.
  { intros x Hx. rewrite JoinRowEscaped_Join. cbn [map]. rewrite He, (escape_bytes_plain s) by done. rewrite (Join_cons (a +:+ "\")), (Join_cons x) by done.
    rewrite Join_cons by done. by rewrite !str_app_assoc. }
  assert (convertPacketToMatrix (MaterializeRows p) = [[a +:+ "\"; b; s]]) as Hconv.
  { rewrite Hmat. unfold convertPacketToMatrix. rewrite Hrows. cbn [map r_Value]. rewrite Hj by done. f_equal.
    apply (Split_Join PIPE); [done|]. repeat constructor; try by apply hasSpecial_bytes.
    rewrite has_byte_app. apply hasSpecial_bytes in Ha as [_ ->]. done. }
  eexists. split.
  - apply manager_spec; [done|]. rewrite Hconv. cbn [pm_chain chain_Process run_chain masker_processor proc_Process]. reflexivity.
  - rewrite Hmat, GetRows_data by exact Hraw.
    destruct (change_rows_lookup (fun p v => Some (maskValue v p)) {[f_Name f2 := pat]} [[a +:+ "\"; b; s]] (p_Schema p) 0 _ eq_refl)
      as (row' & E & Hrow).
    assert (masker_Process (NewFieldMasker {[f_Name f2 := pat]}) [[a +:+ "\"; b; s]] (p_Schema p) = [[a +:+ "\"; maskValue b pat; s]]) as ->.
    { apply list_eq_singleton; [apply change_rows_length|]. etrans; [exact E|]. f_equal. apply list_eq. intros j. rewrite Hrow, Hf.
      destruct j as [|[|[|j]]]; cbn; [by rewrite lookup_singleton_ne, cell_after_None by done| |by rewrite cell_after_None|done].
      rewrite lookup_singleton_eq. unfold cell_after. by rewrite (proj2 (String.eqb_neq b "")). }
    cbn [updatePacketFromMatrix set_p_Data p_Data set_d_Rows d_Rows]. rewrite Hrows. cbn [update_rows].
    rewrite <- (Hj (maskValue b pat)) by done.
    apply (ParseRows_RowsToData [[a +:+ "|" +:+ maskValue b pat; s]]). by repeat constructor.
Qed.

(** The ETL exporter's row processors: the rows of the packet are those the chain returns, and nothing else of it
    changes, the row count of the header included; so a part from which the chain removed rows is refused by every
    reader of the versions that count. *)
Theorem pre_export_rows (chain : Chain) (p q : DataPacket) :
  IsEmpty chain = false -> p_rawRows p = [] -> applyPreExport (Some chain) p = Ok q ->
  exists out, chain_Process chain (GetRows p) (p_Schema p) = Ok out
    /\ (good_rows out -> GetRows q = out) /\ p_Header q = p_Header p
    /\ ((0 < h_RecordsInPart (p_Header p))%Z -> NeedsRowCountCheck (p_Version p) = true ->
        Z.of_nat (length out) <> h_RecordsInPart (p_Header p) -> validatePacket q <> Ok ()).
Proof.
  unfold applyPreExport. intros -> Hraw. destruct (chain_Process chain (GetRows p) (p_Schema p)) as [out|]; [|done]. intros [= <-].
  exists out. split; [done|]. split; [intros Hg; rewrite GetRows_data by exact Hraw; by apply ParseRows_RowsToData|].
  split; [done|]. intros Hc Hv Hne Hok. apply validatePacket_ok, vp_count in Hok; [|done..].
  cbn in Hok. rewrite length_map in Hok. lia.
Qed.

(** The compact format is lost on the way through the ETL exporter: a fixed column that repeats the value of the row
    before is left empty, as the compact format does, but the parts written are not marked compact, so no reader
    fills it in again. *)
Theorem etl_compact_loses_repeats `{GC : GoCase} (w : World) (cfg : TDTPOutput) (p : DataPacket) (parts : list DataPacket)
    (r1 r2 : list string) (rest : Rows) (j : nat) (f : Field) (c : string) :
  to_Compact cfg = true -> to_CompactTail cfg = false -> to_Fast cfg = true -> rows_in_one_place p ->
  good_rows (GetRows p) -> GetRows p = r1 :: r2 :: rest ->
  s_Fields (p_Schema p) !! j = Some f -> f_Name f ∈ to_FixedFields cfg -> r1 !! j = Some c -> r2 !! j = Some c ->
  tdtp_parts w false None cfg p = Ok parts ->
  concat (map GetRows parts) !! 1 ≫= (.!! j) = Some ""
  /\ Forall (fun q => d_Compact (p_Data (MaterializeRows q)) = false) parts.
Proof.
  intros Hco Ht Hfast Ho Hg Hrows Hj Hf H1 H2. unfold tdtp_parts, applyPreExport. rewrite Hco, Ht.
  assert (ResolveFixedFields (p_Schema p) (to_FixedFields cfg) = to_FixedFields cfg /\ (0 <? length (to_FixedFields cfg))%nat = true)
    as [-> ->] by (unfold ResolveFixedFields; destruct (to_FixedFields cfg); [by apply not_elem_of_nil in Hf|done]).
  rewrite (compacted_rows p _ _ Ho Hg), Hrows. unfold newGenerator. rewrite Hfast. cbn [orb].
  set (rows := ParseRows _). intros Hp.
  destruct (GenerateReference _ _ _ _ _) as [ps|] eqn:E; [|done]. injection Hp as ->. apply fast_reference_rows in E as [-> Hcomp].
  split; [|exact Hcomp]. unfold rows, RowsToCompactData. cbn [length Nat.eqb].
  assert (map f_Fixed (s_Fields (p_Schema (ApplyCompact p (to_FixedFields cfg) false))) !! j = Some true) as Hfix.
  { cbn. rewrite MaterializeRows_Schema, !list_lookup_fmap, Hj. cbn. unfold compact_field.
    assert (existsb (String.eqb (f_Name f)) (to_FixedFields cfg) = true) as ->; [|done].
    apply existsb_exists. exists (f_Name f). split; [by apply list_elem_of_In|apply String.eqb_refl]. }
  assert (existsb f_Fixed (s_Fields (p_Schema (ApplyCompact p (to_FixedFields cfg) false))) = true) as ->.
  { apply list_lookup_fmap_Some in Hfix as (g & Eg & Hg'). apply existsb_exists. exists g.
    split; [apply list_elem_of_In, list_elem_of_lookup; by exists j|by symmetry]. }
  cbn [negb d_Rows]. rewrite <- (length_map f_Fixed). by eapply second_row_blank.
Qed.

(** The parts of one export go to different files. *)
Theorem part_destinations_differ (destination : string) (i j total : Z) :
  tdtpPartDestination destination i total = tdtpPartDestination destination j total -> (1 < total)%Z -> i = j.
Proof.
  unfold tdtpPartDestination. intros E Ht. rewrite (proj2 (Z.leb_gt total 1)) in E by done.
  destruct (if (0 <? lastSep destination)%nat then _ else _) as [base ext].
  apply str_app_inj in E as [_ E]; [|done]. apply str_app_inj in E as [_ E]; [|done].
  by apply (Itoa_sep_inj i j ("of_" +:+ Itoa total +:+ ext) ("of_" +:+ Itoa total +:+ ext)).
Qed.

(** ** Witnesses *)

Definition demo_manager (procs : list Processor) : ProcessorManager := MkProcessorManager procs.
Definition demo_packet_rows (rows : Rows) : DataPacket :=
  set_p_Header (MkHeader TypeReference "people" "id" "" 1 1 (Z.of_nat (length rows)) 1 "" "")
    (set_p_Schema demo_people (set_p_Data (RowsToData rows) (NewDataPacket "u" 1 TypeReference "people"))).
Definition demo_masker : Processor := masker_processor (NewFieldMasker {["name" := MaskStars]}).

Definition demo_options : ExportOptions :=
  MkExportOptions (Some (demo_manager [demo_masker])) false [] false true false false "" "" true "zstd" 3 true.
Definition demo_connect (url : string) : Registrar := fun _ _ _ _ _ _ => Ok ().
Definition demo_exported : DataPacket :=
  match export_packets (C:=demo_codec) (HE:=demo_hash) demo_connect demo_options [demo_packet_rows [["Ann"; "30"]]] with
  | Ok [q] => q
  | _ => demo_packet_rows []
  end.

Lemma export_reads_back_witness :
  exists r, decompressPacketData (K:=demo_codec) demo_exported = Ok r /\ VerifyIntegrity (H:=demo_hash) r = (r, Ok ())
    /\ GetRows r = [["***"; "30"]].
Proof.
  destruct (export_reads_back (C:=demo_codec) (HE:=demo_hash) demo_connect demo_options (demo_packet_rows [["Ann"; "30"]])
              (demo_packet_rows [["***"; "30"]]) demo_exported) as (r & H1 & H2 & _ & H4 & _).
  1-4: vm_compute; reflexivity.
  - by left.
  - by repeat constructor.
  - split_and!; [reflexivity..|right; reflexivity|by repeat constructor].
  - discriminate.
  - vm_compute. reflexivity.
  - exists r. split; [exact H1|]. split; [exact H2|exact H4].
Defined.

Lemma cli_chain_correct_witness :
  exists q, manager_ProcessPacket (demo_manager [demo_masker]) (demo_packet_rows [["Ann"; "30"]]) = Ok q /\ GetRows q = [["***"; "30"]].
Proof.
  apply (cli_chain_correct (demo_manager [demo_masker]) (demo_packet_rows [["Ann"; "30"]]) [["***"; "30"]]);
    try reflexivity; [by left|by repeat constructor..].
Defined.

(** The row with the age out of range is last: it is exported. *)
Lemma cli_keeps_row_count_witness :
  exists q, manager_ProcessPacket (demo_manager [validator_processor (V:=demo_values) demo_validator])
      (demo_packet_rows [["Ann"; "30"]; ["Bob"; "200"]]) = Ok q
    /\ d_Rows (p_Data q) = [MkRow "Ann|30"; MkRow "Bob|200"].
Proof.
  destruct (cli_keeps_row_count (demo_manager [validator_processor (V:=demo_values) demo_validator])
              (demo_packet_rows [["Ann"; "30"]; ["Bob"; "200"]]) [["Ann"; "30"]]) as (q & H1 & _ & H3);
    [reflexivity|vm_compute; reflexivity|vm_compute; lia|]. exists q. split; [exact H1|exact H3].
Defined.

Lemma cli_mask_misses_column_witness :
  exists q, manager_ProcessPacket (demo_manager [masker_processor (NewFieldMasker {["age" := MaskStars]})])
      (demo_packet_rows [["Ann|Lee"; "30"]]) = Ok q
    /\ GetRows q = [["Ann|***"; "30"]].
Proof.
  apply (cli_mask_misses_column (demo_packet_rows [["Ann|Lee"; "30"]]) (plain_field "name") (plain_field "age") "Ann" "Lee" "30" MaskStars);
    try reflexivity; [discriminate|by repeat constructor|discriminate].
Defined.

Lemma pre_export_rows_witness :
  exists q, applyPreExport (Some [validator_processor (V:=demo_values) demo_validator])
      (demo_packet_rows [["Ann"; "30"]; ["Bob"; "200"]]) = Ok q
    /\ GetRows q = [["Ann"; "30"]] /\ validatePacket q <> Ok ().
Proof.
  eexists. split; [vm_compute; reflexivity|].
  edestruct (pre_export_rows [validator_processor (V:=demo_values) demo_validator] (demo_packet_rows [["Ann"; "30"]; ["Bob"; "200"]]))
    as (out & H1 & H2 & _ & H4); [reflexivity|reflexivity|vm_compute; reflexivity|].
  vm_compute in H1. injection H1 as <-. split; [apply H2; by repeat constructor|]. apply H4; by vm_compute.
Defined.

Lemma etl_compact_loses_repeats_witness :
  exists parts, tdtp_parts (GC:=ascii_case) demo_world false None (MkTDTPOutput true false ["name"] true)
      (demo_packet_rows [["EU"; "1"]; ["EU"; "2"]]) = Ok parts
    /\ concat (map GetRows parts) = [["EU"; "1"]; [""; "2"]]
    /\ Forall (fun q => d_Compact (p_Data (MaterializeRows q)) = false) parts.
Proof.
  eexists. split; [vm_compute; reflexivity|]. split; [vm_compute; reflexivity|].
  apply (etl_compact_loses_repeats (GC:=ascii_case) demo_world (MkTDTPOutput true false ["name"] true)
           (demo_packet_rows [["EU"; "1"]; ["EU"; "2"]]) _ ["EU"; "1"] ["EU"; "2"] [] 0 (plain_field "name") "EU");
    [reflexivity|reflexivity|reflexivity|by left|by repeat constructor|reflexivity|reflexivity|by left|reflexivity|reflexivity
    |vm_compute; reflexivity].
Defined.

Lemma part_destinations_differ_witness :
  tdtpPartDestination "/out.d/t.tdtp.xml" 2 3 = "/out.d/t.tdtp_part_2_of_3.xml" /\ (1 < 3)%Z
  /\ (tdtpPartDestination "t" 2 3 = tdtpPartDestination "t" 2 3 -> 2%Z = 2%Z).
Proof. split; [reflexivity|]. split; [lia|]. intros E. exact (part_destinations_differ "t" 2 2 3 E ltac:(lia)). Defined.
