(* ===== verification/License.v ===== *)
(** * License: offline licences and capability certificates

    src/pkg/license (license.go, cert.go, audit.go), the gates of the command line
    (src/cmd/tdtpcli/commands/license_gate.go, unsafe_gate.go, the gates of main.go) and the vendor's tool
    (src/cmd/tdtp-license/main.go).  Ed25519, JSON, PEM keys and calendar dates are an interface; files are a
    function from paths to what reading them gives; times are nanoseconds. *)

From Stdlib Require Import ZArith Lia Ascii String.
From stdpp Require Import base gmap list strings.
From S2P Require Import Prelude Strconv Encodings.

Open Scope Z_scope.

(** ** license.go *)

Record Limits := MkLimits { RowsPerExport : Z; Pipelines : Z }.
Record LicensePayload := MkLicensePayload {
  lp_Licensee : string; lp_Issued : string; lp_Expires : string; lp_Tier : string; lp_Adapters : list string;
  lp_Features : list string; lp_Limits : Limits;
}.
Record TdtpLicense := MkTdtpLicense { tl_payload : LicensePayload; tl_Signature : string; tl_community : bool }.

(** cert.go: a certificate is what it signs and the signature. *)
Record CertScope := MkCertScope { cs_Tables : list string; cs_Database : string }.
Record CapPayload := MkCapPayload {
  cp_Expires : Z; cp_HostLock : string; cp_IssuedAt : Z; cp_IssuedTo : string; cp_Nonce : string; cp_Operation : string;
  cp_Scope : CertScope;
}.
Record CapabilityCert := MkCapabilityCert { cc_payload : CapPayload; cc_Signature : string }.

(** What reading a path gives: nothing there, an error, or its bytes. *)
Inductive file_read := NoFile | ReadFailed | FileBytes (data : string).
Definition Files := string -> file_read.
Definition write_file (path data : string) (files : Files) : Files := fun p => if String.eqb p path then FileBytes data else files p.

Class LicenseEnv := {
  vendor_verify : string -> string -> string -> bool; (** [ed25519.Verify] *)
  vendor_sign : string -> string -> string; (** [ed25519.Sign] *)
  vendor_public : string -> string; (** the public half of a private key *)
  license_json : LicensePayload -> string; (** [json.Marshal] of the signed parts *)
  cap_json : CapPayload -> string;
  license_file : TdtpLicense -> string; (** [json.MarshalIndent]; [community] is not exported *)
  license_unmarshal : string -> option TdtpLicense;
  cap_unmarshal : string -> option CapabilityCert;
  parse_private : string -> option string; (** PEM and PKCS 8 / PKIX *)
  parse_public : string -> option string;
  parse_day : string -> option Z; (** [time.Parse("2006-01-02", s)] *)
  valid_text : string -> bool; (** [utf8.ValidString] *)
}.

(** The strings of a licence are valid UTF-8, so that its JSON carries them. *)
Definition text_payload `{LicenseEnv} (p : LicensePayload) : bool :=
  forallb valid_text (lp_Licensee p :: lp_Issued p :: lp_Expires p :: lp_Tier p :: lp_Adapters p ++ lp_Features p).

Class LicenseEnvLaws (L : LicenseEnv) : Prop := {
  vendor_verify_sign k m : vendor_verify (vendor_public k) m (vendor_sign k m) = true;
  license_unmarshal_file l : text_payload (tl_payload l) = true -> tl_community l = false ->
    license_unmarshal (license_file l) = Some l;
  license_unmarshal_floor s l : license_unmarshal s = Some l -> tl_community l = false;
}.

Inductive license_error := LicRead | LicParse | LicKey | LicBase64 | LicSignature | LicExpired.

Definition one_day : Z := 24 * 3600 * 1000000000.

Section Licences.
  Context `{L : LicenseEnv}.

Definition License_New (licensee issued expires tier : string) (adapters features : list string) (limits : Limits) : TdtpLicense :=
  MkTdtpLicense (MkLicensePayload licensee issued expires tier adapters features limits) "" false.

Definition Community : TdtpLicense :=
  MkTdtpLicense (MkLicensePayload "Community" "" "" "community" ["sqlite"] [] (MkLimits 50000 1)) "" true.

Definition License_Load (files : Files) (path : string) : result license_error TdtpLicense :=
  if String.eqb path "" then Ok Community
  else
    match files path with
    | NoFile => Ok Community
    | ReadFailed => Err LicRead
    | FileBytes data => match license_unmarshal data with Some l => Ok l | None => Err LicParse end
    end.

Definition License_Expired (now : Z) (l : TdtpLicense) : bool :=
  let expires := lp_Expires (tl_payload l) in
  if String.eqb expires "" then false
  else match parse_day expires with None => true | Some exp => exp + one_day <? now end.

Definition License_VerifyWith (now : Z) (pub : string) (l : TdtpLicense) : result license_error unit :=
  if tl_community l then Ok ()
  else
    match b64_decode (tl_Signature l) with
    | None => Err LicBase64
    | Some sig =>
        fail_if negb (vendor_verify pub (license_json (tl_payload l)) sig) with LicSignature ;;
        fail_if License_Expired now l with LicExpired ;;
        Ok ()
    end.
(** [VendorPublicKey]: the key the binary embeds, if its PEM parses. *)
Definition VendorPublicKey (vendorPublicKeyPEM : string) : option string := parse_public vendorPublicKeyPEM.
Definition License_Verify (now : Z) (pem : string) (l : TdtpLicense) : result license_error unit :=
  if tl_community l then Ok ()
  else match VendorPublicKey pem with None => Err LicKey | Some pub => License_VerifyWith now pub l end.

Definition License_Sign (priv : string) (l : TdtpLicense) : TdtpLicense :=
  MkTdtpLicense (tl_payload l) (b64_encode (vendor_sign priv (license_json (tl_payload l)))) (tl_community l).

Context `{GC : GoCase}.
Definition AllowsAdapter (l : TdtpLicense) (name : string) : bool := existsb (fun x => EqualFold x name) (lp_Adapters (tl_payload l)).
Definition AllowsFeature (l : TdtpLicense) (name : string) : bool := existsb (fun x => EqualFold x name) (lp_Features (tl_payload l)).
Definition RowLimit (l : TdtpLicense) : Z := RowsPerExport (lp_Limits (tl_payload l)).
Definition PipelineLimit (l : TdtpLicense) : Z := Pipelines (lp_Limits (tl_payload l)).

(** ** license_gate.go: [active] is the licence of the process *)

Definition resolveLicensePath (flagPath env : string) (files : Files) : string :=
  if negb (String.eqb flagPath "") then flagPath
  else if negb (String.eqb env "") then env
  else match files "tdtp.lic" with NoFile => "" | _ => "tdtp.lic" end.
Definition ResolveLicense (now : Z) (pem flagPath env : string) (files : Files) : result license_error TdtpLicense :=
  lic ← License_Load files (resolveLicensePath flagPath env files);
  _ ← License_Verify now pem lic;
  Ok lic.
Definition ActiveLicense (active : option TdtpLicense) : TdtpLicense := default Community active.
Definition GateFeature (active : option TdtpLicense) (feature : string) : bool := AllowsFeature (ActiveLicense active) feature.
Definition GateAdapter (active : option TdtpLicense) (adapter : string) : bool := AllowsAdapter (ActiveLicense active) adapter.
Definition GateRowCount (active : option TdtpLicense) (rowCount : Z) : bool :=
  let limit := RowLimit (ActiveLicense active) in (limit =? 0) || (rowCount <=? limit).

(** What [main] asks of the licence before a command runs; the adapter is that of the configuration file. *)
Record CommandLine := MkCommandLine {
  cl_License : string; cl_Encrypt : bool; cl_Enc13 : bool; cl_Unsafe : bool; cl_DatabaseType : string;
}.
Inductive gate_error := LicenseRefused (e : license_error) | FeatureNotLicensed (feature : string) | AdapterNotLicensed (adapter : string).
Definition main_gates (now : Z) (pem env : string) (files : Files) (c : CommandLine) : result gate_error TdtpLicense :=
  match ResolveLicense now pem (cl_License c) env files with
  | Err e => Err (LicenseRefused e)
  | Ok lic =>
      fail_if (cl_Encrypt c || cl_Enc13 c) && negb (GateFeature (Some lic) "enc") with FeatureNotLicensed "enc" ;;
      fail_if cl_Unsafe c && negb (GateFeature (Some lic) "unsafe") with FeatureNotLicensed "unsafe" ;;
      fail_if negb (String.eqb (cl_DatabaseType c) "") && negb (GateAdapter (Some lic) (cl_DatabaseType c))
        with AdapterNotLicensed (cl_DatabaseType c) ;;
      Ok lic
  end.

(** ** cmd/tdtp-license/main.go *)

Fixpoint parseFlags (args : list string) (out : gmap string string) : gmap string string :=
  match args with
  | [] => out
  | a :: rest =>
      if negb (HasPrefix a "--") then parseFlags rest out
      else
        let k := drop_bytes 2 a in
        match cut_at "=" k with
        | Some (name, v) => parseFlags rest (<[name := v]> out)
        | None =>
            match rest with
            | next :: rest' =>
                if negb (HasPrefix next "--") then parseFlags rest' (<[k := next]> out) else parseFlags rest (<[k := "true"]> out)
            | [] => parseFlags rest (<[k := "true"]> out)
            end
        end
  end.
Definition flag (f : gmap string string) (name : string) : string := default "" (f !! name).

Inductive vendor_error := FlagRequired (name : string) | KeyUnreadable | WriteFailed | LicenceInvalid (e : license_error).
Definition req (f : gmap string string) (name : string) : result vendor_error string :=
  if String.eqb (flag f name) "" then Err (FlagRequired name) else Ok (flag f name).

Definition splitCSV (s : string) : list string :=
  if String.eqb s "" then [] else List.filter (fun t => negb (String.eqb t "")) (map TrimSpace (Split s ",")).
Definition orDefault (s def : string) : string := if String.eqb s "" then def else s.
Definition atoiDefault (s : string) (def : Z) : Z :=
  if String.eqb s "" then def else match ParseInt s with Ok n => n | Err _ => def end.

Definition loadPrivateKey (files : Files) (path : string) : option string :=
  match files path with FileBytes data => parse_private data | _ => None end.
Definition loadPublicKey (files : Files) (path : string) : option string :=
  match files path with FileBytes data => parse_public data | _ => None end.

(** The licence the flags of [issue] describe, unsigned. *)
Definition issue_license (f : gmap string string) : TdtpLicense :=
  License_New (flag f "licensee") (orDefault (flag f "issued") "") (flag f "expires") (orDefault (flag f "tier") "professional")
    (splitCSV (flag f "adapters")) (splitCSV (flag f "features"))
    (MkLimits (atoiDefault (flag f "rows") 0) (atoiDefault (flag f "pipelines") 0)).
Definition cmdIssue (args : list string) (writable : string -> bool) (files : Files) : result vendor_error Files :=
  let f := parseFlags args ∅ in
  keyPath ← req f "key";
  out ← req f "out";
  _ ← req f "licensee";
  _ ← req f "expires";
  match loadPrivateKey files keyPath with
  | None => Err KeyUnreadable
  | Some priv =>
      let lic := License_Sign priv (issue_license f) in
      fail_if negb (writable out) with WriteFailed ;;
      Ok (write_file out (license_file lic) files)
  end.

Definition cmdVerify (now : Z) (pem : string) (args : list string) (files : Files) : result vendor_error TdtpLicense :=
  let f := parseFlags args ∅ in
  path ← req f "in";
  match License_Load files path with
  | Err e => Err (LicenceInvalid e)
  | Ok lic =>
      let pubPath := flag f "pubkey" in
      let verdict :=
        if negb (String.eqb pubPath "")
        then match loadPublicKey files pubPath with None => Err KeyUnreadable
             | Some pub => match License_VerifyWith now pub lic with Ok _ => Ok lic | Err e => Err (LicenceInvalid e) end end
        else match License_Verify now pem lic with Ok _ => Ok lic | Err e => Err (LicenceInvalid e) end in
      verdict
  end.

(** ** cert.go *)

Inductive cap_error := CapLoad | CapKey | CapExpired | CapNoHost | CapHost | CapBase64 | CapSignature | CapAudit | CapReplay
  | CapRecord | CapNotAdmin.

Definition LoadCert (files : Files) (path : string) : option CapabilityCert :=
  match files path with FileBytes data => cap_unmarshal data | _ => None end.

Definition Cert_VerifyWith (now : Z) (hostname : option string) (pub : string) (c : CapabilityCert) : result cap_error unit :=
  let p := cc_payload c in
  fail_if cp_Expires p <? now with CapExpired ;;
  match hostname with
  | None => Err CapNoHost
  | Some host =>
      fail_if negb (String.eqb (cp_HostLock p) "") && negb (String.eqb (cp_HostLock p) host) with CapHost ;;
      match b64_decode (cc_Signature c) with
      | None => Err CapBase64
      | Some sig => fail_if negb (vendor_verify pub (cap_json p) sig) with CapSignature ;; Ok ()
      end
  end.
Definition Cert_Verify (now : Z) (hostname : option string) (pem : string) (c : CapabilityCert) : result cap_error unit :=
  match VendorPublicKey pem with None => Err CapKey | Some pub => Cert_VerifyWith now hostname pub c end.

Definition matchGlob (pattern name : string) : bool :=
  if String.eqb pattern "*" then true
  else
    match cut_at "*" pattern with
    | None => String.eqb pattern name
    | Some (prefix, suffix) =>
        match strip_prefix prefix name with
        | None => false
        | Some rest =>
            if String.eqb suffix "" then true else EndsWith rest suffix && (String.length suffix <=? String.length rest)%nat
        end
    end.
Definition CoversTable (c : CapabilityCert) (table : string) : bool :=
  let tables := cs_Tables (cp_Scope (cc_payload c)) in
  (length tables =? 0)%nat || existsb (fun pattern => matchGlob pattern table) tables.
End Licences.

(** ** audit.go *)

(** The time in RFC 3339; the JSON of an entry (with the host and the version of the process) and the nonce read from it. *)
Class AuditEnv := {
  audit_time : Z -> string;
  entry_json : Z -> string -> string -> string -> string;
  entry_nonce : string -> option string;
}.

Record AuditLog := MkAuditLog { al_path : string; al_format : string }.
Definition NewAuditLog (path format : string) : AuditLog := MkAuditLog path (if String.eqb format "" then "text" else format).
Definition DefaultAuditLog (env_path env_format : string) : AuditLog :=
  NewAuditLog (if String.eqb env_path "" then "./tdtp-audit.log" else env_path)
    (if String.eqb env_format "" then "text" else env_format).

(** The tokens of a [bufio.Scanner]: lines without their end; one that does not fit the buffer is an error. *)
Definition max_token : Z := 65536.
Fixpoint file_lines (cur log : string) : list string :=
  match log with
  | "" => if String.eqb cur "" then [] else [cur]
  | String c log' => if Ascii.eqb c LF then cur :: file_lines "" log' else file_lines (cur +:+ chr c) log'
  end.
Definition drop_cr (line : string) : string :=
  match str_rev line with String c r => if Ascii.eqb c "013" then str_rev r else line | "" => line end.

Section Audit.
  Context `{A : AuditEnv}.

Definition audit_line (format : string) (now : Z) (nonce operation issuedTo : string) : string :=
  if String.eqb format "json" then entry_json now nonce operation issuedTo +:+ chr LF
  else audit_time now +:+ " " +:+ nonce +:+ " " +:+ operation +:+ " " +:+ issuedTo +:+ chr LF.
Definition RecordNonce (a : AuditLog) (now : Z) (nonce operation issuedTo : string) (writable : string -> bool) (files : Files)
    : option Files :=
  if negb (writable (al_path a)) then None
  else
    let before := match files (al_path a) with FileBytes text => text | _ => "" end in
    Some (write_file (al_path a) (before +:+ audit_line (al_format a) now nonce operation issuedTo) files).

Definition line_has_nonce (format nonce line : string) : bool :=
  let as_text := match Fields line with _ :: second :: _ => String.eqb second nonce | _ => false end in
  if String.eqb line "" then false
  else if String.eqb format "json" then match entry_nonce line with Some n => String.eqb n nonce | None => as_text end
  else as_text.
Fixpoint scan_nonce (format nonce : string) (lines : list string) : option bool :=
  match lines with
  | [] => Some false
  | line :: lines =>
      if max_token <=? Z.of_nat (String.length line) then None
      else if line_has_nonce format nonce (drop_cr line) then Some true else scan_nonce format nonce lines
  end.
Definition HasNonce (a : AuditLog) (nonce : string) (files : Files) : option bool :=
  match files (al_path a) with
  | NoFile => Some false
  | ReadFailed => None
  | FileBytes text => scan_nonce (al_format a) nonce (file_lines "" text)
  end.

(** ** unsafe_gate.go: the files after the gate, and its verdict *)

Context `{L : LicenseEnv}.

(** What the process finds around it. *)
Record Surroundings := MkSurroundings {
  su_now : Z; su_hostname : option string; su_isAdmin : bool; su_writable : string -> bool; su_audit : AuditLog;
}.

Definition applyUnsafeGate (pem : string) (su : Surroundings) (certPath : string) (files : Files) : Files * result cap_error unit :=
  if String.eqb certPath "" then (files, if su_isAdmin su then Ok () else Err CapNotAdmin)
  else
    match LoadCert files certPath with
    | None => (files, Err CapLoad)
    | Some cert =>
        match Cert_Verify (su_now su) (su_hostname su) pem cert with
        | Err e => (files, Err e)
        | Ok _ =>
            let p := cc_payload cert in
            match HasNonce (su_audit su) (cp_Nonce p) files with
            | None => (files, Err CapAudit)
            | Some true => (files, Err CapReplay)
            | Some false =>
                match RecordNonce (su_audit su) (su_now su) (cp_Nonce p) (cp_Operation p) (cp_IssuedTo p) (su_writable su) files with
                | None => (files, Err CapRecord)
                | Some files' => (files', Ok ())
                end
            end
        end
    end.
End Audit.

(** ** The specifications *)

(** Graphic ASCII without a space, as the hexadecimal nonces and RFC 3339 times are. *)
Definition solid (s : string) : bool := all_bytes (byte_in "!" "~") s.

Class AuditEnvLaws (A : AuditEnv) : Prop := {
  audit_time_solid t : solid (audit_time t) = true /\ audit_time t <> "";
  entry_nonce_json t nonce op who : solid nonce = true -> entry_nonce (entry_json t nonce op who) = Some nonce;
  entry_json_object t nonce op who : exists body, entry_json t nonce op who = body +:+ "}" /\ has_byte LF body = false;
}.

(** A file of whole lines, or none. *)
Definition whole_lines (text : string) : Prop := text = "" \/ exists t, text = t +:+ chr LF.
Definition log_file (f : file_read) : Prop := match f with NoFile => True | ReadFailed => False | FileBytes t => whole_lines t end.

(** What happens to the files of a host: a gate runs, or something else writes a file. *)
Inductive host_event := Gate (su : Surroundings) (certPath : string) | OtherWrite (path data : string).

Section Hosts.
  Context `{A : AuditEnv} `{L : LicenseEnv}.

Definition host_step (pem : string) (files : Files) (e : host_event) : Files :=
  match e with
  | Gate su certPath => fst (applyUnsafeGate pem su certPath files)
  | OtherWrite path data => write_file path data files
  end.
Definition host_run (pem : string) (files : Files) (es : list host_event) : Files := fold_left (host_step pem) es files.

(** Every gate uses the audit log [a], and nothing else writes its file. *)
Definition keeps_log (a : AuditLog) (e : host_event) : Prop :=
  match e with Gate su _ => su_audit su = a | OtherWrite path _ => path <> al_path a end.

(** The nonce is found in the log, or the log is not readable to its end. *)
Definition spent (a : AuditLog) (nonce : string) (files : Files) : Prop := HasNonce a nonce files <> Some false.
End Hosts.

(** ** Lemmas *)

Lemma solid_no_space (c : ascii) (s : string) : byte_in "!" "~" c = true -> strip_first space_encodings (String c s) = None.
Proof. destruct c as [[] [] [] [] [] [] [] []]; try discriminate; intros _; reflexivity. Qed.

Lemma fields_solid (w r : string) (n : nat) (cur : string) :
  solid w = true -> fields_fuel (String.length w + S n) cur (w +:+ " " +:+ r) = flush_field (cur +:+ w) (fields_fuel n "" r).
Proof.
  revert cur; induction w as [|c w IH]; intros cur Hw.
  - cbn [String.length Nat.add]. change ("" +:+ " " +:+ r) with (String " " r). cbn [fields_fuel].
    unfold space_encodings at 1. cbn [map app strip_first]. rewrite HasPrefix_chr. by rewrite str_app_nil_r.
  - unfold solid in Hw. simpl in Hw. go_bool. cbn [String.length Nat.add fields_fuel].
    change (String c w +:+ " " +:+ r) with (String c (w +:+ " " +:+ r)). rewrite solid_no_space by done.
    rewrite IH by done. f_equal. by rewrite str_app_assoc.
Qed.

Lemma Fields_two (w1 w2 r : string) :
  solid w1 = true -> solid w2 = true -> w1 <> "" -> w2 <> "" ->
  exists rest, Fields (w1 +:+ " " +:+ w2 +:+ " " +:+ r) = w1 :: w2 :: rest.
Proof.
  intros H1 H2 N1 N2. unfold Fields.
  replace (S (String.length (w1 +:+ " " +:+ w2 +:+ " " +:+ r)))
    with (String.length w1 + S (String.length w2 + S (S (String.length r))))%nat
    by (rewrite !str_length_app; simpl; lia).
  rewrite fields_solid by done. rewrite fields_solid by done. unfold flush_field. cbn [String.append].
  apply String.eqb_neq in N1, N2. change ("" +:+ w1) with w1. change ("" +:+ w2) with w2. rewrite N1, N2. by eexists.
Qed.

Lemma file_lines_LF (a b cur : string) : file_lines cur (a +:+ chr LF +:+ b) = file_lines cur (a +:+ chr LF) ++ file_lines "" b.
Proof.
  revert cur; induction a as [|c a IH]; intros cur; [done|].
  change (String c a +:+ chr LF +:+ b) with (String c (a +:+ chr LF +:+ b)).
  change (String c a +:+ chr LF) with (String c (a +:+ chr LF)). cbn [file_lines].
  destruct (Ascii.eqb c LF); by rewrite IH.
Qed.

Lemma file_lines_app (a b : string) : whole_lines a -> file_lines "" (a +:+ b) = file_lines "" a ++ file_lines "" b.
Proof. intros [->|[t ->]]; [done|]. by rewrite str_app_assoc, file_lines_LF. Qed.

(** The first line of a text that has an end of line. *)
Lemma file_lines_first (w t cur : string) :
  has_byte LF w = false -> exists l rest, file_lines cur (w +:+ t +:+ chr LF) = (cur +:+ w +:+ l) :: rest.
Proof.
  revert cur; induction w as [|c w IH]; intros cur Hw.
  - change ("" +:+ t +:+ chr LF) with (t +:+ chr LF). revert cur; induction t as [|c t IHt]; intros cur.
    + exists "", []. cbn. by rewrite str_app_nil_r.
    + change (String c t +:+ chr LF) with (String c (t +:+ chr LF)). cbn [file_lines]. destruct (Ascii.eqb c LF).
      * exists ""; eexists. by rewrite str_app_nil_r.
      * destruct (IHt (cur +:+ chr c)) as (l & rest & E). exists (String c l), rest. rewrite E.
        by rewrite str_app_assoc.
  - simpl in Hw. go_bool. change (String c w +:+ t +:+ chr LF) with (String c (w +:+ t +:+ chr LF)). cbn [file_lines].
    destruct (Ascii.eqb_spec c LF); [done|].
    destruct (IH (cur +:+ chr c)) as (l & rest & E); [done|]. exists l, rest. rewrite E. by rewrite str_app_assoc.
Qed.

Lemma file_lines_one (w cur : string) : has_byte LF w = false -> file_lines cur (w +:+ chr LF) = [cur +:+ w].
Proof.
  revert cur; induction w as [|c w IH]; intros cur Hw; [cbn; by rewrite str_app_nil_r|].
  simpl in Hw. go_bool. change (String c w +:+ chr LF) with (String c (w +:+ chr LF)). cbn [file_lines].
  destruct (Ascii.eqb_spec c LF); [done|]. rewrite IH by done. by rewrite str_app_assoc.
Qed.

Lemma drop_cr_space (a b : string) : exists b', drop_cr (a +:+ " " +:+ b) = a +:+ " " +:+ b'.
Proof.
  unfold drop_cr. rewrite !str_rev_app, !str_app_assoc.
  destruct (str_rev b) as [|c r] eqn:E; [by exists b|]. change (String c r +:+ ?x) with (String c (r +:+ x)). cbn iota beta.
  destruct (Ascii.eqb c "013"); [|by exists b]. exists (str_rev r). by rewrite !str_rev_app, !str_rev_involutive, str_app_assoc.
Qed.

Lemma drop_cr_last (a : string) (c : ascii) : c <> "013"%char -> drop_cr (a +:+ chr c) = a +:+ chr c.
Proof.
  intros Hc. unfold drop_cr. rewrite str_rev_app. change (str_rev (chr c) +:+ str_rev a) with (String c (str_rev a)).
  cbn iota beta. apply Ascii.eqb_neq in Hc. by rewrite Hc.
Qed.

Lemma solid_has_byte (c : ascii) (s : string) : byte_in "!" "~" c = false -> solid s = true -> has_byte c s = false.
Proof. intros Hc Hs. by apply (all_bytes_has_byte (byte_in "!" "~")). Qed.

Lemma write_file_eq (path data : string) (files : Files) : write_file path data files path = FileBytes data.
Proof. unfold write_file. by rewrite String.eqb_refl. Qed.
Lemma write_file_ne (path p data : string) (files : Files) : p <> path -> write_file path data files p = files p.
Proof. unfold write_file. intros H. apply String.eqb_neq in H. by rewrite H. Qed.

Section AuditLemmas.
  Context `{A : AuditEnv} `{AL : !AuditEnvLaws A} `{L : LicenseEnv}.

Lemma scan_nonce_app (format nonce : string) (l1 l2 : list string) :
  scan_nonce format nonce (l1 ++ l2) = match scan_nonce format nonce l1 with Some false => scan_nonce format nonce l2 | r => r end.
Proof.
  induction l1 as [|x l1 IH]; [done|]. cbn [app scan_nonce]. destruct (max_token <=? Z.of_nat (String.length x)); [done|].
  by destruct (line_has_nonce format nonce (drop_cr x)).
Qed.

(** The line of an entry is found by its nonce. *)
Lemma text_line_found (format nonce l : string) (now : Z) :
  String.eqb format "json" = false -> solid nonce = true -> nonce <> "" ->
  line_has_nonce format nonce (drop_cr (audit_time now +:+ " " +:+ nonce +:+ " " +:+ l)) = true.
Proof.
  intros Hf Hs Hn. destruct (audit_time_solid now) as [Ht Htn].
  destruct (drop_cr_space (audit_time now +:+ " " +:+ nonce) l) as [l' E]. rewrite !str_app_assoc in E. rewrite E.
  unfold line_has_nonce. rewrite Hf. destruct (Fields_two (audit_time now) nonce l' Ht Hs Htn Hn) as [rest ->].
  rewrite String.eqb_refl. by destruct (audit_time now).
Qed.

Lemma audit_line_spent (format nonce op who : string) (now : Z) :
  solid nonce = true -> nonce <> "" -> scan_nonce format nonce (file_lines "" (audit_line format now nonce op who)) <> Some false.
Proof.
  intros Hs Hn. unfold audit_line. destruct (String.eqb format "json") eqn:Ef.
  - destruct (entry_json_object now nonce op who) as (body & E & Hb).
    rewrite file_lines_one by (by rewrite E, has_byte_app, Hb). change ("" +:+ ?x) with x.
    cbn [scan_nonce]. destruct (max_token <=? _); [done|].
    assert (drop_cr (entry_json now nonce op who) = entry_json now nonce op who) as -> by (rewrite E; by apply drop_cr_last).
    unfold line_has_nonce. rewrite Ef, entry_nonce_json, String.eqb_refl by done. rewrite E. by destruct body.
  - destruct (audit_time_solid now) as [Ht _].
    destruct (file_lines_first (audit_time now +:+ " " +:+ nonce +:+ " ") (op +:+ " " +:+ who) "") as (l & rest & El).
    { by rewrite !has_byte_app, (solid_has_byte LF (audit_time now)), (solid_has_byte LF nonce). }
    rewrite !str_app_assoc in El. rewrite El. cbn [scan_nonce]. destruct (max_token <=? _); [done|].
    change ("" +:+ ?x) with x. by rewrite text_line_found.
Qed.

Lemma audit_line_LF (format nonce op who : string) (now : Z) : exists t, audit_line format now nonce op who = t +:+ chr LF.
Proof.
  unfold audit_line. destruct (String.eqb format "json"); [by eexists|].
  exists (audit_time now +:+ " " +:+ nonce +:+ " " +:+ op +:+ " " +:+ who). by rewrite !str_app_assoc.
Qed.

(** Recording spends a nonce; what was spent stays so. *)
Lemma record_spent (a : AuditLog) (now : Z) (n op who nonce : string) (w : string -> bool) (files files' : Files) :
  RecordNonce a now n op who w files = Some files' -> log_file (files (al_path a)) ->
  log_file (files' (al_path a)) /\ (solid nonce = true -> nonce <> "" -> n = nonce \/ spent a nonce files -> spent a nonce files').
Proof.
  unfold RecordNonce, spent, HasNonce. destruct (negb _); [done|]. intros [= <-] Hlog. rewrite write_file_eq.
  set (line := audit_line _ _ _ _ _). destruct (audit_line_LF (al_format a) n op who now) as [t Et]. fold line in Et.
  destruct (files (al_path a)) as [| |text]; [|done|]; cbn [log_file] in *; change ("" +:+ ?x) with x.
  - split; [right; by exists t|]. intros Hs Hn [<-|Hf]; [by apply audit_line_spent|done].
  - split; [right; exists (text +:+ t); by rewrite Et, str_app_assoc|]. intros Hs Hn Hor.
    rewrite file_lines_app, scan_nonce_app by done.
    destruct (scan_nonce (al_format a) nonce (file_lines "" text)) as [[]|] eqn:E; [done| |done].
    destruct Hor as [<-|Hf]; [by apply audit_line_spent|done].
Qed.

(** A gate leaves the files alone, or it accepts a certificate whose nonce is not spent and records it. *)
Lemma gate_cases (pem : string) (su : Surroundings) (certPath : string) (files : Files) :
  (fst (applyUnsafeGate pem su certPath files) = files
   /\ (certPath <> "" -> snd (applyUnsafeGate pem su certPath files) <> Ok ()))
  \/ exists cert, LoadCert files certPath = Some cert /\ ~ spent (su_audit su) (cp_Nonce (cc_payload cert)) files
      /\ RecordNonce (su_audit su) (su_now su) (cp_Nonce (cc_payload cert)) (cp_Operation (cc_payload cert))
           (cp_IssuedTo (cc_payload cert)) (su_writable su) files = Some (fst (applyUnsafeGate pem su certPath files)).
Proof.
  unfold applyUnsafeGate, spent. destruct (String.eqb_spec certPath ""); [by left|].
  destruct (LoadCert files certPath) as [cert|]; [|by left].
  destruct (Cert_Verify _ _ _ cert); [|by left].
  destruct (HasNonce _ _ files) as [[]|] eqn:E; [by left| |by left].
  destruct (RecordNonce _ _ _ _ _ _ files) eqn:Er; [|by left]. right. exists cert. rewrite E. split_and!; [done|naive_solver|done].
Qed.

Lemma host_run_keeps (pem nonce : string) (a : AuditLog) (es : list host_event) (files : Files) :
  Forall (keeps_log a) es -> log_file (files (al_path a)) ->
  log_file (host_run pem files es (al_path a))
  /\ (solid nonce = true -> nonce <> "" -> spent a nonce files -> spent a nonce (host_run pem files es)).
Proof.
  revert files; induction es as [|e es IH]; intros files He Hl; [done|]. inversion_clear He as [|? ? He1 Hes].
  enough (log_file (host_step pem files e (al_path a))
    /\ (solid nonce = true -> nonce <> "" -> spent a nonce files -> spent a nonce (host_step pem files e))) as [H1 H2].
  { destruct (IH (host_step pem files e)) as [H3 H4]; [done..|]. split; [done|]. intros Hs Hn Hp. apply H4; auto. }
  destruct e as [su certPath|path data]; cbn [host_step keeps_log] in *.
  - subst a. destruct (gate_cases pem su certPath files) as [[-> _]|(cert & _ & _ & Hr)]; [done|].
    destruct (record_spent _ _ _ _ _ nonce _ _ _ Hr Hl) as [H1 H2]. split; [done|]. intros. apply H2; auto.
  - unfold spent, HasNonce. by rewrite write_file_ne.
Qed.
End AuditLemmas.

(** ** The theorems *)

(** C10. A capability certificate authorises one operation: once a gate has accepted a certificate with a graphic nonce, no
    later gate that uses the same audit log accepts any certificate with that nonce, whatever gates and writes of other files
    come between and in either format of the log. *)
Theorem capability_used_once `{A : AuditEnv} `{AL : !AuditEnvLaws A} `{L : LicenseEnv} (pem nonce path1 path2 : string)
    (a : AuditLog) (files : Files) (su1 su2 : Surroundings) (es : list host_event) (c1 c2 : CapabilityCert) :
  solid nonce = true -> nonce <> "" -> path1 <> "" -> path2 <> "" -> log_file (files (al_path a)) ->
  su_audit su1 = a -> su_audit su2 = a -> Forall (keeps_log a) es ->
  LoadCert files path1 = Some c1 -> cp_Nonce (cc_payload c1) = nonce ->
  snd (applyUnsafeGate pem su1 path1 files) = Ok () ->
  let later := host_run pem (fst (applyUnsafeGate pem su1 path1 files)) es in
  LoadCert later path2 = Some c2 -> cp_Nonce (cc_payload c2) = nonce ->
  snd (applyUnsafeGate pem su2 path2 later) <> Ok ().
Proof.
  intros Hs Hn Hp1 Hp2 Hl Ha1 Ha2 Hes Hc1 Hn1 Hok later Hc2 Hn2.
  destruct (gate_cases pem su1 path1 files) as [[_ H]|(c & Hc & _ & Hr)]; [by destruct H|].
  assert (c = c1) as -> by congruence. rewrite Ha1 in Hr.
  destruct (record_spent _ _ _ _ _ nonce _ _ _ Hr Hl) as [Hl' Hsp].
  destruct (host_run_keeps pem nonce a es _ Hes Hl') as [_ Hk]. fold later in Hk.
  destruct (gate_cases pem su2 path2 later) as [[_ H]|(c & Hc' & Hfresh & _)]; [by apply H|].
  exfalso. apply Hfresh. assert (c = c2) as -> by congruence. rewrite Ha2, Hn2. apply Hk, Hsp; auto.
Qed.

(** A nonce that is empty or has a space in it is in no line of a text log: such a certificate is accepted again and again
    while it is valid and the log can be read and written. *)
Theorem odd_nonce_replays `{A : AuditEnv} `{L : LicenseEnv} (pem certPath text : string) (su : Surroundings) (files : Files)
    (c : CapabilityCert) :
  certPath <> "" -> LoadCert files certPath = Some c -> Cert_Verify (su_now su) (su_hostname su) pem c = Ok () ->
  cp_Nonce (cc_payload c) = "" \/ has_byte " " (cp_Nonce (cc_payload c)) = true ->
  al_format (su_audit su) = "text" -> files (al_path (su_audit su)) = FileBytes text ->
  Forall (fun l => Z.of_nat (String.length l) < max_token) (file_lines "" text) -> su_writable su (al_path (su_audit su)) = true ->
  snd (applyUnsafeGate pem su certPath files) = Ok ().
Proof.
  intros Hp Hc Hv Hn Hf Ht Hl Hw. unfold applyUnsafeGate. apply String.eqb_neq in Hp. rewrite Hp, Hc, Hv.
  enough (HasNonce (su_audit su) (cp_Nonce (cc_payload c)) files = Some false) as -> by (unfold RecordNonce; by rewrite Hw).
  unfold HasNonce. rewrite Ht, Hf. induction Hl as [|x l Hx Hl IH]; [done|]. cbn [scan_nonce].
  apply Z.leb_gt in Hx. rewrite Hx. enough (line_has_nonce "text" (cp_Nonce (cc_payload c)) (drop_cr x) = false) as -> by done.
  unfold line_has_nonce. destruct (String.eqb (drop_cr x) ""); [done|]. cbn [String.eqb Ascii.eqb Bool.eqb].
  pose proof (Fields_plain (drop_cr x)) as HF. destruct (Fields (drop_cr x)) as [|f1 [|f2 fs]]; [done..|].
  inversion_clear HF as [|? ? _ HF']. inversion_clear HF' as [|? ? [Hne Hsp] _].
  change (String.eqb "text" "json") with false. cbn iota. apply String.eqb_neq. intros ->. destruct Hn; congruence.
Qed.

(** What the unsafe gate asks for, with nothing about the operation or the scope the certificate names. *)
Theorem unsafe_gate_correct `{A : AuditEnv} `{L : LicenseEnv} (pem certPath : string) (su : Surroundings) (files : Files) :
  snd (applyUnsafeGate pem su certPath files) = Ok () <->
  (certPath = "" /\ su_isAdmin su = true)
  \/ (certPath <> "" /\ exists c pub host sig,
        LoadCert files certPath = Some c /\ VendorPublicKey pem = Some pub /\ su_hostname su = Some host
        /\ su_now su <= cp_Expires (cc_payload c)
        /\ (cp_HostLock (cc_payload c) = "" \/ cp_HostLock (cc_payload c) = host)
        /\ b64_decode (cc_Signature c) = Some sig /\ vendor_verify pub (cap_json (cc_payload c)) sig = true
        /\ HasNonce (su_audit su) (cp_Nonce (cc_payload c)) files = Some false
        /\ su_writable su (al_path (su_audit su)) = true).
Proof.
  unfold applyUnsafeGate, Cert_Verify, Cert_VerifyWith, RecordNonce. destruct (String.eqb_spec certPath "") as [->|Hne].
  { destruct (su_isAdmin su); simpl; naive_solver. }
  split.
  - intros H. right. split; [done|]. destruct (LoadCert files certPath) as [c|]; [|done].
    destruct (VendorPublicKey pem) as [pub|]; [|done]. destruct (cp_Expires (cc_payload c) <? su_now su) eqn:Ee; [done|].
    destruct (su_hostname su) as [host|]; [|done]. destruct (_ && _) eqn:Eh; [done|].
    destruct (b64_decode (cc_Signature c)) as [sig|] eqn:Es; [|done]. destruct (vendor_verify _ _ sig) eqn:Ev; [|done].
    cbn [negb] in H. destruct (HasNonce _ _ files) as [[]|] eqn:En; [done| |done]. destruct (su_writable su _); [|done].
    exists c, pub, host, sig. split_and!; try done; [by apply Z.ltb_ge|].
    apply andb_false_iff in Eh as [?%negb_false_iff%String.eqb_eq|?%negb_false_iff%String.eqb_eq]; auto.
  - intros [[? _]|[_ (c & pub & host & sig & -> & -> & -> & He & Hh & -> & -> & -> & ->)]]; [done|].
    apply Z.ltb_ge in He. rewrite He.
    assert (negb (String.eqb (cp_HostLock (cc_payload c)) "") && negb (String.eqb (cp_HostLock (cc_payload c)) host) = false) as ->
      by (destruct Hh as [->| ->]; [done|by rewrite String.eqb_refl, andb_false_r]).
    done.
Qed.

Lemma EndsWith_iff (rest suffix : string) :
  EndsWith rest suffix && (String.length suffix <=? String.length rest)%nat = true <-> exists mid, rest = mid +:+ suffix.
Proof.
  split.
  - intros [H _]%andb_true_iff. apply HasPrefix_inv in H as [r Hr]. exists (str_rev r).
    rewrite <- (str_rev_involutive rest), Hr, str_rev_app. by rewrite str_rev_involutive.
  - intros [mid ->]. rewrite EndsWith_app, str_length_app. apply Nat.leb_le. lia.
Qed.

Lemma first_byte_inj (c : ascii) (p q p' q' : string) :
  has_byte c p = false -> has_byte c p' = false -> p +:+ chr c +:+ q = p' +:+ chr c +:+ q' -> p = p' /\ q = q'.
Proof.
  revert p'; induction p as [|d p IH]; intros [|e p'] H1 H2 E; simpl in H1, H2; go_bool; injection E; intros; subst; try done.
  destruct (IH p') as [-> ->]; done.
Qed.

(** A pattern with a star matches the names that start with what is before its first star and end, after that, with what
    follows it; a pattern without one matches itself. *)
Theorem matchGlob_correct (pattern name : string) :
  matchGlob pattern name = true <->
  (has_byte "*" pattern = false /\ pattern = name)
  \/ exists prefix suffix mid, has_byte "*" prefix = false /\ pattern = prefix +:+ "*" +:+ suffix /\ name = prefix +:+ mid +:+ suffix.
Proof.
  pose proof EndsWith_iff as Hend. pose proof (cut_at_spec "*" pattern) as Hcut.
  unfold matchGlob. destruct (String.eqb_spec pattern "*") as [->|Hstar].
  { split; [intros _|done]. right. exists "", "", name. split_and!; [done..|]. by rewrite str_app_nil_r. }
  destruct (cut_at "*" pattern) as [[p q]|].
  - destruct Hcut as [Hp ->]. rewrite has_byte_app. cbn [has_byte String.append]. split.
    + intros H. right. destruct (strip_prefix p name) as [rest|] eqn:E; [|done]. apply strip_prefix_eq in E as ->.
      exists p, q. destruct (String.eqb_spec q "") as [->|Hq]; [exists rest; split_and!; [done..|]; by rewrite str_app_nil_r|].
      apply Hend in H as [mid ->]. by exists mid.
    + intros [[H _]|(p' & q' & mid & Hp' & E & ->)]; [simpl in H; by rewrite orb_true_r in H|].
      apply first_byte_inj in E as [<- <-]; [|done..]. rewrite strip_prefix_app. destruct (String.eqb q ""); [done|]. apply Hend. by exists mid.
  - split; [intros ?%String.eqb_eq; by left|]. intros [[_ ->]|(p' & q' & mid & _ & -> & _)]; [apply String.eqb_refl|].
    rewrite has_byte_app in Hcut. apply orb_false_iff in Hcut as [_ H]. done.
Qed.

Section LicenceTheorems.
  Context `{L : LicenseEnv} `{LL : !LicenseEnvLaws L}.

Lemma verify_signed (now : Z) (priv pem : string) (l : TdtpLicense) :
  tl_community l = false -> VendorPublicKey pem = Some (vendor_public priv) ->
  License_Verify now pem (License_Sign priv l) = if License_Expired now l then Err LicExpired else Ok ().
Proof.
  intros Hc Hk. unfold License_Verify, License_VerifyWith, License_Sign. cbn [tl_community tl_payload tl_Signature].
  rewrite Hc, Hk, b64_decode_encode, vendor_verify_sign. done.
Qed.

Lemma req_inv (f : gmap string string) (name v : string) : req f name = Ok v -> v = flag f name /\ v <> "".
Proof. unfold req. destruct (String.eqb_spec (flag f name) ""); [done|]. by intros [= <-]. Qed.

Lemma issue_inv (args : list string) (w : string -> bool) (files files' : Files) :
  cmdIssue args w files = Ok files' ->
  let f := parseFlags args ∅ in
  exists priv, loadPrivateKey files (flag f "key") = Some priv /\ flag f "out" <> "" /\ flag f "expires" <> ""
    /\ files' = write_file (flag f "out") (license_file (License_Sign priv (issue_license f))) files.
Proof.
  intros H f. unfold cmdIssue in H. fold f in H. cbn zeta in H.
  destruct (req f "key") as [k|] eqn:Ek; [|done]. destruct (req f "out") as [o|] eqn:Eo; [|done].
  destruct (req f "licensee"); [|done]. destruct (req f "expires") as [x|] eqn:Ex; [|done]. simpl in H.
  apply req_inv in Ek as [-> _], Eo as [-> Ho], Ex as [-> Hx]. destruct (loadPrivateKey files (flag f "key")) as [priv|]; [|done].
  destruct (negb (w (flag f "out"))); [done|]. injection H as <-. by exists priv.
Qed.
End LicenceTheorems.

(** The licence of a process: the community floor only when there is no file at the path the flag, the environment or the
    directory give; otherwise a file whose signature verifies with the embedded key and whose last day has not ended.
    Everything else stops the process. *)
Theorem license_fails_closed `{L : LicenseEnv} `{LL : !LicenseEnvLaws L} (now : Z) (pem flagPath env : string) (files : Files)
    (l : TdtpLicense) :
  let path := resolveLicensePath flagPath env files in
  ResolveLicense now pem flagPath env files = Ok l <->
  (l = Community /\ (path = "" \/ files path = NoFile))
  \/ (exists data pub sig, path <> "" /\ files path = FileBytes data /\ license_unmarshal data = Some l
        /\ VendorPublicKey pem = Some pub /\ b64_decode (tl_Signature l) = Some sig
        /\ vendor_verify pub (license_json (tl_payload l)) sig = true
        /\ (lp_Expires (tl_payload l) = ""
            \/ exists day, parse_day (lp_Expires (tl_payload l)) = Some day /\ now <= day + one_day)).
Proof.
  intros path. unfold ResolveLicense. fold path. unfold License_Load, License_Verify, License_VerifyWith, License_Expired.
  destruct (String.eqb_spec path "") as [Hp|Hp].
  { simpl. split; [intros [= <-]; by left; auto|]. intros [[-> _]|(? & ? & ? & ? & _)]; done. }
  destruct (files path) as [| |data] eqn:Ef.
  { simpl. split; [intros [= <-]; by left; auto|]. intros [[-> _]|(? & ? & ? & ? & ? & _)]; done. }
  { simpl. split; [done|]. intros [[_ [?|?]]|(? & ? & ? & ? & ? & _)]; done. }
  split.
  - intros H. right. destruct (license_unmarshal data) as [l0|] eqn:Eu; [|done]. simpl in H.
    rewrite (license_unmarshal_floor _ _ Eu) in H. destruct (VendorPublicKey pem) as [pub|]; [|done].
    destruct (b64_decode (tl_Signature l0)) as [sig|] eqn:Es; [|done].
    destruct (vendor_verify pub _ sig) eqn:Ev; [|done]. cbn [negb] in H.
    destruct (String.eqb_spec (lp_Expires (tl_payload l0)) "") as [He|He].
    { injection H as <-. exists data, pub, sig. by split_and!; auto. }
    destruct (parse_day (lp_Expires (tl_payload l0))) as [day|] eqn:Ed; [|done].
    destruct (day + one_day <? now) eqn:El; [done|]. injection H as <-. apply Z.ltb_ge in El.
    exists data, pub, sig. split_and!; try done. right. by exists day.
  - intros [[_ [?|?]]|(d & pub & sig & _ & Hd & Hu & -> & Hs & Hv & Hx)]; [done..|]. injection Hd as <-.
    rewrite Hu. simpl. rewrite (license_unmarshal_floor _ _ Hu), Hs, Hv. cbn [negb].
    destruct Hx as [->|(day & Hday & Hle)]; [done|]. rewrite Hday. apply Z.ltb_ge in Hle. rewrite Hle.
    by destruct (String.eqb (lp_Expires (tl_payload l)) "").
Qed.

(** An entry of a comma-separated list, without the blanks around it. *)
Definition csv_entry (csv x : string) : Prop := exists part, part ∈ Split csv "," /\ x = TrimSpace part /\ x <> "".
(** The list has the name, up to letter case. *)
Definition csv_lists `{GoCase} (csv name : string) : Prop := exists x, csv_entry csv x /\ EqualFold x name = true.
(** The number a flag gives, 0 where it gives none. *)
Definition flag_number (text : string) : Z := match ParseInt text with Ok n => n | Err _ => 0 end.

Lemma splitCSV_entry (csv x : string) : x ∈ splitCSV csv <-> csv_entry csv x.
Proof.
  unfold splitCSV, csv_entry. destruct (String.eqb_spec csv "") as [->|_].
  - split; [by intros ?%elem_of_nil|]. intros (part & Hp & -> & Hne). change (Split "" ",") with [""] in Hp.
    apply list_elem_of_singleton in Hp as ->. by destruct Hne.
  - rewrite list_elem_of_In, filter_In, <- list_elem_of_In, list_elem_of_fmap, negb_true_iff, String.eqb_neq. naive_solver.
Qed.
Lemma splitCSV_lists `{GoCase} (csv name : string) : existsb (fun x => EqualFold x name) (splitCSV csv) = true <-> csv_lists csv name.
Proof.
  rewrite existsb_exists. unfold csv_lists. setoid_rewrite <- splitCSV_entry. by setoid_rewrite list_elem_of_In.
Qed.

(** The gates of [main] in the order of the source. *)
Lemma main_gates_ok `{L : LicenseEnv} `{GC : GoCase} (now : Z) (pem env : string) (files : Files) (c : CommandLine) (l : TdtpLicense) :
  main_gates now pem env files c = Ok l <->
  ResolveLicense now pem (cl_License c) env files = Ok l
  /\ ((cl_Encrypt c || cl_Enc13 c) = true -> AllowsFeature l "enc" = true) /\ (cl_Unsafe c = true -> AllowsFeature l "unsafe" = true)
  /\ (cl_DatabaseType c <> "" -> AllowsAdapter l (cl_DatabaseType c) = true).
Proof.
  unfold main_gates, check_. destruct (ResolveLicense _ _ _ _ _) as [lic|e]; [|naive_solver]. unfold GateFeature, GateAdapter. cbn [ActiveLicense default from_option].
  destruct (String.eqb_spec (cl_DatabaseType c) ""); destruct (cl_Encrypt c || cl_Enc13 c), (cl_Unsafe c); cbn [negb andb];
    repeat match goal with |- context [if negb ?b then _ else _] => destruct b eqn:?; cbn [negb] end; naive_solver congruence.
Qed.
Lemma issued_resolves `{L : LicenseEnv} `{LL : !LicenseEnvLaws L} (now : Z) (pem env priv out : string) (files : Files) (lic : TdtpLicense) (l : TdtpLicense)
    (signed := License_Sign priv lic) :
  VendorPublicKey pem = Some (vendor_public priv) -> text_payload (tl_payload lic) = true -> tl_community lic = false -> out <> "" ->
  ResolveLicense now pem out env (write_file out (license_file signed) files) = Ok l <-> l = signed /\ License_Expired now lic = false.
Proof.
  intros Hpub Ht Hcom Ho%String.eqb_neq. unfold ResolveLicense, resolveLicensePath, License_Load. rewrite Ho. cbn [negb].
  rewrite Ho, write_file_eq, license_unmarshal_file by done. cbn [mbind result_bind]. unfold signed. rewrite verify_signed by done.
  change (License_Expired now (License_Sign priv lic)) with (License_Expired now lic).
  destruct (License_Expired now lic); cbn; naive_solver.
Qed.

(** C28. A licence the vendor issues with the key whose public half the program embeds (its texts being valid UTF-8) is the licence of a
    process started with its file, from which the gates of [main] let exactly those command lines pass that it covers: the time is not
    past 24 hours after the start of the day of [--expires], encryption and the unsafe mode are used only if [--features] lists them, and
    the database of the configuration file, where it has one, is of a kind that [--adapters] lists, up to letter case and blanks.  The
    licence the process then has is the one issued: licensee, expiry, tier, features, adapters and limits are those of the flags.  (The
    gates see neither the adapters that a pipeline or mapping file names nor the number of rows.) *)
Theorem issued_license_gates `{L : LicenseEnv} `{LL : !LicenseEnvLaws L} `{GC : GoCase} (now : Z) (pem env priv : string)
    (args : list string) (w : string -> bool) (files files' : Files) (c : CommandLine) (f := parseFlags args ∅) :
  cmdIssue args w files = Ok files' -> loadPrivateKey files (flag f "key") = Some priv ->
  VendorPublicKey pem = Some (vendor_public priv) -> text_payload (tl_payload (issue_license f)) = true ->
  cl_License c = flag f "out" ->
  ((exists l, main_gates now pem env files' c = Ok l) <->
   (exists day, parse_day (flag f "expires") = Some day /\ now <= day + 24 * 3600 * 10 ^ 9)
   /\ ((cl_Encrypt c || cl_Enc13 c) = true -> csv_lists (flag f "features") "enc")
   /\ (cl_Unsafe c = true -> csv_lists (flag f "features") "unsafe")
   /\ (cl_DatabaseType c <> "" -> csv_lists (flag f "adapters") (cl_DatabaseType c)))
  /\ forall l, main_gates now pem env files' c = Ok l ->
     let p := tl_payload l in
     lp_Licensee p = flag f "licensee" /\ lp_Expires p = flag f "expires" /\ lp_Issued p = flag f "issued"
     /\ lp_Tier p = (if decide (flag f "tier" = "") then "professional" else flag f "tier")
     /\ (forall x, x ∈ lp_Features p <-> csv_entry (flag f "features") x) /\ (forall x, x ∈ lp_Adapters p <-> csv_entry (flag f "adapters") x)
     /\ lp_Limits p = MkLimits (flag_number (flag f "rows")) (flag_number (flag f "pipelines")).
Proof.
  intros Hi Hk Hpub Ht Hc. apply issue_inv in Hi as (priv' & Hk' & Ho & He & ->). fold f in Hk', Ho, He |- *.
  assert (priv' = priv) as -> by congruence.
  pose proof (fun l => issued_resolves now pem env priv (flag f "out") files (issue_license f) l Hpub Ht eq_refl Ho) as HR.
  setoid_rewrite main_gates_ok. rewrite Hc. setoid_rewrite HR. split.
  - assert (License_Expired now (issue_license f) = false <-> exists day, parse_day (flag f "expires") = Some day /\ now <= day + 24 * 3600 * 10 ^ 9) as <-.
    { unfold License_Expired. cbn [issue_license License_New tl_payload lp_Expires]. rewrite (proj2 (String.eqb_neq _ _) He). unfold one_day.
      destruct (parse_day (flag f "expires")) as [day|]; [|naive_solver]. rewrite Z.ltb_ge. naive_solver. }
    rewrite <- !splitCSV_lists. split; [intros (l & [-> Hx] & H); by split|]. intros [Hx H]. by eexists.
  - intros l [[-> _] _]. cbn [License_Sign issue_license License_New tl_payload lp_Licensee lp_Expires lp_Issued lp_Tier lp_Features lp_Adapters lp_Limits].
    split_and!; try done; [| |intros x; apply splitCSV_entry..|].
    + unfold orDefault. by destruct (String.eqb_spec (flag f "issued") "") as [->|].
    + unfold orDefault. by destruct (String.eqb_spec (flag f "tier") ""); case_decide.
    + unfold atoiDefault, flag_number. f_equal; [destruct (String.eqb_spec (flag f "rows") "") as [->|]|destruct (String.eqb_spec (flag f "pipelines") "") as [->|]]; done.
Qed.

(** ** Witnesses *)

(** A licence file is the number of its payload and signature in binary; the signature of a text is the key and the text. *)
Definition demo_tuple (l : TdtpLicense) :=
  let p := tl_payload l in
  (lp_Licensee p, lp_Issued p, lp_Expires p, lp_Tier p, lp_Adapters p, lp_Features p, RowsPerExport (lp_Limits p),
    Pipelines (lp_Limits p), tl_Signature l).
Definition demo_untuple t : TdtpLicense :=
  let '(licensee, issued, expires, tier, adapters, features, rows, pipelines, sig) := t in
  MkTdtpLicense (MkLicensePayload licensee issued expires tier adapters features (MkLimits rows pipelines)) sig false.
Definition demo_cert (nonce : string) : CapabilityCert :=
  MkCapabilityCert (MkCapPayload 100 "" 0 "ops" nonce "unsafe-sql" (MkCertScope ["sales_*"] "")) (b64_encode ("key" +:+ nonce)).
#[local] Instance demo_license_env : LicenseEnv := {
  vendor_verify pub m sig := String.eqb sig (pub +:+ m);
  vendor_sign k m := k +:+ m;
  vendor_public k := k;
  license_json p := lp_Licensee p;
  cap_json p := cp_Nonce p;
  license_file l := bits_of (encode (demo_tuple l));
  license_unmarshal s := demo_untuple <$> decode (of_bits s);
  cap_unmarshal s := Some (demo_cert s);
  parse_private := Some;
  parse_public := Some;
  parse_day _ := Some 50;
  valid_text _ := true;
}.

#[local] Instance demo_license_laws : LicenseEnvLaws demo_license_env.
Proof.
  split; [intros; apply String.eqb_refl| |].
  - intros [[? ? ? ? ? ? []] sig com] _ E. simpl in E. subst com. cbn [license_unmarshal license_file demo_license_env].
    rewrite of_bits_of, decode_encode. done.
  - intros s l. cbn [license_unmarshal demo_license_env]. destruct (decode (of_bits s)) as [[[[[[[[[? ?] ?] ?] ?] ?] ?] ?] ?]|]; [|done].
    by intros [= <-].
Qed.
#[local] Instance demo_audit_env : AuditEnv := {
  audit_time _ := "T";
  entry_json _ nonce _ _ := (if has_byte LF nonce then "" else nonce) +:+ "}";
  entry_nonce s := match str_rev s with String _ r => Some (str_rev r) | "" => None end;
}.

#[local] Instance demo_audit_laws : AuditEnvLaws demo_audit_env.
Proof.
  split; [done| |].
  - intros t nonce op who Hs. cbn [entry_nonce entry_json demo_audit_env]. rewrite (solid_has_byte LF nonce) by done.
    rewrite str_rev_app. change (str_rev "}" +:+ str_rev nonce) with (String "}" (str_rev nonce)). cbn iota beta.
    by rewrite str_rev_involutive.
  - intros t nonce op who. eexists; split; [reflexivity|]. by destruct (has_byte LF nonce) eqn:E.
Qed.

Definition demo_su (format : string) : Surroundings :=
  MkSurroundings 7 (Some "host") false (fun _ => true) (DefaultAuditLog "" format).
Definition demo_certs : Files := fun p => if String.eqb p "a.cert" then FileBytes "beef" else if String.eqb p "b.cert" then FileBytes "cafe" else NoFile.

Lemma capability_used_once_witness :
  let su := demo_su "json" in
  let later := host_run "key" (fst (applyUnsafeGate "key" su "a.cert" demo_certs)) [Gate su "b.cert"; OtherWrite "c.cert" "beef"] in
  snd (applyUnsafeGate "key" su "b.cert" demo_certs) = Ok () /\ snd (applyUnsafeGate "key" su "c.cert" later) <> Ok ().
Proof.
  split; [vm_compute; reflexivity|].
  apply (capability_used_once (A := demo_audit_env) (L := demo_license_env) "key" "beef" "a.cert" "c.cert"
    (su_audit (demo_su "json")) demo_certs (demo_su "json") (demo_su "json") [Gate (demo_su "json") "b.cert"; OtherWrite "c.cert" "beef"]
    (demo_cert "beef") (demo_cert "beef")); try (vm_compute; reflexivity); try discriminate.
  - repeat constructor. discriminate.
Defined.

Lemma odd_nonce_replays_witness :
  let files := write_file "./tdtp-audit.log" ("T  unsafe-sql ops" +:+ chr LF) (fun _ => FileBytes "") in
  snd (applyUnsafeGate "key" (demo_su "") "a.cert" files) = Ok ().
Proof.
  apply (odd_nonce_replays (A := demo_audit_env) (L := demo_license_env) "key" "a.cert" ("T  unsafe-sql ops" +:+ chr LF) (demo_su "")
    _ (demo_cert "")); try (vm_compute; reflexivity); [discriminate|by left|].
  repeat constructor.
Defined.

Definition demo_issue : list string :=
  ["--key"; "vendor.priv"; "--out=tdtp.lic"; "--licensee"; "Acme"; "--expires"; "2027-06-01"; "--adapters"; "postgres, MSSQL"; "--features"; "etl,enc"].
Definition demo_vendor : Files := fun p => if String.eqb p "vendor.priv" then FileBytes "key" else NoFile.
Definition demo_issued : Files := match cmdIssue demo_issue (fun _ => true) demo_vendor with Ok files => files | Err _ => demo_vendor end.

Lemma issued_license_gates_witness :
  exists l, main_gates (GC := ascii_case) 60 "key" "" demo_issued (MkCommandLine "tdtp.lic" true false false "mssql") = Ok l
    /\ lp_Tier (tl_payload l) = "professional".
Proof.
  destruct (issued_license_gates (L := demo_license_env) (LL := demo_license_laws) (GC := ascii_case) 60 "key" "" "key" demo_issue (fun _ => true) demo_vendor demo_issued
    (MkCommandLine "tdtp.lic" true false false "mssql") ltac:(reflexivity) ltac:(reflexivity) ltac:(reflexivity) ltac:(reflexivity) ltac:(reflexivity)) as [Hg Hl].
  destruct (proj2 Hg) as [l E].
  - split_and!.
    + exists 50. by split.
    + intros _. exists "enc". split; [exists "enc"; vm_compute; split; [by right; left|done]|reflexivity].
    + discriminate.
    + intros _. exists "MSSQL". split; [exists " MSSQL"; vm_compute; split; [by right; left|done]|reflexivity].
  - exists l. split; [exact E|]. exact (proj1 (proj2 (proj2 (proj2 (Hl l E))))).
Defined.

Lemma license_fails_closed_witness :
  ResolveLicense 60 "key" "" "" (fun _ => ReadFailed) = Err LicRead /\ ResolveLicense 60 "key" "" "missing.lic" demo_issued = Ok Community.
Proof.
  split; [reflexivity|]. apply (proj2 (license_fails_closed 60 "key" "" "missing.lic" demo_issued Community)).
  left. split; [reflexivity|]. right. reflexivity.
Defined.
