(* ===== verification/Orchestrator.v ===== *)
(** * Orchestrator: the scenario execution server (src/cmd/orchestrator)

    Scenarios, their approval and the trust gate; callers and roles; the tables of the database; the
    executor, whose jobs each run in a thread of their own; the scheduler; the handlers of the HTTP
    API.  A table is a map from its key, and its statements fail only on a constraint; the time
    stamps of the rows, which nothing reads, and the order and the limit of listings are left out.
    Templates, regular expressions, SHA-256, the LDAP directory and the cron table are interfaces;
    identifiers are drawn by the caller of an operation ([Draws]). *)

From Stdlib Require Import ZArith Lia Ascii String.
From stdpp Require Import base gmap list strings.
From S2P Require Import Prelude Strconv Encodings License.

Open Scope Z_scope.

Definition Params := gmap string string.

(** ** scenario.go *)

Record ParamDef := MkParamDef { pd_Name : string; pd_Required : bool; pd_Default : string; pd_Pattern : string }.
Record Scenario := MkScenario {
  sc_Name : string; sc_Params : list ParamDef; sc_Permissions : list string; sc_Runner : string; sc_RawYAML : string;
}.
Definition Scenes := gmap string Scenario.

(** What the sources call of the Go library. *)
Class OrchEnv := {
  sha256_hex : string -> string; (** [sha256.Sum256] in hexadecimal *)
  regexp_match : string -> string -> option bool; (** [regexp.MatchString(pattern, s)] *)
  template_execute : string -> Params -> option string; (** [text/template] with [missingkey=error] *)
  yaml_scenario : string -> option (string * list ParamDef * list string * string); (** the [orchestrator:] block *)
  dates_in : Z -> string -> string * string * string; (** month, date and yesterday at a time in a zone *)
}.

Inductive param_error := ParamMissing (name : string) | ParamBadPattern (name : string) | ParamMismatch (name : string).

Section Scenarios.
  Context `{OE : OrchEnv}.

(** The scenario of the bytes of a file, whose name without the extension is [base]. *)
Definition LoadScenario (base data : string) : option Scenario :=
  match yaml_scenario data with
  | None => None
  | Some (name, params, permissions, runner) =>
      Some (MkScenario (if String.eqb name "" then base else name) params permissions runner data)
  end.
Fixpoint load_scenes (files : list (string * string)) (scenes : Scenes) : option Scenes :=
  match files with
  | [] => Some scenes
  | (base, data) :: files => match LoadScenario base data with None => None | Some s => load_scenes files (<[sc_Name s := s]> scenes) end
  end.
Definition LoadScenariosDir (files : list (string * string)) : option Scenes := load_scenes files ∅.

Fixpoint validate_defs (defs : list ParamDef) (provided resolved : Params) : result param_error Params :=
  match defs with
  | [] => Ok resolved
  | def :: defs =>
      let val := default "" (provided !! pd_Name def) in
      fail_if String.eqb val "" && pd_Required def with ParamMissing (pd_Name def) ;;
      let val := if String.eqb val "" then pd_Default def else val in
      match (if negb (String.eqb (pd_Pattern def) "") && negb (String.eqb val "")
             then regexp_match ("^(?:" +:+ pd_Pattern def +:+ ")$") val else Some true) with
      | None => Err (ParamBadPattern (pd_Name def))
      | Some false => Err (ParamMismatch (pd_Name def))
      | Some true => validate_defs defs provided (<[pd_Name def := val]> resolved)
      end
  end.
Definition ValidateParams (s : Scenario) (provided : Params) : result param_error Params := validate_defs (sc_Params s) provided ∅.

Definition scenarioChecksum (s : Scenario) : string := sha256_hex (sc_RawYAML s).
End Scenarios.

(** ** preflight.go *)

Record MercuryStatus := MkMercuryStatus { ms_Dev : bool; ms_CAAuthorized : bool; ms_Permissions : list string }.
Record TrustGate := MkTrustGate { tg_License : TdtpLicense; tg_MercuryStatus : option MercuryStatus; tg_requireProd : bool }.
Inductive gate_refusal := GateLicense (e : license_error) | GateMercuryDown | GateMercuryDev | GateMercuryUnauthorized.

Section Gates.
  Context `{L : LicenseEnv} `{GC : GoCase}.

(** [status] is the answer of Mercury's /status, [None] when no URL is configured and [Some None] when the call fails. *)
Definition NewTrustGate (now : Z) (pem licensePath env : string) (files : Files) (status : option (option MercuryStatus))
    (requireProd : bool) : result gate_refusal TrustGate :=
  match ResolveLicense now pem licensePath env files with
  | Err e => Err (GateLicense e)
  | Ok lic =>
      match status with
      | None => Ok (MkTrustGate lic None requireProd)
      | Some None => Err GateMercuryDown
      | Some (Some st) =>
          fail_if requireProd && ms_Dev st with GateMercuryDev ;;
          fail_if requireProd && negb (ms_CAAuthorized st) with GateMercuryUnauthorized ;;
          Ok (MkTrustGate lic (Some st) requireProd)
      end
  end.

(** Every permission of the scenario is granted. *)
Definition GateScenario (g : TrustGate) (s : Scenario) : bool :=
  forallb (fun perm =>
    AllowsFeature (tg_License g) perm
    && match tg_MercuryStatus g with None => true | Some st => existsb (String.eqb perm) (ms_Permissions st) end)
    (sc_Permissions s).
Definition CheckPipelineLimit (g : TrustGate) (activeJobs : Z) : bool :=
  let limit := PipelineLimit (tg_License g) in (limit =? 0) || (activeJobs <? limit).
End Gates.

(** ** db.go *)

Inductive JobStatus := JobPending | JobRunning | JobDone | JobFailed | JobCancelled.
Inductive RequestStatus := ReqPending | ReqApproved | ReqRejected.
#[export] Instance JobStatus_eq_dec : EqDecision JobStatus.
Proof. solve_decision. Defined.
#[export] Instance RequestStatus_eq_dec : EqDecision RequestStatus.
Proof. solve_decision. Defined.

Record ScheduleRecord := MkScheduleRecord {
  sr_Scenario : string; sr_CronExpr : string; sr_Params : Params; sr_Timezone : string; sr_Enabled : bool; sr_LastStatus : string;
}.
Record Job := MkJob {
  j_ScheduleID : string; j_Scenario : string; j_Params : Params; j_Status : JobStatus; j_SubmittedBy : string; j_Runner : string;
  j_Log : string; j_Error : string; j_Artifact : option (string * string * Z); j_CancelledBy : string;
}.
Record TokenRow := MkTokenRow { tk_ID : string; tk_Name : string; tk_Role : string; tk_Scenarios : list string }.
Record ProjectRequest := MkProjectRequest {
  pr_Scenario : string; pr_Params : Params; pr_Title : string; pr_SubmitterID : string; pr_SubmitterName : string;
  pr_Status : RequestStatus; pr_ReviewNote : string; pr_ReviewedBy : string; pr_JobID : string;
}.
Record ScenarioApproval := MkScenarioApproval { sa_SHA256 : string; sa_ApprovedBy : string; sa_Enabled : bool }.

(** The tables by their primary keys; that of the tokens by its unique [token_hash]. *)
Record OrchestratorDB := MkOrchestratorDB {
  db_schedules : gmap string ScheduleRecord; db_jobs : gmap string Job; db_tokens : gmap string TokenRow;
  db_requests : gmap string ProjectRequest; db_scenarios : gmap string ScenarioApproval;
}.
Definition set_schedules f (d : OrchestratorDB) :=
  MkOrchestratorDB (f (db_schedules d)) (db_jobs d) (db_tokens d) (db_requests d) (db_scenarios d).
Definition set_jobs f (d : OrchestratorDB) :=
  MkOrchestratorDB (db_schedules d) (f (db_jobs d)) (db_tokens d) (db_requests d) (db_scenarios d).
Definition set_tokens f (d : OrchestratorDB) :=
  MkOrchestratorDB (db_schedules d) (db_jobs d) (f (db_tokens d)) (db_requests d) (db_scenarios d).
Definition set_requests f (d : OrchestratorDB) :=
  MkOrchestratorDB (db_schedules d) (db_jobs d) (db_tokens d) (f (db_requests d)) (db_scenarios d).
Definition set_scenarios f (d : OrchestratorDB) :=
  MkOrchestratorDB (db_schedules d) (db_jobs d) (db_tokens d) (db_requests d) (f (db_scenarios d)).

Definition UpsertSchedule (id : string) (r : ScheduleRecord) (d : OrchestratorDB) : OrchestratorDB :=
  let last := match db_schedules d !! id with Some old => sr_LastStatus old | None => "" end in
  set_schedules <[id := MkScheduleRecord (sr_Scenario r) (sr_CronExpr r) (sr_Params r) (sr_Timezone r) (sr_Enabled r) last]> d.
Definition SetEnabled (id : string) (enabled : bool) : OrchestratorDB -> OrchestratorDB :=
  set_schedules (alter (fun r => MkScheduleRecord (sr_Scenario r) (sr_CronExpr r) (sr_Params r) (sr_Timezone r) enabled (sr_LastStatus r)) id).
Definition DeleteSchedule (id : string) : OrchestratorDB -> OrchestratorDB := set_schedules (delete id).
Definition TouchScheduleRun (id status : string) : OrchestratorDB -> OrchestratorDB :=
  set_schedules (alter (fun r => MkScheduleRecord (sr_Scenario r) (sr_CronExpr r) (sr_Params r) (sr_Timezone r) (sr_Enabled r) status) id).

Definition InsertJob (id : string) (j : Job) (d : OrchestratorDB) : option OrchestratorDB :=
  match db_jobs d !! id with Some _ => None | None => Some (set_jobs <[id := j]> d) end.
Definition MarkCancelRequested (id requestedBy : string) : OrchestratorDB -> OrchestratorDB :=
  set_jobs (alter (fun j => MkJob (j_ScheduleID j) (j_Scenario j) (j_Params j) (j_Status j) (j_SubmittedBy j) (j_Runner j) (j_Log j)
    (j_Error j) (j_Artifact j) requestedBy) id).
Definition UpdateJobDone (id : string) (status : JobStatus) (log errMsg : string) : OrchestratorDB -> OrchestratorDB :=
  set_jobs (alter (fun j => MkJob (j_ScheduleID j) (j_Scenario j) (j_Params j) status (j_SubmittedBy j) (j_Runner j) log errMsg
    (j_Artifact j) (j_CancelledBy j)) id).
Definition UpdateJobStatus (id : string) (status : JobStatus) : OrchestratorDB -> OrchestratorDB :=
  set_jobs (alter (fun j => MkJob (j_ScheduleID j) (j_Scenario j) (j_Params j) status (j_SubmittedBy j) (j_Runner j) (j_Log j) (j_Error j)
    (j_Artifact j) (j_CancelledBy j)) id).
Definition UpdateJobArtifact (id path sha : string) (size : Z) : OrchestratorDB -> OrchestratorDB :=
  set_jobs (alter (fun j => MkJob (j_ScheduleID j) (j_Scenario j) (j_Params j) (j_Status j) (j_SubmittedBy j) (j_Runner j) (j_Log j)
    (j_Error j) (Some (path, sha, size)) (j_CancelledBy j)) id).
Definition active_status (s : JobStatus) : Prop := s = JobPending \/ s = JobRunning.
#[export] Instance active_status_dec (s : JobStatus) : Decision (active_status s).
Proof. unfold active_status. apply _. Defined.
Definition CountActiveJobs (d : OrchestratorDB) : Z := Z.of_nat (size (filter (fun kv => active_status (j_Status kv.2)) (db_jobs d))).
Definition ListJobsByScenario (scenario : string) (d : OrchestratorDB) : gmap string Job :=
  filter (fun kv => j_Scenario kv.2 = scenario) (db_jobs d).

Definition InsertToken (id hash name role : string) (scenarios : list string) (d : OrchestratorDB) : option OrchestratorDB :=
  if bool_decide (map_Exists (fun h t => h = hash \/ tk_ID t = id) (db_tokens d)) then None
  else Some (set_tokens <[hash := MkTokenRow id name role scenarios]> d).
Definition GetTokenByHash (hash : string) (d : OrchestratorDB) : option TokenRow := db_tokens d !! hash.
Definition DeleteToken (id : string) : OrchestratorDB -> OrchestratorDB := set_tokens (filter (fun kv => tk_ID kv.2 <> id)).
Definition CountTokens (d : OrchestratorDB) : nat := size (db_tokens d).

Definition InsertRequest (id : string) (r : ProjectRequest) (d : OrchestratorDB) : option OrchestratorDB :=
  match db_requests d !! id with Some _ => None | None => Some (set_requests <[id := r]> d) end.
Definition request_status (s : RequestStatus) : string :=
  match s with ReqPending => "pending" | ReqApproved => "approved" | ReqRejected => "rejected" end.
Definition ListRequests (status submitterID : string) (d : OrchestratorDB) : gmap string ProjectRequest :=
  filter (fun kv => (status = "" \/ request_status (pr_Status kv.2) = status)
                    /\ (submitterID = "" \/ pr_SubmitterID kv.2 = submitterID)) (db_requests d).
Definition ReviewRequest (id : string) (status : RequestStatus) (reviewedBy note jobID : string) : OrchestratorDB -> OrchestratorDB :=
  set_requests (alter (fun r => MkProjectRequest (pr_Scenario r) (pr_Params r) (pr_Title r) (pr_SubmitterID r) (pr_SubmitterName r)
    status note reviewedBy jobID) id).

Definition UpsertScenarioApproval (name sha approvedBy : string) : OrchestratorDB -> OrchestratorDB :=
  set_scenarios <[name := MkScenarioApproval sha approvedBy true]>.
Definition GetScenarioApproval (name : string) (d : OrchestratorDB) : option ScenarioApproval := db_scenarios d !! name.
Definition DeleteScenarioApproval (name : string) : OrchestratorDB -> OrchestratorDB := set_scenarios (delete name).

(** scenario_approval.go *)
Inductive approval_error := NotApproved | ApprovalRevoked | ContentChanged.
Definition VerifyScenarioChecksum `{OrchEnv} (d : OrchestratorDB) (s : Scenario) : result approval_error unit :=
  match GetScenarioApproval (sc_Name s) d with
  | None => Err NotApproved
  | Some approval =>
      fail_if negb (sa_Enabled approval) with ApprovalRevoked ;;
      fail_if negb (String.eqb (scenarioChecksum s) (sa_SHA256 approval)) with ContentChanged ;;
      Ok ()
  end.

(** ** auth.go *)

Definition RoleConsumer : string := "consumer".
Definition RoleActivator : string := "activator".
Definition RoleAdmin : string := "admin".
Definition roleRank (role : string) : Z :=
  if String.eqb role RoleConsumer then 1 else if String.eqb role RoleActivator then 2 else if String.eqb role RoleAdmin then 3 else 0.

Record Principal := MkPrincipal { p_TokenID : string; p_Name : string; p_Role : string; p_Scenarios : list string }.
Definition AllowsScenario (p : Principal) (name : string) : bool :=
  (length (p_Scenarios p) =? 0)%nat || existsb (fun s => String.eqb s name) (p_Scenarios p).

Definition bearerToken (authorization : string) : string :=
  match strip_prefix "Bearer " authorization with Some t => TrimSpace t | None => "" end.
Definition basicAuth (authorization : string) : string * string :=
  match strip_prefix "Basic " authorization with
  | None => ("", "")
  | Some t => match b64_decode (TrimSpace t) with None => ("", "") | Some decoded => default ("", "") (cut_at ":" decoded) end
  end.

Record LDAPConfig := MkLDAPConfig {
  lc_URL : string; lc_BindDN : string; lc_BindPass : string; lc_BaseDN : string; lc_RoleMap : gmap string string; lc_DefaultRole : string;
}.

(** The LDAP server: the connections it accepts, its binds, and the entries a search for an account name under a base finds, each
    a distinguished name and its [memberOf] values. *)
Class Directory := {
  ldap_dial : string -> bool;
  ldap_bind : string -> string -> bool;
  ldap_search : string -> string -> option (list (string * list string));
}.

Definition best_role (roleMap : gmap string string) (best : string * Z) (g : string) : string * Z :=
  match roleMap !! g with
  | Some r => if best.2 <? roleRank r then (r, roleRank r) else best
  | None => best
  end.
Definition roleForGroups (cfg : LDAPConfig) (groups : list string) : option string :=
  let '(best, bestRank) := fold_left (best_role (lc_RoleMap cfg)) groups ("", 0) in
  if 0 <? bestRank then Some best else if negb (String.eqb (lc_DefaultRole cfg) "") then Some (lc_DefaultRole cfg) else None.

Inductive AuthMode := NoAuth | TokenAuth | LdapAuth (cfg : LDAPConfig).
Definition setupAuth (authType ldapURL ldapBindDN ldapBindPass ldapBaseDN : string) (noAuth : bool) : AuthMode :=
  if String.eqb authType "ldap" then LdapAuth (MkLDAPConfig ldapURL ldapBindDN ldapBindPass ldapBaseDN ∅ RoleConsumer)
  else if noAuth then NoAuth else TokenAuth.

Section Auth.
  Context `{OE : OrchEnv} `{D : Directory}.

Definition hashToken (raw : string) : string := sha256_hex raw.

Definition ldap_principal (cfg : LDAPConfig) (authorization : string) : option Principal :=
  let '(username, password) := basicAuth authorization in
  if String.eqb username "" || String.eqb password "" then None
  else if negb (ldap_dial (lc_URL cfg)) then None
  else if negb (String.eqb (lc_BindDN cfg) "") && negb (ldap_bind (lc_BindDN cfg) (lc_BindPass cfg)) then None
  else
    match ldap_search (lc_BaseDN cfg) username with
    | Some ((userDN, groups) :: _) =>
        if negb (ldap_bind userDN password) then None
        else match roleForGroups cfg groups with None => None | Some role => Some (MkPrincipal "" username role []) end
    | _ => None
    end.

(** The middleware: the caller, or 401. *)
Definition authenticate (mode : AuthMode) (authorization : string) (d : OrchestratorDB) : option Principal :=
  match mode with
  | NoAuth => Some (MkPrincipal "" "dev" RoleAdmin [])
  | TokenAuth =>
      let raw := bearerToken authorization in
      if String.eqb raw "" then None
      else match GetTokenByHash (hashToken raw) d with
           | None => None
           | Some rec => Some (MkPrincipal (tk_ID rec) (tk_Name rec) (tk_Role rec) (tk_Scenarios rec))
           end
  | LdapAuth cfg => ldap_principal cfg authorization
  end.
Definition RequireRole (min : string) (p : Principal) : bool := roleRank min <=? roleRank (p_Role p).

Definition CreateToken (id raw name role : string) (scenarios : list string) (d : OrchestratorDB) : option OrchestratorDB :=
  InsertToken id (hashToken raw) name role scenarios d.
Definition BootstrapAdminToken (id raw : string) (d : OrchestratorDB) : option OrchestratorDB :=
  if (0 <? CountTokens d)%nat then Some d else InsertToken id (hashToken raw) "bootstrap-admin" RoleAdmin [] d.
End Auth.

(** ** runners.go *)

Record RunnerSpec := MkRunnerSpec { rs_Binary : string; rs_Args : list string }.
Definition Runners := gmap string RunnerSpec.
Definition resolveRunnerName (s : Scenario) (defaultRunner : string) : string :=
  if negb (String.eqb (sc_Runner s) "") then sc_Runner s else defaultRunner.
Definition ValidateScenarioRunners (scenes : Scenes) (runners : Runners) (defaultRunner : string) : bool :=
  bool_decide (map_Forall (fun _ s => is_Some (runners !! resolveRunnerName s defaultRunner)) scenes).
Definition renderArgs `{OrchEnv} (argTemplates : list string) (tmpFile : string) (params : Params) : option (list string) :=
  mapM (fun a => template_execute a (<["tmpfile" := tmpFile]> params)) argTemplates.

(** ** executor.go *)

Definition strip_quotes (val : string) : string :=
  match val with
  | String c rest =>
      if (2 <=? String.length val)%nat && (Ascii.eqb c "034" || Ascii.eqb c "'")
      then str_rev (drop_bytes 1 (str_rev rest)) else val
  | "" => val
  end.
Fixpoint output_of_lines (lines : list string) : string :=
  match lines with
  | [] => ""
  | line :: lines =>
      match strip_prefix "output:" (TrimSpace line) with
      | None => output_of_lines lines
      | Some v => let val := strip_quotes (TrimSpace v) in if Contains val "://" then "" else val
      end
  end.
Definition extractOutputPath (yaml : string) : string := output_of_lines (Split yaml LF).

(** Where the goroutine of a job is: before the lock, about to record a cancellation, about to record that it runs, in the
    subprocess, with its result, with the status it will record, about to record the artifact, about to clean up. *)
Inductive ThreadPC :=
| AtLock | RecordCancelled | RecordRunning | InProcess | Returned (out : string) (err : option string)
| RecordDone (status : JobStatus) (log errMsg : string) | RecordArtifact (status : JobStatus) | Cleanup.
Record Thread := MkThread {
  th_pc : ThreadPC; th_cancelled : bool; (** the context of the job *)
  th_binary : string; th_args : list string; th_rendered : string; (** what the temporary file holds *)
}.

(** What an operation draws and meets outside. *)
Record Draws := MkDraws { dr_tmp : string; dr_tmp_ok : bool; dr_job : string }.

Record Executor := MkExecutor {
  ex_runners : Runners; ex_defaultRunner : string; ex_tmpDir : string;
}.

(** The registry holds whether a live job has started. *)
Record ExecState := MkExecState { ex_db : OrchestratorDB; ex_registry : gmap string bool; ex_threads : gmap string Thread }.
Definition on_db f (x : ExecState) : ExecState := MkExecState (f (ex_db x)) (ex_registry x) (ex_threads x).
Definition set_thread (id : string) (t : Thread) (x : ExecState) : ExecState :=
  MkExecState (ex_db x) (ex_registry x) (<[id := t]> (ex_threads x)).
Definition set_pc (pc : ThreadPC) (t : Thread) : Thread := MkThread pc (th_cancelled t) (th_binary t) (th_args t) (th_rendered t).

Inductive submit_error := RenderFailed | TmpFailed | UnknownRunner | RenderArgsFailed | PersistFailed.

Section Execution.
  Context `{OE : OrchEnv}.

Definition Submit (e : Executor) (s : Scenario) (params : Params) (scheduleID submittedBy : string) (dr : Draws) (x : ExecState)
    : result submit_error ExecState :=
  match template_execute (sc_RawYAML s) params with
  | None => Err RenderFailed
  | Some rendered =>
      let tmpFile := ex_tmpDir e +:+ "/pipeline-" +:+ dr_tmp dr +:+ ".yaml" in
      fail_if negb (dr_tmp_ok dr) with TmpFailed ;;
      let runnerName := resolveRunnerName s (ex_defaultRunner e) in
      match ex_runners e !! runnerName with
      | None => Err UnknownRunner
      | Some spec =>
          match renderArgs (rs_Args spec) tmpFile params with
          | None => Err RenderArgsFailed
          | Some runArgs =>
              match InsertJob (dr_job dr) (MkJob scheduleID (sc_Name s) params JobPending submittedBy runnerName "" "" None "") (ex_db x) with
              | None => Err PersistFailed
              | Some db =>
                  Ok (MkExecState db (<[dr_job dr := false]> (ex_registry x))
                        (<[dr_job dr := MkThread AtLock false (rs_Binary spec) runArgs rendered]> (ex_threads x)))
              end
          end
      end
  end.

Definition maxJobLogBytes : nat := (64 * 1024)%nat.
Definition job_log (logPath out : string) : string :=
  if (maxJobLogBytes <? String.length out)%nat
  then "[truncated — full log: " +:+ logPath +:+ "]" +:+ chr LF +:+ drop_bytes (String.length out - maxJobLogBytes) out
  else out.

(** One step of the goroutine of a job: [exit] is what the subprocess gives, [hash] the file it wrote. *)
Definition thread_step (id : string) (logPath : string) (exit : string * option string) (hash : string -> option (string * Z))
    (x : ExecState) : ExecState :=
  match ex_threads x !! id with
  | None => x
  | Some t =>
      match th_pc t with
      | AtLock =>
          if th_cancelled t then set_thread id (set_pc RecordCancelled t) x
          else MkExecState (ex_db x) (<[id := true]> (ex_registry x)) (<[id := set_pc RecordRunning t]> (ex_threads x))
      | RecordCancelled => set_thread id (set_pc Cleanup t) (on_db (UpdateJobDone id JobCancelled "" "") x)
      | RecordRunning => set_thread id (set_pc InProcess t) (on_db (UpdateJobStatus id JobRunning) x)
      | InProcess => set_thread id (set_pc (Returned exit.1 exit.2) t) x
      | Returned out err =>
          let '(status, errMsg) :=
            if th_cancelled t then (JobCancelled, "") else match err with Some msg => (JobFailed, msg) | None => (JobDone, "") end in
          set_thread id (set_pc (RecordDone status (job_log logPath out) errMsg) t) x
      | RecordDone status log errMsg => set_thread id (set_pc (RecordArtifact status) t) (on_db (UpdateJobDone id status log errMsg) x)
      | RecordArtifact status =>
          let outputPath := extractOutputPath (th_rendered t) in
          let x' := if bool_decide (status = JobDone) && negb (String.eqb outputPath "")
                    then match hash outputPath with Some (sha, size) => on_db (UpdateJobArtifact id outputPath sha size) x | None => x end
                    else x in
          set_thread id (set_pc Cleanup t) x'
      | Cleanup => MkExecState (ex_db x) (delete id (ex_registry x)) (delete id (ex_threads x))
      end
  end.

Inductive job_error := ErrJobNotFound | ErrJobNotPending | ErrJobNotRunning.

(** The critical section of [Cancel], and the signal of [Stop]. *)
Definition cancel_context (id : string) (x : ExecState) : ExecState :=
  MkExecState (ex_db x) (ex_registry x)
    (alter (fun t => MkThread (th_pc t) true (th_binary t) (th_args t) (th_rendered t)) id (ex_threads x)).
Definition cancel_locked (id : string) (x : ExecState) : result job_error ExecState :=
  match ex_registry x !! id with
  | None => Err ErrJobNotFound
  | Some true => Err ErrJobNotPending
  | Some false => Ok (cancel_context id x)
  end.
Definition Cancel (id requestedBy : string) (x : ExecState) : result job_error ExecState :=
  match db_jobs (ex_db x) !! id with
  | None => Err ErrJobNotFound
  | Some job =>
      fail_if bool_decide (j_Status job <> JobPending) with ErrJobNotPending ;;
      x' ← cancel_locked id x;
      Ok (on_db (MarkCancelRequested id requestedBy) x')
  end.
Definition Stop (id requestedBy : string) (x : ExecState) : result job_error ExecState :=
  match db_jobs (ex_db x) !! id with
  | None => Err ErrJobNotFound
  | Some job =>
      fail_if bool_decide (j_Status job <> JobRunning) with ErrJobNotRunning ;;
      match ex_registry x !! id with
      | None => Err ErrJobNotRunning
      | Some _ => Ok (on_db (MarkCancelRequested id requestedBy) (cancel_context id x))
      end
  end.
End Execution.

(** ** scheduler.go *)

(** robfig/cron: the table of entries.  Adding fails on an expression that does not parse. *)
Class CronLib := {
  cron_table : Type;
  cron_new : cron_table;
  cron_add : string -> cron_table -> option (nat * cron_table);
  cron_remove : nat -> cron_table -> cron_table;
  cron_has : cron_table -> nat -> bool;
}.
Class CronLibLaws (C : CronLib) : Prop := {
  cron_has_new k : cron_has cron_new k = false;
  cron_has_add expr t i t' k : cron_add expr t = Some (i, t') -> cron_has t i = false /\ cron_has t' k = (k =? i)%nat || cron_has t k;
  cron_add_parses expr t t' : is_Some (cron_add expr t) -> is_Some (cron_add expr t');
  cron_has_remove i t k : cron_has (cron_remove i t) k = negb (k =? i)%nat && cron_has t k;
}.

(** What the function of an entry closes over. *)
Record CronEntry := MkCronEntry { ce_schedID : string; ce_scene : Scenario; ce_params : Params; ce_tz : string }.

Definition resolveMagicParams `{OrchEnv} (params : Params) (tz : string) (now : Z) : Params :=
  let '(month, date, yesterday) := dates_in now tz in
  (fun v => ReplaceAll (ReplaceAll (ReplaceAll v "{{current_month}}" month) "{{current_date}}" date) "{{yesterday}}" yesterday) <$> params.

(** pubsub.go *)
Record SubscriptionDef := MkSubscriptionDef { sd_ResultName : string; sd_Scenario : string; sd_OnStatus : list string; sd_Params : Params }.
Definition LoadPubSub (subs : list SubscriptionDef) : option (list SubscriptionDef) :=
  if existsb (fun s => String.eqb (sd_ResultName s) "" || String.eqb (sd_Scenario s) "") subs then None
  else Some (map (fun s => if (length (sd_OnStatus s) =? 0)%nat
                           then MkSubscriptionDef (sd_ResultName s) (sd_Scenario s) ["success"] (sd_Params s) else s) subs).
Definition ValidatePubSubScenarios (subs : list SubscriptionDef) (scenes : Scenes) : bool :=
  forallb (fun s => bool_decide (is_Some (scenes !! sd_Scenario s))) subs.
Definition subscriptions (subs : list SubscriptionDef) : gmap string SubscriptionDef :=
  fold_left (fun byName s => <[sd_ResultName s := s]> byName) subs ∅.
Definition statusAllowed (status : string) (allowed : list string) : bool := existsb (fun a => String.eqb a status) allowed.

(** What a server is started with. *)
Record Deps := MkDeps {
  d_scenes : Scenes; d_executor : Executor; d_gate : TrustGate; d_auth : AuthMode; d_subs : list SubscriptionDef;
}.

Record Server `{CronLib} := MkServer {
  sv_exec : ExecState; sv_cron : cron_table; sv_funcs : gmap nat CronEntry; sv_entryIDs : gmap string nat;
}.

Inductive sched_error := ScenarioNotFound | BadCronExpr.

Section Scheduling.
  Context `{OE : OrchEnv} `{C : CronLib} `{GC : GoCase}.

Definition sv_db (sv : Server) : OrchestratorDB := ex_db (sv_exec sv).
Definition set_exec (x : ExecState) (sv : Server) : Server := MkServer _ x (sv_cron sv) (sv_funcs sv) (sv_entryIDs sv).
Definition with_db (f : OrchestratorDB -> OrchestratorDB) (sv : Server) : Server := set_exec (on_db f (sv_exec sv)) sv.

Definition register (d : Deps) (id : string) (r : ScheduleRecord) (sv : Server) : result sched_error Server :=
  match d_scenes d !! sr_Scenario r with
  | None => Err ScenarioNotFound
  | Some scene =>
      match cron_add (sr_CronExpr r) (sv_cron sv) with
      | None => Err BadCronExpr
      | Some (entryID, t) =>
          Ok (MkServer _ (sv_exec sv) t (<[entryID := MkCronEntry id scene (sr_Params r) (sr_Timezone r)]> (sv_funcs sv))
                (<[id := entryID]> (sv_entryIDs sv)))
      end
  end.

(** The function of an entry. *)
Definition cron_run (d : Deps) (e : CronEntry) (now : Z) (dr : Draws) (sv : Server) : Server :=
  let resolved := resolveMagicParams (ce_params e) (ce_tz e) now in
  let '(status, x) :=
    match ValidateParams (ce_scene e) resolved with
    | Err _ => ("failed", sv_exec sv)
    | Ok resolvedParams =>
        match VerifyScenarioChecksum (sv_db sv) (ce_scene e) with
        | Err _ => ("failed", sv_exec sv)
        | Ok _ =>
            if negb (GateScenario (d_gate d) (ce_scene e)) then ("failed", sv_exec sv)
            else match Submit (d_executor d) (ce_scene e) resolvedParams (ce_schedID e) "" dr (sv_exec sv) with
                 | Err _ => ("failed", sv_exec sv)
                 | Ok x => ("running", x)
                 end
        end
    end in
  with_db (TouchScheduleRun (ce_schedID e) status) (set_exec x sv).
Definition cron_fire (d : Deps) (entryID : nat) (now : Z) (dr : Draws) (sv : Server) : Server :=
  if cron_has (sv_cron sv) entryID then match sv_funcs sv !! entryID with Some e => cron_run d e now dr sv | None => sv end else sv.

(** Each operation of the scheduler gives the server as it leaves it, and its error. *)
Definition Scheduler_Add (d : Deps) (id : string) (r : ScheduleRecord) (sv : Server) : Server * option sched_error :=
  let sv := with_db (UpsertSchedule id r) sv in
  if sr_Enabled r then match register d id r sv with Ok sv' => (sv', None) | Err e => (sv, Some e) end else (sv, None).
Definition Scheduler_Enable (d : Deps) (id : string) (sv : Server) : Server * option sched_error :=
  let sv := with_db (SetEnabled id true) sv in
  match db_schedules (sv_db sv) !! id with
  | None => (sv, None)
  | Some r => match register d id r sv with Ok sv' => (sv', None) | Err e => (sv, Some e) end
  end.
Definition unregister (id : string) (sv : Server) : Server :=
  match sv_entryIDs sv !! id with
  | Some entryID => MkServer _ (sv_exec sv) (cron_remove entryID (sv_cron sv)) (sv_funcs sv) (delete id (sv_entryIDs sv))
  | None => sv
  end.
Definition Scheduler_Disable (id : string) (sv : Server) : Server := unregister id (with_db (SetEnabled id false) sv).
Definition Scheduler_Delete (id : string) (sv : Server) : Server := with_db (DeleteSchedule id) (unregister id sv).

(** The seed files in the order of their names, [None] for one that does not parse; what was read before it stays. *)
Fixpoint SeedFromDir (files : list (option (list (string * ScheduleRecord)))) (db : OrchestratorDB) : OrchestratorDB :=
  match files with
  | [] | None :: _ => db
  | Some defs :: files =>
      SeedFromDir files (fold_left (fun db def => UpsertSchedule def.1
        (MkScheduleRecord (sr_Scenario def.2) (sr_CronExpr def.2) (sr_Params def.2) (sr_Timezone def.2) true "") db) defs db)
  end.
Fixpoint load_rows (d : Deps) (rows : list (string * ScheduleRecord)) (sv : Server) : result sched_error Server :=
  match rows with
  | [] => Ok sv
  | (id, r) :: rows => if sr_Enabled r then sv' ← register d id r sv; load_rows d rows sv' else load_rows d rows sv
  end.
Definition LoadFromDB (d : Deps) (sv : Server) : result sched_error Server := load_rows d (map_to_list (db_schedules (sv_db sv))) sv.

(** [main]: runners are validated, schedules seeded and loaded, a first token made; [None] when the process exits. *)
Definition start (d : Deps) (seeds : list (option (list (string * ScheduleRecord)))) (tokenID rawToken : string) (db : OrchestratorDB)
    : option Server :=
  if negb (ValidateScenarioRunners (d_scenes d) (ex_runners (d_executor d)) (ex_defaultRunner (d_executor d))) then None
  else
    match LoadFromDB d (MkServer _ (MkExecState (SeedFromDir seeds db) ∅ ∅) cron_new ∅ ∅) with
    | Err _ => None
    | Ok sv =>
        if negb (ValidatePubSubScenarios (d_subs d) (d_scenes d)) then None
        else match d_auth d with
        | TokenAuth => match BootstrapAdminToken tokenID rawToken (sv_db sv) with None => None | Some db => Some (with_db (fun _ => db) sv) end
        | _ => Some sv
        end
    end.
End Scheduling.

(** ** routes.go, requests.go, scenario_approval.go and pubsub.go: the handlers *)

(** The routes behind authentication; a body is [None] when its JSON does not parse. *)
Inductive request :=
| ListScenarios
| GetScenario (name : string)
| GetApproval (name : string)
| GetJobs
| GetJob (id : string)
| GetArtifact (id : string)
| GetSchedules
| GetTokens
| RunScenario (name : string) (params : option Params)
| ApproveScenario (name : string)
| RevokeApproval (name : string)
| CancelJob (id : string)
| StopJob (id : string)
| GetResults (scenario : string)
| AddSchedule (rec : option (string * ScheduleRecord))
| EnableSchedule (id : string)
| DisableSchedule (id : string)
| RemoveSchedule (id : string)
| PostToken (body : option (string * string * list string)) (id raw : string)
| RemoveToken (id : string)
| SubmitRequest (body : option (string * Params * string)) (id : string)
| ListOwnRequests (status : string)
| GetOneRequest (id : string)
| TestRequest (id : string)
| ApproveRequest (id : string)
| RejectRequest (id note : string).
Inductive answer :=
| Status (code : Z)
| AnswerJobs (jobs : gmap string Job)
| AnswerRequests (reqs : gmap string ProjectRequest)
| AnswerRequest (r : ProjectRequest)
| AnswerTest (would_run : bool)
| AnswerScenarios (scenes : list Scenario)
| AnswerScenario (s : Scenario)
| AnswerApproval (a : ScenarioApproval) (is_current : bool)
| AnswerJob (j : Job)
| AnswerFile (path : string)
| AnswerSchedules (rows : gmap string ScheduleRecord)
| AnswerTokens (rows : list TokenRow).

Definition route_role (r : request) : string :=
  match r with
  | RunScenario _ _ | CancelJob _ | StopJob _ => RoleActivator
  | ListScenarios | GetScenario _ | GetJobs | GetJob _ | GetArtifact _ | GetResults _ | SubmitRequest _ _ | ListOwnRequests _
  | GetOneRequest _ => RoleConsumer
  | _ => RoleAdmin
  end.

Section Handlers.
  Context `{OE : OrchEnv} `{D : Directory} `{C : CronLib} `{GC : GoCase}.

Definition run_scenario (d : Deps) (p : Principal) (name : string) (params : option Params) (dr : Draws) (sv : Server) : Server * Z :=
  match d_scenes d !! name with
  | None => (sv, 404)
  | Some s =>
      if negb (AllowsScenario p name) then (sv, 403)
      else match params with
      | None => (sv, 400)
      | Some body =>
          match ValidateParams s body with
          | Err _ => (sv, 422)
          | Ok params =>
              match VerifyScenarioChecksum (sv_db sv) s with
              | Err _ => (sv, 403)
              | Ok _ =>
                  if negb (GateScenario (d_gate d) s) then (sv, 403)
                  else if negb (CheckPipelineLimit (d_gate d) (CountActiveJobs (sv_db sv))) then (sv, 429)
                  else match Submit (d_executor d) s params "" (p_TokenID p) dr (sv_exec sv) with
                       | Err _ => (sv, 500)
                       | Ok x => (set_exec x sv, 202)
                       end
              end
          end
      end
  end.

Definition approve_scenario (d : Deps) (p : Principal) (name : string) (sv : Server) : Server * Z :=
  match d_scenes d !! name with
  | None => (sv, 404)
  | Some s => (with_db (UpsertScenarioApproval name (scenarioChecksum s) (p_Name p)) sv, 200)
  end.

Definition job_action (p : Principal) (id : string) (action : string -> string -> ExecState -> result job_error ExecState) (sv : Server)
    : Server * Z :=
  match db_jobs (sv_db sv) !! id with
  | None => (sv, 404)
  | Some job =>
      if negb (String.eqb (p_Role p) RoleAdmin) && negb (String.eqb (j_SubmittedBy job) (p_TokenID p)) then (sv, 403)
      else match action id (p_Name p) (sv_exec sv) with
           | Err ErrJobNotFound => (sv, 404)
           | Err _ => (sv, 409)
           | Ok x => (set_exec x sv, 204)
           end
  end.

Definition add_schedule (d : Deps) (rec : option (string * ScheduleRecord)) (sv : Server) : Server * Z :=
  match rec with
  | None => (sv, 400)
  | Some (id, r) =>
      if String.eqb id "" || String.eqb (sr_Scenario r) "" || String.eqb (sr_CronExpr r) "" then (sv, 400)
      else match Scheduler_Add d id (MkScheduleRecord (sr_Scenario r) (sr_CronExpr r) (sr_Params r) (sr_Timezone r) true "") sv with
           | (sv', Some _) => (sv', 422)
           | (sv', None) => (sv', 201)
           end
  end.

Definition post_token (d : Deps) (body : option (string * string * list string)) (id raw : string) (sv : Server) : Server * Z :=
  match d_auth d with
  | LdapAuth _ => (sv, 501)
  | _ =>
      match body with
      | None => (sv, 400)
      | Some (name, role, scenarios) =>
          if (roleRank role =? 0) || String.eqb name "" then (sv, 400)
          else match CreateToken id raw name role scenarios (sv_db sv) with
               | None => (sv, 500)
               | Some db => (with_db (fun _ => db) sv, 201)
               end
      end
  end.

Definition submit_request (d : Deps) (p : Principal) (body : option (string * Params * string)) (id : string) (sv : Server) : Server * Z :=
  match body with
  | None => (sv, 400)
  | Some (scenario, params, title) =>
      match d_scenes d !! scenario with
      | None => (sv, 404)
      | Some s =>
          if negb (AllowsScenario p scenario) then (sv, 403)
          else match ValidateParams s params with
          | Err _ => (sv, 422)
          | Ok _ =>
              match InsertRequest id (MkProjectRequest scenario params title (p_TokenID p) (p_Name p) ReqPending "" "" "") (sv_db sv) with
              | None => (sv, 500)
              | Some db => (with_db (fun _ => db) sv, 201)
              end
          end
      end
  end.

(** [loadPendingForReview] and [evaluate]: the request and its scenario, or the code of the refusal; the resolved parameters when
    the request would run. *)
Definition loadPendingForReview (d : Deps) (id : string) (sv : Server) : result Z (ProjectRequest * Scenario) :=
  match db_requests (sv_db sv) !! id with
  | None => Err 404
  | Some req =>
      fail_if bool_decide (pr_Status req <> ReqPending) with 409 ;;
      match d_scenes d !! pr_Scenario req with None => Err 404 | Some s => Ok (req, s) end
  end.
Definition evaluate (d : Deps) (s : Scenario) (req : ProjectRequest) (sv : Server) : option Params :=
  match ValidateParams s (pr_Params req) with
  | Err _ => None
  | Ok resolved =>
      match VerifyScenarioChecksum (sv_db sv) s with
      | Err _ => None
      | Ok _ => if GateScenario (d_gate d) s && CheckPipelineLimit (d_gate d) (CountActiveJobs (sv_db sv)) then Some resolved else None
      end
  end.

(** [Approve] in its two parts: what it reads and decides, and what it writes. *)
Definition approve_check (d : Deps) (id : string) (sv : Server) : result Z (Scenario * Params) :=
  '(req, s) ← loadPendingForReview d id sv;
  match evaluate d s req sv with None => Err 403 | Some resolved => Ok (s, resolved) end.
Definition approve_commit (d : Deps) (p : Principal) (id : string) (checked : Scenario * Params) (dr : Draws) (sv : Server) : Server * Z :=
  match Submit (d_executor d) checked.1 checked.2 "" (p_TokenID p) dr (sv_exec sv) with
  | Err _ => (sv, 500)
  | Ok x => (with_db (ReviewRequest id ReqApproved (p_Name p) "approved" (dr_job dr)) (set_exec x sv), 200)
  end.
Definition approve_request (d : Deps) (p : Principal) (id : string) (dr : Draws) (sv : Server) : Server * Z :=
  match approve_check d id sv with Err code => (sv, code) | Ok checked => approve_commit d p id checked dr sv end.
Definition reject_request (p : Principal) (id note : string) (sv : Server) : Server * Z :=
  match db_requests (sv_db sv) !! id with
  | None => (sv, 404)
  | Some req =>
      if bool_decide (pr_Status req <> ReqPending) then (sv, 409)
      else (with_db (ReviewRequest id ReqRejected (p_Name p) note "") sv, 200)
  end.

Definition list_requests (p : Principal) (status : string) (sv : Server) : gmap string ProjectRequest :=
  ListRequests status (if negb (String.eqb (p_Role p) RoleAdmin) then p_TokenID p else "") (sv_db sv).
Definition get_request (p : Principal) (id : string) (sv : Server) : answer :=
  match db_requests (sv_db sv) !! id with
  | None => Status 404
  | Some req =>
      if negb (String.eqb (p_Role p) RoleAdmin) && negb (String.eqb (pr_SubmitterID req) (p_TokenID p)) then Status 403
      else AnswerRequest req
  end.

Definition get_approval (d : Deps) (name : string) (sv : Server) : answer :=
  match d_scenes d !! name with
  | None => Status 404
  | Some s =>
      match GetScenarioApproval name (sv_db sv) with
      | None => Status 404
      | Some approval => AnswerApproval approval (String.eqb (scenarioChecksum s) (sa_SHA256 approval))
      end
  end.
Definition get_artifact (id : string) (sv : Server) : answer :=
  match db_jobs (sv_db sv) !! id with
  | None => Status 404
  | Some job => match j_Artifact job with Some (path, _, _) => if String.eqb path "" then Status 404 else AnswerFile path | None => Status 404 end
  end.

Definition coded (r : Server * Z) : Server * answer := (r.1, Status r.2).
Definition handle (d : Deps) (p : Principal) (r : request) (dr : Draws) (sv : Server) : Server * answer :=
  match r with
  | ListScenarios => (sv, AnswerScenarios (map_to_list (d_scenes d)).*2)
  | GetScenario name => (sv, match d_scenes d !! name with Some s => AnswerScenario s | None => Status 404 end)
  | GetApproval name => (sv, get_approval d name sv)
  | GetJobs => (sv, AnswerJobs (db_jobs (sv_db sv)))
  | GetJob id => (sv, match db_jobs (sv_db sv) !! id with Some j => AnswerJob j | None => Status 404 end)
  | GetArtifact id => (sv, get_artifact id sv)
  | GetSchedules => (sv, AnswerSchedules (db_schedules (sv_db sv)))
  | GetTokens => (sv, AnswerTokens (map_to_list (db_tokens (sv_db sv))).*2)
  | RunScenario name params => coded (run_scenario d p name params dr sv)
  | ApproveScenario name => coded (approve_scenario d p name sv)
  | RevokeApproval name => (with_db (DeleteScenarioApproval name) sv, Status 204)
  | CancelJob id => coded (job_action p id Cancel sv)
  | StopJob id => coded (job_action p id Stop sv)
  | GetResults scenario => (sv, if AllowsScenario p scenario then AnswerJobs (ListJobsByScenario scenario (sv_db sv)) else Status 403)
  | AddSchedule rec => coded (add_schedule d rec sv)
  | EnableSchedule id => let '(sv', e) := Scheduler_Enable d id sv in (sv', Status (match e with None => 204 | Some _ => 500 end))
  | DisableSchedule id => (Scheduler_Disable id sv, Status 204)
  | RemoveSchedule id => (Scheduler_Delete id sv, Status 204)
  | PostToken body id raw => coded (post_token d body id raw sv)
  | RemoveToken id => (with_db (DeleteToken id) sv, Status 204)
  | SubmitRequest body id => coded (submit_request d p body id sv)
  | ListOwnRequests status => (sv, AnswerRequests (list_requests p status sv))
  | GetOneRequest id => (sv, get_request p id sv)
  | TestRequest id =>
      (sv, match loadPendingForReview d id sv with
           | Err code => Status code
           | Ok (req, s) => AnswerTest (match evaluate d s req sv with Some _ => true | None => false end)
           end)
  | ApproveRequest id => coded (approve_request d p id dr sv)
  | RejectRequest id note => coded (reject_request p id note sv)
  end.

(** The middleware and the role of the route before the handler. *)
Definition serve_http (d : Deps) (authorization : string) (r : request) (dr : Draws) (sv : Server) : Server * answer :=
  match authenticate (d_auth d) authorization (sv_db sv) with
  | None => (sv, Status 401)
  | Some p => if RequireRole (route_role r) p then handle d p r dr sv else (sv, Status 403)
  end.

(** One pipeline-completion event, its payload decoded. *)
Record PipelineResult := MkPipelineResult { re_PipelineName : string; re_ResultName : string; re_Status : string }.
Definition dispatch (d : Deps) (payload : option PipelineResult) (dr : Draws) (sv : Server) : Server :=
  match payload with
  | None => sv
  | Some r =>
      match subscriptions (d_subs d) !! re_ResultName r with
      | None => sv
      | Some def =>
          if negb (statusAllowed (re_Status r) (sd_OnStatus def)) then sv
          else match d_scenes d !! sd_Scenario def with
          | None => sv
          | Some scene =>
              match VerifyScenarioChecksum (sv_db sv) scene with
              | Err _ => sv
              | Ok _ =>
                  if negb (GateScenario (d_gate d) scene) then sv
                  else
                    let params := <["status" := re_Status r]> (<["result_name" := re_ResultName r]>
                      (<["pipeline_name" := re_PipelineName r]> (sd_Params def))) in
                    match ValidateParams scene params with
                    | Err _ => sv
                    | Ok resolved =>
                        match Submit (d_executor d) scene resolved "" "" dr (sv_exec sv) with Err _ => sv | Ok x => set_exec x sv end
                    end
              end
          end
      end
  end.
End Handlers.
