(* ===== verification/OrchestratorRuns.v ===== *)
(** * OrchestratorRuns: what can happen to an orchestrator

    The histories of the server of [Orchestrator]: requests, cron firings, pipeline events, steps of
    the goroutines of jobs, the parts of a handler that another may come between, and restarts of the
    process on the same database with the scenario files as they are then. *)

From Stdlib Require Import ZArith Lia Ascii String.
From stdpp Require Import base gmap list strings.
From S2P Require Import Prelude Strconv Encodings License Orchestrator.

Open Scope Z_scope.

(** ** Histories *)

Section Histories.
  Context `{OE : OrchEnv} `{D : Directory} `{C : CronLib} `{GC : GoCase}.

(** A process with the approvals that have been checked and not written, or none. *)
Inductive World :=
| Up (d : Deps) (sv : Server) (checked : list (Principal * string * (Scenario * Params)))
| Down (db : OrchestratorDB).

Inductive sys_event :=
| Http (authorization : string) (r : request) (dr : Draws)
| ApproveBegins (authorization id : string)
| ApproveEnds (k : nat) (dr : Draws)
| CronFires (entryID : nat) (now : Z) (dr : Draws)
| PipelineEvent (payload : option PipelineResult) (dr : Draws)
| ThreadSteps (id logPath : string) (exit : string * option string) (hash : string -> option (string * Z))
| CancelLocked (id : string)
| StopSignals (id : string)
| CancelMarked (id who : string)
| Restart (d : Deps) (seeds : list (option (list (string * ScheduleRecord)))) (tokenID rawToken : string).

Definition world_db (w : World) : OrchestratorDB := match w with Up _ sv _ => sv_db sv | Down db => db end.

Definition sys_step (w : World) (e : sys_event) : World :=
  match e, w with
  | Restart d seeds tokenID raw, _ =>
      match start d seeds tokenID raw (world_db w) with Some sv => Up d sv [] | None => Down (SeedFromDir seeds (world_db w)) end
  | _, Down _ => w
  | Http a r dr, Up d sv ck => Up d (fst (serve_http d a r dr sv)) ck
  | ApproveBegins a id, Up d sv ck =>
      match authenticate (d_auth d) a (sv_db sv) with
      | Some p =>
          if RequireRole RoleAdmin p then match approve_check d id sv with Ok c => Up d sv (ck ++ [(p, id, c)]) | Err _ => w end else w
      | None => w
      end
  | ApproveEnds k dr, Up d sv ck =>
      match ck !! k with Some (p, id, c) => Up d (fst (approve_commit d p id c dr sv)) (delete k ck) | None => w end
  | CronFires i now dr, Up d sv ck => Up d (cron_fire d i now dr sv) ck
  | PipelineEvent payload dr, Up d sv ck => Up d (dispatch d payload dr sv) ck
  | ThreadSteps id logPath exit hash, Up d sv ck => Up d (set_exec (thread_step id logPath exit hash (sv_exec sv)) sv) ck
  | CancelLocked id, Up d sv ck => match cancel_locked id (sv_exec sv) with Ok x => Up d (set_exec x sv) ck | Err _ => w end
  | StopSignals id, Up d sv ck => match ex_registry (sv_exec sv) !! id with Some _ => Up d (set_exec (cancel_context id (sv_exec sv)) sv) ck | None => w end
  | CancelMarked id who, Up d sv ck => Up d (with_db (MarkCancelRequested id who) sv) ck
  end.
Definition sys_run (w : World) (es : list sys_event) : World := fold_left sys_step es w.

Definition world_exec (w : World) : option ExecState := match w with Up _ sv _ => Some (sv_exec sv) | Down _ => None end.

(** Scenarios are kept under their names, as [LoadScenariosDir] does. *)
Definition named_scenes (d : Deps) : Prop := map_Forall (fun k s => sc_Name s = k) (d_scenes d).
Definition named_restarts (e : sys_event) : Prop := match e with Restart d _ _ _ => named_scenes d | _ => True end.

(** ** How the executor's state changes

    Every event changes the rows of jobs, the registry and the threads by some of these. *)
Inductive exec_move (s : Scenario -> Prop) : ExecState -> ExecState -> Prop :=
| Same x x' : db_jobs (ex_db x') = db_jobs (ex_db x) -> ex_registry x' = ex_registry x -> ex_threads x' = ex_threads x -> exec_move s x x'
| Submits x x' id sc params job t :
    s sc -> db_jobs (ex_db x) !! id = None -> j_Status job = JobPending -> j_Scenario job = sc_Name sc -> j_Params job = params ->
    th_pc t = AtLock -> th_cancelled t = false -> template_execute (sc_RawYAML sc) params = Some (th_rendered t) ->
    db_jobs (ex_db x') = <[id := job]> (db_jobs (ex_db x)) -> ex_registry x' = <[id := false]> (ex_registry x) ->
    ex_threads x' = <[id := t]> (ex_threads x) -> exec_move s x x'
| Threads x x' id logPath exit hash :
    db_jobs (ex_db x') = db_jobs (ex_db (thread_step id logPath exit hash x)) ->
    ex_registry x' = ex_registry (thread_step id logPath exit hash x) ->
    ex_threads x' = ex_threads (thread_step id logPath exit hash x) -> exec_move s x x'
| Cancels x x' id : is_Some (ex_registry x !! id) ->
    db_jobs (ex_db x') = db_jobs (ex_db x) -> ex_registry x' = ex_registry x -> ex_threads x' = ex_threads (cancel_context id x) ->
    exec_move s x x'
| Marks x x' id who : db_jobs (ex_db x') = db_jobs (MarkCancelRequested id who (ex_db x)) -> ex_registry x' = ex_registry x ->
    ex_threads x' = ex_threads x -> exec_move s x x'.
End Histories.

Section Moves.
  Context `{OE : OrchEnv} `{D : Directory} `{C : CronLib} `{GC : GoCase}.

(** A scenario that may run now. *)
Definition may_run (sv : Server) (sc : Scenario) : Prop := VerifyScenarioChecksum (sv_db sv) sc = Ok ().

Lemma exec_move_refl (P : Scenario -> Prop) (x : ExecState) : exec_move P x x.
Proof. by apply Same. Qed.

Lemma Submit_move (P : Scenario -> Prop) (e : Executor) (sc : Scenario) (params : Params) (sched by_ : string) (dr : Draws) (x x' : ExecState) :
  P sc -> Submit e sc params sched by_ dr x = Ok x' -> exec_move P x x'.
Proof.
  intros HP. unfold Submit. destruct (template_execute (sc_RawYAML sc) params) as [rendered|] eqn:Et; [|done].
  destruct (negb (dr_tmp_ok dr)); [done|]. destruct (ex_runners e !! _) as [spec|]; [|done].
  destruct (renderArgs _ _ _) as [args|]; [|done]. unfold InsertJob. destruct (db_jobs (ex_db x) !! dr_job dr) eqn:Ej; [done|].
  intros [= <-]. eapply (Submits P _ _ (dr_job dr) sc params); [done|done| | | | | | |reflexivity..]; done.
Qed.

Lemma Submit_scenarios (e : Executor) (sc : Scenario) (params : Params) (sched by_ : string) (dr : Draws) (x x' : ExecState) :
  Submit e sc params sched by_ dr x = Ok x' -> exists js, ex_db x' = set_jobs (fun _ => js) (ex_db x).
Proof.
  unfold Submit. destruct (template_execute _ _); [|done]. destruct (negb _); [done|]. destruct (ex_runners e !! _); [|done].
  destruct (renderArgs _ _ _); [|done]. unfold InsertJob. destruct (db_jobs (ex_db x) !! dr_job dr); [done|].
  intros [= <-]. by eexists.
Qed.

Lemma Cancel_moves (P : Scenario -> Prop) (id who : string) (x x' : ExecState) : Cancel id who x = Ok x' -> rtc (exec_move P) x x'.
Proof.
  unfold Cancel, cancel_locked. destruct (db_jobs (ex_db x) !! id); [|done]. destruct (bool_decide _); [done|].
  destruct (ex_registry x !! id) as [[]|] eqn:E; [done| |done]. simpl. intros [= <-].
  eapply rtc_l; [by apply (Cancels P x (cancel_context id x) id); [rewrite E; eauto|..]|]. apply rtc_once. by eapply (Marks P _ _ id who).
Qed.
Lemma Stop_moves (P : Scenario -> Prop) (id who : string) (x x' : ExecState) : Stop id who x = Ok x' -> rtc (exec_move P) x x'.
Proof.
  unfold Stop. destruct (db_jobs (ex_db x) !! id); [|done]. destruct (bool_decide _); [done|].
  destruct (ex_registry x !! id) eqn:E; [|done]. intros [= <-].
  eapply rtc_l; [by apply (Cancels P x (cancel_context id x) id); [rewrite E; eauto|..]|]. apply rtc_once. by eapply (Marks P _ _ id who).
Qed.

Lemma job_action_moves (P : Scenario -> Prop) (p : Principal) (id : string) (act : string -> string -> ExecState -> result job_error ExecState) (sv : Server) :
  (forall who x', act id who (sv_exec sv) = Ok x' -> rtc (exec_move P) (sv_exec sv) x') ->
  rtc (exec_move P) (sv_exec sv) (sv_exec (fst (job_action p id act sv))).
Proof.
  intros H. unfold job_action. destruct (db_jobs (sv_db sv) !! id); [|done]. destruct (_ && _); [done|].
  destruct (act id (p_Name p) (sv_exec sv)) as [x|[]] eqn:E; [|done..]. by eapply H.
Qed.

Lemma run_scenario_move (d : Deps) (p : Principal) (name : string) (params : option Params) (dr : Draws) (sv : Server) :
  exec_move (may_run sv) (sv_exec sv) (sv_exec (fst (run_scenario d p name params dr sv))).
Proof.
  unfold run_scenario. destruct (d_scenes d !! name) as [s|]; [|apply exec_move_refl].
  destruct (negb (AllowsScenario p name)); [apply exec_move_refl|]. destruct params as [body|]; [|apply exec_move_refl].
  destruct (ValidateParams s body) as [params|]; [|apply exec_move_refl].
  destruct (VerifyScenarioChecksum (sv_db sv) s) as [[]|] eqn:Ev; [|apply exec_move_refl].
  destruct (negb _); [apply exec_move_refl|]. destruct (negb _); [apply exec_move_refl|].
  destruct (Submit _ _ _ _ _ _ _) as [x|] eqn:Es; [|apply exec_move_refl]. by eapply Submit_move.
Qed.

Lemma approve_check_inv (d : Deps) (id : string) (sv : Server) (c : Scenario * Params) :
  approve_check d id sv = Ok c -> may_run sv c.1.
Proof.
  unfold approve_check. destruct (loadPendingForReview d id sv) as [[req s]|]; [|done]. simpl. unfold evaluate.
  destruct (ValidateParams s (pr_Params req)); [|done]. destruct (VerifyScenarioChecksum (sv_db sv) s) as [[]|] eqn:E; [|done].
  destruct (_ && _); [|done]. by intros [= <-].
Qed.

Lemma approve_commit_move (P : Scenario -> Prop) (d : Deps) (p : Principal) (id : string) (c : Scenario * Params) (dr : Draws) (sv : Server) :
  P c.1 -> exec_move P (sv_exec sv) (sv_exec (fst (approve_commit d p id c dr sv))).
Proof.
  intros HP. unfold approve_commit. destruct (Submit _ _ _ _ _ _ _) as [x|] eqn:Es; [|apply exec_move_refl].
  apply (Submit_move P) in Es; [|done]. inversion Es; subst; simpl.
  - by apply Same.
  - by eapply Submits.
  - by eapply Threads.
  - by eapply Cancels.
  - by eapply Marks.
Qed.

Lemma register_exec (d : Deps) (id : string) (r : ScheduleRecord) (sv sv' : Server) : register d id r sv = Ok sv' -> sv_exec sv' = sv_exec sv.
Proof. unfold register. destruct (d_scenes d !! _); [|done]. destruct (cron_add _ _) as [[]|]; [|done]. by intros [= <-]. Qed.
Lemma unregister_exec (id : string) (sv : Server) : sv_exec (unregister id sv) = sv_exec sv.
Proof. unfold unregister. by destruct (sv_entryIDs sv !! id). Qed.
Lemma Add_exec (d : Deps) (id : string) (r : ScheduleRecord) (sv : Server) :
  sv_exec (fst (Scheduler_Add d id r sv)) = on_db (UpsertSchedule id r) (sv_exec sv).
Proof.
  unfold Scheduler_Add. destruct (sr_Enabled r); [|done]. destruct (register _ _ _ _) eqn:E; [|done]. cbn [fst]. by rewrite (register_exec _ _ _ _ _ E).
Qed.
Lemma Enable_exec (d : Deps) (id : string) (sv : Server) : sv_exec (fst (Scheduler_Enable d id sv)) = on_db (SetEnabled id true) (sv_exec sv).
Proof.
  unfold Scheduler_Enable. destruct (db_schedules _ !! id); [|done]. destruct (register _ _ _ _) eqn:E; [|done].
  cbn [fst]. by rewrite (register_exec _ _ _ _ _ E).
Qed.

Lemma handle_moves (d : Deps) (p : Principal) (r : request) (dr : Draws) (sv : Server) :
  rtc (exec_move (may_run sv)) (sv_exec sv) (sv_exec (fst (handle d p r dr sv))).
Proof.
  destruct r; cbn [handle coded fst]; try (by apply rtc_once, Same).
  - apply rtc_once, run_scenario_move.
  - unfold approve_scenario. destruct (d_scenes d !! name); by apply rtc_once, Same.
  - apply job_action_moves. intros. by eapply Cancel_moves.
  - apply job_action_moves. intros. by eapply Stop_moves.
  - unfold add_schedule. destruct rec as [[id r]|]; [|done]. destruct (_ || _); [done|].
    destruct (Scheduler_Add d id _ sv) as [sv' o] eqn:E. assert (sv' = fst (Scheduler_Add d id _ sv)) as -> by (by rewrite E).
    destruct o; cbn [fst]; rewrite Add_exec; by apply rtc_once, Same.
  - destruct (Scheduler_Enable d id sv) as [sv' o] eqn:E. cbn [fst]. assert (sv' = fst (Scheduler_Enable d id sv)) as -> by (by rewrite E).
    rewrite Enable_exec. by apply rtc_once, Same.
  - unfold Scheduler_Disable. rewrite unregister_exec. by apply rtc_once, Same.
  - unfold Scheduler_Delete, with_db, set_exec. cbn [sv_exec]. rewrite unregister_exec. by apply rtc_once, Same.
  - unfold post_token. destruct (d_auth d); [| |done]; (destruct body as [[[name role] scs]|]; [|done]; destruct (_ || _); [done|];
      unfold CreateToken, InsertToken; destruct (bool_decide _); [done|]; by apply rtc_once, Same).
  - unfold submit_request. destruct body as [[[sc ps] title]|]; [|done]. destruct (d_scenes d !! sc); [|done].
    destruct (negb _); [done|]. destruct (ValidateParams _ _); [|done]. unfold InsertRequest.
    destruct (db_requests (sv_db sv) !! id); [done|]. by apply rtc_once, Same.
  - unfold approve_request. destruct (approve_check d id sv) as [c|] eqn:E; [|done].
    apply rtc_once, approve_commit_move. by eapply approve_check_inv.
  - unfold reject_request. destruct (db_requests (sv_db sv) !! id); [|done]. destruct (bool_decide _); [done|]. by apply rtc_once, Same.
Qed.

Lemma serve_moves (d : Deps) (a : string) (r : request) (dr : Draws) (sv : Server) :
  rtc (exec_move (may_run sv)) (sv_exec sv) (sv_exec (fst (serve_http d a r dr sv))).
Proof.
  unfold serve_http. destruct (authenticate _ _ _) as [p|]; [|done]. destruct (RequireRole _ p); [|done]. apply handle_moves.
Qed.

Lemma cron_moves (d : Deps) (i : nat) (now : Z) (dr : Draws) (sv : Server) :
  rtc (exec_move (may_run sv)) (sv_exec sv) (sv_exec (cron_fire d i now dr sv)).
Proof.
  unfold cron_fire. destruct (cron_has _ _); [|done]. destruct (sv_funcs sv !! i) as [e|]; [|done]. unfold cron_run.
  destruct (ValidateParams _ _); [|by apply rtc_once, Same].
  destruct (VerifyScenarioChecksum (sv_db sv) (ce_scene e)) as [[]|] eqn:Ev; [|by apply rtc_once, Same].
  destruct (negb _); [by apply rtc_once, Same|]. destruct (Submit _ _ _ _ _ _ _) as [x|] eqn:Es; [|by apply rtc_once, Same].
  eapply rtc_l; [by eapply (Submit_move (may_run sv))|]. by apply rtc_once, Same.
Qed.

Lemma dispatch_moves (d : Deps) (payload : option PipelineResult) (dr : Draws) (sv : Server) :
  rtc (exec_move (may_run sv)) (sv_exec sv) (sv_exec (dispatch d payload dr sv)).
Proof.
  unfold dispatch. destruct payload as [r|]; [|done]. destruct (subscriptions _ !! _) as [def|]; [|done]. destruct (negb _); [done|].
  destruct (d_scenes d !! _) as [scene|]; [|done]. destruct (VerifyScenarioChecksum (sv_db sv) scene) as [[]|] eqn:Ev; [|done].
  destruct (negb _); [done|]. destruct (ValidateParams _ _); [|done]. destruct (Submit _ _ _ _ _ _ _) as [x|] eqn:Es; [|done].
  apply rtc_once. by eapply (Submit_move (may_run sv)).
Qed.
End Moves.

Section Closure.
  Context `{OE : OrchEnv} `{D : Directory} `{C : CronLib} `{GC : GoCase}.

Lemma exec_move_weaken (P Q : Scenario -> Prop) (x x' : ExecState) : (forall sc, P sc -> Q sc) -> exec_move P x x' -> exec_move Q x x'.
Proof. intros HPQ. destruct 1; [by apply Same|eapply Submits; eauto|by eapply Threads|by eapply Cancels|by eapply Marks]. Qed.

Lemma Seed_keeps (seeds : list (option (list (string * ScheduleRecord)))) (db : OrchestratorDB) :
  db_jobs (SeedFromDir seeds db) = db_jobs db /\ db_scenarios (SeedFromDir seeds db) = db_scenarios db.
Proof.
  revert db; induction seeds as [|[defs|] seeds IH]; intros db; [done| |done]. cbn [SeedFromDir].
  match goal with |- context [SeedFromDir seeds ?d] => destruct (IH d) as [-> ->] end.
  revert db. induction defs as [|[id r] defs IHd]; intros db; [done|]. cbn [fold_left].
  by match goal with |- context [fold_left _ defs ?d] => destruct (IHd d) as [-> ->] end.
Qed.

Lemma load_rows_exec (d : Deps) (rows : list (string * ScheduleRecord)) (sv sv' : Server) :
  load_rows d rows sv = Ok sv' -> sv_exec sv' = sv_exec sv.
Proof.
  revert sv; induction rows as [|[id r] rows IH]; intros sv; [by intros [= <-]|]. cbn [load_rows].
  destruct (sr_Enabled r); [|apply IH]. destruct (register d id r sv) as [sv1|] eqn:E; [|done]. simpl. intros H.
  rewrite (IH _ H). by eapply register_exec.
Qed.

Lemma start_keeps (d : Deps) (seeds : list (option (list (string * ScheduleRecord)))) (tokenID raw : string) (db : OrchestratorDB) (sv : Server) :
  start d seeds tokenID raw db = Some sv ->
  db_jobs (sv_db sv) = db_jobs db /\ db_scenarios (sv_db sv) = db_scenarios db /\ ex_registry (sv_exec sv) = ∅ /\ ex_threads (sv_exec sv) = ∅.
Proof.
  unfold start. destruct (negb _); [done|]. destruct (LoadFromDB d _) as [sv1|] eqn:E; [|done]. apply load_rows_exec in E.
  destruct (Seed_keeps seeds db) as [Hj Hs]. destruct (negb _); [done|].
  destruct (d_auth d); try (intros [= <-]; unfold sv_db; rewrite E; by rewrite <- Hj, <- Hs).
  unfold BootstrapAdminToken, InsertToken. destruct (0 <? _)%nat; [|destruct (bool_decide _); [done|]]; intros [= <-];
    unfold sv_db, with_db, set_exec, on_db; simpl; unfold sv_db; rewrite E; simpl; by rewrite <- Hj, <- Hs.
Qed.

(** A property of the executor's state that every move keeps, and losing the registry and the threads too, holds ever after. *)
Definition holds (P : ExecState -> Prop) (w : World) : Prop :=
  match w with Up _ sv _ => P (sv_exec sv) | Down db => P (MkExecState db ∅ ∅) end.

Lemma rtc_closed (Q : Scenario -> Prop) (P : ExecState -> Prop) (x x' : ExecState) :
  (forall y y', exec_move (fun _ => True) y y' -> P y -> P y') -> rtc (exec_move Q) x x' -> P x -> P x'.
Proof. intros HP. induction 1 as [|x y z Hm _ IH]; [done|]. intros Hx. apply IH, (HP x y); [|done]. by eapply exec_move_weaken. Qed.

Lemma step_holds (P : ExecState -> Prop) (w : World) (e : sys_event) :
  (forall x x', exec_move (fun _ => True) x x' -> P x -> P x') -> (forall x, P x -> P (MkExecState (ex_db x) ∅ ∅)) ->
  holds P w -> holds P (sys_step w e).
Proof.
  intros HP Hdrop Hw.
  assert (forall d seeds t r, e = Restart d seeds t r -> holds P (sys_step w e)) as Hre.
  { intros d seeds t r ->. cbn [sys_step]. assert (P (MkExecState (world_db w) ∅ ∅)) as H0 by (destruct w; [by apply Hdrop in Hw|done]).
    destruct (start d seeds t r (world_db w)) as [sv|] eqn:E; cbn [holds].
    - destruct (start_keeps _ _ _ _ _ _ E) as (Hj & _ & Hr & Ht). eapply HP; [|exact H0]. by apply Same.
    - destruct (Seed_keeps seeds (world_db w)) as [Hj _]. eapply HP; [|exact H0]. by apply Same. }
  destruct w as [d sv ck|db]; [|destruct e; try done; by eapply Hre].
  destruct e; cbn [sys_step holds] in *; try (by eapply Hre).
  - eapply rtc_closed; [exact HP|apply serve_moves|done].
  - destruct (authenticate _ _ _) as [p|]; [|done]. destruct (RequireRole _ p); [|done]. by destruct (approve_check d id sv).
  - destruct (ck !! k) as [[[p id] c]|]; [|done]. cbn [holds]. eapply HP; [|exact Hw]. by apply approve_commit_move.
  - eapply rtc_closed; [exact HP|apply cron_moves|done].
  - eapply rtc_closed; [exact HP|apply dispatch_moves|done].
  - eapply HP; [|exact Hw]. by eapply Threads.
  - unfold cancel_locked. destruct (ex_registry (sv_exec sv) !! id) as [[]|] eqn:E; [done| |done]. cbn [holds].
    eapply HP; [|exact Hw]. by eapply (Cancels _ _ _ id); [rewrite E; eauto|..].
  - destruct (ex_registry (sv_exec sv) !! id) eqn:E; [|done]. cbn [holds].
    eapply HP; [|exact Hw]. by eapply (Cancels _ _ _ id); [rewrite E; eauto|..].
  - eapply HP; [|exact Hw]. by eapply Marks.
Qed.

Lemma run_holds (P : ExecState -> Prop) (w : World) (es : list sys_event) :
  (forall x x', exec_move (fun _ => True) x x' -> P x -> P x') -> (forall x, P x -> P (MkExecState (ex_db x) ∅ ∅)) ->
  holds P w -> holds P (sys_run w es).
Proof. intros HP Hd. revert w; induction es as [|e es IH]; intros w Hw; [done|]. apply IH. by apply step_holds. Qed.
End Closure.

(** ** One job

    A move changes the row, the registry and the thread of one job, in one of these ways. *)

Definition job_view : Type := option Job * option bool * option Thread.
Definition view (x : ExecState) (id : string) : job_view := (db_jobs (ex_db x) !! id, ex_registry x !! id, ex_threads x !! id).

(** Two rows of one job that differ in what is recorded of its run. *)
Definition same_run (j j' : Job) : Prop :=
  j_Scenario j' = j_Scenario j /\ j_Params j' = j_Params j /\ j_SubmittedBy j' = j_SubmittedBy j /\ j_ScheduleID j' = j_ScheduleID j.
Definition with_status (jo : option Job) (s : JobStatus) (jo' : option Job) : Prop :=
  match jo, jo' with Some j, Some j' => j_Status j' = s /\ same_run j j' | None, None => True | _, _ => False end.
Definition kept_status (jo jo' : option Job) : Prop :=
  match jo, jo' with Some j, Some j' => j_Status j' = j_Status j /\ same_run j j' | None, None => True | _, _ => False end.
Definition finished (s : JobStatus) : Prop := ~ active_status s.

Inductive job_move : job_view -> job_view -> Prop :=
| MSubmit r th job t : j_Status job = JobPending -> th_pc t = AtLock -> th_cancelled t = false ->
    job_move (None, r, th) (Some job, Some false, Some t)
| MLockCancelled jo r t : th_pc t = AtLock -> th_cancelled t = true -> job_move (jo, r, Some t) (jo, r, Some (set_pc RecordCancelled t))
| MLockStarted jo r t : th_pc t = AtLock -> th_cancelled t = false -> job_move (jo, r, Some t) (jo, Some true, Some (set_pc RecordRunning t))
| MCancelled jo jo' r t : th_pc t = RecordCancelled -> with_status jo JobCancelled jo' ->
    job_move (jo, r, Some t) (jo', r, Some (set_pc Cleanup t))
| MRunning jo jo' r t : th_pc t = RecordRunning -> with_status jo JobRunning jo' ->
    job_move (jo, r, Some t) (jo', r, Some (set_pc InProcess t))
| MReturns jo r t out err : th_pc t = InProcess -> job_move (jo, r, Some t) (jo, r, Some (set_pc (Returned out err) t))
| MDecides jo r t out err s log msg : th_pc t = Returned out err -> finished s ->
    s = (if th_cancelled t then JobCancelled else match err with Some _ => JobFailed | None => JobDone end) ->
    job_move (jo, r, Some t) (jo, r, Some (set_pc (RecordDone s log msg) t))
| MDone jo jo' r t s log msg : th_pc t = RecordDone s log msg -> with_status jo s jo' ->
    job_move (jo, r, Some t) (jo', r, Some (set_pc (RecordArtifact s) t))
| MArtifact jo jo' r t s : th_pc t = RecordArtifact s -> kept_status jo jo' -> job_move (jo, r, Some t) (jo', r, Some (set_pc Cleanup t))
| MCleanup jo r t : th_pc t = Cleanup -> job_move (jo, r, Some t) (jo, None, None)
| MCancel jo b t : job_move (jo, Some b, Some t) (jo, Some b, Some (MkThread (th_pc t) true (th_binary t) (th_args t) (th_rendered t)))
| MMark jo jo' r th : kept_status jo jo' -> job_move (jo, r, th) (jo', r, th).

Section JobMoves.
  Context `{OE : OrchEnv}.

Lemma kept_status_refl (jo : option Job) : kept_status jo jo.
Proof. by destruct jo. Qed.

Lemma thread_step_other (id id' logPath : string) (exit : string * option string) (hash : string -> option (string * Z)) (x : ExecState) :
  id' <> id -> view (thread_step id logPath exit hash x) id' = view x id'.
Proof.
  intros Hne. unfold thread_step, view. destruct (ex_threads x !! id) as [t|]; [|done]. destruct (th_pc t); simpl;
    try (rewrite ?lookup_insert_ne, ?lookup_delete_ne, ?lookup_alter_ne by done; done).
  - destruct (th_cancelled t); simpl; by rewrite ?lookup_insert_ne by done.
  - destruct (th_cancelled t); [|destruct err]; simpl; by rewrite lookup_insert_ne by done.
  - rewrite lookup_insert_ne by done. destruct (_ && _); [|done]. destruct (hash _) as [[]|]; [|done]. simpl. by rewrite lookup_alter_ne by done.
Qed.

Lemma thread_step_view (id logPath : string) (exit : string * option string) (hash : string -> option (string * Z)) (x : ExecState) :
  view (thread_step id logPath exit hash x) id = view x id \/ job_move (view x id) (view (thread_step id logPath exit hash x) id).
Proof.
  unfold thread_step, view. destruct (ex_threads x !! id) as [t|] eqn:Et; [|left; simpl; by rewrite ?Et]. right. destruct (th_pc t) eqn:Ep; simpl.
  - destruct (th_cancelled t) eqn:Ec; simpl; rewrite ?Et, ?lookup_insert_eq; [by apply MLockCancelled|by apply MLockStarted].
  - rewrite ?Et, lookup_insert_eq, lookup_alter_eq. apply MCancelled; [done|]. by destruct (db_jobs (ex_db x) !! id).
  - rewrite ?Et, lookup_insert_eq, lookup_alter_eq. apply MRunning; [done|]. by destruct (db_jobs (ex_db x) !! id).
  - rewrite lookup_insert_eq. by apply MReturns.
  - destruct (th_cancelled t) eqn:Ec; [|destruct err eqn:Ee]; simpl; rewrite lookup_insert_eq;
      (eapply MDecides; [done|by intros []|by rewrite Ec]).
  - rewrite lookup_insert_eq, lookup_alter_eq. eapply MDone; [done|]. by destruct (db_jobs (ex_db x) !! id).
  - rewrite lookup_insert_eq. destruct (_ && _); [destruct (hash _) as [[]|]|]; simpl; rewrite ?lookup_alter_eq;
      (eapply MArtifact; [done|]); by destruct (db_jobs (ex_db x) !! id).
  - rewrite !lookup_delete_eq. by apply MCleanup.
Qed.

Lemma exec_move_view (P : Scenario -> Prop) (x x' : ExecState) (id : string) :
  (is_Some (ex_registry x !! id) -> is_Some (ex_threads x !! id)) ->
  exec_move P x x' -> view x' id = view x id \/ job_move (view x id) (view x' id).
Proof.
  intros Hrt Hm. destruct Hm as [x x' Hj Hr Ht|x x' id' sc params job t _ Hn Hs _ _ Hp Hc _ Hj Hr Ht|x x' id' lp ex h Hj Hr Ht
    |x x' id' Hreg Hj Hr Ht|x x' id' who Hj Hr Ht]; unfold view in *; rewrite Hj, Hr, Ht.
  - by left.
  - destruct (decide (id = id')) as [->|Hne]; [|left; by rewrite !lookup_insert_ne by done].
    right. rewrite !lookup_insert_eq, Hn. by apply MSubmit.
  - fold (view x id). fold (view (thread_step id' lp ex h x) id). destruct (decide (id = id')) as [->|Hne]; [apply thread_step_view|].
    left. by apply thread_step_other.
  - destruct (decide (id = id')) as [->|Hne]; [|left; simpl; by rewrite lookup_alter_ne by done].
    right. simpl. rewrite lookup_alter_eq. destruct Hreg as [b Hb]. destruct Hrt as [t Ht']; [by exists b|]. rewrite Hb, Ht'. apply MCancel.
  - destruct (decide (id = id')) as [->|Hne]; [|left; simpl; by rewrite lookup_alter_ne by done].
    right. simpl. rewrite lookup_alter_eq. apply MMark. by destruct (db_jobs (ex_db x) !! id').
Qed.
End JobMoves.

(** ** The states of a job *)

Definition pc_status (pc : ThreadPC) (st : JobStatus) : Prop :=
  match pc with
  | AtLock | RecordCancelled | RecordRunning => st = JobPending
  | InProcess | Returned _ _ => st = JobRunning
  | RecordDone s _ _ => st = JobRunning /\ finished s
  | RecordArtifact s => st = s /\ finished s
  | Cleanup => finished st
  end.
Definition pc_started (t : Thread) (st : JobStatus) (started : bool) : Prop :=
  match th_pc t with
  | AtLock => started = false
  | RecordCancelled => started = false /\ th_cancelled t = true
  | Cleanup => started = false -> th_cancelled t = true /\ st = JobCancelled
  | _ => started = true
  end.

(** The row, the registry and the thread of a job fit together. *)
Definition live_ok (v : job_view) : Prop :=
  match v with
  | (_, None, None) => True
  | (Some j, Some started, Some t) => pc_status (th_pc t) (j_Status j) /\ pc_started t (j_Status j) started
  | _ => False
  end.
Definition live (x : ExecState) : Prop := forall id, live_ok (view x id).

(** What a status may become. *)
Definition status_later (s s' : JobStatus) : Prop :=
  match s with JobPending => True | JobRunning => s' <> JobPending | _ => s' = s end.

(** A cancellation reached the job before it started. *)
Definition doomed (v : job_view) : Prop :=
  match v with
  | (Some j, None, None) => j_Status j = JobPending \/ j_Status j = JobCancelled
  | (Some j, Some false, Some t) =>
      th_cancelled t = true
      /\ match th_pc t with AtLock | RecordCancelled => j_Status j = JobPending | Cleanup => j_Status j = JobCancelled | _ => False end
  | _ => False
  end.

(** No goroutine is left to finish the job. *)
Definition stranded (v : job_view) : Prop :=
  match v with (Some j, None, None) => active_status (j_Status j) | _ => False end.

Lemma with_status_Some (j : Job) (s : JobStatus) (jo : option Job) :
  with_status (Some j) s jo -> exists j', jo = Some j' /\ j_Status j' = s /\ same_run j j'.
Proof. destruct jo as [j'|]; [|done]. intros [H1 H2]. by exists j'. Qed.
Lemma kept_status_Some (j : Job) (jo : option Job) :
  kept_status (Some j) jo -> exists j', jo = Some j' /\ j_Status j' = j_Status j /\ same_run j j'.
Proof. destruct jo as [j'|]; [|done]. intros [H1 H2]. by exists j'. Qed.

Ltac job_cases :=
  repeat match goal with
  | H : with_status (Some _) _ _ |- _ => apply with_status_Some in H as (? & -> & ? & ?)
  | H : kept_status (Some _) _ |- _ => apply kept_status_Some in H as (? & -> & ? & ?)
  | H : kept_status None ?jo |- _ => destruct jo; [done|]; clear H
  | H : with_status None _ ?jo |- _ => destruct jo; [done|]; clear H
  end.

Lemma live_move (v v' : job_view) : live_ok v -> job_move v v' -> live_ok v'.
Proof.
  intros Hl Hm. destruct Hm; cbn [live_ok] in *; unfold pc_started in *;
    repeat match goal with H : match ?o with _ => _ end |- _ => is_var o; destruct o; try done end;
    job_cases; cbn [live_ok]; unfold pc_started, set_pc in *; cbn [th_pc th_cancelled] in *;
    repeat match goal with H : th_pc ?t = _ |- _ => rewrite H in *; clear H end; cbn [pc_status] in *; try naive_solver.
  - destruct Hl as (_ & _ & Hc). split; [|done]. match goal with H : j_Status _ = JobCancelled |- _ => rewrite H end. by intros [].
  - destruct Hl as [[Hs Hf] Hb]. split; [congruence|]. by rewrite Hb.
  - destruct Hl as [Hs Hp]. split; [done|]. destruct (th_pc t); naive_solver.
  - match goal with H : j_Status ?x = j_Status j |- _ => by rewrite H end.
Qed.

Lemma live_closed `{OE : OrchEnv} (x x' : ExecState) : exec_move (fun _ => True) x x' -> live x -> live x'.
Proof.
  intros Hm Hl id. specialize (Hl id). destruct (exec_move_view (fun _ => True) x x' id) as [->|Hj]; [|done|done|by eapply live_move].
  unfold live_ok, view in Hl. intros [b Hb]. rewrite Hb in Hl. destruct (ex_threads x !! id); [by eexists|]. by destruct (db_jobs (ex_db x) !! id).
Qed.
Lemma live_drop (x : ExecState) : live x -> live (MkExecState (ex_db x) ∅ ∅).
Proof. intros _ id. unfold view. simpl. rewrite !lookup_empty. by destruct (db_jobs (ex_db x) !! id). Qed.
Lemma live_view `{OE : OrchEnv} (x x' : ExecState) (id : string) :
  live x -> exec_move (fun _ => True) x x' -> view x' id = view x id \/ job_move (view x id) (view x' id).
Proof.
  intros Hl Hm. apply (exec_move_view (fun _ => True)); [|done]. intros [b Hb]. specialize (Hl id). unfold live_ok, view in Hl. rewrite Hb in Hl.
  destruct (ex_threads x !! id); [by eexists|]. by destruct (db_jobs (ex_db x) !! id).
Qed.

(** A property of the view of one job that its moves keep holds ever after. *)
Lemma view_ever `{OE : OrchEnv} `{D : Directory} `{C : CronLib} `{GC : GoCase} (V : job_view -> Prop) (id : string) (w : World)
    (es : list sys_event) :
  (forall v v', live_ok v -> job_move v v' -> V v -> V v') -> (forall jo r th, live_ok (jo, r, th) -> V (jo, r, th) -> V (jo, None, None)) ->
  holds (fun x => live x /\ V (view x id)) w -> holds (fun x => live x /\ V (view x id)) (sys_run w es).
Proof.
  intros Hm Hd. apply run_holds.
  - intros x x' Hx [Hl Hv]. split; [by eapply live_closed|]. destruct (live_view x x' id Hl Hx) as [->|Hj]; [done|]. by eapply Hm.
  - intros x [Hl Hv]. split; [by apply live_drop|]. specialize (Hl id). unfold view in *. simpl. rewrite !lookup_empty. by eapply Hd.
Qed.

Definition job_later (j : Job) (v : job_view) : Prop :=
  exists j', v.1.1 = Some j' /\ status_later (j_Status j) (j_Status j') /\ same_run j j'.

Lemma same_run_trans (a b c : Job) : same_run a b -> same_run b c -> same_run a c.
Proof. unfold same_run. intros (? & ? & ? & ?) (? & ? & ? & ?). split_and!; congruence. Qed.

Lemma later_move (j : Job) (v v' : job_view) : live_ok v -> job_move v v' -> job_later j v -> job_later j v'.
Proof.
  intros Hl Hm (j1 & Hj1 & Hs & Hr). unfold job_later.
  assert (forall j2, with_status (Some j1) (j_Status j2) (Some j2) -> status_later (j_Status j1) (j_Status j2) ->
    exists j', Some j2 = Some j' /\ status_later (j_Status j) (j_Status j') /\ same_run j j') as Hgo.
  { intros j2 [_ H2] Hs2. exists j2. split_and!; [done| |by eapply same_run_trans].
    unfold status_later in *. destruct (j_Status j), (j_Status j1), (j_Status j2); naive_solver. }
  destruct Hm; simpl in Hj1; subst; try done; simpl; job_cases; try (by exists j1); apply Hgo; try done.
  all: try (match goal with H : j_Status ?y = j_Status ?z |- _ => rewrite H; by destruct (j_Status z) end).
  all: cbn [live_ok] in Hl; destruct r; [|done]; destruct Hl as [Hp _];
    match goal with H : th_pc _ = _ |- _ => rewrite H in Hp end; cbn [pc_status] in Hp; unfold status_later.
  - by rewrite Hp.
  - by rewrite Hp.
  - destruct Hp as [-> Hf]. subst s. intros E. apply Hf. by left.
Qed.

Lemma doomed_move (v v' : job_view) : live_ok v -> job_move v v' -> doomed v -> doomed v'.
Proof.
  intros Hl Hm Hd. destruct Hm; cbn [doomed] in *; unfold set_pc in *;
    repeat match goal with H : match ?o with _ => _ end |- _ => is_var o; destruct o; try done end;
    job_cases; cbn [doomed th_pc th_cancelled] in *;
    repeat match goal with H : th_pc ?t = _ |- _ => rewrite H in *; clear H end; try naive_solver.
  - destruct Hd. congruence.
  - match goal with H : j_Status ?y = j_Status _ |- _ => by rewrite H end.
  - match goal with H : j_Status ?y = j_Status _ |- _ => by rewrite H end.
Qed.
Lemma doomed_drop (jo : option Job) (r : option bool) (th : option Thread) : doomed (jo, r, th) -> doomed (jo, None, None).
Proof. destruct jo as [j|], r as [[]|], th as [t|]; cbn; try done. intros [_ H]. destruct (th_pc t); auto; done. Qed.

Lemma stranded_move (v v' : job_view) : job_move v v' -> stranded v -> stranded v'.
Proof.
  intros Hm Hd. destruct Hm; cbn [stranded] in *;
    repeat match goal with H : match ?o with _ => _ end |- _ => is_var o; destruct o; try done end; job_cases; cbn [stranded]; try done.
  match goal with H : j_Status ?y = j_Status _ |- _ => by rewrite H end.
Qed.

Section JobTheorems.
  Context `{OE : OrchEnv} `{D : Directory} `{C : CronLib} `{GC : GoCase}.

Definition world_job (w : World) (id : string) : option Job := db_jobs (world_db w) !! id.
Definition world_thread (w : World) (id : string) : option Thread := x ← world_exec w; ex_threads x !! id.

Lemma holds_db (P : ExecState -> Prop) (w : World) :
  holds P w -> exists x, P x /\ ex_db x = world_db w /\ (forall id, ex_threads x !! id = world_thread w id).
Proof. destruct w as [d sv ck|db]; cbn [holds]; intros H; eexists; split; [exact H|done|exact H|]. split; [done|]. intros id. cbn. apply lookup_empty. Qed.

(** A process that has just been started. *)
Lemma start_live (d : Deps) (seeds : list (option (list (string * ScheduleRecord)))) (tokenID raw : string) (db : OrchestratorDB) (sv : Server) :
  start d seeds tokenID raw db = Some sv -> live (sv_exec sv) /\ (forall id j, db_jobs db !! id = Some j -> view (sv_exec sv) id = (Some j, None, None)).
Proof.
  intros H. destruct (start_keeps _ _ _ _ _ _ H) as (Hj & _ & Hr & Ht). unfold sv_db in Hj. split.
  - intros id. unfold view. rewrite Hr, Ht, !lookup_empty. by destruct (db_jobs (ex_db (sv_exec sv)) !! id).
  - intros id j Hid. unfold view. by rewrite Hr, Ht, Hj, Hid, !lookup_empty.
Qed.
End JobTheorems.

(** The critical section succeeds only before the job starts. *)
Lemma cancel_dooms `{OE : OrchEnv} (id : string) (x x' : ExecState) : live x -> cancel_locked id x = Ok x' -> live x' /\ doomed (view x' id).
Proof.
  intros Hl Hc. unfold cancel_locked in Hc. destruct (ex_registry x !! id) as [[]|] eqn:Er; [done| |done]. injection Hc as <-.
  assert (exec_move (fun _ => True) x (cancel_context id x)) as Hm by (eapply (Cancels _ _ _ id); try done; by rewrite Er).
  split; [by eapply live_closed|]. specialize (Hl id). unfold live_ok, view in *. simpl. rewrite lookup_alter_eq, Er in *.
  destruct (db_jobs (ex_db x) !! id) as [j|], (ex_threads x !! id) as [t|]; try done.
  destruct Hl as [Hp Hst]. simpl. split; [done|]. unfold pc_started in Hst. destruct (th_pc t); cbn in *; naive_solver.
Qed.

Lemma cancelled_thread_ends `{OE : OrchEnv} (id lp : string) (ex : string * option string) (h : string -> option (string * Z)) (x : ExecState)
    (t : Thread) (j : Job) :
  ex_threads x !! id = Some t -> th_pc t = AtLock -> th_cancelled t = true -> db_jobs (ex_db x) !! id = Some j ->
  let x3 := thread_step id lp ex h (thread_step id lp ex h (thread_step id lp ex h x)) in
  ex_threads x3 !! id = None /\ exists j', db_jobs (ex_db x3) !! id = Some j' /\ j_Status j' = JobCancelled.
Proof.
  intros Ht Hp Hc Hj x3. unfold x3.
  assert (thread_step id lp ex h x = set_thread id (set_pc RecordCancelled t) x) as -> by (unfold thread_step; by rewrite Ht, Hp, Hc).
  set (x1 := set_thread _ _ _). assert (ex_threads x1 !! id = Some (set_pc RecordCancelled t)) as H1 by apply lookup_insert_eq.
  assert (thread_step id lp ex h x1 = set_thread id (set_pc Cleanup (set_pc RecordCancelled t)) (on_db (UpdateJobDone id JobCancelled "" "") x1))
    as -> by (unfold thread_step; by rewrite H1).
  set (x2 := set_thread _ _ _). assert (ex_threads x2 !! id = Some (set_pc Cleanup (set_pc RecordCancelled t))) as H2 by apply lookup_insert_eq.
  unfold thread_step. rewrite H2. cbn [set_pc th_pc ex_threads ex_db]. split; [apply lookup_delete_eq|].
  unfold x2. cbn. rewrite lookup_alter_eq, Hj. by eexists.
Qed.

(** ** The theorems *)

(** Whatever happens after, restarts included, a job keeps its scenario, parameters, schedule and submitter and is never lost; its
    status goes from pending to running to one of the final ones, or from pending to a final one, and a final status stays. *)
Theorem job_status_only_advances `{OE : OrchEnv} `{D : Directory} `{C : CronLib} `{GC : GoCase} (w : World) (es : list sys_event)
    (id : string) (j : Job) :
  holds live w -> world_job w id = Some j ->
  exists j', world_job (sys_run w es) id = Some j' /\ status_later (j_Status j) (j_Status j') /\ same_run j j'.
Proof.
  intros Hl Hj. pose proof (view_ever (job_later j) id w es) as H.
  assert (holds (fun x => live x /\ job_later j (view x id)) (sys_run w es)) as Hh.
  { apply H; [intros; by eapply later_move|intros jo r th _ (j' & ? & ?); by exists j'|].
    assert (forall x, ex_db x = world_db w -> live x -> live x /\ job_later j (view x id)) as Hx.
    { intros x Hx Hlx. split; [done|]. exists j. unfold world_job in Hj. unfold view. rewrite Hx. split_and!; [done| |done].
      by destruct (j_Status j). }
    destruct w as [d sv ck|db]; cbn [holds] in *; by apply Hx. }
  apply holds_db in Hh as (x & [_ (j' & Hj' & Hs & Hr)] & Hdb & _). exists j'. unfold world_job. rewrite <- Hdb. done.
Qed.

(** C29. When the critical section of a cancellation succeeds the job is never run: whatever happens after, its row stays pending until it
    is cancelled and its goroutine never gets past the lock; three steps of the goroutine record the cancellation and end it. *)
Theorem cancelled_job_never_runs `{OE : OrchEnv} `{D : Directory} `{C : CronLib} `{GC : GoCase} (d : Deps) (sv : Server)
    (ck : list (Principal * string * (Scenario * Params))) (id : string) (x : ExecState) (es : list sys_event) :
  live (sv_exec sv) -> cancel_locked id (sv_exec sv) = Ok x ->
  let w := sys_step (Up d sv ck) (CancelLocked id) in
  (exists j, world_job (sys_run w es) id = Some j /\ (j_Status j = JobPending \/ j_Status j = JobCancelled))
  /\ (forall t, world_thread (sys_run w es) id = Some t ->
        th_cancelled t = true /\ (th_pc t = AtLock \/ th_pc t = RecordCancelled \/ th_pc t = Cleanup))
  /\ (forall lp ex h j, th_pc <$> world_thread w id = Some AtLock ->
        let w3 := sys_run w (replicate 3 (ThreadSteps id lp ex h)) in
        world_job w3 id = Some j -> j_Status j = JobCancelled /\ world_thread w3 id = None).
Proof.
  intros Hl Hc w. destruct (cancel_dooms id _ _ Hl Hc) as [Hlx Hdx]. assert (w = Up d (set_exec x sv) ck) as -> by (unfold w; cbn; by rewrite Hc).
  pose proof (view_ever doomed id (Up d (set_exec x sv) ck) es) as H.
  destruct (holds_db _ _ (H doomed_move (fun jo r th _ => doomed_drop jo r th) (conj Hlx Hdx))) as (y & [_ Hy] & Hdb & Hth).
  unfold world_job. rewrite <- Hdb. setoid_rewrite <- Hth. unfold view, doomed in Hy. split_and!.
  - destruct (db_jobs (ex_db y) !! id) as [j|]; [|done]. exists j. split; [done|].
    destruct (ex_registry y !! id) as [[]|], (ex_threads y !! id) as [t|]; try done. destruct Hy as [_ Hy]. destruct (th_pc t); auto; done.
  - intros t Ht. rewrite Ht in Hy. destruct (db_jobs (ex_db y) !! id) as [j|], (ex_registry y !! id) as [[]|]; try done.
    destruct Hy as [Hcn Hy]. split; [done|]. destruct (th_pc t); auto; done.
  - intros lp ex h j Hp. cbn in Hp. destruct (ex_threads x !! id) as [t|] eqn:Et; [|done]. injection Hp as Hp.
    assert (th_cancelled t = true /\ exists j0, db_jobs (ex_db x) !! id = Some j0) as [Hcn [j0 Hj0]].
    { unfold doomed, view in Hdx. rewrite Et in Hdx. destruct (db_jobs (ex_db x) !! id) as [j0|], (ex_registry x !! id) as [[]|]; try done.
      destruct Hdx. eauto. }
    destruct (cancelled_thread_ends id lp ex h x t j0 Et Hp Hcn Hj0) as [Hn (j' & Hj' & Hs)].
    cbn. unfold sv_db. cbn [sv_exec set_exec]. intros Hj. rewrite Hj' in Hj. injection Hj as <-. by rewrite Hn.
Qed.

Section Stranded.
  Context `{OE : OrchEnv} `{D : Directory} `{C : CronLib} `{GC : GoCase}.

Lemma count_active_le (db db' : OrchestratorDB) :
  (forall id j, db_jobs db !! id = Some j -> active_status (j_Status j) ->
     exists j', db_jobs db' !! id = Some j' /\ active_status (j_Status j')) ->
  CountActiveJobs db <= CountActiveJobs db'.
Proof.
  intros H. unfold CountActiveJobs. apply Nat2Z.inj_le. rewrite <- !(size_dom (D := gset string)). apply subseteq_size.
  intros id. rewrite !elem_of_dom. intros [j Hj]. apply map_lookup_filter_Some in Hj as [Hj Ha]. destruct (H id j Hj Ha) as (j' & Hj' & Ha').
  exists j'. by apply map_lookup_filter_Some.
Qed.

Lemma limit_refuses (d : Deps) (a : string) (dr : Draws) (sv : Server) :
  CheckPipelineLimit (d_gate d) (CountActiveJobs (sv_db sv)) = false ->
  (forall name params, snd (serve_http d a (RunScenario name params) dr sv) <> Status 202)
  /\ (forall id, snd (serve_http d a (ApproveRequest id) dr sv) <> Status 200).
Proof.
  intros Hc. unfold serve_http. destruct (authenticate _ _ _) as [p|]; [|done]. split; intros; destruct (RequireRole _ p); try done; cbn.
  - unfold run_scenario. destruct (d_scenes d !! name) as [s|]; [|done]. destruct (negb _); [done|]. destruct params; [|done].
    destruct (ValidateParams _ _); [|done]. destruct (VerifyScenarioChecksum _ _); [|done]. destruct (negb _); [done|]. by rewrite Hc.
  - unfold approve_request, approve_check. destruct (loadPendingForReview d id sv) as [[req s]|code] eqn:El; simpl.
    + unfold evaluate. rewrite Hc, andb_false_r. destruct (ValidateParams _ _); [|done]. by destruct (VerifyScenarioChecksum _ _).
    + unfold loadPendingForReview in El. destruct (db_requests _ !! id) as [req|]; [|by injection El as <-].
      destruct (bool_decide _); [by injection El as <-|]. destruct (d_scenes d !! _); [done|]. by injection El as <-.
Qed.
End Stranded.

(** Jobs that were pending or running when the process went away stay so for ever: nothing resets them at the start.  Once they are as
    many as the licence allows at a time, no run is accepted and no request approved in any later process. *)
Theorem restart_blocks_runs `{OE : OrchEnv} `{D : Directory} `{C : CronLib} `{GC : GoCase} (d d' : Deps)
    (seeds : list (option (list (string * ScheduleRecord)))) (tokenID raw : string) (db : OrchestratorDB) (sv sv' : Server)
    (es : list sys_event) (ck' : list (Principal * string * (Scenario * Params))) (a : string) (dr : Draws) :
  start d seeds tokenID raw db = Some sv -> sys_run (Up d sv []) es = Up d' sv' ck' ->
  0 < PipelineLimit (tg_License (d_gate d')) <= CountActiveJobs db ->
  (forall name params, snd (serve_http d' a (RunScenario name params) dr sv') <> Status 202)
  /\ (forall id, snd (serve_http d' a (ApproveRequest id) dr sv') <> Status 200).
Proof.
  intros Hs Hrun Hlim. apply limit_refuses. destruct (start_live _ _ _ _ _ _ Hs) as [Hl Hv].
  assert (CountActiveJobs db <= CountActiveJobs (sv_db sv')) as Hc.
  { apply count_active_le. intros id j Hj Ha. pose proof (view_ever stranded id (Up d sv []) es) as H. rewrite Hrun in H.
    destruct H as [_ H]; [intros v v' _; apply stranded_move|by intros [] [] []| |].
    - split; [done|]. by rewrite (Hv id j Hj).
    - unfold view in H. unfold sv_db. destruct (db_jobs (ex_db (sv_exec sv')) !! id) as [j'|]; [|done].
      destruct (ex_registry _ !! id), (ex_threads _ !! id); try done. by exists j'. }
  unfold CheckPipelineLimit. apply orb_false_iff. split; [apply Z.eqb_neq; lia|apply Z.ltb_ge; lia].
Qed.

(** ** Approvals *)

Section Approvals.
  Context `{OE : OrchEnv} `{D : Directory} `{C : CronLib} `{GC : GoCase}.

(** In the history an administrator approved the scenario when its content had this checksum. *)
Definition approved_in (w0 : World) (es : list sys_event) (name sum : string) : Prop :=
  exists es1 a dr es2 d sv ck p s,
    es = es1 ++ Http a (ApproveScenario name) dr :: es2 /\ sys_run w0 es1 = Up d sv ck
    /\ authenticate (d_auth d) a (sv_db sv) = Some p /\ roleRank RoleAdmin <= roleRank (p_Role p)
    /\ d_scenes d !! name = Some s /\ scenarioChecksum s = sum.

(** A thread runs the content of a scenario that satisfies [A], with the parameters of its job. *)
Definition thread_of (A : Scenario -> Prop) (x : ExecState) (id : string) (t : Thread) : Prop :=
  exists sc j, db_jobs (ex_db x) !! id = Some j /\ j_Scenario j = sc_Name sc
    /\ template_execute (sc_RawYAML sc) (j_Params j) = Some (th_rendered t) /\ A sc.
Definition threads_of (A : Scenario -> Prop) (x : ExecState) : Prop := map_Forall (thread_of A x) (ex_threads x).

Lemma thread_step_rendered (id id' lp : string) (ex : string * option string) (h : string -> option (string * Z)) (x : ExecState) (t' : Thread) :
  ex_threads (thread_step id lp ex h x) !! id' = Some t' -> exists t, ex_threads x !! id' = Some t /\ th_rendered t = th_rendered t'.
Proof.
  destruct (decide (id' = id)) as [->|Hne].
  - unfold thread_step. destruct (ex_threads x !! id) as [t|] eqn:Et; [|rewrite Et; done].
    assert (forall pc, Some (set_pc pc t) = Some t' -> exists t0, Some t = Some t0 /\ th_rendered t0 = th_rendered t') as Hpc
      by (intros pc [= <-]; by exists t).
    destruct (th_pc t); cbn [set_thread on_db ex_threads]; rewrite ?lookup_insert_eq, ?lookup_delete_eq; try done; try apply Hpc.
    + destruct (th_cancelled t); cbn; rewrite lookup_insert_eq; apply Hpc.
    + destruct (th_cancelled t); [|destruct err]; cbn; rewrite lookup_insert_eq; apply Hpc.
  - pose proof (thread_step_other id id' lp ex h x Hne) as H. unfold view in H. injection H as _ _ Ht. rewrite Ht. intros E. by exists t'.
Qed.

Lemma thread_step_row (id id' lp : string) (ex : string * option string) (h : string -> option (string * Z)) (x : ExecState) (j : Job) :
  db_jobs (ex_db x) !! id' = Some j -> exists j', db_jobs (ex_db (thread_step id lp ex h x)) !! id' = Some j' /\ same_run j j'.
Proof.
  intros Hj. destruct (decide (id' = id)) as [->|Hne].
  - destruct (thread_step_view id lp ex h x) as [E|Hm]; unfold view in *; [injection E as E _ _; rewrite E; by exists j|].
    rewrite Hj in Hm. revert Hm. generalize (db_jobs (ex_db (thread_step id lp ex h x)) !! id) as jo. intros jo Hm.
    inversion Hm; subst; job_cases; eauto; by exists j.
  - pose proof (thread_step_other id id' lp ex h x Hne) as H. unfold view in H. injection H as E _ _. rewrite E. by exists j.
Qed.

Lemma threads_of_move (A : Scenario -> Prop) (x x' : ExecState) : exec_move A x x' -> threads_of A x -> threads_of A x'.
Proof.
  intros Hm Hx id t Ht.
  assert (forall t0 j', ex_threads x !! id = Some t0 -> th_rendered t0 = th_rendered t ->
    (forall j, db_jobs (ex_db x) !! id = Some j -> db_jobs (ex_db x') !! id = Some (j' j) /\ same_run j (j' j)) -> thread_of A x' id t) as Hgo.
  { intros t0 j' Ht0 Hr Hj. destruct (Hx id t0 Ht0) as (sc & j & Hj0 & Hn & He & HA). destruct (Hj j Hj0) as [Hj' (E1 & E2 & _)].
    exists sc, (j' j). split_and!; [done|congruence|by rewrite E2, <- Hr|done]. }
  destruct Hm as [x x' Hj Hr Hth|x x' id' sc params job t1 HA Hn Hs Hsc Hpar Hp Hc He Hj Hr Hth|x x' id' lp ex h Hj Hr Hth
    |x x' id' Hreg Hj Hr Hth|x x' id' who Hj Hr Hth]; rewrite Hth in Ht.
  - apply (Hgo t (fun j => j)); [done|done|]. by rewrite Hj.
  - destruct (decide (id = id')) as [->|Hne].
    + rewrite lookup_insert_eq in Ht. injection Ht as <-. exists sc, job. rewrite Hj, lookup_insert_eq. by subst params.
    + rewrite lookup_insert_ne in Ht by done. apply (Hgo t (fun j => j)); [done|done|]. by rewrite Hj, lookup_insert_ne by done.
  - apply thread_step_rendered in Ht as (t0 & Ht0 & Hr0). destruct (Hx id t0 Ht0) as (sc & j & Hj0 & Hn & He & HA).
    destruct (thread_step_row id' id lp ex h x j Hj0) as (j' & Hj' & E1 & E2 & _). exists sc, j'. rewrite Hj.
    split_and!; [done|congruence|by rewrite E2, <- Hr0|done].
  - cbn in Ht. destruct (decide (id = id')) as [->|Hne]; [|rewrite lookup_alter_ne in Ht by done; apply (Hgo t (fun j => j)); [done|done|by rewrite Hj]].
    rewrite lookup_alter_eq in Ht. destruct (ex_threads x !! id') as [t0|] eqn:E; [|done]. injection Ht as <-.
    apply (Hgo t0 (fun j => j)); [done|done|by rewrite Hj].
  - destruct (decide (id = id')) as [->|Hne]; [|apply (Hgo t (fun j => j)); [done|done|rewrite Hj; cbn; by rewrite lookup_alter_ne by done]].
    apply (Hgo t (fun j => MkJob (j_ScheduleID j) (j_Scenario j) (j_Params j) (j_Status j) (j_SubmittedBy j) (j_Runner j) (j_Log j)
    (j_Error j) (j_Artifact j) who)); [done|done|]. intros j Hj0. rewrite Hj. cbn. by rewrite lookup_alter_eq, Hj0.
Qed.

Lemma threads_of_moves (A Q : Scenario -> Prop) (x x' : ExecState) :
  (forall sc, Q sc -> A sc) -> rtc (exec_move Q) x x' -> threads_of A x -> threads_of A x'.
Proof. intros HQ. induction 1 as [|x y z Hm _ IH]; [done|]. intros Hx. apply IH. eapply threads_of_move; [|done]. by eapply exec_move_weaken. Qed.

Lemma threads_of_weaken (A B : Scenario -> Prop) (x : ExecState) : (forall sc, A sc -> B sc) -> threads_of A x -> threads_of B x.
Proof. intros H Hx id t Ht. destruct (Hx id t Ht) as (sc & j & ? & ? & ? & ?). exists sc, j. split_and!; auto. Qed.

Lemma Submit_keeps (e : Executor) (sc : Scenario) (params : Params) (sched by_ : string) (dr : Draws) (x x' : ExecState) :
  Submit e sc params sched by_ dr x = Ok x' -> db_scenarios (ex_db x') = db_scenarios (ex_db x).
Proof. intros H. destruct (Submit_scenarios _ _ _ _ _ _ _ _ H) as [js ->]. done. Qed.

Lemma thread_step_keeps (id lp : string) (ex : string * option string) (h : string -> option (string * Z)) (x : ExecState) :
  db_scenarios (ex_db (thread_step id lp ex h x)) = db_scenarios (ex_db x).
Proof.
  unfold thread_step. destruct (ex_threads x !! id) as [t|]; [|done]. destruct (th_pc t); try done.
  - by destruct (th_cancelled t).
  - destruct (th_cancelled t); [done|]. by destruct err.
  - cbn. destruct (_ && _); [|done]. by destruct (h _) as [[]|].
Qed.

Lemma job_action_keeps (p : Principal) (id : string) (act : string -> string -> ExecState -> result job_error ExecState) (sv : Server) :
  (forall who x', act id who (sv_exec sv) = Ok x' -> db_scenarios (ex_db x') = db_scenarios (sv_db sv)) ->
  db_scenarios (sv_db (fst (job_action p id act sv))) = db_scenarios (sv_db sv).
Proof.
  intros H. unfold job_action. destruct (db_jobs (sv_db sv) !! id); [|done]. destruct (_ && _); [done|].
  destruct (act id (p_Name p) (sv_exec sv)) as [x|[]] eqn:E; [|done..]. by apply (H (p_Name p)).
Qed.
Lemma Cancel_keeps (id who : string) (x x' : ExecState) : Cancel id who x = Ok x' -> db_scenarios (ex_db x') = db_scenarios (ex_db x).
Proof.
  unfold Cancel, cancel_locked. destruct (db_jobs (ex_db x) !! id); [|done]. destruct (bool_decide _); [done|].
  destruct (ex_registry x !! id) as [[]|]; [done| |done]. simpl. by intros [= <-].
Qed.
Lemma Stop_keeps (id who : string) (x x' : ExecState) : Stop id who x = Ok x' -> db_scenarios (ex_db x') = db_scenarios (ex_db x).
Proof.
  unfold Stop. destruct (db_jobs (ex_db x) !! id); [|done]. destruct (bool_decide _); [done|].
  destruct (ex_registry x !! id); [|done]. by intros [= <-].
Qed.

(** Only the two routes of approvals write their table. *)
Lemma handle_scenarios (d : Deps) (p : Principal) (r : request) (dr : Draws) (sv : Server) (name : string) (ap : ScenarioApproval) :
  db_scenarios (sv_db (fst (handle d p r dr sv))) !! name = Some ap ->
  db_scenarios (sv_db sv) !! name = Some ap
  \/ (r = ApproveScenario name /\ exists s, d_scenes d !! name = Some s /\ sa_SHA256 ap = scenarioChecksum s).
Proof.
  destruct r; cbn [handle coded fst]; try (by left).
  - left. unfold run_scenario in *. destruct (d_scenes d !! _) as [s|]; [|done]. destruct (negb _); [done|]. destruct params; [|done].
    destruct (ValidateParams _ _); [|done]. destruct (VerifyScenarioChecksum _ _); [|done]. destruct (negb _); [done|].
    destruct (negb _); [done|]. destruct (Submit _ _ _ _ _ _ _) as [x|] eqn:E; [|done]. unfold sv_db in *. cbn in *. by rewrite <- (Submit_keeps _ _ _ _ _ _ _ _ E).
  - unfold approve_scenario. destruct (d_scenes d !! _) as [s|] eqn:Es; [|by left]. cbn.
    destruct (decide (name0 = name)) as [->|Hne]; [|rewrite lookup_insert_ne by done; by left].
    rewrite lookup_insert_eq. intros [= <-]. right. split; [done|]. by exists s.
  - cbn. intros H. left. by apply lookup_delete_Some in H as [_ ?].
  - left. by rewrite <- (job_action_keeps p id Cancel sv) by (intros; by eapply Cancel_keeps).
  - left. by rewrite <- (job_action_keeps p id Stop sv) by (intros; by eapply Stop_keeps).
  - left. unfold add_schedule in *. destruct rec as [[id r]|]; [|done]. destruct (_ || _); [done|].
    destruct (Scheduler_Add d id _ sv) as [sv' o] eqn:E. apply (f_equal fst) in E. cbn [fst] in E. subst sv'.
    unfold sv_db in *. by destruct o; cbn [fst] in *; rewrite Add_exec in *.
  - left. destruct (Scheduler_Enable d id sv) as [sv' o] eqn:E. apply (f_equal fst) in E. cbn [fst] in E. subst sv'.
    unfold sv_db in *. cbn [fst] in *. by rewrite Enable_exec in *.
  - left. unfold Scheduler_Disable, sv_db in *. by rewrite unregister_exec in *.
  - left. unfold Scheduler_Delete, sv_db, with_db, set_exec in *. cbn [sv_exec] in *. by rewrite unregister_exec in *.
  - left. unfold post_token in *. destruct (d_auth d); [| |done]; (destruct body as [[[? role] scs]|]; [|done]; destruct (_ || _); [done|];
      unfold CreateToken, InsertToken in *; by destruct (bool_decide _)).
  - left. unfold submit_request in *. destruct body as [[[sc ps] title]|]; [|done]. destruct (d_scenes d !! sc); [|done].
    destruct (negb _); [done|]. destruct (ValidateParams _ _); [|done]. unfold InsertRequest in *. by destruct (db_requests (sv_db sv) !! id).
  - left. unfold approve_request in *. destruct (approve_check d id sv) as [c|]; [|done]. unfold approve_commit in *.
    destruct (Submit _ _ _ _ _ _ _) as [x|] eqn:E; [|done]. unfold sv_db in *. cbn in *. by rewrite <- (Submit_keeps _ _ _ _ _ _ _ _ E).
  - left. unfold reject_request in *. destruct (db_requests (sv_db sv) !! id); [|done]. by destruct (bool_decide _).
Qed.

Lemma approve_commit_keeps (d : Deps) (p : Principal) (id : string) (c : Scenario * Params) (dr : Draws) (sv : Server) :
  db_scenarios (sv_db (fst (approve_commit d p id c dr sv))) = db_scenarios (sv_db sv).
Proof.
  unfold approve_commit. destruct (Submit _ _ _ _ _ _ _) as [x|] eqn:E; [|done]. unfold sv_db. cbn. by rewrite (Submit_keeps _ _ _ _ _ _ _ _ E).
Qed.
Lemma cron_keeps (d : Deps) (i : nat) (now : Z) (dr : Draws) (sv : Server) :
  db_scenarios (sv_db (cron_fire d i now dr sv)) = db_scenarios (sv_db sv).
Proof.
  unfold cron_fire. destruct (cron_has _ _); [|done]. destruct (sv_funcs sv !! i) as [e|]; [|done]. unfold cron_run.
  destruct (ValidateParams _ _); [|done]. destruct (VerifyScenarioChecksum _ _); [|done]. destruct (negb _); [done|].
  destruct (Submit _ _ _ _ _ _ _) as [x|] eqn:E; [|done]. unfold sv_db. cbn. by rewrite (Submit_keeps _ _ _ _ _ _ _ _ E).
Qed.
Lemma dispatch_keeps (d : Deps) (payload : option PipelineResult) (dr : Draws) (sv : Server) :
  db_scenarios (sv_db (dispatch d payload dr sv)) = db_scenarios (sv_db sv).
Proof.
  unfold dispatch. destruct payload as [r|]; [|done]. destruct (subscriptions _ !! _); [|done]. destruct (negb _); [done|].
  destruct (d_scenes d !! _); [|done]. destruct (VerifyScenarioChecksum _ _); [|done]. destruct (negb _); [done|].
  destruct (ValidateParams _ _); [|done]. destruct (Submit _ _ _ _ _ _ _) as [x|] eqn:E; [|done]. unfold sv_db. cbn.
  by rewrite (Submit_keeps _ _ _ _ _ _ _ _ E).
Qed.

Lemma approved_in_app (w0 : World) (es es' : list sys_event) (name sum : string) :
  approved_in w0 es name sum -> approved_in w0 (es ++ es') name sum.
Proof.
  intros (es1 & a & dr & es2 & d & sv & ck & p & s & -> & H). exists es1, a, dr, (es2 ++ es'), d, sv, ck, p, s.
  split; [by rewrite <- app_assoc|done].
Qed.

(** Every row of the table, every approval under way and every thread goes back to an administrator's approval. *)
Definition approval_inv (w0 : World) (es : list sys_event) (w : World) : Prop :=
  let A sc := approved_in w0 es (sc_Name sc) (scenarioChecksum sc) in
  map_Forall (fun name ap => approved_in w0 es name (sa_SHA256 ap)) (db_scenarios (world_db w))
  /\ match w with
     | Up d sv ck => threads_of A (sv_exec sv) /\ Forall (fun c => A c.2.1) ck
     | Down _ => True
     end.

Lemma may_run_approved (w0 : World) (es : list sys_event) (sv : Server) (sc : Scenario) :
  map_Forall (fun name ap => approved_in w0 es name (sa_SHA256 ap)) (db_scenarios (sv_db sv)) -> may_run sv sc ->
  approved_in w0 es (sc_Name sc) (scenarioChecksum sc).
Proof.
  unfold may_run, VerifyScenarioChecksum, GetScenarioApproval. intros Ht. destruct (db_scenarios (sv_db sv) !! sc_Name sc) as [ap|] eqn:E; [|done].
  destruct (negb (sa_Enabled ap)); [done|]. destruct (String.eqb_spec (scenarioChecksum sc) (sa_SHA256 ap)) as [->|]; [|done].
  intros _. exact (Ht _ _ E).
Qed.

Lemma approval_inv_step (w0 : World) (es : list sys_event) (e : sys_event) :
  approval_inv w0 es (sys_run w0 es) -> approval_inv w0 (es ++ [e]) (sys_step (sys_run w0 es) e).
Proof.
  remember (sys_run w0 es) as w eqn:Hw. intros [Ht Hu].
  assert (map_Forall (fun name ap => approved_in w0 (es ++ [e]) name (sa_SHA256 ap)) (db_scenarios (world_db w))) as Ht'
    by (eapply map_Forall_impl; [exact Ht|]; intros; by apply approved_in_app).
  assert (forall d seeds t r, e = Restart d seeds t r -> approval_inv w0 (es ++ [e]) (sys_step w e)) as Hre.
  { intros d seeds t r He. rewrite He at 2. cbn [sys_step]. destruct (start d seeds t r (world_db w)) as [sv|] eqn:E.
    - destruct (start_keeps _ _ _ _ _ _ E) as (_ & Hs & _ & Hth). split; cbn [world_db]; [by rewrite Hs|]. split; [|done].
      intros id th. rewrite Hth, lookup_empty. done.
    - split; [|done]. cbn [world_db]. by rewrite (proj2 (Seed_keeps seeds (world_db w))). }
  destruct w as [d sv ck|db]; [|destruct e; try done; by eapply Hre]. cbn [world_db] in *. destruct Hu as [Hth Hck].
  assert (forall sc, may_run sv sc -> approved_in w0 (es ++ [e]) (sc_Name sc) (scenarioChecksum sc)) as Hmay
    by (intros sc Hsc; apply approved_in_app; by eapply may_run_approved).
  assert (threads_of (fun sc => approved_in w0 (es ++ [e]) (sc_Name sc) (scenarioChecksum sc)) (sv_exec sv)) as Hth'
    by (eapply threads_of_weaken; [|exact Hth]; intros; by apply approved_in_app).
  assert (Forall (fun c => approved_in w0 (es ++ [e]) (sc_Name c.2.1) (scenarioChecksum c.2.1)) ck) as Hck'
    by (eapply Forall_impl; [exact Hck|]; intros; by apply approved_in_app).
  destruct e; cbn [sys_step] in *; try (by eapply Hre).
  - split; [|split; [|done]].
    + intros name ap Hap. cbn [world_db] in Hap. unfold serve_http in Hap. destruct (authenticate _ _ _) as [p|] eqn:Ea; [|by apply Ht'].
      destruct (RequireRole _ p) eqn:Er; [|by apply Ht']. apply handle_scenarios in Hap as [Hap|(-> & s & Hs & ->)]; [by apply Ht'|].
      exists es, authorization, dr, [], d, sv, ck, p, s. split_and!; try done. by apply Z.leb_le.
    + eapply threads_of_moves; [exact Hmay|apply serve_moves|done].
  - destruct (authenticate _ _ _) as [p|]; [|done]. destruct (RequireRole _ p); [|done].
    destruct (approve_check d id sv) as [c|] eqn:Ec; [|done]. split; [done|]. split; [done|]. apply Forall_app. split; [done|].
    apply Forall_singleton. cbn. apply Hmay. by eapply approve_check_inv.
  - destruct (ck !! k) as [[[p id] c]|] eqn:Ek; [|done]. split; [cbn [world_db]; by rewrite approve_commit_keeps|].
    split; [|by apply Forall_delete]. eapply threads_of_move; [|exact Hth']. apply approve_commit_move.
    exact (proj1 (Forall_lookup _ _) Hck' _ _ Ek).
  - split; [cbn [world_db]; by rewrite cron_keeps|]. split; [|done]. eapply threads_of_moves; [exact Hmay|apply cron_moves|done].
  - split; [cbn [world_db]; by rewrite dispatch_keeps|]. split; [|done]. eapply threads_of_moves; [exact Hmay|apply dispatch_moves|done].
  - split; [cbn [world_db]; unfold sv_db; cbn [sv_exec set_exec]; by rewrite thread_step_keeps|]. split; [|done].
    eapply threads_of_move; [|exact Hth']. by eapply Threads.
  - unfold cancel_locked. destruct (ex_registry (sv_exec sv) !! id) as [[]|] eqn:E; [done| |done]. split; [done|]. split; [|done].
    eapply threads_of_move; [|exact Hth']. by eapply (Cancels _ _ _ id); [rewrite E; eauto|..].
  - destruct (ex_registry (sv_exec sv) !! id) eqn:E; [|done]. split; [done|]. split; [|done].
    eapply threads_of_move; [|exact Hth']. by eapply (Cancels _ _ _ id); [rewrite E; eauto|..].
  - split; [done|]. split; [|done]. eapply threads_of_move; [|exact Hth']. by eapply Marks.
Qed.
End Approvals.

(** C6. On a database without approvals, every subprocess that ever runs runs the rendering of a scenario text whose checksum an
    administrator approved, through the API and under the same scenario name, earlier in the history: whatever is edited or added in the
    scenario directory between restarts, and whichever of the requests, schedules, pipeline events and approvals started it. *)
Theorem only_approved_content_runs `{OE : OrchEnv} `{D : Directory} `{C : CronLib} `{GC : GoCase} (db : OrchestratorDB)
    (es : list sys_event) (id : string) (t : Thread) :
  db_scenarios db = ∅ -> world_thread (sys_run (Down db) es) id = Some t ->
  exists sc j, world_job (sys_run (Down db) es) id = Some j /\ j_Scenario j = sc_Name sc
    /\ template_execute (sc_RawYAML sc) (j_Params j) = Some (th_rendered t)
    /\ approved_in (Down db) es (sc_Name sc) (scenarioChecksum sc).
Proof.
  intros Hdb Ht. assert (approval_inv (Down db) es (sys_run (Down db) es)) as [_ Hinv].
  { clear Ht. induction es as [|e es IH] using rev_ind.
    - split; [|done]. cbn. rewrite Hdb. apply map_Forall_empty.
    - unfold sys_run at 1. rewrite fold_left_app. by apply approval_inv_step. }
  destruct (sys_run (Down db) es) as [d sv ck|db']; [|done]. destruct Hinv as [Hth _].
  destruct (Hth id t Ht) as (sc & j & H). by exists sc, j.
Qed.

(** ** Witnesses *)

(** Templates without placeholders, a checksum that shows its text, a cron table of numbered entries. *)
Definition demo_orch : OrchEnv := {|
  sha256_hex s := "sha256:" +:+ s;
  regexp_match pattern s := Some (String.eqb pattern ("^(?:" +:+ s +:+ ")$"));
  template_execute text _ := Some text;
  yaml_scenario s := Some (s, [], [], "");
  dates_in _ _ := ("2026-01", "2026-01-02", "2026-01-01");
|}.
Definition demo_cron : CronLib := {|
  cron_table := list nat;
  cron_new := [];
  cron_add expr t := if String.eqb expr "bad" then None else Some (S (max_list t), S (max_list t) :: t);
  cron_remove i t := List.filter (fun k => negb (k =? i)%nat) t;
  cron_has t k := existsb (Nat.eqb k) t;
|}.
#[local] Existing Instance demo_orch.
#[local] Existing Instance demo_cron.
#[local] Existing Instance ascii_case.
Definition demo_directory : Directory := {|
  ldap_dial _ := true; ldap_bind _ pass := String.eqb pass "secret"; ldap_search _ user := Some [("cn=" +:+ user, ["cn=admins"])];
|}.
#[local] Existing Instance demo_directory.

Definition demo_scene : Scenario := MkScenario "sales" [MkParamDef "month" false "2026-01" "2026-01"] [] "" "body".
Definition demo_gate : TrustGate := MkTrustGate Community None false.
Definition demo_deps (auth : AuthMode) : Deps :=
  MkDeps {["sales" := demo_scene]} (MkExecutor {["tdtpcli" := MkRunnerSpec "tdtpcli" ["--pipeline"; "{{.tmpfile}}"]]} "tdtpcli" "/tmp") demo_gate auth [].
Definition empty_db : OrchestratorDB := MkOrchestratorDB ∅ ∅ ∅ ∅ ∅.
Definition demo_draws (job : string) : Draws := MkDraws "t" true job.

(** A first process with one approved scenario and one job in its queue. *)
Definition demo_history : list sys_event :=
  [Restart (demo_deps NoAuth) [] "" ""; Http "" (ApproveScenario "sales") (demo_draws ""); Http "" (RunScenario "sales" (Some ∅)) (demo_draws "job1")].
Definition demo_server : Server :=
  match sys_run (Down empty_db) demo_history with Up _ sv _ => sv | Down db => MkServer _ (MkExecState db ∅ ∅) cron_new ∅ ∅ end.

Lemma demo_live : live (sv_exec demo_server).
Proof.
  assert (holds live (sys_run (Down empty_db) demo_history)) as H.
  { apply run_holds; [apply live_closed|apply live_drop|]. intros id. exact I. }
  exact H.
Qed.

Lemma job_status_only_advances_witness :
  world_job (Up (demo_deps NoAuth) demo_server []) "job1" <> None
  /\ exists j', world_job (sys_run (Up (demo_deps NoAuth) demo_server []) [Http "" (CancelJob "job1") (demo_draws "")]) "job1" = Some j'
       /\ status_later JobPending (j_Status j').
Proof.
  destruct (world_job (Up (demo_deps NoAuth) demo_server []) "job1") as [j|] eqn:E; [|vm_compute in E; discriminate E].
  split; [done|]. destruct (job_status_only_advances (Up (demo_deps NoAuth) demo_server []) [Http "" (CancelJob "job1") (demo_draws "")] "job1" j
    demo_live E) as (j' & H1 & H2 & _). exists j'. split; [exact H1|]. exact I.
Defined.

Lemma cancelled_job_never_runs_witness :
  exists j, world_job (sys_run (sys_step (Up (demo_deps NoAuth) demo_server []) (CancelLocked "job1"))
    [ThreadSteps "job1" "" ("", None) (fun _ => None); Http "" (StopJob "job1") (demo_draws "")]) "job1" = Some j
    /\ (j_Status j = JobPending \/ j_Status j = JobCancelled).
Proof.
  destruct (cancel_locked "job1" (sv_exec demo_server)) as [x|e] eqn:E; [|vm_compute in E; discriminate E].
  exact (proj1 (cancelled_job_never_runs (demo_deps NoAuth) demo_server [] "job1" x
    [ThreadSteps "job1" "" ("", None) (fun _ => None); Http "" (StopJob "job1") (demo_draws "")] demo_live E)).
Defined.

Lemma restart_blocks_runs_witness :
  exists sv, start (demo_deps NoAuth) [] "" "" (sv_db demo_server) = Some sv
    /\ snd (serve_http (demo_deps NoAuth) "" (RunScenario "sales" (Some ∅)) (demo_draws "job2") sv) <> Status 202.
Proof.
  destruct (start (demo_deps NoAuth) [] "" "" (sv_db demo_server)) as [sv|] eqn:E; [|vm_compute in E; discriminate E].
  exists sv. split; [done|]. refine (proj1 (restart_blocks_runs (demo_deps NoAuth) (demo_deps NoAuth) [] "" "" (sv_db demo_server) sv sv [] [] ""
    (demo_draws "job2") E eq_refl _) "sales" (Some ∅)). split; vm_compute; congruence.
Defined.

Lemma only_approved_content_runs_witness :
  exists sc, sc_Name sc = "sales" /\ approved_in (Down empty_db) demo_history (sc_Name sc) (scenarioChecksum sc).
Proof.
  destruct (world_thread (sys_run (Down empty_db) demo_history) "job1") as [t|] eqn:E; [|vm_compute in E; discriminate E].
  destruct (only_approved_content_runs empty_db demo_history "job1" t eq_refl E) as (sc & j & Hj & Hn & _ & Ha).
  exists sc. split; [|exact Ha]. rewrite <- Hn. vm_compute in Hj. injection Hj as <-. reflexivity.
Defined.
