(* ===== verification/OrchestratorApi.v ===== *)
(** * OrchestratorApi: what the operations of the orchestrator promise

    Parameters, roles and the schedules of [Orchestrator]: theorems about single operations and short
    sequences of them. *)

From Stdlib Require Import ZArith Lia Ascii String.
From stdpp Require Import base gmap list strings.
From S2P Require Import Prelude Strconv Encodings License Orchestrator OrchestratorRuns.

Open Scope Z_scope.

(** ** Parameters *)

(** The value a definition takes, and whether it is admitted. *)
Definition param_value (def : ParamDef) (provided : Params) : string :=
  let val := default "" (provided !! pd_Name def) in if String.eqb val "" then pd_Default def else val.
Definition param_ok `{OrchEnv} (def : ParamDef) (provided : Params) : Prop :=
  (pd_Required def = true -> default "" (provided !! pd_Name def) <> "")
  /\ (pd_Pattern def <> "" -> param_value def provided <> "" ->
      regexp_match ("^(?:" +:+ pd_Pattern def +:+ ")$") (param_value def provided) = Some true).

Section ParamLemmas.
  Context `{OE : OrchEnv}.

Lemma validate_step (def : ParamDef) (defs : list ParamDef) (provided resolved r : Params) :
  validate_defs (def :: defs) provided resolved = Ok r <->
  param_ok def provided /\ validate_defs defs provided (<[pd_Name def := param_value def provided]> resolved) = Ok r.
Proof.
  cbn [validate_defs]. fold (param_value def provided). unfold param_ok.
  destruct (String.eqb (default "" (provided !! pd_Name def)) "" && pd_Required def) eqn:Er.
  { apply andb_true_iff in Er as [Ev%String.eqb_eq Eq]. split; [done|]. intros [[H _] _]. by destruct (H Eq). }
  assert (pd_Required def = true -> default "" (provided !! pd_Name def) <> "") as Hreq
    by (intros Eq Ev%String.eqb_eq; by rewrite Ev, Eq in Er).
  destruct (negb (String.eqb (pd_Pattern def) "") && negb (String.eqb (param_value def provided) "")) eqn:Ep.
  - apply andb_true_iff in Ep as [?%negb_true_iff%String.eqb_neq ?%negb_true_iff%String.eqb_neq].
    destruct (regexp_match _ _) as [[]|]; (split; [try done; intros Hr|intros [[_ Hm] Hr]; try done; by specialize (Hm ltac:(done) ltac:(done))]).
  - split; [|by intros [_ ?]]. intros Hr. split; [|done]. split; [done|]. intros Hp Hv. apply String.eqb_neq in Hp, Hv. by rewrite Hp, Hv in Ep.
Qed.

Lemma validate_resolved (defs : list ParamDef) (provided resolved r : Params) :
  validate_defs defs provided resolved = Ok r -> NoDup (map pd_Name defs) ->
  (forall def, def ∈ defs -> r !! pd_Name def = Some (param_value def provided))
  /\ (forall n, n ∉ map pd_Name defs -> r !! n = resolved !! n).
Proof.
  revert resolved; induction defs as [|def defs IH]; intros resolved; [intros [= <-] _; split; [by intros def ?%elem_of_nil|done]|].
  intros [_ H]%validate_step [Hn Hd]%NoDup_cons. destruct (IH _ H Hd) as [H1 H2]. split.
  - intros def' [->|Hin]%elem_of_cons; [|by apply H1]. rewrite H2 by done. apply lookup_insert_eq.
  - cbn [map]. intros n Hnin. rewrite H2 by set_solver. apply lookup_insert_ne. set_solver.
Qed.
End ParamLemmas.

(** The parameters of a run are accepted when each declared one that is required has a value and each value matches the pattern of its
    definition; then exactly the declared ones reach the template, with their defaults where no value was given. *)
Theorem validate_params_correct `{OE : OrchEnv} (s : Scenario) (provided : Params) :
  NoDup (map pd_Name (sc_Params s)) ->
  ((exists r, ValidateParams s provided = Ok r) <-> Forall (fun def => param_ok def provided) (sc_Params s))
  /\ (forall r n v, ValidateParams s provided = Ok r ->
        r !! n = Some v <-> exists def, def ∈ sc_Params s /\ pd_Name def = n /\ v = param_value def provided).
Proof.
  intros Hnd. split.
  - unfold ValidateParams. generalize (∅ : Params). induction (sc_Params s) as [|def defs IH]; intros m; [split; [done|by eexists]|].
    apply NoDup_cons in Hnd as [_ Hnd]. rewrite Forall_cons, <- (IH Hnd (<[pd_Name def := param_value def provided]> m)).
    split; [intros [r [? ?]%validate_step]; eauto|]. intros [H1 [r Hr]]. exists r. by apply validate_step.
  - intros r n v Hr. destruct (validate_resolved _ _ _ _ Hr Hnd) as [H1 H2]. split.
    + intros Hv. destruct (decide (n ∈ map pd_Name (sc_Params s))) as [Hin|Hin].
      * apply list_elem_of_In, in_map_iff in Hin as (def & <- & Hd). exists def. apply list_elem_of_In in Hd.
        split_and!; [done|done|]. rewrite (H1 def Hd) in Hv. congruence.
      * rewrite (H2 n Hin) in Hv. pose proof (lookup_empty (M := gmap string) (A := string) n) as E0. by setoid_rewrite E0 in Hv.
    + intros (def & Hd & <- & ->). by apply H1.
Qed.

(** ** Roles *)

Lemma best_role_rank (m : gmap string string) (groups : list string) (b : string * Z) :
  0 <= b.2 -> (0 < b.2 -> roleRank b.1 = b.2) ->
  let r := fold_left (best_role m) groups b in
  b.2 <= r.2 /\ (0 < r.2 -> roleRank r.1 = r.2) /\ (r = b \/ exists g, g ∈ groups /\ m !! g = Some r.1)
  /\ (forall g role, g ∈ groups -> m !! g = Some role -> roleRank role <= r.2).
Proof.
  revert b; induction groups as [|g groups IH]; intros b H0 Hb; cbn [fold_left].
  { split_and!; [lia|done|by left|]. by intros g role ?%elem_of_nil. }
  set (b' := best_role m b g). unfold best_role in b'. subst b'. destruct (m !! g) as [role|] eqn:Eg.
  - destruct (b.2 <? roleRank role) eqn:El.
    + apply Z.ltb_lt in El. destruct (IH (role, roleRank role)) as (H1 & H2 & H3 & H4); [cbn; lia|done|]. cbn [snd fst] in *.
      split_and!; [lia|done| |].
      * right. destruct H3 as [->|(g' & Hg & Hm)]; [exists g; split; [by left|done]|exists g'; split; [by right|done]].
      * intros g' role' [->|Hin]%elem_of_cons Hr; [replace role' with role by congruence; lia|by eapply H4].
    + apply Z.ltb_ge in El. destruct (IH b H0 Hb) as (H1 & H2 & H3 & H4). split_and!; [done|done| |].
      * destruct H3 as [->|(g' & Hg & Hm)]; [by left|right; exists g'; split; [by right|done]].
      * intros g' role' [->|Hin]%elem_of_cons Hr; [replace role' with role by congruence; lia|by eapply H4].
  - destruct (IH b H0 Hb) as (H1 & H2 & H3 & H4). split_and!; [done|done| |].
    + destruct H3 as [->|(g' & Hg & Hm)]; [by left|right; exists g'; split; [by right|done]].
    + intros g' role' [->|Hin]%elem_of_cons Hr; [congruence|by eapply H4].
Qed.

(** The role of a directory user is one of highest rank among those their groups map to; with none of them ranked it is the default, and
    the user is refused when there is none. *)
Theorem role_for_groups_correct (cfg : LDAPConfig) (groups : list string) :
  let unranked := forall g role, g ∈ groups -> lc_RoleMap cfg !! g = Some role -> roleRank role <= 0 in
  match roleForGroups cfg groups with
  | Some r =>
      (exists g, g ∈ groups /\ lc_RoleMap cfg !! g = Some r /\ 0 < roleRank r
         /\ forall g' role, g' ∈ groups -> lc_RoleMap cfg !! g' = Some role -> roleRank role <= roleRank r)
      \/ (unranked /\ r = lc_DefaultRole cfg /\ r <> "")
  | None => unranked /\ lc_DefaultRole cfg = ""
  end.
Proof.
  intros unranked. unfold roleForGroups. destruct (best_role_rank (lc_RoleMap cfg) groups ("", 0)) as (H1 & H2 & H3 & H4); [cbn; lia|cbn; lia|].
  destruct (fold_left (best_role (lc_RoleMap cfg)) groups ("", 0)) as [best rank]. cbn [fst snd] in *.
  destruct (0 <? rank) eqn:Er.
  - apply Z.ltb_lt in Er. left. destruct H3 as [[= -> ->]|(g & Hg & Hm)]; [lia|]. exists g. rewrite H2 by done. by split_and!.
  - apply Z.ltb_ge in Er. assert unranked as Hu by (intros g role Hg Hm; specialize (H4 g role Hg Hm); lia).
    destruct (String.eqb_spec (lc_DefaultRole cfg) ""); cbn [negb]; [done|by right].
Qed.

Section Ldap.
  Context `{OE : OrchEnv} `{D : Directory} `{C : CronLib} `{GC : GoCase}.

Lemma setup_ldap_role (url dn pw base : string) (noAuth : bool) (a : string) (db : OrchestratorDB) (p : Principal) :
  authenticate (setupAuth "ldap" url dn pw base noAuth) a db = Some p -> p_Role p = RoleConsumer /\ p_TokenID p = "".
Proof.
  unfold setupAuth. change (String.eqb "ldap" "ldap") with true. cbn [authenticate]. unfold ldap_principal. destruct (basicAuth a) as [u pass].
  destruct (_ || _); [done|]. destruct (negb _); [done|]. destruct (_ && _); [done|].
  destruct (ldap_search _ _) as [[|[userDN groups] ?]|]; [done| |done]. destruct (negb _); [done|].
  assert (roleForGroups (MkLDAPConfig url dn pw base ∅ RoleConsumer) groups = Some RoleConsumer) as ->.
  { unfold roleForGroups. cbn [lc_RoleMap]. enough (fold_left (best_role ∅) groups ("", 0) = ("", 0)) as -> by done.
    induction groups as [|g groups IH]; [done|]. cbn [fold_left]. unfold best_role at 2. by rewrite lookup_empty. }
  by intros [= <-].
Qed.
End Ldap.

(** With [--auth-type ldap] every user is a consumer, as nothing reads a role map: no caller can approve, run, schedule, cancel or
    review anything.  And as directory users have no token identifier, each of them is shown the requests of all. *)
Theorem ldap_mode_is_read_only `{OE : OrchEnv} `{D : Directory} `{C : CronLib} `{GC : GoCase} (d : Deps) (url dn pw base a : string)
    (noAuth : bool) (r : request) (dr : Draws) (sv : Server) :
  d_auth d = setupAuth "ldap" url dn pw base noAuth ->
  (route_role r <> RoleConsumer -> exists code, serve_http d a r dr sv = (sv, Status code) /\ (code = 401 \/ code = 403))
  /\ (forall status, authenticate (d_auth d) a (sv_db sv) <> None ->
        serve_http d a (ListOwnRequests status) dr sv = (sv, AnswerRequests (ListRequests status "" (sv_db sv)))).
Proof.
  intros Hd. unfold serve_http. rewrite Hd. destruct (authenticate _ a (sv_db sv)) as [p|] eqn:Ea; [|split; [eauto|done]].
  destruct (setup_ldap_role _ _ _ _ _ _ _ _ Ea) as [Hr Ht]. unfold RequireRole. rewrite Hr. split.
  - intros Hne. exists 403. split; [|by right]. enough ((roleRank (route_role r) <=? roleRank RoleConsumer) = false) as -> by done.
    by destruct r.
  - intros status _. cbn [handle]. unfold list_requests. by rewrite Hr, Ht.
Qed.

(** ** Schedules *)

(** The schedule operations of the API. *)
Inductive sched_op := OpAdd (id : string) (r : ScheduleRecord) | OpEnable (id : string) | OpDisable (id : string) | OpDelete (id : string).

Section Schedules.
  Context `{OE : OrchEnv} `{C : CronLib} `{CL : !CronLibLaws C}.

Definition sched_step (d : Deps) (sv : Server) (o : sched_op) : Server :=
  match o with
  | OpAdd id r => fst (Scheduler_Add d id r sv)
  | OpEnable id => fst (Scheduler_Enable d id sv)
  | OpDisable id => Scheduler_Disable id sv
  | OpDelete id => Scheduler_Delete id sv
  end.

(** A schedule is added or enabled only while it has no cron entry. *)
Fixpoint once_registered (d : Deps) (sv : Server) (ops : list sched_op) : Prop :=
  match ops with
  | [] => True
  | o :: ops => match o with OpAdd id _ | OpEnable id => sv_entryIDs sv !! id = None | _ => True end /\ once_registered d (sched_step d sv o) ops
  end.

(** An entry of the cron table belongs to a schedule that the database has as enabled. *)
Definition fires_enabled (sv : Server) : Prop :=
  forall k, cron_has (sv_cron sv) k = true ->
    exists e r, sv_funcs sv !! k = Some e /\ sv_entryIDs sv !! ce_schedID e = Some k
      /\ db_schedules (sv_db sv) !! ce_schedID e = Some r /\ sr_Enabled r = true.

Lemma fires_other (sv : Server) (f : gmap string ScheduleRecord -> gmap string ScheduleRecord) (id : string) :
  (forall m id', id' <> id -> f m !! id' = m !! id') -> sv_entryIDs sv !! id = None -> fires_enabled sv ->
  fires_enabled (with_db (set_schedules f) sv).
Proof.
  intros Hf Hid Hi k Hk. destruct (Hi k Hk) as (e & r & He & Hn & Hr & Hen). exists e, r. split_and!; try done.
  cbn. rewrite Hf; [done|]. intros E. rewrite E, Hid in Hn. done.
Qed.

Lemma fires_register (d : Deps) (id : string) (r : ScheduleRecord) (sv sv' : Server) :
  register d id r sv = Ok sv' -> sv_entryIDs sv !! id = None -> fires_enabled sv ->
  (exists r0, db_schedules (sv_db sv) !! id = Some r0 /\ sr_Enabled r0 = true) -> fires_enabled sv'.
Proof.
  unfold register. destruct (d_scenes d !! _) as [scene|]; [|done]. destruct (cron_add _ _) as [[i t]|] eqn:Ea; [|done].
  intros [= <-] Hid Hi (r0 & Hr0 & Hen0) k. cbn. destruct (cron_has_add _ _ _ _ k Ea) as [Hfresh ->].
  destruct (Nat.eqb_spec k i) as [->|Hne]; cbn.
  - intros _. exists (MkCronEntry id scene (sr_Params r) (sr_Timezone r)), r0. rewrite !lookup_insert_eq. done.
  - intros Hk. destruct (Hi k Hk) as (e & r1 & He & Hn & Hr & Hen). exists e, r1. rewrite lookup_insert_ne by done.
    rewrite (lookup_insert_ne (sv_entryIDs sv)) by (intros E; rewrite <- E, Hid in Hn; done). done.
Qed.

Lemma fires_unregister (id : string) (sv : Server) : fires_enabled sv -> fires_enabled (unregister id sv) /\ sv_entryIDs (unregister id sv) !! id = None.
Proof.
  intros Hi. unfold unregister. destruct (sv_entryIDs sv !! id) as [i|] eqn:Ei; [|done]. cbn. split; [|apply lookup_delete_eq].
  intros k. cbn. rewrite cron_has_remove. intros [Hk1%negb_true_iff%Nat.eqb_neq Hk2]%andb_true_iff.
  destruct (Hi k Hk2) as (e & r & He & Hn & Hr & Hen). exists e, r. rewrite lookup_delete_ne by (intros E; congruence). done.
Qed.

Lemma fires_step (d : Deps) (sv : Server) (o : sched_op) :
  match o with OpAdd id _ | OpEnable id => sv_entryIDs sv !! id = None | _ => True end -> fires_enabled sv -> fires_enabled (sched_step d sv o).
Proof.
  destruct o as [id r|id|id|id]; intros Hid Hi; cbn [sched_step].
  - assert (fires_enabled (with_db (UpsertSchedule id r) sv)) as Hu.
    { apply (fires_other sv (fun m => <[id := MkScheduleRecord (sr_Scenario r) (sr_CronExpr r) (sr_Params r) (sr_Timezone r) (sr_Enabled r)
        (match m !! id with Some old => sr_LastStatus old | None => "" end)]> m) id); [|done|done]. intros m id' Hne. by rewrite lookup_insert_ne. }
    unfold Scheduler_Add. destruct (sr_Enabled r) eqn:Er; [|done]. destruct (register d id r _) as [sv'|] eqn:E; [|done].
    cbn [fst]. eapply fires_register; [exact E|done|done|]. cbn. rewrite lookup_insert_eq. by eexists.
  - assert (fires_enabled (with_db (SetEnabled id true) sv)) as Hu.
    { apply (fires_other sv _ id); [|done|done]. intros m id' Hne. by rewrite lookup_alter_ne. }
    unfold Scheduler_Enable. destruct (db_schedules _ !! id) as [r|] eqn:Es; [|done]. destruct (register d id r _) as [sv'|] eqn:E; [|done].
    cbn [fst]. eapply fires_register; [exact E|done|done|]. exists r. split; [done|]. cbn in Es. rewrite lookup_alter_eq in Es.
    destruct (db_schedules _ !! id); [|done]. by injection Es as <-.
  - unfold Scheduler_Disable. assert (unregister id (with_db (SetEnabled id false) sv) = with_db (SetEnabled id false) (unregister id sv)) as ->.
    { unfold unregister. cbn. by destruct (sv_entryIDs sv !! id). }
    destruct (fires_unregister id sv Hi) as [H1 H2]. apply (fires_other _ _ id); [|done|done]. intros m id' Hne. by rewrite lookup_alter_ne.
  - unfold Scheduler_Delete. destruct (fires_unregister id sv Hi) as [H1 H2]. apply (fires_other _ _ id); [|done|done].
    intros m id' Hne. by rewrite lookup_delete_ne.
Qed.

Lemma register_entryIDs (d : Deps) (id : string) (r : ScheduleRecord) (sv sv' : Server) :
  register d id r sv = Ok sv' -> exists i, sv_entryIDs sv' = <[id := i]> (sv_entryIDs sv).
Proof.
  unfold register. destruct (d_scenes d !! _); [|done]. destruct (cron_add _ _) as [[i t]|]; [|done]. intros [= <-]. by exists i.
Qed.

Lemma load_rows_fires (d : Deps) (rows : list (string * ScheduleRecord)) (sv sv' : Server) :
  load_rows d rows sv = Ok sv' -> NoDup rows.*1 ->
  Forall (fun kr => db_schedules (sv_db sv) !! kr.1 = Some kr.2 /\ sv_entryIDs sv !! kr.1 = None) rows -> fires_enabled sv -> fires_enabled sv'.
Proof.
  revert sv; induction rows as [|[id r] rows IH]; intros sv; [by intros [= <-]|]. cbn [load_rows fmap list_fmap fst].
  intros Hl [Hn Hd]%NoDup_cons [[Hr Hid] Hrows]%Forall_cons Hi. cbn in Hr, Hid.
  destruct (sr_Enabled r) eqn:Er; [|by eapply IH]. destruct (register d id r sv) as [sv1|] eqn:E; [|done]. simpl in Hl.
  eapply (IH sv1); [done|done| |eapply fires_register; eauto].
  destruct (register_entryIDs _ _ _ _ _ E) as [i ->]. unfold sv_db. rewrite (register_exec _ _ _ _ _ E).
  apply Forall_forall. intros [id' r'] Hin. destruct (proj1 (Forall_forall _ _) Hrows _ Hin) as [H1 H2]. split; [done|]. cbn.
  rewrite lookup_insert_ne; [done|]. intros ->. apply Hn. apply list_elem_of_In, in_map_iff. exists (id', r'). split; [done|]. by apply list_elem_of_In.
Qed.

Lemma start_fires (d : Deps) (seeds : list (option (list (string * ScheduleRecord)))) (tokenID raw : string) (db : OrchestratorDB) (sv : Server) :
  start d seeds tokenID raw db = Some sv -> fires_enabled sv.
Proof.
  unfold start. destruct (negb _); [done|]. destruct (LoadFromDB d _) as [sv1|] eqn:E; [|done].
  assert (fires_enabled sv1) as H1.
  { unfold LoadFromDB in E. eapply load_rows_fires; [exact E|apply NoDup_fst_map_to_list| |].
    - apply Forall_forall. intros [id r] Hin. split; [by apply elem_of_map_to_list in Hin|apply lookup_empty].
    - intros k. cbn. by rewrite cron_has_new. }
  destruct (negb _); [done|]. destruct (d_auth d); try (by intros [= <-]). unfold BootstrapAdminToken, InsertToken.
  destruct (0 <? _)%nat; [by intros [= <-]|]. destruct (bool_decide _); [done|]. by intros [= <-].
Qed.
End Schedules.

(** When a schedule is added or enabled only while it is not registered, the cron table has entries only for schedules the database
    has as enabled, from the start of the process on: a disabled or deleted schedule does not run. *)
Theorem only_enabled_schedules_fire `{OE : OrchEnv} `{C : CronLib} `{CL : !CronLibLaws C} (d : Deps)
    (seeds : list (option (list (string * ScheduleRecord)))) (tokenID raw : string) (db : OrchestratorDB) (sv : Server) (ops : list sched_op) :
  start d seeds tokenID raw db = Some sv -> once_registered d sv ops ->
  let sv' := fold_left (sched_step d) ops sv in
  forall k, cron_has (sv_cron sv') k = true ->
    exists e r, sv_funcs sv' !! k = Some e /\ db_schedules (sv_db sv') !! ce_schedID e = Some r /\ sr_Enabled r = true.
Proof.
  intros Hs%start_fires Ho sv' k Hk. assert (fires_enabled sv') as Hi.
  { clear Hk. subst sv'. revert sv Hs Ho. induction ops as [|o ops IH]; intros sv Hs; [done|]. intros [Ho1 Ho2]. apply IH; [|done]. by apply fires_step. }
  destruct (Hi k Hk) as (e & r & He & _ & Hr & Hen). by exists e, r.
Qed.

(** Enabling a schedule that is already enabled registers it a second time, and disabling it removes one of its two entries: the schedule
    goes on running while the database has it as disabled. *)
Theorem enabled_twice_keeps_running `{OE : OrchEnv} `{C : CronLib} `{CL : !CronLibLaws C} (d : Deps) (id : string) (r : ScheduleRecord)
    (scene : Scenario) (sv : Server) :
  db_schedules (sv_db sv) !! id = Some r -> d_scenes d !! sr_Scenario r = Some scene -> is_Some (cron_add (sr_CronExpr r) (sv_cron sv)) ->
  let sv' := fold_left (sched_step d) [OpEnable id; OpEnable id; OpDisable id] sv in
  (sr_Enabled <$> db_schedules (sv_db sv') !! id) = Some false
  /\ exists k e, cron_has (sv_cron sv') k = true /\ sv_funcs sv' !! k = Some e /\ ce_schedID e = id /\ ce_scene e = scene.
Proof.
  intros Hr Hsc Hadd. cbn [fold_left sched_step].
  set (r1 := MkScheduleRecord (sr_Scenario r) (sr_CronExpr r) (sr_Params r) (sr_Timezone r) true (sr_LastStatus r)).
  assert (forall sv0 r0, db_schedules (sv_db sv0) !! id = Some r0 -> sr_Scenario r0 = sr_Scenario r -> sr_CronExpr r0 = sr_CronExpr r ->
    exists i t fn, cron_add (sr_CronExpr r) (sv_cron sv0) = Some (i, t) /\ ce_schedID fn = id /\ ce_scene fn = scene
      /\ fst (Scheduler_Enable d id sv0) = MkServer _ (sv_exec (with_db (SetEnabled id true) sv0)) t (<[i := fn]> (sv_funcs sv0)) (<[id := i]> (sv_entryIDs sv0)))
    as Hen.
  { intros sv0 r0 H0 H1 H2. unfold sv_db in H0. destruct (cron_add_parses _ _ (sv_cron sv0) Hadd) as [[i t] Hit]. unfold Scheduler_Enable. cbn.
    rewrite lookup_alter_eq, H0. cbn. unfold register. cbn. rewrite H1, H2, Hsc, Hit. cbn. eexists i, t, _. split_and!; [done| | |reflexivity]; done. }
  destruct (Hen sv r Hr eq_refl eq_refl) as (i1 & t1 & f1 & Ha1 & Hf1 & Hs1 & ->).
  unfold sv_db in Hr. match goal with |- context [Scheduler_Enable d id ?s] => set (sv1 := s) end.
  destruct (Hen sv1 r1) as (i2 & t2 & f2 & Ha2 & Hf2 & Hs2 & ->); [cbn; by rewrite lookup_alter_eq, Hr|done|done|].
  unfold Scheduler_Disable, unregister. cbn. rewrite lookup_insert_eq. cbn. split; [by rewrite !lookup_alter_eq, Hr|].
  exists i1, f1. destruct (cron_has_add _ _ _ _ i1 Ha1) as [_ H1]. destruct (cron_has_add _ _ _ _ i1 Ha2) as [H2 H3]. cbn in H2, H3.
  rewrite Nat.eqb_refl in H1. cbn in H1. assert (i1 <> i2) as Hne by (intros ->; congruence).
  rewrite cron_has_remove, H3, H1, orb_true_r, lookup_insert_ne by done. apply Nat.eqb_neq in Hne. rewrite Hne, lookup_insert_eq. done.
Qed.

Section Restarts.
  Context `{OE : OrchEnv} `{C : CronLib} `{CL : !CronLibLaws C}.

Definition seeds_mention (id : string) (seeds : list (option (list (string * ScheduleRecord)))) : Prop :=
  exists defs r, Some defs ∈ seeds /\ (id, r) ∈ defs.

Lemma seed_defs_row (id : string) (defs : list (string * ScheduleRecord)) (db : OrchestratorDB) :
  let db' := fold_left (fun db def => UpsertSchedule def.1
        (MkScheduleRecord (sr_Scenario def.2) (sr_CronExpr def.2) (sr_Params def.2) (sr_Timezone def.2) true "") db) defs db in
  (id ∉ defs.*1 -> db_schedules db' !! id = db_schedules db !! id)
  /\ (id ∈ defs.*1 \/ (exists r, db_schedules db !! id = Some r /\ sr_Enabled r = true) ->
      exists r, db_schedules db' !! id = Some r /\ sr_Enabled r = true).
Proof.
  revert db; induction defs as [|[k r] defs IH]; intros db; [split; [done|intros [?%elem_of_nil|?]; done]|]. cbn [fold_left fmap list_fmap fst].
  match goal with |- context [fold_left _ defs ?d] => destruct (IH d) as [H1 H2] end. split.
  - intros [Hne Hin]%not_elem_of_cons. rewrite H1 by done. cbn. by rewrite lookup_insert_ne.
  - intros Ho. apply H2. destruct (decide (id ∈ defs.*1)); [by left|]. right. cbn. destruct (decide (k = id)) as [->|Hne].
    + rewrite lookup_insert_eq. by eexists.
    + rewrite lookup_insert_ne by done. destruct Ho as [[->|?]%elem_of_cons|?]; done.
Qed.

Lemma seed_keeps_row (id : string) (seeds : list (option (list (string * ScheduleRecord)))) (db : OrchestratorDB) :
  ~ seeds_mention id seeds -> db_schedules (SeedFromDir seeds db) !! id = db_schedules db !! id.
Proof.
  revert db; induction seeds as [|[defs|] seeds IH]; intros db Hn; [done| |done]. cbn [SeedFromDir]. rewrite IH.
  - apply seed_defs_row. intros Hin. apply Hn. apply list_elem_of_In, in_map_iff in Hin as ([k r] & <- & Hd%list_elem_of_In).
    exists defs, r. split; [by left|done].
  - intros (defs' & r & Hin & Hd). apply Hn. exists defs', r. split; [by right|done].
Qed.

(** One enabled row that cannot be registered stops the start. *)
Lemma load_rows_fails (d : Deps) (rows : list (string * ScheduleRecord)) (id : string) (r : ScheduleRecord) (sv : Server) :
  (id, r) ∈ rows -> sr_Enabled r = true -> (forall sv0, exists e, register d id r sv0 = Err e) -> exists e, load_rows d rows sv = Err e.
Proof.
  intros Hin Hen Hreg. revert sv; induction rows as [|[id' r'] rows IH]; intros sv; [by apply elem_of_nil in Hin|]. cbn [load_rows].
  apply elem_of_cons in Hin as [[= <- <-]|Hin].
  - rewrite Hen. destruct (Hreg sv) as [e ->]. by exists e.
  - destruct (sr_Enabled r'); [|by apply IH]. destruct (register d id' r' sv) as [sv1|e]; [by apply IH|by exists e].
Qed.

Lemma register_always_fails (d d' : Deps) (id : string) (r : ScheduleRecord) (sv : Server) (e : sched_error) :
  register d id r sv = Err e -> d_scenes d' = d_scenes d -> forall sv0, exists e, register d' id r sv0 = Err e.
Proof.
  unfold register. intros H Hd sv0. rewrite Hd. destruct (d_scenes d !! sr_Scenario r); [|by eexists].
  destruct (cron_add (sr_CronExpr r) (sv_cron sv)) as [[]|] eqn:Ea; [done|].
  destruct (cron_add (sr_CronExpr r) (sv_cron sv0)) as [[]|] eqn:Ea0; [|by eexists].
  destruct (cron_add_parses (sr_CronExpr r) (sv_cron sv0) (sv_cron sv)) as [? ?]; [by rewrite Ea0|congruence].
Qed.
End Restarts.

(** A schedule that is refused with 422, for an unknown scenario or a cron expression that does not parse, stays in the database as
    enabled; with the same scenarios the process then does not start again, unless a seed file overwrites that schedule. *)
Theorem refused_schedule_stops_restart `{OE : OrchEnv} `{C : CronLib} `{CL : !CronLibLaws C} (d d' : Deps) (id : string) (r : ScheduleRecord)
    (sv sv' : Server) (seeds : list (option (list (string * ScheduleRecord)))) (tokenID raw : string) :
  add_schedule d (Some (id, r)) sv = (sv', 422) -> d_scenes d' = d_scenes d -> ~ seeds_mention id seeds ->
  start d' seeds tokenID raw (sv_db sv') = None.
Proof.
  intros Ha Hd Hn. unfold add_schedule in Ha. destruct (_ || _); [done|].
  set (r' := MkScheduleRecord _ _ _ _ true "") in Ha. unfold Scheduler_Add in Ha. cbn [sr_Enabled r'] in Ha.
  destruct (register d id r' (with_db (UpsertSchedule id r') sv)) as [sv1|e] eqn:Er; [done|]. injection Ha as <-.
  set (row := MkScheduleRecord (sr_Scenario r') (sr_CronExpr r') (sr_Params r') (sr_Timezone r') true
    (match db_schedules (sv_db sv) !! id with Some old => sr_LastStatus old | None => "" end)).
  unfold start. destruct (negb _); [done|]. unfold LoadFromDB. cbn [sv_db sv_exec ex_db].
  match goal with |- context [load_rows d' ?rows ?s] => destruct (load_rows_fails d' rows id row s) as [e' ->]; [|done| |done] end.
  - apply elem_of_map_to_list. rewrite seed_keeps_row by done. cbn. apply lookup_insert_eq.
  - intros sv0. apply (register_always_fails d d' id r' _ e Er Hd sv0).
Qed.

(** Seed files overwrite: a schedule they define is enabled after every start, also when it was disabled through the API. *)
Theorem seed_reenables_schedule (seeds : list (option (list (string * ScheduleRecord)))) (db : OrchestratorDB) (id : string) :
  Forall (fun f => f <> None) seeds -> seeds_mention id seeds ->
  exists r, db_schedules (SeedFromDir seeds db) !! id = Some r /\ sr_Enabled r = true.
Proof.
  intros Hp Hm.
  enough (seeds_mention id seeds \/ (exists r, db_schedules db !! id = Some r /\ sr_Enabled r = true) ->
    exists r, db_schedules (SeedFromDir seeds db) !! id = Some r /\ sr_Enabled r = true) as H by auto. clear Hm.
  revert db; induction Hp as [|[defs|] seeds Hf Hp IH]; intros db Ho; [|cbn [SeedFromDir]|done].
  - destruct Ho as [(? & ? & ?%elem_of_nil & _)|?]; done.
  - apply IH. destruct Ho as [(defs' & r & [[= ->]|Hin]%elem_of_cons & Hd)|Ho]; [|left; by exists defs', r|].
    + right. apply seed_defs_row. left. apply list_elem_of_In, in_map_iff. exists (id, r). split; [done|]. by apply list_elem_of_In.
    + right. apply seed_defs_row. by right.
Qed.

Lemma Submit_fresh `{OE : OrchEnv} (e : Executor) (sc : Scenario) (params : Params) (sched by_ : string) (dr : Draws) (x x' : ExecState) :
  Submit e sc params sched by_ dr x = Ok x' -> db_jobs (ex_db x) !! dr_job dr = None.
Proof.
  unfold Submit. destruct (template_execute _ _); [|done]. destruct (negb _); [done|]. destruct (ex_runners e !! _); [|done].
  destruct (renderArgs _ _ _); [|done]. unfold InsertJob. by destruct (db_jobs (ex_db x) !! dr_job dr).
Qed.

(** A submission that succeeds on one state succeeds on another that has no job of its identifier. *)
Lemma Submit_frame `{OE : OrchEnv} (e : Executor) (sc : Scenario) (params : Params) (sched by_ : string) (dr : Draws) (x x' y : ExecState) :
  Submit e sc params sched by_ dr x = Ok x' -> db_jobs (ex_db y) !! dr_job dr = None ->
  exists y' j, Submit e sc params sched by_ dr y = Ok y' /\ ex_db y' = set_jobs <[dr_job dr := j]> (ex_db y)
    /\ j_Scenario j = sc_Name sc /\ j_Params j = params /\ j_Status j = JobPending.
Proof.
  unfold Submit. destruct (template_execute _ _); [|done]. destruct (negb _); [done|]. destruct (ex_runners e !! _); [|done].
  destruct (renderArgs _ _ _); [|done]. unfold InsertJob. destruct (db_jobs (ex_db x) !! dr_job dr); [done|].
  intros _ ->. eexists _, _. split_and!; [reflexivity|reflexivity|done..].
Qed.

Lemma approve_check_row `{OE : OrchEnv} `{C : CronLib} `{GC : GoCase} (d : Deps) (id : string) (sv : Server) (c : Scenario * Params) :
  approve_check d id sv = Ok c -> is_Some (db_requests (sv_db sv) !! id).
Proof. unfold approve_check, loadPendingForReview. by destruct (db_requests (sv_db sv) !! id). Qed.

(** Two administrators who approve a request at once, both after reading it as pending, both succeed: the scenario runs twice, and the
    request names the second job only. *)
Theorem double_approval_runs_twice `{OE : OrchEnv} `{C : CronLib} `{GC : GoCase} (d : Deps) (p1 p2 : Principal) (id : string)
    (c : Scenario * Params) (dr1 dr2 : Draws) (sv : Server) :
  approve_check d id sv = Ok c -> dr_job dr1 <> dr_job dr2 ->
  snd (approve_commit d p1 id c dr1 sv) = 200 -> snd (approve_commit d p2 id c dr2 sv) = 200 ->
  let '(sv', code) := approve_commit d p2 id c dr2 (fst (approve_commit d p1 id c dr1 sv)) in
  code = 200 /\ (pr_JobID <$> db_requests (sv_db sv') !! id) = Some (dr_job dr2)
  /\ (forall k, k = dr_job dr1 \/ k = dr_job dr2 -> exists j, db_jobs (sv_db sv') !! k = Some j /\ j_Scenario j = sc_Name c.1 /\ j_Params j = c.2
        /\ j_Status j = JobPending).
Proof.
  intros Hc Hne H1 H2. destruct (approve_check_row _ _ _ _ Hc) as [req Hreq]. unfold approve_commit in *.
  destruct (Submit _ _ _ _ _ dr1 (sv_exec sv)) as [x1|] eqn:E1; [|done]. destruct (Submit _ _ _ _ _ dr2 (sv_exec sv)) as [x2|] eqn:E2; [|done].
  pose proof (Submit_fresh _ _ _ _ _ _ _ _ E1) as F1. pose proof (Submit_fresh _ _ _ _ _ _ _ _ E2) as F2.
  destruct (Submit_frame _ _ _ _ _ _ _ _ (sv_exec sv) E1 F1) as (y1 & j1 & Ey1 & Hy1 & Hj1). rewrite E1 in Ey1. injection Ey1 as <-.
  cbn [fst]. set (sv1 := with_db _ _). assert (db_jobs (ex_db (sv_exec sv1)) !! dr_job dr2 = None) as F2'
    by (cbn; rewrite Hy1; cbn; by rewrite lookup_insert_ne).
  destruct (Submit_frame _ _ _ _ _ _ _ _ (sv_exec sv1) E2 F2') as (y2 & j2 & Ey2 & Hy2 & Hj2). rewrite Ey2.
  unfold sv_db in *. cbn. rewrite Hy2. cbn. rewrite Hy1. cbn. rewrite !lookup_alter_eq, Hreq. split_and!; [done|done|].
  intros k [->| ->]; [exists j1|exists j2]; by rewrite ?lookup_insert_ne, ?lookup_insert_eq by done.
Qed.

(** ** Witnesses *)

#[local] Existing Instance demo_orch.
#[local] Existing Instance demo_cron.
#[local] Existing Instance demo_directory.
#[local] Existing Instance ascii_case.

#[local] Instance demo_cron_laws : CronLibLaws demo_cron.
Proof.
  split; cbn [cron_new cron_add cron_remove cron_has cron_table demo_cron].
  - done.
  - intros expr t i t' k. destruct (String.eqb expr "bad"); [done|]. intros [= <- <-]. split; [|done].
    apply not_true_is_false. intros (y & Hy & Hk%Nat.eqb_eq)%existsb_exists. rewrite <- Hk in Hy. apply list_elem_of_In, max_list_elem_of_le in Hy. lia.
  - intros expr t t'. destruct (String.eqb expr "bad"); [by intros []|by eexists].
  - intros i t k. induction t as [|x t IH]; cbn; [by rewrite andb_false_r|].
    destruct (Nat.eqb_spec x i) as [->|Hne]; cbn; rewrite IH; [by destruct (Nat.eqb_spec k i)|].
    destruct (Nat.eqb_spec k x) as [->|]; cbn; [|done]. by apply Nat.eqb_neq in Hne as ->.
Qed.

Lemma validate_params_correct_witness :
  (exists r, ValidateParams demo_scene ∅ = Ok r) <-> Forall (fun def => param_ok def ∅) (sc_Params demo_scene).
Proof. refine (proj1 (validate_params_correct demo_scene ∅ _)). apply NoDup_singleton. Defined.

Lemma ldap_mode_is_read_only_witness :
  exists code, serve_http (demo_deps (setupAuth "ldap" "ldap://x" "" "" "dc=x" false)) "" (ApproveScenario "sales") (demo_draws "") demo_server
    = (demo_server, Status code) /\ (code = 401 \/ code = 403).
Proof.
  refine (proj1 (ldap_mode_is_read_only (demo_deps (setupAuth "ldap" "ldap://x" "" "" "dc=x" false)) "ldap://x" "" "" "dc=x" "" false
    (ApproveScenario "sales") (demo_draws "") demo_server eq_refl) _). discriminate.
Defined.

Definition demo_row : ScheduleRecord := MkScheduleRecord "sales" "@daily" ∅ "" true "".

Lemma only_enabled_schedules_fire_witness :
  exists sv, start (demo_deps NoAuth) [Some [("nightly", demo_row)]] "" "" empty_db = Some sv
    /\ let sv' := fold_left (sched_step (demo_deps NoAuth)) [OpAdd "hourly" demo_row; OpDisable "nightly"] sv in
       cron_has (sv_cron sv') 2 = true
       /\ exists e r, sv_funcs sv' !! 2%nat = Some e /\ db_schedules (sv_db sv') !! ce_schedID e = Some r /\ sr_Enabled r = true.
Proof.
  destruct (start (demo_deps NoAuth) [Some [("nightly", demo_row)]] "" "" empty_db) as [sv|] eqn:E; [|vm_compute in E; discriminate E].
  exists sv. split; [done|]. intros sv'. assert (cron_has (sv_cron sv') 2 = true) as Hk
    by (subst sv'; vm_compute in E; injection E as <-; vm_compute; reflexivity).
  split; [exact Hk|]. refine (only_enabled_schedules_fire (demo_deps NoAuth) [Some [("nightly", demo_row)]] "" "" empty_db sv
    [OpAdd "hourly" demo_row; OpDisable "nightly"] E _ 2%nat Hk). vm_compute in E. injection E as <-. repeat split.
Defined.

Definition demo_scheduled : Server := fst (Scheduler_Add (demo_deps NoAuth) "nightly" demo_row demo_server).

Lemma enabled_twice_keeps_running_witness :
  let sv' := fold_left (sched_step (demo_deps NoAuth)) [OpEnable "nightly"; OpEnable "nightly"; OpDisable "nightly"] demo_scheduled in
  (sr_Enabled <$> db_schedules (sv_db sv') !! "nightly") = Some false.
Proof.
  refine (proj1 (enabled_twice_keeps_running (demo_deps NoAuth) "nightly" demo_row demo_scene demo_scheduled _ _ _));
    [vm_compute; reflexivity|vm_compute; reflexivity|]. vm_compute. by eexists.
Defined.

Definition demo_refused : Server := fst (add_schedule (demo_deps NoAuth) (Some ("typo", MkScheduleRecord "slaes" "@daily" ∅ "" true "")) demo_server).

Lemma refused_schedule_stops_restart_witness : start (demo_deps NoAuth) [] "" "" (sv_db demo_refused) = None.
Proof.
  apply (refused_schedule_stops_restart (demo_deps NoAuth) (demo_deps NoAuth) "typo" (MkScheduleRecord "slaes" "@daily" ∅ "" true "") demo_server
    demo_refused [] "" ""); [vm_compute; reflexivity|reflexivity|]. by intros (? & ? & ?%elem_of_nil & _).
Defined.

Lemma seed_reenables_schedule_witness :
  exists r, db_schedules (SeedFromDir [Some [("nightly", demo_row)]] (SetEnabled "nightly" false (sv_db demo_scheduled))) !! "nightly" = Some r
    /\ sr_Enabled r = true.
Proof.
  apply (seed_reenables_schedule [Some [("nightly", demo_row)]] (SetEnabled "nightly" false (sv_db demo_scheduled)) "nightly").
  - apply Forall_singleton. discriminate.
  - exists [("nightly", demo_row)], demo_row. split; apply list_elem_of_In; by left.
Defined.

(** A process with an unlimited licence, an approved scenario and a pending request. *)
Definition free_deps : Deps :=
  MkDeps (d_scenes (demo_deps NoAuth)) (d_executor (demo_deps NoAuth))
    (MkTrustGate (License_New "Acme" "" "" "enterprise" [] [] (MkLimits 0 0)) None false) NoAuth [].
Definition demo_requested : Server := fst (serve_http free_deps "" (SubmitRequest (Some ("sales", ∅, "")) "req1") (demo_draws "") demo_server).
Definition demo_principal : Principal := MkPrincipal "tok" "ann" RoleAdmin [].
Definition demo_checked : Scenario * Params :=
  match approve_check free_deps "req1" demo_requested with Ok c => c | Err _ => (demo_scene, ∅) end.

Lemma demo_checks : approve_check free_deps "req1" demo_requested = Ok demo_checked.
Proof. unfold demo_checked. destruct (approve_check free_deps "req1" demo_requested) as [c|e] eqn:E; [done|vm_compute in E; discriminate E]. Qed.

Lemma double_approval_runs_twice_witness :
  let '(sv', code) := approve_commit free_deps demo_principal "req1" demo_checked (demo_draws "jobB")
    (fst (approve_commit free_deps demo_principal "req1" demo_checked (demo_draws "jobA") demo_requested)) in
  code = 200 /\ (pr_JobID <$> db_requests (sv_db sv') !! "req1") = Some "jobB".
Proof.
  pose proof (double_approval_runs_twice free_deps demo_principal demo_principal "req1" demo_checked (demo_draws "jobA") (demo_draws "jobB")
    demo_requested demo_checks ltac:(discriminate) ltac:(vm_compute; reflexivity) ltac:(vm_compute; reflexivity)) as H.
  destruct (approve_commit _ _ _ _ (demo_draws "jobB") _) as [sv' code]. destruct H as (H1 & H2 & _). split; [exact H1|exact H2].
Defined.
