(* ===== verification/Workflow.v ===== *)
(** * Workflow: steps in the order of their dependencies (src/pkg/workflow)

    The configuration of a workflow and its validation (config.go); the words of a command, the
    back-off of a step's retries and the waves of Kahn's algorithm (runner.go).  The steps of a wave
    run at once: what they give arrives in an order of its own, so a wave takes the list of its
    results as an input. *)

From Stdlib Require Import ZArith Lia Ascii String.
From stdpp Require Import base gmap list strings.
From S2P Require Import Prelude Strconv SqlGuard.

Open Scope Z_scope.

(** ** config.go *)

Record StepConfig := MkStepConfig { st_ID : string; st_Command : string; st_DependsOn : list string; st_OnError : string }.
Record WorkflowConfig := MkWorkflowConfig { wf_Name : string; wf_Description : string; wf_Steps : list StepConfig }.

Inductive OnErrorPolicy := PolicyStop | PolicySkip | PolicyRetry (retries : Z).

(** [s[:len(s)-1]]. *)
Definition but_last (s : string) : string := str_rev (drop_bytes 1 (str_rev s)).
Definition ParseOnError (s : string) : option OnErrorPolicy :=
  if String.eqb s "" || String.eqb s "stop" then Some PolicyStop
  else if String.eqb s "skip" then Some PolicySkip
  else
    match strip_prefix "retry(" s with
    | Some rest =>
        if EndsWith s ")" then
          match ParseInt (but_last rest) with
          | Ok n => if n <? 1 then None else Some (PolicyRetry n)
          | Err _ => None
          end
        else None
    | None => None
    end.

Inductive workflow_error :=
| NoName | NoSteps | StepNoID (i : nat) | StepDuplicate (i : nat) | StepNoCommand (id : string) | StepBadPolicy (id : string)
| UnknownDependency (id dep : string).

Fixpoint check_steps (i : nat) (ids : list string) (steps : list StepConfig) : result workflow_error (list string) :=
  match steps with
  | [] => Ok ids
  | step :: steps =>
      fail_if String.eqb (st_ID step) "" with StepNoID i ;;
      fail_if existsb (String.eqb (st_ID step)) ids with StepDuplicate i ;;
      fail_if String.eqb (st_Command step) "" with StepNoCommand (st_ID step) ;;
      fail_if match ParseOnError (st_OnError step) with None => true | Some _ => false end with StepBadPolicy (st_ID step) ;;
      check_steps (S i) (st_ID step :: ids) steps
  end.
Fixpoint check_deps (ids : list string) (steps : list StepConfig) : result workflow_error unit :=
  match steps with
  | [] => Ok ()
  | step :: steps =>
      match List.find (fun dep => negb (existsb (String.eqb dep) ids)) (st_DependsOn step) with
      | Some dep => Err (UnknownDependency (st_ID step) dep)
      | None => check_deps ids steps
      end
  end.
Definition Workflow_Validate (w : WorkflowConfig) : result workflow_error unit :=
  fail_if String.eqb (wf_Name w) "" with NoName ;;
  fail_if (length (wf_Steps w) =? 0)%nat with NoSteps ;;
  ids ← check_steps 0 [] (wf_Steps w);
  check_deps ids (wf_Steps w).

(** ** runner.go: the words of a command *)

Definition applyVars (s : string) (vars : gmap string string) : string :=
  if (size vars =? 0)%nat then s
  else ReplaceAllStringFunc reYAMLVar s (fun name => match vars !! name with Some val => val | None => "{{" +:+ name +:+ "}}" end).

(** [unicode.IsSpace(rune(c))] of a byte. *)
Definition byte_space (c : ascii) : bool :=
  existsb (Ascii.eqb c) [" "; "009"; "010"; "011"; "012"; "013"; "133"; "160"]%char.

Inductive quote_mode := Unquoted | InSingle | InDouble.
Definition flush_word (cur : string) (rest : list string) : list string := if String.eqb cur "" then rest else cur :: rest.
Fixpoint tokens_from (m : quote_mode) (cur s : string) : option (list string) :=
  match s with
  | "" => match m with Unquoted => Some (flush_word cur []) | _ => None end
  | String c s' =>
      match m with
      | InSingle => if Ascii.eqb c SQUOTE then tokens_from Unquoted cur s' else tokens_from InSingle (cur +:+ chr c) s'
      | InDouble =>
          if Ascii.eqb c DQUOTE then tokens_from Unquoted cur s'
          else match s' with
               | String d s'' => if Ascii.eqb c BSLASH then tokens_from InDouble (cur +:+ chr d) s'' else tokens_from InDouble (cur +:+ chr c) s'
               | "" => tokens_from InDouble (cur +:+ chr c) s'
               end
      | Unquoted =>
          if Ascii.eqb c SQUOTE then tokens_from InSingle cur s'
          else if Ascii.eqb c DQUOTE then tokens_from InDouble cur s'
          else if byte_space c then flush_word cur <$> tokens_from Unquoted "" s'
          else tokens_from Unquoted (cur +:+ chr c) s'
      end
  end.
Definition tokenize (s : string) : option (list string) := tokens_from Unquoted "" s.

(** ** runner.go: one step *)

(** The pause before an attempt, in nanoseconds: [int(2)<<uint(attempt-2)] seconds, at most 30. *)
Definition retry_delay (attempt : Z) : Z := wrap64 (Z.min (wrap64 (Z.shiftl 2 (attempt - 2))) 30 * 1000000000).

(** What an attempt meets: whether the context ends while it waits; whether the context is done when the command is to start, in
    which case [cmd.Run] returns an error and starts nothing; and whether the command succeeds. *)
Record attempt := MkAttempt { at_cancelled : bool; at_dead : bool; at_ok : bool }.
Inductive step_result := StepOk | StepBadCommand | StepCancelled | StepFailed.

(** The attempts from number [n] on, [more] of them: the pauses and the commands that are run, and the result. *)
Fixpoint attempts_from (n : Z) (more : nat) (world : Z -> attempt) (args : list string) : list (Z * list string) * step_result :=
  match more with
  | 0%nat => ([], if n =? 1 then StepOk else StepFailed)
  | S more =>
      if negb (n =? 1) && at_cancelled (world n) then ([], StepCancelled)
      else
        let run := (if n =? 1 then 0 else retry_delay n, args) in
        if negb (at_dead (world n)) && at_ok (world n) then ([run], StepOk)
        else
          let '(log, r) := attempts_from (n + 1) more world args in
          (if at_dead (world n) then log else run :: log, r)
  end.
Definition max_attempts (p : option OnErrorPolicy) : Z := match p with Some (PolicyRetry n) => wrap64 (1 + n) | _ => 1 end.
Definition runStep (step : StepConfig) (vars : gmap string string) (world : Z -> attempt) : list (Z * list string) * step_result :=
  match tokenize (applyVars (st_Command step) vars) with
  | None => ([], StepBadCommand)
  | Some args => attempts_from 1 (Z.to_nat (max_attempts (ParseOnError (st_OnError step)))) world args
  end.

(** ** runner.go: the waves *)

(** The in-degrees, the steps to start, those that are done and those skipped, as [Run] keeps them. *)
Record RunState := MkRunState {
  rs_inDegree : gmap string Z; rs_ready : list string; rs_done : gset string; rs_skipped : gset string;
}.

Section Waves.
  Variable steps : list StepConfig.

Definition stepByID (id : string) : option StepConfig := List.find (fun s => String.eqb (st_ID s) id) (rev steps).
Definition deps_of (id : string) : list string := match stepByID id with Some s => st_DependsOn s | None => [] end.
Definition initial_degrees : gmap string Z :=
  fold_left (fun m s => <[st_ID s := default 0 (m !! st_ID s) + Z.of_nat (length (st_DependsOn s))]> m) steps ∅.
(** [dependents[dep]]: the steps in order, each as often as it names [dep]. *)
Definition dependents (dep : string) : list string :=
  concat (map (fun s => map (fun _ => st_ID s) (List.filter (String.eqb dep) (st_DependsOn s))) steps).
Definition initial_state : RunState :=
  MkRunState initial_degrees (map st_ID (List.filter (fun s => default 0 (initial_degrees !! st_ID s) =? 0) steps)) ∅ ∅.

(** One dependent of a finished step. *)
Definition release (st : gmap string Z * list string) (id : string) : gmap string Z * list string :=
  let d := default 0 (st.1 !! id) - 1 in (<[id := d]> st.1, if d =? 0 then st.2 ++ [id] else st.2).

(** A result of a wave, processed: [Err] when the step stops the workflow.  [skipped] is what was skipped before the wave. *)
Definition skip_propagated (skipped : gset string) (id : string) : bool := existsb (fun dep => bool_decide (dep ∈ skipped)) (deps_of id).
Definition policy_of (id : string) : option OnErrorPolicy := match stepByID id with Some s => ParseOnError (st_OnError s) | None => None end.
Definition process_result (before : gset string) (st : RunState) (r : string * bool) : result string RunState :=
  let '(id, failed) := r in
  let skip := skip_propagated before id in
  let own_skip := negb skip && failed in
  if own_skip && match policy_of id with Some PolicySkip => false | _ => true end then Err id
  else
    let '(deg, ready) := fold_left release (dependents id) (rs_inDegree st, rs_ready st) in
    Ok (MkRunState deg ready ({[id]} ∪ rs_done st) (if skip || own_skip then {[id]} ∪ rs_skipped st else rs_skipped st)).
Fixpoint process_results (before : gset string) (st : RunState) (rs : list (string * bool)) : result string RunState :=
  match rs with
  | [] => Ok st
  | r :: rs => st' ← process_result before st r; process_results before st' rs
  end.

Inductive run_outcome := RunOk | RunStopped (id : string) | RunCycle (id : string) | RunOutOfFuel.

(** The waves from number [k] on: [world k wave] are the results of the steps of the wave in the order they arrive, each with whether
    it failed ([step_world] is the world that [runStep] makes).  The waves that were started, each with the steps of it for which
    [runStep] is called, the state they end in and what [Run] returns. *)
Fixpoint waves (fuel : nat) (k : nat) (world : nat -> list string -> list (string * bool)) (st : RunState)
    : list (list string * list string) * RunState * run_outcome :=
  match fuel with
  | 0%nat => ([], st, RunOutOfFuel)
  | S fuel =>
      match rs_ready st with
      | [] =>
          ([], st, match List.find (fun s => negb (bool_decide (st_ID s ∈ rs_done st))) steps with Some s => RunCycle (st_ID s) | None => RunOk end)
      | wave =>
          let started := (wave, List.filter (fun id => negb (skip_propagated (rs_skipped st) id)) wave) in
          match process_results (rs_skipped st) (MkRunState (rs_inDegree st) [] (rs_done st) (rs_skipped st)) (world k wave) with
          | Err id => ([started], st, RunStopped id)
          | Ok st' => let '(log, final, r) := waves fuel (S k) world st' in (started :: log, final, r)
          end
      end
  end.
Definition Workflow_Run (world : nat -> list string -> list (string * bool)) : list (list string * list string) * RunState * run_outcome :=
  waves (S (length steps)) 0 world initial_state.

(** The results as [runStep] gives them: [attempts k id] is what the attempts of the step meet in wave [k], [order k wave] the order in
    which the results of the wave arrive.  The result of a step that is skipped because of an ancestor does not depend on it. *)
Definition step_outcome (vars : gmap string string) (attempts : Z -> attempt) (id : string) : list (Z * list string) * step_result :=
  match stepByID id with Some s => runStep s vars attempts | None => ([], StepOk) end.
Definition step_failed (r : step_result) : bool := match r with StepOk => false | _ => true end.
Definition step_world (vars : gmap string string) (attempts : nat -> string -> Z -> attempt) (order : nat -> list string -> list string)
    (k : nat) (wave : list string) : list (string * bool) :=
  map (fun id => (id, step_failed (step_outcome vars (attempts k id) id).2)) (order k wave).
(** The commands that a run has started, by wave and step. *)
Definition commands (vars : gmap string string) (attempts : nat -> string -> Z -> attempt) (log : list (list string * list string))
    : list (list (string * list (Z * list string))) :=
  imap (fun k w => map (fun id => (id, (step_outcome vars (attempts k id) id).1)) w.2) log.
End Waves.

(** ** Lemmas on the bookkeeping *)

Definition occurs (x : string) (l : list string) : Z := Z.of_nat (length (List.filter (String.eqb x) l)).

Lemma occurs_cons (x y : string) (l : list string) : occurs x (y :: l) = (if String.eqb x y then 1 else 0) + occurs x l.
Proof. unfold occurs. cbn [List.filter]. destruct (String.eqb x y); cbn [length]; lia. Qed.
Lemma occurs_app (x : string) (l1 l2 : list string) : occurs x (l1 ++ l2) = occurs x l1 + occurs x l2.
Proof. unfold occurs. rewrite List.filter_app, length_app. lia. Qed.
Lemma occurs_nonneg (x : string) (l : list string) : 0 <= occurs x l.
Proof. unfold occurs. lia. Qed.
Lemma occurs_pos (x : string) (l : list string) : 0 < occurs x l <-> x ∈ l.
Proof.
  induction l as [|y l IH]; [split; [intros H; unfold occurs in H; cbn in H; lia|by intros ?%elem_of_nil]|]. rewrite occurs_cons, elem_of_cons, <- IH.
  pose proof (occurs_nonneg x l). destruct (String.eqb_spec x y); split; intuition lia.
Qed.

(** Releasing a list of dependents lowers each degree by its occurrences and makes ready, once, those it brings to zero. *)
Lemma release_all (l : list string) (m : gmap string Z) (ready : list string) :
  (forall x, x ∈ l -> occurs x l <= default 0 (m !! x)) ->
  exists m' new, fold_left release l (m, ready) = (m', ready ++ new) /\ NoDup new
    /\ (forall x, default 0 (m' !! x) = default 0 (m !! x) - occurs x l)
    /\ (forall x, x ∈ new <-> x ∈ l /\ default 0 (m !! x) = occurs x l).
Proof.
  revert m ready; induction l as [|y l IH]; intros m ready Hle.
  { exists m, []. rewrite app_nil_r. split_and!; [done|constructor|intros; unfold occurs; cbn; lia|]. intros x. split; [by intros ?%elem_of_nil|by intros [?%elem_of_nil _]]. }
  set (d := default 0 (m !! y) - 1).
  change (fold_left release (y :: l) (m, ready)) with (fold_left release l (<[y := d]> m, if d =? 0 then ready ++ [y] else ready)).
  assert (Hy : occurs y (y :: l) <= default 0 (m !! y)) by (apply Hle; by left). rewrite occurs_cons, String.eqb_refl in Hy.
  destruct (IH (<[y := d]> m) (if d =? 0 then ready ++ [y] else ready)) as (m' & new & Hf & Hnd & Hdeg & Hin).
  { intros x Hx. destruct (decide (x = y)) as [->|Hne]; [rewrite lookup_insert_eq; cbn; unfold d; lia|].
    rewrite lookup_insert_ne by done. specialize (Hle x ltac:(by right)). rewrite occurs_cons in Hle. apply String.eqb_neq in Hne. rewrite Hne in Hle. lia. }
  assert (Hdeg' : forall x, default 0 (m' !! x) = default 0 (m !! x) - occurs x (y :: l)).
  { intros x. rewrite Hdeg, occurs_cons. destruct (String.eqb_spec x y) as [->|Hne]; [rewrite lookup_insert_eq; cbn; unfold d; lia|].
    rewrite lookup_insert_ne by done. lia. }
  rewrite Hf. destruct (Z.eqb_spec d 0) as [Hd|Hd].
  - assert (Hyl : y ∉ l) by (rewrite <- occurs_pos; unfold d in Hd; lia).
    exists m', (y :: new). rewrite <- app_assoc. split_and!; [done| |done|].
    + constructor; [|done]. rewrite Hin. tauto.
    + intros x. rewrite !elem_of_cons, Hin, occurs_cons. destruct (String.eqb_spec x y) as [->|Hne].
      * split; [intros _|by left]. split; [by left|]. unfold d in Hd. rewrite <- occurs_pos in Hyl. pose proof (occurs_nonneg y l). lia.
      * rewrite lookup_insert_ne by done. intuition.
  - exists m', new. split_and!; [done|done|done|]. intros x. rewrite Hin, elem_of_cons, occurs_cons. destruct (String.eqb_spec x y) as [->|Hne].
    + rewrite lookup_insert_eq. cbn. unfold d in *. pose proof (occurs_pos y l). pose proof (occurs_nonneg y l). split; [intros [? ?]; split; [by left|lia]|].
      intros [_ E]. split; [apply occurs_pos; lia|lia].
    + rewrite lookup_insert_ne by done. intuition.
Qed.

Section Kahn.
  Variable steps : list StepConfig.
  Abbreviation ids := (map st_ID steps).
  Hypothesis ids_distinct : NoDup ids.
  Hypothesis deps_known : forall s dep, s ∈ steps -> dep ∈ st_DependsOn s -> dep ∈ ids.

Lemma stepByID_in (s : StepConfig) : s ∈ steps -> stepByID steps (st_ID s) = Some s.
Proof.
  clear deps_known. intros Hs. unfold stepByID.
  destruct (List.find (fun s0 => String.eqb (st_ID s0) (st_ID s)) (rev steps)) as [s'|] eqn:E.
  - apply List.find_some in E as [Hin%in_rev%list_elem_of_In E%String.eqb_eq]. f_equal.
    apply list_elem_of_lookup in Hin as [i Hi]. apply list_elem_of_lookup in Hs as [j Hj].
    assert (i = j) as -> by (eapply (NoDup_lookup ids); [done|rewrite list_lookup_fmap, Hi; reflexivity|rewrite list_lookup_fmap, Hj; cbn; by rewrite E]).
    congruence.
  - assert (In s (rev steps)) as Hr by (apply in_rev; rewrite rev_involutive; by apply list_elem_of_In).
    pose proof (List.find_none _ _ E s Hr) as H. cbn in H. by rewrite String.eqb_refl in H.
Qed.
Lemma deps_of_in (s : StepConfig) : s ∈ steps -> deps_of steps (st_ID s) = st_DependsOn s.
Proof. intros Hs. unfold deps_of. by rewrite stepByID_in. Qed.
Lemma in_ids (id : string) : id ∈ ids <-> exists s, s ∈ steps /\ st_ID s = id.
Proof. rewrite list_elem_of_In, in_map_iff. split; intros (s & H1 & H2); exists s; rewrite ?list_elem_of_In in *; tauto. Qed.

Lemma initial_degree (id : string) : id ∈ ids -> default 0 (initial_degrees steps !! id) = Z.of_nat (length (deps_of steps id)).
Proof.
  intros (s & Hs & <-)%in_ids. rewrite deps_of_in by done. unfold initial_degrees. clear deps_known.
  enough (forall l m, NoDup (map st_ID l) -> s ∈ l -> (forall x, x ∈ l -> m !! st_ID x = None) ->
    default 0 (fold_left (fun m s => <[st_ID s := default 0 (m !! st_ID s) + Z.of_nat (length (st_DependsOn s))]> m) l m !! st_ID s)
    = Z.of_nat (length (st_DependsOn s))) as H by (by apply H).
  induction l as [|x l IH]; intros m Hnd Hin Hm; [by apply elem_of_nil in Hin|]. cbn [map fold_left] in *. apply NoDup_cons in Hnd as [Hx Hnd].
  assert (forall y, y ∈ l -> st_ID y <> st_ID x) as Hne.
  { intros y Hy E. apply Hx. rewrite <- E. apply list_elem_of_In, in_map_iff. exists y. split; [done|by apply list_elem_of_In]. }
  rewrite (Hm x ltac:(by left)). cbn [default].
  apply elem_of_cons in Hin as [->|Hin].
  - enough (forall l0 m0, (forall y, y ∈ l0 -> st_ID y <> st_ID x) -> fold_left (fun m s => <[st_ID s := default 0 (m !! st_ID s) + Z.of_nat (length (st_DependsOn s))]> m) l0 m0 !! st_ID x
      = m0 !! st_ID x) as H by (rewrite H by done; rewrite lookup_insert_eq; cbn; lia).
    clear. induction l0 as [|z l0 IH]; intros m0 Hne; [done|]. cbn [fold_left]. rewrite IH by (intros y Hy; apply Hne; by right).
    apply lookup_insert_ne. apply Hne. by left.
  - apply IH; [done|done|]. intros y Hy. rewrite lookup_insert_ne by (intros E; by apply (Hne y Hy)). apply Hm. by right.
Qed.

Lemma dependents_occurs (dep id : string) : id ∈ ids -> occurs id (dependents steps dep) = occurs dep (deps_of steps id).
Proof.
  intros (s & Hs & <-)%in_ids. rewrite deps_of_in by done. unfold dependents. clear deps_known.
  assert (forall s' l, occurs (st_ID s) (map (fun _ => st_ID s') (List.filter (String.eqb dep) l)) = if String.eqb (st_ID s) (st_ID s') then occurs dep l else 0) as Hone.
  { intros s' l. induction l as [|d l IH]; [by destruct (String.eqb _ _)|]. rewrite occurs_cons. cbn [List.filter].
    destruct (String.eqb dep d); cbn [map]; rewrite ?occurs_cons, IH; destruct (String.eqb (st_ID s) (st_ID s')); lia. }
  induction steps as [|x l IH]; [by apply elem_of_nil in Hs|]. cbn [map concat] in *. apply NoDup_cons in ids_distinct as [Hx Hnd].
  rewrite occurs_app, Hone. apply elem_of_cons in Hs as [->|Hin].
  - rewrite String.eqb_refl. enough (occurs (st_ID x) (concat (map (fun s => map (fun _ => st_ID s) (List.filter (String.eqb dep) (st_DependsOn s))) l)) = 0) by lia.
    clear IH Hnd Hone. induction l as [|y l IH]; [done|]. cbn [map concat] in *. apply not_elem_of_cons in Hx as [Hxy Hx]. rewrite occurs_app, IH by done.
    enough (occurs (st_ID x) (map (fun _ => st_ID y) (List.filter (String.eqb dep) (st_DependsOn y))) = 0) by lia.
    generalize (List.filter (String.eqb dep) (st_DependsOn y)). intros l0. induction l0 as [|? l0 IH0]; [done|]. cbn [map]. rewrite occurs_cons, IH0.
    apply String.eqb_neq in Hxy. by rewrite Hxy.
  - rewrite IH by done. destruct (String.eqb_spec (st_ID s) (st_ID x)) as [E|]; [|lia]. exfalso. apply Hx. rewrite <- E.
    apply list_elem_of_In, in_map_iff. exists s. split; [done|by apply list_elem_of_In].
Qed.
Lemma dependents_ids (dep id : string) : id ∈ dependents steps dep -> id ∈ ids.
Proof.
  unfold dependents. rewrite list_elem_of_In, in_concat. intros (l & (s & <- & Hs)%in_map_iff & (? & <- & _)%in_map_iff).
  apply in_ids. exists s. split; [by apply list_elem_of_In|done].
Qed.

(** The dependencies of a step that are not done. *)
Definition open_deps (done : gset string) (id : string) : Z := Z.of_nat (length (List.filter (fun d => negb (bool_decide (d ∈ done))) (deps_of steps id))).

Lemma open_deps_step (done : gset string) (x id : string) : x ∉ done -> open_deps ({[x]} ∪ done) id = open_deps done id - occurs x (deps_of steps id).
Proof.
  intros Hx. unfold open_deps, occurs. induction (deps_of steps id) as [|d l IH]; [done|]. cbn [List.filter].
  destruct (String.eqb_spec x d) as [<-|Hne].
  - rewrite (bool_decide_eq_true_2 (x ∈ {[x]} ∪ done)) by set_solver. rewrite (bool_decide_eq_false_2 (x ∈ done)) by done. cbn [negb length]. lia.
  - rewrite (bool_decide_ext (d ∈ {[x]} ∪ done) (d ∈ done)) by set_solver. destruct (bool_decide (d ∈ done)); cbn [negb length]; lia.
Qed.
Lemma open_deps_zero (done : gset string) (id : string) : open_deps done id = 0 <-> forall d, d ∈ deps_of steps id -> d ∈ done.
Proof.
  unfold open_deps. induction (deps_of steps id) as [|d l IH]; [split; [by intros _ d ?%elem_of_nil|done]|]. cbn [List.filter].
  destruct (bool_decide (d ∈ done)) eqn:E; cbn [negb].
  - apply bool_decide_eq_true in E. rewrite IH. split; [intros H d' [->|?]%elem_of_cons; auto|intros H d' Hd'; apply H; by right].
  - apply bool_decide_eq_false in E. cbn [length]. split; [lia|]. intros H. exfalso. apply E, H. by left.
Qed.
Lemma open_deps_occurs (done : gset string) (x id : string) : x ∉ done -> occurs x (deps_of steps id) <= open_deps done id.
Proof. intros Hx. pose proof (open_deps_step done x id Hx). enough (0 <= open_deps ({[x]} ∪ done) id) by lia. unfold open_deps. lia. Qed.

(** Between and within waves; [started] are the steps of the waves so far. *)
Record wave_inv (started : gset string) (st : RunState) : Prop := {
  wi_degree id : id ∈ ids -> default 0 (rs_inDegree st !! id) = open_deps (rs_done st) id;
  wi_nodup : NoDup (rs_ready st);
  wi_ready id : id ∈ rs_ready st <-> id ∈ ids /\ open_deps (rs_done st) id = 0 /\ id ∉ started;
  wi_started id : id ∈ started -> id ∈ ids /\ open_deps (rs_done st) id = 0;
  wi_done : rs_done st ⊆ started;
  wi_skipped : rs_skipped st ⊆ rs_done st;
}.

Lemma process_result_inv (started before : gset string) (st st' : RunState) (x : string) (failed : bool) :
  wave_inv started st -> x ∈ started -> x ∉ rs_done st -> process_result steps before st (x, failed) = Ok st' ->
  wave_inv started st' /\ rs_done st' = {[x]} ∪ rs_done st /\ (forall d, d ∈ rs_done st -> d ∈ rs_skipped st' <-> d ∈ rs_skipped st).
Proof.
  intros Hi Hx Hd. cbn [process_result]. match goal with |- (if ?b then _ else _) = _ -> _ => destruct b; [done|] end.
  destruct (release_all (dependents steps x) (rs_inDegree st) (rs_ready st)) as (m' & new & -> & Hnd & Hdeg & Hin).
  { intros y Hy. pose proof (dependents_ids _ _ Hy) as Hid. rewrite dependents_occurs, (wi_degree _ _ Hi) by done. by apply open_deps_occurs. }
  intros [= <-]. cbn [rs_done rs_skipped].
  assert (Hopen : forall id, open_deps ({[x]} ∪ rs_done st) id = open_deps (rs_done st) id - occurs x (deps_of steps id)) by (intros; by apply open_deps_step).
  assert (Hnew : forall id, id ∈ new <-> id ∈ ids /\ open_deps (rs_done st) id <> 0 /\ open_deps ({[x]} ∪ rs_done st) id = 0).
  { intros id. rewrite Hin, Hopen. split.
    - intros [H1 H2]. pose proof (dependents_ids _ _ H1) as Hid. rewrite (wi_degree _ _ Hi), dependents_occurs in H2 by done.
      apply occurs_pos in H1. rewrite dependents_occurs in H1 by done. split_and!; [done|lia|lia].
    - intros (Hid & H1 & H2). rewrite <- occurs_pos, (wi_degree _ _ Hi), dependents_occurs by done. pose proof (occurs_nonneg x (deps_of steps id)). lia. }
  assert (Hzero : forall id, open_deps (rs_done st) id = 0 -> open_deps ({[x]} ∪ rs_done st) id = 0).
  { intros id H0. rewrite Hopen. pose proof (open_deps_occurs (rs_done st) x id Hd). pose proof (occurs_nonneg x (deps_of steps id)). lia. }
  split_and!; [|done|].
  - split; cbn [rs_inDegree rs_ready rs_done rs_skipped].
    + intros id Hid. rewrite Hdeg, Hopen, (wi_degree _ _ Hi), dependents_occurs by done. done.
    + apply NoDup_app. split_and!; [by apply (wi_nodup _ _ Hi)| |done]. intros id H1 H2. apply (wi_ready _ _ Hi) in H1. apply Hnew in H2. tauto.
    + intros id. rewrite elem_of_app, Hnew, (wi_ready _ _ Hi). split.
      * intros [(H1 & H2 & H3)|(H1 & H2 & H3)]; split_and!; auto. intros Hs. apply H2, (wi_started _ _ Hi id Hs).
      * intros (H1 & H2 & H3). destruct (decide (open_deps (rs_done st) id = 0)); [left|right]; done.
    + intros id Hs. destruct (wi_started _ _ Hi id Hs). split; [done|auto].
    + pose proof (wi_done _ _ Hi). set_solver.
    + pose proof (wi_skipped _ _ Hi). destruct (skip_propagated steps before x || _); set_solver.
  - intros d Hdd. destruct (skip_propagated steps before x || (negb (skip_propagated steps before x) && failed)); [|done]. rewrite elem_of_union, elem_of_singleton. split; [intros [->|?]; done|by right].
Qed.

Lemma process_results_inv (started before : gset string) (rs : list (string * bool)) (st st' : RunState) :
  wave_inv started st -> NoDup rs.*1 -> (forall x, x ∈ rs.*1 -> x ∈ started /\ x ∉ rs_done st) ->
  process_results steps before st rs = Ok st' ->
  wave_inv started st' /\ (forall x, x ∈ rs_done st' <-> x ∈ rs.*1 \/ x ∈ rs_done st)
  /\ (forall d, d ∈ rs_done st -> d ∈ rs_skipped st' <-> d ∈ rs_skipped st).
Proof.
  revert st; induction rs as [|[x f] rs IH]; intros st Hi Hnd Hrs.
  { intros [= <-]. split_and!; [done| |done]. intros x. split; [by right|intros [?%elem_of_nil|?]; done]. }
  cbn [process_results fmap list_fmap fst] in *. apply NoDup_cons in Hnd as [Hx Hnd]. destruct (Hrs x ltac:(by left)) as [H1 H2].
  destruct (process_result steps before st (x, f)) as [st1|] eqn:E; [|done]. simpl. intros Hp.
  destruct (process_result_inv _ _ _ _ _ _ Hi H1 H2 E) as (Hi1 & Hd1 & Hs1).
  destruct (IH st1 Hi1 Hnd) as (Hi' & Hd' & Hs'); [|done|].
  { intros y Hy. rewrite Hd1. destruct (Hrs y ltac:(by right)). split; [done|]. assert (y <> x) by (intros ->; done). set_solver. }
  split_and!; [done| |].
  - intros y. rewrite Hd', Hd1, elem_of_cons. set_solver.
  - intros d Hd. rewrite Hs' by (rewrite Hd1; set_solver). by apply Hs1.
Qed.
Lemma initial_inv : wave_inv ∅ (initial_state steps).
Proof.
  assert (H0 : forall id, open_deps ∅ id = Z.of_nat (length (deps_of steps id))).
  { intros id. unfold open_deps. do 2 f_equal. induction (deps_of steps id) as [|d l IH]; [done|]. cbn [List.filter].
    rewrite bool_decide_eq_false_2 by set_solver. cbn [negb]. by rewrite IH. }
  split; cbn [initial_state rs_inDegree rs_ready rs_done rs_skipped]; [| | |set_solver|done|done].
  - intros id Hid. by rewrite H0, initial_degree.
  - clear deps_known H0. generalize (initial_degrees steps). intros m. induction steps as [|s l IH]; [constructor|]. cbn [List.filter map] in *.
    apply NoDup_cons in ids_distinct as [Hs Hnd]. destruct (_ =? 0); [|by apply IH]. constructor; [|by apply IH].
    intros (s' & E & (Hs' & _)%filter_In)%list_elem_of_In%in_map_iff. apply Hs. rewrite <- E. by apply list_elem_of_In, in_map.
  - intros id. rewrite list_elem_of_In, in_map_iff. split.
    + intros (s & <- & (Hs & E)%filter_In). assert (st_ID s ∈ ids) as Hid by (apply list_elem_of_In; by apply in_map).
      rewrite H0, <- initial_degree by done. split_and!; [done|lia|set_solver].
    + intros (Hid & Ho & _). pose proof Hid as (s & Hs & <-)%in_ids. exists s. split; [done|]. apply filter_In.
      split; [by apply list_elem_of_In|]. rewrite initial_degree, <- H0, Ho by done. done.
Qed.

(** What a run gives, from a state between two waves. *)
Record waves_ok (st : RunState) (log : list (list string * list string)) (final : RunState) (r : run_outcome) : Prop := {
  wo_once : NoDup (concat log.*1);
  wo_fresh x : x ∈ concat log.*1 -> x ∈ ids /\ x ∉ rs_done st;
  wo_order j wave x d : log.*1 !! j = Some wave -> x ∈ wave -> d ∈ deps_of steps x ->
    d ∈ rs_done st \/ exists i wave', (i < j)%nat /\ log.*1 !! i = Some wave' /\ d ∈ wave';
  wo_kept x : x ∈ rs_done st -> x ∈ rs_done final /\ (x ∈ rs_skipped final <-> x ∈ rs_skipped st);
  wo_ran wave ran x : (wave, ran) ∈ log -> x ∈ ran <-> x ∈ wave /\ (forall d, d ∈ deps_of steps x -> d ∉ rs_skipped final);
  wo_final x : x ∈ rs_done final -> x ∈ rs_done st \/ x ∈ concat log.*1;
  wo_all : (exists id, r = RunStopped id) \/ (forall x, x ∈ concat log.*1 -> x ∈ rs_done final)
    /\ (r = RunOutOfFuel \/ (r = RunOk /\ (forall x, x ∈ ids -> x ∈ rs_done final))
        \/ exists id, r = RunCycle id /\ id ∈ ids /\ (id ∉ rs_done final)
           /\ forall x, x ∈ ids -> x ∉ rs_done final -> exists d, d ∈ deps_of steps x /\ d ∉ rs_done final);
}.

Lemma waves_end (st : RunState) (r : run_outcome) :
  wave_inv (rs_done st) st -> rs_ready st = [] ->
  r = match List.find (fun s => negb (bool_decide (st_ID s ∈ rs_done st))) steps with Some s => RunCycle (st_ID s) | None => RunOk end ->
  waves_ok st [] st r.
Proof.
  intros Hi Hr ->. split; cbn [fmap list_fmap concat]; try (intros; by rewrite ?elem_of_nil in *); [constructor|by left|].
  right. split; [by intros x ?%elem_of_nil|right]. destruct (List.find _ _) as [s|] eqn:E.
  - right. apply List.find_some in E as [Hs%(in_map st_ID)%list_elem_of_In E%negb_true_iff%bool_decide_eq_false]. exists (st_ID s). split_and!; [done..|].
    intros x Hx Hd. destruct (decide (Exists (fun d => d ∉ rs_done st) (deps_of steps x))) as [(d & H1 & H2)%Exists_exists|Hn]; [by exists d|exfalso].
    assert (x ∈ rs_ready st) as Hin; [|rewrite Hr in Hin; by apply elem_of_nil in Hin].
    apply (wi_ready _ _ Hi). split_and!; [done| |done]. apply open_deps_zero. intros d Hdd. destruct (decide (d ∈ rs_done st)); [done|].
    exfalso. apply Hn, Exists_exists. by exists d.
  - left. split; [done|]. intros x (s & Hs%list_elem_of_In & <-)%in_ids. pose proof (List.find_none _ _ E s Hs) as H.
    by apply negb_false_iff, bool_decide_eq_true in H.
Qed.

Lemma ran_of_wave (st : RunState) (wave : list string) (x : string) :
  x ∈ List.filter (fun id => negb (skip_propagated steps (rs_skipped st) id)) wave
  <-> x ∈ wave /\ (forall d, d ∈ deps_of steps x -> d ∉ rs_skipped st).
Proof.
  rewrite !list_elem_of_In, filter_In. apply and_iff_compat_l. unfold skip_propagated. rewrite negb_true_iff, <- not_true_iff_false, existsb_exists. split.
  - intros H d Hd Hs. apply H. exists d. split; [by apply list_elem_of_In|by apply bool_decide_eq_true].
  - intros H (d & Hd%list_elem_of_In & Hs%bool_decide_eq_true). by apply (H d).
Qed.

Lemma wave_mid (st : RunState) (wave : list string) :
  wave_inv (rs_done st) st -> rs_ready st = wave ->
  wave_inv (list_to_set wave ∪ rs_done st) (MkRunState (rs_inDegree st) [] (rs_done st) (rs_skipped st)).
Proof.
  intros Hi Hr. split; cbn [rs_inDegree rs_ready rs_done rs_skipped].
  - by apply wi_degree with (rs_done st).
  - constructor.
  - intros id. rewrite elem_of_nil. split; [done|]. intros (H1 & H2 & H3). apply H3, elem_of_union_l, elem_of_list_to_set. rewrite <- Hr.
    apply (wi_ready _ _ Hi). split_and!; [done..|]. intros H4. apply H3. by apply elem_of_union_r.
  - intros id [H%elem_of_list_to_set|H]%elem_of_union; [|by apply (wi_started _ _ Hi)].
    rewrite <- Hr in H. apply (wi_ready _ _ Hi) in H. tauto.
  - set_solver.
  - apply (wi_skipped _ _ Hi).
Qed.

(** The wave that is started: its steps are new and their dependencies are done. *)
Lemma wave_new (st : RunState) (wave : list string) (x : string) :
  wave_inv (rs_done st) st -> rs_ready st = wave -> x ∈ wave ->
  x ∈ ids /\ (x ∉ rs_done st) /\ forall d, d ∈ deps_of steps x -> d ∈ rs_done st.
Proof. intros Hi <- Hx. apply (wi_ready _ _ Hi) in Hx as (H1 & H2 & H3). split_and!; [done..|]. by apply open_deps_zero. Qed.

Lemma waves_cons (st st' : RunState) (wave ran : list string) (log : list (list string * list string)) (final : RunState) (r : run_outcome) :
  wave_inv (rs_done st) st -> rs_ready st = wave -> ran = List.filter (fun id => negb (skip_propagated steps (rs_skipped st) id)) wave ->
  (forall x, x ∈ rs_done st' <-> x ∈ wave \/ x ∈ rs_done st) -> (forall d, d ∈ rs_done st -> d ∈ rs_skipped st' <-> d ∈ rs_skipped st) ->
  waves_ok st' log final r -> waves_ok st ((wave, ran) :: log) final r.
Proof.
  intros Hi Hr -> Hd Hs Hl. pose proof (wave_new st wave) as Hnew.
  split; cbn [fmap list_fmap concat fst].
  - apply NoDup_app. split_and!; [rewrite <- Hr; by apply (wi_nodup _ _ Hi)| |by apply (wo_once _ _ _ _ Hl)].
    intros x H1 H2. apply (wo_fresh _ _ _ _ Hl) in H2 as [_ H2]. apply H2, Hd. by left.
  - intros x [Hx|Hx]%elem_of_app; [destruct (Hnew x Hi Hr Hx); tauto|]. apply (wo_fresh _ _ _ _ Hl) in Hx as [H1 H2]. rewrite Hd in H2. tauto.
  - intros [|j] w x d; cbn; [intros [= <-] Hx Hdd; left; by apply (Hnew x)|]. intros Hj Hx Hdd.
    destruct (wo_order _ _ _ _ Hl _ _ _ _ Hj Hx Hdd) as [[H|H]%Hd|(i & w' & H1 & H2 & H3)].
    + right. exists 0%nat, wave. split_and!; [lia|done|done].
    + by left.
    + right. exists (S i), w'. split_and!; [lia|done|done].
  - intros x Hx. destruct (wo_kept _ _ _ _ Hl x) as [H1 H2]; [apply Hd; by right|]. split; [done|]. by rewrite H2, Hs.
  - intros w ran x [[= -> ->]|Hin]%elem_of_cons; [|by apply (wo_ran _ _ _ _ Hl)]. rewrite ran_of_wave.
    split; intros [Hx H]; (split; [done|]); intros d Hdd; destruct (Hnew x Hi Hr Hx) as (_ & _ & Hdone); specialize (Hdone d Hdd);
      destruct (wo_kept _ _ _ _ Hl d) as [_ E]; try (apply Hd; by right); rewrite (Hs _ Hdone) in E; rewrite <- ?E, ?E; rewrite ?E; try (by apply H).
    rewrite <- E. by apply H.
  - intros x [[H|H]%Hd|H]%(wo_final _ _ _ _ Hl); rewrite elem_of_app; tauto.
  - destruct (wo_all _ _ _ _ Hl) as [H|[H1 H2]]; [by left|right]. split; [|done]. intros x [Hx|Hx]%elem_of_app; [|by apply H1].
    apply (wo_kept _ _ _ _ Hl), Hd. by left.
Qed.

Lemma waves_stopped (st : RunState) (wave : list string) (id : string) :
  wave_inv (rs_done st) st -> rs_ready st = wave ->
  waves_ok st [(wave, List.filter (fun id => negb (skip_propagated steps (rs_skipped st) id)) wave)] st (RunStopped id).
Proof.
  intros Hi Hr. pose proof (fun x => wave_new st wave x Hi Hr) as Hnew. split; cbn [fmap list_fmap concat fst]; rewrite ?app_nil_r.
  - rewrite <- Hr. by apply (wi_nodup _ _ Hi).
  - intros x Hx. destruct (Hnew x Hx). tauto.
  - intros [|j] w x d; cbn; [|done]. intros [= <-] Hx Hd. left. by apply (Hnew x).
  - done.
  - intros w ran x [= -> ->]%list_elem_of_singleton. apply ran_of_wave.
  - by left.
  - left. by exists id.
Qed.

Lemma waves_correct (world : nat -> list string -> list (string * bool)) (fuel k : nat) (st : RunState) :
  (forall k wave, (world k wave).*1 ≡ₚ wave) -> wave_inv (rs_done st) st ->
  let '(log, final, r) := waves steps fuel k world st in
  waves_ok st log final r /\ (r = RunOutOfFuel -> (fuel <= length (concat log.*1))%nat).
Proof.
  intros Hw. revert k st; induction fuel as [|fuel IH]; intros k st Hi.
  { cbn. split; [|lia]. split; cbn; try (intros; by rewrite ?elem_of_nil in *); [constructor|by left|]. right. split; [by intros x ?%elem_of_nil|by left]. }
  cbn [waves]. destruct (rs_ready st) as [|x0 l] eqn:Hr.
  { split; [by apply waves_end|]. destruct (List.find _ _); discriminate. }
  set (wave := x0 :: l) in *.
  set (st0 := MkRunState (rs_inDegree st) [] (rs_done st) (rs_skipped st)).
  assert (Hnd : NoDup wave) by (rewrite <- Hr; by apply (wi_nodup _ _ Hi)).
  assert (Hmem : forall x, x ∈ (world k wave).*1 <-> x ∈ wave) by (intros x; by rewrite (Hw k wave)).
  pose proof (wave_mid st wave Hi Hr) as Hmid. fold st0 in Hmid.
  destruct (process_results steps (rs_skipped st) st0 (world k wave)) as [st'|id] eqn:E.
  - destruct (process_results_inv _ _ _ _ _ Hmid ltac:(by rewrite (Hw k wave)) ltac:(intros x Hx%Hmem; split; [set_solver|by apply (wave_new st wave)]) E)
      as (Hi' & Hd' & Hs').
    assert (Hset : forall x, x ∈ rs_done st' <-> x ∈ wave \/ x ∈ rs_done st) by (intros x; by rewrite Hd', Hmem).
    replace (list_to_set wave ∪ rs_done st) with (rs_done st') in Hi' by (apply set_eq; intros x; rewrite Hset; set_solver).
    specialize (IH (S k) st' Hi'). destruct (waves steps fuel (S k) world st') as [[log final] r]. destruct IH as [IH Hf].
    split; [by apply (waves_cons st st')|]. intros Ho%Hf. unfold wave. cbn [fmap list_fmap concat fst app length]. rewrite length_app. lia.
  - split; [by apply waves_stopped|discriminate].
Qed.
End Kahn.

Lemma check_steps_ids (steps : list StepConfig) (i : nat) (seen ids : list string) :
  check_steps i seen steps = Ok ids -> ids = rev (map st_ID steps) ++ seen /\ NoDup (map st_ID steps) /\ forall s, s ∈ steps -> st_ID s ∉ seen.
Proof.
  revert i seen; induction steps as [|s l IH]; intros i seen; cbn [check_steps map rev].
  { intros [= <-]. split_and!; [done|constructor|by intros s ?%elem_of_nil]. }
  destruct (String.eqb _ _); [done|]. destruct (existsb _ seen) eqn:E; [done|]. destruct (String.eqb _ _); [done|]. destruct (ParseOnError _); [|done].
  intros (-> & Hnd & Hl)%IH. rewrite <- app_assoc. split_and!; [done| |].
  - constructor; [|done]. intros (s' & E' & Hs'%list_elem_of_In)%list_elem_of_In%in_map_iff. apply (Hl s' Hs'). rewrite E'. by left.
  - intros s' [->|Hs']%elem_of_cons.
    + rewrite <- not_true_iff_false, existsb_exists in E. intros H. apply E. exists (st_ID s). split; [by apply list_elem_of_In|apply String.eqb_refl].
    + intros H. apply (Hl s' Hs'). by right.
Qed.
Lemma check_deps_known (ids : list string) (steps : list StepConfig) :
  check_deps ids steps = Ok () <-> forall s dep, s ∈ steps -> dep ∈ st_DependsOn s -> dep ∈ ids.
Proof.
  induction steps as [|s l IH]; cbn [check_deps]; [split; [by intros _ s dep ?%elem_of_nil|done]|].
  destruct (List.find _ _) as [dep|] eqn:E.
  - apply List.find_some in E as [Hd%list_elem_of_In E%negb_true_iff]. split; [done|]. intros H. specialize (H s dep ltac:(by left) Hd).
    rewrite <- not_true_iff_false, existsb_exists in E. exfalso. apply E. exists dep. split; [by apply list_elem_of_In|apply String.eqb_refl].
  - rewrite IH. split; [|intros H s' dep Hs'; apply H; by right]. intros H s' dep [->|Hs']%elem_of_cons Hd; [|by apply (H s')].
    apply list_elem_of_In in Hd. pose proof (List.find_none _ _ E dep Hd) as Hn. apply negb_false_iff, existsb_exists in Hn as (d & Hd' & ->%String.eqb_eq).
    by apply list_elem_of_In.
Qed.
Lemma validate_graph (w : WorkflowConfig) :
  Workflow_Validate w = Ok () ->
  NoDup (map st_ID (wf_Steps w)) /\ forall s dep, s ∈ wf_Steps w -> dep ∈ st_DependsOn s -> dep ∈ map st_ID (wf_Steps w).
Proof.
  unfold Workflow_Validate. destruct (String.eqb _ _); [done|]. destruct (_ =? _)%nat; [done|]. destruct (check_steps _ _ _) as [ids|] eqn:E; [|done].
  apply check_steps_ids in E as (-> & Hnd & _). rewrite app_nil_r. simpl. rewrite check_deps_known. intros H. split; [done|].
  intros s dep Hs Hd. specialize (H s dep Hs Hd). by apply list_elem_of_In, in_rev, list_elem_of_In.
Qed.

Lemma process_results_stops (steps : list StepConfig) (before : gset string) (rs : list (string * bool)) (st : RunState) (id : string) :
  process_results steps before st rs = Err id -> (id, true) ∈ rs /\ policy_of steps id <> Some PolicySkip.
Proof.
  revert st; induction rs as [|[x f] rs IH]; intros st; [done|]. cbn [process_results process_result].
  destruct (negb (skip_propagated steps before x) && f) eqn:Ef; cbn [andb].
  - apply andb_true_iff in Ef as [_ ->]. destruct (policy_of steps x) as [[]|] eqn:Ep; cycle 1.
    { destruct (fold_left _ _ _). simpl. intros [? ?]%IH. split; [by right|done]. }
    all: simpl; intros [= <-]; split; [by left|congruence].
  - destruct (fold_left _ _ _). simpl. intros [? ?]%IH. split; [by right|done].
Qed.
Lemma waves_stop (steps : list StepConfig) (world : nat -> list string -> list (string * bool)) (fuel k : nat) (st : RunState) (id : string) :
  (waves steps fuel k world st).2 = RunStopped id -> exists k wave, (id, true) ∈ world k wave /\ policy_of steps id <> Some PolicySkip.
Proof.
  revert k st; induction fuel as [|fuel IH]; intros k st; [done|]. cbn [waves]. destruct (rs_ready st) as [|x l].
  { cbn [snd]. destruct (List.find _ _); done. }
  destruct (process_results _ _ _ _) as [st'|id'] eqn:E.
  - specialize (IH (S k) st'). destruct (waves _ _ _ _ _) as [[log final] r]. exact IH.
  - cbn [snd]. intros [= ->]. exists k, (x :: l). by apply process_results_stops in E.
Qed.

(** ** The order of a run *)

Lemma run_facts (w : WorkflowConfig) (world : nat -> list string -> list (string * bool)) :
  Workflow_Validate w = Ok () -> (forall k wave, (world k wave).*1 ≡ₚ wave) ->
  let '(log, final, r) := Workflow_Run (wf_Steps w) world in
  waves_ok (wf_Steps w) (initial_state (wf_Steps w)) log final r /\ r <> RunOutOfFuel.
Proof.
  intros [Hnd Hk]%validate_graph Hw. unfold Workflow_Run.
  pose proof (waves_correct (wf_Steps w) Hnd Hk world (S (length (wf_Steps w))) 0 (initial_state (wf_Steps w)) Hw (initial_inv (wf_Steps w) Hnd Hk)) as H.
  destruct (waves _ _ _ _ _) as [[log final] r]. destruct H as [H Hf]. split; [done|].
  intros Ho%Hf. enough (length (concat log.*1) <= length (map st_ID (wf_Steps w)))%nat by (rewrite length_map in *; lia).
  apply submseteq_length, NoDup_submseteq; [apply (wo_once _ _ _ _ _ H)|]. intros x Hx. by apply (wo_fresh _ _ _ _ _ H).
Qed.
Lemma step_in_ids (steps : list StepConfig) (s : StepConfig) : s ∈ steps -> st_ID s ∈ map st_ID steps.
Proof. intros Hs. apply list_elem_of_In, in_map. by apply list_elem_of_In. Qed.

(** A step of a wave that is called and fails may be skipped, and is, unless the run stops. *)
Lemma process_results_skips (steps : list StepConfig) (before : gset string) (rs : list (string * bool)) (st st' : RunState) :
  process_results steps before st rs = Ok st' ->
  rs_skipped st ⊆ rs_skipped st' /\
  forall x, (x, true) ∈ rs -> skip_propagated steps before x = false -> policy_of steps x = Some PolicySkip /\ x ∈ rs_skipped st'.
Proof.
  revert st; induction rs as [|[y f] rs IH]; intros st; cbn [process_results].
  { intros [= <-]. split; [done|]. by intros x ?%elem_of_nil. }
  destruct (process_result steps before st (y, f)) as [st1|] eqn:E; [|done]. cbn [mbind result_bind]. intros [Hm H]%IH.
  cbn [process_result] in E.
  destruct (negb (skip_propagated steps before y) && f && _) eqn:Ef; [done|]. destruct (fold_left _ _ _). injection E as <-.
  cbn [rs_skipped] in Hm. split; [etrans; [|exact Hm]; destruct (_ || _); set_solver|].
  intros x [[= -> <-]|Hx]%elem_of_cons Hs; [|by apply H]. rewrite Hs in *. cbn [negb andb orb] in *.
  destruct (policy_of steps y) as [[]|]; try done. split; [done|]. set_solver.
Qed.

Lemma waves_results (steps : list StepConfig) (world : nat -> list string -> list (string * bool)) (fuel k : nat) (st : RunState) :
  let '(log, final, r) := waves steps fuel k world st in
  rs_skipped st ⊆ rs_skipped final /\
  forall j wave called x, (forall id, r <> RunStopped id) -> log !! j = Some (wave, called) -> x ∈ called ->
    (x, true) ∈ world (k + j)%nat wave -> policy_of steps x = Some PolicySkip /\ x ∈ rs_skipped final.
Proof.
  revert k st; induction fuel as [|fuel IH]; intros k st; cbn [waves]; [by split|].
  destruct (rs_ready st) as [|x0 l]; [by split|]. set (wave0 := x0 :: l) in *.
  destruct (process_results _ _ _ _) as [st'|id] eqn:E; [|by split; [|intros j wave called x Hr; destruct (Hr id)]].
  apply process_results_skips in E as [Hm H]. cbn [rs_skipped] in Hm.
  specialize (IH (S k) st'). destruct (waves steps fuel (S k) world st') as [[log final] r]. destruct IH as [Hf IH].
  split; [by etrans|]. intros [|j] wave called x Hr; cbn [lookup list_lookup].
  - intros E Hx Hin. assert (wave = wave0) as -> by congruence.
    assert (called = List.filter (fun id => negb (skip_propagated steps (rs_skipped st) id)) wave0) as -> by congruence.
    apply list_elem_of_In, filter_In in Hx as [_ Hx]. rewrite Nat.add_0_r in Hin. apply negb_true_iff in Hx.
    destruct (H x Hin Hx). split; [done|]. set_solver.
  - replace (k + S j)%nat with (S k + j)%nat by lia. by apply IH.
Qed.

Lemma step_world_ids (steps : list StepConfig) (vars : gmap string string) (attempts : nat -> string -> Z -> attempt)
    (order : nat -> list string -> list string) (k : nat) (wave : list string) :
  (step_world steps vars attempts order k wave).*1 = order k wave.
Proof. unfold step_world. generalize (order k wave). induction l as [|x l IH]; [done|]. cbn. by f_equal. Qed.

(** The first attempt of a step whose command is well formed starts it, unless the context is done. *)
Lemma runStep_first (step : StepConfig) (vars : gmap string string) (world : Z -> attempt) (args : list string) :
  tokenize (applyVars (st_Command step) vars) = Some args -> 1 <= max_attempts (ParseOnError (st_OnError step)) ->
  at_dead (world 1) = false -> exists later, (runStep step vars world).1 = (0, args) :: later.
Proof.
  intros Ht Hm Hd. unfold runStep. rewrite Ht. destruct (Z.to_nat _) as [|more] eqn:E; [lia|]. cbn [attempts_from].
  change (1 =? 1) with true. rewrite Hd. cbn [negb andb]. destruct (at_ok (world 1)); [by eexists|].
  destruct (attempts_from _ _ _ _) as [log r]. by eexists.
Qed.

(** C17. A valid workflow always comes to an end, whatever its commands do and in whatever order the results of a wave arrive; no step
    is started twice; a step is started in a wave after those of all that it depends on; [runStep] is called for it exactly if nothing
    it depends on was skipped, and then starts its command if the command's quotes are closed, the number of attempts is positive (it
    is not for the largest number of retries) and the context of the wave is not done at the first attempt; and a run without an error
    has started every step, and every step [runStep] was called for succeeded or has the policy to skip and was skipped. *)
Theorem workflow_runs_in_order (w : WorkflowConfig) (vars : gmap string string) (attempts : nat -> string -> Z -> attempt)
    (order : nat -> list string -> list string) :
  Workflow_Validate w = Ok () -> (forall k wave, order k wave ≡ₚ wave) ->
  let steps := wf_Steps w in
  let '(log, final, r) := Workflow_Run steps (step_world steps vars attempts order) in
  r <> RunOutOfFuel /\ NoDup (concat log.*1)
  /\ (forall j wave x d, log.*1 !! j = Some wave -> x ∈ wave -> d ∈ deps_of steps x -> exists i wave', (i < j)%nat /\ log.*1 !! i = Some wave' /\ d ∈ wave')
  /\ (forall wave called x, (wave, called) ∈ log -> x ∈ called <-> x ∈ wave /\ (forall d, d ∈ deps_of steps x -> d ∉ rs_skipped final))
  /\ (forall k wave called s args, log !! k = Some (wave, called) -> s ∈ steps -> st_ID s ∈ called ->
        tokenize (applyVars (st_Command s) vars) = Some args -> 1 <= max_attempts (ParseOnError (st_OnError s)) ->
        at_dead (attempts k (st_ID s) 1) = false ->
        exists started later, commands steps vars attempts log !! k = Some started /\ (st_ID s, (0, args) :: later) ∈ started)
  /\ (r = RunOk ->
        (forall s, s ∈ steps -> st_ID s ∈ concat log.*1) /\
        forall k wave called s, log !! k = Some (wave, called) -> s ∈ steps -> st_ID s ∈ called ->
          (runStep s vars (attempts k (st_ID s))).2 = StepOk
          \/ ParseOnError (st_OnError s) = Some PolicySkip /\ st_ID s ∈ rs_skipped final).
Proof.
  intros Hv Ho steps. destruct (validate_graph w Hv) as [Hnd _]. fold steps in Hnd.
  set (world := step_world steps vars attempts order).
  pose proof (run_facts w world Hv ltac:(intros k wave; unfold world; by rewrite step_world_ids)) as H. fold steps in H.
  pose proof (waves_results steps world (S (length steps)) 0 (initial_state steps)) as Hres. fold (Workflow_Run steps world) in Hres.
  destruct (Workflow_Run _ _) as [[log final] r]. destruct H as [H Hf], Hres as [_ Hres].
  assert (Hout : forall s at', s ∈ steps -> step_outcome steps vars at' (st_ID s) = runStep s vars at')
    by (intros s at' Hs; unfold step_outcome; by rewrite stepByID_in).
  assert (Hstart : r = RunOk -> forall s, s ∈ steps -> st_ID s ∈ concat log.*1).
  { intros -> s Hs. destruct (wo_all _ _ _ _ _ H) as [[]|[_ [?|[[_ Hall]|(? & ? & _)]]]]; [done..| |done].
    destruct (wo_final _ _ _ _ _ H (st_ID s)) as [[]%elem_of_empty|]; [|done]. by apply Hall, step_in_ids. }
  split; [done|]. split; [apply (wo_once _ _ _ _ _ H)|]. split; [|split; [apply (wo_ran _ _ _ _ _ H)|split]].
  - intros j wave x d H1 H2 H3. destruct (wo_order _ _ _ _ _ H _ _ _ _ H1 H2 H3) as [[]%elem_of_empty|]; done.
  - intros k wave called s args Hk Hs Hc Ht Hm Hd. destruct (runStep_first s vars (attempts k (st_ID s)) args Ht Hm Hd) as [later E].
    exists (map (fun id => (id, (step_outcome steps vars (attempts k id) id).1)) called), later. split.
    + unfold commands. by rewrite list_lookup_imap, Hk.
    + apply list_elem_of_In, in_map_iff. exists (st_ID s). split; [by rewrite Hout, E|by apply list_elem_of_In].
  - intros Hr. split; [by apply Hstart|]. intros k wave called s Hk Hs Hc.
    destruct (step_failed (runStep s vars (attempts k (st_ID s))).2) eqn:E; [right|left; by destruct (runStep _ _ _).2].
    destruct (Hres k wave called (st_ID s)) as [Hp Hsk]; [by subst|done|done| |].
    + apply list_elem_of_In, in_map_iff. exists (st_ID s). cbn [Nat.add]. rewrite Hout, E by done. split; [done|].
      apply list_elem_of_In. rewrite (Ho k wave). apply list_elem_of_lookup_2 in Hk. by apply (wo_ran _ _ _ _ _ H wave called _ Hk).
    + split; [|done]. unfold policy_of in Hp. by rewrite stepByID_in in Hp.
Qed.

(** The dependencies can be ranked: there is no cycle. *)
Definition acyclic (steps : list StepConfig) : Prop :=
  exists rank : string -> nat, forall s d, s ∈ steps -> d ∈ st_DependsOn s -> (rank d < rank (st_ID s))%nat.

(** The place of the first wave that starts a step. *)
Definition wave_rank (ws : list (list string)) (x : string) : nat := match list_find (fun w => x ∈ w) ws with Some (i, _) => i | None => 0%nat end.
Lemma wave_rank_spec (ws : list (list string)) (x : string) (i : nat) (w : list string) :
  ws !! i = Some w -> x ∈ w -> (wave_rank ws x <= i)%nat /\ exists w', ws !! wave_rank ws x = Some w' /\ x ∈ w'.
Proof.
  intros Hi Hx. unfold wave_rank. destruct (list_find (fun w => x ∈ w) ws) as [[j w']|] eqn:E.
  - apply list_find_Some in E as (Hj & Hx' & Hmin). split; [|by exists w']. destruct (decide (i < j)%nat) as [Hlt|]; [|lia]. by destruct (Hmin i w Hi Hlt).
  - apply list_find_None in E. rewrite Forall_lookup in E. by destruct (E i w Hi).
Qed.

(** C16. If only steps that may be skipped fail, a valid workflow ends without an error exactly if its dependencies have no cycle. *)
Theorem workflow_completes_iff_acyclic (w : WorkflowConfig) (world : nat -> list string -> list (string * bool)) :
  Workflow_Validate w = Ok () -> (forall k wave, (world k wave).*1 ≡ₚ wave) ->
  (forall k wave id, (id, true) ∈ world k wave -> policy_of (wf_Steps w) id = Some PolicySkip) ->
  (Workflow_Run (wf_Steps w) world).2 = RunOk <-> acyclic (wf_Steps w).
Proof.
  intros Hv Hw Hs. destruct (validate_graph w Hv) as [Hnd Hk]. pose proof (run_facts w world Hv Hw) as H.
  pose proof (waves_stop (wf_Steps w) world (S (length (wf_Steps w))) 0 (initial_state (wf_Steps w))) as Hstop. fold (Workflow_Run (wf_Steps w) world) in Hstop.
  destruct (Workflow_Run _ _) as [[log final] r]. cbn [snd] in *. destruct H as [H Hf].
  destruct (wo_all _ _ _ _ _ H) as [[id ->]|[_ [->|[[-> Hall]|(id & -> & Hid & Hnot & Hdeps)]]]].
  - destruct (Hstop id eq_refl) as (k & wave & H1 & H2). by destruct H2; apply (Hs k wave).
  - done.
  - split; [intros _|done]. exists (wave_rank log.*1). intros s d Hin Hd.
    destruct (wo_final _ _ _ _ _ H (st_ID s)) as [[]%elem_of_empty|Hx]; [by apply Hall, step_in_ids|].
    apply list_elem_of_In, in_concat in Hx as (wv & Hwv%list_elem_of_In & Hx%list_elem_of_In). apply list_elem_of_lookup in Hwv as [j Hj].
    destruct (wave_rank_spec _ _ _ _ Hj Hx) as (_ & w' & Hw' & Hx').
    destruct (wo_order _ _ _ _ _ H _ _ _ d Hw' Hx') as [[]%elem_of_empty|(i & w2 & Hlt & Hi & Hd2)]; [by rewrite deps_of_in|].
    pose proof (proj1 (wave_rank_spec _ _ _ _ Hi Hd2)). lia.
  - split; [done|]. intros [rank Hrank]. exfalso.
    enough (forall n x, (rank x < n)%nat -> x ∈ map st_ID (wf_Steps w) -> x ∈ rs_done final) as Hall by (apply Hnot, (Hall (S (rank id))); [lia|done]).
    induction n as [|n IH]; intros x Hlt Hx; [lia|]. destruct (decide (x ∈ rs_done final)) as [|Hn]; [done|].
    destruct (Hdeps x Hx Hn) as (d & Hd & Hdn). destruct Hdn. apply in_ids in Hx as (s & Hs' & <-). rewrite deps_of_in in Hd by done.
    apply IH; [|by apply (Hk s)]. specialize (Hrank s d Hs' Hd). lia.
Qed.

(** ** The words of a command *)

(** A word as a command has it in double quotes. *)
Fixpoint escape_word (s : string) : string :=
  match s with
  | "" => ""
  | String c s => if Ascii.eqb c DQUOTE || Ascii.eqb c BSLASH then String BSLASH (String c (escape_word s)) else String c (escape_word s)
  end.
Definition quote_word (s : string) : string := chr DQUOTE +:+ escape_word s +:+ chr DQUOTE.

Lemma tokens_quoted (a cur rest : string) : tokens_from InDouble cur (escape_word a +:+ String DQUOTE rest) = tokens_from Unquoted (cur +:+ a) rest.
Proof.
  revert cur; induction a as [|c a IH]; intros cur; [by rewrite str_app_nil_r|].
  assert (E : (cur +:+ chr c) +:+ a = cur +:+ String c a) by (by rewrite str_app_assoc).
  cbn [escape_word]. destruct (Ascii.eqb c DQUOTE || Ascii.eqb c BSLASH) eqn:Ec.
  - change (tokens_from InDouble (cur +:+ chr c) (escape_word a +:+ String DQUOTE rest) = tokens_from Unquoted (cur +:+ String c a) rest).
    by rewrite IH, E.
  - apply orb_false_iff in Ec as [E1 E2].
    change (String c (escape_word a) +:+ String DQUOTE rest) with (String c (escape_word a +:+ String DQUOTE rest)). cbn [tokens_from]. rewrite E1, E2.
    rewrite <- E, <- IH. by destruct (escape_word a +:+ String DQUOTE rest).
Qed.

(** Words in double quotes, with their quotes and backslashes escaped, are the arguments of the command whatever bytes they hold. *)
Theorem tokenize_quoted_words (args : list string) :
  Forall (fun a => a <> "") args -> tokenize (Join (map quote_word args) " ") = Some args.
Proof.
  unfold tokenize. induction 1 as [|a l Ha Hl IH]; [done|].
  assert (Hq : forall rest, tokens_from Unquoted "" (quote_word a +:+ rest) = tokens_from Unquoted a rest).
  { intros rest. unfold quote_word. rewrite !str_app_assoc. apply (tokens_quoted a "" rest). }
  apply String.eqb_neq in Ha. destruct l as [|b l].
  - cbn [map]. change (Join [quote_word a] " ") with (quote_word a). rewrite <- (str_app_nil_r (quote_word a)), Hq. cbn. unfold flush_word. by rewrite Ha.
  - cbn [map] in *. rewrite Join_cons by done. rewrite Hq. change (" " +:+ Join (quote_word b :: map quote_word l) " ") with (String " " (Join (quote_word b :: map quote_word l) " ")).
    cbn [tokens_from]. cbn [Ascii.eqb Bool.eqb SQUOTE DQUOTE byte_space existsb orb]. rewrite IH. cbn. unfold flush_word. by rewrite Ha.
Qed.

(** Outside of quotes the bytes 133 and 160 separate words, so a letter whose encoding holds one of them (208 160, 209 133: the
    Cyrillic Er and Kha) is cut in two and its byte is lost; and an argument that is empty is left out, where a shell passes it. *)
Theorem letters_are_split :
  tokenize ("--table " +:+ String "208" (String "160" "u")) = Some ["--table"; String "208" ""; "u"]
  /\ tokenize ("--where " +:+ String DQUOTE (String DQUOTE " --all")) = Some ["--where"; "--all"]
  /\ tokenize (String "209" (String "133" "")) = Some [String "209" ""].
Proof. done. Qed.

(** ** The attempts of a step *)

Lemma wrap64_pow (k : Z) : 64 <= k -> wrap64 (2 ^ k) = 0.
Proof.
  intros Hk. unfold wrap64. replace (2 ^ k + 2 ^ 63) with (2 ^ 63 + 2 ^ (k - 64) * 2 ^ 64) by (rewrite <- Z.pow_add_r by lia; replace (k - 64 + 64) with k by lia; lia).
  rewrite Z.mod_add by lia. by rewrite Z.mod_small by lia.
Qed.

(** The pause doubles from 2 seconds and is at most 30 seconds; but from the 64th attempt on there is none. *)
Theorem retry_delay_bounds (attempt : Z) :
  2 <= attempt ->
  retry_delay attempt = if attempt <=? 63 then Z.min (2 ^ (attempt - 1)) 30 * 1000000000 else 0.
Proof.
  intros H. unfold retry_delay. rewrite Z.shiftl_mul_pow2 by lia. rewrite <- (Z.pow_1_r 2) at 1. rewrite <- Z.pow_add_r by lia.
  replace (1 + (attempt - 2)) with (attempt - 1) by lia. destruct (Z.leb_spec attempt 63) as [Hle|Hgt].
  - assert (2 ^ (attempt - 1) <= 2 ^ 62) by (apply Z.pow_le_mono_r; lia). assert (0 < 2 ^ (attempt - 1)) by (apply Z.pow_pos_nonneg; lia).
    rewrite (wrap64_id (2 ^ (attempt - 1))) by (apply int64b_intro; unfold min_int64, max_int64; lia).
    apply wrap64_id, int64b_intro. unfold min_int64, max_int64. lia.
  - destruct (decide (attempt = 64)) as [->|]; [done|]. by rewrite wrap64_pow by lia.
Qed.

Lemma attempts_all (more : nat) (n : Z) (world : Z -> attempt) (args : list string) :
  1 <= n -> (forall k, at_cancelled (world k) = false /\ at_dead (world k) = false) ->
  let '(log, r) := attempts_from n more world args in
  (r = StepOk <-> (exists k, n <= k < n + Z.of_nat more /\ at_ok (world k) = true) \/ (more = 0%nat /\ n = 1))
  /\ (length log <= more)%nat
  /\ forall i run, log !! i = Some run ->
       run = ((if n + Z.of_nat i =? 1 then 0 else retry_delay (n + Z.of_nat i)), args) /\ forall j, n <= j < n + Z.of_nat i -> at_ok (world j) = false.
Proof.
  intros Hn Hc. revert n Hn; induction more as [|more IH]; intros n Hn; cbn [attempts_from].
  { split_and!; [|done|by intros i run H; rewrite lookup_nil in H]. destruct (Z.eqb_spec n 1).
    - split; [by right|done].
    - split; [done|]. intros [(k & ? & _)|[_ ?]]; lia. }
  destruct (Hc n) as [-> ->]. rewrite andb_false_r. cbn [negb andb]. destruct (at_ok (world n)) eqn:E.
  { split_and!; [|cbn; lia|].
    - split; [intros _; left; exists n; split; [lia|done]|done].
    - intros [|i] run; cbn; [|done]. intros [= <-]. rewrite Z.add_0_r. split; [done|lia]. }
  specialize (IH (n + 1) ltac:(lia)). destruct (attempts_from (n + 1) more world args) as [log r]. destruct IH as (H1 & H2 & H3). split_and!.
  - rewrite H1. split.
    + intros [(k & Hk & Ek)|[_ ?]]; [|lia]. left. exists k. split; [lia|done].
    + intros [(k & Hk & Ek)|[? _]]; [|done]. left. exists k. split; [|done]. assert (k <> n) by congruence. lia.
  - cbn [length]. lia.
  - intros [|i] run; cbn [lookup list_lookup].
    + intros [= <-]. rewrite Z.add_0_r. split; [done|lia].
    + intros Hi. destruct (H3 i run Hi) as [-> Hj]. replace (n + Z.of_nat (S i)) with (n + 1 + Z.of_nat i) by lia. split; [done|].
      intros j Hj'. destruct (decide (j = n)) as [->|]; [done|]. apply Hj. lia.
Qed.

(** A step with [retry(n)] runs its command at most [1 + n] times, waits before every attempt but the first, stops at the first success
    and fails only if all the attempts fail. *)
Theorem step_retried (step : StepConfig) (vars : gmap string string) (world : Z -> attempt) (n : Z) (args : list string) :
  ParseOnError (st_OnError step) = Some (PolicyRetry n) -> 1 <= n < max_int64 -> tokenize (applyVars (st_Command step) vars) = Some args ->
  (forall k, at_cancelled (world k) = false /\ at_dead (world k) = false) ->
  let '(log, r) := runStep step vars world in
  (r = StepOk <-> exists k, 1 <= k <= 1 + n /\ at_ok (world k) = true)
  /\ Z.of_nat (length log) <= 1 + n
  /\ forall i run, log !! i = Some run ->
       run = ((if (i =? 0)%nat then 0 else retry_delay (1 + Z.of_nat i)), args) /\ forall j, 1 <= j <= Z.of_nat i -> at_ok (world j) = false.
Proof.
  intros Hp Hn Ht Hc. unfold runStep. rewrite Ht, Hp. cbn [max_attempts].
  rewrite wrap64_id by (apply int64b_intro; unfold min_int64, max_int64 in *; lia).
  pose proof (attempts_all (Z.to_nat (1 + n)) 1 world args ltac:(lia) Hc) as H. destruct (attempts_from _ _ _ _) as [log r]. destruct H as (H1 & H2 & H3).
  split_and!; [|lia|].
  - rewrite H1. split; [intros [(k & ? & ?)|[? _]]; [exists k; split; [lia|done]|lia]|]. intros (k & ? & ?). left. exists k. split; [lia|done].
  - intros i run Hi. destruct (H3 i run Hi) as [-> Hj]. split; [|intros j Hj'; apply Hj; lia].
    f_equal. destruct i; [done|]. by destruct (Z.eqb_spec (1 + Z.of_nat (S i)) 1); [lia|].
Qed.

(** The largest number of retries there is makes the number of attempts negative: the step is reported as done and never run. *)
Theorem most_retries_never_run (step : StepConfig) (vars : gmap string string) (world : Z -> attempt) (args : list string) :
  st_OnError step = "retry(9223372036854775807)" -> tokenize (applyVars (st_Command step) vars) = Some args ->
  runStep step vars world = ([], StepOk).
Proof. intros Hp Ht. unfold runStep. by rewrite Ht, Hp. Qed.

(** ** Witnesses *)

Definition demo_steps : list StepConfig :=
  [MkStepConfig "load" "--pipeline load.yaml" ["clean"] ""; MkStepConfig "extract" "--pipeline extract.yaml" [] "retry(2)";
   MkStepConfig "clean" "--pipeline clean.yaml" ["extract"] "skip"; MkStepConfig "report" "--pipeline report.yaml" ["extract"; "extract"] "stop"].
Definition demo_workflow : WorkflowConfig := MkWorkflowConfig "nightly" "" demo_steps.
Definition flaky_world (k : nat) (wave : list string) : list (string * bool) := map (fun id => (id, String.eqb id "clean")) (rev wave).
Definition demo_loop : list StepConfig := [MkStepConfig "a" "x" ["b"] ""; MkStepConfig "b" "x" ["a"] ""; MkStepConfig "c" "x" [] ""].

Lemma flaky_world_valid (k : nat) (wave : list string) : (flaky_world k wave).*1 ≡ₚ wave.
Proof.
  replace ((flaky_world k wave).*1) with (rev wave); [symmetry; apply Permutation_rev|].
  unfold flaky_world. induction (rev wave) as [|x l IH]; [done|]. cbn. by rewrite <- IH at 1.
Qed.
Lemma flaky_world_fails (k : nat) (wave : list string) (id : string) : (id, true) ∈ flaky_world k wave -> id = "clean".
Proof. intros (x & [= <- E] & _)%list_elem_of_In%in_map_iff. by apply String.eqb_eq. Qed.

(** The command of the step [clean] fails, all others succeed; results arrive in reverse. *)
Definition clean_fails (k : nat) (id : string) (n : Z) : attempt := MkAttempt false false (negb (String.eqb id "clean")).

Lemma workflow_runs_in_order_witness :
  let run := Workflow_Run demo_steps (step_world demo_steps ∅ clean_fails (fun _ wave => rev wave)) in
  run.1.1 = [(["extract"], ["extract"]); (["clean"; "report"], ["clean"; "report"]); (["load"], [])]
  /\ run.2 <> RunOutOfFuel.
Proof.
  split; [vm_compute; reflexivity|].
  pose proof (workflow_runs_in_order demo_workflow ∅ clean_fails (fun _ wave => rev wave) eq_refl
    (fun _ wave => symmetry (Permutation_rev wave))) as H.
  change (wf_Steps demo_workflow) with demo_steps in H. cbn zeta in H.
  destruct (Workflow_Run demo_steps _) as [[log final] r]. apply H.
Defined.

Lemma workflow_completes_iff_acyclic_witness :
  (Workflow_Run demo_steps flaky_world).2 = RunOk /\ acyclic demo_steps
  /\ (Workflow_Run demo_loop flaky_world).2 = RunCycle "a" /\ ~ acyclic demo_loop.
Proof.
  assert (H : (Workflow_Run demo_steps flaky_world).2 = RunOk) by (vm_compute; reflexivity).
  assert (Hl : (Workflow_Run demo_loop flaky_world).2 = RunCycle "a") by (vm_compute; reflexivity). split_and!; [done| |done|].
  - apply (workflow_completes_iff_acyclic demo_workflow flaky_world eq_refl flaky_world_valid); [|done]. intros k wave id ->%flaky_world_fails. done.
  - intros [rank Hr]. pose proof (Hr (MkStepConfig "a" "x" ["b"] "") "b" ltac:(by left) ltac:(by left)) as H1.
    pose proof (Hr (MkStepConfig "b" "x" ["a"] "") "a" ltac:(right; by left) ltac:(by left)) as H2. cbn in *. lia.
Defined.

Lemma tokenize_quoted_words_witness : tokenize (Join (map quote_word ["--where"; "a = " +:+ chr DQUOTE]) " ") = Some ["--where"; "a = " +:+ chr DQUOTE].
Proof. apply tokenize_quoted_words. repeat constructor; discriminate. Defined.

Lemma retry_delay_bounds_witness : retry_delay 4 = 8 * 1000000000 /\ retry_delay 64 = 0.
Proof. split; apply retry_delay_bounds; lia. Defined.

Definition demo_step : StepConfig := MkStepConfig "extract" "--pipeline e.yaml" [] "retry(2)".
Definition third_time (k : Z) : attempt := MkAttempt false false (k =? 3).
Lemma demo_step_words : tokenize (applyVars (st_Command demo_step) ∅) = Some ["--pipeline"; "e.yaml"].
Proof. reflexivity. Qed.
Lemma step_retried_witness : (runStep demo_step ∅ third_time).2 = StepOk /\ Z.of_nat (length (runStep demo_step ∅ third_time).1) <= 3.
Proof.
  pose proof (step_retried demo_step ∅ third_time 2 ["--pipeline"; "e.yaml"] eq_refl ltac:(unfold max_int64; lia) demo_step_words (fun _ => conj eq_refl eq_refl)) as H.
  destruct (runStep demo_step ∅ third_time) as [log r]. destruct H as (H1 & H2 & _). split; [|exact H2].
  apply H1. exists 3. split; [lia|done].
Defined.

Lemma most_retries_never_run_witness :
  runStep (MkStepConfig "a" "x" [] "retry(9223372036854775807)") ∅ (fun _ => MkAttempt false false false) = ([], StepOk).
Proof. apply most_retries_never_run with ["x"]; reflexivity. Defined.
