(* ===== verification/Sanitize.v ===== *)
(** * Sanitize: field names as SQL identifiers (src/pkg/sanitize/fieldname.go)

    The symbol table, the passes over a name and the renaming of a schema.  The transliteration table
    of go-unidecode is a parameter.  The theorems: the loop that collapses underscores ends and gives
    what one pass that keeps one of each run gives; a sanitised name is an identifier; sanitising it
    again changes nothing; renaming a schema keeps all but the names. *)

From Stdlib Require Import ZArith Lia Ascii String.
From stdpp Require Import base list strings.
From S2P Require Import Prelude Strconv PacketTypes FieldProcessors.

Open Scope N_scope.

(** The module github.com/mozillazg/go-unidecode: text that is ASCII is left as it is. *)
Class Unidecoder := { Unidecode : string -> string }.
Class UnidecoderLaws (U : Unidecoder) : Prop := Unidecode_ascii : forall s, is_ascii s = true -> Unidecode s = s.

Record Options := MkOptions { op_Clear : bool; op_Translit : bool }.
Record Result := MkResult { sr_SafeName : string; sr_OriginalName : string }.

Definition token_table : list (N * string) :=
  [(37, "_pct_"); (8470, "_no_"); (36, "_usd_"); (63, "_is_"); (38, "_and_"); (35, "_xh_"); (64, "_at_"); (42, "_star_");
   (126, "_not_"); (43, "_plus_"); (61, "_eq_"); (33, "_bang_"); (94, "_hat_"); (60, "_lt_"); (62, "_gt_"); (40, "_"); (41, "_");
   (91, "_"); (93, "_"); (123, "_"); (125, "_"); (32, "_"); (46, "_"); (44, "_"); (45, "_"); (47, "_"); (92, "_"); (96, "_");
   (58, "_"); (124, "_"); (59, "_"); (39, "_"); (34, "_")].
Definition symbolMap (r : N) : option string := snd <$> List.find (fun e => N.eqb (fst e) r) token_table.

Definition safe_rune (r : N) : string :=
  match symbolMap r with
  | Some repl => repl
  | None => if (r <=? 127) && is_word_byte (ascii_of_N r) then chr (ascii_of_N r) else "_"
  end.
Definition clear_name (s : string) : string := String.concat "" (map safe_rune (runes s)).

(** [for strings.Contains(s, "__")]: every round shortens the text, so its length is enough fuel. *)
Fixpoint collapse_fuel (n : nat) (s : string) : string :=
  match n with
  | O => s
  | S n => if Contains s "__" then collapse_fuel n (ReplaceAll s "__" "_") else s
  end.
Definition collapse (s : string) : string := collapse_fuel (String.length s) s.

Definition finish_name (s : string) : string :=
  let s := Trim s "_" in
  let s := match s with String c _ => if is_ascii_digit c then String "_" s else s | "" => s end in
  if String.eqb s "" then "_field" else s.

Section Sanitize.
  Context {U : Unidecoder}.

Definition SanitizeFieldName (name : string) (opts : Options) : Result :=
  if negb (op_Clear opts) && negb (op_Translit opts) then MkResult name name
  else
    let s := if op_Translit opts then Unidecode name else name in
    let s := if op_Clear opts || op_Translit opts then clear_name s else s in
    MkResult (finish_name (collapse s)) name.

(** The fields with the results that changed one, in their order. *)
Definition rename_field (opts : Options) (f : Field) : Field * list Result :=
  let r := SanitizeFieldName (f_Name f) opts in
  if String.eqb (sr_SafeName r) (sr_OriginalName r) then (f, [])
  else (MkField (sr_SafeName r) (f_Type f) (f_Length f) (f_Precision f) (f_Scale f) (f_Key f) (f_Timezone f) (f_Subtype f) (f_ReadOnly f)
          (f_Fixed f) (f_SpecialValues f) (sr_OriginalName r), [r]).
Definition ApplyToSchema (schema : Schema) (opts : Options) : Schema * list Result :=
  if negb (op_Clear opts) && negb (op_Translit opts) then (schema, [])
  else
    let fs := map (rename_field opts) (s_Fields schema) in
    (set_s_Fields (map fst fs) schema, concat (map snd fs)).
End Sanitize.

(** ** The underscores *)

(** One pass that keeps the last of each run of underscores. *)
Fixpoint squeeze (s : string) : string :=
  match s with
  | "" => ""
  | String c s' => if Ascii.eqb c "_" && HasPrefix s' "_" then squeeze s' else String c (squeeze s')
  end.

Lemma HasPrefix_under (c : ascii) (s : string) : HasPrefix (String c s) "_" = Ascii.eqb c "_".
Proof. change "_" with (chr "_"). rewrite HasPrefix_chr. apply Ascii.eqb_sym. Qed.
Lemma strip_under (c : ascii) (s : string) :
  strip_prefix "__" (String c s) = if Ascii.eqb c "_" then strip_prefix "_" s else None.
Proof. cbn [strip_prefix]. by rewrite Ascii.eqb_sym. Qed.

Lemma replace_step (n : nat) (c : ascii) (s : string) :
  replace_fuel (S n) "__" "_" (String c s) =
  match (if Ascii.eqb c "_" then strip_prefix "_" s else None) with
  | Some rest => String "_" (replace_fuel n "__" "_" rest)
  | None => String c (replace_fuel n "__" "_" s)
  end.
Proof. cbn [replace_fuel]. by rewrite strip_under. Qed.
Lemma strip_one (s : string) : strip_prefix "_" s = if HasPrefix s "_" then Some (drop_bytes 1 s) else None.
Proof. destruct s as [|c s]; [done|]. rewrite HasPrefix_under. cbn [strip_prefix drop_bytes]. rewrite Ascii.eqb_sym. by destruct (Ascii.eqb c "_"). Qed.

Lemma contains_under (c : ascii) (s : string) : Contains (String c s) "__" = (Ascii.eqb c "_" && HasPrefix s "_") || Contains s "__".
Proof.
  cbn [Contains]. by rewrite (Ascii.eqb_sym c).
Qed.

Lemma replace_head (n : nat) (s : string) : HasPrefix (replace_fuel n "__" "_" s) "_" = HasPrefix s "_".
Proof.
  destruct n, s as [|c s]; [done..|]. rewrite replace_step, !HasPrefix_under. destruct (Ascii.eqb c "_") eqn:E; [|by rewrite HasPrefix_under].
  destruct (strip_prefix "_" s); by rewrite HasPrefix_under.
Qed.
Lemma squeeze_cons (c : ascii) (s : string) : squeeze (String c s) = if Ascii.eqb c "_" && HasPrefix s "_" then squeeze s else String c (squeeze s).
Proof. reflexivity. Qed.
Lemma squeeze_replace (n : nat) (s : string) : (String.length s <= n)%nat -> squeeze (replace_fuel n "__" "_" s) = squeeze s.
Proof.
  revert s; induction n as [n IH] using lt_wf_ind; intros [|c s] Hn; [by destruct n|]. destruct n as [|n]; [cbn in Hn; lia|]. cbn [String.length] in Hn.
  rewrite replace_step. destruct (Ascii.eqb c "_") eqn:Ec.
  - rewrite strip_one. destruct (HasPrefix s "_") eqn:Es.
    + destruct s as [|d s]; [done|]. cbn [drop_bytes String.length] in *. rewrite squeeze_cons, replace_head.
      rewrite (IH n) by lia. rewrite (squeeze_cons c), Ec, Es. rewrite HasPrefix_under in Es. apply Ascii.eqb_eq in Es as ->. by rewrite squeeze_cons.
    + by rewrite !squeeze_cons, replace_head, Es, (IH n) by lia.
  - by rewrite !squeeze_cons, Ec, (IH n) by lia.
Qed.
(** A round never lengthens the text, and shortens it if there is something to replace. *)
Lemma replace_length (n : nat) (s : string) :
  (String.length (replace_fuel n "__" "_" s) <= String.length s)%nat
  /\ ((String.length s <= n)%nat -> Contains s "__" = true -> (String.length (replace_fuel n "__" "_" s) < String.length s)%nat).
Proof.
  revert s; induction n as [n IH] using lt_wf_ind; intros [|c s]; [by destruct n|].
  destruct n as [|n]; [cbn [String.length]; split; [done|lia]|]. rewrite replace_step. cbn [String.length].
  destruct (Ascii.eqb c "_") eqn:Ec; [rewrite strip_one; destruct (HasPrefix s "_") eqn:Es|].
  - destruct s as [|d s]; [done|]. cbn [drop_bytes String.length]. destruct (IH n ltac:(lia) s) as [H _]. lia.
  - destruct (IH n ltac:(lia) s) as [H1 H2]. cbn [String.length]. split; [lia|]. intros Hn Hc. enough (Contains s "__" = true) by (specialize (H2 ltac:(lia) ltac:(done)); lia).
    by rewrite contains_under, Ec, Es in Hc.
  - destruct (IH n ltac:(lia) s) as [H1 H2]. cbn [String.length]. split; [lia|]. intros Hn Hc. rewrite contains_under, Ec in Hc. specialize (H2 ltac:(lia) Hc). lia.
Qed.
Lemma squeeze_id (s : string) : Contains s "__" = false -> squeeze s = s.
Proof.
  induction s as [|c s IH]; [done|]. rewrite contains_under, squeeze_cons. intros [-> Hc]%orb_false_iff. by rewrite IH.
Qed.
Lemma squeeze_clean (s : string) : Contains (squeeze s) "__" = false.
Proof.
  assert (Hh : forall t, HasPrefix (squeeze t) "_" = HasPrefix t "_").
  { induction t as [|c t IH]; [done|]. rewrite squeeze_cons, HasPrefix_under. destruct (Ascii.eqb c "_") eqn:Ec; cbn [andb].
    - destruct (HasPrefix t "_") eqn:Et; [by rewrite IH|by rewrite HasPrefix_under].
    - by rewrite HasPrefix_under. }
  induction s as [|c s IH]; [done|]. rewrite squeeze_cons. destruct (Ascii.eqb c "_" && HasPrefix s "_") eqn:E; [done|].
  rewrite contains_under, Hh, E. done.
Qed.

(** Replacing two underscores by one until there are no two is one pass that keeps one of each run; it ends within as many rounds as
    the text has bytes. *)
Theorem collapse_correct (s : string) : collapse s = squeeze s /\ Contains (collapse s) "__" = false.
Proof.
  enough (forall n t, (String.length t <= n)%nat -> collapse_fuel n t = squeeze t) as H.
  { unfold collapse. rewrite H by done. split; [done|]. apply squeeze_clean. }
  induction n as [|n IH]; intros t Hn; [by destruct t; [|cbn in Hn; lia]|]. cbn [collapse_fuel]. destruct (Contains t "__") eqn:E; [|by rewrite squeeze_id].
  unfold ReplaceAll. rewrite IH; [by apply squeeze_replace|]. pose proof (proj2 (replace_length (String.length t) t) ltac:(done) E). lia.
Qed.

(** ** The identifier *)

Lemma Contains_inv (s p : string) : Contains s p = true -> exists x y, s = x +:+ p +:+ y.
Proof.
  induction s as [|c s IH]; cbn [Contains]; intros [H|H]%orb_true_iff.
  - apply HasPrefix_inv in H as [r ->]. by exists "", r.
  - done.
  - apply HasPrefix_inv in H as [r ->]. by exists "", r.
  - apply IH in H as (x & y & ->). by exists (String c x), y.
Qed.
Lemma Contains_mid (a t b p : string) : Contains (a +:+ t +:+ b) p = false -> Contains t p = false.
Proof.
  intros H. destruct (Contains t p) eqn:E; [|done]. apply Contains_inv in E as (x & y & ->). rewrite <- H.
  rewrite !str_app_assoc, <- str_app_assoc. symmetry. apply Contains_app.
Qed.

Lemma drop_spec (s : string) : HasPrefix (drop_while_byte "_" s) "_" = false /\ exists a, s = a +:+ drop_while_byte "_" s.
Proof.
  induction s as [|c s [IH1 [a IH2]]]; [split; [done|by exists ""]|]. cbn [drop_while_byte]. destruct (Ascii.eqb c "_") eqn:E.
  - split; [done|]. exists (String c a). by rewrite IH2 at 1.
  - split; [by rewrite HasPrefix_under|by exists ""].
Qed.
Lemma drop_id (s : string) : HasPrefix s "_" = false -> drop_while_byte "_" s = s.
Proof. destruct s as [|c s]; [done|]. rewrite HasPrefix_under. cbn [drop_while_byte]. by intros ->. Qed.

(** A text without an underscore at its ends. *)
Definition bare (s : string) : bool := negb (HasPrefix s "_") && negb (HasPrefix (str_rev s) "_").
Lemma trim_spec (s : string) : bare (Trim s "_") = true /\ exists a b, s = a +:+ Trim s "_" +:+ b.
Proof.
  unfold Trim, TrimRight. destruct (drop_spec s) as [H1 [a Ha]]. set (d := drop_while_byte "_" s) in *.
  destruct (drop_spec (str_rev d)) as [H2 [b Hb]]. set (e := drop_while_byte "_" (str_rev d)) in *.
  assert (Hd : d = str_rev e +:+ str_rev b) by (by rewrite <- (str_rev_involutive d), Hb, str_rev_app).
  split; [|exists a, (str_rev b); by rewrite <- Hd].
  unfold bare. rewrite str_rev_involutive, H2, andb_true_r. rewrite Hd in H1. destruct (str_rev e) as [|c r]; [done|].
  change (String c r +:+ str_rev b) with (String c (r +:+ str_rev b)) in H1. rewrite HasPrefix_under in H1. by rewrite HasPrefix_under, H1.
Qed.
Lemma trim_bare (s : string) : bare s = true -> Trim s "_" = s.
Proof.
  unfold bare, Trim, TrimRight. intros [H1%negb_true_iff H2%negb_true_iff]%andb_true_iff. by rewrite (drop_id s H1), (drop_id _ H2), str_rev_involutive.
Qed.

(** A name an SQL dialect takes without quotes. *)
Definition identifier (s : string) : bool :=
  all_bytes is_word_byte s && match s with String c _ => negb (is_ascii_digit c) | "" => false end.

Lemma token_words (r : N) (t : string) : symbolMap r = Some t -> all_bytes is_word_byte t = true.
Proof.
  unfold symbolMap. destruct (List.find _ _) as [e|] eqn:E; [|done]. intros [= <-]. apply List.find_some in E as [Hin _].
  assert (forallb (fun e => all_bytes is_word_byte (snd e)) token_table = true) as H by reflexivity. rewrite forallb_forall in H. by apply H.
Qed.
Lemma clear_words (s : string) : all_bytes is_word_byte (clear_name s) = true.
Proof.
  unfold clear_name. induction (runes s) as [|r l IH]; [done|]. cbn [map].
  assert (Hr : all_bytes is_word_byte (safe_rune r) = true).
  { unfold safe_rune. destruct (symbolMap r) as [t|] eqn:E; [by eapply token_words|]. destruct (_ && _) eqn:Ew; [|done].
    apply andb_true_iff in Ew as [_ Ew]. cbn [all_bytes chr]. by rewrite Ew. }
  destruct l as [|r' l]; [done|]. change (String.concat "" (safe_rune r :: map safe_rune (r' :: l))) with (safe_rune r +:+ "" +:+ String.concat "" (map safe_rune (r' :: l))).
  rewrite !all_bytes_app, Hr. exact IH.
Qed.
Lemma squeeze_words (P : ascii -> bool) (s : string) : all_bytes P s = true -> all_bytes P (squeeze s) = true.
Proof.
  induction s as [|c s IH]; [done|]. rewrite squeeze_cons. cbn [all_bytes]. intros [H1 H2]%andb_true_iff. destruct (_ && HasPrefix s "_"); [by apply IH|].
  cbn [all_bytes]. by rewrite H1, IH.
Qed.
Lemma finish_identifier (s : string) :
  all_bytes is_word_byte s = true -> Contains s "__" = false -> identifier (finish_name s) = true /\ Contains (finish_name s) "__" = false.
Proof.
  intros Hw Hc. unfold finish_name. destruct (trim_spec s) as [Hb (a & b & E)]. set (t := Trim s "_") in *. rewrite E in Hw, Hc.
  apply Contains_mid in Hc. rewrite !all_bytes_app in Hw. apply andb_true_iff in Hw as [_ [Hw _]%andb_true_iff].
  destruct t as [|c t]; [done|]. destruct (is_ascii_digit c) eqn:Ed; cbn [String.eqb].
  - split; [unfold identifier; change (all_bytes is_word_byte (String "_" (String c t))) with (all_bytes is_word_byte (String c t)); by rewrite Hw|]. rewrite contains_under, Hc, HasPrefix_under.
    destruct (Ascii.eqb_spec c "_") as [->|]; [done|by rewrite andb_false_r].
  - split; [unfold identifier; by rewrite Hw, Ed|done].
Qed.

Lemma word_ascii (s : string) : all_bytes is_word_byte s = true -> is_ascii s = true.
Proof.
  unfold is_ascii. induction s as [|c s IH]; [done|]. cbn [all_bytes]. intros [Hc Hs]%andb_true_iff. rewrite IH by done.
  destruct c as [[] [] [] [] [] [] [] []]; done.
Qed.
Lemma clear_id (s : string) : all_bytes is_word_byte s = true -> clear_name s = s.
Proof.
  intros Hw. unfold clear_name. rewrite runes_ascii by (by apply word_ascii).
  assert (Hone : forall c, is_word_byte c = true -> safe_rune (byte_val c) = chr c) by (intros [[] [] [] [] [] [] [] []]; cbn; done).
  induction s as [|c s IH]; [done|]. cbn [all_bytes] in Hw. apply andb_true_iff in Hw as [Hc Hs]. cbn [list_ascii_of_string map]. rewrite Hone by done.
  specialize (IH Hs). destruct s as [|d s]; [done|]. cbn [list_ascii_of_string map] in *.
  change (String.concat "" (chr c :: safe_rune (byte_val d) :: map safe_rune (map byte_val (list_ascii_of_string s))))
    with (String c (String.concat "" (safe_rune (byte_val d) :: map safe_rune (map byte_val (list_ascii_of_string s))))). by rewrite IH.
Qed.
Lemma finish_idem (s : string) :
  all_bytes is_word_byte s = true -> Contains s "__" = false -> finish_name s <> "_field" -> finish_name (finish_name s) = finish_name s.
Proof.
  intros Hw Hc. unfold finish_name at 1 3 4. destruct (trim_spec s) as [Hb _]. set (t := Trim s "_") in *. destruct t as [|c t]; [done|].
  destruct (is_ascii_digit c) eqn:Ed; cbn [String.eqb]; intros _; unfold finish_name.
  - assert (Ht : Trim (String "_" (String c t)) "_" = String c t).
    { unfold Trim. change (drop_while_byte "_" (String "_" (String c t))) with (drop_while_byte "_" (String c t)). by apply trim_bare. }
    rewrite Ht, Ed. done.
  - rewrite trim_bare by done. by rewrite Ed.
Qed.

(** A name that is sanitised is an identifier: letters, digits and underscores, no digit first, never empty, no two underscores
    together; sanitising it again gives the same unless nothing was left of it; and a name with no underscore at its ends that was
    such an identifier is not changed. *)
Theorem sanitize_gives_identifier {U : Unidecoder} {L : UnidecoderLaws U} (name : string) (opts : Options) :
  op_Clear opts = true \/ op_Translit opts = true ->
  let safe := sr_SafeName (SanitizeFieldName name opts) in
  identifier safe = true /\ Contains safe "__" = false
  /\ (safe <> "_field" -> sr_SafeName (SanitizeFieldName safe opts) = safe)
  /\ (identifier name = true -> Contains name "__" = false -> bare name = true -> safe = name).
Proof.
  intros Ho. cbn zeta.
  assert (Hrun : forall n, sr_SafeName (SanitizeFieldName n opts) = finish_name (squeeze (clear_name (if op_Translit opts then Unidecode n else n)))).
  { intros n. unfold SanitizeFieldName. destruct opts as [[] []]; cbn [op_Clear op_Translit negb andb orb sr_SafeName]; rewrite ?(proj1 (collapse_correct _)); try done.
    by destruct Ho. }
  assert (Hword : forall n, all_bytes is_word_byte n = true -> clear_name (if op_Translit opts then Unidecode n else n) = n).
  { intros n Hn. destruct (op_Translit opts); [|by apply clear_id]. rewrite L by (by apply word_ascii). by apply clear_id. }
  rewrite !Hrun. set (m := squeeze (clear_name (if op_Translit opts then Unidecode name else name))).
  assert (Hm : all_bytes is_word_byte m = true /\ Contains m "__" = false) by (split; [apply squeeze_words, clear_words|apply squeeze_clean]).
  destruct Hm as [Hm1 Hm2]. destruct (finish_identifier m Hm1 Hm2) as [Hi Hc]. pose proof Hi as Hi'. unfold identifier in Hi'.
  apply andb_true_iff in Hi' as [Hw _]. split_and!; [done|done| |].
  - intros Hf. rewrite Hword, squeeze_id by done. by apply finish_idem.
  - unfold identifier. intros [Hn Hd]%andb_true_iff Hcn Hbn. unfold m. rewrite Hword, squeeze_id by done. unfold finish_name. rewrite trim_bare by done.
    destruct name as [|c name]; [done|]. apply negb_true_iff in Hd. by rewrite Hd.
Qed.

(** An underscore a name begins with is lost, and different names become one. *)
Theorem sanitize_merges_names :
  let U := {| Unidecode := fun s => s |} in
  let clear := MkOptions true false in
  sr_SafeName (SanitizeFieldName "_id" clear) = "id"
  /\ map (fun f => f_Name f) (s_Fields (ApplyToSchema (set_s_Fields (map (fun n => MkField n "TEXT" 0 0 0 false "" "" false false None "") ["unit-price"; "unit.price"; "unit_price"]) zero_Schema) clear).1)
     = ["unit_price"; "unit_price"; "unit_price"].
Proof. done. Qed.

(** Renaming leaves the number and the order of the fields and all but their names: each field has the sanitised name and keeps in
    [OriginalName] the name it had if that is another; the results are those of the fields that were changed. *)
Theorem apply_to_schema_correct {U : Unidecoder} (schema : Schema) (opts : Options) :
  op_Clear opts = true \/ op_Translit opts = true ->
  let '(schema', changed) := ApplyToSchema schema opts in
  map f_Name (s_Fields schema') = map (fun f => sr_SafeName (SanitizeFieldName (f_Name f) opts)) (s_Fields schema)
  /\ map (fun f => (f_Type f, f_Length f, f_Key f, f_SpecialValues f)) (s_Fields schema') = map (fun f => (f_Type f, f_Length f, f_Key f, f_SpecialValues f)) (s_Fields schema)
  /\ (forall i f f', s_Fields schema !! i = Some f -> s_Fields schema' !! i = Some f' -> f_OriginalName f' = if String.eqb (f_Name f') (f_Name f) then f_OriginalName f else f_Name f)
  /\ changed = map (fun f => SanitizeFieldName (f_Name f) opts) (List.filter (fun f => negb (String.eqb (sr_SafeName (SanitizeFieldName (f_Name f) opts)) (f_Name f))) (s_Fields schema)).
Proof.
  intros Ho. unfold ApplyToSchema. replace (negb (op_Clear opts) && negb (op_Translit opts)) with false by (destruct opts as [[] []]; try done; by destruct Ho).
  assert (Horig : forall n, sr_OriginalName (SanitizeFieldName n opts) = n) by (intros n; unfold SanitizeFieldName; by destruct (negb _ && negb _)).
  cbn [s_Fields set_s_Fields]. rewrite (map_map (rename_field opts) fst), (map_map (rename_field opts) snd). split_and!.
  - rewrite map_map. apply map_ext. intros f. unfold rename_field. rewrite Horig. destruct (String.eqb_spec (sr_SafeName (SanitizeFieldName (f_Name f) opts)) (f_Name f)); done.
  - rewrite map_map. apply map_ext. intros f. unfold rename_field. by destruct (String.eqb _ _).
  - intros i f f' Hi. rewrite list_lookup_fmap, Hi. intros [= <-]. unfold rename_field. rewrite Horig.
    destruct (String.eqb (sr_SafeName (SanitizeFieldName (f_Name f) opts)) (f_Name f)) eqn:E; cbn [fst f_Name f_OriginalName]; [by rewrite String.eqb_refl|by rewrite E].
  - induction (s_Fields schema) as [|f l IH]; [done|]. cbn [map concat List.filter]. rewrite IH. unfold rename_field at 1. rewrite Horig.
    by destruct (String.eqb _ _).
Qed.

(** ** Witnesses *)

Definition plain_unidecode : Unidecoder := {| Unidecode := fun s => s |}.
Lemma plain_unidecode_laws : UnidecoderLaws plain_unidecode.
Proof. intros s _. done. Qed.

Lemma sanitize_gives_identifier_witness :
  sr_SafeName (@SanitizeFieldName plain_unidecode "2024 price (%)" (MkOptions true false)) = "_2024_price_pct"
  /\ identifier (sr_SafeName (@SanitizeFieldName plain_unidecode "2024 price (%)" (MkOptions true false))) = true.
Proof.
  split; [vm_compute; reflexivity|].
  exact (proj1 (@sanitize_gives_identifier plain_unidecode plain_unidecode_laws "2024 price (%)" (MkOptions true false) (or_introl eq_refl))).
Defined.

Definition demo_price : Schema := set_s_Fields [MkField "net price" "REAL" 0 10 2 false "" "" false false None ""] zero_Schema.
Lemma apply_to_schema_correct_witness :
  map f_Name (s_Fields (@ApplyToSchema plain_unidecode demo_price (MkOptions true false)).1) = ["net_price"].
Proof.
  pose proof (@apply_to_schema_correct plain_unidecode demo_price (MkOptions true false) (or_introl eq_refl)) as H.
  destruct (@ApplyToSchema plain_unidecode demo_price (MkOptions true false)) as [s' c]. exact (proj1 H).
Defined.
