(* ===== verification/Mapping.v ===== *)
(** * Mapping: a packet written into another system's tables (src/pkg/core/mapping, cmd/tdtpcli/commands/map.go)

    The mapping file and its checks (types.go, parser.go), the packet built for a target and the run over the
    targets (executor.go), the log that keeps a mapping from running twice (loopguard.go), and the command's
    one-shot and listening modes (map.go).  The database that imports a packet, the JSON of the log, the
    duration parser's result and the broker are parameters. *)

From Stdlib Require Import ZArith Lia Ascii String.
From stdpp Require Import base gmap list strings.
From S2P Require Import Prelude Strconv Encodings PacketTypes RowCodec PacketOps Compression Compact PacketParser Encryption Wire.

Open Scope Z_scope.

(** ** types.go and parser.go *)

Record FieldMapping := MkFieldMapping { fm_From : string; fm_To : string; fm_Enum : gmap string string }.
Record Target := MkTarget { tg_ID : string; tg_Table : string; tg_UpsertKey : string; tg_Fields : list FieldMapping }.
Record ConnConfig := MkConnConfig { cn_Type : string; cn_DSN : string; cn_Schema : string }.
Record LoopGuard := MkLoopGuard { lg_SourceSystem : string; lg_TargetSystem : string; lg_MinInterval : string }.
Record MappingConfig := MkMappingConfig { mc_ID : string; mc_LoopGuard : LoopGuard; mc_TargetConn : ConnConfig; mc_Targets : list Target }.

Inductive mapping_error :=
| NoMappingID | NoConnection | NoTargets | NoTable (i : nat) | NoUpsertKey (i : nat) | NoFields (i : nat)
| SourceFieldMissing (target from : string) | ConnectFailed | ImportFailed (schema table : string).

Fixpoint validate_targets (i : nat) (ts : list Target) : result mapping_error unit :=
  match ts with
  | [] => Ok ()
  | t :: ts =>
      fail_if String.eqb (tg_Table t) "" with NoTable i ;;
      fail_if String.eqb (tg_UpsertKey t) "" with NoUpsertKey i ;;
      fail_if (length (tg_Fields t) =? 0)%nat with NoFields i ;;
      validate_targets (S i) ts
  end.
Definition validate_mapping (cfg : MappingConfig) : result mapping_error unit :=
  fail_if String.eqb (mc_ID cfg) "" with NoMappingID ;;
  fail_if String.eqb (cn_Type (mc_TargetConn cfg)) "" || String.eqb (cn_DSN (mc_TargetConn cfg)) "" with NoConnection ;;
  fail_if (length (mc_Targets cfg) =? 0)%nat with NoTargets ;;
  validate_targets 0 (mc_Targets cfg).

(** ** executor.go *)

Definition splitSchemaTable (table defaultSchema : string) : string * string :=
  match span_bytes (fun c => negb (Ascii.eqb c ".")) table with
  | (String c schema, String _ name) => (String c schema, name)
  | _ => (if String.eqb defaultSchema "" then "public" else defaultSchema, table)
  end.

Section Executor.
  Context {C : GoCase}.

(** [srcIndex]: the last field of a name wins. *)
Definition srcIndex (srcFields : list Field) : gmap string nat :=
  list_to_map (rev (imap (fun i f => (ToLower (f_Name f), i)) srcFields)).

Definition target_field (upsertKey : string) (fm : FieldMapping) (src : Field) : Field :=
  if (0 <? size (fm_Enum fm))%nat
  then MkField (fm_To fm) "TEXT" 0 0 0 (EqualFold (fm_To fm) upsertKey) "" "" false false None ""
  else MkField (fm_To fm) (f_Type src) (f_Length src) 0 0 (EqualFold (fm_To fm) upsertKey) "" (f_Subtype src) false false (f_SpecialValues src) "".
Fixpoint target_fields (idx : gmap string nat) (srcFields : list Field) (t : Target) (fms : list FieldMapping) : result mapping_error (list Field) :=
  match fms with
  | [] => Ok []
  | fm :: fms =>
      match idx !! ToLower (fm_From fm) with
      | None => Err (SourceFieldMissing (tg_Table t) (fm_From fm))
      | Some i =>
          fs ← target_fields idx srcFields t fms;
          Ok (match srcFields !! i with Some src => target_field (tg_UpsertKey t) fm src :: fs | None => fs end)
      end
  end.
Definition map_value (fm : FieldMapping) (val : string) : string :=
  if (0 <? size (fm_Enum fm))%nat then default val (fm_Enum fm !! val) else val.
Definition map_row (idx : gmap string nat) (fms : list FieldMapping) (srcRow : list string) : list string :=
  map (fun fm => map_value fm (default "" (srcRow !! default 0%nat (idx !! ToLower (fm_From fm))))) fms.

Definition buildTargetPacket (uuid : string) (now : Z) (t : Target) (tableName : string) (rows : list (list string)) (srcFields : list Field)
    : result mapping_error DataPacket :=
  let idx := srcIndex srcFields in
  fields ← target_fields idx srcFields t (tg_Fields t);
  let pkt := NewDataPacket uuid now TypeReference tableName in
  Ok (SetRows (map (map_row idx (tg_Fields t)) rows) (set_p_Schema (MkSchema fields None "" "" "") pkt)).

(** What an adapter is opened for and asked to import; the answers of [adapters.New] and [ImportPacket]. *)
Record Import := MkImport { im_schema : string; im_packet : DataPacket }.
Record Database := MkDatabase { db_opens : string -> bool; db_imports : Import -> bool }.

(** The imports that were done, in order, and the result. *)
Fixpoint execute_targets (db : Database) (uuid : string) (now : Z) (cfg : MappingConfig) (rows : list (list string)) (srcFields : list Field)
    (dryRun : bool) (ts : list Target) : list Import * result mapping_error unit :=
  match ts with
  | [] => ([], Ok ())
  | t :: ts =>
      let '(schemaName, tableName) := splitSchemaTable (tg_Table t) (cn_Schema (mc_TargetConn cfg)) in
      match buildTargetPacket uuid now t tableName rows srcFields with
      | Err e => ([], Err e)
      | Ok mapped =>
          if dryRun then execute_targets db uuid now cfg rows srcFields dryRun ts
          else if negb (db_opens db schemaName) then ([], Err ConnectFailed)
          else
            let im := MkImport schemaName mapped in
            if negb (db_imports db im) then ([], Err (ImportFailed schemaName tableName))
            else let '(done, r) := execute_targets db uuid now cfg rows srcFields dryRun ts in (im :: done, r)
      end
  end.
Definition Mapping_Execute (db : Database) (uuid : string) (now : Z) (cfg : MappingConfig) (pkt : DataPacket) (dryRun : bool)
    : list Import * result mapping_error unit :=
  execute_targets db uuid now cfg (GetRows pkt) (s_Fields (p_Schema pkt)) dryRun (mc_Targets cfg).
End Executor.

(** ** loopguard.go *)

Record logEntry := MkLogEntry {
  le_ID : string; le_MappingID : string; le_SourceSystem : string; le_TargetSystem : string; le_StartedAt : Z; le_Status : string;
}.

(** [encoding/json] on the log and [time.ParseDuration] in nanoseconds. *)
Class GuardEnv := {
  log_marshal : list logEntry -> string;
  log_unmarshal : string -> option (list logEntry);
  ParseDuration : string -> option Z;
}.
(** Texts of valid UTF-8 come back from JSON as they were, and what is read is valid UTF-8. *)
Definition plain_entry (e : logEntry) : Prop :=
  Forall (fun t => utf8_text t = true) [le_ID e; le_MappingID e; le_SourceSystem e; le_TargetSystem e; le_Status e].
Class GuardEnvLaws (G : GuardEnv) : Prop := {
  log_roundtrip es : Forall plain_entry es -> log_unmarshal (log_marshal es) = Some es;
  log_read data es : log_unmarshal data = Some es -> Forall plain_entry es;
}.

Inductive guard_error := BadMinInterval | NoLogPath | LogUnreadable | AlreadyRunning (id : string) | TooSoon (id : string) | LogNotWritten.

(** What the file system answers: whether the directory can be made, the file read, and what a failed write leaves behind. *)
Record guard_io := MkGuardIo { gi_path : bool; gi_read : bool; gi_write : option (option string) }.
Definition good_io : guard_io := MkGuardIo true true None.

Section Guard.
  Context {G : GuardEnv}.

Definition readLog (io : guard_io) (file : option string) : option (list logEntry) :=
  match file with
  | None => Some []
  | Some data => if gi_read io then Some (default [] (log_unmarshal data)) else None
  end.
Definition writeLog (io : guard_io) (entries : list logEntry) : option string * bool :=
  match gi_write io with None => (Some (log_marshal entries), true) | Some rest => (rest, false) end.
Definition parseMinInterval (s : string) : option Z := if String.eqb s "" then Some 0 else ParseDuration s.

Definition same_mapping (cfg : MappingConfig) (e : logEntry) : bool :=
  String.eqb (le_SourceSystem e) (lg_SourceSystem (mc_LoopGuard cfg)) && String.eqb (le_TargetSystem e) (lg_TargetSystem (mc_LoopGuard cfg))
  && String.eqb (le_MappingID e) (mc_ID cfg).
(** The entry that blocks the run, if one does. *)
Definition entry_blocks (cfg : MappingConfig) (minInterval now : Z) (e : logEntry) : option guard_error :=
  if negb (same_mapping cfg e) then None
  else if String.eqb (le_Status e) "running" then Some (AlreadyRunning (le_ID e))
  else if (0 <? minInterval) && String.eqb (le_Status e) "completed" && (now - le_StartedAt e <? minInterval) then Some (TooSoon (le_ID e))
  else None.
Fixpoint guard_blocks (cfg : MappingConfig) (minInterval now : Z) (entries : list logEntry) : option guard_error :=
  match entries with
  | [] => None
  | e :: entries => match entry_blocks cfg minInterval now e with Some err => Some err | None => guard_blocks cfg minInterval now entries end
  end.
Definition guarded_pair (cfg : MappingConfig) : bool :=
  negb (String.eqb (lg_SourceSystem (mc_LoopGuard cfg)) "") && negb (String.eqb (lg_TargetSystem (mc_LoopGuard cfg)) "").
Definition new_entry (cfg : MappingConfig) (now : Z) (id : string) : logEntry :=
  MkLogEntry id (mc_ID cfg) (lg_SourceSystem (mc_LoopGuard cfg)) (lg_TargetSystem (mc_LoopGuard cfg)) now "running".
Definition keep_recent (entries : list logEntry) : list logEntry := drop (length entries - 100) entries.

(** The decision on the entries that were read, and the entries to write. *)
Definition guard_decide (cfg : MappingConfig) (minInterval now : Z) (id : string) (entries : list logEntry) : result guard_error (list logEntry) :=
  match (if guarded_pair cfg then guard_blocks cfg minInterval now entries else None) with
  | Some e => Err e
  | None => Ok (keep_recent (entries ++ [new_entry cfg now id]))
  end.
(** Up to the writing of the log. *)
Definition check_log (io : guard_io) (cfg : MappingConfig) (now : Z) (id : string) (file : option string) : result guard_error (list logEntry) :=
  match parseMinInterval (lg_MinInterval (mc_LoopGuard cfg)) with
  | None => Err BadMinInterval
  | Some minInterval =>
      fail_if negb (gi_path io) with NoLogPath ;;
      match readLog io file with
      | None => Err LogUnreadable
      | Some entries => guard_decide cfg minInterval now id entries
      end
  end.
(** The whole function, in a command that no other one disturbs: [logMu] is a lock of the process, and every command is one.  For commands
    that run beside each other see [log_step] below. *)
Definition CheckAndRecord (io : guard_io) (cfg : MappingConfig) (now : Z) (id : string) (file : option string)
    : option string * result guard_error string :=
  match check_log io cfg now id file with
  | Err e => (file, Err e)
  | Ok entries => let '(file', ok) := writeLog io entries in (file', if ok then Ok id else Err LogNotWritten)
  end.

Fixpoint set_entry_status (id status : string) (entries : list logEntry) : list logEntry :=
  match entries with
  | [] => []
  | e :: entries =>
      if String.eqb (le_ID e) id then MkLogEntry (le_ID e) (le_MappingID e) (le_SourceSystem e) (le_TargetSystem e) (le_StartedAt e) status :: entries
      else e :: set_entry_status id status entries
  end.
(** The function [CheckAndRecord] returns: the entries it writes, and the whole of it. *)
Definition done_entries (io : guard_io) (id : string) (success : bool) (file : option string) : list logEntry :=
  set_entry_status id (if success then "completed" else "failed") (default [] (readLog io file)).
Definition mark_done (io : guard_io) (id : string) (success : bool) (file : option string) : option string :=
  (writeLog io (done_entries io id success file)).1.

(** *** Commands beside each other

    Each process reads the log and writes it later; in between others may have read and written.  [pending] holds what the processes
    will write. *)
Inductive access := Starting (cfg : MappingConfig) (now : Z) (id : string) | Ending (id : string) (success : bool).
Inductive log_step := Reads (process : nat) (a : access) | Writes (process : nat).
Definition to_write (a : access) (file : option string) : option (list logEntry) :=
  match a with
  | Starting cfg now id => match check_log good_io cfg now id file with Ok entries => Some entries | Err _ => None end
  | Ending id success => Some (done_entries good_io id success file)
  end.
Definition log_step_run (st : option string * gmap nat (list logEntry)) (s : log_step) : option string * gmap nat (list logEntry) :=
  let '(file, pending) := st in
  match s with
  | Reads p a => (file, match to_write a file with Some entries => <[p := entries]> pending | None => delete p pending end)
  | Writes p => match pending !! p with Some entries => ((writeLog good_io entries).1, delete p pending) | None => (file, pending) end
  end.
Definition log_steps (st : option string * gmap nat (list logEntry)) (steps : list log_step) := fold_left log_step_run steps st.
End Guard.

(** ** map.go *)

Section MapCommand.
  Context {C : GoCase} {GE : GuardEnv} {G : Gcm} {X : SectionXml} {K : Codec} {XmlError : Type}.
  Context (unmarshal_packet : string -> result XmlError DataPacket).

(** What the listening loop does to a message, and [loadPacket] to what it has read: decrypt, parse, decompress, expand. *)
Inductive read_error := RWire (e : wire_error XmlError) | RCodec (e : codec_error) | RCompact (e : CompactTailError).
Definition wired {A} (r : result (wire_error XmlError) A) : result read_error A := match r with Ok a => Ok a | Err e => Err (RWire e) end.
Definition read_message (retrieve : string -> option string) (mercuryURL data : string) : result read_error DataPacket :=
  data ← wired (decryptLegacyBlobIfNeeded retrieve data mercuryURL);
  pkt ← wired (parse (ParseBytes unmarshal_packet data));
  pkt ← wired (decryptV15PacketIfNeeded retrieve pkt mercuryURL);
  pkt ← match decompressPacketData pkt with Ok q => Ok q | Err e => Err (RCodec e) end;
  match ExpandCompactRows pkt with Ok q => Ok q | Err e => Err (RCompact e) end.

Inductive map_error := MapGuard (e : guard_error) | MapLoad | MapExecute (e : mapping_error).

(** [RunMap] without [--listen]: the log file after it, the imports and the result.  [loaded] is what [loadPacket] gives. *)
Definition RunMap (io io' : guard_io) (db : Database) (cfg : MappingConfig) (now : Z) (id uuid : string) (loaded : option DataPacket) (dryRun : bool)
    (file : option string) : option string * list Import * result map_error unit :=
  let run :=
    match loaded with
    | None => ([], Err MapLoad)
    | Some pkt => let '(ims, r) := Mapping_Execute db uuid now cfg pkt dryRun in (ims, match r with Ok _ => Ok () | Err e => Err (MapExecute e) end)
    end in
  if dryRun then (file, run.1, run.2)
  else
    match CheckAndRecord io cfg now id file with
    | (file', Err e) => (file', [], Err (MapGuard e))
    | (file', Ok id) => (mark_done io' id (is_ok run.2) file', run.1, run.2)
    end.

(** One message of the listening loop: its imports and whether it is acknowledged ([AckLast], [CommitLast]) or not ([NackLast(true)]). *)
Definition listen_message (retrieve : string -> option string) (mercuryURL : string) (db : Database) (cfg : MappingConfig) (now : Z) (uuid data : string)
    (dryRun : bool) : list Import * bool :=
  match read_message retrieve mercuryURL data with
  | Err _ => ([], false)
  | Ok pkt => let '(ims, r) := Mapping_Execute db uuid now cfg pkt dryRun in (ims, is_ok r)
  end.
End MapCommand.

(** [reconnectBroker]: the pause before each attempt, in seconds, after [k] attempts have failed. *)
Fixpoint reconnect_delay (k : nat) : Z :=
  match k with O => 2 | S k => let d := reconnect_delay k in if d <? 30 then d * 2 else d end.

(** The loop over a queue: [process k m] is what the [k]-th delivery does. *)
Section Queues.
  Context (process : nat -> string -> list Import * bool).

(** A broker with [AckLast] and [NackLast] (RabbitMQ); [requeue] is where it puts a message that is returned.  The messages that were
    acknowledged, each with the imports of that delivery, and the queue that is left after [n] deliveries. *)
Context (requeue : string -> list string -> list string).
Fixpoint rabbit_loop (n k : nat) (queue : list string) : list (string * list Import) * list string :=
  match n, queue with
  | S n, m :: queue =>
      let '(ims, ok) := process k m in
      if ok then let '(acked, rest) := rabbit_loop n (S k) queue in ((m, ims) :: acked, rest)
      else rabbit_loop n (S k) (requeue m queue)
  | _, _ => ([], queue)
  end.

(** A broker with [CommitLast] alone (Kafka): a delivery that fails leaves the offset; [offset] is what is committed, [at_] what is
    read next.  The offset after the messages are read, and those that were processed. *)
Fixpoint kafka_loop (k at_ : nat) (offset : nat) (messages : list string) : nat * list string :=
  match messages with
  | [] => (offset, [])
  | m :: messages =>
      let '(ims, ok) := process k m in
      let '(offset', done) := kafka_loop (S k) (S at_) (if ok then S at_ else offset) messages in
      (offset', if ok then m :: done else done)
  end.
End Queues.

(** ** The packet for a target *)

Section ExecutorFacts.
  Context {C : GoCase}.

Lemma target_fields_spec (idx : gmap string nat) (srcFields : list Field) (t : Target) (fms : list FieldMapping) :
  (forall s i, idx !! s = Some i -> (i < length srcFields)%nat) ->
  match target_fields idx srcFields t fms with
  | Ok fs => Forall2 (fun fm f => exists i src, idx !! ToLower (fm_From fm) = Some i /\ srcFields !! i = Some src /\ f = target_field (tg_UpsertKey t) fm src) fms fs
  | Err e => exists fm, fm ∈ fms /\ idx !! ToLower (fm_From fm) = None /\ e = SourceFieldMissing (tg_Table t) (fm_From fm)
  end.
Proof.
  intros Hidx. induction fms as [|fm fms IH]; cbn [target_fields]; [constructor|]. destruct (idx !! ToLower (fm_From fm)) as [i|] eqn:E.
  - destruct (target_fields idx srcFields t fms) as [fs|e]; cbn.
    + destruct (lookup_lt_is_Some_2 srcFields i (Hidx _ _ E)) as [src Hs]. rewrite Hs. constructor; [|done]. by exists i, src.
    + destruct IH as (fm' & ? & ?). exists fm'. split; [by right|done].
  - exists fm. split; [by left|done].
Qed.

Lemma srcIndex_spec (srcFields : list Field) (s : string) (i : nat) :
  srcIndex srcFields !! s = Some i ->
  exists f, srcFields !! i = Some f /\ ToLower (f_Name f) = s /\ forall j g, srcFields !! j = Some g -> ToLower (f_Name g) = s -> (j <= i)%nat.
Proof.
  unfold srcIndex. induction srcFields as [|f l IH] using rev_ind; [cbn; by rewrite lookup_empty|].
  rewrite imap_app. cbn [imap]. rewrite rev_app_distr. cbn [rev app].
  rewrite list_to_map_cons, Nat.add_0_r. destruct (decide (ToLower (f_Name f) = s)) as [<-|Hne].
  - rewrite lookup_insert_eq. intros [= <-]. exists f. split_and!; [by rewrite lookup_app_r, Nat.sub_diag|done|].
    intros j g Hj _. apply lookup_lt_Some in Hj. rewrite length_app in Hj. cbn in Hj. lia.
  - rewrite lookup_insert_ne by done. intros (g & Hg & Hs & Hmax)%IH. exists g. split_and!; [by apply lookup_app_l_Some|done|].
    intros j h Hj Hh. destruct (decide (j < length l)%nat); [apply (Hmax j h); [by rewrite lookup_app_l in Hj|done]|].
    rewrite lookup_app_r in Hj by lia. destruct (j - length l)%nat; [|done]. cbn in Hj. injection Hj as ->. done.
Qed.
Lemma srcIndex_none (srcFields : list Field) (s : string) :
  srcIndex srcFields !! s = None <-> forall f, f ∈ srcFields -> ToLower (f_Name f) <> s.
Proof.
  unfold srcIndex. induction srcFields as [|f l IH] using rev_ind; [cbn; rewrite lookup_empty; split; [by intros _ f ?%elem_of_nil|done]|].
  rewrite imap_app. cbn [imap]. rewrite rev_app_distr. cbn [rev app]. rewrite list_to_map_cons, lookup_insert_None, IH. split.
  - intros [H1 H2] g [Hg|Hg]%elem_of_app; [by apply H1|]. by apply list_elem_of_singleton in Hg as ->.
  - intros H. split; [intros g Hg; apply H; set_solver|]. apply H. set_solver.
Qed.

(** A source column of a name, the last if there are several. *)
Definition column_of (srcFields : list Field) (from : string) (i : nat) (src : Field) : Prop :=
  srcFields !! i = Some src /\ ToLower (f_Name src) = ToLower from
  /\ forall j g, srcFields !! j = Some g -> ToLower (f_Name g) = ToLower from -> (j <= i)%nat.

Lemma map_value_enum (fm : FieldMapping) (val : string) : map_value fm val = match fm_Enum fm !! val with Some v => v | None => val end.
Proof.
  unfold map_value. destruct (Nat.ltb_spec 0 (size (fm_Enum fm))) as [_|Hs]; [by destruct (fm_Enum fm !! val)|].
  assert (fm_Enum fm = ∅) as -> by (apply map_size_empty_iff; lia). by rewrite lookup_empty.
Qed.

(** C40. The packet for a target that maps fields has the columns the mapping names, in its order, each from the source column of its [from]
    whatever the letter case (the last of several): the name is [to]; it is a key exactly if it is the upsert key up to letter case; where
    the mapping has no [enum] the type, subtype, length and markers are those of the source column, otherwise it is a plain text column.
    A reader gets as many rows as the source has; each cell is the source cell of that column, empty where the row is short, and the value
    [enum] gives for it where it gives one.  It fails only if a field is mapped from a column the source has not. *)
Theorem target_packet_correct (uuid : string) (now : Z) (t : Target) (tableName : string) (rows : list (list string)) (srcFields : list Field) :
  tg_Fields t <> [] ->
  match buildTargetPacket uuid now t tableName rows srcFields with
  | Ok p =>
      h_TableName (p_Header p) = tableName /\ length (GetRows p) = length rows /\ length (s_Fields (p_Schema p)) = length (tg_Fields t)
      /\ forall k fm, tg_Fields t !! k = Some fm -> exists i src, column_of srcFields (fm_From fm) i src
           /\ (exists f, s_Fields (p_Schema p) !! k = Some f /\ f_Name f = fm_To fm /\ f_Key f = EqualFold (fm_To fm) (tg_UpsertKey t)
                /\ (f_Type f, f_Subtype f, f_Length f, f_SpecialValues f)
                   = (if decide (fm_Enum fm = ∅) then (f_Type src, f_Subtype src, f_Length src, f_SpecialValues src) else ("TEXT", "", 0, None)))
           /\ forall r row val, rows !! r = Some row -> val = default "" (row !! i) ->
              (GetRows p !! r) ≫= (.!! k) = Some (match fm_Enum fm !! val with Some v => v | None => val end)
  | Err e => exists fm, fm ∈ tg_Fields t /\ (forall f, f ∈ srcFields -> ToLower (f_Name f) <> ToLower (fm_From fm)) /\ e = SourceFieldMissing (tg_Table t) (fm_From fm)
  end.
Proof.
  intros Hne. unfold buildTargetPacket. set (idx := srcIndex srcFields).
  pose proof (target_fields_spec idx srcFields t (tg_Fields t)) as H. destruct (target_fields idx srcFields t (tg_Fields t)) as [fs|e]; cbn -[SetRows GetRows NewDataPacket].
  - set (p := SetRows _ _). assert (Hg : GetRows p = map (map_row idx (tg_Fields t)) rows).
    { unfold GetRows, p. cbn. apply ParseRows_RowsToData. apply Forall_forall. intros r (row & <- & _)%list_elem_of_In%in_map_iff. unfold map_row.
      by destruct (tg_Fields t). }
    rewrite Hg, length_map. assert (Hin : forall s i, idx !! s = Some i -> (i < length srcFields)%nat).
    { intros s i (f & Hf & _)%srcIndex_spec. by apply lookup_lt_Some in Hf. }
    specialize (H Hin). split_and!; [done|done|cbn; symmetry; by eapply Forall2_length|].
    intros k fm Hk. destruct (Forall2_lookup_l _ _ _ _ _ H Hk) as (f & Hf & i & src & Hi & Hs & ->).
    exists i, src. split_and!; [|eexists; split; [exact Hf|]|].
    + apply srcIndex_spec in Hi as (f & Hf' & Hname & Hmax). assert (f = src) as -> by congruence. done.
    + unfold target_field. destruct (Nat.ltb_spec 0 (size (fm_Enum fm))) as [Hz|Hz].
      * rewrite decide_False; [done|]. intros E. rewrite E, map_size_empty in Hz. lia.
      * rewrite decide_True; [done|]. apply map_size_empty_iff. lia.
    + intros r row val Hr ->. rewrite <- map_value_enum, list_lookup_fmap, Hr. cbn. unfold map_row. rewrite list_lookup_fmap, Hk. cbn. by rewrite Hi.
  - destruct H as (fm & Hfm & Hnone & ->). { intros s i (f & Hf & _)%srcIndex_spec. by apply lookup_lt_Some in Hf. }
    exists fm. split_and!; [done| |done]. by apply srcIndex_none.
Qed.

(** Without an error every target got its packet, in order; with one, those before it did; a dry run writes nothing. *)
Lemma execute_targets_spec (db : Database) (uuid : string) (now : Z) (cfg : MappingConfig) (rows : list (list string)) (srcFields : list Field) (dry : bool) (ts : list Target) :
  let '(ims, r) := execute_targets db uuid now cfg rows srcFields dry ts in
  (dry = true -> ims = [])
  /\ (dry = false -> exists n, (if is_ok r then n = length ts else (n < length ts)%nat)
       /\ Forall2 (fun t im => im_schema im = (splitSchemaTable (tg_Table t) (cn_Schema (mc_TargetConn cfg))).1
            /\ buildTargetPacket uuid now t (splitSchemaTable (tg_Table t) (cn_Schema (mc_TargetConn cfg))).2 rows srcFields = Ok (im_packet im)
            /\ db_imports db im = true) (take n ts) ims).
Proof.
  induction ts as [|t ts IH]; cbn [execute_targets]; [split; [done|]; intros _; exists 0%nat; split; [done|constructor]|].
  destruct (splitSchemaTable _ _) as [sch tbl] eqn:Es. destruct (buildTargetPacket _ _ _ _ _ _) as [p|e] eqn:Eb;
    [|split; [done|]; intros _; exists 0%nat; split; [cbn; lia|constructor]].
  destruct dry; [destruct (execute_targets _ _ _ _ _ _ _ _); split; [intros _; by apply IH|done]|].
  destruct (db_opens db sch); cbn [negb]; [|split; [done|]; intros _; exists 0%nat; split; [cbn; lia|constructor]].
  destruct (db_imports db _) eqn:Ei; cbn [negb]; [|split; [done|]; intros _; exists 0%nat; split; [cbn; lia|constructor]].
  destruct (execute_targets _ _ _ _ _ _ _ _) as [ims r]. destruct IH as [_ IH]. split; [done|]. intros _. destruct (IH eq_refl) as (n & Hn & Hf).
  exists (S n). split; [destruct (is_ok r); cbn; lia|]. cbn [take]. constructor; [|done]. cbn [im_schema im_packet]. rewrite Es. done.
Qed.
End ExecutorFacts.

(** ** The loop guard *)

Section GuardFacts.
  Context {G : GuardEnv} {L : GuardEnvLaws G}.

Definition log_of (file : option string) : list logEntry := default [] (readLog good_io file).

Lemma log_of_plain (file : option string) : Forall plain_entry (log_of file).
Proof.
  unfold log_of. destruct file as [data|]; cbn; [|constructor]. destruct (log_unmarshal data) eqn:E; cbn; [by eapply log_read|constructor].
Qed.
Lemma log_of_written (es : list logEntry) : Forall plain_entry es -> log_of (Some (log_marshal es)) = es.
Proof. intros H. unfold log_of. cbn. by rewrite log_roundtrip. Qed.

(** The texts of the mapping and the identifier of the run are valid UTF-8. *)
Definition plain_run (cfg : MappingConfig) (id : string) : Prop :=
  Forall (fun t => utf8_text t = true) [id; mc_ID cfg; lg_SourceSystem (mc_LoopGuard cfg); lg_TargetSystem (mc_LoopGuard cfg)].

Lemma keep_recent_plain (cfg : MappingConfig) (now : Z) (id : string) (file : option string) :
  plain_run cfg id -> Forall plain_entry (keep_recent (log_of file ++ [new_entry cfg now id])).
Proof.
  intros Hp. apply Forall_drop, Forall_app. split; [apply log_of_plain|]. apply Forall_singleton. unfold plain_run, plain_entry in *.
  rewrite !Forall_cons in *. cbn. by destruct Hp as (? & ? & ? & ? & ?).
Qed.
Lemma set_status_plain (id st : string) (es : list logEntry) : utf8_text st = true -> Forall plain_entry es -> Forall plain_entry (set_entry_status id st es).
Proof.
  intros Hs. induction 1 as [|e es He Hes IH]; [constructor|]. cbn [set_entry_status]. destruct (String.eqb _ _); constructor; try done.
  unfold plain_entry in *. rewrite !Forall_cons in *. cbn. by destruct He as (? & ? & ? & ? & ? & ?).
Qed.

(** The guard's decision, said of the whole log. *)
Definition may_start (cfg : MappingConfig) (minInterval now : Z) (es : list logEntry) : Prop :=
  guarded_pair cfg = true -> forall e, e ∈ es -> same_mapping cfg e = true ->
    le_Status e <> "running" /\ ~ (0 < minInterval /\ le_Status e = "completed" /\ now - le_StartedAt e < minInterval).

Lemma entry_blocks_none (cfg : MappingConfig) (m now : Z) (e : logEntry) :
  entry_blocks cfg m now e = None <->
  (same_mapping cfg e = true -> le_Status e <> "running" /\ ~ (0 < m /\ le_Status e = "completed" /\ now - le_StartedAt e < m)).
Proof.
  unfold entry_blocks. destruct (same_mapping cfg e); cbn [negb]; [|done]. destruct (String.eqb_spec (le_Status e) "running") as [E|E].
  - split; [done|]. intros H. by destruct (H eq_refl).
  - destruct (Z.ltb_spec 0 m), (String.eqb_spec (le_Status e) "completed"), (Z.ltb_spec (now - le_StartedAt e) m); cbn [andb]; split; try done;
      try (intros H'; destruct (H' eq_refl) as [_ []]; by split_and!); intros _ _; (split; [done|]); intros (? & ? & ?); done || lia.
Qed.
Lemma guard_blocks_none (cfg : MappingConfig) (m now : Z) (es : list logEntry) :
  guard_blocks cfg m now es = None <-> forall e, e ∈ es -> entry_blocks cfg m now e = None.
Proof.
  induction es as [|e es IH]; cbn [guard_blocks]; [split; [by intros _ e ?%elem_of_nil|done]|].
  destruct (entry_blocks cfg m now e) eqn:E.
  - split; [done|]. intros H. specialize (H e ltac:(by left)). congruence.
  - rewrite IH. split; [intros H e' [->|He']%elem_of_cons; auto|intros H e' He'; apply H; by right].
Qed.
Lemma guard_decide_spec (cfg : MappingConfig) (m now : Z) (id : string) (es : list logEntry) :
  (may_start cfg m now es /\ guard_decide cfg m now id es = Ok (keep_recent (es ++ [new_entry cfg now id])))
  \/ (~ may_start cfg m now es /\ exists e, guard_decide cfg m now id es = Err e).
Proof.
  unfold guard_decide, may_start. destruct (guarded_pair cfg); [|left; split; [done|done]].
  destruct (guard_blocks cfg m now es) as [e|] eqn:E.
  - right. split; [|by exists e]. intros H. enough (guard_blocks cfg m now es = None) by congruence.
    apply guard_blocks_none. intros e' He'. apply entry_blocks_none. intros Hs. by apply H.
  - left. split; [|done]. intros _ e He. apply entry_blocks_none. by apply (proj1 (guard_blocks_none _ _ _ _) E).
Qed.
Lemma check_and_record (cfg : MappingConfig) (m now : Z) (id : string) (file : option string) :
  parseMinInterval (lg_MinInterval (mc_LoopGuard cfg)) = Some m ->
  (may_start cfg m now (log_of file) /\ CheckAndRecord good_io cfg now id file = (Some (log_marshal (keep_recent (log_of file ++ [new_entry cfg now id]))), Ok id))
  \/ (~ may_start cfg m now (log_of file) /\ exists e, CheckAndRecord good_io cfg now id file = (file, Err e)).
Proof.
  intros Hm. unfold CheckAndRecord, check_log. rewrite Hm. cbn [gi_path good_io negb check_].
  assert (Hr : readLog good_io file = Some (log_of file)) by (unfold log_of; by destruct file). rewrite Hr.
  destruct (guard_decide_spec cfg m now id (log_of file)) as [[H1 ->]|[H1 [e ->]]]; [left|right]; (split; [done|]); [done|by exists e].
Qed.

(** A run starts exactly if no entry of the log with the same mapping and systems is running or has been completed by a run that began
    less than the interval ago; it is then recorded as running. *)
Theorem guard_admits_iff (cfg : MappingConfig) (m now : Z) (id : string) (file : option string) :
  parseMinInterval (lg_MinInterval (mc_LoopGuard cfg)) = Some m ->
  ((CheckAndRecord good_io cfg now id file).2 = Ok id <-> may_start cfg m now (log_of file))
  /\ (plain_run cfg id -> may_start cfg m now (log_of file) -> log_of (CheckAndRecord good_io cfg now id file).1 = keep_recent (log_of file ++ [new_entry cfg now id])).
Proof.
  intros Hm. destruct (check_and_record cfg m now id file Hm) as [[H ->]|[H [e ->]]]; cbn [fst snd]; [|by split].
  split; [done|]. intros Hp _. by apply log_of_written, keep_recent_plain.
Qed.

(** *** Runs that begin and end *)

Inductive guard_event := GStart (cfg : MappingConfig) (now : Z) (id : string) | GDone (id : string) (success : bool).
Definition guard_step (file : option string) (ev : guard_event) : option string :=
  match ev with
  | GStart cfg now id => (CheckAndRecord good_io cfg now id file).1
  | GDone id success => mark_done good_io id success file
  end.
Definition guard_run (file : option string) (evs : list guard_event) : option string := fold_left guard_step evs file.
Definition is_start (ev : guard_event) : bool := match ev with GStart _ _ _ => true | GDone _ _ => false end.
Definition plain_event (ev : guard_event) : Prop := match ev with GStart cfg _ id => plain_run cfg id | GDone _ _ => True end.

(** The entry is in the log with at most [n] after it. *)
Definition tracked (e : logEntry) (n : nat) (file : option string) : Prop :=
  exists pre post, log_of file = pre ++ e :: post /\ (length post <= n)%nat.

Lemma mark_done_log (id : string) (success : bool) (file : option string) :
  log_of (mark_done good_io id success file) = set_entry_status id (if success then "completed" else "failed") (log_of file).
Proof. apply log_of_written, set_status_plain; [by destruct success|apply log_of_plain]. Qed.
Lemma set_status_app (id st : string) (e : logEntry) (pre post : list logEntry) :
  le_ID e <> id -> exists pre' post', set_entry_status id st (pre ++ e :: post) = pre' ++ e :: post' /\ length post' = length post.
Proof.
  intros He. assert (Hl : forall l, length (set_entry_status id st l) = length l).
  { induction l as [|x l IH]; [done|]. cbn [set_entry_status]. destruct (String.eqb _ _); cbn [length]; by rewrite ?IH. }
  induction pre as [|x pre IH]; cbn [set_entry_status app].
  - apply String.eqb_neq in He. rewrite He. exists [], (set_entry_status id st post). by rewrite Hl.
  - destruct (String.eqb (le_ID x) id); [by eexists (_ :: pre), post|]. destruct IH as (pre' & post' & -> & ?). by exists (x :: pre'), post'.
Qed.
Lemma tracked_step (e : logEntry) (n : nat) (file : option string) (ev : guard_event) :
  tracked e n file -> plain_event ev -> (n < 99)%nat \/ is_start ev = false -> (forall s, ev <> GDone (le_ID e) s) ->
  tracked e (n + Nat.b2n (is_start ev)) (guard_step file ev).
Proof.
  intros (pre & post & Hl & Hn) Hpl Hlt Hd. destruct ev as [cfg now id|id s]; cbn [guard_step is_start Nat.b2n] in *.
  - destruct Hlt as [Hlt|]; [|done]. destruct (parseMinInterval (lg_MinInterval (mc_LoopGuard cfg))) as [m|] eqn:Em.
    + destruct (check_and_record cfg m now id file Em) as [[_ ->]|[_ [x ->]]]; cbn [fst]; [|exists pre, post; split; [done|lia]].
      unfold tracked. rewrite log_of_written by (by apply keep_recent_plain). rewrite Hl. unfold keep_recent. rewrite length_app, length_app. cbn [length].
      exists (drop (length pre + S (length post) + 1 - 100) pre), (post ++ [new_entry cfg now id]). rewrite <- app_assoc. cbn [app].
      rewrite drop_app_le by lia. split; [done|]. rewrite length_app. cbn. lia.
    + unfold CheckAndRecord, check_log. rewrite Em. exists pre, post. split; [done|lia].
  - unfold tracked. rewrite mark_done_log, Hl. destruct (set_status_app id (if s then "completed" else "failed") e pre post) as (pre' & post' & -> & E).
    + intros <-. by apply (Hd s).
    + exists pre', post'. split; [done|lia].
Qed.
Lemma tracked_run (e : logEntry) (evs : list guard_event) (n : nat) (file : option string) :
  tracked e n file -> Forall plain_event evs -> (n + length (List.filter is_start evs) <= 99)%nat -> (forall s, GDone (le_ID e) s ∉ evs) ->
  tracked e 99 (guard_run file evs).
Proof.
  revert n file; induction evs as [|ev evs IH]; intros n file Ht Hpl Hn Hd.
  { destruct Ht as (pre & post & ? & ?). exists pre, post. split; [done|]. cbn in Hn. lia. }
  apply Forall_cons in Hpl as [Hev Hpl]. apply (IH (n + Nat.b2n (is_start ev))%nat); cbn [List.filter] in *; [|done|..].
  - apply tracked_step; [done|done| |].
    + destruct (is_start ev); [left; cbn in Hn; lia|by right].
    + intros s ->. apply (Hd s). by left.
  - destruct (is_start ev); cbn in *; lia.
  - intros s Hs. apply (Hd s). by right.
Qed.

(** A recorded run is still in the log after such events, so the mapping is refused. *)
Lemma run_excludes (cfg cfg' : MappingConfig) (m m' now now' : Z) (id id' : string) (file : option string) (evs : list guard_event) :
  parseMinInterval (lg_MinInterval (mc_LoopGuard cfg)) = Some m -> parseMinInterval (lg_MinInterval (mc_LoopGuard cfg')) = Some m' ->
  plain_run cfg id -> Forall plain_event evs -> (CheckAndRecord good_io cfg now id file).2 = Ok id ->
  guarded_pair cfg' = true -> same_mapping cfg' (new_entry cfg now id) = true ->
  (length (List.filter is_start evs) <= 99)%nat -> (forall s, GDone id s ∉ evs) ->
  let file' := guard_run (CheckAndRecord good_io cfg now id file).1 evs in
  exists e, check_log good_io cfg' now' id' file' = Err e.
Proof.
  intros Hm Hm' Hp Hpl Hok Hg Hs Hn Hd. cbn zeta.
  assert (Ht : tracked (new_entry cfg now id) 0 (CheckAndRecord good_io cfg now id file).1).
  { destruct (check_and_record cfg m now id file Hm) as [[_ E]|[_ [e E]]]; rewrite E in *; [|done]. cbn [fst]. unfold tracked.
    rewrite log_of_written by (by apply keep_recent_plain). unfold keep_recent. rewrite length_app. cbn [length]. rewrite drop_app_le by lia. by eexists _, []. }
  destruct (tracked_run _ evs 0 _ Ht Hpl ltac:(lia) Hd) as (pre & post & Hl & _). set (file' := guard_run _ evs) in *.
  unfold check_log. rewrite Hm'. cbn [gi_path good_io negb check_].
  assert (Hr : readLog good_io file' = Some (log_of file')) by (unfold log_of; by destruct file'). rewrite Hr, Hl.
  destruct (guard_decide_spec cfg' m' now' id' (pre ++ new_entry cfg now id :: post)) as [[H _]|[_ H]]; [|done].
  exfalso. by destruct (H Hg (new_entry cfg now id) ltac:(set_solver) Hs).
Qed.

(** Every process that writes has read the log after the last write: [fresh] are those that have. *)
Fixpoint undisturbed (fresh : gset nat) (steps : list log_step) : Prop :=
  match steps with
  | [] => True
  | Reads p _ :: steps => undisturbed ({[p]} ∪ fresh) steps
  | Writes p :: steps => p ∈ fresh /\ undisturbed ∅ steps
  end.
Definition event_of (a : access) : guard_event := match a with Starting cfg now id => GStart cfg now id | Ending id s => GDone id s end.
Definition accesses (steps : list log_step) : list access := omap (fun s => match s with Reads _ a => Some a | Writes _ => None end) steps.

Lemma written_event (a : access) (file : option string) :
  match to_write a file with Some entries => (writeLog good_io entries).1 | None => file end = guard_step file (event_of a).
Proof. destruct a as [cfg now id|id s]; [|done]. cbn. unfold CheckAndRecord. by destruct (check_log _ _ _ _ _). Qed.

(** Such steps do to the log what some of the accesses do, one after the other. *)
Lemma undisturbed_runs (steps : list log_step) (fresh : gset nat) (known : list access) (file : option string) (pending : gmap nat (list logEntry)) :
  undisturbed fresh steps -> (forall p, p ∈ fresh -> exists a, a ∈ known /\ pending !! p = to_write a file) ->
  exists done, (log_steps (file, pending) steps).1 = guard_run file (map event_of done) /\ done `sublist_of` known ++ accesses steps.
Proof.
  revert fresh known file pending; induction steps as [|[p a|p] steps IH]; intros fresh known file pending Hu Hp; cbn [undisturbed] in Hu.
  - exists []. split; [done|apply sublist_nil_l].
  - cbn [log_steps fold_left log_step_run]. destruct (IH _ (known ++ [a]) file (match to_write a file with Some es => <[p := es]> pending | None => delete p pending end) Hu)
      as (done & E & Hs); [|exists done; split; [exact E|by rewrite <- app_assoc in Hs]].
    intros q Hq. destruct (decide (q = p)) as [->|Hne].
    + exists a. split; [set_solver|]. destruct (to_write a file); by rewrite ?lookup_insert_eq, ?lookup_delete_eq.
    + destruct (Hp q ltac:(set_solver)) as (b & Hb & Eb). exists b. split; [set_solver|]. destruct (to_write a file); by rewrite ?lookup_insert_ne, ?lookup_delete_ne.
  - destruct Hu as [Hf Hu]. destruct (Hp p Hf) as (a & Ha & Ea). pose proof (written_event a file) as Hw. rewrite <- Ea in Hw.
    assert (exists pending', log_step_run (file, pending) (Writes p) = (guard_step file (event_of a), pending')) as [pending' Est].
    { cbn. destruct (pending !! p); cbn in Hw; rewrite <- Hw; by eexists. }
    cbn [log_steps fold_left]. rewrite Est. destruct (IH ∅ [] (guard_step file (event_of a)) pending' Hu) as (done & E & Hs); [set_solver|].
    exists (a :: done). split; [exact E|]. cbn [accesses omap list_omap app] in *. change (a :: done) with ([a] ++ done). apply sublist_app; [by apply singleton_sublist_l|exact Hs].
Qed.

(** C30. While a run has not ended, the same mapping is refused.  A process has recorded the run of a mapping; others then read the log and
    write it, for starts of mappings (99 at most) and for ends of runs other than this one, at any times and in any order, so long as a
    process that writes the log has read it after the last write: then a start of the same mapping between the same systems, both named in
    its configuration, is refused.  (The files can be read and written, the intervals are well formed, and the texts are valid UTF-8.
    Processes that do write over what they have not read are not excluded: see [two_commands_both_start].) *)
Theorem guard_excludes (cfg cfg' : MappingConfig) (m m' now now' : Z) (id id' : string) (file : option string) (pending : gmap nat (list logEntry))
    (p : nat) (steps : list log_step) :
  parseMinInterval (lg_MinInterval (mc_LoopGuard cfg)) = Some m -> parseMinInterval (lg_MinInterval (mc_LoopGuard cfg')) = Some m' ->
  lg_SourceSystem (mc_LoopGuard cfg') <> "" -> lg_TargetSystem (mc_LoopGuard cfg') <> "" ->
  mc_ID cfg = mc_ID cfg' -> lg_SourceSystem (mc_LoopGuard cfg) = lg_SourceSystem (mc_LoopGuard cfg') ->
  lg_TargetSystem (mc_LoopGuard cfg) = lg_TargetSystem (mc_LoopGuard cfg') ->
  plain_run cfg id -> (forall c t i, Starting c t i ∈ accesses steps -> plain_run c i) ->
  is_ok (check_log good_io cfg now id file) = true -> undisturbed ∅ steps ->
  (length (List.filter (fun a => is_start (event_of a)) (accesses steps)) <= 99)%nat -> (forall s, Ending id s ∉ accesses steps) ->
  let file' := (log_steps (file, pending) (Reads p (Starting cfg now id) :: Writes p :: steps)).1 in
  exists e, CheckAndRecord good_io cfg' now' id' file' = (file', Err e).
Proof.
  intros Hm Hm' Hsrc Htgt Hid Hs Ht Hp Hpl Hok Hu Hn Hd. cbn [log_steps fold_left log_step_run to_write].
  destruct (check_log good_io cfg now id file) as [entries|] eqn:Ec; [|done]. rewrite lookup_insert_eq.
  destruct (undisturbed_runs steps ∅ [] (writeLog good_io entries).1 (delete p (<[p := entries]> pending)) Hu ltac:(set_solver)) as (done & E & Hsub).
  cbn [app] in Hsub. unfold log_steps in E. rewrite E. cbn zeta.
  assert (HC : CheckAndRecord good_io cfg now id file = ((writeLog good_io entries).1, Ok id)) by (unfold CheckAndRecord; by rewrite Ec).
  destruct (run_excludes cfg cfg' m m' now now' id id' file (map event_of done)) as [e He]; try done.
  - apply Forall_forall. intros ev (a & -> & Ha)%list_elem_of_fmap. eapply elem_of_sublist in Ha; [|exact Hsub]. destruct a; [|done]. by eapply Hpl.
  - by rewrite HC.
  - unfold guarded_pair. by rewrite (proj2 (String.eqb_neq _ _) Hsrc), (proj2 (String.eqb_neq _ _) Htgt).
  - unfold same_mapping, new_entry. cbn. by rewrite Hs, Ht, Hid, !String.eqb_refl.
  - etrans; [|exact Hn]. clear -Hsub. induction Hsub as [|a l1 l2 _ IH|a l1 l2 _ IH]; cbn; [done|..]; destruct (is_start (event_of a)); cbn; lia.
  - intros s (a & Ea & Ha)%list_elem_of_fmap. eapply elem_of_sublist in Ha; [|exact Hsub]. destruct a; [done|]. injection Ea as -> ->. by eapply Hd.
  - rewrite HC in He. cbn [fst] in He. exists e. unfold CheckAndRecord at 1. by rewrite He.
Qed.

(** Starts that are all admitted, one after the other. *)
Fixpoint all_admitted (file : option string) (starts : list (MappingConfig * Z * string)) : Prop :=
  match starts with
  | [] => True
  | (cfg, now, id) :: starts =>
      (exists m, parseMinInterval (lg_MinInterval (mc_LoopGuard cfg)) = Some m) /\ plain_run cfg id /\ (CheckAndRecord good_io cfg now id file).2 = Ok id
      /\ all_admitted (CheckAndRecord good_io cfg now id file).1 starts
  end.
Definition start_of (s : MappingConfig * Z * string) : guard_event := GStart s.1.1 s.1.2 s.2.
Definition entry_of (s : MappingConfig * Z * string) : logEntry := new_entry s.1.1 s.1.2 s.2.

Lemma starts_log (starts : list (MappingConfig * Z * string)) (file : option string) (old : list logEntry) (new : list logEntry) :
  log_of file = old ++ new -> all_admitted file starts -> (length new + length starts <= 100)%nat ->
  exists old', log_of (guard_run file (map start_of starts)) = old' ++ new ++ map entry_of starts
    /\ (starts <> [] -> length old' + length new + length starts <= 100)%nat.
Proof.
  revert file old new; induction starts as [|[[cfg now] id] starts IH]; intros file old new Hl Ha Hn.
  { exists old. change (guard_run file (map start_of [])) with file. rewrite Hl. cbn [map]. rewrite app_nil_r. by split. }
  destruct Ha as ([m Hm] & Hp & Hok & Ha). cbn [map guard_run fold_left]. change (guard_step file (start_of (cfg, now, id))) with (CheckAndRecord good_io cfg now id file).1.
  destruct (check_and_record cfg m now id file Hm) as [[_ E]|[_ [e E]]]; [|by rewrite E in Hok]. rewrite E in *. cbn [fst] in *.
  set (old1 := drop (length (old ++ new ++ [new_entry cfg now id]) - 100) old). cbn [length] in Hn.
  assert (Hlog : log_of (Some (log_marshal (keep_recent (log_of file ++ [new_entry cfg now id])))) = old1 ++ new ++ [new_entry cfg now id]).
  { rewrite log_of_written by (by apply keep_recent_plain). rewrite Hl, <- app_assoc. unfold keep_recent, old1. rewrite drop_app_le; [done|]. rewrite !length_app. cbn. lia. }
  destruct (IH _ old1 (new ++ [new_entry cfg now id]) Hlog Ha) as (old' & Hl' & Hb); [rewrite length_app; cbn; lia|].
  exists old'. split; [etrans; [exact Hl'|by rewrite <- app_assoc]|]. intros _. rewrite length_app in Hb. cbn [length] in *.
  destruct starts as [|x starts]; [|specialize (Hb ltac:(done)); lia]. cbn [map guard_run fold_left] in Hl'. rewrite Hlog in Hl'. apply (f_equal length) in Hl'.
  assert (length old1 + length new + 1 <= 100)%nat by (unfold old1; rewrite length_drop, !length_app; cbn; lia). rewrite !length_app in Hl'. cbn in *. lia.
Qed.

(** The log keeps 100 entries: a hundred runs of other mappings later the entry of a run that has not ended is gone, and the same mapping
    starts beside it. *)
Theorem guard_forgets (cfg : MappingConfig) (m now : Z) (id : string) (file : option string) (starts : list (MappingConfig * Z * string)) :
  parseMinInterval (lg_MinInterval (mc_LoopGuard cfg)) = Some m -> length starts = 100%nat -> all_admitted file starts ->
  (forall s, s ∈ starts -> same_mapping cfg (entry_of s) = false) ->
  (CheckAndRecord good_io cfg now id (guard_run file (map start_of starts))).2 = Ok id.
Proof.
  intros Hm Hn Ha Ho. destruct (starts_log starts file (log_of file) [] ltac:(by rewrite app_nil_r) Ha ltac:(cbn; lia)) as (old & Hl & Hb).
  specialize (Hb ltac:(by intros ->)). cbn [length app] in *. destruct old; [|cbn in Hb; lia].
  destruct (check_and_record cfg m now id (guard_run file (map start_of starts)) Hm) as [[_ ->]|[H _]]; [done|]. destruct H.
  rewrite Hl. intros _ e (s & <- & Hs%list_elem_of_In)%list_elem_of_In%in_map_iff Hsame. by rewrite Ho in Hsame.
Qed.

(** The lock is one of the process: two commands that read the log before either has written it are both admitted, and the log is left
    without the entry of the first. *)
Theorem two_commands_both_start (cfg : MappingConfig) (m now now' : Z) (id id' : string) (file : option string) (first : list logEntry) :
  (forall e, e ∈ log_of file -> le_ID e <> id) -> id <> id' -> now <= now' -> plain_run cfg id' ->
  guard_decide cfg m now id (log_of file) = Ok first ->
  exists second, guard_decide cfg m now' id' (log_of file) = Ok second
    /\ forall e, e ∈ log_of (writeLog good_io second).1 -> le_ID e <> id.
Proof.
  intros Hf Hne Hle Hp Hd. destruct (guard_decide_spec cfg m now id (log_of file)) as [[Hs _]|[_ [e He]]]; [|congruence].
  destruct (guard_decide_spec cfg m now' id' (log_of file)) as [[_ ->]|[Hs' _]].
  - eexists. split; [done|]. cbn [writeLog good_io gi_write fst]. intros e. rewrite log_of_written by (by apply keep_recent_plain). unfold keep_recent. intros He.
    assert (e ∈ log_of file ++ [new_entry cfg now' id']) as [H|H]%elem_of_app by (by apply subseteq_drop in He).
    + by apply Hf.
    + apply list_elem_of_singleton in H as ->. cbn. congruence.
  - destruct Hs'. intros Hg e He Hsame. destruct (Hs Hg e He Hsame) as [H1 H2]. split; [done|]. intros (? & ? & ?). apply H2. split_and!; [done|done|lia].
Qed.
End GuardFacts.

(** ** The command *)

Section CommandFacts.
  Context {C : GoCase} {GE : GuardEnv} {L : GuardEnvLaws GE}.

Lemma set_status_fresh (id st : string) (e : logEntry) (pre : list logEntry) :
  (forall x, x ∈ pre -> le_ID x <> id) -> le_ID e = id ->
  set_entry_status id st (pre ++ [e]) = pre ++ [MkLogEntry (le_ID e) (le_MappingID e) (le_SourceSystem e) (le_TargetSystem e) (le_StartedAt e) st].
Proof.
  intros Hp He. induction pre as [|x pre IH]; cbn [set_entry_status app]; [by rewrite He, String.eqb_refl|].
  pose proof (Hp x ltac:(by left)) as Hx. apply String.eqb_neq in Hx. rewrite Hx, IH; [done|]. intros y Hy. apply Hp. by right.
Qed.

(** A dry run imports nothing and leaves the log.  A run that the guard refuses imports nothing and leaves the log; one that it admits ends
    as completed in the log if every target has its rows and as failed otherwise. *)
Theorem run_map_recorded (db : Database) (cfg : MappingConfig) (m now : Z) (id uuid : string) (loaded : option DataPacket) (dry : bool) (file : option string) :
  parseMinInterval (lg_MinInterval (mc_LoopGuard cfg)) = Some m -> plain_run cfg id -> (forall e, e ∈ log_of file -> le_ID e <> id) ->
  let '(file', ims, r) := RunMap good_io good_io db cfg now id uuid loaded dry file in
  (dry = true -> file' = file /\ ims = [])
  /\ (dry = false ->
      (~ may_start cfg m now (log_of file) /\ file' = file /\ ims = [] /\ is_ok r = false)
      \/ (may_start cfg m now (log_of file)
         /\ exists before e, log_of file' = before ++ [e] /\ le_ID e = id /\ le_MappingID e = mc_ID cfg /\ le_Status e = (if is_ok r then "completed" else "failed")
         /\ (is_ok r = true -> length ims = length (mc_Targets cfg)))).
Proof.
  intros Hm Hp Hf. unfold RunMap.
  set (run := match loaded with None => _ | Some _ => _ end).
  assert (Hrun : (dry = true -> run.1 = []) /\ (dry = false -> is_ok run.2 = true -> length run.1 = length (mc_Targets cfg))).
  { unfold run. destruct loaded as [pkt|]; [|done]. unfold Mapping_Execute.
    pose proof (execute_targets_spec db uuid now cfg (GetRows pkt) (s_Fields (p_Schema pkt)) dry (mc_Targets cfg)) as H.
    destruct (execute_targets _ _ _ _ _ _ _ _) as [ims r]. destruct H as [H1 H2]. split; [done|]. intros Hd. destruct (H2 Hd) as (n & Hn & HF).
    destruct r; [|done]. cbn in *. intros _. subst n. apply Forall2_length in HF. rewrite firstn_all in HF. done. }
  destruct dry; [split; [|done]; intros _; by split; [|apply Hrun]|].
  destruct (check_and_record cfg m now id file Hm) as [[Hs ->]|[Hs [e ->]]]; (split; [done|]); intros _; [right|left; by split_and!].
  split; [done|]. rewrite mark_done_log, log_of_written by (by apply keep_recent_plain). unfold keep_recent. rewrite length_app. cbn [length]. rewrite drop_app_le by lia.
  rewrite set_status_fresh; [|intros x Hx; apply Hf; by apply subseteq_drop in Hx|done].
  eexists _, _. split; [done|]. cbn [le_ID le_MappingID le_Status new_entry]. split_and!; [done|done|by destruct (is_ok run.2)|]. intros Hok. by apply Hrun.
Qed.
End CommandFacts.

Section ListenFacts.
  Context (process : nat -> string -> list Import * bool) (requeue : string -> list string -> list string).

(** With a broker that takes a message back, no message is lost: each is acknowledged after a delivery that imported it, or still in the
    queue. *)
Theorem listen_loses_nothing (n k : nat) (queue : list string) :
  (forall m q, requeue m q ≡ₚ m :: q) ->
  let '(acked, rest) := rabbit_loop process requeue n k queue in
  acked.*1 ++ rest ≡ₚ queue /\ forall m ims, (m, ims) ∈ acked -> exists j, (k <= j < k + n)%nat /\ process j m = (ims, true).
Proof.
  intros Hq. revert k queue; induction n as [|n IH]; intros k queue; [split; [done|by intros m ims ?%elem_of_nil]|].
  destruct queue as [|m queue]; cbn [rabbit_loop]; [split; [done|by intros m ims ?%elem_of_nil]|]. destruct (process k m) as [ims ok] eqn:E. destruct ok.
  - specialize (IH (S k) queue). destruct (rabbit_loop _ _ _ _ _) as [acked rest]. destruct IH as [IH1 IH2]. split; [cbn; by rewrite IH1|].
    intros m' ims' [[= -> ->]|Hin]%elem_of_cons; [exists k; split; [lia|done]|]. destruct (IH2 _ _ Hin) as (j & ? & ?). exists j. split; [lia|done].
  - specialize (IH (S k) (requeue m queue)). destruct (rabbit_loop _ _ _ _ _) as [acked rest]. destruct IH as [IH1 IH2]. split; [by rewrite IH1, Hq|].
    intros m' ims' Hin. destruct (IH2 _ _ Hin) as (j & ? & ?). exists j. split; [lia|done].
Qed.

(** Where the broker returns a message to its place, one that cannot be processed keeps all behind it from being read. *)
Theorem bad_message_blocks_queue (m : string) (queue : list string) (n k : nat) :
  (forall q, requeue m q = m :: q) -> (forall j, (process j m).2 = false) -> rabbit_loop process requeue n k (m :: queue) = ([], m :: queue).
Proof.
  intros Hr Hp. revert k; induction n as [|n IH]; intros k; [done|]. cbn [rabbit_loop]. specialize (Hp k). destruct (process k m) as [ims ok]. cbn in Hp. subst ok.
  rewrite Hr. apply IH.
Qed.

Lemma kafka_offset_le (messages : list string) (k a o : nat) : (o <= a)%nat -> (o <= (kafka_loop process k a o messages).1)%nat.
Proof.
  revert k a o; induction messages as [|m l IH]; intros k a o Ho; [done|]. cbn [kafka_loop]. destruct (process k m) as [ims ok].
  specialize (IH (S k) (S a) (if ok then S a else o) ltac:(destruct ok; lia)). destruct (kafka_loop _ _ _ _ _) as [o' d]. cbn in *. destruct ok; lia.
Qed.

(** With a broker that only commits offsets the message after a failed one commits past it: it is not read again, nor was it imported. *)
Theorem failed_message_lost (before after : list string) (m next : string) (k a o : nat) :
  (o <= a)%nat -> (process (k + length before) m).2 = false -> (process (S (k + length before)) next).2 = true ->
  (a + length before < (kafka_loop process k a o (before ++ m :: next :: after)).1)%nat.
Proof.
  revert k a o; induction before as [|x l IH]; intros k a o Ho Hm Hn; cbn [kafka_loop app].
  - rewrite Nat.add_0_r in *. destruct (process k m) as [i1 []]; [done|]. destruct (process (S k) next) as [i2 []]; [|done].
    pose proof (kafka_offset_le after (S (S k)) (S (S a)) (S (S a)) ltac:(lia)). destruct (kafka_loop _ _ _ _ after) as [o' d]. cbn in *. lia.
  - destruct (process k x) as [ims ok]. specialize (IH (S k) (S a) (if ok then S a else o) ltac:(destruct ok; lia)). cbn [length] in *.
    rewrite Nat.add_succ_r in *. specialize (IH Hm Hn). destruct (kafka_loop _ _ _ _ _) as [o' d]. cbn in *. lia.
Qed.
End ListenFacts.

(** The pause before reconnecting is documented to reach 30 seconds; from the fifth attempt on it is 32. *)
Theorem reconnect_delay_exceeds (k : nat) : map reconnect_delay (seq 0 5) = [2; 4; 8; 16; 32] /\ reconnect_delay (4 + k) = 32.
Proof. split; [done|]. induction k as [|k IH]; [done|]. rewrite Nat.add_succ_r. change (reconnect_delay (S (4 + k))) with (let d := reconnect_delay (4 + k) in if d <? 30 then d * 2 else d). by rewrite IH. Qed.

(** *** A key that is burned on reading *)

Section Burned.
  Context {C : GoCase} {G : Gcm} {X : SectionXml} {K : Codec} {XmlError : Type}.
  Context (unmarshal_packet : string -> result XmlError DataPacket).

(** A blob whose key has been handed out before cannot be processed. *)
Lemma burned_blob_fails (retrieve : string -> option string) (mercuryURL : string) (db : Database) (cfg : MappingConfig) (now : Z) (uuid data : string) (dry : bool) :
  IsEncryptedBlob data = true -> (forall u, retrieve u = None) ->
  listen_message unmarshal_packet retrieve mercuryURL db cfg now uuid data dry = ([], false).
Proof.
  intros He Hr. unfold listen_message, read_message, decryptLegacyBlobIfNeeded. rewrite He. cbn [negb]. unfold DecryptEncBlob.
  destruct (String.eqb mercuryURL ""); [done|]. cbn. destruct (ExtractUUID data); cbn; [|done]. unfold retrieve_key. by rewrite Hr.
Qed.

(** An encrypted message has one chance: if its first import fails its key is gone, and it goes back to the queue for ever. *)
Theorem encrypted_message_one_chance (mercuryURL : string) (db : nat -> Database) (retrieve : nat -> string -> option string) (cfg : MappingConfig) (now : Z)
    (uuid data : string) (n : nat) :
  let process k m := listen_message unmarshal_packet (retrieve k) mercuryURL (db k) cfg now uuid m false in
  IsEncryptedBlob data = true -> (forall k u, retrieve (S k) u = None) -> (process 0%nat data).2 = false ->
  rabbit_loop process cons n 0 [data] = ([], [data]).
Proof.
  intros process He Hr Hf. assert (Hp : forall j, (process j data).2 = false).
  { intros [|j]; [done|]. unfold process. rewrite burned_blob_fails; [done|done|]. intros u. apply Hr. }
  clear Hf. generalize 0%nat. induction n as [|n IH]; intros k; [done|]. cbn [rabbit_loop]. specialize (Hp k) as Hk. destruct (process k data) as [ims ok].
  cbn in Hk. subst ok. apply IH.
Qed.
End Burned.

(** ** Witnesses *)

Definition entry_tuple (e : logEntry) := (le_ID e, le_MappingID e, le_SourceSystem e, le_TargetSystem e, le_StartedAt e, le_Status e).
Definition tuple_entry (t : string * string * string * string * Z * string) : logEntry :=
  let '(id, mid, src, tgt, at_, st) := t in MkLogEntry id mid src tgt at_ st.
#[global] Instance plain_entry_dec (e : logEntry) : Decision (plain_entry e).
Proof. unfold plain_entry. apply _. Defined.
Definition demo_guard : GuardEnv := {|
  log_marshal es := bits_of (encode (map entry_tuple es));
  log_unmarshal s := es ← map tuple_entry <$> decode (of_bits s); if bool_decide (Forall plain_entry es) then Some es else None;
  ParseDuration s := if String.eqb s "10s" then Some 10 else None;
|}.
Lemma demo_guard_laws : GuardEnvLaws demo_guard.
Proof.
  split.
  - intros es Hes. cbn [log_unmarshal log_marshal demo_guard]. rewrite of_bits_of, decode_encode. cbn. rewrite map_map.
    assert (map (fun e => tuple_entry (entry_tuple e)) es = es) as -> by (rewrite <- (map_id es) at 2; apply map_ext; by intros []).
    by rewrite bool_decide_eq_true_2.
  - intros data es. cbn [log_unmarshal demo_guard]. destruct (map tuple_entry <$> decode (of_bits data)) as [l|]; cbn; [|done].
    case_bool_decide; [|done]. by intros [= <-].
Qed.

Definition demo_mapping (name : string) : MappingConfig :=
  MkMappingConfig name (MkLoopGuard "crm" "erp" "10s") (MkConnConfig "postgres" "dsn" "")
    [MkTarget "t" "edm.people" "ID" [MkFieldMapping "id" "ID" ∅; MkFieldMapping "Sex" "gender" {["m" := "male"]}]].
Definition demo_fields : list Field := [MkField "Id" "INTEGER" 0 0 0 true "" "" false false None ""; MkField "sex" "TEXT" 1 0 0 false "" "" false false None ""].
Definition demo_target : Target := MkTarget "t" "edm.people" "ID" [MkFieldMapping "id" "ID" ∅; MkFieldMapping "Sex" "gender" {["m" := "male"]}].

Lemma target_packet_correct_witness :
  match @buildTargetPacket ascii_case "u" 0 demo_target "people" [["1"; "m"]; ["2"]] demo_fields with
  | Ok p => length (GetRows p) = 2%nat /\ GetRows p = [["1"; "male"]; ["2"; ""]]
  | Err _ => False
  end.
Proof.
  pose proof (@target_packet_correct ascii_case "u" 0 demo_target "people" [["1"; "m"]; ["2"]] demo_fields ltac:(discriminate)) as H.
  destruct (@buildTargetPacket ascii_case "u" 0 demo_target "people" [["1"; "m"]; ["2"]] demo_fields) as [p|e] eqn:E.
  - split; [apply H|]. vm_compute in E. injection E as <-. vm_compute. reflexivity.
  - vm_compute in E. discriminate E.
Defined.

Lemma guard_admits_iff_witness :
  (@CheckAndRecord demo_guard good_io (demo_mapping "people") 100 "1" None).2 = Ok "1".
Proof.
  apply (@guard_admits_iff demo_guard demo_guard_laws (demo_mapping "people") 10 100 "1" None eq_refl).
  intros _ e He. change (log_of None) with (@nil logEntry) in He. by apply elem_of_nil in He.
Defined.

Definition first_start : option string := (@CheckAndRecord demo_guard good_io (demo_mapping "people") 100 "1" None).1.
Definition demo_steps : list log_step :=
  [Reads 2 (Starting (demo_mapping "tours") 101 "2"); Reads 3 (Starting (demo_mapping "people") 101 "4"); Writes 2; Reads 2 (Ending "2" true); Writes 2].
Lemma guard_excludes_witness :
  let file' := (@log_steps demo_guard (None, ∅) (Reads 1 (Starting (demo_mapping "people") 100 "1") :: Writes 1 :: demo_steps)).1 in
  exists e, @CheckAndRecord demo_guard good_io (demo_mapping "people") 99999 "3" file' = (file', Err e).
Proof.
  refine (@guard_excludes demo_guard demo_guard_laws (demo_mapping "people") (demo_mapping "people") 10 10 100 99999 "1" "3" None ∅ 1 demo_steps
    eq_refl eq_refl _ _ eq_refl eq_refl eq_refl _ _ _ _ _ _).
  - discriminate.
  - discriminate.
  - repeat constructor.
  - intros c t i H. change (accesses demo_steps) with [Starting (demo_mapping "tours") 101 "2"; Starting (demo_mapping "people") 101 "4"; Ending "2" true] in H.
    rewrite !elem_of_cons, elem_of_nil in H. destruct H as [[= -> _ ->]|[[= -> _ ->]|[[=]|[]]]]; repeat constructor.
  - vm_compute. reflexivity.
  - cbn [undisturbed demo_steps]. set_solver.
  - change (accesses demo_steps) with [Starting (demo_mapping "tours") 101 "2"; Starting (demo_mapping "people") 101 "4"; Ending "2" true]. cbn. lia.
  - intros s H. change (accesses demo_steps) with [Starting (demo_mapping "tours") 101 "2"; Starting (demo_mapping "people") 101 "4"; Ending "2" true] in H.
    rewrite !elem_of_cons, elem_of_nil in H. destruct H as [?|[?|[?|[]]]]; discriminate.
Defined.

Definition open_mapping : MappingConfig := MkMappingConfig "other" (MkLoopGuard "" "" "") (MkConnConfig "postgres" "dsn" "") [].
Lemma open_admitted `{L : !GuardEnvLaws G} (n : nat) (file : option string) : all_admitted file (repeat (open_mapping, 0, "x") n).
Proof.
  revert file; induction n as [|n IH]; intros file; [done|]. cbn [repeat all_admitted]. split_and!; [by exists 0|repeat constructor| |apply IH].
  destruct (check_and_record open_mapping 0 0 "x" file eq_refl) as [[_ ->]|[[] _]]; done.
Qed.
Lemma guard_forgets_witness :
  (@CheckAndRecord demo_guard good_io (demo_mapping "people") 101 "2"
    (@guard_run demo_guard first_start (map start_of (repeat (open_mapping, 0, "x") 100)))).2 = Ok "2".
Proof.
  apply (@guard_forgets demo_guard demo_guard_laws (demo_mapping "people") 10 101 "2" first_start (repeat (open_mapping, 0, "x") 100) eq_refl).
  - reflexivity.
  - apply (@open_admitted demo_guard demo_guard_laws).
  - intros s Hs. apply list_elem_of_In, repeat_spec in Hs as ->. reflexivity.
Defined.

Lemma two_commands_both_start_witness :
  exists second, guard_decide (demo_mapping "people") 10 101 "2" (@log_of demo_guard None) = Ok second
    /\ forall e, e ∈ @log_of demo_guard (@writeLog demo_guard good_io second).1 -> le_ID e <> "1".
Proof.
  eapply (@two_commands_both_start demo_guard demo_guard_laws (demo_mapping "people") 10 100 101 "1" "2" None); [|discriminate|lia|repeat constructor|reflexivity].
  intros e He. by apply elem_of_nil in He.
Defined.

Definition demo_source : DataPacket := SetRows [["1"; "m"]] (set_p_Schema (MkSchema demo_fields None "" "" "") (NewDataPacket "u" 1 TypeReference "people")).
Definition demo_database : Database := MkDatabase (fun _ => true) (fun _ => true).
Definition demo_run := @RunMap ascii_case demo_guard good_io good_io demo_database (demo_mapping "people") 100 "1" "u" (Some demo_source) false None.
Lemma run_map_recorded_witness :
  may_start (demo_mapping "people") 10 100 (@log_of demo_guard None)
  /\ exists before e, @log_of demo_guard demo_run.1.1 = before ++ [e] /\ le_ID e = "1" /\ le_Status e = "completed".
Proof.
  assert (Hm : may_start (demo_mapping "people") 10 100 (@log_of demo_guard None)) by (intros _ e He; by apply elem_of_nil in He).
  split; [done|]. assert (Hok : is_ok demo_run.2 = true) by (vm_compute; reflexivity).
  pose proof (@run_map_recorded ascii_case demo_guard demo_guard_laws demo_database (demo_mapping "people") 10 100 "1" "u" (Some demo_source) false None
    eq_refl ltac:(repeat constructor) ltac:(intros e He; by apply elem_of_nil in He)) as H.
  fold demo_run in H. destruct demo_run as [[f ims] r]. cbn [fst snd] in *. destruct H as [_ H].
  destruct (H eq_refl) as [[H' _]|(_ & b & e & H1 & H2 & _ & H3 & _)]; [done|]. exists b, e. rewrite Hok in H3. done.
Defined.

Definition flaky (k : nat) (m : string) : list Import * bool := ([], negb (String.eqb m "bad") && negb (k =? 1)%nat).
Lemma listen_loses_nothing_witness :
  rabbit_loop flaky (fun m q => q ++ [m]) 4 0 ["a"; "b"; "bad"] = ([("a", []); ("b", [])], ["bad"])
  /\ let '(acked, rest) := rabbit_loop flaky (fun m q => q ++ [m]) 4 0 ["a"; "b"; "bad"] in acked.*1 ++ rest ≡ₚ ["a"; "b"; "bad"].
Proof.
  split; [reflexivity|]. pose proof (listen_loses_nothing flaky (fun m q => q ++ [m]) 4 0 ["a"; "b"; "bad"] (fun m q => Permutation_sym (Permutation_cons_append q m))) as H.
  destruct (rabbit_loop _ _ _ _ _) as [acked rest]. apply H.
Defined.
Lemma bad_message_blocks_queue_witness : rabbit_loop flaky cons 100 0 ["bad"; "a"] = ([], ["bad"; "a"]).
Proof. apply bad_message_blocks_queue; reflexivity. Defined.
Lemma failed_message_lost_witness : (1 < (kafka_loop flaky 0 0 0 ["a"; "b"; "c"]).1)%nat /\ (kafka_loop flaky 0 0 0 ["a"; "b"; "c"]).2 = ["a"; "c"].
Proof. split; [apply (failed_message_lost flaky ["a"] [] "b" "c" 0 0 0); [lia|reflexivity|reflexivity]|reflexivity]. Defined.

Definition demo_blob : string := bytes_of [1; 0; 1]%N +:+ bytes_of (replicate 16 171%N) +:+ demo_nonce +:+ "#<xml/>".
Definition broken_then_well (k : nat) : Database := MkDatabase (fun _ => negb (k =? 0)%nat) (fun _ => true).
Definition burned_after_first (k : nat) (uuid : string) : option string := if (k =? 0)%nat then Some (b64_encode demo_key) else None.
Definition demo_process (k : nat) (m : string) : list Import * bool :=
  @listen_message ascii_case demo_gcm demo_wire_X demo_codec unit (fun _ => Ok demo_source) (burned_after_first k) "http://mercury" (broken_then_well k)
    (demo_mapping "people") 100 "u" m false.
Lemma encrypted_message_one_chance_witness :
  is_ok (@read_message demo_gcm demo_wire_X demo_codec unit (fun _ => Ok demo_source) (burned_after_first 0) "http://mercury" demo_blob) = true
  /\ rabbit_loop demo_process cons 50 0 [demo_blob] = ([], [demo_blob]).
Proof.
  split; [vm_compute; reflexivity|].
  apply (@encrypted_message_one_chance ascii_case demo_gcm demo_wire_X demo_codec unit (fun _ => Ok demo_source) "http://mercury" broken_then_well burned_after_first
    (demo_mapping "people") 100 "u" demo_blob 50); [vm_compute; reflexivity|reflexivity|vm_compute; reflexivity].
Defined.
