(* ===== verification/IncrementalSync.v ===== *)
(** * IncrementalSync: exporting what changed since the last time (src/pkg/sync, cmd/tdtpcli/commands/sync.go)

    The configuration (config.go), the state file with the last value of each table (state.go) and the
    command that exports the rows beyond it (sync.go).  The JSON of the state file, the adapter that runs
    the query, the processors and the file system are parameters.  The theorems follow the checkpoint: what
    survives a restart, which rows a series of runs exports over an adapter that answers the query as it is
    meant, and where the checkpoint goes wrong.  What the adapters of the repository make of the query is in
    AdapterExport: they refuse its condition. *)

From Stdlib Require Import ZArith Lia Ascii String Sorting.Sorted.
From stdpp Require Import base gmap list strings.
From S2P Require Import Prelude Strconv PacketTypes RowCodec PacketOps SpecialValuesV131 PacketGenerator Retry.

Open Scope Z_scope.

(** ** config.go *)

Definition SyncModeFull : string := "full".
Definition SyncModeIncremental : string := "incremental".
Definition TrackingTimestamp : string := "timestamp".
Definition TrackingSequence : string := "sequence".
Definition TrackingVersion : string := "version".

Record IncrementalConfig := MkIncrementalConfig {
  ic_Enabled : bool; ic_Mode : string; ic_Strategy : string; ic_TrackingField : string; ic_StateFile : string;
  ic_BatchSize : Z; ic_InitialValue : string; ic_OrderBy : string;
}.

Inductive sync_error :=
| InvalidMode | NoTrackingField | InvalidStrategy | InvalidOrderBy
| StateUnreadable | StateCorrupt | StateNotWritten
| ExportFailed (e : string) | ProcessorFailed | NoPackets | TrackingFieldMissing | NoTrackingValues | OutputFailed.

Definition or_default (s d : string) : string := if String.eqb s "" then d else s.
(** The configuration as [Validate] leaves it. *)
Definition IncrementalConfig_Validate (c : IncrementalConfig) : result sync_error IncrementalConfig :=
  if negb (ic_Enabled c) then Ok c
  else
    fail_if negb (String.eqb (ic_Mode c) SyncModeFull) && negb (String.eqb (ic_Mode c) SyncModeIncremental) with InvalidMode ;;
    fail_if String.eqb (ic_TrackingField c) "" with NoTrackingField ;;
    let strategy := or_default (ic_Strategy c) TrackingTimestamp in
    fail_if negb (existsb (String.eqb strategy) [TrackingTimestamp; TrackingSequence; TrackingVersion]) with InvalidStrategy ;;
    let orderBy := or_default (ic_OrderBy c) "ASC" in
    fail_if negb (existsb (String.eqb orderBy) ["ASC"; "DESC"]) with InvalidOrderBy ;;
    Ok (MkIncrementalConfig true (ic_Mode c) strategy (ic_TrackingField c) (or_default (ic_StateFile c) "./sync_state.json") (ic_BatchSize c)
          (ic_InitialValue c) orderBy).
Definition DefaultIncrementalConfig : IncrementalConfig :=
  MkIncrementalConfig false SyncModeFull TrackingTimestamp "updated_at" "./sync_state.json" 10000 "" "ASC".
Definition EnableIncrementalSync (trackingField : string) : IncrementalConfig :=
  let c := DefaultIncrementalConfig in
  MkIncrementalConfig true SyncModeIncremental (ic_Strategy c) trackingField (ic_StateFile c) (ic_BatchSize c) (ic_InitialValue c) (ic_OrderBy c).

(** ** state.go *)

Record SyncState := MkSyncState {
  ss_TableName : string; ss_LastSyncValue : string; ss_LastSyncTime : Z; ss_RecordsExported : Z; ss_LastError : string;
}.
Record StateManager := MkStateManager { sm_states : gmap string SyncState; sm_autoSave : bool }.

(** [encoding/json] on the states.  It writes and reads texts of valid UTF-8, replacing what is not: states under valid names with valid
    values come back as they were, the text of an error as valid UTF-8, and what is read has valid names and values. *)
Class StateJson := { states_marshal : gmap string SyncState -> string; states_unmarshal : string -> option (gmap string SyncState) }.
Definition plain_state (t : string) (s : SyncState) : Prop :=
  utf8_text t = true /\ utf8_text (ss_TableName s) = true /\ utf8_text (ss_LastSyncValue s) = true.
Definition written_state (s : SyncState) : SyncState :=
  MkSyncState (ss_TableName s) (ss_LastSyncValue s) (ss_LastSyncTime s) (ss_RecordsExported s) (ToValidUTF8 (ss_LastError s)).
Class StateJsonLaws (J : StateJson) : Prop := {
  states_roundtrip m : map_Forall plain_state m -> states_unmarshal (states_marshal m) = Some (written_state <$> m);
  states_read data m : states_unmarshal data = Some m -> map_Forall plain_state m;
}.

Section States.
  Context {J : StateJson}.

(** A file with its content, if there is one; [readable] says whether it can be read. *)
Definition StateManager_Load (readable : bool) (data : string) (sm : StateManager) : result sync_error StateManager :=
  if negb readable then Err StateUnreadable
  else match states_unmarshal data with Some states => Ok (MkStateManager states (sm_autoSave sm)) | None => Err StateCorrupt end.
Definition NewStateManager (readable : bool) (file : option string) (autoSave : bool) : result sync_error StateManager :=
  let sm := MkStateManager ∅ autoSave in
  match file with Some data => StateManager_Load readable data sm | None => Ok sm end.

Definition GetState (sm : StateManager) (tableName : string) : SyncState :=
  default (MkSyncState tableName "" 0 0 "") (sm_states sm !! tableName).

Definition StateManager_saveUnsafe (w : WriteOutcome) (sm : StateManager) (file : option string) : option string * result sync_error unit :=
  match w with Written => (Some (states_marshal (sm_states sm)), Ok ()) | WriteFailed rest => (rest, Err StateNotWritten) end.
Definition save_if_auto (w : WriteOutcome) (sm : StateManager) (file : option string) : StateManager * option string * result sync_error unit :=
  if sm_autoSave sm then let '(file', r) := StateManager_saveUnsafe w sm file in (sm, file', r) else (sm, file, Ok ()).

Definition UpdateState (w : WriteOutcome) (now : Z) (tableName lastSyncValue : string) (recordsExported : Z) (sm : StateManager) (file : option string)
    : StateManager * option string * result sync_error unit :=
  save_if_auto w (MkStateManager (<[tableName := MkSyncState tableName lastSyncValue now recordsExported ""]> (sm_states sm)) (sm_autoSave sm)) file.
Definition UpdateStateWithError (w : WriteOutcome) (now : Z) (tableName err : string) (sm : StateManager) (file : option string)
    : StateManager * option string * result sync_error unit :=
  let s := GetState sm tableName in
  save_if_auto w (MkStateManager (<[tableName := MkSyncState (ss_TableName s) (ss_LastSyncValue s) now (ss_RecordsExported s) err]> (sm_states sm)) (sm_autoSave sm)) file.
Definition StateManager_Reset (w : WriteOutcome) (tableName : string) (sm : StateManager) (file : option string) :=
  save_if_auto w (MkStateManager (delete tableName (sm_states sm)) (sm_autoSave sm)) file.
Definition ResetAll (w : WriteOutcome) (sm : StateManager) (file : option string) :=
  save_if_auto w (MkStateManager ∅ (sm_autoSave sm)) file.
Definition StateManager_Save (w : WriteOutcome) (sm : StateManager) (file : option string) : option string * result sync_error unit := StateManager_saveUnsafe w sm file.
End States.

(** ** sync.go *)

Definition buildIncrementalQuery (trackingField lastSyncValue : string) (batchSize : Z) : Query :=
  let q := NewQuery in
  MkQuery (q_Language q) (q_Version q) (q_Fields q)
    (if String.eqb lastSyncValue "" then None
     else Some (MkFilters (Some (MkLogicalGroup [MkFilter trackingField ">" lastSyncValue ""] [] [])) None))
    (Some (MkOrderBy trackingField "ASC" []))
    (if 0 <? batchSize then batchSize else q_Limit q) (q_Offset q).

(** The position of a field of that name. *)
Fixpoint tracking_index (name : string) (i : nat) (fields : list Field) : option nat :=
  match fields with
  | [] => None
  | f :: fields => if String.eqb (f_Name f) name then Some i else tracking_index name (S i) fields
  end.
Definition larger (maxValue value : string) : string := if str_ltb maxValue value then value else maxValue.
Definition max_of_row (i : nat) (maxValue : string) (row : Row) : string :=
  match Split (r_Value row) PIPE !! i with Some value => larger maxValue value | None => maxValue end.
Fixpoint extract_loop (trackingField maxValue : string) (packets : list DataPacket) : result sync_error string :=
  match packets with
  | [] => Ok maxValue
  | pkt :: packets =>
      match tracking_index trackingField 0 (s_Fields (p_Schema pkt)) with
      | None => Err TrackingFieldMissing
      | Some i => extract_loop trackingField (fold_left (max_of_row i) (d_Rows (p_Data pkt)) maxValue) packets
      end
  end.
Definition extractLastSyncValue (packets : list DataPacket) (trackingField : string) : result sync_error string :=
  fail_if (length packets =? 0)%nat with NoPackets ;;
  maxValue ← extract_loop trackingField "" packets;
  fail_if String.eqb maxValue "" with NoTrackingValues ;;
  Ok maxValue.

Record SyncOptions := MkSyncOptions { so_TableName : string; so_TrackingField : string; so_BatchSize : Z; so_Fields : list string }.

(** What the command meets: the adapter's answer, the processors on a packet, the files it writes, the state file. *)
Record SyncWorld := MkSyncWorld {
  sw_readable : bool; sw_export : Query -> result string (list DataPacket); sw_process : DataPacket -> option DataPacket;
  sw_output : DataPacket -> bool; sw_save : WriteOutcome; sw_now : Z;
}.

Fixpoint run_processors (process : DataPacket -> option DataPacket) (pkts : list DataPacket) : option (list DataPacket) :=
  match pkts with
  | [] => Some []
  | p :: pkts => p' ← process p; pkts' ← run_processors process pkts; Some (p' :: pkts')
  end.

(** The files, one for a packet, up to the first that cannot be written. *)
Fixpoint write_packets (output : DataPacket -> bool) (pkts : list DataPacket) : list DataPacket * bool :=
  match pkts with
  | [] => ([], true)
  | p :: pkts => if output p then let '(done, ok) := write_packets output pkts in (p :: done, ok) else ([], false)
  end.

Section Command.
  Context {J : StateJson} {C : GoCase}.

Definition sync_query (opts : SyncOptions) (lastSyncValue : string) : Query :=
  let q := buildIncrementalQuery (so_TrackingField opts) lastSyncValue (so_BatchSize opts) in
  match so_Fields opts with
  | [] => q
  | fields =>
      let fields := if existsb (fun f => EqualFold f (so_TrackingField opts)) fields then fields else fields ++ [so_TrackingField opts] in
      MkQuery (q_Language q) (q_Version q) fields (q_Filters q) (q_OrderBy q) (q_Limit q) (q_Offset q)
  end.

(** The state file after the command, the packets that were written and the result. *)
Definition IncrementalSync (w : SyncWorld) (opts : SyncOptions) (file : option string) : option string * list DataPacket * result sync_error unit :=
  match NewStateManager (sw_readable w) file true with
  | Err e => (file, [], Err e)
  | Ok sm =>
      match sw_export w (sync_query opts (ss_LastSyncValue (GetState sm (so_TableName opts)))) with
      | Err e => let '(_, file', _) := UpdateStateWithError (sw_save w) (sw_now w) (so_TableName opts) e sm file in (file', [], Err (ExportFailed e))
      | Ok packets =>
          if (length packets =? 0)%nat then (file, [], Ok ())
          else
            let totalRows := Z.of_nat (length (concat (map (fun p => d_Rows (p_Data p)) packets))) in
            match run_processors (sw_process w) packets with
            | None => (file, [], Err ProcessorFailed)
            | Some packets =>
                match extractLastSyncValue packets (so_TrackingField opts) with
                | Err e => (file, [], Err e)
                | Ok newLastSyncValue =>
                    let '(written, ok) := write_packets (sw_output w) packets in
                    if negb ok then (file, written, Err OutputFailed)
                    else
                      let '(_, file', _) := UpdateState (sw_save w) (sw_now w) (so_TableName opts) newLastSyncValue totalRows sm file in
                      (file', written, Ok ())
                end
            end
      end
  end.
End Command.

(** ** The state file *)

Section StateFacts.
  Context {J : StateJson} {L : StateJsonLaws J}.

Inductive state_op := OpUpdate (now : Z) (table value : string) (records : Z) | OpError (now : Z) (table err : string) | OpReset (table : string) | OpResetAll.
Definition state_step (s : StateManager * option string) (op : state_op) : StateManager * option string :=
  match op with
  | OpUpdate now t v n => (UpdateState Written now t v n s.1 s.2).1
  | OpError now t e => (UpdateStateWithError Written now t e s.1 s.2).1
  | OpReset t => (StateManager_Reset Written t s.1 s.2).1
  | OpResetAll => (ResetAll Written s.1 s.2).1
  end.

Lemma opened_plain (file : option string) (autoSave : bool) (sm : StateManager) :
  NewStateManager true file autoSave = Ok sm -> map_Forall plain_state (sm_states sm).
Proof.
  destruct file as [d|]; cbn; [unfold StateManager_Load; cbn|by intros [= <-]].
  destruct (states_unmarshal d) as [m|] eqn:E; [|done]. intros [= <-]. by eapply states_read.
Qed.
Lemma reopen_written (m : gmap string SyncState) (autoSave : bool) :
  map_Forall plain_state m -> NewStateManager true (Some (states_marshal m)) autoSave = Ok (MkStateManager (written_state <$> m) autoSave).
Proof. intros H. cbn. unfold StateManager_Load. cbn. by rewrite states_roundtrip. Qed.
Lemma GetState_written (m : gmap string SyncState) (a b : bool) (t : string) :
  ss_LastSyncValue (GetState (MkStateManager (written_state <$> m) a) t) = ss_LastSyncValue (GetState (MkStateManager m b) t).
Proof. unfold GetState. cbn. rewrite lookup_fmap. by destruct (m !! t). Qed.

(** The texts an operation brings are valid UTF-8. *)
Definition op_plain (op : state_op) : Prop :=
  match op with OpUpdate _ t v _ => utf8_text t = true /\ utf8_text v = true | OpError _ t e => utf8_text t = true /\ utf8_text e = true | _ => True end.
(** Nothing is changed by writing the states. *)
Definition settled (m : gmap string SyncState) : Prop := map_Forall plain_state m /\ written_state <$> m = m.

Lemma settled_insert (m : gmap string SyncState) (t : string) (s : SyncState) :
  settled m -> plain_state t s -> utf8_text (ss_LastError s) = true -> settled (<[t := s]> m).
Proof.
  intros [Hp Hw] Hs He. split; [by apply map_Forall_insert_2|]. rewrite fmap_insert, Hw. f_equal.
  destruct s. unfold written_state. cbn [ss_TableName ss_LastSyncValue ss_LastSyncTime ss_RecordsExported ss_LastError] in *. by rewrite (proj1 (utf8_text_eq _) He).
Qed.
Lemma settled_delete (m : gmap string SyncState) (t : string) : settled m -> settled (delete t m).
Proof. intros [Hp Hw]. split; [by apply map_Forall_delete|]. by rewrite fmap_delete, Hw. Qed.

Lemma step_saves (s : StateManager * option string) (op : state_op) :
  settled (sm_states s.1) -> op_plain op ->
  exists sm, sm_autoSave sm = sm_autoSave s.1 /\ state_step s op = (save_if_auto Written sm s.2).1 /\ settled (sm_states sm).
Proof.
  intros Hs Ho. destruct op as [now t v n|now t e|t|]; eexists (MkStateManager _ _); (split; [|split; [reflexivity|]]); try done; cbn [sm_states].
  - apply settled_insert; [done|by split_and!; apply Ho|done].
  - destruct Ho as [Ht He]. apply settled_insert; [done| |done]. unfold GetState. destruct (sm_states s.1 !! t) as [st|] eqn:E; cbn; [|by split_and!].
    destruct Hs as [Hp _]. by destruct (Hp _ _ E) as (_ & ? & ?).
  - by apply settled_delete.
Qed.

(** What a manager that saves its changes knows is what a manager opened later on its file knows, the texts being valid UTF-8; an error is
    kept beside the last value of the table and does not change it, and an update removes it. *)
Theorem state_survives_restart (sm : StateManager) (ops : list state_op) :
  settled (sm_states sm) -> sm_autoSave sm = true -> Forall op_plain ops -> ops <> [] -> forall file : option string,
  let '(sm', file') := fold_left state_step ops (sm, file) in
  NewStateManager true file' true = Ok sm'
  /\ (forall now t e, ss_LastSyncValue (GetState (state_step (sm', file') (OpError now t e)).1 t) = ss_LastSyncValue (GetState sm' t))
  /\ (forall now t v n, GetState (state_step (sm', file') (OpUpdate now t v n)).1 t = MkSyncState t v now n "").
Proof.
  intros Hs Ha Hops Hne file.
  assert (Hrun : forall ops sm0 f0, settled (sm_states sm0) -> sm_autoSave sm0 = true -> Forall op_plain ops ->
    ops <> [] \/ NewStateManager true f0 true = Ok sm0 ->
    let '(sm', f') := fold_left state_step ops (sm0, f0) in NewStateManager true f' true = Ok sm' /\ sm_autoSave sm' = true).
  { clear Hs Ha Hops Hne file sm ops. induction ops as [|op ops IH]; intros sm0 f0 Hs Ha Hops Hor; [by destruct Hor|]. apply Forall_cons in Hops as [Hop Hops].
    cbn [fold_left]. destruct (step_saves (sm0, f0) op Hs Hop) as (sm2 & Ha2 & E2 & Hs2). cbn [fst snd] in *. rewrite E2.
    unfold save_if_auto. rewrite Ha2, Ha. cbn. apply IH; [done|congruence|done|]. right. rewrite reopen_written by apply Hs2.
    destruct sm2 as [m a]. cbn in *. rewrite (proj2 Hs2). congruence. }
  specialize (Hrun ops sm file Hs Ha Hops (or_introl Hne)). destruct (fold_left state_step ops (sm, file)) as [sm' file']. destruct Hrun as [Hrun Ha'].
  split_and!; [done| |].
  - intros now t e. cbn. unfold UpdateStateWithError, save_if_auto. cbn. rewrite Ha'. unfold GetState. cbn. by rewrite lookup_insert_eq.
  - intros now t v n. cbn. unfold UpdateState, save_if_auto. cbn. rewrite Ha'. unfold GetState. cbn. by rewrite lookup_insert_eq.
Qed.
End StateFacts.

(** ** The last value of the packets *)

Lemma ltb_trans (a b c : string) : str_ltb a b = true -> str_ltb b c = true -> str_ltb a c = true.
Proof.
  unfold str_ltb. destruct (str_compare a b) eqn:E1, (str_compare b c) eqn:E2; try done. by rewrite (str_compare_lt_trans _ _ _ E1 E2).
Qed.
Lemma ltb_irrefl (a : string) : str_ltb a a = false.
Proof. unfold str_ltb. by rewrite str_compare_refl. Qed.
Lemma ltb_asym (a b : string) : str_ltb a b = true -> str_ltb b a = false.
Proof. intros H. destruct (str_ltb b a) eqn:E; [|done]. pose proof (ltb_trans _ _ _ H E) as H'. by rewrite ltb_irrefl in H'. Qed.
Lemma ltb_total (a b : string) : str_ltb a b = false -> str_ltb b a = false -> a = b.
Proof. unfold str_ltb. rewrite (str_compare_antisym a b). destruct (str_compare a b) eqn:E; try done. intros _ _. by apply str_compare_eq. Qed.

(** The cells of a column. *)
Definition column (i : nat) (rows : list (list string)) : list string := omap (.!! i) rows.
Definition plain_row (row : list string) : Prop := row <> [] /\ Forall (fun c => hasSpecial c = false) row.

Lemma plain_no_pipe (c : string) : hasSpecial c = false -> has_byte PIPE c = false.
Proof.
  induction c as [|a c IH]; [done|]. cbn [hasSpecial has_byte]. intros H. destruct (Ascii.eqb a PIPE) eqn:E.
  - apply Ascii.eqb_eq in E as ->. done.
  - cbn. apply IH. destruct a as [[] [] [] [] [] [] [] []]; cbn in H; done.
Qed.
Lemma plain_row_split (mask : list bool) (row : list string) : plain_row row -> Split (joinRowMasked_loop 0 mask row "") PIPE = row.
Proof.
  intros [Hne Hp]. assert (Hc : forall j, clean_row j mask row = true).
  { clear Hne. induction Hp as [|c row Hc Hp IH]; intros j; [done|]. cbn [clean_row]. rewrite Hc, IH. by destruct (mask !! j) as [[]|]. }
  rewrite joinRowMasked_clean by done. change (joinRow_loop 0 row "") with (JoinRowEscaped row). rewrite JoinRowEscaped_Join.
  rewrite (map_ext_in _ id); [|intros c Hin; apply escape_bytes_plain; rewrite List.Forall_forall in Hp; by apply Hp]. rewrite map_id.
  apply Split_Join; [done|]. eapply Forall_impl; [exact Hp|]. intros c. apply plain_no_pipe.
Qed.
Lemma max_of_part (i : nat) (mask : list bool) (part : list (list string)) (m : string) :
  Forall plain_row part -> fold_left (max_of_row i) (d_Rows (rowsToDataMasked part mask)) m = fold_left larger (column i part) m.
Proof.
  intros Hp. unfold rowsToDataMasked. cbn [d_Rows set_d_Rows]. revert m; induction Hp as [|row part Hr Hp IH]; intros m; [done|].
  cbn [map fold_left column omap list_omap]. unfold max_of_row at 2. cbn [r_Value]. rewrite plain_row_split by done. rewrite IH.
  destruct (row !! i); done.
Qed.
Lemma column_app (i : nat) (a b : list (list string)) : column i (a ++ b) = column i a ++ column i b.
Proof. apply omap_app. Qed.

Section Extract.
  Context {C : GoCase}.

(** What is extracted from the packets of a response whose cells need no escaping: the largest cell of the column in byte order. *)
Lemma extract_generated (w : World) (g : Generator) (t inReplyTo sender recipient tf : string) (schema schema' : Schema) (rows rows' : list (list string))
    (qc : option QueryContext) (i : nat) :
  detect_if g rows schema = (rows', schema') -> Forall plain_row rows' -> tracking_index tf 0 (s_Fields schema') = Some i ->
  extractLastSyncValue (GenerateResponse w g t inReplyTo schema rows qc sender recipient) tf
  = let m := fold_left larger (column i rows') "" in if String.eqb m "" then Err NoTrackingValues else Ok m.
Proof.
  intros Hd Hp Hi. unfold extractLastSyncValue, GenerateResponse. rewrite Hd.
  destruct (partitionRows_correct g rows') as (Hc & Hne & _ & _).
  set (mk := fun i partition => response_part w (S i) t (generateMessageID w 0 TypeResponse) inReplyTo sender recipient qc schema' (length (partitionRows g rows')) i partition).
  assert (Hloop : forall parts k m, Forall (Forall plain_row) parts ->
    extract_loop tf m (imap (fun j => mk (k + j)%nat) parts) = Ok (fold_left larger (column i (concat parts)) m)).
  { induction parts as [|part parts IH]; intros k m HP; [done|]. apply Forall_cons in HP as [H1 H2]. cbn [imap extract_loop concat].
    change (p_Schema (mk (k + 0)%nat part)) with schema'. rewrite Hi. change (p_Data (mk (k + 0)%nat part)) with (rowsToDataMasked part (buildEscapeMask schema')).
    rewrite max_of_part by done. rewrite column_app, fold_left_app.
    rewrite <- (IH (S k) _ H2). f_equal. apply imap_ext. intros j x _. cbn. by rewrite Nat.add_succ_r. }
  destruct (partitionRows g rows') as [|part parts] eqn:Ep; [done|].
  rewrite (imap_ext _ (fun j => mk (0 + j)%nat)) by done.
  assert (HP : Forall (Forall plain_row) (part :: parts)).
  { rewrite Forall_forall. intros x Hx. rewrite <- Hc in Hp. by eapply Forall_part. }
  rewrite length_imap. cbn [length Nat.eqb]. rewrite (Hloop _ 0%nat "" HP), Hc. done.
Qed.
End Extract.

(** ** A series of runs *)

Section History.
  Context {J : StateJson} {L : StateJsonLaws J} {C : GoCase}.
  Context (opts : SyncOptions) (g : Generator) (schema : Schema) (i : nat).
  Hypothesis tracking_column : tracking_index (so_TrackingField opts) 0 (s_Fields schema) = Some i.
  Hypothesis table_name : utf8_text (so_TableName opts) = true.

Definition key (row : list string) : string := default "" (row !! i).
Definition beyond (last : string) (row : list string) : bool := String.eqb last "" || str_ltb last (key row).
(** The rows the query of [buildIncrementalQuery] is meant to ask for, of a table listed in the order of the tracking column. *)
Definition select (batch : Z) (last : string) (table : list (list string)) : list (list string) :=
  let rest := List.filter (beyond last) table in if 0 <? batch then take (Z.to_nat batch) rest else rest.

(** A table in the byte order of its tracking column, which has no value twice, is never empty or NULL and is valid UTF-8; no cell needs
    escaping or a marker. *)
Record table_ok (T : list (list string)) : Prop := {
  to_sorted : StronglySorted (fun a b => str_ltb (key a) (key b) = true) T;
  to_key r : r ∈ T -> key r <> "";
  to_utf8 r : r ∈ T -> utf8_text (key r) = true;
  to_plain r : r ∈ T -> plain_row r;
  to_markers rows : (forall r, r ∈ rows -> r ∈ T) -> detect_if g rows schema = (rows, schema);
}.
(** The adapter answers with the rows the query is meant to ask for; no processor changes them; the files and the state can be written. *)
Record answers (T : list (list string)) (w : SyncWorld) : Prop := {
  an_export last : exists W inReplyTo qc sender recipient,
    sw_export w (sync_query opts last) = Ok (GenerateResponse W g (so_TableName opts) inReplyTo schema (select (so_BatchSize opts) last T) qc sender recipient);
  an_process p : sw_process w p = Some p;
  an_output p : sw_output w p = true;
  an_save : sw_save w = Written;
  an_readable : sw_readable w = true;
}.
Definition checkpoint (file : option string) : string :=
  match NewStateManager true file true with Ok sm => ss_LastSyncValue (GetState sm (so_TableName opts)) | Err _ => "" end.

Lemma select_sub (b : Z) (c : string) (T : list (list string)) (r : list string) : r ∈ select b c T -> r ∈ T.
Proof.
  unfold select. intros H. assert (r ∈ List.filter (beyond c) T) as (H' & _)%list_elem_of_In%filter_In; [|by apply list_elem_of_In].
  destruct (0 <? b); [|done]. by apply subseteq_take in H.
Qed.
Lemma column_keys (rows : list (list string)) : (forall r, r ∈ rows -> key r <> "") -> column i rows = map key rows.
Proof.
  induction rows as [|r rows IH]; intros H; [done|]. cbn [column omap list_omap map]. rewrite <- IH by (intros x Hx; apply H; by right).
  specialize (H r ltac:(by left)). unfold key in *. by destruct (r !! i).
Qed.
Lemma larger_last (rows : list (list string)) (r : list string) (m : string) :
  StronglySorted (fun a b => str_ltb (key a) (key b) = true) (rows ++ [r]) -> (forall x, x ∈ rows ++ [r] -> str_ltb m (key x) = true) ->
  fold_left larger (map key (rows ++ [r])) m = key r.
Proof.
  revert m; induction rows as [|x rows IH]; intros m Hs Hm; cbn [map app fold_left].
  - unfold larger. by rewrite (Hm r ltac:(by left)).
  - inversion Hs as [|? ? Hs' Hx]; subst. apply IH; [done|]. intros y Hy. unfold larger. rewrite (Hm x ltac:(by left)).
    rewrite List.Forall_forall in Hx. by apply Hx, list_elem_of_In.
Qed.
Lemma process_all (process : DataPacket -> option DataPacket) (pkts : list DataPacket) :
  (forall p, process p = Some p) -> run_processors process pkts = Some pkts.
Proof. intros H. induction pkts as [|p pkts IH]; [done|]. cbn. by rewrite H; cbn; rewrite IH. Qed.
Lemma write_all (output : DataPacket -> bool) (pkts : list DataPacket) : (forall p, output p = true) -> write_packets output pkts = (pkts, true).
Proof. intros H. induction pkts as [|p pkts IH]; [done|]. cbn. by rewrite H, IH. Qed.
Lemma response_rows (W : World) (t inReplyTo sender recipient : string) (rows : list (list string)) (qc : option QueryContext) :
  detect_if g rows schema = (rows, schema) -> Forall plain_row rows ->
  concat (map GetRows (GenerateResponse W g t inReplyTo schema rows qc sender recipient)) = rows.
Proof.
  intros Hd Hp. unfold GenerateResponse. rewrite Hd. destruct (partitionRows_correct g rows) as (Hc & _). rewrite (concat_map_imap _ _ id); [by rewrite map_id|].
  intros j part Hin. assert (Forall plain_row part) as HP by (by eapply Forall_part; [rewrite Hc|]). apply response_part_rows.
  - eapply Forall_impl; [exact HP|]. by intros r [? _].
  - eapply Forall_impl; [exact HP|]. intros r [_ Hr]. assert (forall j, clean_row j (buildEscapeMask schema) r = true) as H'; [|apply H'].
    induction Hr as [|c r Hcell Hr IH]; intros n; [done|]. cbn [clean_row]. rewrite Hcell, IH. by destruct (_ !! n) as [[]|].
Qed.

Lemma filter_sorted {A} (R : A -> A -> Prop) (p : A -> bool) (l : list A) : StronglySorted R l -> StronglySorted R (List.filter p l).
Proof.
  induction 1 as [|x l Hs IH Hx]; [constructor|]. cbn [List.filter]. destruct (p x); [|done]. constructor; [done|].
  rewrite List.Forall_forall in *. intros y [Hy _]%filter_In. by apply Hx.
Qed.
Lemma take_sorted {A} (R : A -> A -> Prop) (n : nat) (l : list A) : StronglySorted R l -> StronglySorted R (take n l).
Proof.
  intros Hs. revert n; induction Hs as [|x l Hs IH Hx]; intros [|n]; cbn [take]; try constructor; [done|].
  rewrite List.Forall_forall in *. intros y Hy%list_elem_of_In. apply Hx, list_elem_of_In. by apply subseteq_take in Hy.
Qed.
Lemma select_sorted (b : Z) (c : string) (T : list (list string)) :
  StronglySorted (fun a b => str_ltb (key a) (key b) = true) T -> StronglySorted (fun a b => str_ltb (key a) (key b) = true) (select b c T).
Proof. intros H. unfold select. destruct (0 <? b); [apply take_sorted|]; by apply filter_sorted. Qed.
Lemma opened_autosaves (file : option string) (sm : StateManager) : NewStateManager true file true = Ok sm -> sm_autoSave sm = true.
Proof. destruct file as [d|]; cbn; [unfold StateManager_Load; cbn; destruct (states_unmarshal d); [by intros [= <-]|done]|by intros [= <-]]. Qed.
Lemma update_reopens (sm : StateManager) (file : option string) (now : Z) (t v : string) (n : Z) :
  NewStateManager true file true = Ok sm -> utf8_text t = true -> utf8_text v = true ->
  exists file' sm' sm2, UpdateState Written now t v n sm file = (sm', file', Ok ()) /\ NewStateManager true file' true = Ok sm2
    /\ ss_LastSyncValue (GetState sm2 t) = v.
Proof.
  intros Hsm Ht Hv. unfold UpdateState, save_if_auto. cbn [sm_autoSave]. rewrite (opened_autosaves _ _ Hsm). cbn [StateManager_saveUnsafe].
  eexists _, _, _. split; [done|]. split; [apply reopen_written|].
  - apply map_Forall_insert_2; [by split_and!|]. by eapply opened_plain.
  - cbn [sm_states]. rewrite (GetState_written _ true true). unfold GetState. cbn. by rewrite lookup_insert_eq.
Qed.

(** One run: the next rows, up to the batch, and their last key as the checkpoint; an error if there are none. *)
Lemma sync_round (T : list (list string)) (w : SyncWorld) (file : option string) (sm : StateManager) :
  table_ok T -> answers T w -> NewStateManager true file true = Ok sm ->
  let rows := select (so_BatchSize opts) (checkpoint file) T in
  (rows = [] -> IncrementalSync w opts file = (file, [], Err NoTrackingValues))
  /\ (forall rows0 r, rows = rows0 ++ [r] -> exists file' pkts sm', IncrementalSync w opts file = (file', pkts, Ok ())
       /\ concat (map GetRows pkts) = rows /\ NewStateManager true file' true = Ok sm' /\ checkpoint file' = key r).
Proof.
  intros HT Hw Hsm. cbn zeta. unfold IncrementalSync, checkpoint. rewrite (an_readable _ _ Hw), Hsm.
  set (c := ss_LastSyncValue (GetState sm (so_TableName opts))). destruct (an_export _ _ Hw c) as (W & rep & qc & snd_ & rcp & ->).
  set (rows := select (so_BatchSize opts) c T). set (pkts := GenerateResponse W g _ _ schema rows qc _ _).
  assert (Hsub : forall r, r ∈ rows -> r ∈ T) by apply select_sub.
  assert (Hd : detect_if g rows schema = (rows, schema)) by (by apply (to_markers _ HT)).
  assert (Hp : Forall plain_row rows) by (rewrite Forall_forall; intros r Hr; by apply (to_plain _ HT), Hsub).
  assert (Hlen : (length pkts =? 0)%nat = false).
  { unfold pkts, GenerateResponse. rewrite Hd, length_imap. destruct (partitionRows_correct g rows) as (_ & Hne & _). by destruct (partitionRows g rows). }
  rewrite Hlen, (process_all _ _ (an_process _ _ Hw)), (write_all _ _ (an_output _ _ Hw)), (an_save _ _ Hw).
  assert (Hex : extractLastSyncValue pkts (so_TrackingField opts)
    = let m := fold_left larger (map key rows) "" in if String.eqb m "" then Err NoTrackingValues else Ok m).
  { rewrite <- column_keys by (intros r Hr; by apply (to_key _ HT), Hsub). by apply (extract_generated W g _ rep snd_ rcp _ schema schema rows rows qc i). }
  rewrite !Hex. split.
  - intros E. rewrite E. done.
  - intros rows0 r E. assert (Hk : fold_left larger (map key rows) "" = key r).
    { rewrite E. apply larger_last; rewrite <- E; [by apply select_sorted, HT|]. intros x Hx. apply Hsub, (to_key _ HT) in Hx. by destruct (key x). }
    assert (Hr : key r <> "") by (apply (to_key _ HT), Hsub; rewrite E; set_solver).
    rewrite Hk. cbn zeta. apply String.eqb_neq in Hr. rewrite Hr. cbn [negb].
    assert (Hu : utf8_text (key r) = true) by (apply (to_utf8 _ HT), Hsub; rewrite E; set_solver).
    destruct (update_reopens sm file (sw_now w) (so_TableName opts) (key r) (Z.of_nat (length (concat (map (fun p => d_Rows (p_Data p)) pkts))))
      Hsm table_name Hu) as (file' & sm' & sm2 & -> & Hre & Hv).
    exists file', pkts, sm2. split_and!; [done|by apply response_rows|done|by rewrite Hre].
Qed.

Lemma select_prefix (b : Z) (c : string) (T : list (list string)) : exists rest, List.filter (beyond c) T = select b c T ++ rest.
Proof.
  unfold select. destruct (0 <? b); [|exists []; by rewrite app_nil_r]. exists (drop (Z.to_nat b) (List.filter (beyond c) T)). by rewrite take_drop.
Qed.
Lemma beyond_up (c : string) (a b : list string) : str_ltb (key a) (key b) = true -> beyond c a = true -> beyond c b = true.
Proof. unfold beyond. intros Hab. destruct (String.eqb c ""); [done|]. cbn. intros H. by eapply ltb_trans. Qed.
Lemma sorted_split (c : string) (T : list (list string)) :
  StronglySorted (fun a b => str_ltb (key a) (key b) = true) T ->
  T = List.filter (fun r => negb (beyond c r)) T ++ List.filter (beyond c) T.
Proof.
  induction 1 as [|x T Hs IH Hx]; [done|]. cbn [List.filter]. destruct (beyond c x) eqn:E; cbn [negb].
  - assert (List.filter (fun r => negb (beyond c r)) T = [] /\ List.filter (beyond c) T = T) as [-> ->]; [|done].
    rewrite List.Forall_forall in Hx. clear IH Hs. induction T as [|y T IHT]; [done|]. cbn [List.filter].
    rewrite (beyond_up c x y) by (done || apply Hx; by left). destruct IHT as [-> ->]; [intros z Hz; apply Hx; by right|]. done.
  - cbn [app]. by rewrite IH at 1.
Qed.
(** The rows up to one of a sorted table. *)
Lemma up_to (T lo hi : list (list string)) (r : list string) :
  StronglySorted (fun a b => str_ltb (key a) (key b) = true) T -> key r <> "" -> T = lo ++ r :: hi ->
  List.filter (fun x => negb (beyond (key r) x)) T = lo ++ [r].
Proof.
  intros Hs Hr ->. apply String.eqb_neq in Hr. assert (Hb : forall x, beyond (key r) x = str_ltb (key r) (key x)) by (intros x; unfold beyond; by rewrite Hr).
  induction lo as [|x lo IH]; cbn [app List.filter].
  - rewrite Hb, ltb_irrefl. cbn [negb]. f_equal. inversion Hs as [|? ? _ Hx]; subst. rewrite List.Forall_forall in Hx.
    clear Hs. induction hi as [|y hi IHh]; [done|]. cbn [List.filter]. rewrite Hb, (Hx y) by (by left). cbn [negb]. apply IHh. intros z Hz. apply Hx. by right.
  - inversion Hs as [|? ? Hs' Hx]; subst. rewrite List.Forall_forall in Hx. rewrite Hb, ltb_asym by (apply Hx, in_elt). cbn [negb]. by rewrite IH.
Qed.

(** The tables a database has one after the other: each change leaves the rows up to the checkpoint.  The state file and all that was
    exported. *)
Inductive history : list (list string) -> option string -> list (list string) -> Prop :=
| hist_start T : table_ok T -> history T None []
| hist_round T file exported w file' pkts r :
    history T file exported -> answers T w -> IncrementalSync w opts file = (file', pkts, r) ->
    history T file' (exported ++ concat (map GetRows pkts))
| hist_failure T file exported w e file' pkts r :
    history T file exported -> (forall q, sw_export w q = Err e) -> sw_save w = Written -> sw_readable w = true ->
    IncrementalSync w opts file = (file', pkts, r) -> history T file' (exported ++ concat (map GetRows pkts))
| hist_change T T' file exported :
    history T file exported -> table_ok T' ->
    List.filter (fun x => negb (beyond (checkpoint file) x)) T' = List.filter (fun x => negb (beyond (checkpoint file) x)) T -> history T' file exported.

Lemma history_inv (T : list (list string)) (file : option string) (exported : list (list string)) :
  history T file exported ->
  table_ok T /\ (exists sm, NewStateManager true file true = Ok sm)
  /\ exported = List.filter (fun x => negb (beyond (checkpoint file) x)) T.
Proof.
  induction 1 as [T HT|T file ex w file' pkts r Hh (HT & [sm Hsm] & ->) Hw Hrun|T file ex w e file' pkts r Hh (HT & [sm Hsm] & ->) He Hsave Hread Hrun
    |T T' file ex Hh (HT & Hsm & ->) HT' Heq].
  - split_and!; [done|by eexists|]. change (checkpoint None) with "". symmetry. clear. induction T as [|x T IH]; [done|]. exact IH.
  - destruct (sync_round T w file sm HT Hw Hsm) as [H0 H1]. destruct (select_prefix (so_BatchSize opts) (checkpoint file) T) as [rest Hrest].
    pose proof (select_sub (so_BatchSize opts) (checkpoint file) T) as Hsub.
    destruct (select (so_BatchSize opts) (checkpoint file) T) as [|r0 rows0 _] using rev_ind.
    + rewrite H0 in Hrun by done. injection Hrun as <- <- <-. cbn. rewrite app_nil_r. split_and!; [done|by exists sm|done].
    + destruct (H1 _ _ eq_refl) as (file1 & pkts1 & sm1 & Hr & Hrows & Hsm1 & Hc). rewrite Hr in Hrun. injection Hrun as <- <- <-.
      split_and!; [done|by exists sm1|]. rewrite Hrows, Hc. symmetry. rewrite app_assoc. apply up_to with rest.
      * apply (to_sorted _ HT).
      * apply (to_key _ HT), Hsub. set_solver.
      * etrans; [apply (sorted_split (checkpoint file)), (to_sorted _ HT)|]. by rewrite Hrest, <- !app_assoc.
  - unfold IncrementalSync in Hrun. rewrite Hread, Hsm, He, Hsave in Hrun.
    unfold UpdateStateWithError, save_if_auto in Hrun. cbn [sm_autoSave] in Hrun. rewrite (opened_autosaves _ _ Hsm) in Hrun. cbn in Hrun.
    injection Hrun as <- <- <-. cbn [map concat]. rewrite app_nil_r.
    pose proof (opened_plain _ _ _ Hsm) as Hpl.
    match goal with |- context [Some (states_marshal ?m)] => assert (Hm : map_Forall plain_state m) end.
    { apply map_Forall_insert_2; [|done]. unfold GetState. destruct (sm_states sm !! so_TableName opts) as [st|] eqn:E; cbn; [|by split_and!].
      by destruct (Hpl _ _ E) as (_ & ? & ?). }
    split_and!; [done|eexists; by apply reopen_written|]. unfold checkpoint. rewrite Hsm, (reopen_written _ _ Hm).
    rewrite (GetState_written _ true true). unfold GetState at 2. cbn. by rewrite lookup_insert_eq.
  - split_and!; [done|done|]. by rewrite Heq.
Qed.

(** Over an adapter that answers as meant, runs on a table whose tracking column has no value twice export each row once, in order, with none left out up to the checkpoint,
    through failures of the adapter and changes of the table beyond the checkpoint; and as long as rows are left the next run exports
    the next of them. *)
Theorem sync_exports_exactly_once (T : list (list string)) (file : option string) (exported : list (list string)) :
  history T file exported ->
  exported = List.filter (fun x => negb (beyond (checkpoint file) x)) T
  /\ forall w, answers T w -> let rest := List.filter (beyond (checkpoint file)) T in
     rest <> [] -> exists file' pkts, IncrementalSync w opts file = (file', pkts, Ok ())
       /\ concat (map GetRows pkts) = if 0 <? so_BatchSize opts then take (Z.to_nat (so_BatchSize opts)) rest else rest.
Proof.
  intros (HT & [sm Hsm] & Hex)%history_inv. split; [done|]. intros w Hw. cbn zeta. intros Hne.
  destruct (sync_round T w file sm HT Hw Hsm) as [_ H1]. change (if 0 <? so_BatchSize opts then _ else _) with (select (so_BatchSize opts) (checkpoint file) T).
  assert (Hsel : select (so_BatchSize opts) (checkpoint file) T <> []).
  { unfold select. destruct (Z.ltb_spec 0 (so_BatchSize opts)) as [Hb|]; [|done]. destruct (List.filter (beyond (checkpoint file)) T) as [|x l]; [done|].
    destruct (Z.to_nat (so_BatchSize opts)) eqn:En; [lia|done]. }
  destruct (exists_last Hsel) as (rows0 & r & E). destruct (H1 _ _ E) as (file' & pkts & _ & ? & ? & _). by exists file', pkts.
Qed.

(** A run that finds nothing new fails: an answer without rows is one packet without rows, in which there is no last value. *)
Theorem nothing_new_is_an_error (w : SyncWorld) (W : World) (inReplyTo sender recipient : string) (qc : option QueryContext) (file : option string) (sm : StateManager) :
  sw_readable w = true -> NewStateManager true file true = Ok sm -> (forall p, sw_process w p = Some p) ->
  (forall q, sw_export w q = Ok (GenerateResponse W g (so_TableName opts) inReplyTo schema [] qc sender recipient)) ->
  IncrementalSync w opts file = (file, [], Err NoTrackingValues).
Proof.
  intros Hr Hsm Hp He. unfold IncrementalSync. rewrite Hr, Hsm, He, (process_all _ _ Hp).
  assert (Hd : detect_if g [] schema = ([], schema)) by (unfold detect_if; by destruct (negb _)).
  rewrite (extract_generated W g _ inReplyTo sender recipient _ schema schema [] [] qc i Hd) by (constructor || done). cbn [column omap list_omap fold_left String.eqb].
  unfold GenerateResponse. rewrite Hd. done.
Qed.

(** Rows that share the value a batch ends with are left out for good. *)
Theorem ties_are_lost (A B : list (list string)) (r r' : list string) :
  key r <> "" -> key r' = key r -> so_BatchSize opts = Z.of_nat (S (length A)) ->
  select (so_BatchSize opts) "" (A ++ r :: r' :: B) = A ++ [r]
  /\ forall c b T, str_leb (key r) c = true -> r' ∉ select b c T.
Proof.
  intros Hr Hk Hb. split.
  - unfold select. assert (Hf : forall l, List.filter (beyond "") l = l) by (induction l as [|x l IH]; [done|]; cbn [List.filter]; by rewrite IH).
    rewrite Hf, Hb. destruct (Z.ltb_spec 0 (Z.of_nat (S (length A)))); [|lia]. rewrite Nat2Z.id. rewrite (cons_middle r), app_assoc, take_app_le by (rewrite length_app; cbn; lia).
    rewrite firstn_all2; [done|]. rewrite length_app. cbn. lia.
  - intros c b T Hc Hin. assert (beyond c r' = true) as Hbey.
    { unfold select in Hin. assert (r' ∈ List.filter (beyond c) T) as (_ & ?)%list_elem_of_In%filter_In; [|done].
      destruct (0 <? b); [by apply subseteq_take in Hin|done]. }
    unfold beyond in Hbey. rewrite Hk in Hbey. apply orb_true_iff in Hbey as [->%String.eqb_eq|Hlt]; [by destruct (key r)|].
    unfold str_leb in Hc. unfold str_ltb in Hlt. rewrite str_compare_antisym in Hlt. by destruct (str_compare (key r) c).
Qed.
End History.

(** ** Checkpoints that are not the last value *)

Definition id_and_time : Schema :=
  MkSchema [MkField "name" "TEXT" 0 0 0 false "" "" false false None ""; MkField "updated_at" "TIMESTAMP" 0 0 0 false "UTC" "" false false None ""] None "" "" "".
Definition sent (rows : list (list string)) : list DataPacket :=
  GenerateResponse (C := ascii_case) demo_world NewGenerator "t" "DIRECT" id_and_time rows None "tdtpcli" "".

(** A row whose tracking column is NULL leaves its marker as the checkpoint, and no date or number is beyond it: nothing is exported any
    more.  A pipe in a text column before it makes the checkpoint a piece of that text.  And numbers are compared as texts: 9 is taken
    for larger than 10. *)
Theorem checkpoint_goes_wrong :
  extractLastSyncValue (sent [["ann"; "2024-05-01T10:00:00Z"]; ["bob"; nullSentinel]]) "updated_at" = Ok SpecNullMarker
  /\ (forall d rest, is_ascii_digit d = true -> str_ltb SpecNullMarker (String d rest) = false)
  /\ extractLastSyncValue (sent [["a|zebra"; "2024-05-01T10:00:00Z"]]) "updated_at" = Ok "zebra"
  /\ extractLastSyncValue (sent [["x"; "8"]; ["y"; "9"]; ["z"; "10"]]) "updated_at" = Ok "9".
Proof.
  split_and!; [vm_compute; reflexivity| |vm_compute; reflexivity|vm_compute; reflexivity].
  intros d rest Hd. unfold str_ltb, SpecNullMarker. cbn [str_compare]. destruct d as [[] [] [] [] [] [] [] []]; cbn in Hd; discriminate Hd || reflexivity.
Qed.

(** ** Witnesses *)

Definition state_tuple (s : SyncState) := (ss_TableName s, ss_LastSyncValue s, ss_LastSyncTime s, ss_RecordsExported s, ss_LastError s).
Definition tuple_state (t : string * string * Z * Z * string) : SyncState := let '(a, b, c, d, e) := t in MkSyncState a b c d e.
#[global] Instance plain_state_dec (t : string) (s : SyncState) : Decision (plain_state t s).
Proof. unfold plain_state. apply _. Defined.
Definition demo_state_json : StateJson := {|
  states_marshal m := bits_of (encode (state_tuple <$> m));
  states_unmarshal s :=
    m ← fmap (M := gmap string) tuple_state <$> decode (of_bits s);
    if bool_decide (map_Forall plain_state m) then Some (written_state <$> m) else None;
|}.
Lemma demo_state_json_laws : StateJsonLaws demo_state_json.
Proof.
  split.
  - intros m Hm. cbn [states_unmarshal states_marshal demo_state_json]. rewrite of_bits_of, decode_encode. cbn.
    assert (tuple_state <$> (state_tuple <$> m) = m) as ->; [|by rewrite bool_decide_eq_true_2].
    apply map_eq. intros k. rewrite !lookup_fmap. by destruct (m !! k) as [[]|].
  - intros data m. cbn [states_unmarshal demo_state_json]. destruct (decode _) as [t|]; cbn; [|done]. case_bool_decide as Hm; [|done].
    intros [= <-] k st (st0 & <- & E)%lookup_fmap_Some. exact (Hm k st0 E).
Qed.

Lemma state_survives_restart_witness :
  let '(sm', file') := fold_left (@state_step demo_state_json) [OpUpdate 5 "t" "2024" 3; OpError 6 "t" "timeout"] (MkStateManager ∅ true, None) in
  @NewStateManager demo_state_json true file' true = Ok sm'.
Proof.
  pose proof (@state_survives_restart demo_state_json demo_state_json_laws (MkStateManager ∅ true) [OpUpdate 5 "t" "2024" 3; OpError 6 "t" "timeout"]
    (conj (map_Forall_empty _) (fmap_empty _)) eq_refl ltac:(repeat constructor) ltac:(done) None) as H.
  destruct (fold_left _ _ _) as [sm' file']. apply H.
Defined.

Definition fast : Generator := SetSkipSpecialValues true NewGenerator.
Definition demo_opts : SyncOptions := MkSyncOptions "t" "updated_at" 1 [].
Definition demo_table : list (list string) := [["ann"; "2024-05-01"]; ["bob"; "2024-05-02"]].
Definition demo_sync_world (rows : list (list string)) : SyncWorld :=
  MkSyncWorld true
    (fun q => Ok (GenerateResponse (C := ascii_case) demo_world fast "t" "DIRECT" id_and_time
       (select 1 1 (match q_Filters q with Some (MkFilters (Some (MkLogicalGroup [f] _ _)) _) => fl_Value f | _ => "" end) rows) None "tdtpcli" ""))
    Some (fun _ => true) Written 7.
Lemma demo_table_ok : @table_ok ascii_case fast id_and_time 1 demo_table.
Proof.
  split.
  - repeat constructor.
  - intros r Hr. unfold demo_table in Hr. rewrite !elem_of_cons, elem_of_nil in Hr. destruct Hr as [->|[->|[]]]; discriminate.
  - intros r Hr. unfold demo_table in Hr. rewrite !elem_of_cons, elem_of_nil in Hr. destruct Hr as [->|[->|[]]]; reflexivity.
  - intros r Hr. unfold demo_table in Hr. rewrite !elem_of_cons, elem_of_nil in Hr. destruct Hr as [->|[->|[]]]; (split; [discriminate|repeat constructor]).
  - done.
Qed.
Lemma demo_answers : @answers ascii_case demo_opts fast id_and_time 1 demo_table (demo_sync_world demo_table).
Proof.
  split; try done. intros last. exists demo_world, "DIRECT", None, "tdtpcli", "". cbn [sw_export demo_sync_world]. f_equal. f_equal.
  unfold sync_query, demo_opts. cbn [so_Fields so_BatchSize so_TrackingField]. unfold buildIncrementalQuery. cbn [q_Filters].
  destruct (String.eqb_spec last "") as [->|]; done.
Qed.
Definition first_sync := @IncrementalSync demo_state_json ascii_case (demo_sync_world demo_table) demo_opts None.
Lemma surjective_triple {A B D} (x : A * B * D) : x = (x.1.1, x.1.2, x.2).
Proof. by destruct x as [[? ?] ?]. Qed.
Lemma sync_exports_exactly_once_witness :
  @history demo_state_json ascii_case demo_opts fast id_and_time 1 demo_table first_sync.1.1 ([] ++ concat (map GetRows first_sync.1.2))
  /\ concat (map GetRows first_sync.1.2) = [["ann"; "2024-05-01"]]
  /\ exists file' pkts, @IncrementalSync demo_state_json ascii_case (demo_sync_world demo_table) demo_opts first_sync.1.1 = (file', pkts, Ok ()).
Proof.
  assert (Hh : @history demo_state_json ascii_case demo_opts fast id_and_time 1 demo_table first_sync.1.1 ([] ++ concat (map GetRows first_sync.1.2))).
  { eapply hist_round; [apply hist_start, demo_table_ok|apply demo_answers|]. apply surjective_triple. }
  split_and!; [done|vm_compute; reflexivity|].
  destruct (@sync_exports_exactly_once demo_state_json demo_state_json_laws ascii_case demo_opts fast id_and_time 1 eq_refl eq_refl demo_table _ _ Hh) as [_ H].
  destruct (H (demo_sync_world demo_table) demo_answers) as (file' & pkts & ? & _); [vm_compute; discriminate|]. by exists file', pkts.
Defined.

Lemma nothing_new_is_an_error_witness :
  @IncrementalSync demo_state_json ascii_case (demo_sync_world []) demo_opts None = (None, [], Err NoTrackingValues).
Proof.
  apply (@nothing_new_is_an_error demo_state_json ascii_case demo_opts fast id_and_time 1 eq_refl (demo_sync_world []) demo_world "DIRECT" "tdtpcli" "" None None
    (MkStateManager ∅ true)); done.
Defined.
Lemma ties_are_lost_witness :
  select 1 1 "" [["ann"; "2024-05-01"]; ["bob"; "2024-05-01"]] = [["ann"; "2024-05-01"]] /\ ["bob"; "2024-05-01"] ∉ select 1 1 "2024-05-01" [["ann"; "2024-05-01"]; ["bob"; "2024-05-01"]].
Proof.
  destruct (ties_are_lost demo_opts 1 [] [] ["ann"; "2024-05-01"] ["bob"; "2024-05-01"]) as [H1 H2]; [discriminate|done|done|].
  split; [exact H1|]. apply H2. reflexivity.
Defined.
