(* ===== verification/AdapterImport.v ===== *)
(** * AdapterImport: writing packets into a database (src/pkg/adapters/base/import_helper.go)

    The helper the SQL adapters share: direct insertion, and the replacement of a table through a temporary
    one.  The tables are a map and every operation may fail, as a function of its number says: one statement
    that fails changes nothing, and an insertion, which is several, leaves what [ts_partial] says.  The
    transaction of [ImportPackets] is one more operation that can fail: the adapters run their statements
    beside it, on the pool (src/pkg/adapters/sqlite/import.go, [a.db]). *)

From Stdlib Require Import ZArith Lia Ascii String.
From stdpp Require Import base gmap list strings.
From S2P Require Import Prelude PacketTypes RowCodec PacketOps.

Inductive ImportStrategy := StrategyReplace | StrategyIgnore | StrategyFail | StrategyCopy.
Definition is_copy (s : ImportStrategy) : bool := match s with StrategyCopy => true | _ => false end.

(** What the database does with rows: a new table, an insertion that goes through, and what one that fails at
    the n-th operation leaves behind. *)
Class TableStore (T : Type) := {
  ts_create : Schema -> T;
  ts_insert : ImportStrategy -> Schema -> list Row -> T -> T;
  ts_partial : nat -> ImportStrategy -> Schema -> list Row -> T -> T;
}.

(** The tables and the number of operations so far. *)
Record database (T : Type) := MkDatabase { db_tables : gmap string T; db_count : nat }.
Arguments MkDatabase {T}.
Arguments db_tables {T}.
Arguments db_count {T}.

Inductive import_error :=
| WrongType | NoTransaction | CreateFailed | InsertFailed | ExistsFailed | RenameOldFailed | RenameTempFailed | RollbackFailed | CommitFailed.

Definition Op (T A : Type) : Type := database T -> database T * result import_error A.
#[global] Instance op_ret {T} : MRet (Op T) := fun A x d => (d, Ok x).
#[global] Instance op_bind {T} : MBind (Op T) := fun A B f m d => match m d with (d', Ok x) => f x d' | (d', Err e) => (d', Err e) end.

(** An operation whose error is ignored, and what is done before an error is returned. *)
Definition ignore {T} (m : Op T unit) : Op T unit := fun d => ((m d).1, Ok ()).
Definition fail {T A} (e : import_error) : Op T A := fun d => (d, Err e).
Definition on_error {T A} (m : Op T A) (cleanup : import_error -> Op T A) : Op T A := fun d =>
  match m d with (d', Ok x) => (d', Ok x) | (d', Err e) => cleanup e d' end.
Definition after_ignoring {T A} (m : Op T unit) (e : import_error) : Op T A := ignore m ≫= fun _ => fail e.

Section Helper.
  Context {T : Type} `{TableStore T} (fault : nat -> bool) (useTemporaryTables : bool) (stamp : string).

(** *** The adapter's operations *)

Definition tick (d : database T) : database T := MkDatabase (db_tables d) (S (db_count d)).
(** An operation that changes the tables, or fails and does not. *)
Definition change (e : import_error) (f : gmap string T -> option (gmap string T)) : Op T unit := fun d =>
  if fault (db_count d) then (tick d, Err e)
  else match f (db_tables d) with Some m => (MkDatabase m (S (db_count d)), Ok ()) | None => (tick d, Err e) end.

Definition TableExists (name : string) : Op T bool := fun d =>
  if fault (db_count d) then (tick d, Err ExistsFailed) else (tick d, Ok (bool_decide (is_Some (db_tables d !! name)))).
Definition CreateTable (name : string) (sch : Schema) : Op T unit :=
  change CreateFailed (fun m => match m !! name with Some _ => None | None => Some (<[name := ts_create sch]> m) end).
Definition DropTable (name : string) : Op T unit := change RollbackFailed (fun m => Some (delete name m)).
Definition RenameTable (e : import_error) (oldName newName : string) : Op T unit :=
  change e (fun m => match m !! oldName, m !! newName with Some t, None => Some (<[newName := t]> (delete oldName m)) | _, _ => None end).
Definition InsertRows (name : string) (sch : Schema) (rows : list Row) (st : ImportStrategy) : Op T unit := fun d =>
  match db_tables d !! name with
  | None => (tick d, Err InsertFailed)
  | Some t =>
      if fault (db_count d)
      then (MkDatabase (<[name := ts_partial (db_count d) st sch rows t]> (db_tables d)) (S (db_count d)), Err InsertFailed)
      else (MkDatabase (<[name := ts_insert st sch rows t]> (db_tables d)) (S (db_count d)), Ok ())
  end.
(** [BeginTx], [Commit] and [Rollback]. *)
Definition transaction (e : import_error) : Op T unit := change e Some.

(** *** import_helper.go *)

Definition GenerateTempTableName (baseName : string) : string := baseName +:+ "_tmp_" +:+ stamp.
Definition old_name (table : string) : string := table +:+ "_old".

Definition replaceTables (targetTable tempTable : string) : Op T unit :=
  TableExists targetTable ≫= fun exists_ =>
  if exists_ : bool then
    let oldTableName := old_name targetTable in
    RenameTable RenameOldFailed targetTable oldTableName ≫= fun _ =>
    on_error (RenameTable RenameTempFailed tempTable targetTable)
      (fun e => on_error (RenameTable RollbackFailed oldTableName targetTable) (fun _ => fail RollbackFailed) ≫= fun _ => fail e) ≫= fun _ =>
    ignore (DropTable oldTableName)
  else RenameTable RenameTempFailed tempTable targetTable.

Definition importWithTemporaryTable (pkt : DataPacket) (st : ImportStrategy) : Op T unit :=
  let tableName := h_TableName (p_Header pkt) in
  let tempTableName := GenerateTempTableName tableName in
  CreateTable tempTableName (p_Schema pkt) ≫= fun _ =>
  on_error (InsertRows tempTableName (p_Schema pkt) (d_Rows (p_Data pkt)) st) (after_ignoring (DropTable tempTableName)) ≫= fun _ =>
  on_error (replaceTables tableName tempTableName) (after_ignoring (DropTable tempTableName)).

Definition importDirect (tableName : string) (sch : Schema) (rows : list Row) (st : ImportStrategy) : Op T unit :=
  TableExists tableName ≫= fun exists_ =>
  (if exists_ : bool then mret () else CreateTable tableName sch) ≫= fun _ =>
  InsertRows tableName sch rows st.

Definition importable (pkt : DataPacket) : bool := bool_decide (h_Type (p_Header pkt) = TypeReference) || bool_decide (h_Type (p_Header pkt) = TypeResponse).
Definition ImportPacket (pkt : DataPacket) (st : ImportStrategy) : Op T unit :=
  let pkt := MaterializeRows pkt in
  if negb (importable pkt) then fail WrongType
  else if useTemporaryTables && is_copy st then importWithTemporaryTable pkt st
  else importDirect (h_TableName (p_Header pkt)) (p_Schema pkt) (d_Rows (p_Data pkt)) st.

(** The loops of [ImportPackets]: a packet with another schema than the first is left out. *)
Fixpoint insert_all (canonical : Schema) (insert : DataPacket -> Op T unit) (pkts : list DataPacket) : Op T unit :=
  match pkts with
  | [] => mret ()
  | pkt :: pkts => (if SchemaEquals canonical (p_Schema pkt) then insert pkt else mret ()) ≫= fun _ => insert_all canonical insert pkts
  end.
Definition ImportPackets (pkts : list DataPacket) (st : ImportStrategy) : Op T unit :=
  match pkts with
  | [] => mret ()
  | first :: _ =>
      let tableName := h_TableName (p_Header first) in
      let canonical := p_Schema first in
      let pkts := map MaterializeRows pkts in
      transaction NoTransaction ≫= fun _ =>
      on_error
        ((if useTemporaryTables && is_copy st then
            let temp := GenerateTempTableName tableName in
            CreateTable temp canonical ≫= fun _ =>
            insert_all canonical (fun pkt => on_error (InsertRows temp (p_Schema pkt) (d_Rows (p_Data pkt)) st) (after_ignoring (DropTable temp))) pkts ≫= fun _ =>
            on_error (replaceTables tableName temp) (after_ignoring (DropTable temp))
          else insert_all canonical (fun pkt => importDirect tableName (p_Schema pkt) (d_Rows (p_Data pkt)) st) pkts) ≫= fun _ =>
         transaction CommitFailed)
        (after_ignoring (transaction RollbackFailed))
  end.
End Helper.

(** A store that keeps the rows of each table: a failed insertion left its first row. *)
#[global] Instance row_store : TableStore (list Row) := {
  ts_create _ := [];
  ts_insert _ _ rows t := t ++ rows;
  ts_partial _ _ _ rows t := t ++ take 1 rows;
}.
Definition rows_packet (rows : list string) : DataPacket :=
  set_p_Data (RowsToData (map (fun s => [s]) rows)) (NewDataPacket "" 0 TypeReference "users").

(** ** What an import leaves in the database *)

Section Facts.
  Context {T : Type} `{TableStore T} (fault : nat -> bool) (stamp : string).
  Implicit Types (m : gmap string T) (d : database T) (target : string).

Abbreviation temp_name := (GenerateTempTableName stamp).

(** Every table but those of the replacement is as it was. *)
Definition others_unchanged (target : string) (m m' : gmap string T) : Prop :=
  forall n, n <> target -> n <> temp_name target -> n <> old_name target -> m' !! n = m !! n.
(** The target holds [t], and the one it replaced is gone or waits under its old name. *)
Definition replaced (target : string) (t : T) (m m' : gmap string T) : Prop :=
  m' !! target = Some t /\ m' !! temp_name target = None /\ others_unchanged target m m' /\
  (m' !! old_name target = m !! old_name target \/ m !! old_name target = None /\ m' !! old_name target = m !! target).
(** The target is as it was, or it is missing and all of it is under its old name. *)
Definition kept (target : string) (m m' : gmap string T) : Prop :=
  others_unchanged target m m' /\
  (m' !! target = m !! target /\ m' !! old_name target = m !! old_name target \/
   m' !! target = None /\ m !! old_name target = None /\ m' !! old_name target = m !! target).

Lemma import_names (t : string) : temp_name t <> t /\ old_name t <> t /\ temp_name t <> old_name t.
Proof.
  assert (forall x y, t +:+ String x y <> t) as Hlen by (intros x y Hn; induction t as [|c t IH]; [done|by injection Hn]).
  unfold GenerateTempTableName, old_name. split_and!; [apply Hlen|apply Hlen|]. by intros Hn%(inj (String.append t)).
Qed.

(** A changing statement is carried out, or changes nothing. *)
Lemma change_outcome (e : import_error) (f : gmap string T -> option (gmap string T)) d :
  let '(d', r) := change fault e f d in
  match r with Ok _ => f (db_tables d) = Some (db_tables d') | Err e' => e' = e /\ db_tables d' = db_tables d end.
Proof. unfold change. destruct (fault _); [done|]. by destruct (f (db_tables d)) eqn:E. Qed.

Lemma rename_outcome (e : import_error) (a b : string) d :
  let '(d', r) := RenameTable fault e a b d in
  match r with
  | Ok _ => exists t, db_tables d !! a = Some t /\ db_tables d !! b = None /\ db_tables d' = <[b := t]> (delete a (db_tables d))
  | Err e' => e' = e /\ db_tables d' = db_tables d
  end.
Proof.
  pose proof (change_outcome e (fun m => match m !! a, m !! b with Some t, None => Some (<[b := t]> (delete a m)) | _, _ => None end) d) as Hc.
  unfold RenameTable. destruct (change _ _ _ d) as [d' [[]|?]]; [|done].
  repeat case_match; simplify_eq. eauto.
Qed.

Lemma ignored_drop (a : string) d :
  let '(d', r) := ignore (DropTable fault a) d in
  r = Ok () /\ (db_tables d' = db_tables d \/ db_tables d' = delete a (db_tables d)).
Proof.
  pose proof (change_outcome RollbackFailed (fun m => Some (delete a m)) d) as Hc. unfold ignore, DropTable.
  destruct (change _ _ _ d) as [d' [?|?]]; cbn in *; [by simplify_eq; auto|]. destruct Hc; auto.
Qed.

Lemma exists_outcome (a : string) d :
  let '(d', r) := TableExists fault a d in
  db_tables d' = db_tables d /\ match r with Ok b => b = bool_decide (is_Some (db_tables d !! a)) | Err e => e = ExistsFailed end.
Proof. unfold TableExists. by destruct (fault _). Qed.

Ltac lookups :=
  repeat first [rewrite lookup_insert_eq | rewrite lookup_delete_eq | rewrite lookup_insert_ne by congruence | rewrite lookup_delete_ne by congruence].
Ltac next_op H :=
  match goal with
  | |- context [RenameTable fault ?e ?a ?b ?d] => pose proof (rename_outcome e a b d) as H; destruct (RenameTable fault e a b d) as [? [[]|?]]
  | |- context [ignore (DropTable fault ?a) ?d] => pose proof (ignored_drop a d) as H; destruct (ignore (DropTable fault a) d) as [? ?]; destruct H as [-> H]
  end; cbn [fail] in *.

Lemma replaced_rename (target : string) (t : T) (m : gmap string T) :
  m !! temp_name target = Some t -> m !! target = None -> replaced target t m (<[target := t]> (delete (temp_name target) m)).
Proof.
  destruct (import_names target) as (N1 & N2 & N3). intros Ht Hn. split_and!; [by lookups..|intros n ???; by lookups|left; by lookups].
Qed.

Lemma replaced_swap (target : string) (t u : T) (m m' : gmap string T) :
  m !! temp_name target = Some t -> m !! target = Some u -> m !! old_name target = None ->
  let m1 := <[old_name target := u]> (delete target m) in
  let m2 := <[target := t]> (delete (temp_name target) m1) in
  m' = m2 \/ m' = delete (old_name target) m2 -> replaced target t m m'.
Proof.
  destruct (import_names target) as (N1 & N2 & N3). intros Ht Hu Ho m1 m2 [->| ->]; subst m1 m2.
  - split_and!; [by lookups..|intros n ???; by lookups|right; by lookups].
  - split_and!; [by lookups..|intros n ???; by lookups|left; by lookups].
Qed.

(** [replaceTables] replaces the target, or keeps it. *)
Lemma replaceTables_outcome (target : string) (t : T) d :
  db_tables d !! temp_name target = Some t ->
  let '(d', r) := replaceTables fault target (temp_name target) d in
  match r with
  | Ok _ => replaced target t (db_tables d) (db_tables d')
  | Err e => e <> CommitFailed /\ kept target (db_tables d) (db_tables d')
  end.
Proof.
  destruct (import_names target) as (N1 & N2 & N3). intros Ht.
  assert (forall x, kept target x x) as Hk by (split; [done|auto]).
  unfold replaceTables, mbind, op_bind. pose proof (exists_outcome target d) as He.
  destruct (TableExists fault target d) as [d1 [b|?]]; destruct He as [E1 He]; rewrite <- E1 in *; [|by subst].
  case_bool_decide as Hb; subst b.
  - next_op H1; [|by destruct H1 as [-> ->]]. destruct H1 as (u & Hu & Ho & H1). unfold on_error.
    next_op H2.
    + destruct H2 as (t' & Ht' & _ & H2). rewrite H1 in Ht'. revert Ht'. lookups. intros Ht'. simplify_eq.
      next_op H3. rewrite H1 in H2. rewrite H2 in H3. by apply (replaced_swap target t u _ _ Ht Hu Ho).
    + destruct H2 as [-> H2]. next_op H3; [destruct H3 as (u' & Hu' & _ & H3)|destruct H3 as [_ H3]]; (split; [done|]); rewrite H3, H2, H1.
      * rewrite H2, H1 in Hu'. revert Hu'. lookups. intros [= <-]. split; [intros n ???; by lookups|left; by lookups].
      * split; [intros n ???; by lookups|right]. by lookups.
  - rewrite <- not_eq_None_Some in Hb. apply dec_stable in Hb. next_op H1; [|by destruct H1 as [-> ->]].
    destruct H1 as (t' & Ht' & _ & ->). simplify_eq. by apply replaced_rename.
Qed.

(** Only the temporary table differs. *)
Definition same_but (n : string) (m m' : gmap string T) : Prop := forall k, k <> n -> m' !! k = m !! k.

Lemma same_but_refl (n : string) m : same_but n m m.
Proof. done. Qed.
Lemma same_but_trans (n : string) m1 m2 m3 : same_but n m1 m2 -> same_but n m2 m3 -> same_but n m1 m3.
Proof. intros H1 H2 k Hk. rewrite H2 by done. by apply H1. Qed.
Lemma same_but_insert (n : string) (t : T) m : same_but n m (<[n := t]> m).
Proof. intros k Hk. by rewrite lookup_insert_ne by congruence. Qed.
Lemma same_but_delete (n : string) m : same_but n m (delete n m).
Proof. intros k Hk. by rewrite lookup_delete_ne by congruence. Qed.
Hint Resolve same_but_refl same_but_insert same_but_delete : core.

Lemma kept_same_but (target : string) m m1 m2 m' :
  same_but (temp_name target) m m1 -> kept target m1 m2 -> same_but (temp_name target) m2 m' -> kept target m m'.
Proof.
  destruct (import_names target) as (N1 & N2 & N3). intros H1 [Ho Hc] H2.
  unfold kept. rewrite !(H2 target), !(H2 (old_name target)), <- !(H1 target), <- !(H1 (old_name target)) by congruence.
  split; [|done]. intros n ???. rewrite H2, Ho, H1 by done. done.
Qed.
Lemma kept_temp (target : string) m m' : same_but (temp_name target) m m' -> kept target m m'.
Proof. intros Hs. apply (kept_same_but target m m m m'); [done| |done]. split; [done|auto]. Qed.
Lemma replaced_same_but (target : string) (t : T) m m1 m' :
  same_but (temp_name target) m m1 -> replaced target t m1 m' -> replaced target t m m'.
Proof.
  destruct (import_names target) as (N1 & N2 & N3). intros H1 (Ht & Hn & Ho & Hc). unfold replaced.
  rewrite <- !(H1 target), <- !(H1 (old_name target)) by congruence. split_and!; [done..| |done].
  intros n ???. rewrite Ho, H1 by done. done.
Qed.

Lemma InsertRows_outcome (name : string) (sch : Schema) (rows : list Row) (st : ImportStrategy) (t : T) d :
  db_tables d !! name = Some t ->
  let '(d', r) := InsertRows fault name sch rows st d in
  same_but name (db_tables d) (db_tables d') /\
  match r with Ok _ => db_tables d' !! name = Some (ts_insert st sch rows t) | Err e => e = InsertFailed end.
Proof.
  intros Ht. unfold InsertRows. rewrite Ht. destruct (fault _); cbn; split; auto. by rewrite lookup_insert_eq.
Qed.

(** The rows of the packets whose schema is the first one's, in a table. *)
Definition load (st : ImportStrategy) (canonical : Schema) (pkts : list DataPacket) (t : T) : T :=
  fold_left (fun t pkt => ts_insert st (p_Schema pkt) (d_Rows (p_Data pkt)) t) (filter (fun pkt => SchemaEquals canonical (p_Schema pkt)) pkts) t.

Definition insert_temp (temp : string) (st : ImportStrategy) (pkt : DataPacket) : Op T unit :=
  on_error (InsertRows fault temp (p_Schema pkt) (d_Rows (p_Data pkt)) st) (after_ignoring (DropTable fault temp)).

Lemma insert_temp_outcome (temp : string) (st : ImportStrategy) (pkt : DataPacket) (t : T) d :
  db_tables d !! temp = Some t ->
  let '(d', r) := insert_temp temp st pkt d in
  same_but temp (db_tables d) (db_tables d') /\
  match r with Ok _ => db_tables d' !! temp = Some (ts_insert st (p_Schema pkt) (d_Rows (p_Data pkt)) t) | Err e => e = InsertFailed end.
Proof.
  intros Ht. unfold insert_temp, on_error. pose proof (InsertRows_outcome temp (p_Schema pkt) (d_Rows (p_Data pkt)) st t d Ht) as Hi.
  destruct (InsertRows _ _ _ _ _ _) as [d' [[]|e]]; [done|]. destruct Hi as [Hs ->].
  unfold after_ignoring, mbind, op_bind. next_op H1. split; [|done]. by destruct H1 as [->| ->]; eauto using same_but_trans.
Qed.

Lemma insert_all_temp (temp : string) (st : ImportStrategy) (canonical : Schema) (pkts : list DataPacket) (t : T) d :
  db_tables d !! temp = Some t ->
  let '(d', r) := insert_all canonical (insert_temp temp st) pkts d in
  same_but temp (db_tables d) (db_tables d') /\
  match r with Ok _ => db_tables d' !! temp = Some (load st canonical pkts t) | Err e => e = InsertFailed end.
Proof.
  unfold load. revert t d. induction pkts as [|pkt pkts IH]; intros t d Ht; [done|]. cbn [insert_all]. unfold mbind, op_bind.
  destruct (SchemaEquals canonical (p_Schema pkt)) eqn:E.
  - rewrite filter_cons_True by (by rewrite E). cbn [fold_left].
    pose proof (insert_temp_outcome temp st pkt t d Ht) as Hi. destruct (insert_temp _ _ _ _) as [d1 [[]|e]]; [|done].
    destruct Hi as [Hs Hi]. specialize (IH _ d1 Hi). destruct (insert_all _ _ _ _) as [d2 r]. destruct IH as [Hs2 IH].
    split; [by eapply same_but_trans|done].
  - rewrite filter_cons_False by (rewrite E; by intros []). by apply IH.
Qed.

Lemma MaterializeRows_Header (p : DataPacket) : p_Header (MaterializeRows p) = p_Header p.
Proof. unfold MaterializeRows. by case_match. Qed.

Lemma transaction_outcome (e : import_error) d :
  let '(d', r) := transaction fault e d in db_tables d' = db_tables d /\ match r with Ok _ => True | Err e' => e' = e end.
Proof. pose proof (change_outcome e Some d) as Hc. unfold transaction. destruct (change _ _ _ d) as [d' [?|?]]; [by simplify_eq|by destruct Hc]. Qed.

Lemma CreateTable_outcome (name : string) (sch : Schema) d :
  let '(d', r) := CreateTable fault name sch d in
  match r with
  | Ok _ => db_tables d !! name = None /\ db_tables d' = <[name := ts_create sch]> (db_tables d)
  | Err e => e = CreateFailed /\ db_tables d' = db_tables d
  end.
Proof.
  pose proof (change_outcome CreateFailed (fun m => match m !! name with Some _ => None | None => Some (<[name := ts_create sch]> m) end) d) as Hc.
  unfold CreateTable. destruct (change _ _ _ d) as [d' [?|?]]; [|done]. case_match; by simplify_eq.
Qed.

(** What the copy strategy does between the beginning and the end of the transaction. *)
Definition copy_packets (tableName : string) (canonical : Schema) (st : ImportStrategy) (pkts : list DataPacket) : Op T unit :=
  let temp := temp_name tableName in
  CreateTable fault temp canonical ≫= fun _ =>
  insert_all canonical (insert_temp temp st) pkts ≫= fun _ =>
  on_error (replaceTables fault tableName temp) (after_ignoring (DropTable fault temp)).

Lemma copy_packets_outcome (target : string) (canonical : Schema) (st : ImportStrategy) (pkts : list DataPacket) d :
  let '(d', r) := copy_packets target canonical st pkts d in
  match r with
  | Ok _ => replaced target (load st canonical pkts (ts_create canonical)) (db_tables d) (db_tables d')
  | Err e => e <> CommitFailed /\ kept target (db_tables d) (db_tables d')
  end.
Proof.
  unfold copy_packets, mbind, op_bind.
  pose proof (CreateTable_outcome (temp_name target) canonical d) as Hc.
  destruct (CreateTable _ _ _ _) as [d1 [[]|e]]; [|destruct Hc as [-> ->]; split; [done|by apply kept_temp]].
  destruct Hc as [Hn Hc]. assert (same_but (temp_name target) (db_tables d) (db_tables d1)) as S1 by (rewrite Hc; auto).
  pose proof (insert_all_temp (temp_name target) st canonical pkts (ts_create canonical) d1) as Hi.
  rewrite Hc, lookup_insert_eq in Hi. specialize (Hi eq_refl). rewrite <- Hc in Hi.
  destruct (insert_all _ _ _ _) as [d2 [[]|e]]; destruct Hi as [S2 Hi]; [|subst; eauto using kept_temp, same_but_trans].
  unfold on_error. pose proof (replaceTables_outcome target _ d2 Hi) as Hr.
  destruct (replaceTables _ _ _ _) as [d3 [[]|e]]; [eauto using replaced_same_but, same_but_trans|]. destruct Hr as [He Hr].
  unfold after_ignoring, mbind, op_bind. next_op H1. split; [done|].
  eapply kept_same_but; [by eapply same_but_trans|done|]. by destruct H1 as [->| ->].
Qed.
End Facts.

(** C14. A copy import of packets (through a temporary table) in which any operation may fail: when it reports
    success the table holds exactly the rows of the packets whose schema is the first packet's, loaded in order
    into a new table, and the former table is gone or left under its old name; on any error but that of the
    final commit the table is as it was or, when the renaming back failed too, all of it is under the old name.
    No other table changes.  (An error at the commit comes after the table was replaced.) *)
Theorem copy_import_all_or_nothing {T : Type} `{TableStore T} (fault : nat -> bool) (stamp : string) (first : DataPacket) (pkts : list DataPacket) (d : database T) :
  let target := h_TableName (p_Header first) in
  let '(d', r) := ImportPackets fault true stamp (first :: pkts) StrategyCopy d in
  let loaded := load StrategyCopy (p_Schema first) (map MaterializeRows (first :: pkts)) (ts_create (p_Schema first)) in
  match r with
  | Ok _ | Err CommitFailed => replaced stamp target loaded (db_tables d) (db_tables d')
  | Err _ => kept stamp target (db_tables d) (db_tables d')
  end.
Proof.
  intros target. unfold ImportPackets. cbn [is_copy andb]. fold target.
  set (ps := map MaterializeRows (first :: pkts)).
  change (CreateTable _ _ _ ≫= _) with (copy_packets fault stamp target (p_Schema first) StrategyCopy ps).
  unfold mbind at 1, op_bind at 1. pose proof (transaction_outcome fault NoTransaction d) as Hb.
  destruct (transaction fault NoTransaction d) as [d1 [[]|e]]; destruct Hb as [E1 He]; [|subst e; rewrite E1; by apply kept_temp].
  rewrite <- E1. unfold on_error at 1, mbind at 1, op_bind at 1.
  pose proof (copy_packets_outcome fault stamp target (p_Schema first) StrategyCopy ps d1) as Hc.
  destruct (copy_packets _ _ _ _ _ _ _) as [d2 [[]|e]].
  - pose proof (transaction_outcome fault CommitFailed d2) as Ht.
    destruct (transaction fault CommitFailed d2) as [d3 [[]|e]]; destruct Ht as [E3 He3]; [by rewrite E3|subst e].
    unfold after_ignoring, ignore, mbind, op_bind, fail. cbn. pose proof (transaction_outcome fault RollbackFailed d3) as Hr.
    destruct (transaction fault RollbackFailed d3) as [d4 r4]. destruct Hr as [E4 _]. cbn. by rewrite E4, E3.
  - destruct Hc as [He' Hk]. unfold after_ignoring, ignore, mbind, op_bind, fail. cbn. pose proof (transaction_outcome fault RollbackFailed d2) as Hr.
    destruct (transaction fault RollbackFailed d2) as [d4 r4]. destruct Hr as [E4 _]. cbn. rewrite E4. by destruct e.
Qed.

(** A single packet of the right type is a list of one, without the transaction. *)
Lemma importWithTemporaryTable_copy {T : Type} `{TableStore T} (fault : nat -> bool) (stamp : string) (pkt : DataPacket) (st : ImportStrategy) (d : database T) :
  importWithTemporaryTable fault stamp pkt st d = copy_packets fault stamp (h_TableName (p_Header pkt)) (p_Schema pkt) st [pkt] d.
Proof.
  assert (SchemaEquals (p_Schema pkt) (p_Schema pkt) = true) as E.
  { unfold SchemaEquals. rewrite Nat.eqb_refl. cbn. induction (s_Fields (p_Schema pkt)) as [|f fs IH]; [done|]. cbn. by rewrite !String.eqb_refl. }
  unfold importWithTemporaryTable, copy_packets, mbind, op_bind. destruct (CreateTable _ _ _ d) as [d1 [[]|e]]; [|done].
  cbn [insert_all]. rewrite E. unfold mbind, op_bind. by destruct (insert_temp _ _ _ _ d1) as [d2 [[]|e]] eqn:Ei; unfold insert_temp in Ei; rewrite Ei.
Qed.

Lemma copy_import_packet {T : Type} `{TableStore T} (fault : nat -> bool) (stamp : string) (pkt : DataPacket) (d : database T) :
  let p := MaterializeRows pkt in
  let target := h_TableName (p_Header p) in
  let '(d', r) := ImportPacket fault true stamp pkt StrategyCopy d in
  match r with
  | Ok _ => replaced stamp target (load StrategyCopy (p_Schema p) [p] (ts_create (p_Schema p))) (db_tables d) (db_tables d')
  | Err _ => kept stamp target (db_tables d) (db_tables d')
  end.
Proof.
  intros p target. unfold ImportPacket. cbn [is_copy andb]. fold p. destruct (importable p); cbn; [|by apply kept_temp].
  rewrite importWithTemporaryTable_copy. pose proof (copy_packets_outcome fault stamp target (p_Schema p) StrategyCopy [p] d) as Hc.
  fold target. destruct (copy_packets _ _ _ _ _ _ _) as [d' [[]|e]]; [done|]. by destruct Hc.
Qed.

(** A table left under its old name blocks every later copy import: while [t] and [t_old] both exist, no
    copy import of packets for [t] is reported as done, whatever its packets. *)
Theorem leftover_old_blocks_imports {T : Type} `{TableStore T} (fault : nat -> bool) (stamp : string) (first : DataPacket) (pkts : list DataPacket) (d : database T) (t u : T) :
  let target := h_TableName (p_Header first) in
  db_tables d !! target = Some t -> db_tables d !! old_name target = Some u ->
  (ImportPackets fault true stamp (first :: pkts) StrategyCopy d).2 <> Ok ().
Proof.
  intros target Ht Hu. pose proof (import_names stamp target) as (N1 & N2 & N3). unfold ImportPackets. cbn [is_copy andb]. fold target.
  set (ps := map MaterializeRows (first :: pkts)).
  change (CreateTable _ _ _ ≫= _) with (copy_packets fault stamp target (p_Schema first) StrategyCopy ps).
  unfold mbind at 1, op_bind at 1. pose proof (transaction_outcome fault NoTransaction d) as Hb.
  destruct (transaction fault NoTransaction d) as [d1 [[]|e]]; destruct Hb as [E1 _]; [|done]. rewrite <- E1 in *.
  unfold on_error at 1, mbind at 1, op_bind at 1, copy_packets, mbind at 1, op_bind at 1.
  pose proof (CreateTable_outcome fault (GenerateTempTableName stamp target) (p_Schema first) d1) as Hc.
  destruct (CreateTable _ _ _ _) as [d2 [[]|e]]; [|done]. destruct Hc as [_ Hc]. unfold mbind at 1, op_bind at 1.
  pose proof (insert_all_temp fault (GenerateTempTableName stamp target) StrategyCopy (p_Schema first) ps (ts_create (p_Schema first)) d2) as Hi.
  rewrite Hc, lookup_insert_eq in Hi. specialize (Hi eq_refl). destruct (insert_all _ _ _ _) as [d3 [[]|e]]; [|done]. destruct Hi as [S3 _].
  unfold on_error at 1, replaceTables, mbind at 1, op_bind at 1.
  pose proof (exists_outcome fault target d3) as He. destruct (TableExists fault target d3) as [d4 [b|e]]; destruct He as [E4 He]; [|done].
  rewrite S3, lookup_insert_ne in He by congruence. rewrite Ht, bool_decide_eq_true_2 in He by eauto. subst b.
  unfold mbind at 1, op_bind at 1. pose proof (rename_outcome fault RenameOldFailed target (old_name target) d4) as Hr.
  destruct (RenameTable _ _ _ _ _) as [d5 [[]|e]]; [|done].
  destruct Hr as (? & _ & Hn & _). rewrite E4, S3, lookup_insert_ne, Hu in Hn by congruence. done.
Qed.

Lemma leftover_old_blocks_imports_witness :
  (ImportPackets (fun _ => false) true "20260101_000000" [rows_packet ["a"]] StrategyCopy
    (MkDatabase (<["users" := []]> (<["users_old" := []]> ∅)) 0)).2 <> Ok ().
Proof. by apply (leftover_old_blocks_imports (fun _ => false) "20260101_000000" (rows_packet ["a"]) [] (MkDatabase (<["users" := []]> (<["users_old" := []]> ∅)) 0) [] []). Defined.

Lemma importDirect_ok {T : Type} `{TableStore T} (fault : nat -> bool) (target : string) (sch : Schema) (rows : list Row) (st : ImportStrategy) (t : T) (d : database T) :
  db_tables d !! target = Some t -> fault (db_count d) = false -> fault (S (db_count d)) = false ->
  importDirect fault target sch rows st d = (MkDatabase (<[target := ts_insert st sch rows t]> (db_tables d)) (S (S (db_count d))), Ok ()).
Proof.
  intros Ht F1 F2. unfold importDirect, mbind, op_bind, TableExists. rewrite F1, bool_decide_eq_true_2 by eauto. cbn.
  unfold InsertRows, tick. cbn. by rewrite Ht, F2.
Qed.
Lemma importDirect_fails {T : Type} `{TableStore T} (fault : nat -> bool) (target : string) (sch : Schema) (rows : list Row) (st : ImportStrategy) (t : T) (d : database T) :
  db_tables d !! target = Some t -> fault (db_count d) = false -> fault (S (db_count d)) = true ->
  importDirect fault target sch rows st d = (MkDatabase (<[target := ts_partial (S (db_count d)) st sch rows t]> (db_tables d)) (S (S (db_count d))), Err InsertFailed).
Proof.
  intros Ht F1 F2. unfold importDirect, mbind, op_bind, TableExists. rewrite F1, bool_decide_eq_true_2 by eauto. cbn.
  unfold InsertRows, tick. cbn. by rewrite Ht, F2.
Qed.

Lemma insert_all_direct {T : Type} `{TableStore T} (fault : nat -> bool) (target : string) (canonical : Schema) (st : ImportStrategy) (before rest : list DataPacket) (t : T) (d : database T) :
  Forall (fun p => SchemaEquals canonical (p_Schema p) = true) before -> db_tables d !! target = Some t ->
  (forall n, n < 2 * length before -> fault (db_count d + n) = false) ->
  let ins := fun pkt => importDirect fault target (p_Schema pkt) (d_Rows (p_Data pkt)) st in
  exists d', insert_all canonical ins (before ++ rest) d = insert_all canonical ins rest d' /\
    db_tables d' !! target = Some (load st canonical before t) /\ db_count d' = db_count d + 2 * length before.
Proof.
  intros Hs. revert t d. induction Hs as [|p before Hp Hs IH]; intros t d Ht Hf ins; [exists d; cbn; split_and!; [done..|lia]|].
  cbn [app insert_all]. rewrite Hp. unfold mbind, op_bind, ins at 1.
  rewrite (importDirect_ok _ _ _ _ _ t) by (done || (specialize (Hf 0); rewrite Nat.add_0_r in Hf; apply Hf; cbn; lia) || (rewrite <- Nat.add_1_r; apply Hf; cbn; lia)).
  destruct (IH (ts_insert st (p_Schema p) (d_Rows (p_Data p)) t) (MkDatabase (<[target := ts_insert st (p_Schema p) (d_Rows (p_Data p)) t]> (db_tables d)) (S (S (db_count d))))) as (d' & Hi & Hd & Hc).
  - cbn. apply lookup_insert_eq.
  - intros n Hn. cbn. replace (S (S (db_count d + n))) with (db_count d + (2 + n)) by lia. apply Hf. cbn. lia.
  - exists d'. cbn in Hc. split_and!; [exact Hi| |cbn; lia]. rewrite Hd. unfold load. by rewrite filter_cons_True by (by rewrite Hp).
Qed.

(** A direct import of packets is not one transaction: when the insertion of a packet is the first operation to
    fail, the error is reported and the table keeps the rows of every packet before it, with what the failed
    insertion left. *)
Theorem failed_import_keeps_first_packets {T : Type} `{TableStore T} (fault : nat -> bool) (temporary : bool) (stamp : string) (first : DataPacket)
    (st : ImportStrategy) (before : list DataPacket) (pkt : DataPacket) (after : list DataPacket) (t : T) (d : database T) :
  let pkts := before ++ pkt :: after in
  let target := h_TableName (p_Header first) in
  head pkts = Some first -> temporary && is_copy st = false ->
  Forall (fun p => SchemaEquals (p_Schema first) (p_Schema p) = true) pkts ->
  db_tables d !! target = Some t ->
  (forall n, n < 2 + 2 * length before -> fault (db_count d + n) = false) -> fault (db_count d + (2 + 2 * length before)) = true ->
  let '(d', r) := ImportPackets fault temporary stamp pkts st d in
  let p := MaterializeRows pkt in
  r = Err InsertFailed /\
  db_tables d' !! target =
    Some (ts_partial (db_count d + (2 + 2 * length before)) st (p_Schema p) (d_Rows (p_Data p)) (load st (p_Schema first) (map MaterializeRows before) t)).
Proof.
  intros pkts target Hh Htc Hs Ht Hf Hbad. unfold ImportPackets. destruct pkts as [|f ps] eqn:E; [done|]. injection Hh as ->.
  rewrite Htc. fold target. rewrite <- E. unfold pkts. rewrite map_app. cbn [map].
  rewrite <- E in Hs. unfold pkts in Hs. apply Forall_app in Hs as [Hs1 Hs2]. apply Forall_cons in Hs2 as [Hp _].
  unfold mbind at 1, op_bind at 1, transaction at 1, change at 1.
  assert (fault (db_count d) = false) as -> by (specialize (Hf 0); rewrite Nat.add_0_r in Hf; apply Hf; lia).
  unfold on_error, mbind at 1, op_bind at 1.
  destruct (insert_all_direct fault target (p_Schema first) st (map MaterializeRows before) (MaterializeRows pkt :: map MaterializeRows after) t
      (MkDatabase (db_tables d) (S (db_count d)))) as (d1 & -> & Hd & Hc).
  - apply Forall_map. eapply Forall_impl; [exact Hs1|]. intros p. cbn. by rewrite MaterializeRows_Schema.
  - done.
  - rewrite length_map. intros n Hn. cbn. replace (S (db_count d + n)) with (db_count d + (1 + n)) by lia. apply Hf. lia.
  - rewrite length_map in Hc. cbn [db_count] in Hc. cbn [insert_all]. rewrite MaterializeRows_Schema, Hp.
    assert (S (db_count d1) = db_count d + (2 + 2 * length before)) as Hn by lia.
    unfold mbind at 1, op_bind at 1. rewrite (importDirect_fails _ _ _ _ _ _ _ Hd); [|replace (db_count d1) with (db_count d + (1 + 2 * length before)) by lia; apply Hf; lia|by rewrite Hn].
    unfold after_ignoring, ignore, mbind, op_bind, fail. cbn -[transaction Nat.mul Nat.add].
    match goal with |- context [transaction fault ?e ?x] => pose proof (transaction_outcome fault e x) as Hr; destruct (transaction fault e x) as [d4 r4] end.
    cbn [fst]. destruct Hr as [-> _]. cbn -[Nat.mul Nat.add]. by rewrite lookup_insert_eq, Hn.
Qed.

Lemma failed_import_keeps_first_packets_witness :
  let d := MkDatabase (<["users" := []]> ∅) 0 in
  let '(d', r) := ImportPackets (fun n => n =? 4)%nat true "20260101_000000" ([rows_packet ["a"; "b"]] ++ rows_packet ["c"; "d"] :: []) StrategyReplace d in
  let p := MaterializeRows (rows_packet ["c"; "d"]) in
  r = Err InsertFailed /\
  db_tables d' !! "users" = Some (ts_partial 4 StrategyReplace (p_Schema p) (d_Rows (p_Data p)) (load StrategyReplace zero_Schema (map MaterializeRows [rows_packet ["a"; "b"]]) [])).
Proof.
  refine (failed_import_keeps_first_packets (fun n => n =? 4)%nat true "20260101_000000" (rows_packet ["a"; "b"]) StrategyReplace [rows_packet ["a"; "b"]]
    (rows_packet ["c"; "d"]) [] [] (MkDatabase (<["users" := []]> ∅) 0) _ _ _ _ _ _); [done|done|by repeat constructor|done| |done].
  cbn. intros n Hn. apply Nat.eqb_neq. lia.
Defined.
