(* ===== verification/AdapterExport.v ===== *)
(** * AdapterExport: reading tables out of a database (src/pkg/adapters/base/export_helper.go)

    The helper every adapter delegates its exports to: a query is turned into SQL and run by the database, and
    where that fails the whole table is read and the query executed in memory.  The database is a parameter
    ([DataSource]): its tables, what it makes of a SQL text, the adapter's rewriting of the text and of the rows.
    The theorems say what a projection of columns gives, what a reader of pages sees, and what becomes of
    the query of the incremental synchronisation (IncrementalSync). *)

From Stdlib Require Import ZArith Lia Ascii String.
From stdpp Require Import base gmap list strings.
From S2P Require Import Prelude Strconv PacketTypes RowCodec PacketOps DictionaryV14 SpecialValuesV131 PacketGenerator SchemaPkg QueryFilter QueryExecutor SqlGenerator Retry IncrementalSync.

Open Scope Z_scope.

(** [SchemaReader], [DataReader], and the optional [SQLAdapter] and [RowPostProcessor]. *)
Record DataSource := MkDataSource {
  GetTableSchema : string -> result string Schema;
  ReadAllRows : string -> Schema -> result string (list (list string));
  ReadRowsWithSQL : string -> Schema -> result string (list (list string));
  GetRowCount : string -> result string Z;
  AdaptSQL : option (string -> string -> Schema -> Query -> string);
  PostProcessRows : option (Schema -> list (list string) -> Schema * list (list string));
}.
Record ExportHelper := MkExportHelper { eh_maxMessageSize : Z; eh_skipSpecialValues : bool; eh_maxFallbackRows : Z }.

Inductive adapter_error :=
| SourceFailed (e : string) | ProjectionField (name : string) | QueryInvalid (e : ExecError) | FallbackAborted (count : Z)
| QueryFailed (e : ExecError) | ReferenceFailed (e : dict_error) | ConfigInvalid (e : sync_error) | NoTrackingColumn (name : string)
| IncrementalReadFailed (e : string).

Definition from_source {A} (r : result string A) : result adapter_error A := match r with Ok a => Ok a | Err e => Err (SourceFailed e) end.

Definition helper_newGenerator (h : ExportHelper) : Generator :=
  let g := NewGenerator in
  let g := if 0 <? eh_maxMessageSize h then SetMaxMessageSize (eh_maxMessageSize h) g else g in
  if eh_skipSpecialValues h then SetSkipSpecialValues true g else g.

Definition post_process (src : DataSource) (schema : Schema) (rows : list (list string)) : Schema * list (list string) :=
  match PostProcessRows src with Some f => f schema rows | None => (schema, rows) end.

Section Helper.
  Context {V : GoValues} {C : GoCase} (w : World) (h : ExportHelper) (src : DataSource).

Definition ExportTable (tableName : string) : result adapter_error (list DataPacket) :=
  schema ← from_source (GetTableSchema src tableName);
  rows ← from_source (ReadAllRows src tableName schema);
  let '(schema, rows) := post_process src schema rows in
  match GenerateReference w (helper_newGenerator h) tableName schema rows with Ok ps => Ok ps | Err e => Err (ReferenceFailed e) end.

(** *** Projection *)

(** [nameToIdx]: of fields with the same name in lower case the last one. *)
Fixpoint name_to_idx (i : nat) (fields : list Field) (m : gmap string nat) : gmap string nat :=
  match fields with [] => m | f :: fields => name_to_idx (S i) fields (<[ToLower (f_Name f) := i]> m) end.
Fixpoint project_fields (full : list Field) (names : list string) : result adapter_error (list Field * list nat) :=
  match names with
  | [] => Ok ([], [])
  | name :: names =>
      match name_to_idx 0 full ∅ !! ToLower name with
      | None => Err (ProjectionField name)
      | Some idx =>
          '(fs, idxs) ← project_fields full names;
          Ok (match full !! idx with Some f => f :: fs | None => fs end, idx :: idxs)
      end
  end.
Definition filterSchemaByFields (full : Schema) (names : list string) : result adapter_error (Schema * list nat) :=
  '(fs, idxs) ← project_fields (s_Fields full) names;
  Ok (set_s_Fields fs zero_Schema, idxs).
Definition projectRows (rows : list (list string)) (indices : list nat) : list (list string) :=
  map (fun row => map (fun idx => default "" (row !! idx)) indices) rows.

(** *** Queries *)

Definition createQueryContextForSQL (query : Query) (rows : list (list string)) (tableName : string) : QueryContext :=
  let returned := zlen rows in
  let '(total, more, next) :=
    if 0 <? q_Limit query then
      let total := match GetRowCount src tableName with Ok count => count | Err _ => 0 end in
      let position := wrap64 (q_Offset query + returned) in
      if position <? total then (total, true, position) else (total, false, 0)
    else (0, false, 0) in
  MkQueryContext query (MkExecutionResults total returned returned more next) None "" "".

(** The rows the database gives for the query, with the schema they come in: [None] when it has to be executed in memory. *)
Definition pushdown (tableName : string) (query : Query) (fullSchema pkgSchema : Schema) : option (Schema * list (list string)) :=
  if CanTranslateToSQL query then
    match GenerateSQL tableName (Some query) with
    | Ok standardSQL =>
        let adaptedSQL := match AdaptSQL src with Some adapt => adapt standardSQL tableName fullSchema query | None => standardSQL end in
        match ReadRowsWithSQL src adaptedSQL pkgSchema with Ok rows => Some (post_process src pkgSchema rows) | Err _ => None end
    | Err _ => None
    end
  else None.
(** Too many rows to read them all. *)
Definition fallback_aborted (tableName : string) : option Z :=
  if 0 <? eh_maxFallbackRows h then
    match GetRowCount src tableName with Ok count => if eh_maxFallbackRows h <? count then Some count else None | Err _ => None end
  else None.
Definition fallback (tableName : string) (query : Query) (fullSchema pkgSchema : Schema) (indices : list nat)
    : result adapter_error (Schema * list (list string) * option QueryContext) :=
  match fallback_aborted tableName with
  | Some count => Err (FallbackAborted count)
  | None =>
      allRows ← from_source (ReadAllRows src tableName fullSchema);
      match Execute (Some query) allRows fullSchema with
      | Err e => Err (QueryFailed e)
      | Ok r =>
          let '(schema, rows) :=
            if (0 <? length indices)%nat then (pkgSchema, projectRows (xr_FilteredRows r) indices) else (fullSchema, xr_FilteredRows r) in
          Ok (post_process src schema rows, xr_QueryContext r)
      end
  end.

Definition InReplyToDirectExport : string := "DirectExport".
Definition ExportTableWithQuery (tableName : string) (query : option Query) (sender recipient : string) : result adapter_error (list DataPacket) :=
  match query with
  | None => ExportTable tableName
  | Some query =>
      fullSchema ← from_source (GetTableSchema src tableName);
      '(pkgSchema, indices) ← (if (0 <? length (q_Fields query))%nat then filterSchemaByFields fullSchema (q_Fields query) else Ok (fullSchema, []));
      match ValidateQuery query fullSchema with
      | Err e => Err (QueryInvalid e)
      | Ok _ =>
          let query := NormalizeQueryFields query fullSchema in
          let respond schema rows qc := GenerateResponse w (helper_newGenerator h) tableName InReplyToDirectExport schema rows qc sender recipient in
          match pushdown tableName query fullSchema pkgSchema with
          | Some (schema, rows) => Ok (respond schema rows (Some (createQueryContextForSQL query rows tableName)))
          | None =>
              '(schema, rows, qc) ← fallback tableName query fullSchema pkgSchema indices;
              Ok (respond schema rows qc)
          end
      end
  end.

(** *** Incremental exports: the packets and the value to start from the next time *)

Definition ExportTableIncremental (tableName : string) (config : IncrementalConfig)
    (buildIncrementalSQL : string -> IncrementalConfig -> string * list string)
    (executeIncrementalQuery : string -> list string -> Schema -> result string (list (list string) * string))
    : result adapter_error (list DataPacket * string) :=
  match IncrementalConfig_Validate config with
  | Err e => Err (ConfigInvalid e)
  | Ok config =>
      schema ← from_source (GetTableSchema src tableName);
      fail_if negb (existsb (fun f => String.eqb (f_Name f) (ic_TrackingField config)) (s_Fields schema)) with NoTrackingColumn (ic_TrackingField config) ;;
      let '(sql, args) := buildIncrementalSQL tableName config in
      match executeIncrementalQuery sql args schema with
      | Err e => Err (IncrementalReadFailed e)
      | Ok (rows, lastTrackingValue) =>
          if (length rows =? 0)%nat then Ok ([], ic_InitialValue config)
          else match GenerateReference w (helper_newGenerator h) tableName schema rows with Ok ps => Ok (ps, lastTrackingValue) | Err e => Err (ReferenceFailed e) end
      end
  end.
End Helper.

(** ** Projection *)

Lemma name_to_idx_spec {C : GoCase} (fields : list Field) (i : nat) (m : gmap string nat) (k : string) :
  match name_to_idx i fields m !! k with
  | Some j => m !! k = Some j /\ (forall f, f ∈ fields -> ToLower (f_Name f) <> k)
              \/ exists f, (i <= j)%nat /\ fields !! (j - i)%nat = Some f /\ ToLower (f_Name f) = k
  | None => m !! k = None /\ forall f, f ∈ fields -> ToLower (f_Name f) <> k
  end.
Proof.
  revert i m; induction fields as [|f fields IH]; intros i m; cbn [name_to_idx].
  { assert (forall f, f ∈ @nil Field -> ToLower (f_Name f) <> k) by (by intros f ?%elem_of_nil). destruct (m !! k); auto. }
  specialize (IH (S i) (<[ToLower (f_Name f) := i]> m)). destruct (decide (ToLower (f_Name f) = k)) as [Hk|Hk].
  - rewrite Hk in *. rewrite lookup_insert_eq in IH. destruct (name_to_idx _ _ _ !! k) as [j|]; [|by destruct IH]. right.
    destruct IH as [[[= <-] _]|(g & Hj & Hg & E)]; [exists f; by rewrite Nat.sub_diag|].
    exists g. split; [lia|]. replace (j - i)%nat with (S (j - S i)) by lia. done.
  - rewrite lookup_insert_ne in IH by done.
    assert (forall P : Prop, (P /\ forall g, g ∈ fields -> ToLower (f_Name g) <> k) -> P /\ forall g, g ∈ f :: fields -> ToLower (f_Name g) <> k) as Hc.
    { intros P [HP HF]. split; [done|]. intros g [->|Hg]%elem_of_cons; [done|by apply HF]. }
    destruct (name_to_idx _ _ _ !! k) as [j|]; [|by apply Hc]. destruct IH as [IH|(g & Hj & Hg & E)]; [left; by apply Hc|].
    right. exists g. split; [lia|]. replace (j - i)%nat with (S (j - S i)) by lia. done.
Qed.

(** The column of [full] that is named [name], up to letter case. *)
Definition names_column {C : GoCase} (full : Schema) (name : string) (i : nat) (f : Field) : Prop :=
  s_Fields full !! i = Some f /\ ToLower (f_Name f) = ToLower name.

Lemma project_fields_spec {C : GoCase} (full : list Field) (names : list string) :
  match project_fields full names with
  | Ok (fs, idxs) => Forall2 (fun name '(f, i) => full !! i = Some f /\ ToLower (f_Name f) = ToLower name) names (zip fs idxs) /\ length fs = length idxs
  | Err e => exists name, name ∈ names /\ e = ProjectionField name /\ forall f, f ∈ full -> ToLower (f_Name f) <> ToLower name
  end.
Proof.
  induction names as [|name names IH]; cbn [project_fields]; [by split|].
  pose proof (name_to_idx_spec full 0 ∅ (ToLower name)) as Hn. destruct (name_to_idx 0 full ∅ !! ToLower name) as [j|].
  - destruct Hn as [[Hn _]|(f & _ & Hf & E)]; [by rewrite lookup_empty in Hn|]. rewrite Nat.sub_0_r in Hf.
    destruct (project_fields full names) as [[fs idxs]|e]; cbn; rewrite ?Hf.
    + destruct IH as [IH Hl]. split; [by constructor|cbn; by rewrite Hl].
    + destruct IH as (x & Hx & ? & ?). exists x. split; [by constructor|done].
  - exists name. split; [constructor|]. split; [done|]. by destruct Hn.
Qed.

(** C39. A projection has the columns asked for, in that order, each found by its name whatever its letter case, and gives
    for every row the cells of these columns (empty where the row is short); it fails exactly for a name no column
    has. *)
Theorem projection_correct {C : GoCase} (full : Schema) (names : list string) :
  match filterSchemaByFields full names with
  | Ok (schema, indices) =>
      length (s_Fields schema) = length names
      /\ (forall rows, length (projectRows rows indices) = length rows)
      /\ forall k name, names !! k = Some name -> exists i f, names_column full name i f
         /\ s_Fields schema !! k = Some f
         /\ forall rows r row, rows !! r = Some row -> (projectRows rows indices !! r) ≫= (.!! k) = Some (default "" (row !! i))
  | Err e => exists name, name ∈ names /\ e = ProjectionField name /\ forall i f, ~ names_column full name i f
  end.
Proof.
  unfold filterSchemaByFields. pose proof (project_fields_spec (s_Fields full) names) as Hp.
  destruct (project_fields (s_Fields full) names) as [[fs idxs]|e]; cbn -[projectRows].
  - destruct Hp as [Hp Hl]. pose proof (Forall2_length _ _ _ Hp) as Hn. rewrite length_zip in Hn.
    split_and!; [lia|intros rows; apply length_map|]. intros k name Hk.
    destruct (Forall2_lookup_l _ _ _ _ _ Hp Hk) as ([f i] & Hz & Hf & E). apply lookup_zip_Some in Hz as [H1 H2].
    exists i, f. split; [done|]. split; [done|]. intros rows r row Hr. unfold projectRows. rewrite list_lookup_fmap, Hr. cbn.
    by rewrite list_lookup_fmap, H2.
  - destruct Hp as (name & Hin & -> & Hno). exists name. split_and!; [done..|]. unfold names_column. intros i f [Hf E]. apply (Hno f); [by eapply list_elem_of_lookup_2|done].
Qed.

(** ** Pages *)

(** A reader of pages that follows the next offset never comes to the end of a filtered table: beyond the last row
    that matches, while the offset is below the number of all rows of the table, each page is empty, says there is
    more, and gives its own offset as the next. *)
Theorem filtered_pages_never_end {V : GoValues} {C : GoCase} (w : World) (h : ExportHelper) (src : DataSource) (tableName : string) (query : Query)
    (sender recipient : string) (full : Schema) (sql : string) (total : Z) (q := NormalizeQueryFields query full) :
  GetTableSchema src tableName = Ok full -> q_Fields query = [] -> ValidateQuery query full = Ok () ->
  GenerateSQL tableName (Some q) = Ok sql -> AdaptSQL src = None -> PostProcessRows src = None -> ReadRowsWithSQL src sql full = Ok [] ->
  GetRowCount src tableName = Ok total -> 0 < q_Limit query -> 0 <= q_Offset query < total -> total <= max_int64 ->
  exists p qc, ExportTableWithQuery w h src tableName (Some query) sender recipient = Ok [p] /\ GetRows p = [] /\ p_QueryContext p = Some qc
    /\ er_MoreDataAvailable (qc_ExecutionResults qc) = true /\ er_NextOffset (qc_ExecutionResults qc) = q_Offset query.
Proof.
  intros Hs Hf Hv Hg Ha Hp Hr Hn Hl Ho Ht. unfold ExportTableWithQuery. rewrite Hs, Hf. cbn [from_source mbind result_bind length Nat.ltb Nat.leb].
  rewrite Hv. fold q. unfold pushdown. cbn [CanTranslateToSQL]. rewrite Hg, Ha, Hr. unfold post_process at 1. rewrite Hp.
  unfold createQueryContextForSQL. change (q_Limit q) with (q_Limit query). change (q_Offset q) with (q_Offset query).
  rewrite (proj2 (Z.ltb_lt _ _) Hl), Hn. replace (zlen (@nil (list string))) with 0 by done. rewrite Z.add_0_r.
  assert (wrap64 (q_Offset query) = q_Offset query) as Hw by (apply wrap64_id; unfold int64b, min_int64, max_int64 in *; rewrite andb_true_iff, !Z.leb_le; lia).
  rewrite Hw, (proj2 (Z.ltb_lt _ _) (proj2 Ho)).
  unfold GenerateResponse. replace (detect_if (helper_newGenerator h) [] full) with (@nil (list string), full) by (unfold detect_if; by destruct (negb _)).
  cbn. eexists _, _. split_and!; done.
Qed.

(** ** The query of the incremental synchronisation *)

Section Sync.
  Context {V : GoValues} {C : GoCase} {J : StateJson}.

(** [adapter.ExportTableWithQuery] as the command calls it; [text] is the text of an error. *)
Definition command_export (w : World) (h : ExportHelper) (src : DataSource) (text : adapter_error -> string) (tableName : string) (query : Query)
    : result string (list DataPacket) :=
  match ExportTableWithQuery w h src tableName (Some query) "tdtpcli" "" with Ok ps => Ok ps | Err e => Err (text e) end.

(** The condition of [buildIncrementalQuery] is written [>], which is an operator neither of the SQL generator nor of the executor. *)
Lemma sync_query_filters (opts : SyncOptions) (last : string) (full : Schema) :
  last <> "" ->
  let f := MkFilter (canonical full (so_TrackingField opts)) ">" last "" in
  q_Filters (NormalizeQueryFields (sync_query opts last) full) = Some (MkFilters (Some (MkLogicalGroup [f] [] [])) None).
Proof.
  intros Hl. apply String.eqb_neq in Hl. unfold sync_query, buildIncrementalQuery. rewrite Hl. by destruct (so_Fields opts).
Qed.

Lemma sync_query_no_sql (opts : SyncOptions) (last tableName : string) (full : Schema) :
  last <> "" -> GenerateSQL tableName (Some (NormalizeQueryFields (sync_query opts last) full)) = Err (UnsupportedOperator ">").
Proof. intros Hl. unfold GenerateSQL, where_parts. rewrite (sync_query_filters opts last full Hl). reflexivity. Qed.

Lemma paginate_nil (offset limit : Z) (page : list (list string)) (more : bool) (next : Z) :
  paginate offset limit [] = Ok (page, more, next) -> page = [].
Proof.
  unfold paginate. rewrite drop_nil. set (o := if offset <? 0 then 0 else offset).
  replace (if 0 <? o then if zlen (@nil (list string)) <=? o then [] else [] else []) with (@nil (list string)) by (by repeat case_match).
  unfold slice_from. rewrite drop_nil, take_nil. repeat case_match; cbn; congruence.
Qed.

(** Executed in memory it fails on every table that has a row. *)
Lemma sync_query_execute (opts : SyncOptions) (last : string) (full : Schema) (rows : list (list string)) (r : ExecutionResult) :
  last <> "" -> Execute (Some (NormalizeQueryFields (sync_query opts last) full)) rows full = Ok r -> xr_FilteredRows r = [].
Proof.
  intros Hl. unfold Execute. destruct (ValidateQuery _ _) as [|]; [|done]. cbn [mbind result_bind]. unfold run_filters, ApplyFilters.
  rewrite (sync_query_filters opts last full Hl). destruct rows as [|row rows]; cbn [apply_rows].
  - cbn [mbind result_bind]. destruct (Sort [] _ _) as [sorted|] eqn:Es; [|done]. apply Sort_length in Es.
    destruct sorted; [|done]. cbn [mbind result_bind].
    destruct (paginate _ _ []) as [[[page more] next]|] eqn:Ep; [|done]. apply paginate_nil in Ep. by intros [= <-].
  - assert (exists e, evaluateFilters (evaluateFilter (field_map full) row) (Some (MkFilters (Some (MkLogicalGroup [MkFilter (canonical full (so_TrackingField opts)) ">" last ""] [] [])) None)) ∅ = Err e) as [e ->].
    { cbn. unfold evaluateFilter. cbn [fl_Field]. destruct (field_map full !! _) as [[i fd]|]; [|by eexists]. destruct (row !! i); by eexists. }
    done.
Qed.

Lemma response_of_nothing (w : World) (g : Generator) (t inReplyTo sender recipient : string) (schema : Schema) (qc : option QueryContext) :
  exists p, GenerateResponse w g t inReplyTo schema [] qc sender recipient = [p] /\ d_Rows (p_Data p) = [].
Proof.
  unfold GenerateResponse. replace (detect_if g [] schema) with (@nil (list string), schema) by (unfold detect_if; by destruct (negb _)).
  cbn. by eexists.
Qed.

(** With a checkpoint the export fails, or gives one packet without rows. *)
Lemma export_beyond_checkpoint (w : World) (h : ExportHelper) (src : DataSource) (opts : SyncOptions) (last sender recipient : string) (pkts : list DataPacket) :
  last <> "" -> (forall schema, (post_process src schema []).2 = []) ->
  ExportTableWithQuery w h src (so_TableName opts) (Some (sync_query opts last)) sender recipient = Ok pkts ->
  exists p, pkts = [p] /\ d_Rows (p_Data p) = [].
Proof.
  intros Hl Hp. unfold ExportTableWithQuery. destruct (from_source (GetTableSchema src _)) as [full|]; [|done]. cbn [mbind result_bind].
  match goal with |- context [mbind ?f ?m] => destruct m as [[pkg idxs]|]; [|done] end. cbn [mbind result_bind].
  destruct (ValidateQuery _ _); [|done]. unfold pushdown. cbn [CanTranslateToSQL]. rewrite (sync_query_no_sql opts last _ full Hl).
  unfold fallback. destruct (fallback_aborted h src _); [done|]. destruct (from_source (ReadAllRows src _ full)) as [rows|]; [|done]. cbn [mbind result_bind].
  destruct (Execute _ rows full) as [r|] eqn:Ex; [|done]. apply (sync_query_execute opts last full rows r Hl) in Ex. rewrite Ex.
  assert (exists schema, (if (0 <? length idxs)%nat then (pkg, projectRows [] idxs) else (full, [])) = (schema, [])) as [schema ->] by (case_match; by eexists).
  specialize (Hp schema). destruct (post_process src schema []) as [schema' rows']. cbn in Hp. subst rows'. cbn [mbind result_bind].
  intros [= <-]. apply response_of_nothing.
Qed.

Lemma processed_nothing (process : DataPacket -> option DataPacket) (pkts pkts' : list DataPacket) :
  (forall p p', process p = Some p' -> d_Rows (p_Data p) = [] -> d_Rows (p_Data p') = []) ->
  Forall (fun p => d_Rows (p_Data p) = []) pkts -> run_processors process pkts = Some pkts' -> Forall (fun p => d_Rows (p_Data p) = []) pkts'.
Proof.
  intros Hp H. revert pkts'. induction H as [|p pkts H0 H IH]; intros pkts'; cbn; [by intros [= <-]|].
  destruct (process p) as [p'|] eqn:E; [|done]. cbn. destruct (run_processors process pkts) as [ps|]; [|done]. cbn. intros [= <-].
  constructor; [by eapply Hp|by apply IH].
Qed.

Lemma extract_nothing (pkts : list DataPacket) (tf : string) :
  Forall (fun p => d_Rows (p_Data p) = []) pkts -> exists e, extractLastSyncValue pkts tf = Err e.
Proof.
  intros H. unfold extractLastSyncValue. destruct (length pkts =? 0)%nat; [by eexists|].
  assert (extract_loop tf "" pkts = Ok "" \/ exists e, extract_loop tf "" pkts = Err e) as [->|[e ->]]; [|by eexists..].
  induction H as [|p pkts Hp H IH]; [by left|]. cbn [extract_loop]. rewrite Hp. destruct (tracking_index _ _ _); [done|]. right. by eexists.
Qed.

(** A run that fails at the export keeps the checkpoint. *)
Lemma error_keeps_checkpoint {L : StateJsonLaws J} (opts : SyncOptions) (now : Z) (err : string) (sm sm' : StateManager) (file file' : option string) (r : result sync_error unit) :
  NewStateManager true file true = Ok sm -> checkpoint opts file <> "" -> UpdateStateWithError Written now (so_TableName opts) err sm file = (sm', file', r) ->
  checkpoint opts file' = checkpoint opts file.
Proof.
  intros Hsm. pose proof (opened_plain _ _ _ Hsm) as Hpl. unfold UpdateStateWithError, save_if_auto. cbn [sm_autoSave]. rewrite (opened_autosaves _ _ Hsm).
  cbn [StateManager_saveUnsafe]. unfold checkpoint at 1 3. rewrite Hsm. unfold GetState. destruct (sm_states sm !! so_TableName opts) as [st|] eqn:E; [|done].
  intros _ [= <- <- <-]. destruct (Hpl _ _ E) as (? & ? & ?). unfold checkpoint. rewrite reopen_written by (by apply map_Forall_insert_2).
  rewrite (GetState_written _ true true). unfold GetState. cbn. by rewrite lookup_insert_eq.
Qed.
End Sync.

(** C15. The synchronisation never gets past its first run: once a checkpoint is recorded for the table, every run over any
    of the adapters, whatever the table holds, ends with an error, writes no packet, and leaves the checkpoint as it
    was.  (The database is asked for rows beyond the checkpoint with an operator that neither the SQL generator nor the
    executor knows.) *)
Theorem sync_stuck_after_first_run {V : GoValues} {C : GoCase} {J : StateJson} {L : StateJsonLaws J} (w : World) (h : ExportHelper) (src : DataSource)
    (text : adapter_error -> string) (opts : SyncOptions) (sw : SyncWorld) (file : option string) :
  sw_export sw = command_export w h src text (so_TableName opts) -> (forall schema, (post_process src schema []).2 = []) ->
  (forall p p', sw_process sw p = Some p' -> d_Rows (p_Data p) = [] -> d_Rows (p_Data p') = []) -> sw_save sw = Written -> sw_readable sw = true ->
  checkpoint opts file <> "" ->
  let '(file', pkts, r) := IncrementalSync sw opts file in is_ok r = false /\ pkts = [] /\ checkpoint opts file' = checkpoint opts file.
Proof.
  intros Hex Hpost Hproc Hsave Hread Hc. unfold IncrementalSync. rewrite Hread. destruct (NewStateManager true file true) as [sm|e] eqn:Hsm; [|done].
  assert (ss_LastSyncValue (GetState sm (so_TableName opts)) <> "") as Hl by (unfold checkpoint in Hc; by rewrite Hsm in Hc).
  rewrite Hex. unfold command_export. destruct (ExportTableWithQuery _ _ _ _ _ _ _) as [pkts|e] eqn:Ee.
  - apply export_beyond_checkpoint in Ee as (p & -> & Hp); [|done|done]. cbn [length Nat.eqb].
    destruct (run_processors _ [p]) as [ps|] eqn:Er; [|done].
    apply (processed_nothing _ _ _ Hproc (proj2 (Forall_singleton _ _) Hp)) in Er. by destruct (extract_nothing ps (so_TrackingField opts) Er) as [e' ->].
  - rewrite Hsave. destruct (UpdateStateWithError _ _ _ _ _ _) as [[sm' file'] r'] eqn:Eu. split_and!; [done..|]. by eapply error_keeps_checkpoint.
Qed.

(** ** Witnesses *)

(** A database with one table; [sql] is what it answers to a text. *)
Definition one_table (full : Schema) (rows : list (list string)) (sql : string -> result string (list (list string))) : DataSource :=
  MkDataSource (fun _ => Ok full) (fun _ _ => Ok rows) (fun text _ => sql text) (fun _ => Ok (zlen rows)) None None.
Definition plain_helper : ExportHelper := MkExportHelper 0 true 0.
Definition second_page : Query := MkQuery "TDTQL" "1.0" [] (Some (MkFilters (Some (MkLogicalGroup [MkFilter "id" "gt" "99" ""] [] [])) None)) None 1 1.
Lemma filtered_pages_never_end_witness :
  exists p qc, @ExportTableWithQuery demo_values ascii_case demo_world plain_helper (one_table filter_demo_schema filter_demo_rows (fun _ => Ok [])) "cities" (Some second_page) "a" "b" = Ok [p]
    /\ GetRows p = [] /\ p_QueryContext p = Some qc /\ er_MoreDataAvailable (qc_ExecutionResults qc) = true /\ er_NextOffset (qc_ExecutionResults qc) = 1.
Proof.
  apply (@filtered_pages_never_end demo_values ascii_case demo_world plain_helper (one_table filter_demo_schema filter_demo_rows (fun _ => Ok [])) "cities" second_page "a" "b" filter_demo_schema
    "SELECT * FROM cities WHERE Id > 99 LIMIT 1 OFFSET 1" 4); try (vm_compute; reflexivity); vm_compute; [split; congruence|congruence].
Defined.

(** The first run over the table of the other witnesses, and the second. *)
Definition over_adapter : SyncWorld :=
  MkSyncWorld true (@command_export demo_values ascii_case demo_world plain_helper (one_table id_and_time demo_table (fun _ => Err "no SQL")) (fun _ => "export failed") "t")
    Some (fun _ => true) Written 7.
Definition adapter_first_run := @IncrementalSync demo_state_json ascii_case over_adapter demo_opts None.
Lemma sync_stuck_after_first_run_witness :
  map GetRows adapter_first_run.1.2 = [[["ann"; "2024-05-01"]]]
  /\ let '(file', pkts, r) := @IncrementalSync demo_state_json ascii_case over_adapter demo_opts adapter_first_run.1.1 in
     is_ok r = false /\ pkts = [] /\ @checkpoint demo_state_json demo_opts file' = @checkpoint demo_state_json demo_opts adapter_first_run.1.1.
Proof.
  split; [vm_compute; reflexivity|].
  apply (@sync_stuck_after_first_run demo_values ascii_case demo_state_json demo_state_json_laws demo_world plain_helper (one_table id_and_time demo_table (fun _ => Err "no SQL"))
    (fun _ => "export failed") demo_opts over_adapter adapter_first_run.1.1); [reflexivity|reflexivity|by intros p p' [= <-]|reflexivity|reflexivity|vm_compute; discriminate].
Defined.
